(* ===== verification/_CoqProject ===== *)
-Q . S2P
Prelude.v
GoStrings.v
Trim.v
Sha256.v
DnsLabel.v
Yaml.v
Merge.v
Strategies.v
Revision.v
Inherit.v
Cel.v
Include.v
Manager.v
Compose.v
PodState.v
PodWatch.v
PodFeed.v
Kube.v
Lock.v
LockSpec.v
Alias.v
Podman.v
Validate.v
Workspaces.v
Query.v
BlueprintQuery.v
Effects.v
Values.v
Diff.v
NodePool.v
Jobs.v
Calls.v
OrgBlueprints.v
Manifest.v
Watch.v
RawValidate.v
Cache.v
HelmOps.v
Instance.v
Provision.v
ProvisionSpec.v
Injection.v
InjectionLaws.v
Adapters.v
Update.v
UpdateSpec.v
Lifecycle.v
LifecycleSpec.v
Admission.v
AdmissionSpec.v
Find.v
InjectionWatch.v
WorkspaceDiff.v
Config.v
ChartOps.v
QuerySchema.v
Threat.v
Informers.v
ChartFiles.v
Startup.v
UserStr.v
