(* ===== verification/Prelude.v ===== *)
(** * A verified model of the k8shell workspace provisioner

    The provisioner (Go, src/internal) turns blueprints, YAML documents with
    templates and CEL expressions, into workspaces: Helm releases whose pod it
    watches, protected by a lock and named by web-proxy aliases. This library
    models its core as executable functions and step relations and proves what
    they promise. Names are the source's; every definition that translates code
    ends its comment with the lines it translates.

    ** The parts and their files

    Blueprints (internal/blueprint). A [node] (Yaml.v) is a yaml.v3 tree; the
    library's parser, decoder and encoder are the class [YamlLib].
    - Include.v: [!include] (processIncludes, resolveInclude), run on every file
      before anything else looks at it.
    - Merge.v: mergeYAMLNodes, a child over its template, with the strategies
      that Strategies.v models from server.go.
    - Revision.v: the content hash of a merged blueprint, over Sha256.v.
    - Inherit.v: resolveRawTemplate and resolveInheritance, which use Merge.v and
      Revision.v along the chain of templates. The state is the manager's map of
      raw blueprints, a [gmap] by key ("org/name" for an organization's), passed
      explicitly since resolving a root updates the shared entry.
    - Cel.v: the display form of expressions and its inverse, and the field paths
      of reported problems (validate_raw.go).
    - DnsLabel.v: NormalizeDNSLabel.
    - Validate.v: the validators of blueprint.go; Podman.v: the profiles of
      internal/podmanprofile that the validators and the workspace expand.
    - Manager.v: the blueprint manager (blueprint.go, orgstore.go): the load from
      files and from the org store, the maps a reload publishes one after
      another, and the lookups.
    - Compose.v: the scope of a request, the evaluation of a raw blueprint, and the
      blueprint a repository's file gives with its template (compose.go).
    - RawValidate.v: the issues of a submitted document (validate_raw.go), over
      Cel.v and the checks Manager.v's loads make.
    - OrgBlueprints.v: creating, updating and deleting an organization's blueprints
      (server/org_blueprint.go, db/blueprint.go) as statements over a table that
      other requests change in between, and the reload that follows.
    - Watch.v: the file watcher (watch.go), its threads and timers as steps over one
      memory.

    Workspaces as they are seen (internal/workspace).
    - PodState.v: AnalyzePod and its helpers (podstate.go, helpers.go): one stage
      from a pod and its events.
    - PodWatch.v: watchLoop as a state machine, one step per case of its select,
      with the messages it streams; it calls PodState.v on every update. PodFeed.v:
      the goroutines and the channel that feed it.
    - Workspaces.v: workspaces as they are found, in the pods and releases of a
      cluster (workspace.go: GetWorkspaces, FindWorkspace; revision.go). UserStr.v: the
      user strings read from their annotations. Informers.v: the informers and the
      listings that a lookup reads (helm/informer.go, client.go, workspace.go).
    - Query.v: queries over them (query.go): the matcher of filters, sorting,
      paging, obligations, and what is pushed down into Workspaces.v. The
      matcher is generic in the record it reads; BlueprintQuery.v is its use for
      the blueprints Manager.v lists (internal/blueprint/query.go). QuerySchema.v: the
      tables that describe both to a client, and blueprint/query.go's own matcher.
    - Find.v: the handlers that only read (server/find.go).
    - Diff.v: the comparison of two blueprints (diff.go, helpers.go); WorkspaceDiff.v:
      the handler that compares a workspace with its blueprint (server/diff.go).

    Shared state over optimistic concurrency.
    - Kube.v: what the next two rely on of the API server, the classes
      [KubeStore] (operations) and [KubeLaws] (their laws: optimistic
      concurrency by resource versions), with a finite map that implements them.
    - Lock.v: the Lease lock (lock.go) as a state machine per process, one API
      call per step, and the system of processes and time. LockSpec.v: the mutex it
      refines, and the goroutine that keeps it alive.
    - Alias.v: web-proxy alias claims (alias.go), in the same way, with the
      environment changing time and Helm releases.

    Operations on workspaces. Code that calls out is a tree of calls (Effects.v) of
    the signature of Calls.v, in which the lock and the aliases are one call each;
    theorems hold for every answer, by automata that follow the calls ([conform]),
    and programs are evaluated under a handler ([run]).
    - Values.v: the chart's input (workspace.go: Values; config.go, overcommit.go).
    - Manifest.v: rendered manifests and stored releases; HelmOps.v: the resources
      applied and deleted; ChartOps.v: the client's operations on Helm's actions and
      the chart they share; Cache.v: its cached listings (internal/helm).
    - Instance.v and Provision.v: the operations of a workspace object and
      provisioning (workspace.go, provision.go, pat.go, envvars.go), with the
      theorems in ProvisionSpec.v.
    - Update.v: changes of a running workspace (update.go); UpdateSpec.v.
    - Injection.v: injection into a workload and its removal (helm/inject.go,
      workspace/inject.go, injectlist.go); InjectionLaws.v. Adapters.v: Deployments,
      StatefulSets and DaemonSets behind one interface (helm/workload.go), which
      Injection.v's record [Workload] abstracts. InjectionWatch.v: the clean-up after a
      lost injection (server/watcher.go).
    - NodePool.v: node pools and selectors; Jobs.v: the record and the stream of a
      job (server/provision.go).
    - Admission.v: from a request to an operation (server/provision.go, threat.go);
      AdmissionSpec.v. Threat.v: the detections a workspace is given (threat.go).
      Lifecycle.v: deleting, stopping, ejecting, updating
      (server/lifecycle.go, update.go, delete.go); LifecycleSpec.v.

    The process. Config.v: the configuration (internal/config); ChartFiles.v: the chart
    embedded in the program (helm/embed.go); Startup.v: main.go, NewServer and Serve
    (server/server.go) with what they call, which puts the parts above together.

    The class [Deployment] (Instance.v) is what the operations promise each other of
    the configuration and the chart, [Gate] and [BlueprintSource] (Admission.v) what
    admission asks of the policy, the identity service and the manager; Manager.v is
    an instance of the last. [WorkloadAdapter] (Adapters.v) is what injection asks of a
    workload, with three instances; [DetectionBucket] (Threat.v) is the bucket that is
    shared with another service.

    GoStrings.v models the functions of the package strings that the source uses
    on bytes (Trim.v has the laws of trimming and cutting); this file holds results,
    loops over slices, sorting, enumerations of Go maps, and the tactics.

    ** What is shown

    - Inheritance terminates and its outcome is a function of the store, results
      and errors alike; it is the merge of the lineage, in whatever order Go
      iterates the map. Merging decides each key, invents nothing and is stable
      under resubmission; the hashed bytes are an injective encoding of content.
    - A reload that returns an error leaves the old blueprints, and one that does not
      leaves the resolved and valid set of the files and the organizations' rows; the
      store's and the load's way to an org blueprint
      agree; a caller only gets its own organization's or a global blueprint. An update
      of an organization's blueprint loses no other; a document that is accepted for an
      organization is what a load of its row gives, but for the documents that
      RawValidate.v exhibits; a change of a file schedules a reload, which begins when
      no further change has been seen for the delay, unless one comes between the timer
      and the reload; and Close waits for it. The database's listing is the whole table
      or an error.
    - Inclusion terminates by its cycle check. Displaying and restoring expressions is
      the identity on trees as they are parsed. Reported paths lead to the reported line.
    - Accepted security contexts and podman images are those that work; a profile
      only fills in defaults, is idempotent, and its own defaults are accepted. A
      blueprint was valid when it was composed, before its metadata is set, and each of
      its keys comes from where it should.
    - A pod's snapshot is consistent, reports running exactly when it is, and does
      not depend on the order of a Go map but for equal times; the watch loop
      streams each event once per count and returns for the right reason, and what
      feeds it delivers in order and without loss, but for what is being sent when the
      watch ends.
    - The lock excludes and refines a mutex as long as releases are in time, and the
      execution where a late one breaks it; under the same condition its keeper renews
      it before it expires; a written alias claim is kept, with the execution
      where a claim that is only found again is not; claiming returns.
    - A query returns only what its obligations allow, found and matching; a
      blueprint query is the stable sort of exactly what is visible and matches.
      Push-down loses nothing where case folding changes nothing, and shows beyond the
      unrestricted lookup only stopped workspaces that others hide there, with the query
      where folding matters; glob patterns mean what they should; role pages are
      complete. A payload that the described fields admit fails only by what other
      services answer or by a cpu or memory text that is no quantity. A listing from the
      cache shows the workspaces one from the server does.
    - Provisioning creates and removes the workspace's objects under the workspace's
      lock, installs only what is not installed, deletes no claim of data, and succeeds
      where nothing fails; nothing is provisioned or injected
      that the policy, the user's blueprints and the nodes of the organization do
      not allow; deletion begins under the lock and touches what belongs to the
      workspace, with the delay by which it outlives the lease; an update asks for the
      alias claims it took back where it fails, and for the old ones where it succeeds.
      Ejecting undoes injecting, injection stays in its namespaces, and on each
      of the three kinds it is the abstract one, with the rest of the object untouched.
      The entry of a workspace's detections holds what was last written to it since it
      was last removed, with the clean-up that does not remove it.
    - The process serves when it is completely set up, and the informers and the
      server that it started are told to end before it ends. User strings are read back
      as they were written.
    - A blueprint's values cannot set a workspace's identity; a workspace about which
      nothing has changed shows no difference to its blueprint; a configuration is
      its file with the defaults filled in, or refused for a reason.
    The theorems that exhibit a behaviour the source does not intend are stated
    for the code as it is.

    ** Conventions, bounds and fuel

    A Go [(T, error)] is a [result]; [nil] maps and slices are empty ones; a Go
    map whose iteration order matters is a list of its entries in any order
    ([enumerates], or a hypothesis that it is a permutation). Integers are [Z],
    with [wrap32] or [wrap64] where the code's arithmetic may overflow. Times are
    microseconds in Lock.v (the resolution of MicroTime) and nanoseconds elsewhere.
    Recursion that is not structural has fuel, [None] when it runs out:
    resolveRawTemplate gets one more than the number of blueprints, since it never
    visits one twice; processIncludes one more than the number of readable files,
    by its cycle check; usernamesWithRoles one more than the number of users; all
    are proved enough. The glob parser and the blocks of
    a digest get the length of their input, which they consume. The polls of
    WaitForPodGone are the two per second of its timeout, after which its context
    is done. A context that ends is an answer of the call that waits for it.

    ** What is not modelled

    The evaluation of CEL and the decoding into typed blueprints, quantities,
    regular expressions, JSON decoding, Unicode case folding, the text forms of
    dates and the validators of struct tags, alias names and query payloads are
    parameters: third-party code, or large parts of Go's library. So are Helm's
    actions, the API server, the identity service, the policy engine, fsnotify and
    go-difflib, each with the behaviour the code relies on as a named hypothesis. The
    texts of log messages, and of errors beyond their arguments, are left out (but for
    the messages of the struct tags), as are the conversion to protobuf and the goroutines
    that only write logs. Of the start-up, the connections to other services, the gRPC
    server with its dispatch of requests to the handlers, and the informers' watches are
    calls of third-party libraries; so are the connection pool and the migrations of the
    database. *)

From stdpp Require Export base tactics option list strings pretty gmap sorting relations.
From Stdlib Require Export ZArith Lia.

#[export] Set Default Goal Selector "!".

(** ** Results of fallible operations

    A Go function returning [(T, error)] is a function into [result E T]: [E]
    lists the ways the operation fails, with the arguments of the [fmt.Errorf]
    call that reports it. *)
Inductive result (E A : Type) : Type :=
| Ok (a : A)
| Err (e : E).
Arguments Ok {_ _} _.
Arguments Err {_ _} _.

#[export] Instance result_ret E : MRet (result E) := fun A a => Ok a.
#[export] Instance result_bind E : MBind (result E) := fun A B f m =>
  match m with Ok a => f a | Err e => Err e end.
#[export] Instance result_fmap E : FMap (result E) := fun A B f m =>
  match m with Ok a => Ok (f a) | Err e => Err e end.

(** [fmt.Errorf("...: %w", err)]: the error is wrapped on its way out. *)
Definition res_wrap {E F A} (w : E -> F) (m : result E A) : result F A :=
  match m with Ok a => Ok a | Err e => Err (w e) end.

Definition is_ok {E A} (m : result E A) : bool :=
  match m with Ok _ => true | Err _ => false end.

(** The loop [for _, x := range xs { if err := f(x); err != nil { return err } }]
    threading a state. *)
Fixpoint res_foldl {E A S} (f : S -> A -> result E S) (s : S) (l : list A) : result E S :=
  match l with
  | [] => Ok s
  | x :: l => match f s x with Ok s => res_foldl f s l | Err e => Err e end
  end.

(** ** Machine integers *)

(** The value an [int32] variable holds after an operation with exact result [z]. *)
Definition wrap32 (z : Z) : Z := (z + 2 ^ 31) mod 2 ^ 32 - 2 ^ 31.

(** ** Sorting as [sort.Strings] and [sort.SliceStable] do, by a string key *)
Section sort_by.
Context {A : Type} (key : A -> string).

Fixpoint sinsert (x : A) (l : list A) : list A :=
  match l with
  | [] => [x]
  | y :: l' => if String.leb (key x) (key y) then x :: y :: l' else y :: sinsert x l'
  end.

Definition sort_by (l : list A) : list A := foldr sinsert [] l.

Definition key_le (x y : A) : Prop := String.le (key x) (key y).
End sort_by.

(** Go iterates a map in an unspecified order: an enumeration of the map is any
    list of its bindings, each key once. *)
Definition enumerates {K A} `{Countable K} (l : list (K * A)) (m : gmap K A) : Prop :=
  l ≡ₚ map_to_list m.

(** ** Automation *)

(** Case analysis on the scrutinee of some match or [if] in the goal. *)
Ltac case_goal :=
  match goal with
  | |- context [match ?x with _ => _ end] => destruct x eqn:?
  end.

(** Case analysis on the scrutinee of some match in hypothesis [H]. *)
Ltac case_in H :=
  match type of H with
  | context [match ?x with _ => _ end] => destruct x eqn:?
  end.

(** Unfold the monadic structure of a hypothesis [H : (x ← m; k) = Ok r] into
    the successful results of each step. *)
Ltac res_inv H :=
  repeat (progress (cbn [mbind result_bind mret result_ret fmap result_fmap res_wrap] in H);
          try (case_in H; try discriminate)).

Ltac bool_simpl :=
  repeat match goal with
  | H : andb _ _ = true |- _ => apply andb_true_iff in H as [? ?]
  | H : orb _ _ = false |- _ => apply orb_false_iff in H as [? ?]
  | H : negb _ = true |- _ => apply negb_true_iff in H
  | H : negb _ = false |- _ => apply negb_false_iff in H
  | H : bool_decide _ = true |- _ => apply bool_decide_eq_true in H
  | H : bool_decide _ = false |- _ => apply bool_decide_eq_false in H
  end.

Create HintDb prov.

(** ** Lemmas on results *)

Lemma Ok_inj {E A} (a b : A) : @Ok E A a = Ok b -> a = b.
Proof. congruence. Qed.

Lemma bind_ok {E A B} (m : result E A) (f : A -> result E B) b :
  (m ≫= f) = Ok b <-> exists a, m = Ok a /\ f a = Ok b.
Proof. destruct m as [x|e]; cbn; naive_solver. Qed.

Lemma res_foldl_app {E A S} (f : S -> A -> result E S) s l1 l2 :
  res_foldl f s (l1 ++ l2) = res_foldl f s l1 ≫= fun s => res_foldl f s l2.
Proof.
  revert s; induction l1 as [|x l1 IH]; intros s; cbn; [done|].
  destruct (f s x); cbn; auto.
Qed.

(** An invariant of every iteration is one of the loop. *)
Lemma res_foldl_inv {E A S} (P : S -> Prop) (f : S -> A -> result E S) l s s' :
  (forall s x s', x ∈ l -> P s -> f s x = Ok s' -> P s') ->
  P s -> res_foldl f s l = Ok s' -> P s'.
Proof.
  revert s; induction l as [|x l IH]; intros s Hf HP; cbn; [by intros [= <-]|].
  destruct (f s x) as [s1|] eqn:E1; [|done]. intros Hrun.
  assert (P s1) as HP1 by (eapply Hf; [left|exact HP|exact E1]).
  apply (IH s1); [|done|done].
  intros s2 y s3 Hy. apply Hf. by right.
Qed.

(** ** Lemmas on filters *)

Lemma list_filter_ext_elem {A} (P Q : A -> Prop) `{!forall x, Decision (P x)} `{!forall x, Decision (Q x)}
    (l : list A) :
  (forall x, x ∈ l -> P x <-> Q x) -> filter P l = filter Q l.
Proof.
  induction l as [|x l IH]; intros HPQ; [done|]. rewrite !filter_cons.
  rewrite IH by (intros; apply HPQ; by right).
  assert (P x <-> Q x) as Hx by (apply HPQ; left).
  destruct (decide (P x)), (decide (Q x)); naive_solver.
Qed.

Lemma list_filter_none {A} (P : A -> Prop) `{!forall x, Decision (P x)} (l : list A) :
  (forall x, x ∈ l -> ~ P x) -> filter P l = [].
Proof.
  induction l as [|x l IH]; intros HP; [done|]. rewrite filter_cons_False by (apply HP; left).
  apply IH. intros y Hy. apply HP. by right.
Qed.

(** ** Lemmas on machine integers *)

Lemma wrap32_id z : (- 2 ^ 31 <= z < 2 ^ 31)%Z -> wrap32 z = z.
Proof. intros H. unfold wrap32. rewrite Z.mod_small; lia. Qed.

Lemma wrap32_range z : (- 2 ^ 31 <= wrap32 z < 2 ^ 31)%Z.
Proof. unfold wrap32. pose proof (Z.mod_pos_bound (z + 2 ^ 31) (2 ^ 32)). lia. Qed.

(** ** Lemmas on sorting *)

Lemma leb_le s1 s2 : String.leb s1 s2 = true <-> String.le s1 s2.
Proof. unfold String.le. by rewrite Is_true_true. Qed.

Lemma leb_gt s1 s2 : String.leb s1 s2 = false -> String.le s2 s1.
Proof.
  intros H. destruct (String.leb_total s1 s2) as [E|E]; [congruence|].
  by apply leb_le.
Qed.

Section sort_by_lemmas.
Context {A : Type} (key : A -> string).
#[local] Abbreviation key_le := (key_le key).

Lemma sinsert_perm x l : sinsert key x l ≡ₚ x :: l.
Proof.
  induction l as [|y l IH]; cbn; [done|]. case_goal; [done|].
  rewrite IH. constructor.
Qed.

Lemma sort_by_perm l : sort_by key l ≡ₚ l.
Proof. induction l as [|x l IH]; cbn; [done|]. by rewrite sinsert_perm, IH. Qed.

#[global] Instance key_le_trans : Transitive key_le.
Proof. intros x y z. unfold Prelude.key_le. apply (transitivity (R:=String.le)). Qed.

Lemma sinsert_sorted x l :
  StronglySorted key_le l -> StronglySorted key_le (sinsert key x l).
Proof.
  induction 1 as [|y l Hs IH Hall]; cbn; [repeat constructor|].
  destruct (String.leb (key x) (key y)) eqn:E.
  - constructor; [by constructor|]. apply leb_le in E. constructor; [done|].
    eapply Forall_impl; [done|]. intros z Hz. by etrans.
  - constructor; [done|]. rewrite sinsert_perm. constructor; [by apply leb_gt|done].
Qed.

Lemma sort_by_sorted l : StronglySorted key_le (sort_by key l).
Proof. induction l; cbn; [constructor|]. by apply sinsert_sorted. Qed.

Lemma sinsert_app x l1 l2 :
  Forall (fun y => String.leb (key x) (key y) = false) l1 ->
  sinsert key x (l1 ++ l2) = l1 ++ sinsert key x l2.
Proof. induction 1 as [|y l1 Hy _ IH]; cbn; [done|]. by rewrite Hy, IH. Qed.

(** Inserting into a sorted list whose keys all differ from each other commutes. *)
Lemma sinsert_comm x y l :
  key x <> key y -> sinsert key x (sinsert key y l) = sinsert key y (sinsert key x l).
Proof.
  intros Hne. induction l as [|z l IH]; cbn.
  - destruct (String.leb (key x) (key y)) eqn:E1, (String.leb (key y) (key x)) eqn:E2; try done.
    + destruct Hne. by apply String.leb_antisym.
    + apply leb_gt, leb_le in E1. congruence.
  - destruct (String.leb (key x) (key z)) eqn:Exz, (String.leb (key y) (key z)) eqn:Eyz; cbn.
    + destruct (String.leb (key x) (key y)) eqn:E1, (String.leb (key y) (key x)) eqn:E2;
        rewrite ?Exz, ?Eyz; try done.
      * destruct Hne. by apply String.leb_antisym.
      * apply leb_gt, leb_le in E1. congruence.
    + assert (String.leb (key y) (key x) = false) as ->; [|by rewrite Eyz, Exz].
      apply not_true_iff_false; intros E. apply leb_le in E, Exz.
      assert (String.le (key y) (key z)) as F%leb_le by (by etrans). congruence.
    + assert (String.leb (key x) (key y) = false) as ->; [|by rewrite Exz, Eyz].
      apply not_true_iff_false; intros E. apply leb_le in E, Eyz.
      assert (String.le (key x) (key z)) as F%leb_le by (by etrans). congruence.
    + by rewrite Exz, Eyz, IH.
Qed.

(** Sorting forgets the order of its input when no two elements share a key. *)
Lemma sort_by_unique l1 l2 :
  l1 ≡ₚ l2 -> NoDup (key <$> l1) -> sort_by key l1 = sort_by key l2.
Proof.
  unfold sort_by.
  induction 1 as [|x l1 l2 _ IH|x y l|l1 l2 l3 H1 IH1 H2 IH2]; cbn; [done| | |].
  - intros [_ Hnd]%NoDup_cons. by rewrite IH.
  - intros [Hx _]%NoDup_cons. apply sinsert_comm. intros E. apply Hx. rewrite E. left.
  - intros Hnd. rewrite IH1 by done. apply IH2. by rewrite <- H1.
Qed.

Lemma length_sort_by l : length (sort_by key l) = length l.
Proof. by rewrite sort_by_perm. Qed.

Lemma elem_of_sort_by x l : x ∈ sort_by key l <-> x ∈ l.
Proof. by rewrite sort_by_perm. Qed.
End sort_by_lemmas.

(** Sorting images by a key is sorting by the image's key. *)
Lemma sinsert_fmap {A B} (key : B -> string) (f : A -> B) (x : A) (l : list A) :
  sinsert key (f x) (f <$> l) = f <$> sinsert (key ∘ f) x l.
Proof.
  induction l as [|y l IH]; [done|]. cbn. unfold compose. case_goal; [done|].
  cbn. by rewrite IH.
Qed.

Lemma sort_by_fmap {A B} (key : B -> string) (f : A -> B) (l : list A) :
  sort_by key (f <$> l) = f <$> sort_by (key ∘ f) l.
Proof.
  unfold sort_by. induction l as [|x l IH]; [done|].
  cbn [foldr fmap list_fmap]. by rewrite IH, sinsert_fmap.
Qed.

(** ** Lemmas on enumerations of maps *)
Section enumerates_lemmas.
Context {K A : Type} `{Countable K}.
Implicit Types (l : list (K * A)) (m : gmap K A).

Lemma enumerates_lookup l m k a : enumerates l m -> (k, a) ∈ l <-> m !! k = Some a.
Proof. unfold enumerates. intros ->. apply elem_of_map_to_list. Qed.

Lemma enumerates_NoDup l m : enumerates l m -> NoDup l.*1.
Proof. unfold enumerates. intros ->. apply NoDup_fst_map_to_list. Qed.

Lemma enumerates_list_to_map l m : enumerates l m -> list_to_map l = m.
Proof.
  intros Hl. rewrite <- (list_to_map_to_list m).
  apply list_to_map_proper; [by eapply enumerates_NoDup|done].
Qed.

Lemma enumerates_self m : enumerates (map_to_list m) m.
Proof. unfold enumerates. done. Qed.
End enumerates_lemmas.

#[export] Hint Resolve wrap32_range enumerates_self : prov.
#[export] Hint Rewrite @elem_of_sort_by : prov.
