(* ===== verification/GoStrings.v ===== *)
(** * Go's string functions

    A Go string is a sequence of bytes; here a [string] of [ascii] bytes. This
    file models the functions of the package [strings] (and the [regexp]
    replacements) the provisioner uses. Functions that Go defines on runes are
    modelled on the UTF-8 bytes of the runes that matter: the white space of
    [unicode.IsSpace] and the two non-ASCII runes whose lower case is ASCII. *)

From Stdlib Require Import Ascii.
From S2P Require Import Prelude.

Abbreviation bytes := (list ascii).
Abbreviation to_bytes := String.list_ascii_of_string.
Abbreviation of_bytes := String.string_of_list_ascii.

(** ** Prefixes and suffixes *)

(** [strings.HasPrefix(s, p)]. *)
Definition has_prefix (s p : string) : bool := String.prefix p s.

Fixpoint drop_str (n : nat) (s : string) : string :=
  match n, s with
  | S n, String _ s => drop_str n s
  | _, _ => s
  end.

Fixpoint take_str (n : nat) (s : string) : string :=
  match n, s with
  | S n, String c s => String c (take_str n s)
  | _, _ => ""
  end.

(** [strings.TrimPrefix(s, p)]. *)
Definition trim_prefix (s p : string) : string :=
  if has_prefix s p then drop_str (String.length p) s else s.

(** [strings.HasSuffix(s, p)]. *)
Definition has_suffix (s p : string) : bool :=
  (String.length p <=? String.length s)%nat &&
  String.eqb (drop_str (String.length s - String.length p) s) p.

(** [strings.TrimSuffix(s, p)]. *)
Definition trim_suffix (s p : string) : string :=
  if has_suffix s p then take_str (String.length s - String.length p) s else s.

(** [strings.Join(l, sep)]. *)
Definition join (sep : string) (l : list string) : string := String.concat sep l.

(** [strings.Split(s, c)] for a separator of one byte. *)
Fixpoint split_byte (c : ascii) (s : string) : list string :=
  match s with
  | "" => [""]
  | String a s =>
      if Ascii.eqb a c then "" :: split_byte c s
      else match split_byte c s with
           | [] => [String a ""]
           | w :: ws => String a w :: ws
           end
  end.

(** [strings.Contains(s, sub)]. *)
Fixpoint contains (s sub : string) : bool :=
  has_prefix s sub || match s with "" => false | String _ s => contains s sub end.

(** [strings.Cut(s, c)] for a separator of one byte: the text before it, after
    it, and whether it was found. *)
Fixpoint cut_byte (c : ascii) (s : string) : string * string * bool :=
  match s with
  | "" => ("", "", false)
  | String a s' =>
      if Ascii.eqb a c then ("", s', true)
      else let '(b, r, found) := cut_byte c s' in (String a b, r, found)
  end.

(** ** White space *)

(** The bytes of a rune with [unicode.IsSpace] at the head of [s], if there is one. *)
Definition space_width (s : bytes) : nat :=
  match map nat_of_ascii (firstn 3 s) with
  | a :: r =>
      if ((9 <=? a) && (a <=? 13) || (a =? 32))%nat then 1%nat else
      match a, r with
      | 194, b :: _ => if ((b =? 133) || (b =? 160))%nat then 2 else 0
      | 225, 154 :: 128 :: _ => 3
      | 226, 128 :: c :: _ =>
          if ((128 <=? c) && (c <=? 138) || (c =? 168) || (c =? 169) || (c =? 175))%nat then 3 else 0
      | 226, 129 :: 159 :: _ => 3
      | 227, 128 :: 128 :: _ => 3
      | _, _ => 0
      end%nat
  | [] => 0%nat
  end.

(** Drop white space at the head; [skip] counts the remaining bytes of the rune
    being dropped. *)
Fixpoint trim_left_from (skip : nat) (s : bytes) : bytes :=
  match s with
  | [] => []
  | c :: s' =>
      match skip with
      | S k => trim_left_from k s'
      | 0%nat => match space_width s with 0%nat => s | S k => trim_left_from k s' end
      end
  end.

Fixpoint trim_right_bytes (s : bytes) : bytes :=
  match s with
  | [] => []
  | c :: s' => match trim_left_from 0 s with [] => [] | _ => c :: trim_right_bytes s' end
  end.

(** [strings.TrimSpace(s)]. *)
Definition trim_space (s : string) : string :=
  of_bytes (trim_right_bytes (trim_left_from 0 (to_bytes s))).

(** [strings.Fields(s)]: the maximal runs without white space. [cur] is the
    field being read, in reverse. *)
Fixpoint fields_from (skip : nat) (cur s : bytes) : list bytes :=
  let flush := match cur with [] => [] | _ => [rev cur] end in
  match s with
  | [] => flush
  | c :: s' =>
      match skip with
      | S k => fields_from k cur s'
      | 0%nat =>
          match space_width s with
          | 0%nat => fields_from 0 (c :: cur) s'
          | S k => flush ++ fields_from k [] s'
          end
      end
  end.

Definition fields (s : string) : list string := of_bytes <$> fields_from 0 [] (to_bytes s).

(** ** Case *)

Definition is_upper (c : ascii) : bool :=
  let n := nat_of_ascii c in ((65 <=? n) && (n <=? 90))%nat.
Definition is_lower (c : ascii) : bool :=
  let n := nat_of_ascii c in ((97 <=? n) && (n <=? 122))%nat.
Definition is_digit (c : ascii) : bool :=
  let n := nat_of_ascii c in ((48 <=? n) && (n <=? 57))%nat.
Definition is_alnum (c : ascii) : bool := is_lower c || is_digit c.

Definition lower_ascii (c : ascii) : ascii :=
  if is_upper c then ascii_of_nat (nat_of_ascii c + 32) else c.

(** [strings.ToLower(s)], up to runes whose lower case is not ASCII, which are
    left as they are: ASCII letters, U+0130 (to "i") and U+212A (to "k"). *)
Fixpoint to_lower (s : bytes) : bytes :=
  match s with
  | [] => []
  | c :: s1 =>
      match s1 with
      | c2 :: s2 =>
          if ((nat_of_ascii c =? 196) && (nat_of_ascii c2 =? 176))%nat
          then "i"%char :: to_lower s2
          else match s2 with
               | c3 :: s3 =>
                   if ((nat_of_ascii c =? 226) && (nat_of_ascii c2 =? 132)
                       && (nat_of_ascii c3 =? 170))%nat
                   then "k"%char :: to_lower s3
                   else lower_ascii c :: to_lower s1
               | [] => lower_ascii c :: to_lower s1
               end
      | [] => [lower_ascii c]
      end
  end.

(** ** Regular-expression replacements by one byte or none *)

(** Replace each maximal run of bytes in [p] by the byte [c]; [inrun] says the
    previous byte belonged to a run already replaced. *)
Fixpoint replace_runs (p : ascii -> bool) (c : ascii) (inrun : bool) (s : bytes) : bytes :=
  match s with
  | [] => []
  | a :: s =>
      if p a then (if inrun then [] else [c]) ++ replace_runs p c true s
      else a :: replace_runs p c false s
  end.

(** Delete the run of bytes in [p] at the head, at the end. *)
Fixpoint drop_while (p : ascii -> bool) (s : bytes) : bytes :=
  match s with
  | [] => []
  | a :: s' => if p a then drop_while p s' else s
  end.

Definition drop_while_end (p : ascii -> bool) (s : bytes) : bytes := rev (drop_while p (rev s)).

(** A text with the back quote standing for the quotation mark. *)
Fixpoint quoted (s : string) : string :=
  match s with
  | "" => ""
  | String a s => String (if Ascii.eqb a "`" then "034" else a)%char (quoted s)
  end.

(** ** Lemmas *)

Lemma string_app_cons a (s1 s2 : string) : String a s1 +:+ s2 = String a (s1 +:+ s2).
Proof. done. Qed.

Lemma string_app_nil_l (s : string) : "" +:+ s = s.
Proof. done. Qed.

Lemma drop_str_app s1 s2 : drop_str (String.length s1) (s1 +:+ s2) = s2.
Proof. induction s1; cbn; rewrite ?string_app_cons; auto. Qed.

Lemma take_str_app s1 s2 : take_str (String.length s1) (s1 +:+ s2) = s1.
Proof. induction s1 as [|a s1 IH]; cbn; [by destruct s2|]. rewrite string_app_cons. cbn. by rewrite IH. Qed.

Lemma string_app_assoc (s1 s2 s3 : string) : (s1 +:+ s2) +:+ s3 = s1 +:+ (s2 +:+ s3).
Proof. induction s1 as [|a s1 IH]; [done|]. rewrite !string_app_cons. by rewrite IH. Qed.

Lemma string_app_nil_r (s : string) : s +:+ "" = s.
Proof. induction s as [|a s IH]; [done|]. rewrite string_app_cons. by rewrite IH. Qed.

Lemma string_length_app s1 s2 :
  String.length (s1 +:+ s2) = (String.length s1 + String.length s2)%nat.
Proof. induction s1; [done|]. rewrite string_app_cons. cbn; auto. Qed.

Lemma has_prefix_app p s : has_prefix (p +:+ s) p = true.
Proof.
  unfold has_prefix. induction p as [|a p IH]; [by destruct s|]. rewrite string_app_cons. cbn.
  by destruct (ascii_dec a a).
Qed.

Lemma has_prefix_inv s p : has_prefix s p = true -> exists r, s = p +:+ r.
Proof.
  unfold has_prefix. revert s. induction p as [|a p IH]; intros s; cbn; [by exists s|].
  destruct s as [|b s]; [done|]. cbn. destruct (ascii_dec a b) as [<-|]; [|done].
  intros [r ->]%IH. exists r. by rewrite string_app_cons.
Qed.

Lemma trim_prefix_app p s : trim_prefix (p +:+ s) p = s.
Proof. unfold trim_prefix. by rewrite has_prefix_app, drop_str_app. Qed.

Lemma to_bytes_of_bytes l : to_bytes (of_bytes l) = l.
Proof. apply String.list_ascii_of_string_of_list_ascii. Qed.

Lemma of_bytes_to_bytes s : of_bytes (to_bytes s) = s.
Proof. apply String.string_of_list_ascii_of_string. Qed.

Lemma length_to_bytes s : length (to_bytes s) = String.length s.
Proof. induction s; cbn; auto. Qed.

Lemma length_of_bytes l : String.length (of_bytes l) = length l.
Proof. induction l; cbn; auto. Qed.

Lemma drop_while_suffix p s : exists r, s = r ++ drop_while p s /\ forallb p r = true.
Proof.
  induction s as [|a s (r & E & Hr)]; cbn; [by exists []|].
  destruct (p a) eqn:Ea; [|by exists []].
  exists (a :: r). cbn. rewrite Ea, Hr. split; [by f_equal|done].
Qed.

Lemma drop_while_head p s a r : drop_while p s = a :: r -> p a = false.
Proof. induction s as [|b s IH]; cbn; [done|]. case_goal; [done|]. by intros [= <- _]. Qed.

Lemma drop_while_id p s :
  (forall a, head s = Some a -> p a = false) -> drop_while p s = s.
Proof. destruct s as [|a s]; cbn; [done|]. intros H. by rewrite H. Qed.

Lemma drop_while_all p s : forallb p s = true -> drop_while p s = [].
Proof. induction s as [|a s IH]; cbn; [done|]. intros [-> H]%andb_true_iff. auto. Qed.

Lemma drop_while_Forall (P : ascii -> Prop) p s : Forall P s -> Forall P (drop_while p s).
Proof.
  destruct (drop_while_suffix p s) as (r & E & _). rewrite E at 1. by intros [_ ?]%Forall_app.
Qed.

Lemma drop_while_length p s : (length (drop_while p s) <= length s)%nat.
Proof.
  destruct (drop_while_suffix p s) as (r & E & _). rewrite E at 2. rewrite length_app. lia.
Qed.

Lemma replace_runs_Forall (P : ascii -> Prop) p c b s :
  P c -> (forall a, p a = false -> P a) -> Forall P (replace_runs p c b s).
Proof.
  intros Hc Hp. revert b. induction s as [|a s IH]; intros b; cbn; [done|].
  destruct (p a) eqn:E; [|by constructor; auto]. destruct b; cbn; auto.
Qed.

#[export] Hint Rewrite to_bytes_of_bytes of_bytes_to_bytes length_to_bytes length_of_bytes
  drop_str_app trim_prefix_app has_prefix_app string_length_app : prov.

(** ** A text form *)

(** The bits of a number as text, which reads back: with [encode] and [decode] a
    text form of any countable type, for the instances that stand for encoders. *)
Fixpoint bits (p : positive) : string :=
  match p with xH => "" | xO p => String (Ascii.ascii_of_nat 48) (bits p) | xI p => String (Ascii.ascii_of_nat 49) (bits p) end%positive.

Fixpoint unbits (s : string) : option positive :=
  match s with
  | EmptyString => Some xH
  | String c s => (if Ascii.eqb c (Ascii.ascii_of_nat 48) then xO else xI) <$> unbits s
  end.

Lemma unbits_bits p : unbits (bits p) = Some p.
Proof. induction p as [p IH|p IH|]; cbn; [by rewrite IH..|done]. Qed.
