(* ===== verification/Trim.v ===== *)
(** * Trimming and cutting

    That [strings.TrimSpace] (GoStrings.v) of a trimmed text changes nothing. White
    space is found by runes of up to three bytes, so a shorter text could have white
    space where a longer one has another rune; it does not. And [strings.Cut] of two
    texts one after the other. *)

From Stdlib Require Import Ascii.
From S2P Require Import Prelude GoStrings.

Definition leads : list nat := [194; 225; 226; 227]%nat.
Lemma width_single c s : existsb (Nat.eqb (nat_of_ascii c)) leads = false -> space_width (c :: s) = space_width [c] /\ (space_width [c] <= 1)%nat.
Proof. destruct c as [[] [] [] [] [] [] [] []]; intros H; first [discriminate H | split; [destruct s as [|? [|? ?]]; reflexivity|apply Nat.leb_le; reflexivity]]. Qed.

(** A rune that is white space stays one whatever follows it. *)
Definition width_ok (a b d : ascii) : bool :=
  let w2 := space_width [a; b] in let w3 := space_width [a; b; d] in
  (Nat.eqb w2 0 && (Nat.eqb w3 0 || Nat.eqb w3 3)) || (Nat.eqb w2 2 && Nat.eqb w3 2).

Lemma width_leads a b d : existsb (Nat.eqb (nat_of_ascii a)) leads = true -> width_ok a b d = true.
Proof.
  intros Ha. destruct a as [[] [] [] [] [] [] [] []]; try discriminate Ha; clear Ha;
    destruct b as [[] [] [] [] [] [] [] []]; try reflexivity; destruct d as [[] [] [] [] [] [] [] []]; reflexivity.
Qed.

Lemma width_ext a p w k : space_width (a :: p) = S k -> space_width (a :: p ++ w) = S k /\ (k <= length p)%nat.
Proof.
  destruct (existsb (Nat.eqb (nat_of_ascii a)) leads) eqn:El.
  2: { destruct (width_single a p El) as [-> ?], (width_single a (p ++ w) El) as [-> _]. intros Hs. rewrite Hs in *. split; [done|lia]. }
  destruct p as [|b [|d p]].
  - intros H. exfalso. destruct a as [[] [] [] [] [] [] [] []]; discriminate El || discriminate H.
  - intros H. destruct w as [|d w]; [pose proof (width_leads a b a El) as Hw|pose proof (width_leads a b d El) as Hw]; unfold width_ok in Hw; rewrite H in Hw.
    + cbn [app]. rewrite H. cbn [length]. destruct k as [|[|k]]; cbn in Hw; try discriminate; split; (done || lia).
    + change (space_width (a :: [b] ++ d :: w)) with (space_width [a; b; d]). cbn [length]. bool_simpl.
      destruct k as [|[|k]]; cbn in Hw; try discriminate. apply Nat.eqb_eq in Hw. split; [done|lia].
  - intros H. change (space_width (a :: (b :: d :: p) ++ w)) with (space_width [a; b; d]).
    change (space_width (a :: b :: d :: p)) with (space_width [a; b; d]) in H. split; [done|].
    pose proof (width_leads a b d El) as Hw. unfold width_ok in Hw. rewrite H in Hw. cbn [length].
    destruct k as [|[|[|k]]]; try lia. exfalso. cbn -[space_width] in Hw. by rewrite !andb_false_r in Hw.
Qed.

Lemma trim_left_head k s : trim_left_from k s = [] \/ space_width (trim_left_from k s) = 0%nat.
Proof.
  revert k. induction s as [|c s IH]; intros [|k]; cbn [trim_left_from]; [by left..| |apply IH].
  destruct (space_width (c :: s)) as [|w] eqn:E; [by right|apply IH].
Qed.

Lemma trim_left_id s : space_width s = 0%nat -> trim_left_from 0 s = s.
Proof. destruct s as [|c s]; [done|]. cbn [trim_left_from]. by intros ->. Qed.

Lemma trim_right_prefix s : exists w, s = trim_right_bytes s ++ w.
Proof.
  induction s as [|c s [w IH]]; [by exists []|]. cbn [trim_right_bytes]. destruct (trim_left_from 0 (c :: s)); [by exists (c :: s)|].
  exists w. cbn. by rewrite <- IH.
Qed.

Lemma trim_right_blank s : forall k, (k <= length (trim_right_bytes s))%nat -> trim_left_from k (trim_right_bytes s) = [] -> trim_left_from k s = [].
Proof.
  induction s as [|c s IH]; intros k Hk; [done|]. cbn [trim_right_bytes] in Hk |- *. destruct (trim_left_from 0 (c :: s)) as [|d t] eqn:E.
  { cbn in Hk. by replace k with 0%nat by lia. }
  destruct k as [|k]; cbn [trim_left_from length] in Hk |- *; [|intros H; apply IH; [lia|done]].
  destruct (space_width (c :: trim_right_bytes s)) as [|k] eqn:Ew; [done|]. intros H. exfalso.
  destruct (trim_right_prefix s) as [w Hs]. destruct (width_ext c _ w k Ew) as [Hx Hl]. rewrite <- Hs in Hx.
  cbn [trim_left_from] in E. rewrite Hx, (IH k Hl H) in E. done.
Qed.

Lemma trim_right_idem s : trim_right_bytes (trim_right_bytes s) = trim_right_bytes s.
Proof.
  induction s as [|c s IH]; [done|]. cbn [trim_right_bytes]. destruct (trim_left_from 0 (c :: s)) as [|d t] eqn:E; [done|].
  cbn [trim_right_bytes]. rewrite IH. destruct (trim_left_from 0 (c :: trim_right_bytes s)) as [|d' t'] eqn:E'; [|done]. exfalso.
  assert (H : trim_right_bytes (c :: s) = c :: trim_right_bytes s) by (cbn [trim_right_bytes]; by rewrite E).
  rewrite <- H in E'. rewrite (trim_right_blank (c :: s) 0) in E; [done|lia|done].
Qed.

Lemma trim_left_of_right u : space_width u = 0%nat -> trim_left_from 0 (trim_right_bytes u) = trim_right_bytes u.
Proof.
  intros Hu. destruct (trim_right_prefix u) as [w Hw]. destruct (trim_right_bytes u) as [|c p]; [done|]. apply trim_left_id.
  destruct (space_width (c :: p)) as [|k] eqn:E; [done|]. destruct (width_ext c p w k E) as [H _]. cbn [app] in Hw. by rewrite <- Hw, Hu in H.
Qed.

(** Trimming twice is trimming once. *)
Lemma trim_space_idem s : trim_space (trim_space s) = trim_space s.
Proof.
  unfold trim_space. rewrite String.list_ascii_of_string_of_list_ascii. apply (f_equal of_bytes).
  destruct (trim_left_head 0 (to_bytes s)) as [E|Hw]; [by rewrite E|]. by rewrite (trim_left_of_right _ Hw), trim_right_idem.
Qed.

(** Cutting at a byte that is not in the first part. *)
Lemma cut_app (c : ascii) p q :
  (cut_byte c p).2 = false -> cut_byte c (p +:+ q) = (p +:+ (cut_byte c q).1.1, (cut_byte c q).1.2, (cut_byte c q).2).
Proof.
  induction p as [|a p IH].
  { intros _. change ("" +:+ q) with q. by destruct (cut_byte c q) as [[b r] f]. }
  change (String a p +:+ q) with (String a (p +:+ q)). cbn [cut_byte]. destruct (Ascii.eqb a c); [done|].
  destruct (cut_byte c p) as [[b r] f]. cbn. intros ->. by rewrite IH.
Qed.
