(* ===== verification/Sha256.v ===== *)
(** * The SHA-256 digest (FIPS 180-4), its hexadecimal form and HMAC

    The part of [crypto/sha256], [crypto/hmac] and [encoding/hex] the
    provisioner computes with: blueprint revisions, alias claim names and
    redaction marks are prefixes of such digests. Words are 32-bit [N]. *)

From Stdlib Require Import Ascii NArith.
From S2P Require Import Prelude GoStrings.

#[local] Open Scope N_scope.

Definition mask32 : N := 4294967295.
Definition add32 (a b : N) : N := N.land (a + b) mask32.
Definition rotr (n x : N) : N := N.lor (N.shiftr x n) (N.land (N.shiftl x (32 - n)) mask32).
Definition not32 (x : N) : N := N.lxor x mask32.

Definition round_constants : list N :=
  [1116352408; 1899447441; 3049323471; 3921009573; 961987163; 1508970993; 2453635748; 2870763221;
   3624381080; 310598401; 607225278; 1426881987; 1925078388; 2162078206; 2614888103; 3248222580;
   3835390401; 4022224774; 264347078; 604807628; 770255983; 1249150122; 1555081692; 1996064986;
   2554220882; 2821834349; 2952996808; 3210313671; 3336571891; 3584528711; 113926993; 338241895;
   666307205; 773529912; 1294757372; 1396182291; 1695183700; 1986661051; 2177026350; 2456956037;
   2730485921; 2820302411; 3259730800; 3345764771; 3516065817; 3600352804; 4094571909; 275423344;
   430227734; 506948616; 659060556; 883997877; 958139571; 1322822218; 1537002063; 1747873779;
   1955562222; 2024104815; 2227730452; 2361852424; 2428436474; 2756734187; 3204031479; 3329325298].

Record digest := mkDigest { d0 : N; d1 : N; d2 : N; d3 : N; d4 : N; d5 : N; d6 : N; d7 : N }.

Definition initial_digest : digest :=
  mkDigest 1779033703 3144134277 1013904242 2773480762 1359893119 2600822924 528734635 1541459225.

Definition small_sigma0 x := N.lxor (N.lxor (rotr 7 x) (rotr 18 x)) (N.shiftr x 3).
Definition small_sigma1 x := N.lxor (N.lxor (rotr 17 x) (rotr 19 x)) (N.shiftr x 10).
Definition big_sigma0 x := N.lxor (N.lxor (rotr 2 x) (rotr 13 x)) (rotr 22 x).
Definition big_sigma1 x := N.lxor (N.lxor (rotr 6 x) (rotr 11 x)) (rotr 25 x).
Definition choose x y z := N.lxor (N.land x y) (N.land (not32 x) z).
Definition majority x y z := N.lxor (N.lxor (N.land x y) (N.land x z)) (N.land y z).

(** One round, with round constant [k] and schedule word [w]. *)
Definition round (d : digest) (kw : N * N) : digest :=
  let '(k, w) := kw in
  let t1 := add32 (add32 (add32 (d7 d) (big_sigma1 (d4 d))) (choose (d4 d) (d5 d) (d6 d)))
                  (add32 k w) in
  let t2 := add32 (big_sigma0 (d0 d)) (majority (d0 d) (d1 d) (d2 d)) in
  mkDigest (add32 t1 t2) (d0 d) (d1 d) (d2 d) (add32 (d3 d) t1) (d4 d) (d5 d) (d6 d).

(** The message schedule: [win] holds the last sixteen words, the oldest first. *)
Fixpoint schedule (n : nat) (win : list N) : list N :=
  match n, win with
  | S n, w0 :: rest =>
      let w := add32 (add32 (small_sigma1 (nth 13 rest 0)) (nth 8 rest 0))
                     (add32 (small_sigma0 (nth 0 rest 0)) w0) in
      w0 :: schedule n (rest ++ [w])
  | _, _ => []
  end.

Definition compress (d : digest) (block : list N) : digest :=
  let e := foldl round d (combine round_constants (schedule 64 block)) in
  mkDigest (add32 (d0 d) (d0 e)) (add32 (d1 d) (d1 e)) (add32 (d2 d) (d2 e)) (add32 (d3 d) (d3 e))
           (add32 (d4 d) (d4 e)) (add32 (d5 d) (d5 e)) (add32 (d6 d) (d6 e)) (add32 (d7 d) (d7 e)).

(** Big-endian words of a byte list. *)
Fixpoint words_of (l : list N) : list N :=
  match l with
  | a :: b :: c :: d :: l => (((a * 256 + b) * 256 + c) * 256 + d) :: words_of l
  | _ => []
  end.

Definition word_bytes (w : N) : list N :=
  [N.land (N.shiftr w 24) 255; N.land (N.shiftr w 16) 255; N.land (N.shiftr w 8) 255; N.land w 255].

Definition padding (len : N) : list N :=
  let zeros := N.to_nat ((119 - len mod 64) mod 64) in
  128 :: replicate zeros 0 ++ word_bytes (N.land (N.shiftr (len * 8) 32) mask32)
      ++ word_bytes (N.land (len * 8) mask32).

Fixpoint blocks (fuel : nat) (l : list N) : list (list N) :=
  match fuel, l with
  | S fuel, _ :: _ => firstn 16 l :: blocks fuel (skipn 16 l)
  | _, _ => []
  end.

(** [sha256.Sum256]. *)
Definition sha256 (msg : list N) : list N :=
  let padded := words_of (msg ++ padding (N.of_nat (length msg))) in
  let d := foldl compress initial_digest (blocks (length padded) padded) in
  word_bytes (d0 d) ++ word_bytes (d1 d) ++ word_bytes (d2 d) ++ word_bytes (d3 d)
  ++ word_bytes (d4 d) ++ word_bytes (d5 d) ++ word_bytes (d6 d) ++ word_bytes (d7 d).

Definition msg_of (s : string) : list N := N_of_ascii <$> to_bytes s.

Definition hex_digit (n : N) : ascii :=
  ascii_of_N (if n <? 10 then 48 + n else 87 + n).

(** [hex.EncodeToString]. *)
Definition hex_encode (l : list N) : string :=
  of_bytes (flat_map (fun b => [hex_digit (N.land (N.shiftr b 4) 15); hex_digit (N.land b 15)]) l).

(** [hmac.New(sha256.New, key)] applied to [msg]. *)
Definition hmac_sha256 (key msg : list N) : list N :=
  let key := if (64 <? length key)%nat then sha256 key else key in
  let key := key ++ replicate (64 - length key) 0 in
  sha256 ((N.lxor 92 <$> key) ++ sha256 ((N.lxor 54 <$> key) ++ msg)).

(** ** Lemmas *)

Lemma sha256_length msg : length (sha256 msg) = 32%nat.
Proof. done. Qed.

Definition is_hex (c : ascii) : bool :=
  is_digit c || (let n := nat_of_ascii c in ((97 <=? n) && (n <=? 102))%nat).

Lemma hex_digit_is_hex n : is_hex (hex_digit (N.land n 15)) = true.
Proof.
  change 15 with (N.ones 4). rewrite N.land_ones.
  assert (n mod 2 ^ 4 < 16) as H by (by apply N.mod_lt).
  revert H. generalize (n mod 2 ^ 4). intros [|p] Hm; [done|].
  do 4 (destruct p as [p|p|]; try done; try lia).
Qed.

Lemma hex_encode_hex l : Forall (fun c => is_hex c = true) (to_bytes (hex_encode l)).
Proof.
  unfold hex_encode. rewrite to_bytes_of_bytes.
  induction l as [|b l IH]; cbn [flat_map app]; [constructor|].
  repeat constructor; auto using hex_digit_is_hex.
Qed.

Lemma hex_encode_length l : String.length (hex_encode l) = (2 * length l)%nat.
Proof.
  unfold hex_encode. rewrite length_of_bytes.
  induction l as [|b l IH]; cbn [flat_map app length]; [done|]. rewrite IH. lia.
Qed.

Lemma take_str_bytes n s : to_bytes (take_str n s) = take n (to_bytes s).
Proof. revert s. induction n as [|n IH]; intros [|c s]; cbn; [done..|]. by rewrite IH. Qed.

(** A prefix of a digest in hexadecimal. *)
Lemma hex_prefix n l :
  (n <= 2 * length l)%nat ->
  String.length (take_str n (hex_encode l)) = n /\
  Forall (fun c => is_hex c = true) (to_bytes (take_str n (hex_encode l))).
Proof.
  intros Hn. rewrite <- length_to_bytes, take_str_bytes, length_take, length_to_bytes,
    hex_encode_length. split; [lia|]. apply Forall_take, hex_encode_hex.
Qed.

(** The published test vectors. *)
Example sha256_abc : hex_encode (sha256 (msg_of "abc"))
  = "ba7816bf8f01cfea414140de5dae2223b00361a396177a9cb410ff61f20015ad".
Proof. vm_compute. reflexivity. Qed.

Example sha256_two_blocks :
  hex_encode (sha256 (msg_of "abcdbcdecdefdefgefghfghighijhijkijkljklmklmnlmnomnopnopq"))
  = "248d6a61d20638b8e5c026930c3e6039a33ce45964ff2167f6ecedd419db06c1".
Proof. vm_compute. reflexivity. Qed.

Example hmac_sha256_vector :
  hex_encode (hmac_sha256 (msg_of "key") (msg_of "The quick brown fox jumps over the lazy dog"))
  = "f7bc83f430538424b13298e6aa6fb143ef4d59a14946175997479dbc2d1a3cd8".
Proof. vm_compute. reflexivity. Qed.

#[export] Hint Rewrite sha256_length hex_encode_length : prov.
