(* ===== verification/DnsLabel.v ===== *)
(** * Names as DNS labels

    [NormalizeDNSLabel] (internal/blueprint/blueprint.go) turns any text into a
    Helm release name. *)

From Stdlib Require Import Ascii.
From S2P Require Import Prelude GoStrings.

(** The byte class [[a-z0-9-]]. *)
Definition label_byte (c : ascii) : bool := is_alnum c || Ascii.eqb c "-".

Definition not_label_byte (c : ascii) : bool := negb (label_byte c).
Definition not_alnum (c : ascii) : bool := negb (is_alnum c).
Definition is_dash (c : ascii) : bool := Ascii.eqb c "-".

Definition max_label : nat := 53.

(** src/internal/blueprint/blueprint.go:888-908 NormalizeDNSLabel *)
Definition NormalizeDNSLabel (s : string) : string :=
  if String.eqb s "" then "" else
  let s := to_lower (to_bytes s) in
  let s := replace_runs not_label_byte "-" false s in
  let s := drop_while not_alnum s in
  let s := drop_while_end not_alnum s in
  let s := replace_runs is_dash "-" false s in
  let s := if (max_label <? length s)%nat
           then drop_while_end is_dash (firstn max_label s)
           else s in
  of_bytes s.

(** ** What a DNS label is *)

(** No byte of [s] is a dash that follows a dash; [prev] says the byte before
    [s] is a dash. *)
Fixpoint no_double_dash (prev : bool) (s : bytes) : bool :=
  match s with
  | [] => true
  | c :: s => negb (prev && is_dash c) && no_double_dash (is_dash c) s
  end.

(** Empty or at most 53 label bytes, with a letter or digit at both ends and no
    two dashes in a row. *)
Definition dns_label (s : string) : Prop :=
  let l := to_bytes s in
  Forall (fun c => label_byte c = true) l /\
  (length l <= max_label)%nat /\
  (forall c, head l = Some c -> is_alnum c = true) /\
  (forall c, last l = Some c -> is_alnum c = true) /\
  no_double_dash false l = true.

(** ** Lemmas *)

Lemma dash_not_alnum c : is_dash c = true -> is_alnum c = false.
Proof. unfold is_dash. intros ->%Ascii.eqb_eq. done. Qed.

Lemma label_byte_cases c : label_byte c = true -> is_alnum c = false -> is_dash c = true.
Proof. unfold label_byte, is_dash. by intros [->|]%orb_true_iff. Qed.

Lemma drop_while_end_suffix p s :
  exists r, s = drop_while_end p s ++ r /\ forallb p r = true.
Proof.
  unfold drop_while_end. destruct (drop_while_suffix p (rev s)) as (r & E & Hr).
  exists (rev r). split.
  - rewrite <- rev_app_distr, <- E. by rewrite rev_involutive.
  - rewrite forallb_forall in Hr |- *. intros x Hx. apply Hr. by apply in_rev.
Qed.

Lemma last_rev_head {A} (l : list A) : last l = head (rev l).
Proof.
  induction l as [|x l IH] using rev_ind; [done|].
  by rewrite last_snoc, rev_app_distr.
Qed.

Lemma drop_while_end_last p s c : last (drop_while_end p s) = Some c -> p c = false.
Proof.
  unfold drop_while_end. rewrite last_rev_head, rev_involutive.
  destruct (drop_while p (rev s)) eqn:E; [done|]. cbn. intros [= ->].
  by eapply drop_while_head.
Qed.

Lemma drop_while_end_head p s c :
  head (drop_while_end p s) = Some c -> head s = Some c.
Proof.
  destruct (drop_while_end_suffix p s) as (r & E & _). rewrite E at 2.
  by destruct (drop_while_end p s).
Qed.

Lemma drop_while_end_Forall (P : ascii -> Prop) p s : Forall P s -> Forall P (drop_while_end p s).
Proof.
  destruct (drop_while_end_suffix p s) as (r & E & _). rewrite E at 1. by intros [? _]%Forall_app.
Qed.

Lemma drop_while_end_length p s : (length (drop_while_end p s) <= length s)%nat.
Proof.
  destruct (drop_while_end_suffix p s) as (r & E & _). rewrite E at 2. rewrite length_app. lia.
Qed.

Lemma drop_while_end_id p s :
  (forall c, last s = Some c -> p c = false) -> drop_while_end p s = s.
Proof.
  intros H. unfold drop_while_end. rewrite drop_while_id.
  - apply rev_involutive.
  - intros a Ha. apply H. by rewrite last_rev_head.
Qed.

Lemma no_double_dash_app b l1 l2 :
  no_double_dash b (l1 ++ l2) = true -> no_double_dash b l1 = true.
Proof.
  revert b. induction l1 as [|a l1 IH]; intros b; cbn; [done|].
  intros [-> H]%andb_true_iff. by apply IH.
Qed.

Lemma replace_runs_no_double_dash b s :
  no_double_dash b (replace_runs is_dash "-" b s) = true.
Proof.
  revert b. induction s as [|a s IH]; intros b; cbn; [done|].
  destruct (is_dash a) eqn:Ea.
  - destruct b; cbn; [apply IH|]. by rewrite IH.
  - cbn. rewrite Ea, andb_false_r. cbn. apply IH.
Qed.

(** Replacing runs of dashes by one dash keeps the first and the last byte when
    they are not dashes. *)
Lemma replace_runs_head p c s a :
  head s = Some a -> p a = false -> head (replace_runs p c false s) = Some a.
Proof. destruct s as [|b s]; cbn; [done|]. by intros [= ->] ->. Qed.

Lemma replace_runs_snoc p c b s a :
  p a = false -> replace_runs p c b (s ++ [a]) = replace_runs p c b s ++ [a].
Proof.
  intros Ha. revert b. induction s as [|x s IH]; intros b; cbn; [by rewrite Ha|].
  destruct (p x); [|by rewrite IH]. rewrite IH. by destruct b.
Qed.

Lemma replace_runs_last p c s a :
  last s = Some a -> p a = false -> last (replace_runs p c false s) = Some a.
Proof.
  intros [s' ->]%last_Some Ha. by rewrite replace_runs_snoc, last_snoc.
Qed.

Lemma replace_runs_id p c b s :
  Forall (fun a => p a = false) s -> replace_runs p c b s = s.
Proof.
  intros H. revert b. induction H as [|a s Ha _ IH]; intros b; cbn; [done|].
  by rewrite Ha, IH.
Qed.

Lemma replace_dashes_id b s :
  no_double_dash b s = true -> replace_runs is_dash "-" b s = s.
Proof.
  revert b. induction s as [|a s IH]; intros b; cbn; [done|].
  intros [Ha H]%andb_true_iff. destruct (is_dash a) eqn:Ea; [|by rewrite IH].
  rewrite andb_true_r in Ha. apply negb_true_iff in Ha as ->. cbn.
  rewrite (IH _ H). unfold is_dash in Ea. by apply Ascii.eqb_eq in Ea as ->.
Qed.

Lemma lower_label_byte c : label_byte c = true -> lower_ascii c = c.
Proof. by destruct c as [[] [] [] [] [] [] [] []]. Qed.

Lemma to_lower_cons c l :
  (nat_of_ascii c =? 196)%nat = false -> (nat_of_ascii c =? 226)%nat = false ->
  to_lower (c :: l) = lower_ascii c :: to_lower l.
Proof. intros E1 E2. destruct l as [|c2 [|c3 l]]; cbn [to_lower]; by rewrite ?E1, ?E2. Qed.

(** A byte of a label never starts one of the two multi-byte runes. *)
Lemma to_lower_label s : Forall (fun c => label_byte c = true) s -> to_lower s = s.
Proof.
  assert (forall c, label_byte c = true ->
    (nat_of_ascii c =? 196)%nat = false /\ (nat_of_ascii c =? 226)%nat = false) as Hc.
  { intros c Hc. split; apply Nat.eqb_neq; intros E; apply (f_equal ascii_of_nat) in E;
      rewrite ascii_nat_embedding in E; by subst. }
  induction 1 as [|c s H _ IH]; [done|].
  destruct (Hc c H) as [E1 E2]. by rewrite to_lower_cons, IH, lower_label_byte.
Qed.

(** ** The theorems *)

(** The text before the cut to 53 bytes is a label but for its length. *)
Lemma normalized_before_cut s :
  let l := replace_runs is_dash "-" false
             (drop_while_end not_alnum (drop_while not_alnum
               (replace_runs not_label_byte "-" false s))) in
  Forall (fun c => label_byte c = true) l /\
  (forall c, head l = Some c -> is_alnum c = true) /\
  (forall c, last l = Some c -> is_alnum c = true) /\
  no_double_dash false l = true.
Proof.
  set (m := drop_while_end not_alnum _). cbn zeta.
  assert (Forall (fun c => label_byte c = true) m) as Hm.
  { apply drop_while_end_Forall, drop_while_Forall, replace_runs_Forall; [done|].
    intros a. unfold not_label_byte. by intros ?%negb_false_iff. }
  assert (forall c, head m = Some c -> is_alnum c = true) as Hh.
  { intros c Hc%drop_while_end_head.
    destruct (drop_while not_alnum _) eqn:E in Hc; [done|]. injection Hc as ->.
    apply drop_while_head in E. by apply negb_false_iff in E. }
  assert (forall c, last m = Some c -> is_alnum c = true) as Hl.
  { intros c Hc%drop_while_end_last. by apply negb_false_iff in Hc. }
  assert (forall a, is_alnum a = true -> is_dash a = false) as Hd.
  { intros a Ha. apply not_true_iff_false. intros E%dash_not_alnum. congruence. }
  split_and!.
  - assert (forall b, Forall (fun c => label_byte c = true) (replace_runs is_dash "-" b m)) as G;
      [|apply G]. clearbody m. clear Hh Hl.
    induction Hm as [|a l Ha _ IH]; intros b; cbn; [constructor|].
    destruct (is_dash a); [destruct b; cbn; [apply IH|constructor; [done|apply IH]]|constructor; [done|apply IH]].
  - destruct m as [|a m]; [done|]. intros c.
    rewrite (replace_runs_head _ _ _ a) by auto. intros [= <-]. auto.
  - destruct (last m) as [a|] eqn:E; [|by apply last_None in E as ->].
    intros c. rewrite (replace_runs_last _ _ _ a) by auto. intros [= <-]. auto.
  - apply replace_runs_no_double_dash.
Qed.

Lemma normalized_label s : dns_label (NormalizeDNSLabel s).
Proof.
  unfold NormalizeDNSLabel. destruct (String.eqb s "").
  { repeat split; cbn; [constructor|lia|done|done]. }
  destruct (normalized_before_cut (to_lower (to_bytes s))) as (Hf & Hh & Hl & Hd).
  set (l := replace_runs is_dash "-" false _) in *. clearbody l.
  unfold dns_label. rewrite to_bytes_of_bytes. destruct (Nat.ltb_spec max_label (length l)).
  2: by split_and!.
  set (t := firstn max_label l).
  assert (Forall (fun c => label_byte c = true) t) as Ht by (by apply Forall_take).
  assert (forall c, last (drop_while_end is_dash t) = Some c -> label_byte c = true) as Hb.
  { intros c [k Hk]%last_Some. pose proof (drop_while_end_Forall _ is_dash _ Ht) as F.
    rewrite Hk in F. apply Forall_app in F as [_ F]. by inversion F. }
  split_and!.
  - by apply drop_while_end_Forall.
  - etrans; [apply drop_while_end_length|]. unfold t. rewrite length_take. lia.
  - intros c Hc%drop_while_end_head. apply Hh. subst t. by destruct l.
  - intros c Hc. pose proof (drop_while_end_last _ _ _ Hc) as E.
    apply not_false_iff_true. intros E2. by rewrite (label_byte_cases c) in E by auto.
  - destruct (drop_while_end_suffix is_dash t) as (r & E & _).
    apply (no_double_dash_app _ _ r). rewrite <- E. unfold t.
    apply (no_double_dash_app _ _ (skipn max_label l)). by rewrite take_drop.
Qed.

Lemma NormalizeDNSLabel_label s : dns_label s -> NormalizeDNSLabel s = s.
Proof.
  intros (Hf & Hlen & Hh & Hl & Hd). unfold NormalizeDNSLabel.
  destruct (String.eqb_spec s "") as [E|_]; [by rewrite E|].
  rewrite to_lower_label by done.
  rewrite (replace_runs_id not_label_byte).
  2: { eapply Forall_impl; [exact Hf|]. intros c Hc. unfold not_label_byte. by rewrite Hc. }
  rewrite drop_while_id.
  2: { intros a Ha. unfold not_alnum. by rewrite (Hh a Ha). }
  rewrite drop_while_end_id.
  2: { intros a Ha. unfold not_alnum. by rewrite (Hl a Ha). }
  rewrite replace_dashes_id by done.
  destruct (Nat.ltb_spec max_label (length (to_bytes s))); [lia|]. apply of_bytes_to_bytes.
Qed.

(** Whatever the input, the result is empty or a DNS label of at most 53
    lowercase letters, digits and single dashes that starts and ends with a
    letter or digit. *)
Theorem NormalizeDNSLabel_is_label s : dns_label (NormalizeDNSLabel s).
Proof. apply normalized_label. Qed.

(** Normalizing is idempotent, and leaves exactly the DNS labels alone. *)
Theorem NormalizeDNSLabel_fixpoint s :
  NormalizeDNSLabel (NormalizeDNSLabel s) = NormalizeDNSLabel s /\
  (NormalizeDNSLabel s = s <-> dns_label s).
Proof.
  split; [apply NormalizeDNSLabel_label, normalized_label|].
  split; [intros <-; apply normalized_label|apply NormalizeDNSLabel_label].
Qed.

Example normalize_ex : NormalizeDNSLabel "Feature/My_Branch--v2.0!" = "feature-my-branch-v2-0".
Proof. reflexivity. Qed.
