(* ===== verification/Yaml.v ===== *)
(** * YAML node trees

    The data of gopkg.in/yaml.v3 the blueprint code works on: [yaml.Node] and
    the plain Go values a node decodes to. Parsing, decoding and encoding are
    that library's and stay parameters ([YamlLib]). *)

From Stdlib Require Import Ascii.
From S2P Require Import Prelude GoStrings.

(** [yaml.Kind]; [NoKind] is the zero value, a node nothing was parsed into. *)
Inductive kind : Type :=
| NoKind | DocumentNode | SequenceNode | MappingNode | ScalarNode | AliasNode.

#[export] Instance kind_eq_dec : EqDecision kind.
Proof. solve_decision. Defined.

(** The fields of [yaml.Node] that carry presentation only. *)
Record node_meta : Type := mkMeta {
  Style : Z;
  Anchor : string;
  HeadComment : string;
  LineComment : string;
  FootComment : string;
  Line : Z;
  Column : Z;
}.

Definition no_meta : node_meta := mkMeta 0 "" "" "" "" 0 0.

#[local] Unset Elimination Schemes.

(** [yaml.Node]. The content of a mapping lists its keys and values in turn. *)
Inductive node : Type :=
| Node (meta : node_meta) (k : kind) (tag value : string) (alias : option node)
       (content : list node).

Definition node_kind (n : node) : kind := let 'Node _ k _ _ _ _ := n in k.
Definition node_tag (n : node) : string := let 'Node _ _ t _ _ _ := n in t.
Definition node_value (n : node) : string := let 'Node _ _ _ v _ _ := n in v.
Definition node_meta_of (n : node) : node_meta := let 'Node m _ _ _ _ _ := n in m.
Definition node_alias (n : node) : option node := let 'Node _ _ _ _ a _ := n in a.
Definition node_content (n : node) : list node := let 'Node _ _ _ _ _ c := n in c.

Definition scalar (tag value : string) : node := Node no_meta ScalarNode tag value None [].
Definition mapping (content : list node) : node := Node no_meta MappingNode "!!map" "" None content.
Definition sequence (content : list node) : node :=
  Node no_meta SequenceNode "!!seq" "" None content.

(** The loop [for i := 0; i < len(content); i += 2 { if i+1 < len(content) ... }]:
    the key and value nodes of a mapping, a trailing odd node ignored. *)
Fixpoint pairs_of (content : list node) : list (node * node) :=
  match content with
  | k :: v :: rest => (k, v) :: pairs_of rest
  | _ => []
  end.

Fixpoint unpairs (ps : list (node * node)) : list node :=
  match ps with
  | [] => []
  | (k, v) :: ps => k :: v :: unpairs ps
  end.

(** The value of the last pair with key [key], as a Go map filled in order holds it. *)
Fixpoint last_value (key : string) (ps : list (node * node)) : option node :=
  match ps with
  | [] => None
  | (k, v) :: ps =>
      match last_value key ps with
      | Some v' => Some v'
      | None => if String.eqb (node_value k) key then Some v else None
      end
  end.

(** The value of the first pair with key [key]. *)
Fixpoint first_value (key : string) (ps : list (node * node)) : option node :=
  match ps with
  | [] => None
  | (k, v) :: ps => if String.eqb (node_value k) key then Some v else first_value key ps
  end.

Definition keys_of (ps : list (node * node)) : list string := node_value ∘ fst <$> ps.

(** A plain Go value ([interface{}]) decoded from YAML. The bindings of a
    [map[string]interface{}] have distinct keys. *)
Inductive yvalue : Type :=
| YNil
| YBool (b : bool)
| YInt (z : Z)
| YFloat (text : string)
| YStr (s : string)
| YSeq (l : list yvalue)
| YMap (m : list (string * yvalue)).

Fixpoint yfield (key : string) (m : list (string * yvalue)) : yvalue :=
  match m with
  | [] => YNil
  | (k, v) :: m => if String.eqb k key then v else yfield key m
  end.

(** The type assertions [v.(string)], [v.(bool)], [v.(map[string]interface{})]. *)
Definition as_string (v : yvalue) : option string := if v is YStr s then Some s else None.
Definition as_bool (v : yvalue) : option bool := if v is YBool b then Some b else None.
Definition as_map (v : yvalue) : option (list (string * yvalue)) :=
  if v is YMap m then Some m else None.

(** What the code uses of yaml.v3. *)
Class YamlLib : Type := {
  (** [yaml.Unmarshal(data, &node)]. *)
  yaml_unmarshal : string -> option node;
  (** [node.Decode(&m)] for [m] a [map[string]interface{}]. *)
  yaml_decode_map : node -> option (list (string * yvalue));
  (** [node.Decode(&l)] for [l] a [[]interface{}]. *)
  yaml_decode_list : node -> option (list yvalue);
  (** [node.Decode(&v)] for [v] an [interface{}]. *)
  yaml_decode : node -> option yvalue;
  (** [node.Encode(l)] for [l] a [[]interface{}]. *)
  yaml_encode_list : list yvalue -> option node;
  (** [node.ShortTag()]. *)
  yaml_short_tag : node -> string;
}.

(** A small instance, for examples: documents are lines [key: value], a value
    [!cel text] is a tagged scalar, [true] and [false] are booleans. *)
Module SampleYaml.

Fixpoint decode (n : node) : yvalue :=
match n with
| Node _ MappingNode _ _ _ c =>
    YMap ((fix go (c : list node) : list (string * yvalue) :=
             match c with k :: v :: c => (node_value k, decode v) :: go c | _ => [] end) c)
| Node _ (SequenceNode | DocumentNode) _ _ _ c => YSeq (decode <$> c)
| Node _ _ tag v _ _ =>
    if String.eqb tag "!!bool" then YBool (String.eqb v "true")
    else if String.eqb tag "!!null" then YNil
    else YStr v
end.

Fixpoint encode (v : yvalue) : node :=
match v with
| YNil => scalar "!!null" "null"
| YBool b => scalar "!!bool" (if b then "true" else "false")
| YInt z => scalar "!!int" (pretty z)
| YFloat t => scalar "!!float" t
| YStr s => scalar "!!str" s
| YSeq l => sequence (encode <$> l)
| YMap m =>
    mapping ((fix go (m : list (string * yvalue)) : list node :=
                match m with
                | [] => []
                | (k, v) :: m => scalar "!!str" k :: encode v :: go m
                end) m)
end.

Definition parse_scalar (v : string) : node :=
if String.eqb v "true" || String.eqb v "false" then scalar "!!bool" v
else if has_prefix v "!cel " then scalar "!cel" (trim_prefix v "!cel ")
else scalar "!!str" v.

Definition parse_line (l : string) : list node :=
let '(k, v, found) := cut_byte ":"%char l in
if found then [scalar "!!str" (trim_space k); parse_scalar (trim_space v)] else [].

Definition parse (s : string) : option node :=
Some (Node no_meta DocumentNode "" "" None
        [mapping (flat_map parse_line (split_byte "010"%char s))]).

Definition lib : YamlLib := {|
yaml_unmarshal := parse;
yaml_decode_map n := as_map (decode n);
yaml_decode_list n := if decode n is YSeq l then Some l else None;
yaml_decode n := Some (decode n);
yaml_encode_list l := Some (encode (YSeq l));
yaml_short_tag := node_tag;
|}.
End SampleYaml.

(** ** Induction over nodes *)
Section node_induction.
Variable P : node -> Prop.
Hypothesis HNode : forall m k t v a c,
  (forall n, a = Some n -> P n) -> Forall P c -> P (Node m k t v a c).

Definition node_ind' : forall n, P n :=
  fix go (n : node) : P n :=
    let '(Node m k t v a c) := n in
    HNode m k t v a c
      (match a as a0 return (forall n0, a0 = Some n0 -> P n0) with
       | Some n1 => fun n0 (E : Some n1 = Some n0) =>
           match E in (_ = o) return (match o with Some x => P x | None => True end) with
           | eq_refl => go n1
           end
       | None => fun n0 E => False_ind _ (match E with end)
       end)
      ((fix gol (l : list node) : Forall P l :=
          match l with
          | [] => Forall_nil_2 P
          | x :: l => Forall_cons_2 P x l (go x) (gol l)
          end) c).
End node_induction.

(** ** Lemmas *)

Lemma pairs_unpairs ps : pairs_of (unpairs ps) = ps.
Proof. induction ps as [|[k v] ps IH]; cbn; [done|]. by rewrite IH. Qed.

Lemma unpairs_app ps qs : unpairs (ps ++ qs) = unpairs ps ++ unpairs qs.
Proof. induction ps as [|[k v] ps IH]; cbn; [done|]. by rewrite IH. Qed.

(** Induction two elements at a time, as the content of a mapping is read. *)
Lemma pair_ind {A} (P : list A -> Prop) :
  P [] -> (forall x, P [x]) -> (forall x y l, P l -> P (x :: y :: l)) -> forall l, P l.
Proof.
  intros H0 H1 H2 l.
  assert (P l /\ forall x, P (x :: l)) as [? _]; [|done].
  induction l as [|y l [IH1 IH2]]; split; auto.
Qed.

Lemma pairs_of_elem c k v : (k, v) ∈ pairs_of c -> k ∈ c /\ v ∈ c.
Proof.
  induction c as [|x|x y c IH] using pair_ind; cbn; [by intros ?%not_elem_of_nil..|].
  intros [[= <- <-]|H]%elem_of_cons; [set_solver|]. apply IH in H. set_solver.
Qed.

Lemma last_value_None key ps : last_value key ps = None <-> key ∉ keys_of ps.
Proof.
  induction ps as [|[k v] ps IH]; cbn; [by split; [intros _ ?%not_elem_of_nil|]|].
  unfold keys_of in *. cbn. rewrite not_elem_of_cons, <- IH. unfold compose. cbn.
  destruct (last_value key ps); [naive_solver|].
  destruct (String.eqb_spec (node_value k) key); naive_solver.
Qed.

Lemma first_value_None key ps : first_value key ps = None <-> key ∉ keys_of ps.
Proof.
  induction ps as [|[k v] ps IH]; cbn; [by split; [intros _ ?%not_elem_of_nil|]|].
  unfold keys_of in *. cbn. rewrite not_elem_of_cons, <- IH. unfold compose. cbn.
  destruct (String.eqb_spec (node_value k) key); naive_solver.
Qed.

Lemma last_value_Some key ps v :
  last_value key ps = Some v -> exists k, (k, v) ∈ ps /\ node_value k = key.
Proof.
  induction ps as [|[k w] ps IH]; cbn; [done|].
  destruct (last_value key ps) as [u|].
  - intros [= ->]. destruct (IH eq_refl) as (k' & ? & ?). exists k'. split; [by right|done].
  - destruct (String.eqb_spec (node_value k) key); [|done]. intros [= ->].
    exists k. split; [left|done].
Qed.

(** With distinct keys the first and the last binding are the same. *)
Lemma last_first_value key ps :
  NoDup (keys_of ps) -> last_value key ps = first_value key ps.
Proof.
  induction ps as [|[k v] ps IH]; cbn; [done|].
  intros [Hk Hnd]%NoDup_cons. specialize (IH Hnd).
  destruct (String.eqb_spec (node_value k) key) as [E|E].
  - assert (last_value key ps = None) as ->; [|done]. apply last_value_None. by rewrite <- E.
  - rewrite IH. by destruct (first_value key ps).
Qed.

Lemma first_value_app key ps qs :
  first_value key (ps ++ qs) =
  match first_value key ps with Some v => Some v | None => first_value key qs end.
Proof. induction ps as [|[k v] ps IH]; cbn; [done|]. by destruct (String.eqb _ _). Qed.

Lemma first_value_elem k v ps :
  NoDup (keys_of ps) -> (k, v) ∈ ps -> first_value (node_value k) ps = Some v.
Proof.
  induction ps as [|[k' v'] ps IH]; cbn; [by intros _ ?%not_elem_of_nil|].
  intros [Hk Hnd]%NoDup_cons [[= <- <-]|Hin]%elem_of_cons; [by rewrite String.eqb_refl|].
  destruct (String.eqb_spec (node_value k') (node_value k)) as [E|E]; [|by apply IH].
  destruct Hk. unfold compose. cbn. rewrite E.
  change (node_value k) with ((node_value ∘ fst) (k, v)). by apply list_elem_of_fmap_2.
Qed.

Lemma keys_of_app ps qs : keys_of (ps ++ qs) = keys_of ps ++ keys_of qs.
Proof. apply fmap_app. Qed.

#[export] Hint Rewrite pairs_unpairs unpairs_app keys_of_app first_value_app : prov.
