(* ===== verification/Merge.v ===== *)
(** * Merging a blueprint with its template

    The node-level merge of internal/blueprint/resolve.go: mappings merge key by
    key, lists by a configured strategy (the child's list when there is none),
    everything else is the child's. *)

From Stdlib Require Import Ascii.
From S2P Require Import Prelude GoStrings Yaml.

(** ** Glob patterns: [filepath.Match] *)

Inductive glob_term : Type :=
| GStar
| GAny
| GLit (c : ascii)
| GClass (negated : bool) (ranges : list (ascii * ascii)).

(** One character of a class, after a possible escape. *)
Definition class_char (p : bytes) : option (ascii * bytes) :=
  match p with
  | c :: p' =>
      if Ascii.eqb c "-" || Ascii.eqb c "]" then None
      else if Ascii.eqb c "\" then match p' with d :: p'' => Some (d, p'') | [] => None end
      else Some (c, p')
  | [] => None
  end.

(** The ranges of a class up to its closing bracket; at least one is needed. *)
Fixpoint class_ranges (fuel : nat) (acc : list (ascii * ascii)) (p : bytes)
    : option (list (ascii * ascii) * bytes) :=
  match fuel with
  | 0 => None
  | S fuel =>
      match p, acc with
      | c :: p', _ :: _ =>
          if Ascii.eqb c "]" then Some (rev acc, p') else
          match class_char p with
          | Some (lo, d :: q) =>
              if Ascii.eqb d "-"
              then match class_char q with
                   | Some (hi, q) => class_ranges fuel ((lo, hi) :: acc) q
                   | None => None
                   end
              else class_ranges fuel ((lo, lo) :: acc) (d :: q)
          | _ => None
          end
      | _, _ =>
          match class_char p with
          | Some (lo, d :: q) =>
              if Ascii.eqb d "-"
              then match class_char q with
                   | Some (hi, q) => class_ranges fuel ((lo, hi) :: acc) q
                   | None => None
                   end
              else class_ranges fuel ((lo, lo) :: acc) (d :: q)
          | _ => None
          end
      end
  end.

(** A pattern as terms; [None] is [ErrBadPattern]. *)
Fixpoint glob_parse (fuel : nat) (p : bytes) : option (list glob_term) :=
  match fuel, p with
  | 0, _ => None
  | S _, [] => Some []
  | S fuel, c :: p =>
      if Ascii.eqb c "*" then cons GStar <$> glob_parse fuel p
      else if Ascii.eqb c "?" then cons GAny <$> glob_parse fuel p
      else if Ascii.eqb c "\" then
        match p with d :: p => cons (GLit d) <$> glob_parse fuel p | [] => None end
      else if Ascii.eqb c "[" then
        let '(neg, q) := match p with
                         | d :: q => if Ascii.eqb d "^" then (true, q) else (false, p)
                         | [] => (false, p)
                         end in
        match class_ranges fuel [] q with
        | Some (rs, q) => cons (GClass neg rs) <$> glob_parse fuel q
        | None => None
        end
      else cons (GLit c) <$> glob_parse fuel p
  end.

Definition in_ranges (c : ascii) (rs : list (ascii * ascii)) : bool :=
  existsb (fun '(lo, hi) => (nat_of_ascii lo <=? nat_of_ascii c)%nat
                            && (nat_of_ascii c <=? nat_of_ascii hi)%nat) rs.

(** [*] and [?] match no separator. *)
Fixpoint glob_terms_match (ts : list glob_term) (s : bytes) : bool :=
  match ts with
  | [] => match s with [] => true | _ => false end
  | GStar :: ts =>
      (fix star (s : bytes) : bool :=
         glob_terms_match ts s ||
         match s with
         | c :: s => negb (Ascii.eqb c "/") && star s
         | [] => false
         end) s
  | GAny :: ts =>
      match s with c :: s => negb (Ascii.eqb c "/") && glob_terms_match ts s | [] => false end
  | GLit d :: ts =>
      match s with c :: s => Ascii.eqb c d && glob_terms_match ts s | [] => false end
  | GClass neg rs :: ts =>
      match s with
      | c :: s => xorb neg (in_ranges c rs) && glob_terms_match ts s
      | [] => false
      end
  end.

Definition filepath_match (pattern name : string) : bool :=
  match glob_parse (S (String.length pattern)) (to_bytes pattern) with
  | Some ts => glob_terms_match ts (to_bytes name)
  | None => false
  end.

Definition dots_to_slashes (s : string) : string :=
  of_bytes ((fun c => if Ascii.eqb c "." then "/" else c)%char <$> to_bytes s).

(** src/internal/blueprint/resolve.go:223-230 pathMatch *)
Definition pathMatch (pattern path : string) : bool :=
  filepath_match (dots_to_slashes pattern) (dots_to_slashes path).

(** ** Strategies *)

(** src/internal/blueprint/blueprint.go:104-105 MergeStrategies *)
Definition strategy : Type := list yvalue -> list yvalue -> list yvalue.

(** The two loops over the strategy map run in an order of their own, [order1]
    and [order2].

    src/internal/blueprint/resolve.go:197-221 findStrategy *)
Definition findStrategy (strategies : gmap string strategy)
    (order1 order2 : list (string * strategy)) (key path : string) : option strategy :=
  match strategies !! path with
  | Some s => Some s
  | None =>
      match find (fun '(k, _) => has_suffix path ("." +:+ k)) order1 with
      | Some (_, s) => Some s
      | None =>
          match find (fun '(k, _) => contains k "*" && pathMatch k path) order2 with
          | Some (_, s) => Some s
          | None => strategies !! key
          end
      end
  end.

(** ** The merge *)

(** Why [mergeSequenceNodes] fails, with the key it names. *)
Inductive merge_error : Type :=
| DecodeParentSequence (key : string)
| DecodeChildSequence (key : string)
| EncodeSequence (key : string).

(** The keys a mapping never inherits. *)
Definition not_inherited (key : string) : bool :=
  String.eqb key "isTemplate" || String.eqb key "description".

Definition is_kind (k : kind) (n : node) : bool := bool_decide (node_kind n = k).

Section merge.
Context `{Y : YamlLib}.
(** What [bm.findStrategy(key, path)] returns during this merge. *)
Variable find_strategy : string -> string -> option strategy.

(** src/internal/blueprint/resolve.go:232-270 mergeSequenceNodes *)
Definition mergeSequenceNodes (parentSeq childSeq : node) (key path : string)
    : result merge_error node :=
  match find_strategy key path with
  | None => Ok childSeq
  | Some strategy =>
      match yaml_decode_list parentSeq with
      | None => Err (DecodeParentSequence key)
      | Some parentList =>
          match yaml_decode_list childSeq with
          | None => Err (DecodeChildSequence key)
          | Some childList =>
              match yaml_encode_list (strategy parentList childList) with
              | None => Err (EncodeSequence key)
              | Some n => Ok n
              end
          end
      end
  end.

(** [rec] is [mergeYAMLNodesWithTags], with which this function is mutually
    recursive.

    src/internal/blueprint/resolve.go:184-194 mergeValueNodes *)
Definition mergeValueNodes_with (rec : node -> node -> string -> result merge_error node)
    (parentValue childValue : node) (key path : string) : result merge_error node :=
  if is_kind MappingNode parentValue && is_kind MappingNode childValue
  then rec parentValue childValue path
  else if is_kind SequenceNode parentValue && is_kind SequenceNode childValue
  then mergeSequenceNodes parentValue childValue key path
  else Ok childValue.

(** src/internal/blueprint/resolve.go:143-146 mergeYAMLNodesWithTags *)
Definition child_path (path key : string) : string :=
  if String.eqb path "" then key else path +:+ "." +:+ key.

(** The pairs of the parent no pair of the child has processed.

    src/internal/blueprint/resolve.go:159-177 mergeYAMLNodesWithTags *)
Definition inherited_pairs (parent_pairs : list (node * node)) (processed : list string)
    : list (node * node) :=
  filter (fun kv => bool_decide (node_value kv.1 ∉ processed)
                    && negb (not_inherited (node_value kv.1)) = true) parent_pairs.

(** src/internal/blueprint/resolve.go:110-180 mergeYAMLNodesWithTags *)
Fixpoint mergeYAMLNodesWithTags (parent child : node) (path : string) {struct child}
    : result merge_error node :=
  match child with
  | Node _ ckind _ _ _ ccontent =>
      if bool_decide (ckind <> MappingNode) then Ok child
      else if negb (is_kind MappingNode parent) then Ok child
      else
        let parent_pairs := pairs_of (node_content parent) in
        (fix children (cs : list node) : result merge_error (list (node * node)) :=
           match cs with
           | keyNode :: valueNode :: cs =>
               let key := node_value keyNode in
               match last_value key parent_pairs with
               | Some parentValue =>
                   mergeValueNodes_with mergeYAMLNodesWithTags parentValue valueNode key
                     (child_path path key)
               | None => Ok valueNode
               end ≫= fun mergedValue =>
               children cs ≫= fun rest => Ok ((keyNode, mergedValue) :: rest)
           | _ => Ok []
           end) ccontent
        ≫= fun merged =>
        Ok (mapping (unpairs (merged ++ inherited_pairs parent_pairs
                                          (keys_of (pairs_of ccontent)))))
  end.

Definition mergeValueNodes := mergeValueNodes_with mergeYAMLNodesWithTags.

(** src/internal/blueprint/resolve.go:103-106 mergeYAMLNodes *)
Definition mergeYAMLNodes (parent child : node) : result merge_error node :=
  mergeYAMLNodesWithTags parent child "".
End merge.

#[global] Arguments mergeYAMLNodes {_} _ _ _ : simpl never.

(** ** Notions the theorems use *)

(** No mapping of the tree has a key twice. *)
Fixpoint unique_keys (n : node) : Prop :=
  match n with
  | Node _ k _ _ _ c =>
      (k = MappingNode -> NoDup (keys_of (pairs_of c))) /\
      (fix all (l : list node) : Prop :=
         match l with [] => True | x :: l => unique_keys x /\ all l end) c
  end.

(** A tree up to what a merge rebuilds: the tags and presentation of mappings. *)
Fixpoint strip (n : node) : node :=
  match n with
  | Node _ MappingNode _ _ _ c =>
      mapping ((fix go (c : list node) : list node :=
                  match c with k :: v :: c => k :: strip v :: go c | _ => [] end) c)
  | _ => n
  end.

(** The nodes of a tree that carry data, tags included: scalars, sequences and
    whatever else is not a mapping. *)
Fixpoint leaves (n : node) : list node :=
  match n with
  | Node _ MappingNode _ _ _ c =>
      (fix go (c : list node) : list node :=
         match c with k :: v :: c => leaves v ++ go c | _ => [] end) c
  | _ => [n]
  end.

(** A mapping's keys must appear here for a key list of a mapping to be a merge. *)
Definition mapping_lookup (key : string) (n : node) : option node :=
  first_value key (pairs_of (node_content n)).

(** [merge_pairs] is the loop over the child's pairs. *)
Section merge_pairs.
Context `{Y : YamlLib} (fs : string -> string -> option strategy).

Fixpoint merge_pairs (parent_pairs : list (node * node)) (path : string)
    (ps : list (node * node)) : result merge_error (list (node * node)) :=
  match ps with
  | [] => Ok []
  | (k, v) :: ps =>
      match last_value (node_value k) parent_pairs with
      | Some pv => mergeValueNodes fs pv v (node_value k) (child_path path (node_value k))
      | None => Ok v
      end ≫= fun mv => merge_pairs parent_pairs path ps ≫= fun rest => Ok ((k, mv) :: rest)
  end.
End merge_pairs.

(** ** Lemmas *)

Lemma is_kind_spec k n : is_kind k n = true <-> node_kind n = k.
Proof. unfold is_kind. apply bool_decide_eq_true. Qed.

Section merge_lemmas.
Context `{Y : YamlLib} (fs : string -> string -> option strategy).
#[local] Abbreviation merge := (mergeYAMLNodesWithTags fs).

Lemma merge_not_mapping p c path :
  node_kind c <> MappingNode \/ node_kind p <> MappingNode -> merge p c path = Ok c.
Proof.
  destruct c as [m k t v a c]. cbn. intros H.
  destruct (bool_decide_reflect (k <> MappingNode)) as [|Hk]; [done|].
  destruct (is_kind MappingNode p) eqn:E; [|done].
  apply is_kind_spec in E. naive_solver.
Qed.

Lemma merge_mapping p c path :
  node_kind c = MappingNode -> node_kind p = MappingNode ->
  merge p c path =
    (merged ← merge_pairs fs (pairs_of (node_content p)) path (pairs_of (node_content c));
     Ok (mapping (unpairs (merged ++ inherited_pairs (pairs_of (node_content p))
                                       (keys_of (pairs_of (node_content c))))))).
Proof.
  destruct c as [m k t v a c]. cbn [node_kind node_content]. intros -> Hp.
  cbn [mergeYAMLNodesWithTags]. rewrite bool_decide_false by auto.
  apply is_kind_spec in Hp as ->. cbn [negb].
  f_equal. generalize (pairs_of (node_content p)); intros pps. clear.
  induction c as [|x|x y c IH] using pair_ind; [done..|].
  cbn [pairs_of merge_pairs]. rewrite <- IH. done.
Qed.

(** Without a list strategy a value merge is a node merge. *)
Lemma mergeValueNodes_spec pv cv key path :
  mergeValueNodes fs pv cv key path =
    if is_kind SequenceNode pv && is_kind SequenceNode cv
    then mergeSequenceNodes fs pv cv key path else merge pv cv path.
Proof.
  unfold mergeValueNodes, mergeValueNodes_with.
  destruct (is_kind MappingNode pv && is_kind MappingNode cv) eqn:E.
  - apply andb_true_iff in E as [E1%is_kind_spec E2%is_kind_spec].
    unfold is_kind. by rewrite E1, E2.
  - destruct (is_kind SequenceNode pv && is_kind SequenceNode cv) eqn:F; [done|].
    symmetry. apply merge_not_mapping. apply andb_false_iff in E as [E|E];
    unfold is_kind in E; apply bool_decide_eq_false in E; auto.
Qed.

Lemma merge_pairs_keys pps path ps r : merge_pairs fs pps path ps = Ok r -> r.*1 = ps.*1.
Proof.
  revert r. induction ps as [|[k v] ps IH]; intros r; cbn [merge_pairs].
  { by intros [= <-]. }
  intros (mv & _ & (rest & Hr & [= <-])%bind_ok)%bind_ok. cbn. by rewrite (IH rest).
Qed.

Lemma merge_pairs_keys_of pps path ps r :
  merge_pairs fs pps path ps = Ok r -> keys_of r = keys_of ps.
Proof.
  intros H%merge_pairs_keys. unfold keys_of.
  by rewrite !list_fmap_compose, H.
Qed.

(** What a merge computes for one key of the child. *)
Definition merged_value (pps : list (node * node)) (path : string) (key : string) (cv : node)
    : result merge_error node :=
  match last_value key pps with
  | Some pv => mergeValueNodes fs pv cv key (child_path path key)
  | None => Ok cv
  end.

Lemma merge_pairs_first_value pps path ps r key :
  merge_pairs fs pps path ps = Ok r ->
  match first_value key ps with
  | Some cv => exists mv, first_value key r = Some mv /\ merged_value pps path key cv = Ok mv
  | None => first_value key r = None
  end.
Proof.
  revert r. induction ps as [|[k v] ps IH]; intros r; cbn [merge_pairs first_value].
  { by intros [= <-]. }
  intros (mv & Hv & (rest & Hr & [= <-])%bind_ok)%bind_ok. cbn [first_value].
  destruct (String.eqb_spec (node_value k) key) as [<-|].
  - by exists mv.
  - by apply IH.
Qed.

Lemma inherited_first_value pps processed key :
  first_value key (inherited_pairs pps processed) =
    if bool_decide (key ∉ processed) && negb (not_inherited key)
    then first_value key pps else None.
Proof.
  unfold inherited_pairs. induction pps as [|[k v] pps IH].
  { cbn. by case_match. }
  rewrite filter_cons. cbn [fst first_value].
  destruct (bool_decide (node_value k ∉ processed) && negb (not_inherited (node_value k))) eqn:E;
    [rewrite decide_True by done|rewrite decide_False by done]; cbn [first_value];
    (destruct (String.eqb_spec (node_value k) key) as [<-|]; [by rewrite E in *|done]).
Qed.
End merge_lemmas.

(** Provenance of one key of a merged mapping. *)
Lemma merge_lookup `{Y : YamlLib} fs p c path r key :
  node_kind p = MappingNode -> node_kind c = MappingNode ->
  mergeYAMLNodesWithTags fs p c path = Ok r ->
  match mapping_lookup key c, last_value key (pairs_of (node_content p)) with
  | Some cv, Some pv =>
      exists mv, mapping_lookup key r = Some mv /\
                 mergeValueNodes fs pv cv key (child_path path key) = Ok mv
  | Some cv, None => mapping_lookup key r = Some cv
  | None, _ =>
      mapping_lookup key r = if not_inherited key then None else mapping_lookup key p
  end.
Proof.
  intros Hp Hc. rewrite merge_mapping by done. unfold mapping_lookup.
  intros (m & Hm & [= <-])%bind_ok. cbn [node_content mapping].
  rewrite pairs_unpairs, first_value_app, inherited_first_value.
  pose proof (merge_pairs_first_value fs _ _ _ _ key Hm) as H.
  destruct (first_value key (pairs_of (node_content c))) as [cv|] eqn:E.
  - destruct H as (mv & -> & H). unfold merged_value in H.
    destruct (last_value _ _); [eauto|]. by injection H as ->.
  - rewrite H. apply first_value_None in E. rewrite bool_decide_true by done. cbn.
    by destruct (not_inherited key).
Qed.

(** ** Re-submitting a merged blueprint *)

Fixpoint strip_pairs (ps : list (node * node)) : list (node * node) :=
  match ps with
  | [] => []
  | (k, v) :: ps => (k, strip v) :: strip_pairs ps
  end.

Lemma strip_mapping n :
  node_kind n = MappingNode -> strip n = mapping (unpairs (strip_pairs (pairs_of (node_content n)))).
Proof.
  destruct n as [m k t v a c]. cbn [node_kind node_content]. intros ->. cbn [strip]. f_equal.
  induction c as [|x|x y c IH] using pair_ind; [done..|]. cbn. by do 2 f_equal.
Qed.

Lemma unique_keys_node m k t v a c :
  unique_keys (Node m k t v a c) <->
  (k = MappingNode -> NoDup (keys_of (pairs_of c))) /\ Forall unique_keys c.
Proof.
  cbn. f_equiv. induction c as [|x c IH]; [by split; [constructor|]|].
  by rewrite Forall_cons, IH.
Qed.

Lemma unique_keys_mapping n :
  node_kind n = MappingNode -> unique_keys n ->
  NoDup (keys_of (pairs_of (node_content n))) /\
  forall k v, (k, v) ∈ pairs_of (node_content n) -> unique_keys k /\ unique_keys v.
Proof.
  destruct n as [m k t v a c]. cbn [node_kind node_content]. intros -> [H1 H2]%unique_keys_node.
  rewrite Forall_forall in H2. split; [by apply H1|].
  intros k' v' [? ?]%pairs_of_elem. auto.
Qed.

Lemma unique_keys_of_pairs ps :
  NoDup (keys_of ps) -> (forall k v, (k, v) ∈ ps -> unique_keys k /\ unique_keys v) ->
  unique_keys (mapping (unpairs ps)).
Proof.
  intros Hnd H. apply unique_keys_node. rewrite pairs_unpairs. split; [done|].
  induction ps as [|[k v] ps IH]; cbn; [constructor|].
  destruct (H k v) as [? ?]; [left|]. repeat constructor; try done. apply IH.
  - by apply NoDup_cons in Hnd as [_ ?].
  - intros k' v' Hin. apply H. by right.
Qed.

Section remerge.
Context `{Y : YamlLib} (fs : string -> string -> option strategy).
Hypothesis no_strategy : forall key path, fs key path = None.
#[local] Abbreviation merge := (mergeYAMLNodesWithTags fs).

Lemma merge_value_plain pv cv key path :
  mergeValueNodes fs pv cv key path =
    if is_kind SequenceNode pv && is_kind SequenceNode cv then Ok cv else merge pv cv path.
Proof. rewrite mergeValueNodes_spec. unfold mergeSequenceNodes. by rewrite no_strategy. Qed.

(** If each value merges into one like it, so does the list of pairs. *)
Lemma merge_pairs_like pps path ps :
  (forall k v, (k, v) ∈ ps ->
    exists mv, merged_value fs pps path (node_value k) v = Ok mv /\ strip mv = strip v) ->
  exists r, merge_pairs fs pps path ps = Ok r /\ strip_pairs r = strip_pairs ps.
Proof.
  induction ps as [|[k v] ps IH]; intros H; [by exists []|].
  destruct (H k v) as (mv & E & Es); [left|].
  destruct IH as (r & Er & Hr). { intros k' v' Hin. apply H. by right. }
  exists ((k, mv) :: r). cbn [merge_pairs]. unfold merged_value in E. rewrite E. cbn.
  rewrite Er. cbn. split; [done|]. by rewrite Es, Hr.
Qed.

(** Nothing is inherited when every inheritable key has been processed. *)
Lemma inherited_nothing pps processed :
  (forall k v, (k, v) ∈ pps -> not_inherited (node_value k) = false ->
    node_value k ∈ processed) ->
  inherited_pairs pps processed = [].
Proof.
  intros H. unfold inherited_pairs. induction pps as [|[k v] pps IH]; [done|].
  rewrite filter_cons. rewrite decide_False.
  - apply IH. intros k' v' Hin. apply (H k' v'). by right.
  - cbn. intros [Hp%bool_decide_eq_true Hn%negb_true_iff]%andb_true_iff.
    apply Hp, (H k v); [left|done].
Qed.

Lemma last_value_elem k v ps :
  NoDup (keys_of ps) -> (k, v) ∈ ps -> last_value (node_value k) ps = Some v.
Proof. intros Hnd Hin. rewrite last_first_value by done. by apply first_value_elem. Qed.

Lemma elem_keys_of k v ps : (k, v) ∈ ps -> node_value k ∈ keys_of ps.
Proof.
  intros H. change (node_value k) with ((node_value ∘ fst) (k, v)).
  by apply list_elem_of_fmap_2.
Qed.

Lemma merge_self q path :
  unique_keys q -> exists r, merge q q path = Ok r /\ strip r = strip q.
Proof.
  revert path. induction q as [m k t v a c _ IH] using node_ind'; intros path Hu.
  destruct (decide (k = MappingNode)) as [->|Hk].
  2: { exists (Node m k t v a c). split; [|done]. apply merge_not_mapping. by left. }
  pose proof (unique_keys_mapping (Node m MappingNode t v a c) eq_refl Hu) as [Hnd Hv]. cbn [node_content] in *.
  rewrite merge_mapping by done. cbn [node_content].
  destruct (merge_pairs_like (pairs_of c) path (pairs_of c)) as (r & Er & Hr).
  - intros k' v' Hin. unfold merged_value. rewrite last_value_elem with (v := v') by done.
    rewrite merge_value_plain. case_goal; [by exists v'|].
    rewrite Forall_forall in IH. apply IH; [by apply pairs_of_elem in Hin as [_ ?]|].
    by apply (Hv k' v').
  - rewrite Er. cbn [mbind result_bind]. eexists; split; [done|].
    rewrite inherited_nothing by (intros k' v' Hin _; by eapply elem_keys_of).
    rewrite app_nil_r, (strip_mapping (mapping _)), (strip_mapping (Node _ _ _ _ _ _)) by done.
    cbn [node_content mapping]. by rewrite pairs_unpairs, Hr.
Qed.

Lemma inherited_elem pps processed k v :
  (k, v) ∈ inherited_pairs pps processed <->
  (k, v) ∈ pps /\ node_value k ∉ processed /\ not_inherited (node_value k) = false.
Proof.
  unfold inherited_pairs. rewrite list_elem_of_filter. cbn.
  rewrite andb_true_iff, bool_decide_eq_true, negb_true_iff. tauto.
Qed.

Lemma inherited_NoDup pps processed :
  NoDup (keys_of pps) -> NoDup (keys_of (inherited_pairs pps processed)).
Proof.
  unfold keys_of. intros H. eapply sublist_NoDup; [done|].
  apply fmap_sublist. unfold inherited_pairs. apply sublist_filter.
Qed.

(** Without strategies no merge fails. *)
Lemma merge_total p c path : exists r, merge p c path = Ok r.
Proof.
  revert p path. induction c as [m k t v a c _ IH] using node_ind'; intros p path.
  destruct (decide (k = MappingNode /\ node_kind p = MappingNode)) as [[-> Hp]|Hn].
  2: { exists (Node m k t v a c). apply merge_not_mapping. by apply not_and_l in Hn. }
  rewrite merge_mapping by done. cbn [node_content].
  enough (exists r, merge_pairs fs (pairs_of (node_content p)) path (pairs_of c) = Ok r)
    as [r ->] by (by eexists).
  generalize (pairs_of (node_content p)). clear Hp p. intros pps.
  rewrite Forall_forall in IH.
  assert (forall k v, (k, v) ∈ pairs_of c -> v ∈ c) as Hin by (by intros ?? [_ ?]%pairs_of_elem).
  induction (pairs_of c) as [|[k v'] ps IHps]; [by exists []|]. cbn [merge_pairs].
  destruct IHps as [rest ->]; [intros k' w Hw; apply (Hin k'); by right|].
  destruct (last_value (node_value k) pps) as [pv|]; cbn; [|by eexists].
  rewrite merge_value_plain. case_goal; cbn; [by eexists|].
  destruct (IH v' (Hin k v' (list_elem_of_here _ _)) pv (child_path path (node_value k)))
    as [? ->]. by eexists.
Qed.

(** The keys of a merge are the child's and the inherited ones. *)
Lemma merge_keys_NoDup pps path ps m :
  NoDup (keys_of pps) -> NoDup (keys_of ps) -> merge_pairs fs pps path ps = Ok m ->
  NoDup (keys_of (m ++ inherited_pairs pps (keys_of ps))).
Proof.
  intros Hp Hc Hm. rewrite keys_of_app, (merge_pairs_keys_of _ _ _ _ _ Hm).
  apply NoDup_app. split_and!; [done| |by apply inherited_NoDup].
  intros x Hx Hx'. unfold keys_of in Hx'. apply list_elem_of_fmap in Hx' as ([k v] & -> & Hin).
  apply inherited_elem in Hin as (_ & H & _). by apply H.
Qed.

Lemma merge_pairs_elem pps path ps m k mv :
  merge_pairs fs pps path ps = Ok m -> (k, mv) ∈ m ->
  exists cv, (k, cv) ∈ ps /\ merged_value fs pps path (node_value k) cv = Ok mv.
Proof.
  revert m. induction ps as [|[k' v'] ps IH]; intros m; cbn [merge_pairs].
  { by intros [= <-] ?%not_elem_of_nil. }
  intros (mv' & Hv & (rest & Hr & [= <-])%bind_ok)%bind_ok [[= <- <-]|Hin]%elem_of_cons.
  - exists v'. split; [left|done].
  - destruct (IH rest Hr Hin) as (cv & ? & ?). exists cv. split; [by right|done].
Qed.

Definition resubmits (p c : node) (path : string) : Prop :=
  forall r, unique_keys p -> unique_keys c -> merge p c path = Ok r ->
    unique_keys r /\ exists r', merge p r path = Ok r' /\ strip r' = strip r.

(** One value of a merge, submitted again. *)
Lemma merged_value_resubmits pps path key cv mv :
  (forall p path, resubmits p cv path) -> unique_keys cv ->
  (forall pv, last_value key pps = Some pv -> unique_keys pv) ->
  merged_value fs pps path key cv = Ok mv ->
  unique_keys mv /\ exists mv', merged_value fs pps path key mv = Ok mv' /\ strip mv' = strip mv.
Proof.
  intros IH Hc Hp. unfold merged_value. destruct (last_value key pps) as [pv|].
  2: { intros [= <-]. split; [done|]. by exists cv. }
  specialize (Hp pv eq_refl). rewrite !merge_value_plain.
  destruct (is_kind SequenceNode pv && is_kind SequenceNode cv) eqn:E.
  - intros [= <-]. rewrite E. split; [done|]. by exists cv.
  - intros Hm. destruct (IH _ _ _ Hp Hc Hm) as (Hu & r' & Hr' & Hs). split; [done|].
    case_goal; [by exists mv|]. by exists r'.
Qed.

Lemma resubmits_all p c path : resubmits p c path.
Proof.
  revert p path. induction c as [m k t v a c _ IH] using node_ind'. intros p path r Hup Huc.
  destruct (decide (k = MappingNode /\ node_kind p = MappingNode)) as [[-> Hp]|Hn].
  2: { assert (node_kind (Node m k t v a c) <> MappingNode \/ node_kind p <> MappingNode) as H
         by (by apply not_and_l in Hn).
       rewrite merge_not_mapping by done. intros [= <-]. split; [done|].
       eexists; split; [by apply merge_not_mapping|done]. }
  rewrite merge_mapping by done. cbn [node_content].
  pose proof (unique_keys_mapping _ Hp Hup) as [Hndp Hvp].
  pose proof (unique_keys_mapping (Node m MappingNode t v a c) eq_refl Huc) as [Hndc Hvc].
  cbn [node_content] in *. set (pps := pairs_of (node_content p)) in *.
  intros (ms & Hms & [= <-])%bind_ok. set (rs := ms ++ inherited_pairs pps _).
  assert (forall k' v', (k', v') ∈ rs -> unique_keys k' /\ unique_keys v' /\
    exists mv', merged_value fs pps path (node_value k') v' = Ok mv' /\ strip mv' = strip v') as Hrs.
  { intros k' v' [Hin|Hin]%elem_of_app.
    - destruct (merge_pairs_elem _ _ _ _ _ _ Hms Hin) as (cv & Hcv & Hv').
      rewrite Forall_forall in IH. split; [by apply (Hvc k' cv)|].
      eapply merged_value_resubmits; [|by apply (Hvc k' cv)| |exact Hv'].
      + apply IH. by apply pairs_of_elem in Hcv as [_ ?].
      + intros pv (kp & Hkp & _)%last_value_Some. by apply (Hvp kp pv).
    - apply inherited_elem in Hin as (Hin & _ & _). destruct (Hvp k' v' Hin) as [? Huv].
      split_and!; [done..|]. unfold merged_value. rewrite last_value_elem with (v := v') by done.
      rewrite merge_value_plain. case_goal; [by exists v'|]. by apply merge_self. }
  split.
  { apply unique_keys_of_pairs; [by apply (merge_keys_NoDup _ path)|].
    intros k' v' Hin. by destruct (Hrs k' v' Hin) as (? & ? & _). }
  destruct (merge_pairs_like pps path rs) as (r' & Er' & Hs).
  { intros k' v' Hin. by destruct (Hrs k' v' Hin) as (_ & _ & ?). }
  rewrite merge_mapping by done. cbn [node_content mapping]. fold pps.
  rewrite pairs_unpairs, Er'. cbn [mbind result_bind]. eexists; split; [done|].
  rewrite inherited_nothing.
  - rewrite app_nil_r, !strip_mapping by done. cbn [node_content mapping].
    by rewrite !pairs_unpairs, Hs.
  - intros k' v' Hin Hn. unfold rs. rewrite keys_of_app. apply elem_of_app.
    rewrite (merge_pairs_keys_of _ _ _ _ _ Hms).
    destruct (decide (node_value k' ∈ keys_of (pairs_of c))) as [|Hk]; [by left|right].
    apply (elem_keys_of k' v'). apply inherited_elem. split_and!; done.
Qed.
End remerge.

(** ** Where the data of a merge comes from *)

Lemma leaves_mapping n :
  node_kind n = MappingNode ->
  leaves n = flat_map (fun kv => leaves kv.2) (pairs_of (node_content n)).
Proof.
  destruct n as [m k t v a c]. cbn [node_kind node_content]. intros ->. cbn [leaves].
  induction c as [|x|x y c IH] using pair_ind; [done..|]. cbn. by f_equal.
Qed.

Lemma leaves_not_mapping n : node_kind n <> MappingNode -> leaves n = [n].
Proof. by destruct n as [? [] ? ? ? ?]. Qed.

Lemma elem_of_leaves_mapping n x :
  node_kind n = MappingNode ->
  x ∈ leaves n <-> exists k v, (k, v) ∈ pairs_of (node_content n) /\ x ∈ leaves v.
Proof.
  intros H. rewrite leaves_mapping by done. rewrite list_elem_of_In, in_flat_map.
  split.
  - intros ([k v] & Hin & Hx). exists k, v. by rewrite !list_elem_of_In.
  - intros (k & v & Hin & Hx). exists (k, v). by rewrite <- !list_elem_of_In.
Qed.

Section provenance.
Context `{Y : YamlLib} (fs : string -> string -> option strategy).
Hypothesis no_strategy : forall key path, fs key path = None.

Lemma merge_leaves_incl p c path r :
  mergeYAMLNodesWithTags fs p c path = Ok r -> forall x, x ∈ leaves r -> x ∈ leaves p \/ x ∈ leaves c.
Proof.
  revert p path r. induction c as [m k t v a c _ IH] using node_ind'. intros p path r.
  destruct (decide (k = MappingNode /\ node_kind p = MappingNode)) as [[-> Hp]|Hn].
  2: { rewrite merge_not_mapping by (by apply not_and_l in Hn). intros [= <-]. auto. }
  rewrite merge_mapping by done. cbn [node_content].
  intros (ms & Hms & [= <-])%bind_ok x. rewrite elem_of_leaves_mapping by done.
  cbn [node_content mapping]. rewrite pairs_unpairs.
  rewrite (elem_of_leaves_mapping p), (elem_of_leaves_mapping (Node _ _ _ _ _ _)) by done.
  cbn [node_content]. intros (k' & v' & [Hin|Hin]%elem_of_app & Hx).
  - destruct (merge_pairs_elem _ _ _ _ _ _ _ Hms Hin) as (cv & Hcv & Hv).
    unfold merged_value in Hv. destruct (last_value _ _) as [pv|] eqn:E.
    2: { injection Hv as ->. right. by exists k', v'. }
    rewrite merge_value_plain in Hv by done. case_in Hv.
    { injection Hv as ->. right. by exists k', v'. }
    rewrite Forall_forall in IH. apply last_value_Some in E as (kp & Hkp & _).
    assert (cv ∈ c) as Hcin by (by apply pairs_of_elem in Hcv as [_ ?]).
    destruct (IH cv Hcin _ _ _ Hv x Hx); [left; by exists kp, pv|right; by exists k', cv].
  - apply inherited_elem in Hin as (Hin & _ & _). left. by exists k', v'.
Qed.
End provenance.

(** ** The theorems *)

(** C4. Each key of the merge of two mappings comes from where it should: a key of
    both is merged by value, a key only the child has is the child's, and a key
    only the template has is inherited unless it is "isTemplate" or
    "description". *)
Theorem mergeYAMLNodes_lookup `{Y : YamlLib} fs p c r key :
  node_kind p = MappingNode -> node_kind c = MappingNode ->
  mergeYAMLNodes fs p c = Ok r ->
  match mapping_lookup key c, last_value key (pairs_of (node_content p)) with
  | Some cv, Some pv =>
      exists mv, mapping_lookup key r = Some mv /\ mergeValueNodes fs pv cv key key = Ok mv
  | Some cv, None => mapping_lookup key r = Some cv
  | None, _ =>
      mapping_lookup key r = if not_inherited key then None else mapping_lookup key p
  end.
Proof. intros Hp Hc Hm. exact (merge_lookup fs p c "" r key Hp Hc Hm). Qed.

(** A resolved blueprint can be submitted again as its own definition while it
    still names its template: with no list strategy, merging the template into
    the merge gives the merge back, up to the tags and layout of mappings. *)
Theorem mergeYAMLNodes_resubmit `{Y : YamlLib} fs p c r :
  (forall key path, fs key path = None) -> unique_keys p -> unique_keys c ->
  mergeYAMLNodes fs p c = Ok r ->
  exists r', mergeYAMLNodes fs p r = Ok r' /\ strip r' = strip r.
Proof.
  intros Hfs Hp Hc Hm.
  destruct (resubmits_all fs Hfs p c "" r Hp Hc Hm) as (_ & r' & ? & ?). by exists r'.
Qed.

(** With no list strategy a merge never fails and invents no data: every
    scalar and list of the result, with its tag (so [!cel] expressions stay
    expressions), stands in the template or in the child. *)
Theorem mergeYAMLNodes_leaves `{Y : YamlLib} fs p c :
  (forall key path, fs key path = None) ->
  exists r, mergeYAMLNodes fs p c = Ok r /\
    forall x, x ∈ leaves r -> x ∈ leaves p \/ x ∈ leaves c.
Proof.
  intros Hfs. destruct (merge_total fs Hfs p c "") as [r Hr]. exists r.
  split; [exact Hr|]. by apply (merge_leaves_incl fs Hfs p c "").
Qed.

(** ** Examples *)

(** A template with a script list, an app and metadata, and its child. *)
Module MergeSample.
Definition str (s : string) : node := scalar "!!str" s.

Definition template : node :=
  mapping [str "description"; str "base"; str "isTemplate"; scalar "!!bool" "true";
           str "image"; mapping [str "tag"; scalar "!cel" "user.tag"; str "name"; str "go"]].
Definition child : node :=
  mapping [str "image"; mapping [str "name"; str "rust"]; str "user"; str "dev"].
Definition merged : node :=
  mapping [str "image"; mapping [str "name"; str "rust"; str "tag"; scalar "!cel" "user.tag"];
           str "user"; str "dev"].
End MergeSample.

Lemma mergeYAMLNodes_lookup_witness :
  let _ := SampleYaml.lib in
  mergeYAMLNodes (fun _ _ => None) MergeSample.template MergeSample.child = Ok MergeSample.merged /\
  exists mv, mapping_lookup "image" MergeSample.merged = Some mv /\
    mergeValueNodes (fun _ _ => None)
      (mapping [MergeSample.str "tag"; scalar "!cel" "user.tag"; MergeSample.str "name"; MergeSample.str "go"])
      (mapping [MergeSample.str "name"; MergeSample.str "rust"]) "image" "image" = Ok mv.
Proof.
  intros L. split; [reflexivity|].
  exact (mergeYAMLNodes_lookup (fun _ _ => None) MergeSample.template MergeSample.child
           MergeSample.merged "image" eq_refl eq_refl eq_refl).
Defined.

Lemma mergeYAMLNodes_leaves_witness :
  let _ := SampleYaml.lib in
  exists r, mergeYAMLNodes (fun _ _ => None) MergeSample.template MergeSample.child = Ok r /\
    forall x, x ∈ leaves r -> x ∈ leaves MergeSample.template \/ x ∈ leaves MergeSample.child.
Proof. intros L. by apply (mergeYAMLNodes_leaves (fun _ _ => None)). Defined.
