(* ===== verification/Strategies.v ===== *)
(** * The list strategies the server registers

    internal/server/server.go configures three merge strategies when it creates
    the blueprint manager. *)

From S2P Require Import Prelude GoStrings Yaml Merge.

(** src/internal/server/server.go:121-123 NewServer *)
Definition replace_strategy : strategy := fun _ child => child.

(** [m["name"].(string)] of a list item that is a map. *)
Definition script_name (item : yvalue) : option string :=
  m ← as_map item; as_string (yfield "name" m).

(** The named items of [child] by name, the last of a name winning.

    src/internal/server/server.go:133-140 NewServer *)
Definition child_by_name (child : list yvalue) : gmap string yvalue :=
  foldl (fun byName item =>
           match script_name item with
           | Some name => if String.eqb name "" then byName else <[name := item]> byName
           | None => byName
           end) ∅ child.

(** The parent's items in order, each replaced by the child's item of its name,
    which is used up.

    src/internal/server/server.go:141-152 NewServer *)
Fixpoint override_parents (byName : gmap string yvalue) (parent : list yvalue)
    : list yvalue * gmap string yvalue :=
  match parent with
  | [] => ([], byName)
  | item :: parent =>
      match script_name item ≫= fun name => (name,.) <$> byName !! name with
      | Some (name, override) =>
          let '(result, rest) := override_parents (delete name byName) parent in
          (override :: result, rest)
      | None =>
          let '(result, rest) := override_parents byName parent in (item :: result, rest)
      end
  end.

(** src/internal/server/server.go:153-162 NewServer *)
Definition remaining_children (byName : gmap string yvalue) (child : list yvalue) : list yvalue :=
  filter (fun item => match script_name item with
                      | Some name => negb (String.eqb name "")
                                     && bool_decide (is_Some (byName !! name))
                      | None => false
                      end = true) child.

(** src/internal/server/server.go:129-164 NewServer *)
Definition init_scripts_strategy : strategy := fun parent child =>
  let '(result, rest) := override_parents (child_by_name child) parent in
  result ++ remaining_children rest child.

(** src/internal/server/server.go:118-165 NewServer *)
Definition server_strategies : gmap string strategy :=
  <["claimSpec.accessModes" := replace_strategy]>
  (<["apps.*.start" := replace_strategy]>
  (<["initScripts" := init_scripts_strategy]> ∅)).

(** ** Lemmas *)

Lemma drop_str_length n s : String.length (drop_str n s) = (String.length s - n)%nat.
Proof. revert s. induction n as [|n IH]; intros [|a s]; cbn; auto. Qed.

Lemma drop_str_drop_str n m s : drop_str n (drop_str m s) = drop_str (m + n) s.
Proof. revert s. induction m as [|m IH]; intros s; [done|]. destruct s; cbn; [by destruct n|auto]. Qed.

(** Of two suffixes of a string, the shorter is one of the longer. *)
Lemma has_suffix_nested s a b :
  has_suffix s a = true -> has_suffix s b = true ->
  (String.length a <= String.length b)%nat -> has_suffix b a = true.
Proof.
  unfold has_suffix. intros [Ha%Nat.leb_le Ea%String.eqb_eq]%andb_true_iff.
  intros [Hb%Nat.leb_le Eb%String.eqb_eq]%andb_true_iff Hab.
  apply andb_true_iff. split; [by apply Nat.leb_le|]. apply String.eqb_eq.
  set (n := (String.length b - String.length a)%nat).
  transitivity (drop_str n (drop_str (String.length s - String.length b) s)); [by rewrite Eb|].
  rewrite drop_str_drop_str, <- Ea at 1. f_equal. lia.
Qed.

Lemma find_unique {A} (f : A -> bool) l1 l2 :
  l1 ≡ₚ l2 ->
  (forall x y, x ∈ l1 -> y ∈ l1 -> f x = true -> f y = true -> x = y) -> find f l1 = find f l2.
Proof.
  intros Hl Hu.
  destruct (find f l1) as [x|] eqn:E1, (find f l2) as [y|] eqn:E2; [| | |done].
  - apply find_some in E1 as [Hx Fx], E2 as [Hy Fy]. f_equal.
    apply Hu; rewrite ?list_elem_of_In; [done| |done|done]. by rewrite Hl.
  - apply find_some in E1 as [Hx Fx]. apply find_none with (x := x) in E2; [congruence|].
    by rewrite <- Hl.
  - apply find_some in E2 as [Hy Fy]. apply find_none with (x := y) in E1; [congruence|].
    by rewrite Hl.
Qed.

(** *** The items of a list by name *)

Definition named (name : string) (item : yvalue) : Prop :=
  script_name item = Some name /\ name <> "".

#[export] Instance named_dec name item : Decision (named name item).
Proof. unfold named. apply _. Defined.

Lemma child_by_name_snoc l x :
  child_by_name (l ++ [x]) =
    match script_name x with
    | Some n => if String.eqb n "" then child_by_name l else <[n := x]> (child_by_name l)
    | None => child_by_name l
    end.
Proof. unfold child_by_name. by rewrite foldl_app. Qed.

Lemma child_by_name_Some l n x :
  child_by_name l !! n = Some x -> x ∈ l /\ named n x.
Proof.
  induction l as [|y l IH] using rev_ind; [done|].
  rewrite child_by_name_snoc. destruct (script_name y) as [m|] eqn:E.
  2: { intros H%IH. set_solver. }
  destruct (String.eqb_spec m ""); [intros H%IH; set_solver|].
  rewrite lookup_insert_Some. intros [[<- <-]|[_ H%IH]]; [|set_solver].
  split; [set_solver|by split].
Qed.

Lemma child_by_name_None l n : child_by_name l !! n = None <-> forall x, x ∈ l -> ~ named n x.
Proof.
  induction l as [|y l IH] using rev_ind.
  { split; [by intros _ x ?%not_elem_of_nil|done]. }
  rewrite child_by_name_snoc. unfold named in *. setoid_rewrite elem_of_app.
  setoid_rewrite list_elem_of_singleton.
  destruct (script_name y) as [m|] eqn:E; [destruct (String.eqb_spec m "")|].
  - rewrite IH. naive_solver.
  - rewrite lookup_insert_None, IH. split; [naive_solver congruence|].
    intros H. split; [naive_solver|]. intros ->. apply (H y); auto.
  - rewrite IH. naive_solver.
Qed.

(** All items of a name being equal, that is the item of the name. *)
Lemma child_by_name_unique l n x :
  x ∈ l -> named n x -> (forall y, y ∈ l -> named n y -> y = x) -> child_by_name l !! n = Some x.
Proof.
  intros Hx Hn Hu. destruct (child_by_name l !! n) as [y|] eqn:E.
  - apply child_by_name_Some in E as [Hy ?]. by rewrite (Hu y).
  - rewrite child_by_name_None in E. by destruct (E x).
Qed.

(** *** The strategy in closed form *)

Definition names_of (l : list yvalue) : list string := omap script_name l.

Definition override_by (byName : gmap string yvalue) (item : yvalue) : yvalue :=
  match script_name item with
  | Some n => default item (byName !! n)
  | None => item
  end.

Lemma override_parents_spec byName parent :
  NoDup (names_of parent) ->
  (override_parents byName parent).1 = override_by byName <$> parent /\
  forall n, (override_parents byName parent).2 !! n =
    if bool_decide (n ∈ names_of parent) then None else byName !! n.
Proof.
  unfold names_of. revert byName. induction parent as [|item parent IH]; intros byName Hnd.
  { split; [done|]. intros n. by rewrite bool_decide_false by (apply not_elem_of_nil). }
  assert (override_by byName item =
    match script_name item with Some n => default item (byName !! n) | None => item end) as Ho by done.
  cbn [override_parents]. cbn in Hnd. rewrite fmap_cons, Ho. clear Ho. cbn [omap list_omap].
  destruct (script_name item) as [n|] eqn:E; cbn in *.
  2: { destruct (IH byName Hnd) as [IH1 IH2]. destruct (override_parents byName parent).
       cbn in *. split; [by rewrite IH1|done]. }
  apply NoDup_cons in Hnd as [Hn Hnd].
  assert (forall m, override_by m <$> parent = override_by (delete n m) <$> parent) as Hdel.
  { intros m. apply list_fmap_ext. intros i x Hx. unfold override_by.
    destruct (script_name x) as [k|] eqn:Ek; [|done]. rewrite lookup_delete_ne; [done|].
    intros <-. apply Hn. apply list_elem_of_omap. exists x. split; [|done].
    by eapply list_elem_of_lookup_2. }
  destruct (byName !! n) as [o|] eqn:Eo; cbn.
  - destruct (IH (delete n byName) Hnd) as [IH1 IH2].
    destruct (override_parents (delete n byName) parent). cbn in *.
    split; [by rewrite IH1, <- Hdel|]. intros k. rewrite IH2.
    destruct (decide (k = n)) as [->|Hk].
    + rewrite lookup_delete_eq, (bool_decide_true (n ∈ n :: _)) by left. by case_bool_decide.
    + rewrite lookup_delete_ne by done.
      case_bool_decide as H1; case_bool_decide as H2; try done; set_solver.
  - destruct (IH byName Hnd) as [IH1 IH2]. destruct (override_parents byName parent). cbn in *.
    split; [by rewrite IH1|]. intros k. rewrite IH2.
    destruct (decide (k = n)) as [->|Hk].
    + rewrite Eo. by do 2 case_bool_decide.
    + case_bool_decide as H1; case_bool_decide as H2; try done; set_solver.
Qed.

(** The child's items no parent item has the name of. *)
Definition new_item (parent : list yvalue) (item : yvalue) : bool :=
  match script_name item with
  | Some n => negb (String.eqb n "") && bool_decide (n ∉ names_of parent)
  | None => false
  end.

(** The whole strategy, when no two items of the parent share a name. *)
Lemma init_scripts_spec parent child :
  NoDup (names_of parent) ->
  init_scripts_strategy parent child =
    (override_by (child_by_name child) <$> parent)
      ++ filter (fun x => new_item parent x = true) child.
Proof.
  intros Hnd. unfold init_scripts_strategy.
  destruct (override_parents_spec (child_by_name child) parent Hnd) as [E1 E2].
  destruct (override_parents _ parent) as [res rest]. cbn in *. rewrite E1. f_equal.
  unfold remaining_children. apply list_filter_ext_elem. intros x Hx.
  unfold new_item. destruct (script_name x) as [n|] eqn:E; [|done].
  rewrite !andb_true_iff, !bool_decide_eq_true, negb_true_iff, String.eqb_neq, E2.
  case_bool_decide as Hn; [split; [by intros [_ [? ?]]|naive_solver]|].
  split; [by intros [? _]|]. intros [Hne _]. split; [done|].
  destruct (child_by_name child !! n) eqn:Ec; [by eexists|].
  rewrite child_by_name_None in Ec. by destruct (Ec x).
Qed.

Lemma override_by_named m c item :
  m = child_by_name c -> script_name (override_by m item) = script_name item.
Proof.
  intros ->. unfold override_by. destruct (script_name item) as [n|] eqn:E; [|done].
  destruct (child_by_name c !! n) as [o|] eqn:Eo; [|done].
  by apply child_by_name_Some in Eo as [_ [? _]].
Qed.

Lemma names_of_app l1 l2 : names_of (l1 ++ l2) = names_of l1 ++ names_of l2.
Proof. apply omap_app. Qed.

Lemma elem_of_names_of n l : n ∈ names_of l <-> exists x, x ∈ l /\ script_name x = Some n.
Proof. apply list_elem_of_omap. Qed.

Lemma override_names c p :
  names_of (override_by (child_by_name c) <$> p) = names_of p.
Proof.
  unfold names_of. induction p as [|x p IH]; [done|]. cbn.
  by rewrite (override_by_named _ c) by done; rewrite IH.
Qed.

Lemma NoDup_names_inj p x y n :
  NoDup (names_of p) -> x ∈ p -> y ∈ p -> script_name x = Some n -> script_name y = Some n -> x = y.
Proof.
  induction p as [|z p IH]; [by intros _ ?%not_elem_of_nil|]. intros Hnd Hx Hy Ex Ey.
  unfold names_of in Hnd. cbn in Hnd.
  assert (NoDup (names_of p) /\ forall w, w ∈ p -> script_name z = Some n ->
            script_name w = Some n -> False) as [Hnd' Hz].
  { destruct (script_name z) as [k|]; [|by split; [|naive_solver]].
    apply NoDup_cons in Hnd as [Hk Hnd]. split; [done|]. intros w Hw [= ->] Ew.
    apply Hk, elem_of_names_of. by exists w. }
  apply elem_of_cons in Hx as [->|Hx], Hy as [->|Hy]; [done| | |by apply IH].
  - by destruct (Hz y).
  - by destruct (Hz x).
Qed.

(** What the result of the strategy holds under the name of a parent's item. *)
Lemma init_scripts_lookup p c x n :
  NoDup (names_of p) -> x ∈ p -> script_name x = Some n ->
  default x (child_by_name (init_scripts_strategy p c) !! n)
    = override_by (child_by_name c) x.
Proof.
  intros Hnd Hx Ex. rewrite init_scripts_spec by done.
  set (r := _ ++ _). destruct (decide (n = "")) as [->|Hn].
  { assert (forall l, child_by_name l !! "" = None) as Hno.
    { intros l. apply child_by_name_None. by intros ? _ [_ ?]. }
    unfold override_by. by rewrite Hno, Ex, Hno. }
  rewrite (child_by_name_unique r n (override_by (child_by_name c) x)); [done| | |].
  - unfold r. apply elem_of_app. left. by apply list_elem_of_fmap_2.
  - split; [|done]. by rewrite (override_by_named _ c).
  - intros y [(z & -> & Hz)%list_elem_of_fmap|[Hy _]%list_elem_of_filter]%elem_of_app [En _].
    + rewrite (override_by_named _ c) in En by done. by rewrite (NoDup_names_inj p z x n).
    + exfalso. unfold new_item in Hy. rewrite En in Hy. bool_simpl.
      destruct H0. apply elem_of_names_of. eauto.
Qed.

(** ** The theorems *)

(** The keys of the server's strategies. *)
Definition server_keys : list string := ["initScripts"; "apps.*.start"; "claimSpec.accessModes"].

Lemma server_order_keys o k s :
  enumerates o server_strategies -> (k, s) ∈ o -> server_strategies !! k = Some s /\ k ∈ server_keys.
Proof.
  intros Ho Hk. apply (enumerates_lookup o _ k s Ho) in Hk. split; [done|].
  unfold server_strategies, server_keys in *.
  apply lookup_insert_Some in Hk as [[<- _]|[_ Hk]]; [set_solver|].
  apply lookup_insert_Some in Hk as [[<- _]|[_ Hk]]; [set_solver|].
  apply lookup_insert_Some in Hk as [[<- _]|[_ Hk]]; [set_solver|done].
Qed.

(** At most one key of the server's strategies is a dotted suffix of a path. *)
Lemma server_suffix_unique path k1 k2 :
  k1 ∈ server_keys -> k2 ∈ server_keys ->
  has_suffix path ("." +:+ k1) = true -> has_suffix path ("." +:+ k2) = true -> k1 = k2.
Proof.
  intros H1 H2 S1 S2. unfold server_keys in *.
  destruct (Nat.le_ge_cases (String.length ("." +:+ k1)) (String.length ("." +:+ k2))) as [Hl|Hl];
    pose proof (has_suffix_nested path _ _ S1 S2) as N1;
    pose proof (has_suffix_nested path _ _ S2 S1) as N2;
    clear S1 S2; [specialize (N1 Hl); clear N2|specialize (N2 Hl); clear N1]; clear Hl;
    rewrite !elem_of_cons, elem_of_nil in H1, H2; naive_solver.
Qed.

(** The two loops of findStrategy run over a Go map, yet the strategy the
    server's configuration selects for a list does not depend on their order. *)
Theorem findStrategy_server_order_independent o1 o2 o1' o2' key path :
  enumerates o1 server_strategies -> enumerates o2 server_strategies ->
  enumerates o1' server_strategies -> enumerates o2' server_strategies ->
  findStrategy server_strategies o1 o2 key path = findStrategy server_strategies o1' o2' key path.
Proof.
  intros H1 H2 H1' H2'. unfold findStrategy.
  assert (o1 ≡ₚ o1') as P1 by (by rewrite H1, H1').
  assert (o2 ≡ₚ o2') as P2 by (by rewrite H2, H2').
  rewrite (find_unique _ _ _ P1), (find_unique _ _ _ P2); [done| |].
  - intros [k s] [k' s'] K K' F F'. bool_simpl.
    apply (server_order_keys o2) in K as [L K], K' as [L' K']; [|done..].
    assert (k = k') as <-; [|by simplify_eq].
    unfold server_keys in *. rewrite !elem_of_cons, elem_of_nil in K, K'. naive_solver.
  - intros [k s] [k' s'] K K' F F'.
    apply (server_order_keys o1) in K as [L K], K' as [L' K']; [|done..].
    assert (k = k') as <- by (by eapply server_suffix_unique). by simplify_eq.
Qed.

Lemma findStrategy_server_order_independent_witness :
  exists o1 o2, o1 <> o2 /\ enumerates o1 server_strategies /\ enumerates o2 server_strategies /\
    is_Some (findStrategy server_strategies o1 o1 "start" "apps.web.start") /\
    findStrategy server_strategies o1 o1 "start" "apps.web.start"
      = findStrategy server_strategies o2 o2 "start" "apps.web.start".
Proof.
  set (o := map_to_list server_strategies).
  assert (enumerates o server_strategies) as H1 by apply enumerates_self.
  assert (enumerates (reverse o) server_strategies) as H2.
  { unfold enumerates. apply reverse_Permutation. }
  exists o, (reverse o).
  split; [|split; [done|split; [done|split; [vm_compute; by eexists|]]]].
  - intros E. apply (f_equal (map fst)) in E. vm_compute in E. discriminate E.
  - exact (findStrategy_server_order_independent o o (reverse o) (reverse o) _ _ H1 H1 H2 H2).
Defined.

(** With distinct names in the template's list, merging init scripts keeps the
    template's scripts in order, each overridden by the child's of its name, then
    the child's new named ones; and it is idempotent, so a resolved blueprint
    that names its template again resolves to the same scripts. *)
Theorem init_scripts_strategy_spec parent child :
  NoDup (names_of parent) ->
  init_scripts_strategy parent child =
    (override_by (child_by_name child) <$> parent)
      ++ filter (fun x => new_item parent x = true) child /\
  init_scripts_strategy parent (init_scripts_strategy parent child)
    = init_scripts_strategy parent child.
Proof.
  intros Hnd. split; [by apply init_scripts_spec|].
  rewrite (init_scripts_spec parent (init_scripts_strategy parent child)) by done.
  rewrite init_scripts_spec at 2 3 by done. f_equal.
  - apply list_fmap_ext. intros i x Hx%list_elem_of_lookup_2. unfold override_by at 1.
    destruct (script_name x) as [n|] eqn:E; [by apply init_scripts_lookup|].
    unfold override_by. by rewrite E.
  - rewrite filter_app, list_filter_filter.
    rewrite list_filter_none; [apply list_filter_ext_elem; tauto|].
    intros x (y & -> & Hy)%list_elem_of_fmap. unfold new_item.
    rewrite (override_by_named _ child) by done.
    destruct (script_name y) as [n|] eqn:E; [|done]. rewrite andb_true_iff.
    intros [_ Hn]. bool_simpl. apply Hn, elem_of_names_of. by exists y.
Qed.

Lemma init_scripts_strategy_spec_witness :
  let script n c := YMap [("name", YStr n); ("content", YStr c)] in
  init_scripts_strategy [script "a" "1"; script "b" "2"] [script "c" "3"; script "a" "9"]
    = [script "a" "9"; script "b" "2"; script "c" "3"].
Proof.
  intros script.
  rewrite (proj1 (init_scripts_strategy_spec [script "a" "1"; script "b" "2"] [script "c" "3"; script "a" "9"]
            ltac:(by apply (bool_decide_unpack _)))).
  reflexivity.
Defined.
