(* ===== verification/Revision.v ===== *)
(** * Blueprint revisions

    internal/blueprint/revision.go hashes a resolved blueprint to a short label
    value. The bytes written to the hash are a length-prefixed encoding of the
    node tree; this file models the encoding and shows what it distinguishes. *)

From Stdlib Require Import Ascii.
From S2P Require Import Prelude GoStrings Sha256 Yaml Merge.

(** src/internal/blueprint/revision.go:16-19 revisionLen *)
Definition revisionLen : nat := 12.

(** src/internal/blueprint/revision.go:21-24 revisionSalt *)
Definition revisionSalt : string := "k8shell-blueprint-revision/v1".

(** src/internal/blueprint/revision.go:26-31 revisionIgnoredKeys *)
Definition revisionIgnoredKeys (key : string) : bool :=
  String.eqb key "description" || String.eqb key "isTemplate".

(** src/internal/blueprint/revision.go:107-109 writeRevisionLen *)
Definition writeRevisionLen (n : nat) : string := pretty (N.of_nat n) +:+ ":".

(** src/internal/blueprint/revision.go:102-105 writeRevisionField *)
Definition writeRevisionField (s : string) : string := writeRevisionLen (String.length s) +:+ s.

(** The writes of a loop, one after the other. *)
Definition concat_str (l : list string) : string := foldr String.append "" l.

Section revision.
Context `{Y : YamlLib}.

(** The bytes written for a node. The pairs of a mapping are encoded before
    they are sorted by key: writing happens in the sorted order.

    src/internal/blueprint/revision.go:51-100 hashRevisionNode *)
Fixpoint hashRevisionNode (top : bool) (n : node) {struct n} : string :=
  match n with
  | Node _ AliasNode _ _ (Some target) _ => hashRevisionNode top target
  | Node _ DocumentNode _ _ _ content =>
      writeRevisionField "doc" +:+ concat_str (hashRevisionNode top <$> content)
  | Node _ MappingNode _ _ _ content =>
      let pairs := (fix go (c : list node) : list (string * string) :=
                      match c with
                      | k :: v :: c =>
                          if top && revisionIgnoredKeys (node_value k) then go c
                          else (node_value k, hashRevisionNode false v) :: go c
                      | _ => []
                      end) content in
      writeRevisionField "map" +:+ writeRevisionLen (length pairs)
      +:+ concat_str ((fun kv => writeRevisionField kv.1 +:+ kv.2) <$> sort_by fst pairs)
  | Node _ SequenceNode _ _ _ content =>
      writeRevisionField "seq" +:+ writeRevisionLen (length content)
      +:+ concat_str (hashRevisionNode false <$> content)
  | Node _ _ _ value _ _ =>
      writeRevisionField "scalar" +:+ writeRevisionField (yaml_short_tag n)
      +:+ writeRevisionField value
  end.

(** The bytes hashed for a blueprint, the salt included.

    src/internal/blueprint/revision.go:41-47 computeRevision *)
Definition revision_input (n : option node) : string :=
  revisionSalt +:+
  match n with
  | None => writeRevisionField "nil"
  | Some (Node _ DocumentNode _ _ _ [n]) => hashRevisionNode true n
  | Some n => hashRevisionNode true n
  end.

(** src/internal/blueprint/revision.go:33-49 computeRevision *)
Definition computeRevision (n : option node) : string :=
  take_str revisionLen (hex_encode (sha256 (msg_of (revision_input n)))).
End revision.

#[global] Arguments computeRevision {_} _ : simpl never.

(** ** The content of a blueprint

    [canon] keeps of a tree what its revision is about: aliases are resolved,
    keys sorted, and of a scalar its short tag and text remain. *)

(** The pairs of a mapping a revision covers. *)
Definition kept_pairs (top : bool) (ps : list (node * node)) : list (node * node) :=
  filter (fun kv => top && revisionIgnoredKeys (node_value kv.1) = false) ps.

Definition pair_key (kv : node * node) : string := node_value kv.1.

Section canon.
Context `{Y : YamlLib}.

Fixpoint canon (top : bool) (n : node) {struct n} : node :=
  match n with
  | Node _ AliasNode _ _ (Some target) _ => canon top target
  | Node _ DocumentNode _ _ _ content =>
      Node no_meta DocumentNode "" "" None (canon top <$> content)
  | Node _ MappingNode _ _ _ content =>
      let pairs := (fix go (c : list node) : list (string * node) :=
                      match c with
                      | k :: v :: c =>
                          if top && revisionIgnoredKeys (node_value k) then go c
                          else (node_value k, canon false v) :: go c
                      | _ => []
                      end) content in
      mapping (unpairs ((fun kv => (scalar "" kv.1, kv.2)) <$> sort_by fst pairs))
  | Node _ SequenceNode _ _ _ content => sequence (canon false <$> content)
  | Node _ _ _ value _ _ => scalar (yaml_short_tag n) value
  end.
End canon.

(** The node an alias stands for. *)
Fixpoint deref (n : node) : node :=
  match n with
  | Node _ AliasNode _ _ (Some target) _ => deref target
  | _ => n
  end.

(** No document below this node, as yaml.v3 builds trees. *)
Fixpoint no_document (n : node) : Prop :=
  match n with
  | Node _ k _ _ a c =>
      k <> DocumentNode /\ (if a is Some t then no_document t else True) /\
      (fix all (l : list node) : Prop :=
         match l with [] => True | x :: l => no_document x /\ all l end) c
  end.

(** ** Lemmas on text *)

Lemma string_app_inj a b r s :
  String.length a = String.length b -> a +:+ r = b +:+ s -> a = b /\ r = s.
Proof.
  revert b. induction a as [|x a IH]; intros [|y b]; cbn; try done.
  rewrite !string_app_cons. intros [= Hl] [= -> H]. by destruct (IH b Hl H) as [-> ->].
Qed.

Fixpoint no_colon (s : string) : Prop :=
  match s with "" => True | String c s => c <> ":"%char /\ no_colon s end.

Lemma no_colon_cut a r b s :
  no_colon a -> no_colon b -> a +:+ String ":" r = b +:+ String ":" s -> a = b /\ r = s.
Proof.
  revert b. induction a as [|x a IH]; intros [|y b]; cbn;
    rewrite ?string_app_cons; [by intros _ _ [= ->]| | |].
  { intros _ [Hy _] [= <- _]. done. }
  { intros [Hx _] _ [= -> _]. done. }
  intros [_ Ha] [_ Hb] [= -> H]. by destruct (IH b Ha Hb H) as [-> ->].
Qed.

Lemma pretty_N_no_colon (n : N) : no_colon (pretty n).
Proof.
  assert (forall n s, no_colon s -> no_colon (pretty_N_go n s)) as Hgo.
  { clear n. intros n. induction (N.lt_wf_0 n) as [n _ IH]. intros s Hs.
    destruct (decide (n = 0)%N) as [->|Hn]; [by rewrite pretty_N_go_0|].
    rewrite pretty_N_go_step by lia. apply IH; [apply N.div_lt; lia|].
    cbn. split; [|done]. unfold pretty_N_char. repeat case_match; done. }
  unfold pretty, pretty_N. case_decide; [done|]. by apply Hgo.
Qed.

Lemma writeRevisionLen_inj n m r s :
  writeRevisionLen n +:+ r = writeRevisionLen m +:+ s -> n = m /\ r = s.
Proof.
  unfold writeRevisionLen. rewrite !string_app_assoc. intros H.
  apply no_colon_cut in H as [H ->]; [|apply pretty_N_no_colon..].
  apply (inj pretty) in H. split; [lia|done].
Qed.

Lemma writeRevisionField_inj a b r s :
  writeRevisionField a +:+ r = writeRevisionField b +:+ s -> a = b /\ r = s.
Proof.
  unfold writeRevisionField. rewrite !string_app_assoc.
  intros [Hl H]%writeRevisionLen_inj. by apply string_app_inj.
Qed.

(** ** The encoding by kind *)

Section encoding.
Context `{Y : YamlLib}.

Definition pair_code (kv : node * node) : string * string :=
  (node_value kv.1, hashRevisionNode false kv.2).
Definition pair_canon (kv : node * node) : string * node :=
  (node_value kv.1, canon false kv.2).

Definition map_code (pairs : list (string * string)) : string :=
  writeRevisionField "map" +:+ writeRevisionLen (length pairs)
  +:+ concat_str ((fun kv => writeRevisionField kv.1 +:+ kv.2) <$> sort_by fst pairs).

Lemma kept_pairs_cons top k v ps :
  kept_pairs top ((k, v) :: ps) =
    if top && revisionIgnoredKeys (node_value k) then kept_pairs top ps
    else (k, v) :: kept_pairs top ps.
Proof. unfold kept_pairs. rewrite filter_cons. cbn. by destruct (top && _). Qed.

Lemma hash_mapping top n :
  node_kind n = MappingNode ->
  hashRevisionNode top n
    = map_code (pair_code <$> kept_pairs top (pairs_of (node_content n))).
Proof.
  destruct n as [m k t v a c]. cbn [node_kind node_content]. intros ->. cbn [hashRevisionNode].
  unfold map_code. set (go := fix go (c : list node) := _).
  assert (go c = pair_code <$> kept_pairs top (pairs_of c)) as ->; [|done].
  induction c as [|x|x y c IH] using pair_ind; [done..|].
  cbn [pairs_of]. rewrite kept_pairs_cons. cbn [go]. fold go. rewrite IH.
  by destruct (top && _).
Qed.

Lemma canon_mapping top n :
  node_kind n = MappingNode ->
  canon top n = mapping (unpairs ((fun kv => (scalar "" kv.1, kv.2)) <$>
    sort_by fst (pair_canon <$> kept_pairs top (pairs_of (node_content n))))).
Proof.
  destruct n as [m k t v a c]. cbn [node_kind node_content]. intros ->. cbn [canon].
  set (go := fix go (c : list node) := _).
  assert (go c = pair_canon <$> kept_pairs top (pairs_of c)) as ->; [|done].
  induction c as [|x|x y c IH] using pair_ind; [done..|].
  cbn [pairs_of]. rewrite kept_pairs_cons. cbn [go]. fold go. rewrite IH.
  by destruct (top && _).
Qed.

Lemma hash_deref top n : hashRevisionNode top n = hashRevisionNode top (deref n).
Proof.
  induction n as [m k t v a c IHa _] using node_ind'.
  destruct k; try done. destruct a as [n|]; [|done]. cbn. by apply IHa.
Qed.

Lemma canon_deref top n : canon top n = canon top (deref n).
Proof.
  induction n as [m k t v a c IHa _] using node_ind'.
  destruct k; try done. destruct a as [n|]; [|done]. cbn. by apply IHa.
Qed.

Lemma no_document_deref n : no_document n -> no_document (deref n).
Proof.
  induction n as [m k t v a c IHa _] using node_ind'.
  destruct k; try done. destruct a as [n|]; [|done]. cbn. intros (_ & ? & _). by apply IHa.
Qed.

(** The kinds a node below a document has once aliases are followed. *)
Definition scalar_like (n : node) : Prop :=
  hashRevisionNode true n = hashRevisionNode false n /\
  forall top, hashRevisionNode top n
              = writeRevisionField "scalar" +:+ writeRevisionField (yaml_short_tag n)
                +:+ writeRevisionField (node_value n) /\
              canon top n = scalar (yaml_short_tag n) (node_value n).

Lemma deref_cases n :
  no_document n ->
  node_kind (deref n) = MappingNode \/ node_kind (deref n) = SequenceNode \/ scalar_like (deref n).
Proof.
  induction n as [m k t v a c IHa _] using node_ind'. intros (Hk & Ha & _).
  assert (scalar_like (Node m NoKind t v a c) /\ scalar_like (Node m ScalarNode t v a c) /\
          scalar_like (Node m AliasNode t v None c)) as (H1 & H2 & H3) by done.
  destruct k; cbn; auto; [done|]. destruct a as [n|]; [by apply IHa|auto].
Qed.

Lemma no_document_content n x : no_document n -> x ∈ node_content n -> no_document x.
Proof.
  destruct n as [m k t v a c]. intros (_ & _ & H). cbn in *. revert H.
  induction c as [|y c IH]; [by intros _ ?%not_elem_of_nil|].
  intros [Hy Hc] [->|?]%elem_of_cons; auto.
Qed.
End encoding.

(** ** The encoding determines the content *)

Section injective.
Context `{Y : YamlLib}.

(** Two encodings, whatever is written after them, agree only on equal content. *)
Definition determined (n1 : node) : Prop :=
  forall n2 t1 t2 r1 r2,
    no_document n1 -> no_document n2 ->
    hashRevisionNode t1 n1 +:+ r1 = hashRevisionNode t2 n2 +:+ r2 ->
    canon t1 n1 = canon t2 n2 /\ r1 = r2.

Lemma determined_nodes l1 l2 r1 r2 :
  Forall determined l1 -> Forall no_document l1 -> Forall no_document l2 ->
  length l1 = length l2 ->
  concat_str (hashRevisionNode false <$> l1) +:+ r1
    = concat_str (hashRevisionNode false <$> l2) +:+ r2 ->
  canon false <$> l1 = canon false <$> l2 /\ r1 = r2.
Proof.
  intros HD. revert l2. induction HD as [|x l1 Hx _ IH]; intros [|y l2]; cbn; try done.
  intros [Hdx Hd1]%Forall_cons [Hdy Hd2]%Forall_cons [= Hl]. rewrite !string_app_assoc.
  intros [-> H]%Hx; [|done..]. by destruct (IH l2 Hd1 Hd2 Hl H) as [-> ->].
Qed.

Lemma determined_pairs (ps1 ps2 : list (node * node)) r1 r2 :
  Forall (determined ∘ snd) ps1 -> Forall (no_document ∘ snd) ps1 ->
  Forall (no_document ∘ snd) ps2 -> length ps1 = length ps2 ->
  let write := fun kv : node * node =>
    writeRevisionField (pair_code kv).1 +:+ (pair_code kv).2 in
  concat_str (write <$> ps1) +:+ r1 = concat_str (write <$> ps2) +:+ r2 ->
  pair_canon <$> ps1 = pair_canon <$> ps2 /\ r1 = r2.
Proof.
  intros HD. revert ps2. induction HD as [|[k x] ps1 Hx _ IH]; intros [|[k' y] ps2]; cbn; try done.
  intros [Hdx Hd1]%Forall_cons [Hdy Hd2]%Forall_cons [= Hl]. rewrite !string_app_assoc.
  intros [Hk [Hc H]%Hx]%writeRevisionField_inj; [|done..].
  destruct (IH ps2 Hd1 Hd2 Hl H) as [-> ->]. assert (pair_canon (k, x) = pair_canon (k', y)) as ->; [|done].
  unfold pair_canon. cbn in *. by rewrite Hk, Hc.
Qed.

Lemma Forall_kept (P : node -> Prop) top n :
  Forall P (node_content n) ->
  Forall (P ∘ snd) (sort_by pair_key (kept_pairs top (pairs_of (node_content n)))).
Proof.
  rewrite sort_by_perm, !Forall_forall. intros H [k v] [_ Hin]%list_elem_of_filter.
  apply H. by apply pairs_of_elem in Hin as [_ ?].
Qed.

Lemma content_no_document n : no_document n -> Forall no_document (node_content n).
Proof. intros H. apply Forall_forall. intros x. by apply no_document_content. Qed.

Lemma determined_mapping n1 n2 t1 t2 r1 r2 :
  Forall determined (node_content n1) -> no_document n1 -> no_document n2 ->
  node_kind n1 = MappingNode -> node_kind n2 = MappingNode ->
  hashRevisionNode t1 n1 +:+ r1 = hashRevisionNode t2 n2 +:+ r2 ->
  canon t1 n1 = canon t2 n2 /\ r1 = r2.
Proof.
  intros HD Hd1 Hd2 K1 K2. rewrite !hash_mapping, !canon_mapping by done.
  unfold map_code. rewrite !sort_by_fmap, !string_app_assoc.
  intros [_ [Hl H]%writeRevisionLen_inj]%writeRevisionField_inj.
  rewrite <- !list_fmap_compose in H. rewrite !length_fmap in Hl.
  apply determined_pairs in H as [E ->].
  - split; [|done]. change (fst ∘ pair_canon) with pair_key.
    change (fst ∘ pair_code) with pair_key in E. by rewrite E.
  - by apply Forall_kept.
  - by apply Forall_kept, content_no_document.
  - by apply Forall_kept, content_no_document.
  - by rewrite !sort_by_perm.
Qed.

Lemma sequence_code top n :
  node_kind n = SequenceNode ->
  hashRevisionNode top n = writeRevisionField "seq" +:+ writeRevisionLen (length (node_content n))
                           +:+ concat_str (hashRevisionNode false <$> node_content n) /\
  canon top n = sequence (canon false <$> node_content n).
Proof. destruct n as [m k t v a c]. by cbn; intros ->. Qed.

Lemma hash_determines n : determined n.
Proof.
  induction n as [m k t v a c IHa IHc] using node_ind'. intros n2 t1 t2 r1 r2 Hd1 Hd2.
  destruct (decide (k = AliasNode /\ is_Some a)) as [[-> [x ->]]|Hk].
  { apply (IHa x); [done| |done]. by destruct Hd1 as (_ & ? & _). }
  assert (deref (Node m k t v a c) = Node m k t v a c) as Hde.
  { destruct k; try done. destruct a; [|done]. destruct Hk. by split; [|eexists]. }
  pose proof (deref_cases _ Hd1) as K1. rewrite Hde in K1.
  set (n1 := Node m k t v a c) in *. change c with (node_content n1) in IHc. clearbody n1.
  rewrite (hash_deref t2 n2), (canon_deref t2 n2). pose proof (deref_cases _ Hd2) as K2.
  apply no_document_deref in Hd2. set (n3 := deref n2) in *. clearbody n3.
  destruct K1 as [K1|[K1|[_ K1]]], K2 as [K2|[K2|[_ K2]]]; try by apply determined_mapping.
  all: try (rewrite (hash_mapping t1 n1 K1)); try (rewrite (hash_mapping t2 n3 K2));
    unfold map_code;
    try (destruct (sequence_code t1 n1 K1) as [-> ->]);
    try (destruct (sequence_code t2 n3 K2) as [-> ->]);
    try (destruct (K1 t1) as [-> ->]); try (destruct (K2 t2) as [-> ->]);
    rewrite !string_app_assoc; intros [E H]%writeRevisionField_inj; try discriminate E.
  - apply writeRevisionLen_inj in H as [Hl H].
    apply determined_nodes in H as [-> ->]; auto using content_no_document.
  - apply writeRevisionField_inj in H as [-> [-> ->]%writeRevisionField_inj]. done.
Qed.

(** The bytes written, as a function of the content alone. *)
Fixpoint content_code (n : node) : string :=
  match n with
  | Node _ DocumentNode _ _ _ c => writeRevisionField "doc" +:+ concat_str (content_code <$> c)
  | Node _ MappingNode _ _ _ c =>
      writeRevisionField "map" +:+ writeRevisionLen (length (pairs_of c))
      +:+ (fix go (c : list node) : string :=
             match c with
             | k :: v :: c => (writeRevisionField (node_value k) +:+ content_code v) +:+ go c
             | _ => ""
             end) c
  | Node _ SequenceNode _ _ _ c =>
      writeRevisionField "seq" +:+ writeRevisionLen (length c)
      +:+ concat_str (content_code <$> c)
  | Node _ _ tag value _ _ =>
      writeRevisionField "scalar" +:+ writeRevisionField tag +:+ writeRevisionField value
  end.

Lemma content_code_mapping (ps : list (string * node)) :
  content_code (mapping (unpairs ((fun kv => (scalar "" kv.1, kv.2)) <$> ps)))
  = writeRevisionField "map" +:+ writeRevisionLen (length ps)
    +:+ concat_str ((fun kv => writeRevisionField kv.1 +:+ content_code kv.2) <$> ps).
Proof.
  cbn [content_code mapping]. rewrite pairs_unpairs, length_fmap. do 2 f_equal.
  induction ps as [|[k v] ps IH]; [done|]. cbn in *. by rewrite IH.
Qed.

Lemma hash_content_code n : forall top, hashRevisionNode top n = content_code (canon top n).
Proof.
  induction n as [m k t v a c IHa IHc] using node_ind'. intros top.
  assert (forall b, (hashRevisionNode b <$> c) = content_code <$> (canon b <$> c)) as Hc.
  { intros b. rewrite <- list_fmap_compose. apply list_fmap_ext. intros i x Hx.
    rewrite Forall_forall in IHc. unfold compose. apply IHc. by eapply list_elem_of_lookup_2. }
  destruct k; try done.
  - cbn [hashRevisionNode canon content_code]. by rewrite Hc.
  - cbn [hashRevisionNode canon content_code sequence]. by rewrite Hc, length_fmap.
  - rewrite hash_mapping, canon_mapping, content_code_mapping by done.
    unfold map_code. rewrite !sort_by_fmap, !length_fmap, length_sort_by. do 2 f_equal. f_equal.
    change (fst ∘ pair_canon) with pair_key. change (fst ∘ pair_code) with pair_key.
    rewrite <- !list_fmap_compose. apply list_fmap_ext. intros i [k x] Hx%list_elem_of_lookup_2.
    cbn. f_equal. rewrite Forall_forall in IHc. apply IHc.
    rewrite sort_by_perm in Hx. apply list_elem_of_filter in Hx as [_ Hx].
    by apply pairs_of_elem in Hx as [_ ?].
  - destruct a as [x|]; [|done]. cbn. by apply IHa.
Qed.
End injective.

(** ** The theorems *)

(** Well-formed blueprints: what [revision_input] hashes holds no document. *)
Definition blueprint_root (n : node) : node :=
  match n with Node _ DocumentNode _ _ _ [n] => n | _ => n end.

Lemma revision_input_root `{YamlLib} n :
  revision_input (Some n) = revisionSalt +:+ hashRevisionNode true (blueprint_root n).
Proof. destruct n as [m [] t v a [|x [|y c]]]; done. Qed.

(** C13. The bytes hashed for a revision are an injective encoding of a
    blueprint's content: two blueprints feed the hash the same bytes exactly
    when they have the same content, that is the same tree of keys, lists,
    tags and scalars once aliases are followed, keys sorted, and presentation
    and the top-level description and isTemplate forgotten. *)
Theorem revision_input_canonical `{YamlLib} n1 n2 :
  no_document (blueprint_root n1) -> no_document (blueprint_root n2) ->
  revision_input (Some n1) = revision_input (Some n2) <->
  canon true (blueprint_root n1) = canon true (blueprint_root n2).
Proof.
  intros H1 H2. rewrite !revision_input_root. split; intros E.
  - apply string_app_inj in E as [_ E]; [|done].
    by apply (hash_determines _ _ _ _ "" "" H1 H2); rewrite E.
  - by rewrite !hash_content_code, E.
Qed.

(** The order of a mapping's keys does not count: two mappings with distinct
    keys whose pairs are the same up to order and up to equally encoded values
    are encoded alike. At the top, pairs named description or isTemplate may
    differ too. *)
Theorem hashRevisionNode_key_order `{YamlLib} top n1 n2 :
  node_kind n1 = MappingNode -> node_kind n2 = MappingNode ->
  NoDup (pair_key <$> kept_pairs top (pairs_of (node_content n1))) ->
  pair_code <$> kept_pairs top (pairs_of (node_content n1))
    ≡ₚ pair_code <$> kept_pairs top (pairs_of (node_content n2)) ->
  hashRevisionNode top n1 = hashRevisionNode top n2.
Proof.
  intros K1 K2 Hnd Hp. rewrite !hash_mapping by done. unfold map_code.
  rewrite (sort_by_unique fst _ _ Hp); [by rewrite Hp|].
  by rewrite <- list_fmap_compose.
Qed.

(** A revision is exactly 12 lowercase hexadecimal digits, so it can be the
    value of a Kubernetes label. *)
Theorem computeRevision_format `{YamlLib} n :
  String.length (computeRevision n) = revisionLen /\
  Forall (fun c => is_hex c = true) (to_bytes (computeRevision n)).
Proof. apply hex_prefix. rewrite sha256_length. unfold revisionLen. lia. Qed.

(** What a merge rebuilds, the layout and tags of mappings, is not hashed. *)
Lemma hash_strip `{YamlLib} n : forall top, hashRevisionNode top (strip n) = hashRevisionNode top n.
Proof.
  induction n as [m k t v a c _ IHc] using node_ind'. intros top.
  destruct k; try done. rewrite !hash_mapping by done. f_equal. cbn [strip node_content mapping].
  set (go := fix go (c : list node) := _).
  induction c as [|x|x y c IH] using pair_ind; [done..|].
  cbn [go pairs_of]. fold go. rewrite !kept_pairs_cons.
  apply Forall_cons in IHc as [_ [Hy IHc]%Forall_cons]. specialize (IH IHc).
  destruct (top && _); [done|]. cbn. rewrite IH. unfold pair_code at 1 3. cbn.
  by rewrite Hy.
Qed.

Lemma revision_input_strip `{YamlLib} n1 n2 :
  strip n1 = strip n2 -> revision_input (Some n1) = revision_input (Some n2).
Proof.
  intros E. assert (forall n, node_kind n <> MappingNode -> strip n = n) as Hs.
  { intros [m [] t v a c]; done. }
  assert (forall n, node_kind n = MappingNode -> blueprint_root n = n /\ node_kind (strip n) = MappingNode)
    as Hm by (by intros [m [] t v a c]).
  destruct (decide (node_kind n1 = MappingNode)) as [K1|K1],
           (decide (node_kind n2 = MappingNode)) as [K2|K2].
  - rewrite !revision_input_root. f_equal.
    destruct (Hm _ K1) as [-> _], (Hm _ K2) as [-> _].
    by rewrite <- (hash_strip n1), E, hash_strip.
  - rewrite (Hs n2) in E by done. apply Hm in K1 as [_ K1]. congruence.
  - rewrite (Hs n1) in E by done. apply Hm in K2 as [_ K2]. congruence.
  - rewrite !Hs in E by done. by subst.
Qed.

(** A resolved blueprint that is submitted again as the definition of its
    blueprint, while still naming the same template, keeps its revision (with
    no list strategy): the second merge succeeds and hashes the same bytes. *)
Theorem computeRevision_resubmit `{YamlLib} fs p c r :
  (forall key path, fs key path = None) -> unique_keys p -> unique_keys c ->
  mergeYAMLNodes fs p c = Ok r ->
  exists r', mergeYAMLNodes fs p r = Ok r' /\ computeRevision (Some r') = computeRevision (Some r).
Proof.
  intros Hfs Hp Hc Hm.
  destruct (mergeYAMLNodes_resubmit fs p c r Hfs Hp Hc Hm) as (r' & Hr' & Hs).
  exists r'. split; [done|]. unfold computeRevision. by rewrite (revision_input_strip r' r).
Qed.

(** ** Examples *)

Module RevisionSample.
#[local] Existing Instance SampleYaml.lib.

Definition str (s : string) : node := scalar "!!str" s.
Definition cel (s : string) : node := scalar "!cel" s.

Definition template : node :=
  mapping [str "description"; str "base"; str "isTemplate"; scalar "!!bool" "true";
           str "resources"; mapping [str "cpu"; str "1"; str "memory"; cel "user.memory"]].
Definition child : node :=
  mapping [str "resources"; mapping [str "cpu"; str "4"]; str "description"; str "mine"].
Definition merged : node :=
  mapping [str "resources"; mapping [str "cpu"; str "4"; str "memory"; cel "user.memory"];
           str "description"; str "mine"].
(** [merged] with its keys in another order and another description. *)
Definition reordered : node :=
  mapping [str "description"; str "other";
           str "resources"; mapping [str "memory"; cel "user.memory"; str "cpu"; str "4"]].

Example merged_ex : mergeYAMLNodes (fun _ _ => None) template child = Ok merged.
Proof. reflexivity. Qed.
End RevisionSample.

Lemma revision_input_canonical_witness :
  let _ := SampleYaml.lib in
  revision_input (Some RevisionSample.merged) = revision_input (Some RevisionSample.reordered) /\
  revision_input (Some RevisionSample.merged) <> revision_input (Some RevisionSample.template).
Proof.
  intros L. split.
  - apply (revision_input_canonical RevisionSample.merged RevisionSample.reordered); [by split_and!..|reflexivity].
  - intros E. apply (revision_input_canonical RevisionSample.merged RevisionSample.template) in E;
      [discriminate E|by split_and!..].
Defined.

Lemma hashRevisionNode_key_order_witness :
  let _ := SampleYaml.lib in
  hashRevisionNode true RevisionSample.merged = hashRevisionNode true RevisionSample.reordered.
Proof.
  intros L. apply hashRevisionNode_key_order; [reflexivity..| |reflexivity].
  by apply (bool_decide_unpack _).
Defined.

Lemma computeRevision_resubmit_witness :
  let _ := SampleYaml.lib in
  exists r', mergeYAMLNodes (fun _ _ => None) RevisionSample.template RevisionSample.merged = Ok r' /\
             computeRevision (Some r') = computeRevision (Some RevisionSample.merged).
Proof.
  intros L. apply (computeRevision_resubmit (fun _ _ => None) RevisionSample.template RevisionSample.child).
  - done.
  - cbn. split_and!; try done; intros _; by apply (bool_decide_unpack _).
  - cbn. split_and!; try done; intros _; by apply (bool_decide_unpack _).
  - reflexivity.
Defined.

Example computeRevision_ex :
  let _ := SampleYaml.lib in
  computeRevision (Some RevisionSample.merged) = computeRevision (Some RevisionSample.reordered).
Proof. vm_compute. reflexivity. Qed.
