(* ===== verification/Inherit.v ===== *)
(** * Template inheritance

    internal/blueprint/resolve.go: every blueprint is merged with the blueprint
    its [template:] names, up to a root. The store maps keys to raw blueprints;
    an org blueprint's key is "org/name". *)

From S2P Require Import Prelude GoStrings Yaml Merge Revision.

(** src/internal/blueprint/blueprint.go:40-72 RawBlueprint *)
Record RawBlueprint : Type := mkRaw {
  Name : string;
  Description : string;
  Template : string;
  IsTemplate : bool;
  SourceFile : string;
  BpNode : node;
  OwnNode : option node;
  InheritanceChain : list string;
  BpRevision : string;
  CreatedAt : Z;
  UpdatedAt : Z;
  Org : string;
}.

(** [BlueprintManager.rawBlueprints]. *)
Abbreviation store := (gmap string RawBlueprint).

Inductive inherit_error : Type :=
| CircularTemplate (name : string)
| BlueprintNotFound (name : string)
| CannotFindTemplate (template name : string)
| MergeTemplates (name : string) (e : merge_error).

(** src/internal/blueprint/orgstore.go:65-70 orgBlueprintKey *)
Definition orgBlueprintKey (org name : string) : string := org +:+ "/" +:+ name.

Section inherit.
Context `{Y : YamlLib}.
(** [bm.findStrategy]. *)
Variable find_strategy : string -> string -> option strategy.

(** The key of a blueprint's parent: a template of its own org first.

    src/internal/blueprint/resolve.go:56-65 resolveRawTemplate *)
Definition parent_key (s : store) (bp : RawBlueprint) : string :=
  if String.eqb (Org bp) "" then Template bp
  else match s !! orgBlueprintKey (Org bp) (Template bp) with
       | Some _ => orgBlueprintKey (Org bp) (Template bp)
       | None => Template bp
       end.

(** A blueprint without a template is completed in place.

    src/internal/blueprint/resolve.go:47-54 resolveRawTemplate *)
Definition resolve_root (bpName : string) (bp : RawBlueprint) : RawBlueprint :=
  {| Name := Name bp; Description := Description bp; Template := Template bp;
     IsTemplate := IsTemplate bp; SourceFile := SourceFile bp; BpNode := BpNode bp;
     OwnNode := Some (BpNode bp);
     InheritanceChain := match InheritanceChain bp with [] => [bpName] | c => c end;
     BpRevision := computeRevision (Some (BpNode bp));
     CreatedAt := CreatedAt bp; UpdatedAt := UpdatedAt bp; Org := Org bp |}.

(** src/internal/blueprint/resolve.go:86-99 resolveRawTemplate *)
Definition resolve_child (bpName : string) (bp parent : RawBlueprint) (mergedNode : node)
    : RawBlueprint :=
  {| Name := Name bp; Description := Description bp; Template := Template bp;
     IsTemplate := IsTemplate bp; SourceFile := SourceFile bp; BpNode := mergedNode;
     OwnNode := Some (BpNode bp);
     InheritanceChain := InheritanceChain parent ++ [bpName];
     BpRevision := computeRevision (Some mergedNode);
     CreatedAt := CreatedAt bp; UpdatedAt := UpdatedAt bp; Org := Org bp |}.

(** [errors.Is(err, ErrBlueprintNotFound)].

    src/internal/blueprint/resolve.go:67-73 resolveRawTemplate *)
Definition parent_error (bp : RawBlueprint) (bpName : string) (e : inherit_error)
    : inherit_error :=
  match e with
  | BlueprintNotFound _ => CannotFindTemplate (Template bp) bpName
  | _ => e
  end.

(** [None] when the fuel runs out.

    src/internal/blueprint/resolve.go:33-100 resolveRawTemplate *)
Fixpoint resolveRawTemplate (fuel : nat) (visited : gset string) (bpName : string) (s : store)
    : option (result inherit_error RawBlueprint * store) :=
  match fuel with
  | 0%nat => None
  | S fuel =>
      if bool_decide (bpName ∈ visited) then Some (Err (CircularTemplate bpName), s)
      else
        let visited := {[bpName]} ∪ visited in
        match s !! bpName with
        | None => Some (Err (BlueprintNotFound bpName), s)
        | Some bp =>
            if String.eqb (Template bp) "" then
              let bp := resolve_root bpName bp in Some (Ok bp, <[bpName := bp]> s)
            else
              match resolveRawTemplate fuel visited (parent_key s bp) s with
              | None => None
              | Some (Err e, s) => Some (Err (parent_error bp bpName e), s)
              | Some (Ok parent, s) =>
                  match mergeYAMLNodes find_strategy (BpNode parent) (BpNode bp) with
                  | Err e => Some (Err (MergeTemplates bpName e), s)
                  | Ok merged => Some (Ok (resolve_child bpName bp parent merged), s)
                  end
              end
        end
  end.

(** Every blueprint of a chain is in the store: as much fuel as it has keys is enough. *)
Definition resolve_fuel (s : store) : nat := S (size s).

(** The loop over the keys [order] of the store, collecting [resolved].

    src/internal/blueprint/resolve.go:15-31 resolveInheritance *)
Fixpoint resolve_all (order : list string) (resolved s : store)
    : option (result inherit_error store) :=
  match order with
  | [] => Some (Ok resolved)
  | name :: order =>
      match resolved !! name with
      | Some _ => resolve_all order resolved s
      | None =>
          match resolveRawTemplate (resolve_fuel s) ∅ name s with
          | None => None
          | Some (Err e, _) => Some (Err e)
          | Some (Ok bp, s) => resolve_all order (<[name := bp]> resolved) s
          end
      end
  end.

(** src/internal/blueprint/resolve.go:15-31 resolveInheritance *)
Definition resolveInheritance (order : list string) (s : store)
    : option (result inherit_error store) := resolve_all order ∅ s.
End inherit.

(** ** The specification: lineages *)

Section spec.
Context `{Y : YamlLib} (fs : string -> string -> option strategy).

(** [parent s k p]: the blueprint [k] inherits from the key [p]. *)
Definition parent (s : store) (k p : string) : Prop :=
  exists bp, s !! k = Some bp /\ Template bp <> "" /\ parent_key s bp = p.

(** The blueprints from the root ancestor down to the one keyed [k]. *)
Inductive lineage (s : store) : string -> list (string * RawBlueprint) -> Prop :=
| lineage_root k bp : s !! k = Some bp -> Template bp = "" -> lineage s k [(k, bp)]
| lineage_child k bp p l :
    s !! k = Some bp -> Template bp <> "" -> parent_key s bp = p -> lineage s p l ->
    lineage s k (l ++ [(k, bp)]).

(** A lineage resolved from the root down. *)
Definition resolve_step (acc : RawBlueprint) (kb : string * RawBlueprint)
    : result inherit_error RawBlueprint :=
  match mergeYAMLNodes fs (BpNode acc) (BpNode kb.2) with
  | Ok merged => Ok (resolve_child kb.1 kb.2 acc merged)
  | Err e => Err (MergeTemplates kb.1 e)
  end.

Definition resolve_lineage (l : list (string * RawBlueprint))
    : result inherit_error RawBlueprint :=
  match l with
  | [] => Err (BlueprintNotFound "")
  | (k, bp) :: l => res_foldl resolve_step (resolve_root k bp) l
  end.

(** What each outcome of a resolution says about the store. *)
Definition outcome (s : store) (k : string) (r : result inherit_error RawBlueprint) : Prop :=
  match r with
  | Ok _ | Err (MergeTemplates _ _) => exists l, lineage s k l /\ resolve_lineage l = r
  | Err (BlueprintNotFound k') => k' = k /\ s !! k = None
  | Err (CannotFindTemplate t k') =>
      rtc (parent s) k k' /\
      exists bp, s !! k' = Some bp /\ Template bp = t /\ t <> "" /\ s !! parent_key s bp = None
  | Err (CircularTemplate k') => rtc (parent s) k k' /\ tc (parent s) k' k'
  end.
End spec.

(** ** Lemmas on stores *)

Section store_lemmas.
Context `{Y : YamlLib}.

(** Resolving completes some roots of a store in place and changes nothing else. *)
Definition touched (s0 s : store) : Prop := forall k,
  match s0 !! k with
  | None => s !! k = None
  | Some bp => s !! k = Some bp \/ (Template bp = "" /\ s !! k = Some (resolve_root k bp))
  end.

Lemma touched_refl s : touched s s.
Proof. intros k. destruct (s !! k); auto. Qed.

Lemma touched_None s0 s k : touched s0 s -> s !! k = None <-> s0 !! k = None.
Proof. intros H. specialize (H k). destruct (s0 !! k); naive_solver. Qed.

Lemma touched_dom s0 s : touched s0 s -> dom s = dom s0.
Proof.
  intros H. apply set_eq. intros k. rewrite !elem_of_dom, <- !not_eq_None_Some.
  by rewrite (touched_None s0 s).
Qed.

Lemma touched_size s0 s : touched s0 s -> size s = size s0.
Proof. intros H%touched_dom. by rewrite <- !size_dom, H. Qed.

Lemma touched_Some s0 s k bp :
  touched s0 s -> s !! k = Some bp ->
  exists bp0, s0 !! k = Some bp0 /\ Template bp = Template bp0 /\
              (bp = bp0 \/ (Template bp0 = "" /\ bp = resolve_root k bp0)).
Proof. intros H Hk. specialize (H k). destruct (s0 !! k); naive_solver. Qed.

Lemma touched_parent_key s0 s bp : touched s0 s -> parent_key s bp = parent_key s0 bp.
Proof.
  intros H. unfold parent_key. destruct (String.eqb (Org bp) ""); [done|].
  pose proof (touched_None s0 s (orgBlueprintKey (Org bp) (Template bp)) H) as E.
  destruct (s !! _), (s0 !! _); naive_solver.
Qed.

Lemma resolve_root_idemp k bp : resolve_root k (resolve_root k bp) = resolve_root k bp.
Proof. unfold resolve_root. cbn. by destruct (InheritanceChain bp). Qed.

Lemma touched_insert s0 s k bp0 :
  touched s0 s -> s0 !! k = Some bp0 -> Template bp0 = "" ->
  touched s0 (<[k := resolve_root k bp0]> s).
Proof.
  intros H Hk Ht k'. destruct (decide (k' = k)) as [->|Hne].
  - rewrite Hk, lookup_insert_eq. by right.
  - rewrite lookup_insert_ne by done. apply H.
Qed.
End store_lemmas.

(** ** Lemmas on lineages *)

Section lineage_lemmas.
Context `{Y : YamlLib} (fs : string -> string -> option strategy).

Lemma parent_functional s k p1 p2 : parent s k p1 -> parent s k p2 -> p1 = p2.
Proof. intros (b1 & ? & ? & ?) (b2 & ? & ? & ?). congruence. Qed.

Lemma lineage_nonempty s k l : lineage s k l -> l <> [].
Proof. by destruct 1; [|destruct l]. Qed.

Lemma lineage_unique s k l1 l2 : lineage s k l1 -> lineage s k l2 -> l1 = l2.
Proof.
  intros H1. revert l2. induction H1 as [k bp Hk Ht|k bp p l Hk Ht Hp Hl IH];
    intros l2; inversion 1; subst; try congruence.
  assert (bp0 = bp) as -> by congruence. f_equal. by apply IH.
Qed.

Lemma lineage_parent s k l p :
  lineage s k l -> parent s k p -> exists l', lineage s p l' /\ length l = S (length l').
Proof.
  intros [k' bp Hk Ht|k' bp q l' Hk Ht Hq Hl] (bp' & Hk' & Ht' & Hp'); [congruence|].
  exists l'. assert (bp' = bp) as -> by congruence. rewrite length_app. cbn.
  split; [congruence|lia].
Qed.

Lemma lineage_tc s k p l :
  tc (parent s) k p -> lineage s k l -> exists l', lineage s p l' /\ (length l' < length l)%nat.
Proof.
  intros Hp. revert l. induction Hp as [k p Hp|k q p Hp _ IH]; intros l Hl.
  - destruct (lineage_parent _ _ _ _ Hl Hp) as (l' & ? & ?). exists l'. split; [done|lia].
  - destruct (lineage_parent _ _ _ _ Hl Hp) as (l' & Hl' & ?).
    destruct (IH l' Hl') as (l'' & ? & ?). exists l''. split; [done|lia].
Qed.

Lemma lineage_rtc s k p l :
  rtc (parent s) k p -> lineage s k l -> exists l', lineage s p l'.
Proof.
  intros [->|Hp]%rtc_tc Hl; [by eexists|].
  destruct (lineage_tc _ _ _ _ Hp Hl) as (l' & ? & _). by exists l'.
Qed.

Lemma lineage_acyclic s k l : lineage s k l -> ~ tc (parent s) k k.
Proof.
  intros Hl Hk. destruct (lineage_tc _ _ _ _ Hk Hl) as (l' & Hl' & Hlt).
  rewrite (lineage_unique _ _ _ _ Hl Hl') in Hlt. lia.
Qed.

Lemma resolve_lineage_snoc l kb :
  l <> [] -> resolve_lineage fs (l ++ [kb]) = resolve_lineage fs l ≫= fun acc => resolve_step fs acc kb.
Proof.
  destruct l as [|[k bp] l]; [done|]. intros _. cbn [resolve_lineage app].
  rewrite res_foldl_app. destruct (res_foldl _ _ l); cbn; [|done]. by destruct (resolve_step _ _ _).
Qed.

(** A lineage and an error that denies it exclude each other. *)
Lemma outcome_ok_excludes s k l bp e :
  lineage s k l -> resolve_lineage fs l = Ok bp -> ~ outcome fs s k (Err e).
Proof.
  intros Hl Hr. destruct e as [c|n|t n|n e]; cbn.
  - intros [Hk Hc]. destruct (lineage_rtc _ _ _ _ Hk Hl) as [l' Hl'].
    by apply lineage_acyclic in Hl'.
  - intros [_ Hk]. inversion Hl; congruence.
  - intros (Hk & b & Hb & Ht & Hne & Hp). destruct (lineage_rtc _ _ _ _ Hk Hl) as [l' Hl'].
    destruct (lineage_parent s n l' (parent_key s b) Hl') as (l'' & Hl'' & _).
    { exists b. split_and!; [done|congruence|done]. }
    inversion Hl''; congruence.
  - intros (l' & Hl' & Hr'). rewrite (lineage_unique _ _ _ _ Hl Hl') in Hr. congruence.
Qed.
End lineage_lemmas.

(** ** Resolution meets its specification *)

Section resolution.
Context `{Y : YamlLib} (fs : string -> string -> option strategy).

Lemma resolve_outcome s0 fuel : forall visited k s,
  touched s0 s -> visited ⊆ dom s0 -> (size s0 < fuel + size visited)%nat ->
  (forall v, v ∈ visited -> tc (parent s0) v k) ->
  exists r s', resolveRawTemplate fs fuel visited k s = Some (r, s') /\
               touched s0 s' /\ outcome fs s0 k r.
Proof.
  induction fuel as [|fuel IH]; intros visited k s Hs Hv Hf Hc.
  { apply subseteq_size in Hv. rewrite size_dom in Hv. lia. }
  cbn [resolveRawTemplate]. case_bool_decide as Hk.
  { do 2 eexists. split; [done|]. split; [done|]. split; [done|by apply Hc]. }
  destruct (s !! k) as [bp|] eqn:E.
  2: { do 2 eexists. split; [done|]. split; [done|]. by apply (touched_None s0) in E. }
  destruct (touched_Some _ _ _ _ Hs E) as (bp0 & E0 & Ht & Hbp).
  destruct (String.eqb_spec (Template bp) "") as [Hr|Hr].
  { do 2 eexists. split; [done|].
    assert (resolve_root k bp = resolve_root k bp0) as ->.
    { destruct Hbp as [->|[_ ->]]; [done|apply resolve_root_idemp]. }
    split; [apply touched_insert; [done..|congruence]|].
    exists [(k, bp0)]. split; [constructor; congruence|done]. }
  destruct Hbp as [->|[? _]]; [|congruence]. rewrite (touched_parent_key s0) by done.
  set (p := parent_key s0 bp0). assert (parent s0 k p) as Hp by (by exists bp0).
  destruct (IH ({[k]} ∪ visited) p s) as (r & s' & Hrun & Hs' & Ho); [done|..].
  - apply union_subseteq. split; [|done]. apply singleton_subseteq_l, elem_of_dom. by exists bp0.
  - rewrite size_union, size_singleton by set_solver. lia.
  - intros v [->%elem_of_singleton|Hin]%elem_of_union; [by apply tc_once|].
    eapply tc_r; [by apply Hc|done].
  - rewrite Hrun. clear IH Hrun. destruct r as [par|e].
    + destruct Ho as (l & Hl & Hres).
      assert (lineage s0 k (l ++ [(k, bp0)])) as Hl' by (by eapply lineage_child).
      assert (resolve_lineage fs (l ++ [(k, bp0)]) = resolve_step fs par (k, bp0)) as Hres'.
      { rewrite resolve_lineage_snoc by (by eapply lineage_nonempty). by rewrite Hres. }
      unfold resolve_step in Hres'. cbn in Hres'.
      destruct (mergeYAMLNodes fs (BpNode par) (BpNode bp0)); do 2 eexists;
        (split; [done|split; [done|by eexists]]).
    + do 2 eexists. split; [done|]. split; [done|]. destruct e as [c|n|t n|n e]; cbn in *.
      * destruct Ho. split; [by eapply rtc_l|done].
      * destruct Ho as [-> Hn]. split; [done|]. by exists bp0.
      * destruct Ho. split; [by eapply rtc_l|done].
      * destruct Ho as (l & Hl & Hres). exists (l ++ [(k, bp0)]).
        split; [by eapply lineage_child|].
        rewrite resolve_lineage_snoc by (by eapply lineage_nonempty). by rewrite Hres.
Qed.
End resolution.

Section results.
Context `{Y : YamlLib} (fs : string -> string -> option strategy).

Lemma resolve_fuel_enough s0 s k :
  touched s0 s ->
  exists r s', resolveRawTemplate fs (resolve_fuel s) ∅ k s = Some (r, s') /\
               touched s0 s' /\ outcome fs s0 k r.
Proof.
  intros Hs. apply resolve_outcome; [done|set_solver| |set_solver].
  unfold resolve_fuel. rewrite (touched_size s0 s), size_empty by done. lia.
Qed.

(** [resolved] holds results of keys already resolved. *)
Lemma resolve_all_outcome s0 order : forall resolved s,
  touched s0 s -> NoDup order -> (forall k, k ∈ order -> resolved !! k = None) ->
  exists r, resolve_all fs order resolved s = Some r /\
    match r with
    | Ok m =>
        (forall k, k ∈ order -> exists l bp,
           m !! k = Some bp /\ lineage s0 k l /\ resolve_lineage fs l = Ok bp) /\
        (forall k, k ∉ order -> m !! k = resolved !! k)
    | Err e => exists k, k ∈ order /\ outcome fs s0 k (Err e)
    end.
Proof.
  induction order as [|k order IH]; intros resolved s Hs Hnd Hres; cbn [resolve_all].
  { eexists. split; [done|]. split; [by intros k ?%not_elem_of_nil|done]. }
  rewrite Hres by left. apply NoDup_cons in Hnd as [Hk Hnd].
  destruct (resolve_fuel_enough s0 s k Hs) as (r & s' & -> & Hs' & Ho).
  destruct r as [bp|e]; [|by eexists; split; [done|exists k; split; [left|done]]].
  destruct (IH (<[k := bp]> resolved) s' Hs' Hnd) as (r & -> & Hr).
  { intros k' Hk'. rewrite lookup_insert_ne by (by intros ->). apply Hres. by right. }
  eexists. split; [done|]. destruct r as [m|e].
  - destruct Hr as [H1 H2]. split.
    + intros k' [->|Hk']%elem_of_cons; [|by apply H1]. destruct Ho as (l & ? & ?).
      exists l, bp. split; [|done]. by rewrite H2, lookup_insert_eq.
    + intros k' [Hne Hk']%not_elem_of_cons. by rewrite H2, lookup_insert_ne by done.
  - destruct Hr as (k' & ? & ?). exists k'. split; [by right|done].
Qed.

(** Blueprints as a load reads them: not resolved yet. *)
Definition fresh (s : store) : Prop :=
  forall k bp, s !! k = Some bp -> InheritanceChain bp = [].

Lemma resolve_lineage_facts s k l bp :
  fresh s -> lineage s k l -> resolve_lineage fs l = Ok bp ->
  InheritanceChain bp = l.*1 /\ last (InheritanceChain bp) = Some k /\
  BpRevision bp = computeRevision (Some (BpNode bp)) /\
  exists raw, s !! k = Some raw /\ OwnNode bp = Some (BpNode raw) /\ Name bp = Name raw /\
              Template bp = Template raw /\ Org bp = Org raw.
Proof.
  intros Hf Hl. revert bp. induction Hl as [k raw Hk Ht|k raw p l Hk Ht Hp Hl IH]; intros bp.
  { cbn. intros [= <-]. cbn. rewrite (Hf k) by done. split_and!; try done. by exists raw. }
  rewrite resolve_lineage_snoc by (by eapply lineage_nonempty).
  intros (par & Hpar & Hstep)%bind_ok. destruct (IH par Hpar) as (Hc & _).
  unfold resolve_step in Hstep. cbn in Hstep. destruct (mergeYAMLNodes _ _ _); [|done].
  injection Hstep as <-. cbn. rewrite fmap_app, last_snoc, Hc. split_and!; try done.
  by exists raw.
Qed.

Lemma lineage_elem s k l k' b :
  lineage s k l -> (k', b) ∈ l -> s !! k' = Some b /\ rtc (parent s) k k'.
Proof.
  induction 1 as [k bp Hk Ht|k bp p l Hk Ht Hp Hl IH].
  - intros [= -> ->]%list_elem_of_singleton. by split.
  - intros [Hin|[= -> ->]%list_elem_of_singleton]%elem_of_app; [|by split].
    destruct (IH Hin). split; [done|]. eapply rtc_l; [|done]. by exists bp.
Qed.

Lemma lineage_NoDup s k l : lineage s k l -> NoDup l.*1.
Proof.
  induction 1 as [k bp Hk Ht|k bp p l Hk Ht Hp Hl IH]; [apply NoDup_singleton|].
  rewrite fmap_app. apply NoDup_app. split_and!; [done| |apply NoDup_singleton].
  intros k' ([k2 b] & -> & Hin)%list_elem_of_fmap Hk'%list_elem_of_singleton. cbn in Hk'. subst k2.
  destruct (lineage_elem _ _ _ _ _ Hl Hin) as [_ Hr].
  assert (lineage s k (l ++ [(k, bp)])) as Hl' by (by eapply lineage_child).
  apply (lineage_acyclic _ _ _ Hl'). eapply tc_rtc_r; [|done]. apply tc_once. by exists bp.
Qed.
End results.

(** ** The theorems *)

(** C32. Resolving a template terminates whatever the store, with its number of
    blueprints as the bound on the chain, and its outcome says what the store
    holds: a result is the merge of the whole chain of ancestors from the root
    down; "not found" means the blueprint itself is missing; "cannot find
    template" names the blueprint of the chain whose parent is missing; and
    "circular" names a blueprint of the chain that is its own ancestor. *)
Theorem resolveRawTemplate_outcome `{YamlLib} fs s k :
  exists r s', resolveRawTemplate fs (resolve_fuel s) ∅ k s = Some (r, s') /\ outcome fs s k r.
Proof.
  destruct (resolve_fuel_enough fs s s k (touched_refl s)) as (r & s' & H1 & _ & H2).
  by exists r, s'.
Qed.

(** C1. A blueprint whose ancestors all exist up to a root and merge without error
    is resolved, and to exactly the merge of its lineage from the root down. *)
Theorem resolveRawTemplate_complete `{YamlLib} fs s k l bp :
  lineage s k l -> resolve_lineage fs l = Ok bp ->
  exists s', resolveRawTemplate fs (resolve_fuel s) ∅ k s = Some (Ok bp, s').
Proof.
  intros Hl Hr. destruct (resolve_fuel_enough fs s s k (touched_refl s)) as (r & s' & H1 & _ & H2).
  exists s'. rewrite H1. destruct r as [bp'|e].
  - destruct H2 as (l' & Hl' & Hr'). rewrite (lineage_unique _ _ _ _ Hl Hl') in Hr. congruence.
  - by apply (outcome_ok_excludes fs s k l bp e Hl Hr) in H2.
Qed.

(** A resolved blueprint of a fresh load records its chain of ancestors, root
    first and itself last, none twice; its own content; and the revision of its
    merged content. *)
Theorem resolveRawTemplate_facts `{YamlLib} fs s k bp s' :
  fresh s -> resolveRawTemplate fs (resolve_fuel s) ∅ k s = Some (Ok bp, s') ->
  NoDup (InheritanceChain bp) /\ last (InheritanceChain bp) = Some k /\
  (forall a, a ∈ InheritanceChain bp -> rtc (parent s) k a) /\
  BpRevision bp = computeRevision (Some (BpNode bp)) /\
  exists raw, s !! k = Some raw /\ OwnNode bp = Some (BpNode raw) /\ Name bp = Name raw.
Proof.
  intros Hf Hr. destruct (resolve_fuel_enough fs s s k (touched_refl s)) as (r & s2 & H1 & _ & H2).
  rewrite Hr in H1. injection H1 as <- <-. destruct H2 as (l & Hl & Hres).
  destruct (resolve_lineage_facts fs s k l bp Hf Hl Hres) as (Hc & Hlast & Hrev & raw & ? & ? & ? & _).
  split_and!; [|done| |done|by exists raw].
  - rewrite Hc. by eapply lineage_NoDup.
  - intros a. rewrite Hc. intros ([k' b] & -> & Hin)%list_elem_of_fmap.
    by eapply lineage_elem in Hin as [_ ?].
Qed.

(** The load resolves a Go map in no particular order, and resolving a root
    changes the shared blueprint in place; still every order succeeds or every
    order fails, and all that succeed agree on every blueprint. *)
Theorem resolveInheritance_order `{YamlLib} fs s o1 o2 m :
  o1 ≡ₚ (map_to_list s).*1 -> o2 ≡ₚ (map_to_list s).*1 ->
  resolveInheritance fs o1 s = Some (Ok m) -> resolveInheritance fs o2 s = Some (Ok m).
Proof.
  intros H1 H2 Hm. assert (NoDup o1 /\ NoDup o2) as [N1 N2].
  { rewrite H1, H2. by split; apply NoDup_fst_map_to_list. }
  assert (forall k, k ∈ o1 <-> k ∈ o2) as Ho by (intros k; by rewrite H1, H2).
  destruct (resolve_all_outcome fs s o1 ∅ s (touched_refl s) N1) as (r1 & E1 & R1); [done|].
  destruct (resolve_all_outcome fs s o2 ∅ s (touched_refl s) N2) as (r2 & E2 & R2); [done|].
  unfold resolveInheritance in *. rewrite E1 in Hm. injection Hm as ->.
  rewrite E2. destruct R1 as [R1 R1']. do 2 f_equal. destruct r2 as [m2|e].
  - destruct R2 as [R2 R2']. f_equal. apply map_eq. intros k.
    destruct (decide (k ∈ o1)) as [Hk|Hk].
    + destruct (R1 k Hk) as (l1 & b1 & -> & L1 & E1').
      apply Ho in Hk. destruct (R2 k Hk) as (l2 & b2 & -> & L2 & E2').
      rewrite (lineage_unique _ _ _ _ L1 L2) in E1'. congruence.
    + rewrite R1' by done. apply R2'. by rewrite <- Ho.
  - destruct R2 as (k & Hk & Hout). apply Ho in Hk.
    destruct (R1 k Hk) as (l & b & _ & L & E). by apply (outcome_ok_excludes fs s k l b e) in Hout.
Qed.

(** An org blueprint that names a template of its own name never finds the
    global template of that name: it is its own parent, and the load reports a
    circular reference. *)
Theorem org_template_of_its_own_name `{YamlLib} fs s org name bp :
  org <> "" -> s !! orgBlueprintKey org name = Some bp ->
  Org bp = org -> Template bp = name -> name <> "" ->
  exists s', resolveRawTemplate fs (resolve_fuel s) ∅ (orgBlueprintKey org name) s
             = Some (Err (CircularTemplate (orgBlueprintKey org name)), s').
Proof.
  intros Ho Hk Horg Ht Hn. assert (parent_key s bp = orgBlueprintKey org name) as Hp.
  { unfold parent_key. rewrite Horg, Ht, Hk. by apply String.eqb_neq in Ho as ->. }
  unfold resolve_fuel. assert (size s <> 0%nat) as Hs.
  { intros E%map_size_empty_inv. subst s. by rewrite lookup_empty in Hk. }
  destruct (size s) as [|n]; [done|]. exists s. cbn [resolveRawTemplate].
  rewrite bool_decide_false, Hk, Ht by set_solver.
  apply String.eqb_neq in Hn as ->. rewrite Hp.
  by rewrite bool_decide_true by set_solver.
Qed.

(** ** Examples *)

(** A template, a blueprint of it, and an org's blueprint of both names. *)
Module InheritSample.
Definition raw (name template org : string) (n : node) : RawBlueprint :=
  {| Name := name; Description := ""; Template := template; IsTemplate := false;
     SourceFile := name +:+ ".yaml"; BpNode := n; OwnNode := None; InheritanceChain := [];
     BpRevision := ""; CreatedAt := 0; UpdatedAt := 0; Org := org |}.

Definition base : RawBlueprint := raw "base" "" "" RevisionSample.template.
Definition dev : RawBlueprint := raw "dev" "base" "" RevisionSample.child.
Definition bps : store := {[ "base" := base; "dev" := dev ]}.

Definition loop : RawBlueprint := raw "base" "base" "acme" RevisionSample.child.
Definition bps_loop : store := <["acme/base" := loop]> bps.

Definition no_strategy : string -> string -> option strategy := fun _ _ => None.
End InheritSample.

Lemma resolveRawTemplate_complete_witness :
  let _ := SampleYaml.lib in
  exists bp s', resolveRawTemplate InheritSample.no_strategy (resolve_fuel InheritSample.bps) ∅ "dev"
                  InheritSample.bps = Some (Ok bp, s') /\ BpNode bp = RevisionSample.merged.
Proof.
  intros L. eexists.
  destruct (resolveRawTemplate_complete InheritSample.no_strategy InheritSample.bps "dev"
              ([("base", InheritSample.base)] ++ [("dev", InheritSample.dev)])
              (resolve_child "dev" InheritSample.dev (resolve_root "base" InheritSample.base)
                 RevisionSample.merged)) as [s' H].
  - eapply lineage_child; [reflexivity|done|reflexivity|]. by apply lineage_root.
  - reflexivity.
  - exists s'. split; [exact H|reflexivity].
Defined.

Lemma resolveRawTemplate_facts_witness :
  let _ := SampleYaml.lib in
  exists bp s', resolveRawTemplate InheritSample.no_strategy (resolve_fuel InheritSample.bps) ∅ "dev"
                  InheritSample.bps = Some (Ok bp, s') /\
                last (InheritanceChain bp) = Some "dev".
Proof.
  intros L.
  destruct (resolveRawTemplate InheritSample.no_strategy (resolve_fuel InheritSample.bps) ∅ "dev"
              InheritSample.bps) as [[[bp|e] s']|] eqn:E; [|vm_compute in E; discriminate E..].
  exists bp, s'. split; [done|].
  pose proof (resolveRawTemplate_facts InheritSample.no_strategy InheritSample.bps "dev" bp s') as H.
  apply H; [|exact E]. clear. intros k b. unfold InheritSample.bps.
  rewrite lookup_insert_Some, lookup_singleton_Some. by intros [[_ <-]|[_ [_ <-]]].
Defined.

Lemma resolveInheritance_order_witness :
  let _ := SampleYaml.lib in
  exists m, resolveInheritance InheritSample.no_strategy ["base"; "dev"] InheritSample.bps = Some (Ok m) /\
            resolveInheritance InheritSample.no_strategy ["dev"; "base"] InheritSample.bps = Some (Ok m) /\
            (BpNode <$> m !! "dev") = Some RevisionSample.merged.
Proof.
  intros L.
  set (m := {["base" := resolve_root "base" InheritSample.base;
              "dev" := resolve_child "dev" InheritSample.dev
                         (resolve_root "base" InheritSample.base) RevisionSample.merged]} : store).
  assert (resolveInheritance InheritSample.no_strategy ["base"; "dev"] InheritSample.bps = Some (Ok m))
    as H by (vm_compute; reflexivity).
  exists m. split; [exact H|]. split; [|reflexivity].
  apply (resolveInheritance_order InheritSample.no_strategy InheritSample.bps ["base"; "dev"]);
    [apply (bool_decide_unpack _); vm_compute; reflexivity..|exact H].
Defined.

Lemma org_template_of_its_own_name_witness :
  let _ := SampleYaml.lib in
  exists s', resolveRawTemplate InheritSample.no_strategy (resolve_fuel InheritSample.bps_loop) ∅
               "acme/base" InheritSample.bps_loop = Some (Err (CircularTemplate "acme/base"), s') /\
             InheritSample.bps_loop !! "base" = Some InheritSample.base.
Proof.
  intros L.
  destruct (org_template_of_its_own_name InheritSample.no_strategy InheritSample.bps_loop "acme" "base"
              InheritSample.loop ltac:(done) eq_refl eq_refl eq_refl ltac:(done)) as [s' H].
  exists s'. split; [exact H|reflexivity].
Defined.
