(* ===== verification/Cel.v ===== *)
(** * CEL expressions in YAML trees

    A [!cel] node is shown as a string with the prefix "!cel:" and turned back
    into a tagged node when a document is submitted
    (internal/blueprint/blueprint.go and validate_raw.go); field paths for the
    problems of a submitted document. *)

From Stdlib Require Import Ascii.
From S2P Require Import Prelude GoStrings Yaml Merge Sha256 Revision.

(** src/internal/blueprint/validate_raw.go:22-27 celDisplayPrefix *)
Definition celDisplayPrefix : string := "!cel:".

(** src/internal/blueprint/validate_raw.go:29-34 celTagPrefix *)
Definition celTagPrefix : string := "!cel ".

Definition with_style (m : node_meta) (style : Z) : node_meta :=
  mkMeta style (Anchor m) (HeadComment m) (LineComment m) (FootComment m) (Line m) (Column m).

(** The alias of a node is shared, not cloned.

    src/internal/blueprint/blueprint.go:1468-1503 cloneAndProcessCELNodes *)
Fixpoint cloneAndProcessCELNodes (n : node) : node :=
  match n with
  | Node m k tag value alias content =>
      let '(tag', value') :=
        if String.eqb tag "!cel" && bool_decide (k = ScalarNode)
        then ("!!str", celDisplayPrefix +:+ value) else (tag, value) in
      Node m k tag' value' alias (cloneAndProcessCELNodes <$> content)
  end.

(** [strings.CutPrefix]. *)
Definition cut_prefix (s p : string) : option string :=
  if has_prefix s p then Some (drop_str (String.length p) s) else None.

(** [strings.TrimLeft(s, c)]. *)
Fixpoint trim_left (c : ascii) (s : string) : string :=
  match s with
  | String a s' => if Ascii.eqb a c then trim_left c s' else s
  | "" => ""
  end.

(** The expression a scalar's text stands for, if it does.

    src/internal/blueprint/validate_raw.go:416-426 restoreCELNodes *)
Definition cel_text (value : string) : option string :=
  match cut_prefix value celDisplayPrefix with
  | Some expr => Some expr
  | None => trim_left " " <$> cut_prefix value celTagPrefix
  end.

(** src/internal/blueprint/validate_raw.go:391-436 restoreCELNodes *)
Fixpoint restoreCELNodes (n : node) : node :=
  match n with
  | Node m k tag value alias content =>
      let '(m', tag', value') :=
        if bool_decide (k = ScalarNode) then
          match cel_text value with
          | Some expr => (with_style m 0, "!cel", expr)
          | None => (m, tag, value)
          end
        else (m, tag, value) in
      Node m' k tag' value' alias (restoreCELNodes <$> content)
  end.

(** src/internal/blueprint/blueprint.go:1361-1373 findChildNode *)
Definition findChildNode (parent : node) (key : string) : option node :=
  if is_kind MappingNode parent then first_value key (pairs_of (node_content parent)) else None.

(** src/internal/blueprint/validate_raw.go:375-389 resolveValidationNode *)
Fixpoint resolveValidationNode (root : node) : option node :=
  match root with
  | Node _ DocumentNode _ _ _ (c :: _) => resolveValidationNode c
  | _ =>
      if negb (is_kind MappingNode root) then None
      else match findChildNode root "blueprint" with
           | Some bp => Some bp
           | None => Some root
           end
  end.

(** ** Positions and field paths *)

Definition node_line (n : node) : Z := Line (node_meta_of n).

(** The nodes at even positions: [for i := 0; i < len(content); i += 2]. *)
Fixpoint evens (content : list node) : list node :=
  match content with
  | [] => []
  | [k] => [k]
  | k :: _ :: c => k :: evens c
  end.

(** src/internal/blueprint/validate_raw.go:459-470 findKeyLine *)
Definition findKeyLine (n : node) (key : string) : Z :=
  let found :=
    if is_kind MappingNode n
    then find (fun k => String.eqb (node_value k) key) (evens (node_content n)) else None in
  match found with
  | Some k => node_line k
  | None => node_line n
  end.

(** The closure [walk]: [found] is the variable it assigns. A mapping's loop
    goes on after a nested walk, whether that found something or not.

    src/internal/blueprint/validate_raw.go:493-527 yamlPathAtLine *)
Fixpoint walk_path (line : Z) (n : node) (path found : string) {struct n} : string :=
  if negb (String.eqb found "") then found else
  match n with
  | Node _ DocumentNode _ _ _ content => foldl (fun f c => walk_path line c path f) found content
  | Node _ MappingNode _ _ _ content =>
      (fix pairs (c : list node) (found : string) : string :=
         match c with
         | k :: v :: c =>
             let child := child_path path (node_value k) in
             if Z.eqb (node_line k) line || Z.eqb (node_line v) line then child
             else pairs c (walk_path line v child found)
         | _ => found
         end) content found
  | Node _ SequenceNode _ _ _ content =>
      (fix items (i : nat) (c : list node) (found : string) : string :=
         match c with
         | x :: c =>
             let child := path +:+ "[" +:+ pretty (N.of_nat i) +:+ "]" in
             if Z.eqb (node_line x) line then child
             else items (S i) c (walk_path line x child found)
         | [] => found
         end) 0%nat content found
  | _ => found
  end.

(** src/internal/blueprint/validate_raw.go:483-530 yamlPathAtLine *)
Definition yamlPathAtLine (root : option node) (line : Z) : string :=
  match root with
  | None => ""
  | Some root => if (line <=? 0)%Z then "" else walk_path line root "" ""
  end.

(** src/internal/blueprint/validate_raw.go:83-99 mapFieldPrefixes *)
Definition mapFieldPrefixes : list string :=
  ["podman.storages"; "podman.extFiles"; "storages"; "extFiles"; "apps"; "env"].

(** src/internal/blueprint/validate_raw.go:101-120 bracketMapKeys *)
Definition bracketMapKeys (path : string) : string :=
  (fix go (prefixes : list string) : string :=
     match prefixes with
     | [] => path
     | prefix :: prefixes =>
         match cut_prefix path (prefix +:+ ".") with
         | None => go prefixes
         | Some rest =>
             let '(key, tail, hasTail) := cut_byte "." rest in
             if hasTail then prefix +:+ "[" +:+ key +:+ "]." +:+ tail
             else prefix +:+ "[" +:+ key +:+ "]"
         end
     end) mapFieldPrefixes.

(** ** Notions the theorems use *)

(** No literal of the tree reads as the display form of an expression. *)
Fixpoint no_cel_text (n : node) : Prop :=
  match n with
  | Node _ k tag value _ content =>
      (k = ScalarNode -> tag <> "!cel" -> cel_text value = None) /\
      (fix all (l : list node) : Prop :=
         match l with [] => True | x :: l => no_cel_text x /\ all l end) content
  end.

(** A tree as the parser builds it: every node has a kind, and an alias its target. *)
Fixpoint parsed (n : node) : Prop :=
  match n with
  | Node _ k _ _ alias content =>
      k <> NoKind /\ (k = AliasNode -> alias <> None) /\
      (fix all (l : list node) : Prop :=
         match l with [] => True | x :: l => parsed x /\ all l end) content
  end.

(** What yaml.v3 documents of the short tag of a scalar: with an explicit tag, such
    as that of an expression, it does not depend on how the scalar is quoted, and
    it never depends on content, which scalars do not have. *)
Class ScalarTags `{YamlLib} : Prop := {
  tag_explicit m v a c s : yaml_short_tag (Node (with_style m s) ScalarNode "!cel" v a c)
    = yaml_short_tag (Node m ScalarNode "!cel" v a c);
  tag_no_content m t v a c c' : yaml_short_tag (Node m ScalarNode t v a c) = yaml_short_tag (Node m ScalarNode t v a c');
}.

(** The tree with the quoting style of its expressions forgotten. *)
Fixpoint plain_cel (n : node) : node :=
  match n with
  | Node m k tag value alias content =>
      Node (if String.eqb tag "!cel" && bool_decide (k = ScalarNode) then with_style m 0 else m)
        k tag value alias (plain_cel <$> content)
  end.

(** [at_path n p x]: from [n] the path [p] of a field leads to the node [x]. *)
Inductive field_at : node -> string -> string -> node -> node -> Prop :=
| field_doc n c path p key x :
    node_kind n = DocumentNode -> c ∈ node_content n -> field_at c path p key x ->
    field_at n path p key x
| field_pair n path k v :
    node_kind n = MappingNode -> (k, v) ∈ pairs_of (node_content n) ->
    field_at n path (child_path path (node_value k)) k v
| field_below n path k v p key x :
    node_kind n = MappingNode -> (k, v) ∈ pairs_of (node_content n) ->
    field_at v (child_path path (node_value k)) p key x -> field_at n path p key x
| field_item n path i x :
    node_kind n = SequenceNode -> node_content n !! i = Some x ->
    field_at n path (path +:+ "[" +:+ pretty (N.of_nat i) +:+ "]") x x
| field_item_below n path i y p key x :
    node_kind n = SequenceNode -> node_content n !! i = Some y ->
    field_at y (path +:+ "[" +:+ pretty (N.of_nat i) +:+ "]") p key x -> field_at n path p key x.

(** ** Lemmas *)

Lemma cut_prefix_app p s : cut_prefix (p +:+ s) p = Some s.
Proof.
  unfold cut_prefix, has_prefix.
  assert (String.prefix p (p +:+ s) = true) as ->.
  { induction p as [|a p IH]; [by destruct s|]. rewrite string_app_cons. cbn.
    by destruct (Ascii.ascii_dec a a). }
  f_equal. induction p as [|a p IH]; [done|]. rewrite string_app_cons. apply IH.
Qed.

(** Of two texts neither of which starts the other, one never starts an
    extension of the other. *)
Lemma prefix_app_false p q x :
  String.prefix p q = false -> String.prefix q p = false -> String.prefix q (p +:+ x) = false.
Proof.
  revert q. induction p as [|a p IH]; intros [|b q]; cbn; try done.
  rewrite string_app_cons. cbn.
  destruct (Ascii.ascii_dec a b) as [->|], (Ascii.ascii_dec b b); try done; [by apply IH|].
  by destruct (Ascii.ascii_dec b a) as [->|].
Qed.

Lemma cel_text_display s : cel_text (celDisplayPrefix +:+ s) = Some s.
Proof. unfold cel_text. by rewrite cut_prefix_app. Qed.

Lemma restore_clone n : no_cel_text n -> restoreCELNodes (cloneAndProcessCELNodes n) = plain_cel n.
Proof.
  induction n as [m k tag value alias content _ IH] using node_ind'. intros [Hv Hc].
  assert (restoreCELNodes <$> (cloneAndProcessCELNodes <$> content) = plain_cel <$> content) as Hl.
  { clear Hv. induction IH as [|x l Hx _ IHl]; [done|]. destruct Hc as [Hxc Hc].
    cbn. rewrite Hx by done. f_equal. by apply IHl. }
  cbn. destruct (String.eqb_spec tag "!cel") as [->|Ht], (bool_decide_reflect (k = ScalarNode)) as [->|Hk];
    cbn -[cel_text]; rewrite ?Hl.
  - by rewrite cel_text_display.
  - by rewrite bool_decide_false.
  - by rewrite Hv.
  - by rewrite bool_decide_false.
Qed.

Lemma plain_cel_content n : node_content (plain_cel n) = plain_cel <$> node_content n.
Proof. by destruct n. Qed.

Lemma parsed_content n x : parsed n -> x ∈ node_content n -> parsed x.
Proof.
  destruct n as [m k t v a c]. intros (_ & _ & H). cbn in *. revert H.
  induction c as [|y c IH]; [by intros _ ?%not_elem_of_nil|].
  intros [Hy Hc] [->|?]%elem_of_cons; auto.
Qed.

(** What is hashed of a tree does not include the style of its expressions. *)
Lemma hash_plain_cel `{!YamlLib} `{!ScalarTags} n :
  parsed n -> forall top, hashRevisionNode top (plain_cel n) = hashRevisionNode top n.
Proof.
  induction n as [m k tag value alias content _ IH] using node_ind'. intros Hp top.
  assert (Forall (fun x => forall top, hashRevisionNode top (plain_cel x) = hashRevisionNode top x) content) as IH'.
  { rewrite Forall_forall in IH |- *. intros x Hx. apply IH; [done|]. by apply (parsed_content _ x Hp). }
  destruct Hp as (Hk0 & Ha & _). clear IH.
  assert (forall b, (hashRevisionNode b <$> (plain_cel <$> content)) = hashRevisionNode b <$> content) as Hl.
  { intros b. rewrite <- list_fmap_compose. apply list_fmap_ext. intros i x Hx.
    rewrite Forall_forall in IH'. apply IH'. by eapply list_elem_of_lookup_2. }
  cbn [plain_cel]. set (m' := if _ : bool then _ else _).
  destruct (decide (k = MappingNode)) as [->|Hk].
  { rewrite !hash_mapping by done. f_equal. cbn [node_content]. clear m' Hl.
    induction content as [|x|x y c IHc] using pair_ind; [done..|].
    cbn [fmap list_fmap pairs_of]. rewrite !kept_pairs_cons.
    assert (node_value (plain_cel x) = node_value x) as -> by (by destruct x).
    apply Forall_cons in IH' as [_ [Hy IH']%Forall_cons]. specialize (IHc IH').
    destruct (top && _); [done|]. cbn. cbn in IHc. rewrite IHc. unfold pair_code at 1 3. cbn.
    rewrite Hy. by destruct x. }
  destruct k; cbn [hashRevisionNode]; rewrite ?length_fmap, ?Hl; try done.
  - assert (yaml_short_tag (Node m' ScalarNode tag value alias (plain_cel <$> content))
            = yaml_short_tag (Node m ScalarNode tag value alias content)) as ->; [|done].
    rewrite (tag_no_content _ _ _ _ _ content). unfold m'.
    destruct (String.eqb_spec tag "!cel") as [->|]; [|done]. cbn. apply tag_explicit.
  - destruct alias; [done|]. by destruct (Ha eq_refl).
Qed.

Definition on_line (line : Z) (key x : node) : Prop := node_line key = line \/ node_line x = line.

(** A walk keeps what was found or finds a field of the node that is on the line. *)
Lemma walk_path_sound line n : forall path found,
  walk_path line n path found = found \/
  exists key x, field_at n path (walk_path line n path found) key x /\ on_line line key x.
Proof.
  induction n as [m k t v a content _ IH] using node_ind'. intros path found.
  cbn [walk_path]. destruct (String.eqb found ""); cbn [negb]; [|by left].
  set (n := Node m k t v a content). rewrite Forall_forall in IH.
  destruct k; try by left.
  - assert (forall l, (forall c, c ∈ l -> c ∈ content) -> forall f,
      foldl (fun f c => walk_path line c path f) f l = f \/
      exists key x, field_at n path (foldl (fun f c => walk_path line c path f) f l) key x /\
                    on_line line key x) as G; [|by apply G].
    induction l as [|c l IHl] using rev_ind; intros Hl f; [by left|]. rewrite foldl_app. cbn.
    destruct (IH c ltac:(apply Hl; set_solver) path (foldl (fun f c => walk_path line c path f) f l))
      as [->|(key & x & Hf & Hon)].
    + apply IHl. intros d Hd. apply Hl. set_solver.
    + right. exists key, x. split; [|done]. apply (field_doc n c); [done| |done].
      apply Hl. set_solver.
  - set (items := fix items (i : nat) (c : list node) (found : string) {struct c} : string := _).
    assert (forall c i f, (forall j, c !! j = content !! (i + j)%nat) ->
      items i c f = f \/ exists key x, field_at n path (items i c f) key x /\ on_line line key x) as G.
    2: { by apply G. }
    induction c as [|x c IHc]; intros i f Hi; [by left|]. cbn [items]. fold items.
    assert (content !! i = Some x) as Hx.
    { specialize (Hi 0%nat). by rewrite Nat.add_0_r in Hi. }
    destruct (Z.eqb_spec (node_line x) line) as [Hon|_].
    { right. exists x, x. split; [by apply field_item|by left]. }
    destruct (IHc (S i) (walk_path line x (path +:+ "[" +:+ pretty (N.of_nat i) +:+ "]") f))
      as [->|?]; [|by destruct (IH x ltac:(by eapply list_elem_of_lookup_2)
          (path +:+ "[" +:+ pretty (N.of_nat i) +:+ "]") f) as [->|(key & y & Hf & Hon)];
          [left|right; exists key, y; split; [by eapply field_item_below|]]|by right].
    intros j. specialize (Hi (S j)). rewrite Nat.add_succ_r in Hi. by rewrite Nat.add_succ_l.
  - set (pairs := fix pairs (c : list node) (found : string) {struct c} : string := _).
    assert (forall c f, (forall p, p ∈ pairs_of c -> p ∈ pairs_of content) ->
      pairs c f = f \/ exists key x, field_at n path (pairs c f) key x /\ on_line line key x) as G.
    2: { by apply G. }
    induction c as [|x|x y c IHc] using pair_ind; intros f Hi; [by left..|].
    cbn [pairs]. fold pairs. cbn [pairs_of] in Hi.
    assert ((x, y) ∈ pairs_of content) as Hin by (apply Hi; left).
    destruct (Z.eqb_spec (node_line x) line) as [Hon|_]; cbn [orb].
    { right. exists x, y. split; [by apply field_pair|by left]. }
    destruct (Z.eqb_spec (node_line y) line) as [Hon|_].
    { right. exists x, y. split; [by apply field_pair|by right]. }
    destruct (IHc (walk_path line y (child_path path (node_value x)) f)) as [->|?]; [| |by right].
    { intros p Hp. apply Hi. by right. }
    destruct (IH y ltac:(by apply pairs_of_elem in Hin as [_ ?]) (child_path path (node_value x)) f)
      as [->|(key & z & Hf & Hon)]; [by left|].
    right. exists key, z. split; [|done]. by eapply field_below.
Qed.

(** ** The theorems *)



(** A problem reported by line is attributed to a field of the document: the
    path yamlPathAtLine names leads, key by key and item by item, to a key or
    value that stands on that line. *)
Theorem yamlPathAtLine_sound root line :
  yamlPathAtLine (Some root) line <> "" ->
  exists key x, field_at root "" (yamlPathAtLine (Some root) line) key x /\ on_line line key x.
Proof.
  unfold yamlPathAtLine. destruct (line <=? 0)%Z; [done|].
  destruct (walk_path_sound line root "" "") as [->|?]; done.
Qed.

Module CelSample.
Definition at_line (l : Z) (n : node) : node :=
  match n with
  | Node m k t v a c =>
      Node (mkMeta (Style m) (Anchor m) (HeadComment m) (LineComment m) (FootComment m) l (Column m))
        k t v a c
  end.
Definition doc : node :=
  mapping [at_line 1 (scalar "!!str" "apps");
           at_line 2 (mapping [at_line 2 (scalar "!!str" "web");
                               at_line 3 (sequence [at_line 3 (scalar "!!str" "a");
                                                    at_line 4 (scalar "!!str" "b")])])].
End CelSample.

Lemma yamlPathAtLine_sound_witness :
  yamlPathAtLine (Some CelSample.doc) 4 = "apps.web[1]" /\
  exists key x, field_at CelSample.doc "" "apps.web[1]" key x /\ on_line 4 key x.
Proof. split; [reflexivity|]. apply (yamlPathAtLine_sound CelSample.doc 4). discriminate. Defined.

Lemma cut_byte_app key tail :
  cut_byte "." key = (key, "", false) -> cut_byte "." (key +:+ "." +:+ tail) = (key, tail, true).
Proof.
  induction key as [|a key IH]; [done|]. rewrite string_app_cons. cbn.
  destruct (Ascii.eqb a "."); [done|]. destruct (cut_byte "." key) as [[b r] f].
  intros [= -> -> ->]. by rewrite IH.
Qed.

(** No prefix, with its dot, starts another. *)
Lemma mapFieldPrefixes_apart p q :
  p ∈ mapFieldPrefixes -> q ∈ mapFieldPrefixes -> p <> q ->
  String.prefix (q +:+ ".") (p +:+ ".") = false.
Proof.
  unfold mapFieldPrefixes. rewrite !elem_of_cons, !elem_of_nil. intros Hp Hq Hne.
  destruct_or?; subst; first [done | by destruct Hne | vm_compute; reflexivity].
Qed.

Lemma bracketMapKeys_prefix p rest :
  p ∈ mapFieldPrefixes ->
  bracketMapKeys (p +:+ "." +:+ rest) =
    let '(key, tail, hasTail) := cut_byte "." rest in
    if hasTail then p +:+ "[" +:+ key +:+ "]." +:+ tail else p +:+ "[" +:+ key +:+ "]".
Proof.
  intros Hp. unfold bracketMapKeys. set (path := p +:+ "." +:+ rest).
  assert (cut_prefix path (p +:+ ".") = Some rest) as Hm.
  { unfold path. by rewrite <- string_app_assoc, cut_prefix_app. }
  assert (forall q, q ∈ mapFieldPrefixes -> q <> p -> cut_prefix path (q +:+ ".") = None) as Hq.
  { intros q Hq Hne. unfold cut_prefix, has_prefix, path. rewrite <- string_app_assoc.
    by rewrite prefix_app_false by (by apply mapFieldPrefixes_apart). }
  clearbody path. revert Hp Hq. generalize mapFieldPrefixes as l.
  induction l as [|q l IH]; intros Hp Hq; [by apply not_elem_of_nil in Hp|].
  destruct (decide (q = p)) as [->|Hne]; [by rewrite Hm|].
  rewrite Hq; [|left|done]. apply IH.
  - by apply elem_of_cons in Hp as [->|?].
  - intros q' Hq'. apply Hq. by right.
Qed.

(** Field paths of problems inside a user-keyed map are written with the key
    in brackets, and only there: a path under one of the six prefixes becomes
    prefix[key] with the rest appended, the longer prefix deciding for podman's
    maps, and any other path is left alone. *)
Theorem bracketMapKeys_spec :
  (forall p key tail, p ∈ mapFieldPrefixes -> cut_byte "." key = (key, "", false) ->
     bracketMapKeys (p +:+ "." +:+ key) = p +:+ "[" +:+ key +:+ "]" /\
     bracketMapKeys (p +:+ "." +:+ key +:+ "." +:+ tail) = p +:+ "[" +:+ key +:+ "]." +:+ tail) /\
  (forall path, (forall p, p ∈ mapFieldPrefixes -> has_prefix path (p +:+ ".") = false) ->
     bracketMapKeys path = path).
Proof.
  split.
  - intros p key tail Hp Hk. pose proof (cut_byte_app key tail Hk) as Hcut.
    split; rewrite (bracketMapKeys_prefix p) by done; [by rewrite Hk|by rewrite Hcut].
  - intros path Hp. unfold bracketMapKeys. revert Hp. generalize mapFieldPrefixes.
    induction l as [|p l IH]; intros Hp; [done|]. unfold cut_prefix.
    rewrite Hp by left. apply IH. intros q Hq. apply Hp. by right.
Qed.

Lemma bracketMapKeys_spec_witness :
  bracketMapKeys "podman.storages.cache.size" = "podman.storages[cache].size" /\
  bracketMapKeys "resources.cpu" = "resources.cpu".
Proof.
  destruct bracketMapKeys_spec as [H1 H2]. split.
  - apply (H1 "podman.storages" "cache" "size"); [left|reflexivity].
  - apply H2. intros p. unfold mapFieldPrefixes. rewrite !elem_of_cons, elem_of_nil.
    intros Hp. destruct_or?; by subst.
Defined.
