(* ===== verification/Include.v ===== *)
(** * File inclusion

    [!include path] in a blueprint file (internal/blueprint/blueprint.go):
    the scalar is replaced by the content of the named file, relative to the
    including file, before anything else looks at the tree. *)

From Stdlib Require Import Ascii.
From S2P Require Import Prelude GoStrings Yaml Merge.

(** ** Paths: [filepath.Clean], [Join], [Dir], [IsAbs] on Unix *)

Definition is_abs (p : string) : bool := has_prefix p "/".

(** The elements of a path; [out] holds those kept so far, the last first. *)
Fixpoint clean_elems (rooted : bool) (out elems : list string) : list string :=
  match elems with
  | [] => rev out
  | e :: elems =>
      if String.eqb e "" || String.eqb e "." then clean_elems rooted out elems
      else if String.eqb e ".." then
        match out with
        | o :: out' =>
            if String.eqb o ".." then clean_elems rooted (e :: out) elems
            else clean_elems rooted out' elems
        | [] => clean_elems rooted (if rooted then [] else [e]) elems
        end
      else clean_elems rooted (e :: out) elems
  end.

Definition filepath_clean (p : string) : string :=
  let elems := clean_elems (is_abs p) [] (split_byte "/" p) in
  if is_abs p then "/" +:+ join "/" elems
  else match elems with [] => "." | _ => join "/" elems end.

Definition filepath_join (a b : string) : string :=
  match filter (fun e => e <> "") [a; b] with
  | [] => ""
  | l => filepath_clean (join "/" l)
  end.

Definition filepath_dir (p : string) : string :=
  match rev (split_byte "/" p) with
  | _ :: ((_ :: _) as dirs) => filepath_clean (join "/" (rev dirs) +:+ "/")
  | _ => "."
  end.

Example filepath_ex :
  (filepath_clean "/a//b/../c/.", filepath_join "/a/b" "../c.yaml", filepath_dir "/a/b.yaml",
   filepath_dir "/b.yaml", filepath_clean "../x/..") = ("/a/c", "/a/c.yaml", "/a", "/", "..").
Proof. reflexivity. Qed.

(** ** Includes *)

Inductive include_error : Type :=
| IncludeCycle (stack : list string) (path : string)
| IncludeRead (path : string)
| IncludeParse (path : string)
| IncludeEmpty (path : string)
| IncludeNested (path : string) (e : include_error).

Definition is_include (n : node) : bool :=
  is_kind ScalarNode n && String.eqb (node_tag n) "!include".

(** The five fields resolveInclude overwrites.

    src/internal/blueprint/blueprint.go:1587-1591 resolveInclude *)
Definition replace_node (n included : node) : node :=
  let m := node_meta_of n in
  Node (mkMeta (Style (node_meta_of included)) (Anchor m) (HeadComment m) (LineComment m)
          (FootComment m) (Line m) (Column m))
    (node_kind included) (node_tag included) (node_value included) (node_alias n)
    (node_content included).

Section include.
Context `{Y : YamlLib}.
(** [os.ReadFile]. *)
Variable read_file : string -> option string.

(** [rec] is [processIncludes] on the tree of an included file.

    src/internal/blueprint/blueprint.go:1550-1594 resolveInclude *)
Definition resolveInclude (rec : node -> string -> list string -> option (result include_error node))
    (n : node) (baseDir : string) (stack : list string) : option (result include_error node) :=
  let includePath :=
    filepath_clean (if is_abs (node_value n) then node_value n
                    else filepath_join baseDir (node_value n)) in
  if bool_decide (includePath ∈ stack) then Some (Err (IncludeCycle stack includePath)) else
  match read_file includePath with
  | None => Some (Err (IncludeRead includePath))
  | Some raw =>
      match yaml_unmarshal raw with
      | None => Some (Err (IncludeParse includePath))
      | Some doc =>
          match node_content doc with
          | [] => Some (Err (IncludeEmpty includePath))
          | included :: _ =>
              match rec included (filepath_dir includePath) (stack ++ [includePath]) with
              | None => None
              | Some (Err e) => Some (Err (IncludeNested includePath e))
              | Some (Ok included) => Some (Ok (replace_node n included))
              end
          end
      end
  end.

(** The loops stop at the first error. *)
Definition and_then {A B} (m : option (result include_error A))
    (k : A -> option (result include_error B)) : option (result include_error B) :=
  match m with
  | None => None
  | Some (Err e) => Some (Err e)
  | Some (Ok a) => k a
  end.

(** The fuel bounds the nesting of files; [None] when it runs out. Trees are
    changed in place by the code, here the changed tree is returned.

    src/internal/blueprint/blueprint.go:1507-1548 processIncludes *)
Fixpoint processIncludes (fuel : nat) : node -> string -> list string -> option (result include_error node) :=
  fix walk (n : node) (baseDir : string) (stack : list string) {struct n} :=
    let child (c : node) :=
      match fuel with
      | 0%nat => None
      | S fuel => resolveInclude (processIncludes fuel) c baseDir stack
      end in
    match n with
    | Node m DocumentNode t v a content =>
        and_then
          ((fix children (l : list node) : option (result include_error (list node)) :=
              match l with
              | [] => Some (Ok [])
              | c :: l =>
                  and_then (walk c baseDir stack) (fun c =>
                  and_then (children l) (fun l => Some (Ok (c :: l))))
              end) content)
          (fun content => Some (Ok (Node m DocumentNode t v a content)))
    | Node m MappingNode t v a content =>
        and_then
          ((fix pairs (l : list node) : option (result include_error (list node)) :=
              match l with
              | k :: val :: l =>
                  and_then (if is_include val then child val else walk val baseDir stack) (fun val =>
                  and_then (pairs l) (fun l => Some (Ok (k :: val :: l))))
              | l => Some (Ok l)
              end) content)
          (fun content => Some (Ok (Node m MappingNode t v a content)))
    | Node m SequenceNode t v a content =>
        and_then
          ((fix items (l : list node) : option (result include_error (list node)) :=
              match l with
              | [] => Some (Ok [])
              | c :: l =>
                  and_then (if is_include c then child c else walk c baseDir stack) (fun c =>
                  and_then (items l) (fun l => Some (Ok (c :: l))))
              end) content)
          (fun content => Some (Ok (Node m SequenceNode t v a content)))
    | _ => Some (Ok n)
    end.
End include.

(** ** Notions the theorems use *)

(** No value or item of the tree is an inclusion. *)
Fixpoint no_includes (n : node) : Prop :=
  match n with
  | Node _ DocumentNode _ _ _ content =>
      (fix all (l : list node) : Prop := match l with [] => True | x :: l => no_includes x /\ all l end) content
  | Node _ SequenceNode _ _ _ content =>
      (fix all (l : list node) : Prop :=
         match l with [] => True | x :: l => (is_include x = false /\ no_includes x) /\ all l end) content
  | Node _ MappingNode _ _ _ content =>
      (fix all (l : list node) : Prop :=
         match l with
         | _ :: x :: l => (is_include x = false /\ no_includes x) /\ all l
         | _ => True
         end) content
  | _ => True
  end.

(** ** Lemmas *)

Section include_lemmas.
Context `{Y : YamlLib} (read_file : string -> option string).
(** Finitely many files can be read. *)
Variable files : gset string.
Hypothesis readable : forall p raw, read_file p = Some raw -> p ∈ files.
(** No file is itself one inclusion. *)
Definition plain_roots : Prop := forall p raw doc c l,
  read_file p = Some raw -> yaml_unmarshal raw = Some doc -> node_content doc = c :: l ->
  is_include c = false.

Definition clean_result (P : node -> Prop) (m : option (result include_error node)) : Prop :=
  exists r, m = Some r /\ match r with Ok n => plain_roots -> P n | Err _ => True end.

Lemma no_includes_replace n inc :
  is_include (replace_node n inc) = is_include inc /\
  (no_includes inc -> no_includes (replace_node n inc)).
Proof. destruct inc as [m [] t v a c]; by split. Qed.

Lemma processIncludes_shape fuel n dir stack n' :
  processIncludes read_file fuel n dir stack = Some (Ok n') -> is_include n' = is_include n.
Proof.
  destruct fuel, n as [m [] t v a c]; cbn [processIncludes];
    try (by intros [= <-]); match goal with |- context [and_then ?m _] => destruct m as [[?|?]|] end;
    by intros [= <-].
Qed.

Lemma resolveInclude_clean fuel n dir stack :
  (forall n dir stack, (size (files ∖ list_to_set stack) < fuel)%nat ->
     clean_result no_includes (processIncludes read_file fuel n dir stack)) ->
  (size (files ∖ list_to_set stack) < S fuel)%nat ->
  clean_result (fun n => is_include n = false /\ no_includes n)
    (resolveInclude read_file (processIncludes read_file fuel) n dir stack).
Proof.
  intros IH Hf. unfold resolveInclude. set (path := filepath_clean _).
  case_bool_decide as Hs; [by eexists|].
  destruct (read_file path) as [raw|] eqn:Er; [|by eexists].
  destruct (yaml_unmarshal raw) as [doc|] eqn:Ey; [|by eexists].
  destruct (node_content doc) as [|c l] eqn:Ec; [by eexists|].
  destruct (IH c (filepath_dir path) (stack ++ [path])) as (r & E & Hr).
  { assert (files ∖ list_to_set (stack ++ [path]) ⊂ files ∖ list_to_set stack) as Hsub.
    { apply readable in Er. rewrite list_to_set_app. split; [set_solver|].
      intros H. specialize (H path). set_solver. }
    apply subset_size in Hsub. lia. }
  rewrite E. destruct r as [inc|e]; [|by eexists]. eexists. split; [done|]. intros Hp.
  destruct (no_includes_replace n inc) as [-> H]. split; [|by auto].
  apply processIncludes_shape in E. rewrite E. by eapply Hp.
Qed.

Lemma and_then_list {A} (Q : list node -> Prop) (P : A -> Prop)
    (m : option (result include_error A)) (rest : option (result include_error (list node)))
    (cons' : A -> list node -> list node) :
  (exists r, m = Some r /\ match r with Ok a => plain_roots -> P a | Err _ => True end) ->
  (exists r, rest = Some r /\ match r with Ok l => plain_roots -> Q l | Err _ => True end) ->
  exists r, and_then m (fun a => and_then rest (fun l => Some (Ok (cons' a l)))) = Some r /\
    match r with Ok l' => exists a l, l' = cons' a l /\ (plain_roots -> P a /\ Q l) | Err _ => True end.
Proof.
  intros (r1 & -> & H1) (r2 & -> & H2). destruct r1 as [a|e]; cbn; [|by eexists].
  destruct r2 as [l|e]; cbn; [|by eexists]. eexists. split; [done|]. exists a, l. auto.
Qed.

Lemma processIncludes_clean fuel : forall n dir stack,
  (size (files ∖ list_to_set stack) < fuel)%nat ->
  clean_result no_includes (processIncludes read_file fuel n dir stack).
Proof.
  induction fuel as [|fuel IHf]; [lia|]. intros n dir stack Hf.
  induction n as [m k t v a c _ IHc] using node_ind'. rewrite Forall_forall in IHc.
  assert (forall x, x ∈ c ->
    clean_result (fun n => is_include n = false /\ no_includes n)
      (if is_include x then resolveInclude read_file (processIncludes read_file fuel) x dir stack
       else processIncludes read_file (S fuel) x dir stack)) as Hx.
  { intros x Hin. destruct (is_include x) eqn:E; [by apply resolveInclude_clean|].
    destruct (IHc x Hin) as (r & Hr & H). exists r. split; [done|]. destruct r as [n|]; [|done].
    intros Hp. split; [|by apply H]. by rewrite (processIncludes_shape _ _ _ _ _ Hr). }
  destruct k; try (by eexists); cbn [processIncludes].
  - match goal with |- clean_result _ (and_then (?f c) _) => set (children := f) end.
    assert (forall l, (forall x, x ∈ l -> x ∈ c) -> exists r, children l = Some r /\
      match r with Ok l => plain_roots -> no_includes (Node m DocumentNode t v a l) | Err _ => True end) as G.
    { induction l as [|x l IHl]; intros Hl; [by eexists|]. cbn [children]. fold children.
      destruct (and_then_list _ no_includes _ _ cons
        (IHc x ltac:(apply Hl; left)) (IHl ltac:(intros; apply Hl; by right))) as (r & E & H).
      exists r. split; [exact E|]. destruct r; [|done]. by destruct H as (? & ? & -> & ?). }
    destruct (G c ltac:(done)) as (r & -> & H). destruct r; by eexists.
  - match goal with |- clean_result _ (and_then (?f c) _) => set (items := f) end.
    assert (forall l, (forall x, x ∈ l -> x ∈ c) -> exists r, items l = Some r /\
      match r with Ok l => plain_roots -> no_includes (Node m SequenceNode t v a l) | Err _ => True end) as G.
    { induction l as [|x l IHl]; intros Hl; [by eexists|]. cbn [items]. fold items.
      destruct (and_then_list _ _ _ _ cons
        (Hx x ltac:(apply Hl; left)) (IHl ltac:(intros; apply Hl; by right))) as (r & E & H).
      exists r. split; [exact E|]. destruct r; [|done]. by destruct H as (? & ? & -> & ?). }
    destruct (G c ltac:(done)) as (r & -> & H). destruct r; by eexists.
  - match goal with |- clean_result _ (and_then (?f c) _) => set (pairs := f) end.
    assert (forall l, (forall x, x ∈ l -> x ∈ c) -> exists r, pairs l = Some r /\
      match r with Ok l => plain_roots -> no_includes (Node m MappingNode t v a l) | Err _ => True end) as G.
    { induction l as [|x|x y l IHl] using pair_ind; intros Hl; [by eexists..|]. cbn [pairs]. fold pairs.
      destruct (and_then_list _ _ _ _ (fun y l => x :: y :: l)
        (Hx y ltac:(apply Hl; set_solver)) (IHl ltac:(intros; apply Hl; set_solver))) as (r & E & H).
      exists r. split; [exact E|]. destruct r; [|done]. by destruct H as (? & ? & -> & ?). }
    destruct (G c ltac:(done)) as (r & -> & H). destruct r; by eexists.
Qed.
End include_lemmas.

(** ** The theorems *)

(** C33. Resolving inclusions terminates: when finitely many files can be read,
    the cycle check bounds the nesting by their number, whatever they include.
    And when it succeeds no inclusion is left, provided no file consists of
    nothing but an inclusion. *)
Theorem processIncludes_total `{YamlLib} read_file (files : gset string) n dir stack :
  (forall p raw, read_file p = Some raw -> p ∈ files) ->
  exists r, processIncludes read_file (S (size files)) n dir stack = Some r /\
    match r with
    | Ok n' => plain_roots read_file -> no_includes n'
    | Err _ => True
    end.
Proof.
  intros Hr. apply (processIncludes_clean read_file files Hr).
  assert (size (files ∖ list_to_set stack) <= size files)%nat; [|lia].
  apply subseteq_size. set_solver.
Qed.

Module IncludeSample.
Definition file (p : string) : option string :=
  if String.eqb p "/bp/apps.yaml" then Some "web: on" else None.
Definition doc : node :=
  mapping [scalar "!!str" "apps"; scalar "!include" "apps.yaml"].
(** A file that is one inclusion of another. *)
Definition lib : YamlLib := {|
  yaml_unmarshal s := Some (Node no_meta DocumentNode "" "" None
    [if String.eqb s "indirect" then scalar "!include" "apps.yaml" else mapping [scalar "!!str" s; scalar "!!str" s]]);
  yaml_decode_map _ := None; yaml_decode_list _ := None; yaml_decode _ := None;
  yaml_encode_list _ := None; yaml_short_tag := node_tag |}.
Definition indirect (p : string) : option string :=
  if String.eqb p "/bp/apps.yaml" then Some "apps"
  else if String.eqb p "/bp/all.yaml" then Some "indirect" else None.
End IncludeSample.

Lemma processIncludes_total_witness :
  let _ := SampleYaml.lib in
  exists n', processIncludes IncludeSample.file 2 IncludeSample.doc "/bp" ["/bp/main.yaml"] = Some (Ok n') /\
    no_includes n'.
Proof.
  intros L.
  destruct (processIncludes_total IncludeSample.file {[ "/bp/apps.yaml" ]} IncludeSample.doc "/bp" ["/bp/main.yaml"])
    as (r & Hr & H).
  { intros p raw. unfold IncludeSample.file. destruct (String.eqb_spec p "/bp/apps.yaml"); [set_solver|done]. }
  rewrite size_singleton in Hr. destruct r as [n'|e]; [|vm_compute in Hr; discriminate Hr].
  exists n'. split; [exact Hr|]. apply H. intros p raw doc c l. unfold IncludeSample.file.
  destruct (String.eqb p "/bp/apps.yaml"); [|done]. by intros [= <-] [= <-] [= <- <-].
Defined.

(** A file whose whole content is an inclusion is not followed: its reader
    gets the inner inclusion as a plain scalar, and the load goes on. *)
Theorem include_of_an_include_is_left :
  let _ := IncludeSample.lib in
  exists n', processIncludes IncludeSample.indirect 3
               (mapping [scalar "!!str" "apps"; scalar "!include" "all.yaml"]) "/bp" ["/bp/main.yaml"]
             = Some (Ok n') /\
    n' = mapping [scalar "!!str" "apps"; scalar "!include" "apps.yaml"].
Proof. eexists. split; vm_compute; reflexivity. Qed.
