(* ===== verification/Manager.v ===== *)
(** * The blueprint manager

    Loading blueprints from files and from the org store, and serving them
    (internal/blueprint/blueprint.go, orgstore.go). Evaluation of a
    blueprint's expressions is the CEL library's and stays a parameter. *)

From Stdlib Require Import Ascii.
From S2P Require Import Prelude GoStrings Yaml Merge Sha256 Revision Inherit Cel Include.

(** A row of the org store, [models.OrgBlueprint]. *)
Record OrgBlueprint : Type := mkOrgBlueprint {
  ob_Name : string;
  ob_Org : string;
  ob_Description : string;
  ob_IsTemplate : bool;
  ob_YAML : string;
  ob_CreatedAt : Z;
  ob_UpdatedAt : Z;
}.

(** src/internal/blueprint/orgstore.go:14-30 OrgBlueprintStore *)
Record OrgBlueprintStore : Type := mkOrgStore {
  ListAllBlueprints : option (list OrgBlueprint);
  LookupBlueprint : string -> string -> option (option OrgBlueprint);
}.

Inductive org_error : Type :=
| OrgInvalidYAML (name org : string)
| OrgNotMapping (name org : string)
| OrgNoTemplate (template name : string)
| OrgMerge (template name : string) (e : merge_error)
| OrgStoreFailed (org name : string)
| OrgListFailed
| OrgDuplicate (name org file : string).

(** Why loading files fails. *)
Inductive file_error : Type :=
| WalkFailed (path : string)
| LoadYAMLFailed (path : string)
| AbsPathFailed (path : string)
| IncludeFailed (path : string) (e : include_error)
| UnsupportedYAML (path : string) (k : kind)
| DecodeMappingFailed (path : string)
| ChildNotAccessible (key path : string)
| ExpectedSequence (path : string) (k : kind)
| DuplicateBlueprint (name file : string).

Inductive load_error : Type :=
| LoadFiles (e : file_error)
| LoadOrgs (e : org_error)
| LoadInheritance (e : inherit_error)
| LoadValidation (errs : list string).

(** [strings.Join(strings.Fields(s), " ")]. *)
Definition one_line (s : string) : string := join " " (fields s).

Definition str_field (key : string) (data : list (string * yvalue)) : string :=
  default "" (as_string (yfield key data)).
Definition bool_field (key : string) (data : list (string * yvalue)) : bool :=
  default false (as_bool (yfield key data)).

Section manager.
Context `{Y : YamlLib}.
Variable find_strategy : string -> string -> option strategy.
Variable orgStore : option OrgBlueprintStore.

(** ** Org blueprints *)

(** src/internal/blueprint/orgstore.go:32-63 ParseBlueprintMeta *)
Definition ParseBlueprintMeta (data : string) : option (string * string * string * bool) :=
  match yaml_unmarshal data with
  | None => None
  | Some doc =>
      let n := match doc with Node _ DocumentNode _ _ _ (c :: _) => c | _ => doc end in
      match yaml_decode_map n with
      | None => None
      | Some bpData =>
          let bpData := default bpData (as_map (yfield "blueprint" bpData)) in
          Some (str_field "name" bpData, one_line (str_field "description" bpData),
                str_field "template" bpData, bool_field "isTemplate" bpData)
      end
  end.

(** src/internal/blueprint/orgstore.go:72-87 resolveTemplateParent *)
Definition resolveTemplateParent (s : store) (org name : string) : option RawBlueprint :=
  if String.eqb org "" then s !! name
  else match s !! orgBlueprintKey org name with
       | Some p => Some p
       | None => s !! name
       end.

(** The content of a row, its expressions restored.

    src/internal/blueprint/orgstore.go:97-106 buildOrgRawBlueprint *)
Definition org_content (ob : OrgBlueprint) : result org_error node :=
  match yaml_unmarshal (ob_YAML ob) with
  | None => Err (OrgInvalidYAML (ob_Name ob) (ob_Org ob))
  | Some doc =>
      match resolveValidationNode doc with
      | None => Err (OrgNotMapping (ob_Name ob) (ob_Org ob))
      | Some own => Ok (restoreCELNodes own)
      end
  end.

(** src/internal/blueprint/orgstore.go:108-112 buildOrgRawBlueprint *)
Definition org_template (own : node) : string :=
  str_field "template" (default [] (yaml_decode_map own)).

(** src/internal/blueprint/orgstore.go:114-125 buildOrgRawBlueprint *)
Definition org_raw (ob : OrgBlueprint) (own n : node) (ownNode : option node)
    (chain : list string) (rev : string) : RawBlueprint :=
  {| Name := ob_Name ob; Description := ob_Description ob; Template := org_template own;
     IsTemplate := ob_IsTemplate ob; SourceFile := "db:" +:+ ob_Org ob +:+ "/" +:+ ob_Name ob;
     BpNode := n; OwnNode := ownNode; InheritanceChain := chain; BpRevision := rev;
     CreatedAt := ob_CreatedAt ob; UpdatedAt := ob_UpdatedAt ob; Org := ob_Org ob |}.

(** src/internal/blueprint/orgstore.go:89-147 buildOrgRawBlueprint *)
Definition buildOrgRawBlueprint (s : store) (ob : OrgBlueprint) : result org_error RawBlueprint :=
  own ← org_content ob;
  let template := org_template own in
  if String.eqb template "" then
    Ok (org_raw ob own own (Some own) [ob_Name ob] (computeRevision (Some own)))
  else
    match resolveTemplateParent s (ob_Org ob) template with
    | None => Err (OrgNoTemplate template (ob_Name ob))
    | Some parent =>
        match mergeYAMLNodes find_strategy (BpNode parent) own with
        | Err e => Err (OrgMerge template (ob_Name ob) e)
        | Ok merged =>
            Ok (org_raw ob own merged (Some own) (InheritanceChain parent ++ [ob_Name ob])
                  (computeRevision (Some merged)))
        end
    end.

(** src/internal/blueprint/orgstore.go:149-170 lookupOrgFromStore *)
Definition lookupOrgFromStore (s : store) (org name : string)
    : result org_error (option RawBlueprint) :=
  match orgStore with
  | None => Ok None
  | Some os =>
      if String.eqb org "" then Ok None else
      match LookupBlueprint os org name with
      | None => Err (OrgStoreFailed org name)
      | Some None => Ok None
      | Some (Some ob) => Some <$> buildOrgRawBlueprint s ob
      end
  end.

(** One row of the loop.

    src/internal/blueprint/orgstore.go:188-225 loadOrgBlueprints *)
Definition load_org_row (s : store) (ob : OrgBlueprint) : result org_error store :=
  n ← org_content ob;
  let key := orgBlueprintKey (ob_Org ob) (ob_Name ob) in
  match s !! key with
  | Some existing => Err (OrgDuplicate (ob_Name ob) (ob_Org ob) (SourceFile existing))
  | None => Ok (<[key := org_raw ob n n None [] ""]> s)
  end.

(** src/internal/blueprint/orgstore.go:172-228 loadOrgBlueprints *)
Definition loadOrgBlueprints (s : store) : result org_error store :=
  match orgStore with
  | None => Ok s
  | Some os =>
      match ListAllBlueprints os with
      | None => Err OrgListFailed
      | Some rows => res_foldl load_org_row s rows
      end
  end.
End manager.

(** ** Blueprint files *)

(** A directory as [filepath.WalkDir] sees it: the entries of a directory in
    lexical order, with the modification time of a file when it can be read. *)
#[local] Unset Elimination Schemes.
Inductive entry : Type :=
| DirEntry (name : string) (children : list entry)
| FileEntry (name : string) (modTime : option Z)
| UnreadableEntry (name : string).
#[local] Set Elimination Schemes.

(** [filepath.Ext]: the text from the last dot of the last element. *)
Definition filepath_ext (p : string) : string :=
  let base := default "" (last (split_byte "/" p)) in
  match split_byte "." base with
  | _ :: (_ :: _) as parts => "." +:+ default "" (last parts)
  | _ => ""
  end.

(** src/internal/blueprint/blueprint.go:1605-1609 isYAMLFile *)
Definition isYAMLFile (filename : string) : bool :=
  String.eqb (filepath_ext filename) ".yaml" || String.eqb (filepath_ext filename) ".yml".

(** The blueprints loaded so far and the number of random names drawn. *)
Definition loading : Type := store * nat.

Section files.
Context `{Y : YamlLib}.
(** [generateRandomName("bp")], call by call. *)
Variable randomName : nat -> string.
(** [bm.processor.LoadFile], [filepath.Abs] and [os.ReadFile]. *)
Variable load_file : string -> option node.
Variable abs_path : string -> option string.
Variable read_file : string -> option string.
(** As many nested inclusions as files can be read. *)
Variable include_fuel : nat.

(** The blueprint a node defines, under the name [name].

    src/internal/blueprint/blueprint.go:1392-1416 extractSingleRawBlueprint *)
Definition file_raw (name path : string) (n : node) (bpData : list (string * yvalue)) : RawBlueprint :=
  {| Name := name; Description := one_line (str_field "description" bpData);
     Template := str_field "template" bpData; IsTemplate := bool_field "isTemplate" bpData;
     SourceFile := path; BpNode := n; OwnNode := None; InheritanceChain := []; BpRevision := "";
     CreatedAt := 0; UpdatedAt := 0; Org := "" |}.

(** src/internal/blueprint/blueprint.go:1380-1419 extractSingleRawBlueprint *)
Definition extractSingleRawBlueprint (st : loading) (n : node) (path : string)
    : result file_error loading :=
  let '(s, calls) := st in
  let bpData := default [] (yaml_decode_map n) in
  let name := default (randomName calls) (as_string (yfield "name" bpData)) in
  match s !! name with
  | Some existing => Err (DuplicateBlueprint name (SourceFile existing))
  | None => Ok (<[name := file_raw name path n bpData]> s, S calls)
  end.

(** The loop does for each item what [extractSingleRawBlueprint] does.

    src/internal/blueprint/blueprint.go:1421-1466 extractMultipleRawBlueprints *)
Definition extractMultipleRawBlueprints (st : loading) (n : node) (path : string)
    : result file_error loading :=
  if negb (is_kind SequenceNode n) then Err (ExpectedSequence path (node_kind n))
  else res_foldl (fun st child => extractSingleRawBlueprint st child path) st (node_content n).

(** src/internal/blueprint/blueprint.go:1336-1359 extractFromMapping *)
Definition extractFromMapping (st : loading) (root : node) (path : string)
    : result file_error loading :=
  match yaml_decode_map root with
  | None => Err (DecodeMappingFailed path)
  | Some data =>
      match yfield "blueprint" data, yfield "blueprints" data with
      | YNil, YNil => extractSingleRawBlueprint st root path
      | YNil, _ =>
          match findChildNode root "blueprints" with
          | None => Err (ChildNotAccessible "blueprints" path)
          | Some n => extractMultipleRawBlueprints st n path
          end
      | _, _ =>
          match findChildNode root "blueprint" with
          | None => Err (ChildNotAccessible "blueprint" path)
          | Some n => extractSingleRawBlueprint st n path
          end
      end
  end.

(** src/internal/blueprint/blueprint.go:1375-1378 extractFromSequence *)
Definition extractFromSequence (st : loading) (root : node) (path : string)
    : result file_error loading := extractMultipleRawBlueprints st root path.

(** src/internal/blueprint/blueprint.go:1320-1334 extractRawBlueprints *)
Fixpoint extractRawBlueprints (st : loading) (root : node) (path : string)
    : result file_error loading :=
  match root with
  | Node _ DocumentNode _ _ _ (c :: _) => extractRawBlueprints st c path
  | Node _ MappingNode _ _ _ _ => extractFromMapping st root path
  | Node _ SequenceNode _ _ _ _ => extractFromSequence st root path
  | Node _ k _ _ _ _ => Err (UnsupportedYAML path k)
  end.

(** src/internal/blueprint/blueprint.go:1304-1315 loadRawBlueprints *)
Definition stamp (path : string) (modTime : option Z) (s : store) : store :=
  match modTime with
  | None => s
  | Some mt =>
      (fun bp => if String.eqb (SourceFile bp) path && Z.eqb (CreatedAt bp) 0
                 then {| Name := Name bp; Description := Description bp; Template := Template bp;
                         IsTemplate := IsTemplate bp; SourceFile := SourceFile bp;
                         BpNode := BpNode bp; OwnNode := OwnNode bp;
                         InheritanceChain := InheritanceChain bp; BpRevision := BpRevision bp;
                         CreatedAt := mt; UpdatedAt := mt; Org := Org bp |}
                 else bp) <$> s
  end.

(** One YAML file.

    src/internal/blueprint/blueprint.go:1287-1316 loadRawBlueprints *)
Definition load_yaml_file (st : loading) (path : string) (modTime : option Z)
    : result file_error loading :=
  match load_file path with
  | None => Err (LoadYAMLFailed path)
  | Some root =>
      match abs_path path with
      | None => Err (AbsPathFailed path)
      | Some absPath =>
          match processIncludes read_file include_fuel root (filepath_dir absPath) [absPath] with
          | None => Err (IncludeFailed path (IncludeCycle [] path))
          | Some (Err e) => Err (IncludeFailed path e)
          | Some (Ok root) =>
              st ← extractRawBlueprints st root path;
              Ok (stamp path modTime st.1, st.2)
          end
      end
  end.

(** The walk over the tree: names starting with ".." are skipped, directories
    with all they contain.

    src/internal/blueprint/blueprint.go:1265-1318 loadRawBlueprints *)
Fixpoint walk_entries (st : loading) (path : string) (d : entry) : result file_error loading :=
  match d with
  | UnreadableEntry _ => Err (WalkFailed path)
  | DirEntry name children =>
      if has_prefix name ".." then Ok st
      else (fix go (st : loading) (l : list entry) : result file_error loading :=
              match l with
              | [] => Ok st
              | c :: l =>
                  let name := match c with
                              | DirEntry n _ | FileEntry n _ | UnreadableEntry n => n
                              end in
                  match walk_entries st (filepath_join path name) c with
                  | Ok st => go st l
                  | Err e => Err e
                  end
              end) st children
  | FileEntry name modTime =>
      if has_prefix name ".." then Ok st
      else if negb (isYAMLFile path) then Ok st
      else load_yaml_file st path modTime
  end.

(** src/internal/blueprint/blueprint.go:1265-1318 loadRawBlueprints *)
Definition loadRawBlueprints (dir : string) (root : entry) : result file_error store :=
  fst <$> walk_entries (∅, 0%nat) dir root.
End files.

(** ** Loading *)

Section load.
Context `{Y : YamlLib}.
Variable find_strategy : string -> string -> option strategy.
Variable orgStore : option OrgBlueprintStore.
(** What [loadRawBlueprints] returns for the watched directory. *)
Variable files : result file_error store.
(** The problems [validateAllBlueprints] collects for one blueprint. *)
Variable blueprint_errors : RawBlueprint -> list string.
(** The order in which Go enumerates a map's keys. *)
Variable enumerate : store -> list string.

(** src/internal/blueprint/blueprint.go:238-295 validateAllBlueprints *)
Definition validateAllBlueprints (s : store) : list string :=
  flat_map (fun k => match s !! k with Some bp => blueprint_errors bp | None => [] end) (enumerate s).

(** The values [bm.rawBlueprints] takes during a load, in order, and the error
    returned; the last value is the one that stays. The case that resolving
    runs out of fuel does not occur.

    src/internal/blueprint/blueprint.go:197-236 loadAndValidateBlueprints *)
Definition loadAndValidateBlueprints (original : store) : list store * option load_error :=
  match files with
  | Err e => ([∅; original], Some (LoadFiles e))
  | Ok s1 =>
      match loadOrgBlueprints orgStore s1 with
      | Err e => ([∅; s1; original], Some (LoadOrgs e))
      | Ok s2 =>
          match resolveInheritance find_strategy (enumerate s2) s2 with
          | None => ([∅; s1; s2; original], Some (LoadInheritance (CircularTemplate "")))
          | Some (Err e) => ([∅; s1; s2; original], Some (LoadInheritance e))
          | Some (Ok s3) =>
              match validateAllBlueprints s3 with
              | [] => ([∅; s1; s2; s3], None)
              | errs => ([∅; s1; s2; s3; original], Some (LoadValidation errs))
              end
          end
      end
  end.
End load.

(** ** Serving *)

Inductive get_error : Type :=
| GetOrg (e : org_error)
| GetNotFound (name : string)
| GetEvaluate (name : string) (msg : string)
| DecodeRawFailed
| GetAllFailed (name : string) (e : get_error)
| ListOrgsFailed
| NoUser
| NoUserBlueprints (username : string)
| NoAccessibleBlueprint (username : string).

(** [models.BlueprintSummary]. *)
Record BlueprintSummary : Type := mkSummary {
  bs_Name : string;
  bs_Description : string;
  bs_IsTemplate : bool;
  bs_IsGlobal : bool;
  bs_Org : string;
  bs_Template : string;
  bs_CreatedAt : Z;
  bs_UpdatedAt : Z;
  bs_Revision : string;
}.

(** The fields of [models.User] the manager reads. *)
Record User : Type := mkUser {
  Username : string;
  Organization : string;
  Blueprints : list string;
}.

Section serve.
Context `{Y : YamlLib}.
Variable find_strategy : string -> string -> option strategy.
Variable orgStore : option OrgBlueprintStore.
(** Evaluating a blueprint's CEL expressions in the caller's scope. *)
Context {Blueprint : Type}.
Variable evaluate : RawBlueprint -> string -> result string Blueprint.

#[local] Abbreviation lookupOrg := (lookupOrgFromStore find_strategy orgStore).

(** The blueprint a caller of organization [org] means by [name].

    src/internal/blueprint/blueprint.go:921-933 GetBlueprint *)
Definition find_blueprint (s : store) (org name : string) : result get_error RawBlueprint :=
  match lookupOrg s org name with
  | Err e => Err (GetOrg e)
  | Ok (Some bp) => Ok bp
  | Ok None =>
      match s !! name with
      | Some fileBp => if String.eqb (Org fileBp) "" then Ok fileBp else Err (GetNotFound name)
      | None => Err (GetNotFound name)
      end
  end.

(** [org] is the organization of the scope's user, "" without one.

    src/internal/blueprint/blueprint.go:910-936 GetBlueprint *)
Definition GetBlueprint (s : store) (org name : string) : result get_error Blueprint :=
  rawBp ← find_blueprint s org name;
  res_wrap (GetEvaluate name) (evaluate rawBp name).

(** A failed lookup in the store falls back to the cache here.

    src/internal/blueprint/blueprint.go:981-990 GetBlueprintChain *)
Definition find_cached (s : store) (org name : string) : option RawBlueprint :=
  match lookupOrg s org name with
  | Ok (Some bp) => Some bp
  | _ => s !! name
  end.

(** src/internal/blueprint/blueprint.go:975-992 GetBlueprintChain *)
Definition GetBlueprintChain (s : store) (org name : string) : list string :=
  match find_cached s org name with Some bp => InheritanceChain bp | None => [] end.

(** src/internal/blueprint/blueprint.go:994-1009 GetBlueprintRevision *)
Definition GetBlueprintRevision (s : store) (org name : string) : string :=
  match find_cached s org name with Some bp => BpRevision bp | None => "" end.

(** src/internal/blueprint/blueprint.go:1011-1020 OrgBlueprintRevision *)
Definition OrgBlueprintRevision (s : store) (ob : OrgBlueprint) : result org_error string :=
  BpRevision <$> buildOrgRawBlueprint find_strategy s ob.

(** src/internal/blueprint/blueprint.go:1022-1041 GetBlueprintTemplate *)
Definition GetBlueprintTemplate (s : store) (org name : string) : result get_error string :=
  match lookupOrg s org name with
  | Err e => Err (GetOrg e)
  | Ok (Some bp) => Ok (Template bp)
  | Ok None =>
      match s !! name with
      | Some bp => Ok (Template bp)
      | None => Err (GetNotFound name)
      end
  end.

(** src/internal/blueprint/blueprint.go:1057-1066 GetBlueprintsSummary *)
Definition file_summary (bp : RawBlueprint) : BlueprintSummary :=
  {| bs_Name := Name bp; bs_Description := Description bp; bs_IsTemplate := IsTemplate bp;
     bs_IsGlobal := true; bs_Org := ""; bs_Template := Template bp;
     bs_CreatedAt := CreatedAt bp; bs_UpdatedAt := UpdatedAt bp; bs_Revision := BpRevision bp |}.

(** src/internal/blueprint/blueprint.go:1078-1103 GetBlueprintsSummary *)
Definition org_summary (s : store) (ob : OrgBlueprint) : BlueprintSummary :=
  let '(template, isTemplate) := match ParseBlueprintMeta (ob_YAML ob) with
                                 | Some (_, _, template, isTemplate) => (template, isTemplate)
                                 | None => ("", ob_IsTemplate ob)
                                 end in
  {| bs_Name := ob_Name ob; bs_Description := ob_Description ob; bs_IsTemplate := isTemplate;
     bs_IsGlobal := false; bs_Org := ob_Org ob; bs_Template := template;
     bs_CreatedAt := ob_CreatedAt ob; bs_UpdatedAt := ob_UpdatedAt ob;
     bs_Revision := if OrgBlueprintRevision s ob is Ok r then r else "" |}.

(** [order] enumerates the cache.

    src/internal/blueprint/blueprint.go:1043-1105 GetBlueprintsSummary *)
Definition GetBlueprintsSummary (s : store) (order : list (string * RawBlueprint))
    : result get_error (list BlueprintSummary) :=
  let summaries := file_summary ∘ snd <$> filter (fun kb => Org kb.2 = "") order in
  match orgStore with
  | None => Ok summaries
  | Some os =>
      match ListAllBlueprints os with
      | None => Err ListOrgsFailed
      | Some rows => Ok (summaries ++ (org_summary s <$> rows))
      end
  end.

(** src/internal/blueprint/blueprint.go:1172-1183 decodeRawNode *)
Definition decodeRawNode (n : node) : result get_error yvalue :=
  match yaml_decode (cloneAndProcessCELNodes n) with
  | Some v => Ok v
  | None => Err DecodeRawFailed
  end.

(** src/internal/blueprint/blueprint.go:1107-1121 GetRawBlueprint *)
Definition GetRawBlueprint (s : store) (name : string) : result get_error yvalue :=
  match s !! name with
  | None => Err (GetNotFound name)
  | Some bp => decodeRawNode (BpNode bp)
  end.

(** [bp.OwnNode] is set once a load has finished; decoding a nil node, an error
    here, is a panic in the code.

    src/internal/blueprint/blueprint.go:1123-1138 GetRawBlueprintOwn *)
Definition GetRawBlueprintOwn (s : store) (name : string) : result get_error yvalue :=
  match s !! name with
  | None => Err (GetNotFound name)
  | Some bp => match OwnNode bp with Some n => decodeRawNode n | None => Err DecodeRawFailed end
  end.

(** src/internal/blueprint/blueprint.go:1140-1170 GetRawBlueprintScoped *)
Definition GetRawBlueprintScoped (s : store) (org name : string)
    : result get_error (yvalue * yvalue * string * string) :=
  rawBp ← find_blueprint s org name;
  merged ← decodeRawNode (BpNode rawBp);
  own ← match OwnNode rawBp with Some n => decodeRawNode n | None => Err DecodeRawFailed end;
  Ok (merged, own, Template rawBp, BpRevision rawBp).

(** src/internal/blueprint/blueprint.go:1185-1199 ListBlueprintNames *)
Definition ListBlueprintNames (order : list (string * RawBlueprint)) : list string :=
  (filter (fun kb => Org kb.2 = "") order).*1.

(** src/internal/blueprint/blueprint.go:1201-1212 HasGlobalBlueprint *)
Definition HasGlobalBlueprint (s : store) (name : string) : bool :=
  match s !! name with Some bp => String.eqb (Org bp) "" | None => false end.

(** [hasBlueprint] is the user's [HasBlueprint].

    src/internal/blueprint/blueprint.go:1214-1242 GetDefaultUserBlueprint *)
Definition GetDefaultUserBlueprint (s : store) (order : list string) (user : option User)
    (hasBlueprint : string -> bool) : result get_error string :=
  match user with
  | None => Err NoUser
  | Some u =>
      match Blueprints u with
      | [] => Err (NoUserBlueprints (Username u))
      | _ =>
          match find (fun bp => hasBlueprint bp &&
                                negb (match s !! bp with Some b => IsTemplate b | None => false end))
                     (sort_by (fun n => n) order) with
          | Some bp => Ok bp
          | None => Err (NoAccessibleBlueprint (Username u))
          end
      end
  end.

(** src/internal/blueprint/blueprint.go:1244-1263 GetAllBlueprints *)
Definition GetAllBlueprints (s : store) (order : list string) (org : string)
    : result get_error (gmap string Blueprint) :=
  res_foldl (fun acc name =>
    match GetBlueprint s org name with
    | Ok bp => Ok (<[name := bp]> acc)
    | Err e => Err (GetAllFailed name e)
    end) ∅ order.
End serve.

(** ** Lemmas *)

Section load_lemmas.
Context `{Y : YamlLib} (fs : string -> string -> option strategy).

Definition ob_key (ob : OrgBlueprint) : string := orgBlueprintKey (ob_Org ob) (ob_Name ob).

Lemma load_org_rows s rows s2 :
  res_foldl load_org_row s rows = Ok s2 ->
  (forall k bp, s !! k = Some bp -> s2 !! k = Some bp) /\
  (forall ob, ob ∈ rows -> exists n, org_content ob = Ok n /\
                                     s2 !! ob_key ob = Some (org_raw ob n n None [] "")) /\
  (fresh s -> fresh s2).
Proof.
  revert s. induction rows as [|ob rows IH]; intros s; cbn [res_foldl].
  { intros [= <-]. split_and!; [done|by intros ob ?%not_elem_of_nil|done]. }
  unfold load_org_row at 1. destruct (org_content ob) as [n|] eqn:En; [|done]. cbn.
  fold (ob_key ob). destruct (s !! ob_key ob) eqn:Ek; [done|].
  intros (H1 & H2 & H3)%IH. split_and!.
  - intros k bp Hk. apply H1. rewrite lookup_insert_ne; [done|congruence].
  - intros ob' [->|Hin]%elem_of_cons; [|by apply H2].
    exists n. split; [done|]. apply H1. by rewrite lookup_insert_eq.
  - intros Hf. apply H3. intros k bp [[<- <-]|[_ Hk]]%lookup_insert_Some; [done|by eapply Hf].
Qed.

Lemma resolveInheritance_result s order m :
  order ≡ₚ (map_to_list s).*1 -> resolveInheritance fs order s = Some (Ok m) ->
  (forall k, k ∈ order <-> is_Some (s !! k)) /\
  (forall k, m !! k = None <-> s !! k = None) /\
  (forall k bp, m !! k = Some bp -> exists l, lineage s k l /\ resolve_lineage fs l = Ok bp).
Proof.
  intros Ho Hm. assert (forall k, k ∈ order <-> is_Some (s !! k)) as Hk.
  { intros k. rewrite Ho, list_elem_of_fmap. split.
    - intros ([k' bp] & -> & Hin%elem_of_map_to_list). by exists bp.
    - intros [bp Hin]. exists (k, bp). split; [done|]. by apply elem_of_map_to_list. }
  assert (NoDup order) as Hnd by (rewrite Ho; apply NoDup_fst_map_to_list).
  destruct (resolve_all_outcome fs s order ∅ s (touched_refl s) Hnd) as (r & E & R); [done|].
  unfold resolveInheritance in Hm. rewrite E in Hm. injection Hm as ->. destruct R as [R1 R2].
  split; [done|]. split.
  - intros k. destruct (decide (k ∈ order)) as [Hin|Hin].
    + destruct (R1 k Hin) as (l & bp & -> & _). apply Hk in Hin as [b ->]. by split.
    + rewrite R2 by done. rewrite lookup_empty. rewrite Hk in Hin.
      destruct (s !! k); [|done]. destruct Hin. by eexists.
  - intros k bp Hbp. destruct (decide (k ∈ order)) as [Hin|Hin].
    + destruct (R1 k Hin) as (l & b & Hb & ? & ?). exists l. by simplify_eq.
    + by rewrite R2, lookup_empty in Hbp.
Qed.

(** Resolving gives the blueprints, or the outcome of one that is there. *)
Lemma resolve_order_outcome s order : order ≡ₚ (map_to_list s).*1 ->
  exists r, resolveInheritance fs order s = Some r /\
    match r with Ok _ => True | Err e => exists k, is_Some (s !! k) /\ outcome fs s k (Err e) end.
Proof.
  intros Ho. assert (NoDup order) as Hnd by (rewrite Ho; apply NoDup_fst_map_to_list).
  destruct (resolve_all_outcome fs s order ∅ s (touched_refl s) Hnd) as (r & E & R); [done|].
  exists r. split; [exact E|]. destruct r as [m|e]; [done|]. destruct R as (k & Hk & Hout). exists k. split; [|done].
  rewrite Ho, list_elem_of_fmap in Hk. destruct Hk as ([k' bp] & -> & Hin%elem_of_map_to_list). by exists bp.
Qed.

(** After a load, the parent a request looks up is the load's resolved parent. *)
Lemma template_parent_after_load s order m bp :
  order ≡ₚ (map_to_list s).*1 -> resolveInheritance fs order s = Some (Ok m) ->
  resolveTemplateParent m (Org bp) (Template bp) = m !! parent_key s bp.
Proof.
  intros Ho Hm. destruct (resolveInheritance_result s order m Ho Hm) as (_ & Hd & _).
  unfold resolveTemplateParent, parent_key. destruct (String.eqb (Org bp) ""); [done|].
  pose proof (Hd (orgBlueprintKey (Org bp) (Template bp))) as E.
  destruct (m !! _) eqn:E1, (s !! orgBlueprintKey _ _) eqn:E2; try done; naive_solver.
Qed.
End load_lemmas.

Section load_theorems.
Context `{Y : YamlLib} (fs : string -> string -> option strategy).
Context (orgStore : option OrgBlueprintStore) (files : result file_error store).
Context (blueprint_errors : RawBlueprint -> list string) (enumerate : store -> list string).
Hypothesis enumerate_keys : forall s, enumerate s ≡ₚ (map_to_list s).*1.

#[local] Abbreviation load := (loadAndValidateBlueprints fs orgStore files blueprint_errors enumerate).

Lemma validate_nil s : validateAllBlueprints blueprint_errors enumerate s = [] ->
  forall k bp, s !! k = Some bp -> blueprint_errors bp = [].
Proof.
  unfold validateAllBlueprints. intros H k bp Hk.
  assert (k ∈ enumerate s) as Hin.
  { rewrite enumerate_keys, list_elem_of_fmap. exists (k, bp). by rewrite elem_of_map_to_list. }
  revert H Hin. generalize (enumerate s). induction l as [|x l IH]; cbn; [by intros _ ?%not_elem_of_nil|].
  intros [H1 H2]%app_nil [->|Hin]%elem_of_cons; [by rewrite Hk in H1|by apply IH].
Qed.

Lemma elem_of_validate s err :
  err ∈ validateAllBlueprints blueprint_errors enumerate s <-> exists k bp, s !! k = Some bp /\ err ∈ blueprint_errors bp.
Proof.
  unfold validateAllBlueprints. rewrite list_elem_of_In, in_flat_map. split.
  - intros (k & _ & H). destruct (s !! k) as [bp|] eqn:Hk; [|done]. exists k, bp. by rewrite list_elem_of_In.
  - intros (k & bp & Hk & H). exists k. rewrite Hk, <- !list_elem_of_In. split; [|done].
    rewrite enumerate_keys, list_elem_of_fmap. exists (k, bp). by rewrite elem_of_map_to_list.
Qed.

(** A load that succeeds went through all its stages. *)
Lemma load_success original pub :
  load original = (pub, None) ->
  exists s1 s2 s3, files = Ok s1 /\ loadOrgBlueprints orgStore s1 = Ok s2 /\
    resolveInheritance fs (enumerate s2) s2 = Some (Ok s3) /\
    validateAllBlueprints blueprint_errors enumerate s3 = [] /\ pub = [∅; s1; s2; s3].
Proof.
  unfold loadAndValidateBlueprints. destruct files as [s1|]; [|done].
  destruct (loadOrgBlueprints _ _) as [s2|] eqn:E2; [|done].
  destruct (resolveInheritance _ _ _) as [[s3|]|] eqn:E3; try done.
  destruct (validateAllBlueprints _ _ _) eqn:E; [|done].
  intros [= <-]. by exists s1, s2, s3.
Qed.
End load_theorems.

(** *** What a load reads *)

(** The rows of the store of organizations, none without one. *)
Definition org_rows (orgStore : option OrgBlueprintStore) : option (list OrgBlueprint) :=
  match orgStore with None => Some [] | Some os => ListAllBlueprints os end.

(** [raw] holds the blueprints of the files [s1] and of the rows, each under a key of
    its own, and nothing else. *)
Definition raw_blueprints `{Y : YamlLib} (s1 : store) (rows : list OrgBlueprint) (raw : store) : Prop :=
  NoDup (ob_key <$> rows) /\ (forall ob, ob ∈ rows -> s1 !! ob_key ob = None) /\
  (forall k bp, raw !! k = Some bp <->
     s1 !! k = Some bp \/ exists ob n, ob ∈ rows /\ k = ob_key ob /\ org_content ob = Ok n /\ bp = org_raw ob n n None [] "") /\
  (forall ob, ob ∈ rows -> is_Some (raw !! ob_key ob)).

(** Why rows cannot be taken in: the first bad one has no content, or its key is
    taken by a file or an earlier row. *)
Definition bad_rows `{Y : YamlLib} (s1 : store) (rows : list OrgBlueprint) (e : org_error) : Prop :=
  exists before ob after raw, rows = before ++ ob :: after /\ raw_blueprints s1 before raw /\
    (org_content ob = Err e \/
     exists bp, raw !! ob_key ob = Some bp /\ e = OrgDuplicate (ob_Name ob) (ob_Org ob) (SourceFile bp)).

Lemma raw_blueprints_snoc `{Y : YamlLib} s1 rows raw ob n :
  raw_blueprints s1 rows raw -> raw !! ob_key ob = None -> org_content ob = Ok n ->
  raw_blueprints s1 (rows ++ [ob]) (<[ob_key ob := org_raw ob n n None [] ""]> raw).
Proof.
  intros (Hnd & Hfree & Hraw & Hin) Hk Hn. split_and!.
  - rewrite fmap_app. apply NoDup_app. split_and!; [done| |apply NoDup_singleton].
    intros k (ob' & -> & Hob')%list_elem_of_fmap Heq%list_elem_of_singleton. destruct (Hin ob' Hob') as [bp Hbp]. congruence.
  - intros ob' [Hob'|Hob'%list_elem_of_singleton]%elem_of_app; [by apply Hfree|]. subst ob'.
    destruct (s1 !! ob_key ob) as [bp|] eqn:E; [|done]. assert (raw !! ob_key ob = Some bp) by (apply Hraw; auto). congruence.
  - intros k bp. rewrite lookup_insert_Some, Hraw. split.
    + intros [[<- <-]|[Hne [H|(ob' & n' & Ho & H)]]]; [right; exists ob, n; set_solver|auto|right; exists ob', n'; set_solver].
    + intros [H|(ob' & n' & [Ho|Ho%list_elem_of_singleton]%elem_of_app & -> & Hn' & ->)].
      * destruct (decide (ob_key ob = k)) as [<-|Hne]; [|auto]. assert (raw !! ob_key ob = Some bp) by (apply Hraw; auto). congruence.
      * right. split; [destruct (Hin ob' Ho); congruence|]. right. by exists ob', n'.
      * subst ob'. left. by rewrite Hn in Hn'; simplify_eq.
  - intros ob' [Hob'|Hob'%list_elem_of_singleton]%elem_of_app; [|subst ob'; by rewrite lookup_insert_eq].
    destruct (decide (ob_key ob = ob_key ob')) as [<-|Hne]; [by rewrite lookup_insert_eq|].
    rewrite lookup_insert_ne by done. by apply Hin.
Qed.

Lemma load_org_rows_outcome `{Y : YamlLib} s1 rows :
  match res_foldl load_org_row s1 rows with
  | Ok s2 => raw_blueprints s1 rows s2
  | Err e => bad_rows s1 rows e
  end.
Proof.
  assert (H : forall rows before raw, raw_blueprints s1 before raw ->
    match res_foldl load_org_row raw rows with
    | Ok s2 => raw_blueprints s1 (before ++ rows) s2
    | Err e => bad_rows s1 (before ++ rows) e
    end).
  { clear rows. induction rows as [|ob rows IH]; intros before raw Hraw; cbn [res_foldl]; [by rewrite app_nil_r|].
    unfold load_org_row at 1. destruct (org_content ob) as [n|e] eqn:Hn.
    2: { exists before, ob, rows, raw. auto. }
    cbn [mbind result_bind]. fold (ob_key ob). destruct (raw !! ob_key ob) as [bp|] eqn:Hk.
    { exists before, ob, rows, raw. split; [done|]. split; [done|]. right. by exists bp. }
    specialize (IH (before ++ [ob]) _ (raw_blueprints_snoc s1 before raw ob n Hraw Hk Hn)).
    by rewrite <- app_assoc in IH. }
  apply (H rows [] s1). split_and!; [apply NoDup_nil_2|by intros ? ?%not_elem_of_nil| |by intros ? ?%not_elem_of_nil].
  intros k bp. split; [auto|]. intros [?|(ob & n & []%not_elem_of_nil & _)]; done.
Qed.

Lemma load_org_rows_all `{Y : YamlLib} orgStore s1 :
  match loadOrgBlueprints orgStore s1 with
  | Ok s2 => exists rows, org_rows orgStore = Some rows /\ raw_blueprints s1 rows s2
  | Err e => match org_rows orgStore with None => e = OrgListFailed | Some rows => bad_rows s1 rows e end
  end.
Proof.
  unfold loadOrgBlueprints, org_rows. destruct orgStore as [os|].
  - destruct (ListAllBlueprints os) as [rows|]; [|done]. pose proof (load_org_rows_outcome s1 rows) as H.
    destruct (res_foldl load_org_row s1 rows); [by exists rows|done].
  - exists []. split; [done|]. exact (load_org_rows_outcome s1 []).
Qed.

(** Every fresh load of org rows is served as the load resolved it. *)
Lemma org_row_served `{Y : YamlLib} fs s s2 s3 order rows ob :
  fresh s -> res_foldl load_org_row s rows = Ok s2 -> ob ∈ rows ->
  order ≡ₚ (map_to_list s2).*1 -> resolveInheritance fs order s2 = Some (Ok s3) ->
  exists loaded served chain,
    s3 !! ob_key ob = Some loaded /\ buildOrgRawBlueprint fs s3 ob = Ok served /\
    BpNode served = BpNode loaded /\ OwnNode served = OwnNode loaded /\
    BpRevision served = BpRevision loaded /\ Template served = Template loaded /\
    InheritanceChain loaded = chain ++ [ob_key ob] /\
    InheritanceChain served = chain ++ [ob_Name ob].
Proof.
  intros Hf Hrows Hob Ho Hm.
  destruct (load_org_rows s rows s2 Hrows) as (_ & H2 & H3). specialize (H3 Hf).
  destruct (H2 ob Hob) as (n & Hn & Hraw). clear H2.
  destruct (resolveInheritance_result fs s2 order s3 Ho Hm) as (_ & Hd & Hres).
  pose proof (template_parent_after_load fs s2 order s3 (org_raw ob n n None [] "") Ho Hm) as Hpar.
  destruct (s3 !! ob_key ob) as [loaded|] eqn:El.
  2: { apply Hd in El. congruence. }
  destruct (Hres _ _ El) as (l & Hl & Hlr). unfold buildOrgRawBlueprint. rewrite Hn. cbn.
  exists loaded. inversion Hl as [k bp Hk Ht|k bp p l' Hk Ht Hp Hl']; subst;
    rewrite Hraw in Hk; injection Hk as <-; cbn in Ht.
  - rewrite Ht. cbn in Hlr. injection Hlr as <-. eexists _, [].
    split; [done|split; [reflexivity|]]. by split_and!.
  - apply String.eqb_neq in Ht as ->. cbn [Org Template org_raw] in Hpar.
    rewrite Hpar. rewrite resolve_lineage_snoc in Hlr by (by eapply lineage_nonempty).
    apply bind_ok in Hlr as (par & Hpr & Hstep).
    destruct (s3 !! parent_key s2 (org_raw ob n n None [] "")) as [par'|] eqn:Ep.
    2: { apply Hd in Ep. inversion Hl'; congruence. }
    destruct (Hres _ _ Ep) as (l2 & Hl2 & Hpr'). rewrite (lineage_unique _ _ _ _ Hl' Hl2) in Hpr.
    rewrite Hpr in Hpr'. injection Hpr' as <-. unfold resolve_step in Hstep. cbn in Hstep.
    destruct (mergeYAMLNodes fs (BpNode par) n) as [merged|]; [|done]. injection Hstep as <-.
    eexists _, (InheritanceChain par). split; [done|split; [reflexivity|]]. by split_and!.
Qed.

Lemma build_fields `{Y : YamlLib} fs s ob bp :
  buildOrgRawBlueprint fs s ob = Ok bp -> Org bp = ob_Org ob /\ Name bp = ob_Name ob.
Proof.
  unfold buildOrgRawBlueprint. destruct (org_content ob) as [n|]; [|done].
  cbn [mbind result_bind]. intros Hb. repeat case_in Hb; try done; by injection Hb as <-.
Qed.

(** ** The theorems *)

(** C16. A reload is all or nothing in what it leaves, and what it leaves is what was
    read. When it succeeds, the files were read and so were the rows of every
    organization, each under a key no file and no other row has; exactly those
    blueprints are left, each as the resolution of its whole lineage among them, and
    none has a validation problem. When it returns an error the blueprints of before
    are back, and the error is that of the stage that failed: the files; the listing
    of the rows, or the first row that has no content or whose key is taken; a
    blueprint among them that does not resolve; or the problems of the resolved
    ones. *)
Theorem loadAndValidateBlueprints_atomic `{YamlLib} fs orgStore files errors enumerate original pub e :
  (forall s, enumerate s ≡ₚ (map_to_list s).*1) ->
  loadAndValidateBlueprints fs orgStore files errors enumerate original = (pub, e) ->
  let read raw := exists s1 rows, files = Ok s1 /\ org_rows orgStore = Some rows /\ raw_blueprints s1 rows raw in
  let resolved raw final := (forall k, is_Some (final !! k) <-> is_Some (raw !! k)) /\
    forall k bp, final !! k = Some bp -> exists l, lineage raw k l /\ resolve_lineage fs l = Ok bp in
  match e with
  | None => exists raw final, read raw /\ resolved raw final /\ last pub = Some final /\
      forall k bp, final !! k = Some bp -> errors bp = []
  | Some e => last pub = Some original /\
      match e with
      | LoadFiles fe => files = Err fe
      | LoadOrgs oe => exists s1, files = Ok s1 /\
          match org_rows orgStore with None => oe = OrgListFailed | Some rows => bad_rows s1 rows oe end
      | LoadInheritance ie => exists raw k, read raw /\ is_Some (raw !! k) /\ outcome fs raw k (Err ie)
      | LoadValidation errs => exists raw final, read raw /\ resolved raw final /\ errs <> [] /\
          forall err, err ∈ errs <-> exists k bp, final !! k = Some bp /\ err ∈ errors bp
      end
  end.
Proof.
  intros He Hl. cbv zeta. unfold loadAndValidateBlueprints in Hl. destruct files as [s1|fe]; [|by injection Hl as <- <-].
  pose proof (load_org_rows_all orgStore s1) as Hrows. destruct (loadOrgBlueprints orgStore s1) as [raw|oe].
  2: { injection Hl as <- <-. split; [done|]. by exists s1. }
  destruct Hrows as (rows & Hrows & Hraw).
  assert (Hread : exists s1' rows, Ok (E := file_error) s1 = Ok s1' /\ org_rows orgStore = Some rows /\ raw_blueprints s1' rows raw) by eauto.
  destruct (resolve_order_outcome fs raw (enumerate raw) (He raw)) as (r & Er & Hr). rewrite Er in Hl.
  destruct r as [final|ie].
  2: { injection Hl as <- <-. split; [done|]. destruct Hr as (k & Hk & Ho). by exists raw, k. }
  destruct (resolveInheritance_result fs raw (enumerate raw) final (He raw) Er) as (_ & Hd & Hres).
  assert (Hkeys : forall k, is_Some (final !! k) <-> is_Some (raw !! k)).
  { intros k. rewrite <- !not_eq_None_Some. by rewrite Hd. }
  destruct (validateAllBlueprints errors enumerate final) as [|err errs] eqn:Ev; injection Hl as <- <-.
  - exists raw, final. split_and!; try done. by apply (validate_nil errors enumerate He).
  - split; [done|]. exists raw, final. split; [done|]. split; [done|]. split; [done|]. intros x. rewrite <- Ev.
    by apply elem_of_validate.
Qed.

(** A reload is not isolated: the first thing it does is publish an empty
    set of blueprints, so while it runs, a request for any blueprint that is
    not an org's is answered "not found", also for blueprints that exist before
    and after. *)
Theorem loadAndValidateBlueprints_not_isolated `{YamlLib} fs orgStore files errors enumerate original
    {B} (evaluate : RawBlueprint -> string -> result string B) name :
  exists s, s ∈ (loadAndValidateBlueprints fs orgStore files errors enumerate original).1 /\
    GetBlueprint fs orgStore evaluate s "" name = Err (GetNotFound name).
Proof.
  exists ∅. split.
  - unfold loadAndValidateBlueprints. repeat case_goal; left.
  - unfold GetBlueprint, find_blueprint, lookupOrgFromStore. by destruct orgStore.
Qed.

(** The two ways an org blueprint is resolved agree: after a reload, serving
    a row straight from the store gives the content, the own content, the
    template and the revision the reload computed for it. Only the inheritance
    chains differ, in their last element: the reload's is the row's key
    "org/name", the request's its name. *)
Theorem buildOrgRawBlueprint_agrees `{YamlLib} fs os rows s1 errors enumerate original pub ob :
  (forall s, enumerate s ≡ₚ (map_to_list s).*1) -> fresh s1 ->
  ListAllBlueprints os = Some rows -> ob ∈ rows ->
  loadAndValidateBlueprints fs (Some os) (Ok s1) errors enumerate original = (pub, None) ->
  exists final loaded served chain, last pub = Some final /\
    final !! ob_key ob = Some loaded /\ buildOrgRawBlueprint fs final ob = Ok served /\
    BpNode served = BpNode loaded /\ OwnNode served = OwnNode loaded /\
    BpRevision served = BpRevision loaded /\ Template served = Template loaded /\
    InheritanceChain loaded = chain ++ [ob_key ob] /\
    InheritanceChain served = chain ++ [ob_Name ob].
Proof.
  intros He Hf Hrows Hob Hl.
  destruct (load_success _ _ _ _ _ _ _ Hl) as (s1' & s2 & s3 & [= <-] & Ho & Hr & _ & ->).
  unfold loadOrgBlueprints in Ho. rewrite Hrows in Ho.
  destruct (org_row_served fs s1 s2 s3 (enumerate s2) rows ob) as (loaded & served & chain & Hs);
    [done..|]. by exists s3, loaded, served, chain.
Qed.

(** A caller only gets blueprints meant for it: what GetBlueprint finds for
    an organization is a row of that organization from the store or a global
    blueprint, and a row in the store always wins over the global one. *)
Theorem find_blueprint_scope `{YamlLib} fs os s org name bp :
  (forall o n ob, LookupBlueprint os o n = Some (Some ob) -> ob_Org ob = o /\ ob_Name ob = n) ->
  find_blueprint fs (Some os) s org name = Ok bp ->
  Org bp = "" \/ (org <> "" /\ Org bp = org /\ Name bp = name).
Proof.
  intros Hos. unfold find_blueprint, lookupOrgFromStore.
  destruct (String.eqb_spec org "") as [->|Ho].
  { intros Hb. repeat case_in Hb; try done. injection Hb as <-. left.
    by apply String.eqb_eq. }
  destruct (LookupBlueprint os org name) as [[ob|]|] eqn:El; [| |done].
  - apply Hos in El as [<- <-]. destruct (buildOrgRawBlueprint fs s ob) as [b|] eqn:Eb; [|done].
    cbn. intros [= <-]. right. split; [done|]. by eapply build_fields.
  - intros Hb. repeat case_in Hb; try done. injection Hb as <-. left. by apply String.eqb_eq.
Qed.

(** GetAllBlueprints fails as soon as the cache holds a blueprint of an
    organization, since it asks for it by its cache key, under which no row is
    stored. *)
Theorem GetAllBlueprints_fails_with_org `{YamlLib} fs orgStore s order org
    {B} (evaluate : RawBlueprint -> string -> result string B) k bp :
  s !! k = Some bp -> Org bp <> "" -> k ∈ order ->
  lookupOrgFromStore fs orgStore s org k = Ok None ->
  exists name e, GetAllBlueprints fs orgStore evaluate s order org = Err (GetAllFailed name e).
Proof.
  intros Hk Ho Hin Hl. unfold GetAllBlueprints. generalize (∅ : gmap string B).
  induction order as [|n order IH]; intros acc; [by apply not_elem_of_nil in Hin|]. cbn [res_foldl].
  destruct (GetBlueprint fs orgStore evaluate s org n) as [b|e] eqn:Eg; [|by do 2 eexists].
  apply elem_of_cons in Hin as [<-|Hin]; [|by apply IH].
  unfold GetBlueprint, find_blueprint in Eg. rewrite Hl, Hk in Eg.
  apply String.eqb_neq in Ho. by rewrite Ho in Eg.
Qed.

(** ** Examples *)

Module ManagerSample.
Definition row : OrgBlueprint := {|
  ob_Name := "dev"; ob_Org := "acme"; ob_Description := "d"; ob_IsTemplate := false;
  ob_YAML := "name: dev" +:+ String "010" "template: base" +:+ String "010" "user: !cel user.name";
  ob_CreatedAt := 1; ob_UpdatedAt := 2 |}.
Definition orgs : OrgBlueprintStore := {|
  ListAllBlueprints := Some [row];
  LookupBlueprint o n :=
    Some (if String.eqb o "acme" && String.eqb n "dev" then Some row else None) |}.
Definition files : store := {[ "base" := InheritSample.base ]}.
Definition enumerate (s : store) : list string := (map_to_list s).*1.

Definition loaded `{YamlLib} : list store * option load_error :=
  loadAndValidateBlueprints InheritSample.no_strategy (Some orgs) (Ok files) (fun _ => []) enumerate ∅.
End ManagerSample.

Lemma sample_load_ok :
  (@ManagerSample.loaded SampleYaml.lib).2 = None.
Proof. vm_compute. reflexivity. Qed.

Lemma sample_files_fresh : fresh ManagerSample.files.
Proof. intros k bp. unfold ManagerSample.files. rewrite lookup_singleton_Some. by intros [_ <-]. Qed.

Lemma loadAndValidateBlueprints_atomic_witness :
  let _ := SampleYaml.lib in
  exists raw final, raw_blueprints ManagerSample.files [ManagerSample.row] raw /\ last ManagerSample.loaded.1 = Some final /\
    is_Some (final !! "acme/dev") /\ is_Some (final !! "base").
Proof.
  intros L.
  destruct ManagerSample.loaded as [pub e] eqn:E.
  pose proof sample_load_ok as H. fold L in H. rewrite E in H. cbn in H. subst e.
  destruct (loadAndValidateBlueprints_atomic InheritSample.no_strategy (Some ManagerSample.orgs)
           (Ok ManagerSample.files) (fun _ => []) ManagerSample.enumerate ∅ pub None
           (fun s => reflexivity _) E) as (raw & final & (s1 & rows & Hf & Hr & Hraw) & (Hkeys & _) & Hlast & _).
  injection Hf as <-. injection Hr as <-. exists raw, final. split; [exact Hraw|]. split; [exact Hlast|].
  destruct Hraw as (_ & _ & Hraw & Hin). split; apply Hkeys.
  - apply (Hin ManagerSample.row). by apply list_elem_of_singleton.
  - exists InheritSample.base. apply Hraw. left. reflexivity.
Defined.

Lemma buildOrgRawBlueprint_agrees_witness :
  let _ := SampleYaml.lib in
  exists final loaded served chain, last ManagerSample.loaded.1 = Some final /\
    final !! "acme/dev" = Some loaded /\
    buildOrgRawBlueprint InheritSample.no_strategy final ManagerSample.row = Ok served /\
    BpNode served = BpNode loaded /\ OwnNode served = OwnNode loaded /\
    BpRevision served = BpRevision loaded /\ Template served = Template loaded /\
    InheritanceChain loaded = chain ++ ["acme/dev"] /\ InheritanceChain served = chain ++ ["dev"].
Proof.
  intros L.
  destruct ManagerSample.loaded as [pub e] eqn:E.
  pose proof sample_load_ok as H. fold L in H. rewrite E in H. cbn in H. subst e.
  exact (buildOrgRawBlueprint_agrees InheritSample.no_strategy ManagerSample.orgs [ManagerSample.row]
           ManagerSample.files (fun _ => []) ManagerSample.enumerate ∅ pub ManagerSample.row
           (fun s => reflexivity _) sample_files_fresh eq_refl
           ltac:(by apply list_elem_of_singleton) E).
Defined.

Lemma find_blueprint_scope_witness :
  let _ := SampleYaml.lib in
  exists bp, find_blueprint InheritSample.no_strategy (Some ManagerSample.orgs) ManagerSample.files
               "acme" "dev" = Ok bp /\
    (Org bp = "" \/ ("acme" <> "" /\ Org bp = "acme" /\ Name bp = "dev")).
Proof.
  intros L.
  destruct (find_blueprint InheritSample.no_strategy (Some ManagerSample.orgs) ManagerSample.files
              "acme" "dev") as [bp|e] eqn:E; [|vm_compute in E; discriminate E].
  exists bp. split; [done|].
  apply (find_blueprint_scope InheritSample.no_strategy ManagerSample.orgs ManagerSample.files).
  - intros o n ob. cbn. destruct (String.eqb_spec o "acme") as [->|], (String.eqb_spec n "dev") as [->|];
      cbn; try done. by intros [= <-].
  - exact E.
Defined.

Lemma GetAllBlueprints_fails_with_org_witness :
  let _ := SampleYaml.lib in
  let s : store := <["acme/base" := InheritSample.loop]> ManagerSample.files in
  exists name e, GetAllBlueprints InheritSample.no_strategy (Some ManagerSample.orgs)
                   (fun bp _ => Ok (Name bp)) s ["base"; "acme/base"] "acme" = Err (GetAllFailed name e).
Proof.
  intros L s.
  apply (GetAllBlueprints_fails_with_org InheritSample.no_strategy (Some ManagerSample.orgs) s
           ["base"; "acme/base"] "acme" _ "acme/base" InheritSample.loop);
    [reflexivity|discriminate|by apply (bool_decide_unpack _)|reflexivity].
Defined.
