(* ===== verification/Compose.v ===== *)
(** * Scopes and composed blueprints

    internal/blueprint/compose.go and the evaluation of internal/blueprint/
    blueprint.go: the scope a blueprint's expressions are evaluated in, the
    blueprint a repository's k8shell file gives with its template, and what of
    both depends on the user. The CEL library, [models.CustomBlueprint]'s YAML and
    [models.Blueprint] are parameters. *)

From Stdlib Require Import Ascii.
From S2P Require Import Prelude GoStrings DnsLabel Yaml Merge Strategies Revision Inherit Cel Manager.

(** [models.BlueprintMetadata]. *)
Record BlueprintMetadata : Type := mkMetadata {
  md_Name : string;
  md_RepoName : string;
  md_RepoOwner : string;
  md_RepoRef : string;
  md_RepoAddress : string;
}.

(** [models.CustomBlueprint]: the fields the code sets and reads. *)
Record CustomBlueprint : Type := mkCustom {
  cb_Name : string;
  cb_Template : string;
  cb_Metadata : BlueprintMetadata;
  cb_rest : list (string * yvalue);
}.

(** The user's fields are those the manager reads.

    src/internal/blueprint/blueprint.go:78-82 BlueprintScope *)
Record BlueprintScope : Type := mkScope {
  sc_User : option Manager.User;
  sc_WorkspaceName : string;
  sc_Metadata : BlueprintMetadata;
}.

Definition rename_metadata (name : string) (m : BlueprintMetadata) : BlueprintMetadata :=
  mkMetadata name (md_RepoName m) (md_RepoOwner m) (md_RepoRef m) (md_RepoAddress m).

(** [scope.Metadata.Name = NormalizeDNSLabel(name)]. *)
Definition named_scope (name : string) (scope : BlueprintScope) : BlueprintScope :=
  mkScope (sc_User scope) (sc_WorkspaceName scope) (rename_metadata (NormalizeDNSLabel name) (sc_Metadata scope)).

Definition scope_org (scope : BlueprintScope) : string := from_option Organization "" (sc_User scope).

(** The scope of a request; the name may not be empty.

    src/internal/server/server.go:245-287 GetBlueprintScope *)
Definition GetBlueprintScope (name : string) (user : Manager.User) (md : option BlueprintMetadata) (workspace : string)
    : option BlueprintScope :=
  if String.eqb name "" then None
  else
    let md := default (mkMetadata "" "" "" "" "") md in
    Some (mkScope (Some user) workspace (rename_metadata (NormalizeDNSLabel name) md)).

Inductive eval_error : Type :=
| EvalDecode (name : string)
(** The map of the scope is written before its error is looked at. *)
| EvalPanics
| EvalTemplate (name : string)
| EvalUnmarshal
| EvalInvalid (problems : list string).

Inductive compose_error : Type :=
| NoBlueprints
| MarshalCustomFailed
| ParseCustomFailed
| CustomNotMapping
| DecodeCustomFailed
| NoTemplateField
| ComposeOrg (e : org_error)
| TemplateNotFound (name : string)
| ComposeMerge (template : string) (e : merge_error)
| DecodeMergedFailed
| ComposeEval (e : eval_error).

(** A decoded blueprint, and what yamlcel and yaml.v3 make of a node: the template,
    the text it evaluates to, the blueprint of a text. [bd_problems] are the errors
    of its [Validate]. *)
Class BlueprintDoc (Bp Tmpl : Type) : Type := {
  bd_decode_template : node -> option Tmpl;
  bd_eval : Tmpl -> list (string * yvalue) -> option string;
  bd_decode : string -> option Bp;
  bd_Name : Bp -> string;
  bd_rename : string -> Bp -> Bp;
  bd_set_metadata : BlueprintMetadata -> Bp -> Bp;
  bd_problems : Bp -> list string;
  (** [yaml.Marshal] of a scope and of a custom blueprint. *)
  bd_marshal_scope : BlueprintScope -> option string;
  bd_marshal_custom : CustomBlueprint -> option string;
}.

Section compose.
Context `{Y : YamlLib}.
Context {Bp Tmpl : Type} `{D : !BlueprintDoc Bp Tmpl}.
Variable find_strategy : string -> string -> option strategy.
Variable orgStore : option OrgBlueprintStore.

#[local] Abbreviation lookupOrg := (lookupOrgFromStore find_strategy orgStore).

(** The document's content, or the document itself when it has none.

    src/internal/blueprint/compose.go:33-38 ComposeRaw *)
Definition document_content (n : node) : node :=
  match n with Node _ DocumentNode _ _ _ (c :: _) => c | _ => n end.

(** ** Evaluation *)

(** src/internal/blueprint/blueprint.go:85-97 ToMap *)
Definition ToMap (scope : BlueprintScope) : option (list (string * yvalue)) :=
  text ← bd_marshal_scope scope; n ← yaml_unmarshal text; yaml_decode_map (document_content n).

(** A key that is there is replaced in place. *)
Definition put_key (key : string) (v : yvalue) (m : list (string * yvalue)) : list (string * yvalue) :=
  if existsb (fun kv => String.eqb kv.1 key) m
  then (fun kv => if String.eqb kv.1 key then (key, v) else kv) <$> m
  else m ++ [(key, v)].

Definition normalize_name (bp : Bp) : Bp :=
  if String.eqb (bd_Name bp) "" then bp else bd_rename (NormalizeDNSLabel (bd_Name bp)) bp.

(** What a node evaluates to under a name, before its metadata is set.

    src/internal/blueprint/blueprint.go:943-968 evaluateRawBlueprint *)
Definition evaluate_node (n : node) (name : string) (scope : BlueprintScope) : result eval_error Bp :=
  match bd_decode_template n with
  | None => Err (EvalDecode name)
  | Some tmpl =>
      match ToMap scope with
      | None => Err EvalPanics
      | Some m =>
          match bd_eval tmpl (put_key "blueprint" (YStr name) m) with
          | None => Err (EvalTemplate name)
          | Some text =>
              match bd_decode text with
              | None => Err EvalUnmarshal
              | Some bp => Ok (normalize_name bp)
              end
          end
      end
  end.

(** The blueprint carries the metadata of the scope, under the normalised name of
    the raw blueprint.

    src/internal/blueprint/blueprint.go:941-973 evaluateRawBlueprint *)
Definition evaluateRawBlueprint (scope : BlueprintScope) (raw : RawBlueprint) (name : string) : result eval_error Bp :=
  let scope := named_scope (Name raw) scope in
  bp ← evaluate_node (BpNode raw) name scope;
  Ok (bd_set_metadata (sc_Metadata scope) bp).

(** ** Composition *)

(** An org's template from the store, else whatever the cache holds under the name.

    src/internal/blueprint/compose.go:56-68 ComposeRaw *)
Definition compose_template (s : store) (org name : string) : result compose_error RawBlueprint :=
  match lookupOrg s org name with
  | Err e => Err (ComposeOrg e)
  | Ok (Some bp) => Ok bp
  | Ok None => match s !! name with Some bp => Ok bp | None => Err (TemplateNotFound name) end
  end.

(** The mapping of a custom blueprint and its fields.

    src/internal/blueprint/compose.go:23-49 ComposeRaw *)
Definition custom_content (cb : CustomBlueprint) : result compose_error (node * list (string * yvalue)) :=
  match bd_marshal_custom cb with
  | None => Err MarshalCustomFailed
  | Some text =>
      match yaml_unmarshal text with
      | None => Err ParseCustomFailed
      | Some doc =>
          let content := document_content doc in
          if negb (is_kind MappingNode content) then Err CustomNotMapping
          else match yaml_decode_map content with
               | None => Err DecodeCustomFailed
               | Some data => Ok (content, data)
               end
      end
  end.

(** src/internal/blueprint/compose.go:70-90 ComposeRaw *)
Definition composed_raw (template data_name : string) (merged : node) : RawBlueprint :=
  {| Name := if String.eqb data_name "" then template else data_name; Description := ""; Template := "";
     IsTemplate := false; SourceFile := ""; BpNode := merged; OwnNode := None; InheritanceChain := [];
     BpRevision := computeRevision (Some merged); CreatedAt := 0; UpdatedAt := 0; Org := "" |}.

(** The custom blueprint over its template, which [org] may have in the store.

    src/internal/blueprint/compose.go:18-91 ComposeRaw *)
Definition ComposeRaw (s : store) (cb : CustomBlueprint) (org : string) : result compose_error RawBlueprint :=
  if bool_decide (s = ∅) then Err NoBlueprints
  else
    custom ← custom_content cb;
    let '(content, data) := custom in
    let templateName := str_field "template" data in
    if String.eqb templateName "" then Err NoTemplateField
    else
      template ← compose_template s org templateName;
      match mergeYAMLNodes find_strategy (BpNode template) content with
      | Err e => Err (ComposeMerge templateName e)
      | Ok merged =>
          match yaml_decode merged with
          | None => Err DecodeMergedFailed
          | Some _ => Ok (composed_raw templateName (str_field "name" data) merged)
          end
      end.

(** For display.

    src/internal/blueprint/compose.go:96-111 Compose *)
Definition Compose (s : store) (cb : CustomBlueprint) (org : string) : result compose_error yvalue :=
  raw ← ComposeRaw s cb org;
  match yaml_decode (cloneAndProcessCELNodes (BpNode raw)) with
  | None => Err DecodeMergedFailed
  | Some v => Ok v
  end.

(** The blueprint a workspace is made of, and the revision of the raw one.

    src/internal/blueprint/compose.go:118-166 ComposeWithScope *)
Definition ComposeWithScope (s : store) (cb : CustomBlueprint) (scope : BlueprintScope) : result compose_error (Bp * string) :=
  raw ← ComposeRaw s cb (scope_org scope);
  let scope := named_scope (Name raw) scope in
  match evaluate_node (BpNode raw) (Name raw) scope with
  | Err e => Err (ComposeEval e)
  | Ok bp =>
      match bd_problems bp with
      | [] => Ok (bd_set_metadata (sc_Metadata scope) bp, BpRevision raw)
      | problems => Err (ComposeEval (EvalInvalid problems))
      end
  end.
End compose.

(** ** What is composed *)

Section facts.
Context `{Y : YamlLib} {Bp Tmpl : Type} `{D : !BlueprintDoc Bp Tmpl}.
Implicit Types (fs : string -> string -> option strategy) (s : store) (cb : CustomBlueprint).

Lemma ComposeRaw_inv fs os s cb org raw :
  ComposeRaw fs os s cb org = Ok raw ->
  exists content data template merged,
    custom_content cb = Ok (content, data) /\
    compose_template fs os s org (str_field "template" data) = Ok template /\
    mergeYAMLNodes fs (BpNode template) content = Ok merged /\
    raw = composed_raw (str_field "template" data) (str_field "name" data) merged.
Proof.
  unfold ComposeRaw. case_bool_decide; [done|]. intros ([content data] & Hc & H')%bind_ok. case_in H'; [done|].
  apply bind_ok in H' as (template & Ht & Hm). repeat case_in Hm; try done. injection Hm as <-. by exists content, data, template, a.
Qed.

Lemma custom_content_mapping cb content data : custom_content cb = Ok (content, data) -> node_kind content = MappingNode.
Proof.
  unfold custom_content. intros Hc. repeat case_in Hc; try done. simplify_eq.
  match goal with H : negb _ = false |- _ => apply negb_false_iff in H; by apply is_kind_spec in H end.
Qed.

Lemma evaluate_node_name n name scope bp :
  (forall label b, bd_Name (bd_rename label b) = label) ->
  evaluate_node n name scope = Ok bp -> bd_Name bp = "" \/ dns_label (bd_Name bp).
Proof.
  intros Hn. unfold evaluate_node. intros He. repeat case_in He; try done. injection He as <-.
  unfold normalize_name. destruct (String.eqb_spec (bd_Name b) ""); [by left|right]. rewrite Hn. apply normalized_label.
Qed.

(** Each key of a composed blueprint comes from where it should: one the
    repository's file sets is merged over the template's by value, and one it leaves
    out is the template's, except "isTemplate" and "description". The result is no
    template and belongs to no organization, and its revision is that of what was
    merged. *)
Theorem ComposeRaw_content fs os s cb org raw key :
  ComposeRaw fs os s cb org = Ok raw ->
  exists content data template,
    custom_content cb = Ok (content, data) /\
    compose_template fs os s org (str_field "template" data) = Ok template /\
    IsTemplate raw = false /\ Org raw = "" /\ BpRevision raw = computeRevision (Some (BpNode raw)) /\
    (node_kind (BpNode template) = MappingNode ->
     match mapping_lookup key content, last_value key (pairs_of (node_content (BpNode template))) with
     | Some cv, Some pv =>
         exists mv, mapping_lookup key (BpNode raw) = Some mv /\ mergeValueNodes fs pv cv key key = Ok mv
     | Some cv, None => mapping_lookup key (BpNode raw) = Some cv
     | None, _ =>
         mapping_lookup key (BpNode raw) = if not_inherited key then None else mapping_lookup key (BpNode template)
     end).
Proof.
  intros (content & data & template & merged & Hc & Ht & Hm & ->)%ComposeRaw_inv.
  exists content, data, template. do 5 (split; [done|]). intros Hk. cbn [BpNode composed_raw].
  exact (merge_lookup fs _ _ "" merged key Hk (custom_content_mapping _ _ _ Hc) Hm).
Qed.

(** C31. A composed blueprint is what the raw blueprint, composed for the organization
    of the user of the scope, evaluates to under its name and in that scope, with
    the scope's metadata set on it, renamed to the DNS label of the raw name.
    Before the metadata is set it was validated without a problem, and its name
    is empty or a DNS label; the result is not validated again. The revision is
    that of the raw blueprint's document, so two compositions of the same custom
    blueprint, from the same loaded and stored blueprints, for users of the same organization, whoever they are and whatever
    the workspace and the metadata, have the same revision. *)
Theorem ComposeWithScope_valid fs os s cb scope bp rev :
  (forall label b, bd_Name (bd_rename label b) = label) ->
  ComposeWithScope fs os s cb scope = Ok (bp, rev) ->
  (exists b raw, ComposeRaw fs os s cb (scope_org scope) = Ok raw /\
     evaluate_node (BpNode raw) (Name raw) (named_scope (Name raw) scope) = Ok b /\
     bd_problems b = [] /\ (bd_Name b = "" \/ dns_label (bd_Name b)) /\
     bp = bd_set_metadata (rename_metadata (NormalizeDNSLabel (Name raw)) (sc_Metadata scope)) b /\
     rev = computeRevision (Some (BpNode raw))) /\
  (forall scope' bp' rev', scope_org scope' = scope_org scope ->
     ComposeWithScope fs os s cb scope' = Ok (bp', rev') -> rev' = rev).
Proof.
  intros Hn. unfold ComposeWithScope. destruct (ComposeRaw fs os s cb (scope_org scope)) as [raw|] eqn:Er; [|done].
  cbn [mbind result_bind]. intros He. destruct (evaluate_node _ _ _) as [b|] eqn:Eb; [|done].
  destruct (bd_problems b) eqn:Ep; [|done]. injection He as <- <-. split.
  - exists b, raw. do 3 (split; [done|]). split; [by eapply evaluate_node_name|]. split; [done|].
    by destruct (ComposeRaw_inv _ _ _ _ _ _ Er) as (? & ? & ? & ? & _ & _ & _ & ->).
  - intros scope' bp' rev' Ho. rewrite Ho, Er. cbn [mbind result_bind]. intros H. repeat case_in H; try done. by simplify_eq.
Qed.

(** The template of a repository's file is not confined to the user's organization:
    the key under which the cache holds another organization's blueprint can be
    named, and the blueprint is composed with what it holds, although the same
    name is refused to a request for the blueprint itself. *)
Theorem template_of_another_org fs os s o n bp cb org content data merged {B} (evaluate : RawBlueprint -> string -> result string B) :
  s !! orgBlueprintKey o n = Some bp -> Org bp = o -> o <> "" ->
  lookupOrgFromStore fs os s org (orgBlueprintKey o n) = Ok None ->
  custom_content cb = Ok (content, data) -> str_field "template" data = orgBlueprintKey o n ->
  mergeYAMLNodes fs (BpNode bp) content = Ok merged -> is_Some (yaml_decode merged) ->
  (exists raw, ComposeRaw fs os s cb org = Ok raw /\ BpNode raw = merged) /\
  GetBlueprint fs os evaluate s org (orgBlueprintKey o n) = Err (GetNotFound (orgBlueprintKey o n)).
Proof.
  intros Hs Ho Hne Hl Hc Ht Hm [v Hv].
  assert (Hkey : String.eqb (orgBlueprintKey o n) "" = false) by (unfold orgBlueprintKey; by destruct o). split.
  - exists (composed_raw (orgBlueprintKey o n) (str_field "name" data) merged). split; [|done].
    unfold ComposeRaw. rewrite bool_decide_false by (intros ->; by rewrite lookup_empty in Hs). rewrite Hc. cbn [mbind result_bind].
    rewrite Ht, Hkey. unfold compose_template. rewrite Hl, Hs. cbn [mbind result_bind]. by rewrite Hm, Hv.
  - unfold GetBlueprint, find_blueprint. rewrite Hl, Hs, Ho. apply String.eqb_neq in Hne. by rewrite Hne.
Qed.
End facts.

(** ** Examples *)

Module ComposeSample.
Definition doc : BlueprintDoc (string * BlueprintMetadata) node := {|
  bd_decode_template := Some;
  bd_eval := fun _ m => as_string (yfield "blueprint" m);
  bd_decode := fun text => Some (text, mkMetadata "" "" "" "" "");
  bd_Name := fst;
  bd_rename := fun n b => (n, b.2);
  bd_set_metadata := fun m b => (b.1, m);
  bd_problems := fun _ => [];
  bd_marshal_scope := fun _ => Some "workspaceName: w";
  bd_marshal_custom := fun cb => Some ("name: " +:+ cb_Name cb +:+ String "010"%char ("template: " +:+ cb_Template cb));
|}.

Definition md : BlueprintMetadata := mkMetadata "" "app" "acme" "main" "git".
Definition custom (template : string) : CustomBlueprint := mkCustom "My App" template md [].
Definition scope (user : string) : BlueprintScope := mkScope (Some (mkUser user "other" [])) "w" md.
(** The cache with a private blueprint of another organization. *)
Definition cache : store := <["acme/base" := InheritSample.loop]> ManagerSample.files.
End ComposeSample.
#[local] Existing Instance ComposeSample.doc.

Lemma ComposeRaw_content_witness :
  let _ := SampleYaml.lib in
  exists raw, ComposeRaw InheritSample.no_strategy None ComposeSample.cache (ComposeSample.custom "base") "other" = Ok raw /\
    IsTemplate raw = false /\ Name raw = "My App".
Proof.
  intros L.
  destruct (ComposeRaw InheritSample.no_strategy None ComposeSample.cache (ComposeSample.custom "base") "other") as [raw|e] eqn:E;
    [|vm_compute in E; discriminate E].
  exists raw. split; [done|].
  destruct (ComposeRaw_content InheritSample.no_strategy None ComposeSample.cache (ComposeSample.custom "base") "other" raw "name" E)
    as (? & ? & ? & _ & _ & Ht & _).
  split; [exact Ht|]. vm_compute in E. by injection E as <-.
Defined.

Lemma ComposeWithScope_valid_witness :
  let _ := SampleYaml.lib in
  exists bp rev, ComposeWithScope InheritSample.no_strategy None ComposeSample.cache (ComposeSample.custom "base")
                   (ComposeSample.scope "bob") = Ok (bp, rev) /\ bp.1 = "my-app" /\
    forall bp' rev', ComposeWithScope InheritSample.no_strategy None ComposeSample.cache (ComposeSample.custom "base")
                       (ComposeSample.scope "eve") = Ok (bp', rev') -> rev' = rev.
Proof.
  intros L.
  destruct (ComposeWithScope InheritSample.no_strategy None ComposeSample.cache (ComposeSample.custom "base")
              (ComposeSample.scope "bob")) as [[bp rev]|e] eqn:E; [|vm_compute in E; discriminate E].
  exists bp, rev. split; [done|]. split; [vm_compute in E; by injection E as <-|]. intros bp' rev'.
  by apply (ComposeWithScope_valid (D := ComposeSample.doc) InheritSample.no_strategy None ComposeSample.cache (ComposeSample.custom "base")
              (ComposeSample.scope "bob") bp rev (fun _ _ => eq_refl) E).
Defined.

Lemma template_of_another_org_witness :
  let _ := SampleYaml.lib in
  (exists raw, ComposeRaw InheritSample.no_strategy None ComposeSample.cache (ComposeSample.custom "acme/base") "other" = Ok raw) /\
  GetBlueprint InheritSample.no_strategy None (fun bp _ => Ok (Name bp)) ComposeSample.cache "other" "acme/base"
    = Err (GetNotFound "acme/base").
Proof.
  intros L.
  destruct (custom_content (ComposeSample.custom "acme/base")) as [[content data]|e] eqn:E; [|vm_compute in E; discriminate E].
  destruct (mergeYAMLNodes InheritSample.no_strategy (BpNode InheritSample.loop) content) as [merged|e] eqn:Em.
  2: { vm_compute in E. injection E as <- <-. vm_compute in Em. discriminate Em. }
  destruct (template_of_another_org InheritSample.no_strategy None ComposeSample.cache "acme" "base" InheritSample.loop
              (ComposeSample.custom "acme/base") "other" content data merged (fun bp _ => Ok (Name bp))) as [(raw & Hr & _) Hg];
    [reflexivity|reflexivity|discriminate|reflexivity|exact E|vm_compute in E; by injection E as <- <-|exact Em|by eexists|].
  split; [by exists raw|exact Hg].
Defined.
