(* ===== verification/PodState.v ===== *)
(** * The state of a workspace pod

    internal/workspace/podstate.go and helpers.go derive one lifecycle stage
    from a pod object and its events. Times are nanoseconds, 0 the zero time;
    restart counts are int32. *)

From Stdlib Require Import Ascii.
From S2P Require Import Prelude GoStrings.

(** ** The Kubernetes objects, as far as they are read *)

Record Terminated : Type := mkTerminated {
  ExitCode : Z;
  t_Reason : string;
  t_Message : string;
  FinishedAt : Z;
}.

(** [corev1.ContainerStatus]; [Waiting] holds a reason and a message. *)
Record ContainerStatus : Type := mkContainerStatus {
  cs_Name : string;
  Ready : bool;
  RestartCount : Z;
  Waiting : option (string * string);
  Running : bool;
  Terminated_ : option Terminated;
  LastTerminated : option Terminated;
}.

Record SelectorRequirement : Type := mkRequirement {
  req_Key : string;
  req_Operator : string;
  req_Values : list string;
}.

(** [corev1.Pod]; a volume is the claim or the secret it mounts, "" for none. *)
Record Pod : Type := mkPod {
  p_Name : string;
  p_Namespace : string;
  p_Labels : gmap string string;
  CreationTimestamp : Z;
  DeletionTimestamp : option Z;
  NodeName : string;
  Phase : string;
  p_Reason : string;
  p_Message : string;
  Conditions : list (string * string);
  InitContainerStatuses : list ContainerStatus;
  ContainerStatuses : list ContainerStatus;
  VolumeClaims : list string;
  VolumeSecrets : list string;
  NodeSelector : gmap string string;
  RequiredTerms : list (list SelectorRequirement);
  RuntimeClassName : option string;
  Hostname : string;
  Subdomain : string;
}.

Record Event : Type := mkEvent {
  ev_UID : string;
  ev_Count : Z;
  ev_Kind : string;
  ev_Name : string;
  FieldPath : string;
  ev_Reason : string;
  ev_Message : string;
  LastTimestamp : Z;
  ev_Creation : Z;
}.

(** ** Stages *)

(** src/internal/workspace/podstate.go:22-39 PodLifecycleStage *)
Inductive PodLifecycleStage : Type :=
| StageScheduling | StagePulling | StageInitializing | StageStarting | StageRunning
| StageStopping | StageTerminating | StageNodeLost | StageStopped | StageFailed | StageUnknown.

#[export] Instance stage_eq_dec : EqDecision PodLifecycleStage.
Proof. solve_decision. Defined.

(** [models.WorkspaceStatusMessage], as far as stages map to it. *)
Inductive WorkspaceStatusMessage : Type :=
| WorkspaceStatusProvisioning | WorkspaceStatusPulling | WorkspaceStatusRunning
| WorkspaceStatusStopping | WorkspaceStatusTerminating | WorkspaceStatusNodeLost
| WorkspaceStatusStopped | WorkspaceStatusFailing | WorkspaceStatusUnknown | WorkspaceStatusWarning.

#[export] Instance status_eq_dec : EqDecision WorkspaceStatusMessage.
Proof. solve_decision. Defined.

(** src/internal/workspace/podstate.go:41-48 EventSeverity *)
Inductive EventSeverity : Type :=
| EventSeverityInfo | EventSeverityWarning | EventSeverityCritical.

#[export] Instance severity_eq_dec : EqDecision EventSeverity.
Proof. solve_decision. Defined.

(** src/internal/workspace/podstate.go:50-58 PodEvent *)
Record PodEvent : Type := mkPodEvent {
  pe_Time : Z;
  ObjectKind : string;
  ObjectName : string;
  pe_Reason : string;
  pe_Message : string;
  Severity : EventSeverity;
}.

(** src/internal/workspace/podstate.go:60-71 PodStateSnapshot *)
Record PodStateSnapshot : Type := mkSnapshot {
  Created : Z;
  Stage : PodLifecycleStage;
  Status : WorkspaceStatusMessage;
  Message : string;
  Restarts : Z;
  LastFailMessage : string;
  CriticalErr : option string;
  Events : list PodEvent;
}.

(** src/internal/workspace/podstate.go:73-75 defaultCrashLoopThreshold *)
Definition defaultCrashLoopThreshold : Z := 2.

(** src/internal/workspace/podstate.go:77-99 stageToStatus *)
Definition stageToStatus (stage : PodLifecycleStage) : WorkspaceStatusMessage :=
  match stage with
  | StageScheduling | StageInitializing | StageStarting => WorkspaceStatusProvisioning
  | StagePulling => WorkspaceStatusPulling
  | StageRunning => WorkspaceStatusRunning
  | StageStopping => WorkspaceStatusStopping
  | StageTerminating => WorkspaceStatusTerminating
  | StageNodeLost => WorkspaceStatusNodeLost
  | StageStopped => WorkspaceStatusStopped
  | StageFailed => WorkspaceStatusFailing
  | StageUnknown => WorkspaceStatusUnknown
  end.

Definition second : Z := 1000000000.

(** src/internal/workspace/podstate.go:101-104 nodeLostGrace *)
Definition nodeLostGrace : Z := 15 * second.

(** The last Ready condition counts.

    src/internal/workspace/podstate.go:121-126 podNodeLost *)
Definition pod_ready (conditions : list (string * string)) : bool :=
  foldl (fun ready c => if String.eqb c.1 "Ready" then String.eqb c.2 "True" else ready)
    false conditions.

(** src/internal/workspace/podstate.go:106-136 podNodeLost *)
Definition podNodeLost (pod : Pod) (now : Z) : bool :=
  match DeletionTimestamp pod with
  | None => false
  | Some deleted =>
      if String.eqb (NodeName pod) "" then false
      else if (now - deleted <? nodeLostGrace)%Z then false
      else if pod_ready (Conditions pod) then false
      else existsb (fun cs => if Terminated_ cs then false else true) (ContainerStatuses pod)
  end.

(** ** Messages and counts *)

(** src/internal/workspace/podstate.go:465-475 isHardFailureReason *)
Definition isHardFailureReason (reason : string) : bool :=
  existsb (String.eqb reason)
    ["ImagePullBackOff"; "ErrImagePull"; "InvalidImageName"; "CreateContainerConfigError";
     "CreateContainerError"; "RunContainerError"; "OOMKilled"].

(** src/internal/workspace/podstate.go:477-492 podMaxContainerRestarts *)
Definition podMaxContainerRestarts (pod : Pod) : Z :=
  foldl (fun m cs => if (m <? RestartCount cs)%Z then RestartCount cs else m) 0%Z
    (ContainerStatuses pod ++ InitContainerStatuses pod).

(** src/internal/workspace/helpers.go:39-52 podRestartCount *)
Definition podRestartCount (pod : option Pod) : Z :=
  match pod with
  | None => 0
  | Some pod =>
      foldl (fun total cs => wrap32 (total + RestartCount cs)) 0%Z
        (InitContainerStatuses pod ++ ContainerStatuses pod)
  end.

(** src/internal/workspace/podstate.go:494-502 schedulingMessage *)
Definition schedulingMessage (pod : Pod) : string :=
  if negb (String.eqb (p_Reason pod) "") then
    if negb (String.eqb (p_Message pod) "") then p_Reason pod +:+ ": " +:+ p_Message pod
    else p_Reason pod
  else "Waiting for node assignment".

(** src/internal/workspace/podstate.go:504-515 podFailureMessage *)
Definition podFailureMessage (pod : Pod) : string :=
  if negb (String.eqb (p_Reason pod) "") then
    if negb (String.eqb (p_Message pod) "") then p_Reason pod +:+ ": " +:+ p_Message pod
    else p_Reason pod
  else if negb (String.eqb (p_Message pod) "") then p_Message pod
  else "Pod failed".

(** src/internal/workspace/podstate.go:517-528 containerStateMessage *)
Definition containerStateMessage (containerName reason message : string) : string :=
  if negb (String.eqb reason "") && negb (String.eqb message "")
  then containerName +:+ " (" +:+ reason +:+ "): " +:+ message
  else if negb (String.eqb reason "") then containerName +:+ ": " +:+ reason
  else if negb (String.eqb message "") then containerName +:+ ": " +:+ message
  else "Container " +:+ containerName +:+ " waiting".

(** src/internal/workspace/podstate.go:530-545 initContainerFailMessage *)
Definition initContainerFailMessage (cs : ContainerStatus) : string :=
  match Terminated_ cs with
  | None => "Init container " +:+ cs_Name cs +:+ " failed"
  | Some term =>
      if negb (String.eqb (t_Reason term) "") && negb (String.eqb (t_Message term) "")
      then "Init container " +:+ cs_Name cs +:+ " failed: " +:+ t_Reason term +:+ ": " +:+ t_Message term
      else if negb (String.eqb (t_Reason term) "")
      then "Init container " +:+ cs_Name cs +:+ " failed: " +:+ t_Reason term
      else if negb (String.eqb (t_Message term) "")
      then "Init container " +:+ cs_Name cs +:+ " failed: " +:+ t_Message term
      else "Init container " +:+ cs_Name cs +:+ " exited with code " +:+ pretty (ExitCode term)
  end.

(** src/internal/workspace/podstate.go:547-554 startingMessage *)
Definition startingMessage (pod : Pod) : string :=
  match find (fun cs => negb (Ready cs)) (ContainerStatuses pod) with
  | Some cs => "Container " +:+ cs_Name cs +:+ " is starting"
  | None => "Containers are starting"
  end.

(** src/internal/workspace/helpers.go:110-123 formatLastFailMessage *)
Definition formatLastFailMessage (reason msg : string) : string :=
  let reason := trim_space reason in
  let msg := trim_space msg in
  if String.eqb reason "" && String.eqb msg "" then ""
  else if negb (String.eqb reason "") && negb (String.eqb msg "") then reason +:+ ": " +:+ msg
  else if negb (String.eqb reason "") then reason
  else msg.

(** The closure: [best] is the reason, message and time found so far.

    src/internal/workspace/helpers.go:66-80 podLastFailure *)
Definition considerTerminated (best : option (string * string * Z)) (t : option Terminated)
    : option (string * string * Z) :=
  match t with
  | None => best
  | Some t =>
      if Z.eqb (ExitCode t) 0 then best
      else
        let reason := if String.eqb (t_Reason t) "" then "ContainerTerminated" else t_Reason t in
        match best with
        | None => Some (reason, t_Message t, FinishedAt t)
        | Some (_, _, bestAt) =>
            if (bestAt <? FinishedAt t)%Z then Some (reason, t_Message t, FinishedAt t) else best
        end
  end.

(** The terminations podLastFailure looks at, in its order. *)
Definition terminations (pod : Pod) : list (option Terminated) :=
  flat_map (fun cs => [Terminated_ cs; LastTerminated cs])
    (InitContainerStatuses pod ++ ContainerStatuses pod).

(** src/internal/workspace/helpers.go:95-107 podLastFailure *)
Definition hard_waiting (pod : Pod) : string :=
  match find (fun cs => match Waiting cs with
                        | Some (reason, _) => isHardFailureReason reason
                        | None => false
                        end) (InitContainerStatuses pod ++ ContainerStatuses pod) with
  | Some cs => match Waiting cs with
               | Some (reason, message) => formatLastFailMessage reason message
               | None => ""
               end
  | None => ""
  end.

(** src/internal/workspace/helpers.go:54-108 podLastFailure *)
Definition podLastFailure (pod : option Pod) : string :=
  match pod with
  | None => ""
  | Some pod =>
      match foldl considerTerminated None (terminations pod) with
      | Some (reason, msg, _) => formatLastFailMessage reason msg
      | None => hard_waiting pod
      end
  end.

(** src/internal/workspace/podstate.go:556-565 podPVCNames *)
Definition podPVCNames (pod : Pod) : gset string :=
  list_to_set (filter (fun c => c <> "") (VolumeClaims pod)).

(** src/internal/workspace/helpers.go:27-37 podMountsSecret *)
Definition podMountsSecret (pod : Pod) (secretName : string) : bool :=
  if String.eqb secretName "" then false else existsb (String.eqb secretName) (VolumeSecrets pod).

(** src/internal/workspace/helpers.go:125-151 podNodeSelectors *)
Definition podNodeSelectors (pod : Pod) : gmap string string :=
  foldl (fun out e =>
           if negb (String.eqb (req_Operator e) "In")
              || String.eqb (req_Key e) "kubernetes.io/hostname" then out
           else <[req_Key e := join "," (req_Values e)]> out)
    (NodeSelector pod) (concat (RequiredTerms pod)).

(** src/internal/workspace/helpers.go:153-160 podRuntime *)
Definition podRuntime (pod : Pod) : string := default "" (RuntimeClassName pod).

Definition LabelHostname : string := "k8shell.io/hostname".
Definition LabelStopRequested : string := "k8shell.io/stop-requested".

Definition label (labels : gmap string string) (key : string) : string := default "" (labels !! key).

(** src/internal/workspace/helpers.go:162-180 podHostname *)
Definition podHostname (pod : option Pod) : string :=
  match pod with
  | None => ""
  | Some pod =>
      let h := trim_space (label (p_Labels pod) LabelHostname) in
      if negb (String.eqb h "") then h
      else
        let hn := trim_space (Hostname pod) in
        let sd := trim_space (Subdomain pod) in
        if String.eqb hn "" || String.eqb sd "" then ""
        else hn +:+ "." +:+ sd +:+ "." +:+ p_Namespace pod
  end.

(** ** Events *)

Definition one_of (l : list string) (s : string) : bool := existsb (String.eqb s) l.

(** The event's own time, its creation when it has none.

    src/internal/workspace/podstate.go:418-421 classifyEvent *)
Definition event_time (ev : Event) : Z :=
  if Z.eqb (LastTimestamp ev) 0 then ev_Creation ev else LastTimestamp ev.

(** src/internal/workspace/podstate.go:432-460 classifyEvent *)
Definition event_severity (ev : Event) (maxRestarts crashLoopThreshold : Z) : EventSeverity :=
  if String.eqb (ev_Kind ev) "Pod" then
    if one_of ["ImagePullBackOff"; "ErrImagePull"; "InvalidImageName"] (ev_Reason ev)
    then EventSeverityCritical
    else if String.eqb (ev_Reason ev) "OOMKilled" then EventSeverityCritical
    else if String.eqb (ev_Reason ev) "BackOff" then
      if (crashLoopThreshold <=? maxRestarts)%Z then EventSeverityCritical else EventSeverityWarning
    else if one_of ["FailedScheduling"; "Unhealthy"; "NodeNotReady"] (ev_Reason ev)
    then EventSeverityWarning
    else if one_of ["FailedMount"; "FailedAttachVolume"; "FailedMapVolume"] (ev_Reason ev)
    then EventSeverityWarning
    else EventSeverityInfo
  else if String.eqb (ev_Kind ev) "PersistentVolumeClaim" then
    if String.eqb (ev_Reason ev) "FailedBinding" then EventSeverityCritical
    else if String.eqb (ev_Reason ev) "ProvisioningFailed" then EventSeverityWarning
    else EventSeverityInfo
  else EventSeverityInfo.

(** src/internal/workspace/podstate.go:416-463 classifyEvent *)
Definition classifyEvent (ev : Event) (maxRestarts crashLoopThreshold : Z) : PodEvent :=
  {| pe_Time := event_time ev; ObjectKind := ev_Kind ev; ObjectName := ev_Name ev;
     pe_Reason := ev_Reason ev; pe_Message := ev_Message ev;
     Severity := event_severity ev maxRestarts crashLoopThreshold |}.

(** The first critical event's text.

    src/internal/workspace/podstate.go:164-171 AnalyzePod *)
Definition critical_error (events : list PodEvent) : option string :=
  (fun pe => pe_Reason pe +:+ ": " +:+ pe_Message pe) <$>
  find (fun pe => bool_decide (Severity pe = EventSeverityCritical)) events.

(** [containerPull]: per field path the last Pulling or Pulled event and its time.

    src/internal/workspace/podstate.go:173-182 AnalyzePod *)
Definition pull_step (pulls : gmap string (string * Z)) (ev : Event) : gmap string (string * Z) :=
  if String.eqb (ev_Reason ev) "Pulling" || String.eqb (ev_Reason ev) "Pulled" then
    match pulls !! FieldPath ev with
    | Some (_, t) =>
        if (t <? event_time ev)%Z then <[FieldPath ev := (ev_Reason ev, event_time ev)]> pulls
        else pulls
    | None => <[FieldPath ev := (ev_Reason ev, event_time ev)]> pulls
    end
  else pulls.

(** src/internal/workspace/podstate.go:158-190 AnalyzePod *)
Definition active_pulling (events : list Event) : bool :=
  let pulls := foldl pull_step ∅ events in
  existsb (fun kv => String.eqb kv.2.1 "Pulling") (map_to_list pulls).

(** ** The analysis *)

(** What a decision amounts to: the stage, its message, and a critical error. *)
Definition verdict : Type := PodLifecycleStage * string * option string.

(** src/internal/workspace/podstate.go:194-214 AnalyzePod *)
Definition deleting_verdict (pod : Pod) (now : Z) : verdict :=
  if podNodeLost pod now
  then (StageNodeLost,
        "Node " +:+ NodeName pod +:+ " is unreachable; workspace will stop when it returns", None)
  else if String.eqb (label (p_Labels pod) LabelStopRequested) "true"
  then (StageStopping, "Workspace is stopping", None)
  else (StageTerminating, "Workspace is terminating", None).

(** One init container; [None] when it has completed.

    src/internal/workspace/podstate.go:277-342 AnalyzePod *)
Definition init_verdict (cs : ContainerStatus) : option verdict :=
  if (match Terminated_ cs with Some t => Z.eqb (ExitCode t) 0 | None => false end) then None
  else Some
    match Waiting cs with
    | Some (reason, msg) =>
        let text := containerStateMessage (cs_Name cs) reason msg in
        if isHardFailureReason reason then (StageFailed, text, Some text)
        else (StageInitializing, text, None)
    | None =>
        if Running cs then (StageInitializing, "Running init container " +:+ cs_Name cs, None)
        else match Terminated_ cs with
             | Some _ =>
                 let msg := initContainerFailMessage cs in (StageFailed, msg, Some msg)
             | None => (StageInitializing, "Waiting for init container " +:+ cs_Name cs, None)
             end
    end.

(** One container; [None] when it is not waiting for a reason.

    src/internal/workspace/podstate.go:356-383 AnalyzePod *)
Definition container_verdict (cs : ContainerStatus) : option verdict :=
  match Waiting cs with
  | Some (reason, msg) =>
      if String.eqb reason "" then None
      else
        let text := containerStateMessage (cs_Name cs) reason msg in
        Some (if isHardFailureReason reason then (StageFailed, text, Some text)
              else (StageStarting, text, None))
  | None => None
  end.

(** The first verdict of a loop over containers. *)
Fixpoint first_verdict (f : ContainerStatus -> option verdict) (l : list ContainerStatus)
    : option verdict :=
  match l with
  | [] => None
  | cs :: l => match f cs with Some v => Some v | None => first_verdict f l end
  end.

(** src/internal/workspace/podstate.go:344-413 AnalyzePod *)
Definition containers_verdict (pod : Pod) : verdict :=
  match ContainerStatuses pod with
  | [] => (StageStarting, "Waiting for containers to start", None)
  | _ =>
      match first_verdict container_verdict (ContainerStatuses pod) with
      | Some v => v
      | None =>
          if forallb Ready (ContainerStatuses pod) then (StageRunning, "Workspace is ready", None)
          else (StageStarting, startingMessage pod, None)
      end
  end.

(** src/internal/workspace/podstate.go:192-285 AnalyzePod *)
Definition pod_verdict (pod : Pod) (events : list Event) (podEvents : list PodEvent) (now : Z)
    : verdict :=
  let criticalErr := critical_error podEvents in
  if DeletionTimestamp pod then deleting_verdict pod now
  else if String.eqb (Phase pod) "Succeeded" then (StageStopped, "Workspace completed", None)
  else if String.eqb (Phase pod) "Failed" then (StageFailed, podFailureMessage pod, criticalErr)
  else if String.eqb (NodeName pod) "" then (StageScheduling, schedulingMessage pod, None)
  else if active_pulling events then (StagePulling, "Downloading container images", None)
  else match criticalErr with
       | Some e => (StageFailed, e, Some e)
       | None =>
           match first_verdict init_verdict (InitContainerStatuses pod) with
           | Some v => v
           | None => containers_verdict pod
           end
       end.

(** [now] is [time.Now()].

    src/internal/workspace/podstate.go:138-250 AnalyzePod *)
Definition AnalyzePod (pod : option Pod) (events : list Event) (crashLoopThreshold now : Z)
    : PodStateSnapshot :=
  match pod with
  | None =>
      {| Created := 0; Stage := StageUnknown; Status := WorkspaceStatusUnknown;
         Message := "Pod not found"; Restarts := 0; LastFailMessage := ""; CriticalErr := None;
         Events := [] |}
  | Some p =>
      let podEvents :=
        (fun ev => classifyEvent ev (podMaxContainerRestarts p) crashLoopThreshold) <$> events in
      let '(stage, message, criticalErr) := pod_verdict p events podEvents now in
      {| Created := CreationTimestamp p; Stage := stage; Status := stageToStatus stage;
         Message := message; Restarts := podRestartCount pod;
         LastFailMessage := podLastFailure pod; CriticalErr := criticalErr; Events := podEvents |}
  end.

(** src/internal/workspace/podstate.go:567-579 snapToWorkspaceStatus *)
Definition snapToWorkspaceStatus (snap : option PodStateSnapshot)
    : option (Z * WorkspaceStatusMessage * string * Z * string) :=
  (fun s => (Created s, Status s, Message s, Restarts s, LastFailMessage s)) <$> snap.

(** ** Lemmas on pull events *)

Definition is_pull (ev : Event) : bool :=
  String.eqb (ev_Reason ev) "Pulling" || String.eqb (ev_Reason ev) "Pulled".

(** [ev] is among the last pull events of its container. *)
Definition latest_pull (events : list Event) (ev : Event) : Prop :=
  ev ∈ events /\ is_pull ev = true /\
  forall ev', ev' ∈ events -> is_pull ev' = true -> FieldPath ev' = FieldPath ev ->
    (event_time ev' <= event_time ev)%Z.

Lemma pulls_spec events fp :
  match foldl pull_step ∅ events !! fp with
  | Some (r, t) => exists ev, latest_pull events ev /\ FieldPath ev = fp /\ ev_Reason ev = r /\ event_time ev = t
  | None => forall ev, ev ∈ events -> is_pull ev = true -> FieldPath ev <> fp
  end.
Proof.
  induction events as [|ev events IH] using rev_ind.
  { cbn. rewrite lookup_empty. by intros ev ?%not_elem_of_nil. }
  rewrite foldl_app. cbn. set (pulls := foldl pull_step ∅ events) in *. unfold pull_step.
  fold (is_pull ev). destruct (is_pull ev) eqn:Ep.
  2: { destruct (pulls !! fp) as [[r t]|].
       - destruct IH as (e & (Hin & He & Hmax) & Hfp & Hr & Ht). exists e. split_and!; try done.
         split_and!; [set_solver|done|]. intros e' [He'| ->%list_elem_of_singleton]%elem_of_app; [auto|congruence].
       - intros e [He| ->%list_elem_of_singleton]%elem_of_app; [auto|congruence]. }
  destruct (decide (FieldPath ev = fp)) as [<-|Hne].
  - destruct (pulls !! FieldPath ev) as [[r t]|] eqn:El.
    + destruct IH as (e & (Hin & He & Hmax) & Hfp & Hr & Ht).
      destruct (Z.ltb_spec t (event_time ev)).
      * rewrite lookup_insert_eq. exists ev. split_and!; try done. split_and!; [set_solver|done|].
        intros e' [He'| ->%list_elem_of_singleton]%elem_of_app Hp Hf; [|lia].
        specialize (Hmax e' He' Hp ltac:(congruence)). lia.
      * rewrite El. exists e. split_and!; try done. split_and!; [set_solver|done|].
        intros e' [He'| ->%list_elem_of_singleton]%elem_of_app Hp Hf; [auto|lia].
    + rewrite lookup_insert_eq. exists ev. split_and!; try done. split_and!; [set_solver|done|].
      intros e' [He'| ->%list_elem_of_singleton]%elem_of_app Hp Hf; [by destruct (IH e')|lia].
  - assert ((match pulls !! FieldPath ev with
             | Some (_, t) => if (t <? event_time ev)%Z
                              then <[FieldPath ev:=(ev_Reason ev, event_time ev)]> pulls else pulls
             | None => <[FieldPath ev:=(ev_Reason ev, event_time ev)]> pulls
             end) !! fp = pulls !! fp) as ->.
    { destruct (pulls !! FieldPath ev) as [[??]|]; [case_goal|]; by rewrite ?lookup_insert_ne. }
    destruct (pulls !! fp) as [[r t]|].
    + destruct IH as (e & (Hin & He & Hmax) & Hfp & Hr & Ht). exists e. split_and!; try done.
      split_and!; [set_solver|done|]. intros e' [He'| ->%list_elem_of_singleton]%elem_of_app; [auto|congruence].
    + intros e [He| ->%list_elem_of_singleton]%elem_of_app; [auto|congruence].
Qed.

(** Pull events of one container at one time agree. *)
Definition pulls_apart (events : list Event) : Prop :=
  forall e1 e2, e1 ∈ events -> e2 ∈ events -> is_pull e1 = true -> is_pull e2 = true ->
    FieldPath e1 = FieldPath e2 -> event_time e1 = event_time e2 -> ev_Reason e1 = ev_Reason e2.

Lemma active_pulling_spec events :
  pulls_apart events ->
  active_pulling events = true <-> exists ev, latest_pull events ev /\ ev_Reason ev = "Pulling".
Proof.
  intros Ha. unfold active_pulling. rewrite existsb_exists. split.
  - intros ([fp [r t]] & Hin & Hr). cbn in Hr. apply String.eqb_eq in Hr as ->.
    apply list_elem_of_In, elem_of_map_to_list in Hin.
    pose proof (pulls_spec events fp) as H. rewrite Hin in H. naive_solver.
  - intros (ev & Hl & Hr). pose proof (pulls_spec events (FieldPath ev)) as H.
    destruct (foldl pull_step ∅ events !! FieldPath ev) as [[r t]|] eqn:E.
    + exists (FieldPath ev, (r, t)). split; [by apply list_elem_of_In, elem_of_map_to_list|].
      cbn. apply String.eqb_eq. destruct H as (e & (H1 & H2 & H3) & Hfp & <- & Ht).
      destruct Hl as (L1 & L2 & L3). rewrite <- Hr. apply Ha; try done.
      specialize (H3 ev L1 L2 (eq_sym Hfp)). specialize (L3 e H1 H2 Hfp). lia.
    + destruct Hl as (L1 & L2 & _). by destruct (H ev).
Qed.

Lemma bool_iff b1 b2 : (b1 = true <-> b2 = true) -> b1 = b2.
Proof. destruct b1, b2; naive_solver. Qed.

Lemma active_pulling_perm e1 e2 :
  e1 ≡ₚ e2 -> pulls_apart e1 -> active_pulling e1 = active_pulling e2.
Proof.
  intros Hp Ha. apply bool_iff. assert (pulls_apart e2) as Ha2.
  { intros x y Hx Hy. apply Ha; by rewrite Hp. }
  rewrite !active_pulling_spec by done. unfold latest_pull. by setoid_rewrite Hp.
Qed.

Lemma critical_error_perm (f : Event -> PodEvent) l1 l2 :
  l1 ≡ₚ l2 -> is_Some (critical_error (f <$> l1)) <-> is_Some (critical_error (f <$> l2)).
Proof.
  assert (forall l : list PodEvent, is_Some (critical_error l) <->
            exists pe, pe ∈ l /\ Severity pe = EventSeverityCritical) as H.
  { intros l. unfold critical_error. rewrite fmap_is_Some. split.
    - intros [pe Hf%find_some]. destruct Hf as [Hin Hs]. bool_simpl.
      exists pe. by rewrite list_elem_of_In.
    - intros (pe & Hin & Hs). destruct (find _ l) eqn:E; [by eexists|].
      apply (find_none _ _ E) in Hin || (apply list_elem_of_In in Hin; apply (find_none _ _ E) in Hin).
      by bool_simpl. }
  intros Hp. rewrite !H. by setoid_rewrite Hp.
Qed.

(** ** Lemmas on verdicts *)

Lemma first_verdict_None f l : first_verdict f l = None <-> forall cs, cs ∈ l -> f cs = None.
Proof.
  induction l as [|cs l IH]; cbn; [split; [by intros _ ? ?%not_elem_of_nil|done]|].
  destruct (f cs) eqn:E; [split; [done|]; intros H; rewrite H in E by left; done|].
  rewrite IH. set_solver.
Qed.

Lemma first_verdict_Some f l v : first_verdict f l = Some v -> exists cs, cs ∈ l /\ f cs = Some v.
Proof.
  induction l as [|cs l IH]; cbn; [done|]. destruct (f cs) eqn:E; [intros [= ->]|intros H%IH];
    set_solver.
Qed.

(** A critical error makes the verdict a failure. *)
Lemma verdict_critical pod events pes now :
  (pod_verdict pod events pes now).2 <> None -> (pod_verdict pod events pes now).1.1 = StageFailed.
Proof.
  unfold pod_verdict, deleting_verdict. repeat (case_goal; try done).
  - apply first_verdict_Some in Heqo1 as (cs & _ & Hv). unfold init_verdict in Hv.
    repeat case_in Hv; by simplify_eq.
  - unfold containers_verdict. repeat (case_goal; try done).
    apply first_verdict_Some in Heqo2 as (cs & _ & Hv). unfold container_verdict in Hv.
    repeat case_in Hv; by simplify_eq.
Qed.

Lemma first_init_stage l v :
  first_verdict init_verdict l = Some v -> v.1.1 = StageInitializing \/ v.1.1 = StageFailed.
Proof.
  intros (cs & _ & Hv)%first_verdict_Some. unfold init_verdict in Hv.
  repeat case_in Hv; simplify_eq; auto.
Qed.

Lemma containers_stage pod :
  (containers_verdict pod).1.1 = StageStarting \/ (containers_verdict pod).1.1 = StageFailed \/
  (containers_verdict pod).1.1 = StageRunning.
Proof.
  unfold containers_verdict. repeat (case_goal; auto).
  apply first_verdict_Some in Heqo as (cs & _ & Hv). unfold container_verdict in Hv.
  repeat case_in Hv; simplify_eq; auto.
Qed.

(** The stages of a pod that is not being deleted. *)
Lemma verdict_alive pod events pes now :
  DeletionTimestamp pod = None ->
  (pod_verdict pod events pes now).1.1 ∈
    [StageStopped; StageFailed; StageScheduling; StageInitializing; StageStarting; StageRunning] \/
  ((pod_verdict pod events pes now).1.1 = StagePulling /\ active_pulling events = true).
Proof.
  intros Hd. unfold pod_verdict. rewrite Hd. rewrite !elem_of_cons.
  destruct (String.eqb (Phase pod) "Succeeded"); [cbn; tauto|].
  destruct (String.eqb (Phase pod) "Failed"); [cbn; tauto|].
  destruct (String.eqb (NodeName pod) ""); [cbn; tauto|].
  destruct (active_pulling events); [cbn; tauto|].
  destruct (critical_error pes); [cbn; tauto|].
  destruct (first_verdict init_verdict _) as [v|] eqn:E.
  - apply first_init_stage in E. tauto.
  - pose proof (containers_stage pod). tauto.
Qed.

Lemma verdict_deletion pod events pes now :
  is_Some (DeletionTimestamp pod) <->
  (pod_verdict pod events pes now).1.1 = StageTerminating \/
  (pod_verdict pod events pes now).1.1 = StageStopping \/
  (pod_verdict pod events pes now).1.1 = StageNodeLost.
Proof.
  destruct (DeletionTimestamp pod) eqn:Hd.
  - split; [|by eexists]. intros _. unfold pod_verdict, deleting_verdict. rewrite Hd.
    destruct (podNodeLost pod now); [cbn; tauto|]. destruct (String.eqb _ "true"); cbn; tauto.
  - split; [by intros [? ?]|]. destruct (verdict_alive pod events pes now Hd) as [H|[H _]].
    + rewrite !elem_of_cons, elem_of_nil in H. intros. destruct_or?; congruence.
    + intros. destruct_or?; congruence.
Qed.

Lemma verdict_pulling pod events pes now :
  (pod_verdict pod events pes now).1.1 = StagePulling -> events <> [].
Proof.
  destruct (DeletionTimestamp pod) eqn:Hd.
  - intros H. destruct (proj1 (verdict_deletion pod events pes now)) as [|[|]]; [by eexists|congruence..].
  - destruct (verdict_alive pod events pes now Hd) as [H|[_ H]]; [|by intros _ ->].
    rewrite !elem_of_cons, elem_of_nil in H. intros. destruct_or?; congruence.
Qed.

Lemma critical_error_None pes :
  critical_error pes = None <-> forall pe, pe ∈ pes -> Severity pe <> EventSeverityCritical.
Proof.
  unfold critical_error. rewrite fmap_None. split.
  - intros H pe Hin%list_elem_of_In. apply (find_none _ _ H) in Hin. by bool_simpl.
  - intros H. destruct (find _ pes) as [pe|] eqn:E; [|done].
    apply find_some in E as [Hin%list_elem_of_In Hs]. bool_simpl. by destruct (H pe).
Qed.

Lemma init_verdict_None cs :
  init_verdict cs = None <-> exists t, Terminated_ cs = Some t /\ ExitCode t = 0%Z.
Proof.
  unfold init_verdict. destruct (Terminated_ cs) as [t|]; [|split; [done|naive_solver]].
  destruct (Z.eqb_spec (ExitCode t) 0); split; try done; naive_solver.
Qed.

Lemma containers_running pod :
  (containers_verdict pod).1.1 = StageRunning <->
  ContainerStatuses pod <> [] /\
  forall cs, cs ∈ ContainerStatuses pod -> Ready cs = true /\
    forall reason msg, Waiting cs = Some (reason, msg) -> reason = "".
Proof.
  assert (forall l, first_verdict container_verdict l = None <->
    forall cs, cs ∈ l -> forall reason msg, Waiting cs = Some (reason, msg) -> reason = "") as Hw.
  { intros l. rewrite first_verdict_None. unfold container_verdict. split.
    - intros H cs Hin reason msg E. specialize (H cs Hin). rewrite E in H.
      by destruct (String.eqb_spec reason "").
    - intros H cs Hin. destruct (Waiting cs) as [[reason msg]|] eqn:E; [|done].
      by rewrite (H cs Hin reason msg E). }
  unfold containers_verdict. destruct (ContainerStatuses pod) as [|c l] eqn:El; [naive_solver|].
  assert (ContainerStatuses pod <> []) as Hne by congruence. rewrite <- El. clear El.
  destruct (first_verdict _ _) as [v|] eqn:E.
  - split.
    + intros Hv. apply first_verdict_Some in E as (cs & _ & Hc). unfold container_verdict in Hc.
      repeat case_in Hc; by simplify_eq.
    + intros [_ H]. assert (first_verdict container_verdict (ContainerStatuses pod) = None); [|congruence].
      apply Hw. intros cs Hin. by apply H.
  - rewrite Hw in E. destruct (forallb Ready _) eqn:Er.
    + rewrite forallb_forall in Er. cbn. split; [|done]. intros _. split; [done|].
      intros cs Hin. split; [apply Er; by apply list_elem_of_In|by apply E].
    + split; [done|]. intros [_ H]. exfalso. apply not_true_iff_false in Er. apply Er.
      apply forallb_forall. intros cs Hin. apply H. by apply list_elem_of_In.
Qed.

Lemma analyze_stage pod events threshold now :
  Stage (AnalyzePod (Some pod) events threshold now)
  = (pod_verdict pod events
       ((fun ev => classifyEvent ev (podMaxContainerRestarts pod) threshold) <$> events) now).1.1.
Proof. unfold AnalyzePod. by destruct (pod_verdict _ _ _ _) as [[stage msg] e]. Qed.

Lemma wrap32_add a b : wrap32 (wrap32 a + b) = wrap32 (a + b).
Proof.
  unfold wrap32.
  replace ((a + 2 ^ 31) mod 2 ^ 32 - 2 ^ 31 + b + 2 ^ 31)%Z
    with ((a + 2 ^ 31) mod 2 ^ 32 + b)%Z by lia.
  rewrite Zplus_mod_idemp_l. do 2 f_equal. lia.
Qed.

Lemma wrap32_foldl l acc :
  (- 2 ^ 31 <= acc < 2 ^ 31)%Z ->
  foldl (fun total cs => wrap32 (total + RestartCount cs)) acc l
    = wrap32 (acc + foldr (fun cs z => RestartCount cs + z)%Z 0%Z l).
Proof.
  revert acc. induction l as [|cs l IH]; intros acc Hacc; cbn.
  - by rewrite Z.add_0_r, wrap32_id.
  - rewrite IH by apply wrap32_range. rewrite wrap32_add. f_equal. lia.
Qed.

Lemma max_restarts_foldl l acc :
  let m := foldl (fun m cs => if (m <? RestartCount cs)%Z then RestartCount cs else m) acc l in
  (acc <= m)%Z /\ (forall cs, cs ∈ l -> (RestartCount cs <= m)%Z) /\
  (m = acc \/ exists cs, cs ∈ l /\ RestartCount cs = m).
Proof.
  revert acc. induction l as [|cs l IH]; intros acc; cbn.
  { split_and!; [lia|by intros ? ?%not_elem_of_nil|by left]. }
  destruct (Z.ltb_spec acc (RestartCount cs)); destruct (IH (if (acc <? RestartCount cs)%Z then RestartCount cs else acc))
    as (H1 & H2 & H3); destruct (Z.ltb_spec acc (RestartCount cs)); try lia; split_and!; try lia;
    try (intros x [->|Hx]%elem_of_cons; [lia|by apply H2]); destruct H3 as [H3|(x & ? & ?)];
    first [by left | right; exists cs; split; [left|lia] | right; exists x; split; [by right|done]].
Qed.

(** ** The theorems *)

(** C25. A snapshot is consistent: its status is that of its stage, a critical
    error means the stage is Failed, a pod being deleted is in one of the three
    deletion stages with no critical error, without events a pod is never
    reported as pulling, and every event is reported, in order. *)
Theorem AnalyzePod_consistent pod events threshold now :
  let s := AnalyzePod pod events threshold now in
  Status s = stageToStatus (Stage s) /\
  (CriticalErr s <> None -> Stage s = StageFailed) /\
  (forall p, pod = Some p ->
     is_Some (DeletionTimestamp p) <->
     Stage s = StageTerminating \/ Stage s = StageStopping \/ Stage s = StageNodeLost) /\
  (events = [] -> Stage s <> StagePulling) /\
  (is_Some pod -> pe_Message <$> Events s = ev_Message <$> events).
Proof.
  destruct pod as [p|]; [|by split_and!; [| |intros ? [=]| |intros [? [=]]]].
  unfold AnalyzePod. set (pes := _ <$> events). cbn zeta.
  pose proof (verdict_critical p events pes now) as Hc.
  pose proof (verdict_deletion p events pes now) as Hd.
  pose proof (verdict_pulling p events pes now) as Hp.
  destruct (pod_verdict p events pes now) as [[stage msg] e]. cbn in *. split_and!; try done.
  - by intros ? [= <-].
  - intros He Hst. by apply Hp in Hst.
  - intros _. unfold pes. by rewrite <- list_fmap_compose.
Qed.

(** A pod is reported as running exactly when it is: not being deleted, not
    finished, on a node, with no image being pulled and no critical event, every
    init container completed, at least one container, none waiting for a reason
    and all ready. *)
Theorem AnalyzePod_running pod events threshold now :
  Stage (AnalyzePod (Some pod) events threshold now) = StageRunning <->
  DeletionTimestamp pod = None /\ Phase pod <> "Succeeded" /\ Phase pod <> "Failed" /\
  NodeName pod <> "" /\ active_pulling events = false /\
  (forall ev, ev ∈ events ->
     event_severity ev (podMaxContainerRestarts pod) threshold <> EventSeverityCritical) /\
  (forall cs, cs ∈ InitContainerStatuses pod -> exists t, Terminated_ cs = Some t /\ ExitCode t = 0%Z) /\
  ContainerStatuses pod <> [] /\
  (forall cs, cs ∈ ContainerStatuses pod -> Ready cs = true /\
     forall reason msg, Waiting cs = Some (reason, msg) -> reason = "").
Proof.
  rewrite analyze_stage. set (pes := _ <$> events).
  assert (critical_error pes = None <-> forall ev, ev ∈ events ->
    event_severity ev (podMaxContainerRestarts pod) threshold <> EventSeverityCritical) as Hc.
  { rewrite critical_error_None. unfold pes. setoid_rewrite list_elem_of_fmap. naive_solver. }
  assert (first_verdict init_verdict (InitContainerStatuses pod) = None <->
    forall cs, cs ∈ InitContainerStatuses pod ->
      exists t, Terminated_ cs = Some t /\ ExitCode t = 0%Z) as Hi.
  { rewrite first_verdict_None. by setoid_rewrite init_verdict_None. }
  rewrite <- Hc, <- Hi, <- containers_running. unfold pod_verdict.
  destruct (DeletionTimestamp pod) as [d|] eqn:Ed.
  { split; [|naive_solver]. intros H. exfalso.
    destruct (proj1 (verdict_deletion pod events pes now)) as [E|[E|E]]; [by eexists|..];
      unfold pod_verdict in E; rewrite Ed in E; congruence. }
  destruct (String.eqb_spec (Phase pod) "Succeeded"); [cbn; naive_solver|].
  destruct (String.eqb_spec (Phase pod) "Failed"); [cbn; naive_solver|].
  destruct (String.eqb_spec (NodeName pod) ""); [cbn; naive_solver|].
  destruct (active_pulling events); [cbn; naive_solver|].
  destruct (critical_error pes); [cbn; naive_solver|].
  destruct (first_verdict init_verdict _) as [v|] eqn:E; [|naive_solver].
  apply first_init_stage in E. split; [|naive_solver]. destruct E; congruence.
Qed.

(** In watch mode the known events reach the analysis in the order of a Go
    map, yet the stage does not depend on it, as long as no container has a
    Pulling and a Pulled event of the same time. *)
Theorem AnalyzePod_order_independent pod e1 e2 threshold now :
  e1 ≡ₚ e2 -> pulls_apart e1 ->
  Stage (AnalyzePod pod e1 threshold now) = Stage (AnalyzePod pod e2 threshold now).
Proof.
  intros Hp Ha. destruct pod as [pod|]; [|done]. rewrite !analyze_stage. unfold pod_verdict.
  rewrite (active_pulling_perm e1 e2) by done.
  set (f := fun ev => classifyEvent ev _ _). pose proof (critical_error_perm f e1 e2 Hp) as Hc.
  destruct (DeletionTimestamp pod); [done|].
  destruct (String.eqb (Phase pod) "Succeeded"); [done|].
  destruct (String.eqb (Phase pod) "Failed"); [done|].
  destruct (String.eqb (NodeName pod) ""); [done|].
  destruct (active_pulling e2); [done|].
  destruct (critical_error (f <$> e1)), (critical_error (f <$> e2)); try done.
  - by destruct (proj1 Hc); [eexists|].
  - by destruct (proj2 Hc); [eexists|].
Qed.

(** Kubernetes times have whole seconds, and an image that is on the node is
    pulled within one: with a Pulling and a Pulled event of the same time the
    stage is Pulling or not depending on the order alone. *)
Theorem AnalyzePod_equal_times_order_dependent :
  exists pod e1 e2 now, e1 ≡ₚ e2 /\
    Stage (AnalyzePod (Some pod) e1 defaultCrashLoopThreshold now) = StagePulling /\
    Stage (AnalyzePod (Some pod) e2 defaultCrashLoopThreshold now) = StageRunning.
Proof.
  set (cs := mkContainerStatus "app" true 0 None true None None).
  set (pod := mkPod "ws" "ns" ∅ 1 None "node" "Running" "" "" [] [] [cs] [] [] ∅ [] None "" "").
  set (pull := mkEvent "u1" 1 "Pod" "ws" "spec.containers{app}" "Pulling" "" 5 5).
  set (done := mkEvent "u2" 1 "Pod" "ws" "spec.containers{app}" "Pulled" "" 5 5).
  exists pod, [pull; done], [done; pull], 9%Z. split; [constructor|]. split; vm_compute; reflexivity.
Qed.

(** The two restart counts: the reported one is the sum over all containers
    as an int32, the exact sum while that fits; the one crash loops are judged
    by is the largest of any container, and 0 without containers. *)
Theorem restart_counts pod :
  let all := InitContainerStatuses pod ++ ContainerStatuses pod in
  let total := foldr (fun cs z => RestartCount cs + z)%Z 0%Z all in
  podRestartCount (Some pod) = wrap32 total /\
  ((0 <= total < 2 ^ 31)%Z -> podRestartCount (Some pod) = total) /\
  (0 <= podMaxContainerRestarts pod)%Z /\
  (forall cs, cs ∈ all -> (RestartCount cs <= podMaxContainerRestarts pod)%Z) /\
  (podMaxContainerRestarts pod = 0%Z \/
   exists cs, cs ∈ all /\ RestartCount cs = podMaxContainerRestarts pod).
Proof.
  intros all total.
  assert (podRestartCount (Some pod) = wrap32 total) as Ht.
  { unfold podRestartCount. by rewrite wrap32_foldl, Z.add_0_l by lia. }
  destruct (max_restarts_foldl (ContainerStatuses pod ++ InitContainerStatuses pod) 0) as (H1 & H2 & H3).
  fold (podMaxContainerRestarts pod) in *. split_and!; [done| |done| |].
  - intros. rewrite Ht. apply wrap32_id. lia.
  - intros cs Hcs. apply H2. unfold all in Hcs. set_solver.
  - destruct H3 as [?|(cs & Hcs & ?)]; [by left|]. right. exists cs. split; [|done].
    unfold all. set_solver.
Qed.

(** A crash loop shows in the failure message only through a recorded
    termination: a container waiting in CrashLoopBackOff is no fallback. *)
Theorem podLastFailure_crash_loop pod :
  (forall t, Some t ∈ terminations pod -> ExitCode t = 0%Z) ->
  (forall cs reason msg, cs ∈ InitContainerStatuses pod ++ ContainerStatuses pod ->
     Waiting cs = Some (reason, msg) -> reason = "CrashLoopBackOff") ->
  podLastFailure (Some pod) = "".
Proof.
  intros Ht Hw. unfold podLastFailure.
  assert (foldl considerTerminated None (terminations pod) = None) as ->.
  { revert Ht. induction (terminations pod) as [|o l IH] using rev_ind; intros Ht; [done|].
    rewrite foldl_app. cbn. rewrite IH by (intros; apply Ht; set_solver).
    destruct o as [t|]; [|done]. cbn. by rewrite (Ht t) by set_solver. }
  unfold hard_waiting. destruct (find _ _) as [cs|] eqn:E; [|done].
  apply find_some in E as [Hin Hf]. destruct (Waiting cs) as [[reason msg]|] eqn:Ew; [|done].
  apply list_elem_of_In in Hin. by rewrite (Hw cs reason msg Hin Ew) in Hf.
Qed.

Module PodSample.
Definition ready : ContainerStatus := mkContainerStatus "app" true 0 None true None None.
Definition pod : Pod :=
  mkPod "ws" "ns" ∅ 1 None "node" "Running" "" "" [] [] [ready] [] [] ∅ [] None "" "".
Definition pull : Event := mkEvent "u1" 1 "Pod" "ws" "spec.containers{app}" "Pulling" "pulling" 5 5.
Definition pulled : Event := mkEvent "u2" 1 "Pod" "ws" "spec.containers{app}" "Pulled" "pulled" 6 6.
End PodSample.

Lemma AnalyzePod_order_independent_witness :
  Stage (AnalyzePod (Some PodSample.pod) [PodSample.pull; PodSample.pulled] 2 9) = StageRunning /\
  Stage (AnalyzePod (Some PodSample.pod) [PodSample.pull; PodSample.pulled] 2 9)
    = Stage (AnalyzePod (Some PodSample.pod) [PodSample.pulled; PodSample.pull] 2 9).
Proof.
  split; [vm_compute; reflexivity|].
  apply AnalyzePod_order_independent; [constructor|].
  intros e1 e2 H1 H2 _ _ _. rewrite !elem_of_cons, elem_of_nil in H1.
  rewrite !elem_of_cons, elem_of_nil in H2. intros Ht. destruct_or?; by subst.
Defined.
