(* ===== verification/PodWatch.v ===== *)
(** * Watching a pod

    The observation loop of internal/workspace/podstate.go as a state machine:
    one step per case of its select statement. The three goroutines that feed
    the loop only forward objects; here their messages are the inputs, in the
    order they arrive. *)

From Stdlib Require Import Ascii.
From S2P Require Import Prelude GoStrings PodState.

(** ** Durations *)

(** [time.Duration.Round(time.Second)], in seconds: half a second rounds away
    from zero. *)
Definition round_seconds (d : Z) : Z :=
  if (d <? 0)%Z then - ((- d + 500000000) / second) else (d + 500000000) / second.

(** [time.Duration.String] of a whole number of seconds. *)
Definition seconds_string (n : Z) : string :=
  let a := Z.abs n in
  let sign := if (n <? 0)%Z then "-" else "" in
  let h := (a / 3600)%Z in
  let m := (a / 60 mod 60)%Z in
  let s := (a mod 60)%Z in
  sign +:+
  (if (0 <? h)%Z then pretty h +:+ "h" +:+ pretty m +:+ "m" +:+ pretty s +:+ "s"
   else if (0 <? m)%Z then pretty m +:+ "m" +:+ pretty s +:+ "s"
   else pretty s +:+ "s").

(** ** The loop's state and messages *)

(** src/internal/workspace/podstate.go:857-862 watchLoop *)
Definition pullReportDelay : Z := 8 * second.
(** src/internal/workspace/podstate.go:861-861 watchLoop *)
Definition mountWarnDelay : Z := 30 * second.
(** src/internal/workspace/podstate.go:862-862 watchLoop *)
Definition stuckWarnDelay : Z := 60 * second.

(** src/internal/workspace/podstate.go:851-871 watchLoop *)
Record WatchState : Type := mkWatch {
  currentPod : Pod;
  knownEvents : gmap string Event;
  emitted : gset (string * Z);
  pullingStart : Z;
  pullingReported : bool;
  stageEnteredAt : Z;
  mountWarnEmitted : bool;
  stuckWarnEmitted : bool;
  lastStatus : WorkspaceStatusMessage;
  lastStage : PodLifecycleStage;
}.

(** [models.WorkspaceStreamEvent], without its timestamp. *)
Inductive StreamEvent : Type :=
| StreamStatus (object : string) (status : WorkspaceStatusMessage) (message : string)
| StreamEventMsg (object message : string).

Inductive watch_error : Type :=
| ContextCancelled
| TimeoutPulling (pod : string)
| TimeoutRunning (pod : string)
| Critical (message : string)
| FailedToStart (pod message : string)
| PodNotFound (pod : string)
| GetPodFailed (pod : string)
| DiscoveryFailed.

(** What the select statement receives. *)
Inductive input : Type :=
| CtxDone
| StuckTick
| TimeoutFired
| PodUpdate (pod : Pod)
| EventUpdate (ev : Event).

(** A step emits messages and goes on or returns. *)
Inductive outcome : Type :=
| Continue (st : WatchState)
| Return (snap : option PodStateSnapshot) (err : option watch_error).

(** src/internal/workspace/podstate.go:1094-1116 latestMountWarning *)
Definition latestMountWarning (events : list Event) : string :=
  (foldl (fun latest ev =>
            if negb (String.eqb (ev_Kind ev) "Pod") then latest
            else if one_of ["FailedMount"; "FailedAttachVolume"; "FailedMapVolume"] (ev_Reason ev)
            then if (latest.2 <? event_time ev)%Z then (ev_Message ev, event_time ev) else latest
            else latest) ("", 0%Z) events).1.

Section watch.
Variable podName : string.
Variable CrashLoopThreshold : Z.
(** [opts.Messages] is set. *)
Variable streaming : bool.
(** The order in which Go enumerates the known events. *)
Variable eventSlice : gmap string Event -> list Event.

(** src/internal/workspace/podstate.go:1052-1064 emitSnapshot *)
Definition emitSnapshot (snap : PodStateSnapshot) : list StreamEvent :=
  if streaming then [StreamStatus podName (Status snap) (Message snap)] else [].

(** src/internal/workspace/podstate.go:1066-1077 emitEvent *)
Definition emitEvent (pe : PodEvent) : list StreamEvent :=
  if streaming then [StreamEventMsg (ObjectKind pe +:+ "/" +:+ ObjectName pe)
                       (pe_Reason pe +:+ ": " +:+ pe_Message pe)] else [].

(** src/internal/workspace/podstate.go:1079-1092 emitWarningStatus *)
Definition emitWarningStatus (message : string) : list StreamEvent :=
  if streaming then [StreamStatus podName WorkspaceStatusWarning message] else [].

(** src/internal/workspace/podstate.go:651-655 Watch *)
Definition ready_message (snap : PodStateSnapshot) (now : Z) : PodStateSnapshot :=
  if bool_decide (Stage snap = StageRunning) && negb (Z.eqb (Created snap) 0)
  then {| Created := Created snap; Stage := Stage snap; Status := Status snap;
          Message := "Workspace is ready, provisioned in "
                     +:+ seconds_string (round_seconds (now - Created snap));
          Restarts := Restarts snap; LastFailMessage := LastFailMessage snap;
          CriticalErr := CriticalErr snap; Events := Events snap |}
  else snap.

(** src/internal/workspace/podstate.go:995-1020 watchLoop *)
Definition terminal (snap : PodStateSnapshot) : option (option PodStateSnapshot * option watch_error) :=
  match CriticalErr snap with
  | Some e => Some (Some snap, Some (Critical e))
  | None =>
      match Stage snap with
      | StageRunning => Some (Some snap, None)
      | StageStopped | StageFailed => Some (Some snap, Some (FailedToStart podName (Message snap)))
      | _ => None
      end
  end.

(** src/internal/workspace/podstate.go:879-905 watchLoop *)
Definition tick (st : WatchState) (now : Z) : list StreamEvent * WatchState :=
  if bool_decide (lastStage st ∈ [StageScheduling; StageInitializing; StageStarting]) then
    let elapsed := (now - stageEnteredAt st)%Z in
    let mountMsg := latestMountWarning (eventSlice (knownEvents st)) in
    let mountWarn := negb (mountWarnEmitted st) && (mountWarnDelay <=? elapsed)%Z
                     && negb (String.eqb mountMsg "") in
    let stuckWarn := negb (stuckWarnEmitted st) && (stuckWarnDelay <=? elapsed)%Z in
    ((if mountWarn then emitWarningStatus ("Volume mount issue: " +:+ mountMsg) else [])
     ++ (if stuckWarn
         then emitWarningStatus ("Workspace is taking longer than expected to start ("
                                 +:+ seconds_string (round_seconds elapsed) +:+ " elapsed)")
         else []),
     {| currentPod := currentPod st; knownEvents := knownEvents st; emitted := emitted st;
        pullingStart := pullingStart st; pullingReported := pullingReported st;
        stageEnteredAt := stageEnteredAt st;
        mountWarnEmitted := mountWarnEmitted st || mountWarn;
        stuckWarnEmitted := stuckWarnEmitted st || stuckWarn;
        lastStatus := lastStatus st; lastStage := lastStage st |})
  else ([], st).

(** A pod object, or an event and the message of its first sight at this count.

    src/internal/workspace/podstate.go:925-948 watchLoop *)
Definition receive (st : WatchState) (pod : Pod) (ev : option Event)
    : list StreamEvent * gmap string Event * gset (string * Z) :=
  match ev with
  | None => ([], knownEvents st, emitted st)
  | Some ev =>
      let known := <[ev_UID ev := ev]> (knownEvents st) in
      let key := (ev_UID ev, ev_Count ev) in
      if bool_decide (key ∈ emitted st) then ([], known, emitted st)
      else (emitEvent (classifyEvent ev (podMaxContainerRestarts pod) CrashLoopThreshold),
            known, {[key]} ∪ emitted st)
  end.

(** [now] is the time of this step.

    src/internal/workspace/podstate.go:950-1020 watchLoop *)
Definition update (st : WatchState) (pod : Pod) (ev : option Event) (now : Z)
    : list StreamEvent * outcome :=
  let '(out, known, emitted) := receive st pod ev in
  let snap := ready_message (AnalyzePod (Some pod) (eventSlice known) CrashLoopThreshold now) now in
  let pulling := bool_decide (Stage snap = StagePulling) in
  let start := if pulling then (if Z.eqb (pullingStart st) 0 then now else pullingStart st) else 0%Z in
  let reported := if pulling then pullingReported st else false in
  let changed := negb (bool_decide (Status snap = lastStatus st))
                 || negb (bool_decide (Stage snap = lastStage st)) in
  let report := pulling && negb reported && negb (Z.eqb start 0)
                && (pullReportDelay <=? now - start)%Z in
  (out ++ (if changed && negb pulling then emitSnapshot snap else [])
       ++ (if report then emitSnapshot snap else []),
   match terminal snap with
   | Some (s, e) => Return s e
   | None =>
       Continue {| currentPod := pod; knownEvents := known; emitted := emitted;
                   pullingStart := start; pullingReported := reported || report;
                   stageEnteredAt := if changed then now else stageEnteredAt st;
                   mountWarnEmitted := if changed then false else mountWarnEmitted st;
                   stuckWarnEmitted := if changed then false else stuckWarnEmitted st;
                   lastStatus := Status snap; lastStage := Stage snap |}
   end).

(** src/internal/workspace/podstate.go:907-918 watchLoop *)
Definition timed_out (st : WatchState) (now : Z) : watch_error :=
  if bool_decide (Status (AnalyzePod (Some (currentPod st)) (eventSlice (knownEvents st))
                            CrashLoopThreshold now) = WorkspaceStatusPulling)
  then TimeoutPulling podName else TimeoutRunning podName.

(** src/internal/workspace/podstate.go:873-1022 watchLoop *)
Definition step (st : WatchState) (now : Z) (i : input) : list StreamEvent * outcome :=
  match i with
  | CtxDone => ([], Return None (Some ContextCancelled))
  | StuckTick => let '(out, st) := tick st now in (out, Continue st)
  | TimeoutFired => ([], Return None (Some (timed_out st now)))
  | PodUpdate pod => update st pod None now
  | EventUpdate ev => update st (currentPod st) (Some ev) now
  end.

(** The loop over a finite prefix of what it receives.

    src/internal/workspace/podstate.go:873-1022 watchLoop *)
Fixpoint watchLoop (st : WatchState) (inputs : list (Z * input)) : list StreamEvent * outcome :=
  match inputs with
  | [] => ([], Continue st)
  | (now, i) :: inputs =>
      match step st now i with
      | (out, Continue st) => let '(rest, o) := watchLoop st inputs in (out ++ rest, o)
      | (out, Return s e) => (out, Return s e)
      end
  end.

(** src/internal/workspace/podstate.go:717-721 watchLoop *)
Definition initial_events (events : list Event) : gmap string Event :=
  foldl (fun m ev => <[ev_UID ev := ev]> m) ∅ events.

(** src/internal/workspace/podstate.go:851-871 watchLoop *)
Definition initial_state (pod : Pod) (events : list Event) (now : Z) : WatchState :=
  let known := initial_events events in
  let initSnap := AnalyzePod (Some pod) (eventSlice known) CrashLoopThreshold now in
  {| currentPod := pod; knownEvents := known; emitted := ∅; pullingStart := 0;
     pullingReported := false; stageEnteredAt := now; mountWarnEmitted := false;
     stuckWarnEmitted := false; lastStatus := Status initSnap; lastStage := Stage initSnap |}.

(** The events considered: those of the pod, and those of its own claims.

    src/internal/workspace/podstate.go:634-643 Watch *)
Definition watched_events (pod : Pod) (podEvents pvcEvents : list Event) : list Event :=
  podEvents ++ filter (fun ev => ev_Name ev ∈ podPVCNames pod) pvcEvents.

(** [pod] is what the API server answers: [None] for an error, [Some None] for
    not found. [inputs] is what the loop receives afterwards.

    src/internal/workspace/podstate.go:602-685 Watch *)
Definition Watch (pod : option (option Pod)) (podEvents pvcEvents : list Event) (now : Z)
    (waitForRunning : bool) (inputs : list (Z * input)) : list StreamEvent * outcome :=
  match pod with
  | None => ([], Return None (Some (GetPodFailed podName)))
  | Some None => ([], Return None (Some (PodNotFound podName)))
  | Some (Some pod) =>
      let events := watched_events pod podEvents pvcEvents in
      let snap := ready_message (AnalyzePod (Some pod) events CrashLoopThreshold now) now in
      if negb waitForRunning then ([], Return (Some snap) (Critical <$> CriticalErr snap))
      else match terminal snap with
           | Some (s, e) => (emitSnapshot snap, Return s e)
           | None =>
               let '(out, o) := watchLoop (initial_state pod events now) inputs in
               (emitSnapshot snap ++ out, o)
           end
  end.
End watch.

(** ** Discovery by label *)

(** [opts.Timeout] in seconds, when options are given; Go divides towards zero.

    src/internal/workspace/podstate.go:1184-1195 WatchByLabel *)
Definition discoveryTimeout (timeout : option Z) : Z :=
  match timeout with
  | Some t =>
      if (0 <? t)%Z then
        let half := Z.quot t 2 in
        let half := if (half <? 30)%Z then 30%Z else half in
        if (90 <? half)%Z then 90%Z else half
      else 60
  | None => 60
  end.

(** How long the lifecycle watch that follows may take: its timer is armed with
    the whole of [opts.Timeout].

    src/internal/workspace/podstate.go:708-713 watchLoop *)
Definition lifecycleTimeout (timeout : option Z) : option Z :=
  match timeout with
  | Some t => if (0 <? t)%Z then Some t else None
  | None => None
  end.

(** What the pod watch of the discovery delivers. *)
Inductive watch_item : Type :=
| WatchItem (type : string) (pod : option Pod)
| WatchClosed
| WatchDeadline.

Inductive discovery_error : Type :=
| ListPodsFailed | WatchPodsFailed | DiscoveryTimeout | WatchChannelClosed.

(** The loop over what the watch delivers; [None] while it goes on.

    src/internal/workspace/podstate.go:1151-1170 waitForPodByLabel *)
Fixpoint discovery_loop (items : list watch_item) : option (result discovery_error Pod) :=
  match items with
  | [] => None
  | WatchDeadline :: _ => Some (Err DiscoveryTimeout)
  | WatchClosed :: _ => Some (Err WatchChannelClosed)
  | WatchItem type pod :: items =>
      if negb (String.eqb type "ADDED") && negb (String.eqb type "MODIFIED") then discovery_loop items
      else match pod with
           | Some pod => if DeletionTimestamp pod then discovery_loop items else Some (Ok pod)
           | None => discovery_loop items
           end
  end.

(** [listed] and [watched] are [None] when the call fails.

    src/internal/workspace/podstate.go:1118-1171 waitForPodByLabel *)
Definition waitForPodByLabel (listed : option (list Pod)) (watched : option (list watch_item))
    : option (result discovery_error Pod) :=
  match listed with
  | None => Some (Err ListPodsFailed)
  | Some pods =>
      match find (fun p => if DeletionTimestamp p then false else true) pods with
      | Some pod => Some (Ok pod)
      | None => match watched with
                | None => Some (Err WatchPodsFailed)
                | Some items => discovery_loop items
                end
      end
  end.

(** The lifecycle watch [watch] of the pod found.

    src/internal/workspace/podstate.go:1173-1210 WatchByLabel *)
Definition WatchByLabel (listed : option (list Pod)) (watched : option (list watch_item))
    (watch : string -> list StreamEvent * outcome) : option (list StreamEvent * outcome) :=
  match waitForPodByLabel listed watched with
  | None => None
  | Some (Err _) => Some ([], Return None (Some DiscoveryFailed))
  | Some (Ok pod) => Some (watch (p_Name pod))
  end.

(** ** Notions the theorems use *)

Definition is_event_msg (m : StreamEvent) : bool := if m is StreamEventMsg _ _ then true else false.

(** The event messages of an output. *)
Definition event_msgs (out : list StreamEvent) : list StreamEvent :=
  filter (fun m => is_event_msg m = true) out.

(** Each event and its count, as far as inputs deliver them. *)
Definition event_keys (inputs : list (Z * input)) : gset (string * Z) :=
  list_to_set (omap (fun ni => if ni.2 is EventUpdate ev then Some (ev_UID ev, ev_Count ev) else None) inputs).

Definition final_stage (stage : PodLifecycleStage) : bool :=
  bool_decide (stage ∈ [StageRunning; StageStopped; StageFailed]).

(** ** Lemmas *)

Section watch_lemmas.
Variable podName : string.
Variable threshold : Z.
Variable eventSlice : gmap string Event -> list Event.

#[local] Abbreviation step := (step podName threshold true eventSlice).
#[local] Abbreviation update := (update podName threshold true eventSlice).
#[local] Abbreviation watchLoop := (watchLoop podName threshold true eventSlice).
#[local] Abbreviation receive := (receive threshold true).
#[local] Abbreviation snapshot st pod ev now :=
  (ready_message (AnalyzePod (Some pod) (eventSlice (receive st pod ev).1.2) threshold now) now).

Lemma ready_message_stage s now :
  Stage (ready_message s now) = Stage s /\ CriticalErr (ready_message s now) = CriticalErr s /\
  Status (ready_message s now) = Status s.
Proof. unfold ready_message. by case_goal. Qed.

Lemma event_msgs_app l1 l2 : event_msgs (l1 ++ l2) = event_msgs l1 ++ event_msgs l2.
Proof. apply filter_app. Qed.

Lemma event_msgs_tick st now : event_msgs (tick podName true eventSlice st now).1 = [].
Proof. unfold tick. case_goal; [|done]. cbn [fst]. by repeat case_goal. Qed.

Lemma tick_emitted st now :
  emitted (tick podName true eventSlice st now).2 = emitted st /\
  lastStage (tick podName true eventSlice st now).2 = lastStage st.
Proof. unfold tick. by case_goal. Qed.

Lemma event_msgs_receive st pod ev :
  length (event_msgs (receive st pod ev).1.1) =
    match ev with
    | Some ev => if bool_decide ((ev_UID ev, ev_Count ev) ∈ emitted st) then 0%nat else 1%nat
    | None => 0%nat
    end.
Proof. unfold PodWatch.receive. destruct ev as [ev|]; [|done]. by case_bool_decide. Qed.

Lemma event_msgs_update st pod ev now :
  event_msgs (update st pod ev now).1 = event_msgs (receive st pod ev).1.1.
Proof.
  unfold PodWatch.update. destruct (receive st pod ev) as [[out known] em].
  cbn [fst]. rewrite !event_msgs_app. set (b1 := _ && negb _). set (b2 := _ && _).
  by destruct b1, b2; cbn; rewrite app_nil_r.
Qed.

Lemma update_outcome st pod ev now :
  match (update st pod ev now).2 with
  | Continue st' =>
      emitted st' = (receive st pod ev).2 /\ lastStage st' = Stage (snapshot st pod ev now) /\
      final_stage (lastStage st') = false
  | Return s e =>
      s = Some (snapshot st pod ev now) /\
      (e = None -> Stage (snapshot st pod ev now) = StageRunning)
  end.
Proof.
  unfold PodWatch.update. destruct (receive st pod ev) as [[out known] em].
  cbn [fst snd]. set (snap := ready_message _ _). unfold terminal.
  destruct (CriticalErr snap) eqn:Ec; [done|].
  by destruct (Stage snap) eqn:Es; cbn; unfold final_stage; rewrite ?Es.
Qed.

Lemma receive_emitted st pod ev :
  (receive st pod ev).2 = match ev with
                          | Some ev => {[(ev_UID ev, ev_Count ev)]} ∪ emitted st
                          | None => emitted st
                          end.
Proof.
  unfold PodWatch.receive. destruct ev as [ev|]; [|done]. case_bool_decide; [set_solver|done].
Qed.
End watch_lemmas.

Section watch_runs.
Variable podName : string.
Variable threshold : Z.
Variable eventSlice : gmap string Event -> list Event.

#[local] Abbreviation step := (step podName threshold true eventSlice).
#[local] Abbreviation update := (update podName threshold true eventSlice).
#[local] Abbreviation watchLoop := (watchLoop podName threshold true eventSlice).

(** The key an input brings. *)
Definition input_key (i : input) : gset (string * Z) :=
  if i is EventUpdate ev then {[(ev_UID ev, ev_Count ev)]} else ∅.

Lemma event_keys_cons now i inputs :
  event_keys ((now, i) :: inputs) = input_key i ∪ event_keys inputs.
Proof. unfold event_keys. cbn. destruct i; cbn; set_solver. Qed.

(** A step emits one message for a new key and none otherwise. *)
Lemma step_event_msgs st now i :
  length (event_msgs (step st now i).1) = size (input_key i ∖ emitted st) /\
  match (step st now i).2 with
  | Continue st' => emitted st' = input_key i ∪ emitted st
  | Return _ _ => True
  end.
Proof.
  assert (forall pod ev,
    length (event_msgs (update st pod ev now).1)
      = size ((if ev is Some e then {[(ev_UID e, ev_Count e)]} else ∅) ∖ emitted st) /\
    match (update st pod ev now).2 with
    | Continue st' => emitted st' = (if ev is Some e then {[(ev_UID e, ev_Count e)]} else ∅) ∪ emitted st
    | Return _ _ => True
    end) as Hu.
  { intros pod ev. rewrite event_msgs_update, event_msgs_receive. split.
    - destruct ev as [ev|]; [|by rewrite empty_difference_L, size_empty].
      case_bool_decide.
      + by rewrite subseteq_empty_difference_L, size_empty by set_solver.
      + by rewrite difference_disjoint_L, size_singleton by set_solver.
    - pose proof (update_outcome podName threshold eventSlice st pod ev now) as H.
      destruct (update st pod ev now).2; [|done]. destruct H as (-> & _).
      rewrite receive_emitted. destruct ev; [done|set_solver]. }
  destruct i; cbn [PodWatch.step input_key fst snd]; rewrite ?empty_difference_L, ?size_empty.
  - done.
  - pose proof (event_msgs_tick podName eventSlice st now) as H.
    pose proof (tick_emitted podName eventSlice st now) as [H' _].
    destruct (tick _ _ _ _ _) as [out st']. cbn in *. rewrite H, H'. split; [done|set_solver].
  - done.
  - destruct (Hu pod None) as [-> H]. rewrite empty_difference_L, size_empty. done.
  - apply (Hu (currentPod st) (Some ev)).
Qed.

Lemma step_stage st now i :
  final_stage (lastStage st) = false ->
  match (step st now i).2 with
  | Continue st' => final_stage (lastStage st') = false
  | Return s None => exists snap, s = Some snap /\ Stage snap = StageRunning
  | Return _ _ => True
  end.
Proof.
  intros Hst. destruct i; cbn [PodWatch.step snd]; try done.
  - pose proof (tick_emitted podName eventSlice st now) as [_ H].
    destruct (tick _ _ _ _ _) as [out st']. cbn in *. by rewrite H.
  - pose proof (update_outcome podName threshold eventSlice st pod None now) as H.
    destruct (update _ _ _ _).2 as [st'|s [e|]]; [by destruct H as (_ & _ & ?)|done|].
    destruct H as [-> H]. eexists. split; [done|]. by apply H.
  - pose proof (update_outcome podName threshold eventSlice st (currentPod st) (Some ev) now) as H.
    destruct (update _ _ _ _).2 as [st'|s [e|]]; [by destruct H as (_ & _ & ?)|done|].
    destruct H as [-> H]. eexists. split; [done|]. by apply H.
Qed.
End watch_runs.

(** ** The theorems *)

(** C22. Each event is streamed once per count: over any run of the loop the
    number of event messages is at most that of the distinct (event, count)
    pairs received and not streamed before, and exactly that number while the
    loop has not returned. *)
Theorem watchLoop_streams_once podName threshold eventSlice inputs : forall st,
  let '(out, o) := watchLoop podName threshold true eventSlice st inputs in
  (length (event_msgs out) <= size (event_keys inputs ∖ emitted st))%nat /\
  forall st', o = Continue st' ->
    length (event_msgs out) = size (event_keys inputs ∖ emitted st) /\
    emitted st' = event_keys inputs ∪ emitted st.
Proof.
  induction inputs as [|[now i] inputs IH]; intros st; cbn [watchLoop].
  { cbn. split; [lia|]. intros st' [= <-].
    by rewrite empty_difference_L, size_empty, union_empty_l_L. }
  rewrite event_keys_cons. destruct (step_event_msgs podName threshold eventSlice st now i) as [H1 H2].
  destruct (step _ _ _ _ _ _ _) as [out o] eqn:Es. cbn [fst snd] in H1, H2.
  destruct o as [st1|s e].
  2: { split; [|done]. rewrite H1. apply subseteq_size. set_solver. }
  specialize (IH st1). destruct (watchLoop _ _ _ _ _ _) as [rest o]. destruct IH as [IH1 IH2].
  assert (size ((input_key i ∪ event_keys inputs) ∖ emitted st)
          = (size (input_key i ∖ emitted st) + size (event_keys inputs ∖ emitted st1))%nat) as Hsz.
  { rewrite <- size_union by set_solver. f_equal. rewrite H2. apply set_eq. intros x.
    destruct (decide (x ∈ input_key i)), (decide (x ∈ emitted st)); set_solver. }
  rewrite event_msgs_app, length_app, Hsz, H1. split; [lia|].
  intros st' Ho. destruct (IH2 st' Ho) as [-> ->]. split; [lia|]. rewrite H2. set_solver.
Qed.

(** The loop waits for the right thing: as long as it has not returned the
    pod is in no final stage, and it returns without an error only with a
    snapshot of a running pod. *)
Theorem watchLoop_returns podName threshold eventSlice inputs : forall st,
  final_stage (lastStage st) = false ->
  match (watchLoop podName threshold true eventSlice st inputs).2 with
  | Continue st' => final_stage (lastStage st') = false
  | Return s None => exists snap, s = Some snap /\ Stage snap = StageRunning
  | Return _ (Some _) => True
  end.
Proof.
  induction inputs as [|[now i] inputs IH]; intros st Hst; cbn [watchLoop]; [done|].
  pose proof (step_stage podName threshold eventSlice st now i Hst) as H.
  destruct (step _ _ _ _ _ _ _) as [out [st1|s [e|]]]; cbn in H; [|done..].
  specialize (IH st1 H). destruct (watchLoop _ _ _ _ _ _) as [rest o]. done.
Qed.

Module WatchSample.
Definition slice (m : gmap string Event) : list Event := (map_to_list m).*2.
Definition pending : Pod :=
  mkPod "ws" "ns" ∅ 1 None "" "Pending" "" "" [] [] [] [] [] ∅ [] None "" "".
Definition st : WatchState := initial_state 2 slice pending [] 1.
Definition pulling : WatchState :=
  initial_state 2 slice PodSample.pod [PodSample.pull] 1.
Definition ticks (n : nat) : list (Z * input) :=
  (fun k => ((Z.of_nat k * 15 * second)%Z, StuckTick)) <$> seq 1 n.
End WatchSample.

Lemma watchLoop_returns_witness :
  (watchLoop "ws" 2 true WatchSample.slice WatchSample.st [(2%Z, PodUpdate PodSample.pod)]).2
    <> Continue WatchSample.st /\
  match (watchLoop "ws" 2 true WatchSample.slice WatchSample.st [(2%Z, PodUpdate PodSample.pod)]).2 with
  | Continue st' => final_stage (lastStage st') = false
  | Return s None => exists snap, s = Some snap /\ Stage snap = StageRunning
  | Return _ (Some _) => True
  end.
Proof.
  split; [vm_compute; discriminate|].
  apply (watchLoop_returns "ws" 2 WatchSample.slice [(2%Z, PodUpdate PodSample.pod)] WatchSample.st).
  vm_compute. reflexivity.
Defined.

Lemma analyze_status pod events threshold now :
  Status (AnalyzePod pod events threshold now) = stageToStatus (Stage (AnalyzePod pod events threshold now)).
Proof. destruct pod; [|done]. unfold AnalyzePod. by destruct (pod_verdict _ _ _ _) as [[? ?] ?]. Qed.

Lemma tick_never_pulling podName eventSlice st now object message :
  StreamStatus object WorkspaceStatusPulling message ∉ (tick podName true eventSlice st now).1.
Proof.
  unfold tick. case_goal; [|apply not_elem_of_nil]. cbn [fst]. rewrite elem_of_app.
  intros [H|H]; case_in H; try by apply not_elem_of_nil in H.
  all: unfold emitWarningStatus in H; by apply list_elem_of_singleton in H.
Qed.

Lemma update_pulling podName threshold eventSlice st pod ev now object message :
  StreamStatus object WorkspaceStatusPulling message
    ∈ (update podName threshold true eventSlice st pod ev now).1 ->
  pullingReported st = false /\ pullingStart st <> 0%Z /\
  (pullReportDelay <= now - pullingStart st)%Z.
Proof.
  unfold update. destruct (receive threshold true st pod ev) as [[out known] em] eqn:Er. cbn [fst].
  set (snap := ready_message _ _).
  assert (Status snap = stageToStatus (Stage snap)) as Hs.
  { unfold snap. destruct (ready_message_stage
      (AnalyzePod (Some pod) (eventSlice known) threshold now) now) as (-> & _ & ->).
    apply analyze_status. }
  clearbody snap. rewrite !elem_of_app. intros [H|[H|H]].
  - unfold receive in Er. destruct ev as [ev|]; [|injection Er as <- _ _; by apply not_elem_of_nil in H].
    case_bool_decide; injection Er as <- _ _; [by apply not_elem_of_nil in H|].
    by apply list_elem_of_singleton in H.
  - case_in H; [|by apply not_elem_of_nil in H]. bool_simpl.
    apply list_elem_of_singleton in H. injection H as _ Hst _.
    rewrite Hs in Hst. by destruct (Stage snap).
  - destruct (bool_decide (Stage snap = StagePulling)) eqn:Ep; [|by apply not_elem_of_nil in H].
    destruct (Z.eqb_spec (pullingStart st) 0) as [E|E].
    + rewrite Z.sub_diag in H. unfold pullReportDelay, second in H.
      rewrite (proj2 (Z.leb_gt _ _)), andb_false_r in H by lia. by apply not_elem_of_nil in H.
    + case_in H; [|by apply not_elem_of_nil in H]. bool_simpl. split_and!; [done..|lia].
Qed.

(** Pulling is reported late and only by an update: a step that streams the
    status Pulling is an update at least 8 seconds after the pull was first
    seen, and not yet reported; while no update arrives a pod that is pulling is
    never reported as such, however many timer ticks pass. *)
Theorem pulling_reported_by_updates podName threshold eventSlice st :
  (forall now i object message,
     StreamStatus object WorkspaceStatusPulling message ∈ (step podName threshold true eventSlice st now i).1 ->
     i <> StuckTick /\ pullingReported st = false /\ pullingStart st <> 0%Z /\
     (8 * second <= now - pullingStart st)%Z) /\
  (forall inputs, lastStage st = StagePulling -> (forall ni, ni ∈ inputs -> ni.2 = StuckTick) ->
     watchLoop podName threshold true eventSlice st inputs = ([], Continue st)).
Proof.
  split.
  - intros now i object message. destruct i; cbn [step]; try by intros ?%not_elem_of_nil.
    + pose proof (tick_never_pulling podName eventSlice st now object message) as H.
      destruct (tick _ _ _ _ _) as [out st']. cbn in *. done.
    + intros H%update_pulling. by split.
    + intros H%update_pulling. by split.
  - intros inputs Hst. induction inputs as [|[now i] inputs IH]; intros Hi; [done|].
    assert (i = StuckTick) as -> by (apply (Hi (now, i)); left). cbn [watchLoop step].
    unfold tick. rewrite Hst, bool_decide_false by (by apply (bool_decide_unpack _)).
    rewrite IH; [done|]. intros ni Hni. apply Hi. by right.
Qed.

(** The pod discovery takes between 30 and 90 seconds, half of the timeout
    where that is in between; but the watch that follows is given the whole
    timeout again, so together they may take longer than the timeout. *)
Theorem discovery_budget t :
  (30 <= discoveryTimeout (Some t) <= 90)%Z /\
  ((60 <= t <= 180)%Z -> discoveryTimeout (Some t) = (t / 2)%Z) /\
  ((0 < t)%Z -> exists l, lifecycleTimeout (Some t) = Some l /\
     (t + 30 <= discoveryTimeout (Some t) + l)%Z).
Proof.
  unfold discoveryTimeout, lifecycleTimeout.
  assert ((0 < t)%Z -> Z.quot t 2 = (t / 2)%Z) as Hq by (intros; apply Z.quot_div_nonneg; lia).
  assert (forall h : Z, (let half := if (h <? 30)%Z then 30%Z else h in if (90 <? half)%Z then 90%Z else half)
                        = Z.max 30 (Z.min 90 h)) as Hm.
  { intros h. cbn zeta. destruct (Z.ltb_spec h 30); [cbn; lia|]. destruct (Z.ltb_spec 90 h); lia. }
  cbn zeta in *. pose proof (Z.div_mod t 2). pose proof (Z.mod_pos_bound t 2).
  destruct (Z.ltb_spec 0 t) as [Ht|Ht]; [rewrite Hq, Hm by done|]; split_and!; try lia.
  intros _. eexists. split; [done|]. lia.
Qed.

Lemma pulling_reported_by_updates_witness :
  lastStage WatchSample.pulling = StagePulling /\
  watchLoop "ws" 2 true WatchSample.slice WatchSample.pulling (WatchSample.ticks 3)
    = ([], Continue WatchSample.pulling).
Proof.
  assert (lastStage WatchSample.pulling = StagePulling) as H by (vm_compute; reflexivity).
  split; [exact H|].
  apply (pulling_reported_by_updates "ws" 2 WatchSample.slice WatchSample.pulling); [exact H|].
  intros ni. unfold WatchSample.ticks. by intros (k & -> & _)%list_elem_of_fmap.
Defined.
