(* ===== verification/PodFeed.v ===== *)
(** * What feeds the pod watcher

    The goroutines of watchLoop (internal/workspace/podstate.go): each forwards what
    one watch of the API server delivers into a channel of 64 messages, from which the
    loop of PodWatch.v receives. A step of the system is one action of one of them; the
    watches, the clock and the context are the environment. *)

From S2P Require Import Prelude GoStrings PodState PodWatch.

(** ** The goroutines *)

(** What a watch delivers: watch.Event with its object, which need not be of the
    expected type. *)
Inductive watch_type : Type := WAdded | WModified | WDeleted | WBookmark | WError.

#[export] Instance watch_type_eq_dec : EqDecision watch_type.
Proof. solve_decision. Defined.

Inductive watch_object : Type := WPod (pod : Pod) | WEvent (ev : Event) | WOther.

Inductive feeder : Type := FeedPod | FeedPodEvents | FeedPVCEvents.

#[export] Instance feeder_eq_dec : EqDecision feeder.
Proof. solve_decision. Defined.

(** Events are taken when they are added or modified.

    src/internal/workspace/podstate.go:795-801 watchLoop *)
Definition forward_event (e : watch_type * watch_object) : option Event :=
  match e with
  | (WAdded, WEvent ev) | (WModified, WEvent ev) => Some ev
  | _ => None
  end.

(** The message a goroutine makes of what its watch delivers, if it forwards it. The
    first one takes every pod that was not deleted; the third one the claims of the
    pod.

    src/internal/workspace/podstate.go:756-766 watchLoop *)
Definition forward_pod (e : watch_type * watch_object) : option Pod :=
  match e with
  | (WDeleted, _) => None
  | (_, WPod pod) => Some pod
  | _ => None
  end.

(** src/internal/workspace/podstate.go:831-840 watchLoop *)
Definition forward_pvc (pvcNames : gset string) (e : watch_type * watch_object) : option Event :=
  match forward_event e with
  | Some ev => if bool_decide (ev_Name ev ∈ pvcNames) then Some ev else None
  | None => None
  end.

Definition forward (pvcNames : gset string) (f : feeder) (e : watch_type * watch_object) : option input :=
  match f with
  | FeedPod => PodUpdate <$> forward_pod e
  | FeedPodEvents => EventUpdate <$> forward_event e
  | FeedPVCEvents => EventUpdate <$> forward_pvc pvcNames e
  end.

(** A goroutine: its watch is open, and the message it is about to send. *)
Record goroutine : Type := mkGoroutine { go_open : bool; go_sending : option input }.

(** ** The system *)

(** src/internal/workspace/podstate.go:736-736 watchLoop *)
Definition capacity : nat := 64.

(** [fd_ctx]: the caller's context is done. [taken], [seen] and [dropped] are the
    history: what the loop has received, with the time, what each watch has
    delivered, and what a goroutine was sending when it gave up. *)
Record feeding : Type := mkFeeding {
  fd_go : feeder -> goroutine;
  fd_updateCh : list (feeder * input);
  fd_loop : outcome;
  fd_ctx : bool;
  fd_out : list StreamEvent;
  fd_taken : list (Z * (option feeder * input));
  fd_seen : feeder -> list (watch_type * watch_object);
  fd_dropped : feeder -> option input;
}.

Definition update {A} (f : feeder) (x : A) (m : feeder -> A) : feeder -> A := fun f' => if decide (f' = f) then x else m f'.

Definition with_go (f : feeder) (g : goroutine) (s : feeding) : feeding :=
  mkFeeding (update f g (fd_go s)) (fd_updateCh s) (fd_loop s) (fd_ctx s) (fd_out s) (fd_taken s) (fd_seen s) (fd_dropped s).

(** The watch of a goroutine delivers, or ends (also when it could not be started);
    it sends; it sees that its context is done. The loop receives from the channel,
    from its ticker, its timer or its context; the caller's context ends. *)
Inductive action : Type :=
| Delivers (f : feeder) (e : watch_type * watch_object)
| Ends (f : feeder)
| Sends (f : feeder)
| Stops (f : feeder)
| Receives (now : Z)
| Ticks (now : Z)
| TimesOut (now : Z)
| CtxEnds
| Cancelled (now : Z).

(** [watchCtx] is done with the caller's context and when the loop has returned, by
    the deferred [cancelWatch].

    src/internal/workspace/podstate.go:738-739 watchLoop *)
Definition watch_done (s : feeding) : bool :=
  fd_ctx s || match fd_loop s with Return _ _ => true | Continue _ => false end.

Section feed.
Variable podName : string.
Variable CrashLoopThreshold : Z.
Variable streaming : bool.
Variable eventSlice : gmap string Event -> list Event.
Variable pvcNames : gset string.
(** [opts.Timeout] is positive. *)
Variable timed : bool.

(** The loop takes one input; it takes none after it returned.

    src/internal/workspace/podstate.go:873-923 watchLoop *)
Definition take (now : Z) (f : option feeder) (i : input) (rest : list (feeder * input)) (s : feeding) : option feeding :=
  match fd_loop s with
  | Return _ _ => None
  | Continue st =>
      let '(out, o) := step podName CrashLoopThreshold streaming eventSlice st now i in
      Some (mkFeeding (fd_go s) rest o (fd_ctx s) (fd_out s ++ out) (fd_taken s ++ [(now, (f, i))]) (fd_seen s) (fd_dropped s))
  end.

(** A goroutine that waits or sends stops when its context is done, and drops what it
    was sending; until it does, either case of its select may be taken.

    src/internal/workspace/podstate.go:741-849 watchLoop *)
Definition act (a : action) (s : feeding) : option feeding :=
  match a with
  | Delivers f e =>
      match fd_go s f with
      | mkGoroutine true None =>
          Some (mkFeeding (update f (mkGoroutine true (forward pvcNames f e)) (fd_go s)) (fd_updateCh s) (fd_loop s) (fd_ctx s) (fd_out s)
                  (fd_taken s) (update f (fd_seen s f ++ [e]) (fd_seen s)) (fd_dropped s))
      | _ => None
      end
  | Ends f =>
      match fd_go s f with
      | mkGoroutine true None => Some (with_go f (mkGoroutine false None) s)
      | _ => None
      end
  | Sends f =>
      match fd_go s f with
      | mkGoroutine true (Some i) =>
          if (length (fd_updateCh s) <? capacity)%nat
          then Some (mkFeeding (update f (mkGoroutine true None) (fd_go s)) (fd_updateCh s ++ [(f, i)]) (fd_loop s) (fd_ctx s) (fd_out s)
                       (fd_taken s) (fd_seen s) (fd_dropped s))
          else None
      | _ => None
      end
  | Stops f =>
      match fd_go s f with
      | mkGoroutine true sending =>
          if watch_done s
          then Some (mkFeeding (update f (mkGoroutine false None) (fd_go s)) (fd_updateCh s) (fd_loop s) (fd_ctx s) (fd_out s) (fd_taken s)
                       (fd_seen s) (update f sending (fd_dropped s)))
          else None
      | _ => None
      end
  | Receives now =>
      match fd_updateCh s with
      | (f, i) :: rest => take now (Some f) i rest s
      | [] => None
      end
  | Ticks now => take now None StuckTick (fd_updateCh s) s
  | TimesOut now => if timed then take now None TimeoutFired (fd_updateCh s) s else None
  | CtxEnds => Some (mkFeeding (fd_go s) (fd_updateCh s) (fd_loop s) true (fd_out s) (fd_taken s) (fd_seen s) (fd_dropped s))
  | Cancelled now => if fd_ctx s then take now None CtxDone (fd_updateCh s) s else None
  end.

Fixpoint acts (l : list action) (s : feeding) : option feeding :=
  match l with
  | [] => Some s
  | a :: l => s ← act a s; acts l s
  end.

(** The third goroutine is only there for a pod with claims.

    src/internal/workspace/podstate.go:736-739 watchLoop *)
Definition start_feeding (pod : Pod) (events : list Event) (now : Z) : feeding :=
  mkFeeding (fun f => mkGoroutine (if decide (f = FeedPVCEvents) then bool_decide (pvcNames <> ∅) else true) None) []
    (Continue (initial_state CrashLoopThreshold eventSlice pod events now)) false [] [] (fun _ => []) (fun _ => None).

(** ** What the loop receives *)

(** The messages of one goroutine among tagged ones. *)
Definition from (f : feeder) (l : list (feeder * input)) : list input :=
  (List.filter (fun fi => bool_decide (fi.1 = f)) l).*2.

Definition taken_from (f : feeder) (l : list (Z * (option feeder * input))) : list input :=
  (List.filter (fun x => bool_decide (x.2.1 = Some f)) l).*2.*2.

Record feed_inv (pod : Pod) (events : list Event) (now : Z) (s : feeding) : Prop := {
  fi_order f : taken_from f (fd_taken s) ++ from f (fd_updateCh s) ++ option_list (go_sending (fd_go s f)) ++ option_list (fd_dropped s f)
                 = omap (forward pvcNames f) (fd_seen s f);
  fi_dropped f : is_Some (fd_dropped s f) -> fd_go s f = mkGoroutine false None /\ watch_done s = true;
  fi_room : (length (fd_updateCh s) <= capacity)%nat;
  fi_loop : watchLoop podName CrashLoopThreshold streaming eventSlice (initial_state CrashLoopThreshold eventSlice pod events now)
              ((fun x => (x.1, x.2.2)) <$> fd_taken s) = (fd_out s, fd_loop s);
}.

Lemma from_app f l1 l2 : from f (l1 ++ l2) = from f l1 ++ from f l2.
Proof. unfold from. by rewrite List.filter_app, fmap_app. Qed.

Lemma taken_from_app f l1 l2 : taken_from f (l1 ++ l2) = taken_from f l1 ++ taken_from f l2.
Proof. unfold taken_from. by rewrite List.filter_app, !fmap_app. Qed.

Lemma from_one f g i : from f [(g, i)] = if decide (f = g) then [i] else [].
Proof. unfold from. cbn. case_decide; [by rewrite bool_decide_true by done|by rewrite bool_decide_false by done]. Qed.

Lemma watchLoop_snoc st l now i out st' : watchLoop podName CrashLoopThreshold streaming eventSlice st l = (out, Continue st') ->
  watchLoop podName CrashLoopThreshold streaming eventSlice st (l ++ [(now, i)]) =
    (out ++ (step podName CrashLoopThreshold streaming eventSlice st' now i).1, (step podName CrashLoopThreshold streaming eventSlice st' now i).2).
Proof.
  revert st out. induction l as [|[t j] l IH]; intros st out; cbn [watchLoop app].
  { intros [= <- <-]. destruct (step _ _ _ _ st now i) as [out' [st2|? ?]]; cbn; by rewrite ?app_nil_r. }
  destruct (step _ _ _ _ st t j) as [out1 [st1|? ?]]; [|done]. destruct (watchLoop _ _ _ _ st1 l) as [rest o] eqn:E. intros [= <- ->].
  rewrite (IH _ _ E). by rewrite app_assoc.
Qed.

Lemma start_feed_inv pod events now : feed_inv pod events now (start_feeding pod events now).
Proof. split; [done|by intros f []|cbn; unfold capacity; lia|done]. Qed.

(** The loop's part of a step: the channel loses what it took from there. *)
Lemma take_inv pod events t s now f i rest s' : feed_inv pod events t s -> take now f i rest s = Some s' ->
  (forall g, from g (fd_updateCh s) = (if decide (f = Some g) then [i] else []) ++ from g rest) -> (length rest <= capacity)%nat ->
  feed_inv pod events t s'.
Proof.
  intros [Ho Hd Hr Hl] Ht Hf Hlen. unfold take in Ht. destruct (fd_loop s) as [st|] eqn:El; [|done].
  destruct (step _ _ _ _ st now i) as [out o] eqn:Es. injection Ht as <-. split; cbn [fd_taken fd_updateCh fd_go fd_seen fd_loop fd_out fd_dropped].
  - intros g. rewrite <- Ho, taken_from_app, Hf, <- !app_assoc. f_equal. unfold taken_from. cbn.
    destruct (decide (f = Some g)) as [->|Hne]; [by rewrite bool_decide_true|by rewrite bool_decide_false].
  - intros g Hg. destruct (Hd g Hg) as [Hgo Hw]. split; [done|]. unfold watch_done in *. cbn. rewrite El, orb_false_r in Hw. by rewrite Hw.
  - done.
  - rewrite fmap_app. cbn. rewrite (watchLoop_snoc _ _ _ _ _ _ Hl), Es. done.
Qed.

(** A step of a goroutine: its messages are accounted for, and nobody else's move. *)
Lemma goroutine_inv pod events t s f go ch seen drop :
  feed_inv pod events t s ->
  fd_dropped s f = None -> (is_Some drop -> go = mkGoroutine false None /\ watch_done s = true) ->
  (forall g, g <> f -> from g ch = from g (fd_updateCh s)) -> (length ch <= capacity)%nat ->
  (taken_from f (fd_taken s) ++ from f (fd_updateCh s) ++ option_list (go_sending (fd_go s f)) = omap (forward pvcNames f) (fd_seen s f) ->
   taken_from f (fd_taken s) ++ from f ch ++ option_list (go_sending go) ++ option_list drop = omap (forward pvcNames f) seen) ->
  feed_inv pod events t (mkFeeding (update f go (fd_go s)) ch (fd_loop s) (fd_ctx s) (fd_out s) (fd_taken s) (update f seen (fd_seen s))
                           (update f drop (fd_dropped s))).
Proof.
  intros [Ho Hd Hr Hl] Hnone Hdrop Hch Hlen Hf. split; cbn [fd_taken fd_updateCh fd_go fd_seen fd_loop fd_out fd_dropped]; [| |done|done].
  - intros g. unfold update. case_decide as Hg; [subst g|by rewrite Hch, <- Ho]. apply Hf. rewrite <- Ho, Hnone. cbn. by rewrite app_nil_r.
  - intros g. unfold update. case_decide as Hg; [subst g; exact Hdrop|apply Hd].
Qed.

Lemma update_id {A} f (m : feeder -> A) g : update f (m f) m g = m g.
Proof. unfold update. case_decide; congruence. Qed.

(** [feed_inv] reads the maps at each goroutine only. *)
Lemma feed_inv_ext pod events t s s' : feed_inv pod events t s ->
  (forall f, fd_go s' f = fd_go s f /\ fd_seen s' f = fd_seen s f /\ fd_dropped s' f = fd_dropped s f) ->
  fd_updateCh s' = fd_updateCh s -> fd_loop s' = fd_loop s -> (fd_ctx s = true -> fd_ctx s' = true) -> fd_out s' = fd_out s -> fd_taken s' = fd_taken s ->
  feed_inv pod events t s'.
Proof.
  intros [Ho Hd Hr Hl] Hm Hc Hlo Hx Hout Ht. split.
  - intros f. destruct (Hm f) as (-> & -> & ->). by rewrite Hc, Ht.
  - intros f. destruct (Hm f) as (-> & _ & ->). intros H. destruct (Hd f H) as [? Hw]. split; [done|].
    unfold watch_done in *. rewrite Hlo. apply orb_true_iff in Hw as [Hw|Hw]; [by rewrite Hx|by rewrite Hw, orb_true_r].
  - by rewrite Hc.
  - by rewrite Ht, Hout, Hlo.
Qed.

(** A goroutine that is open has dropped nothing. *)
Lemma open_none pod events t s f g : feed_inv pod events t s -> fd_go s f = mkGoroutine true g -> fd_dropped s f = None.
Proof. intros [_ Hd _ _] Hg. destruct (fd_dropped s f) eqn:E; [|done]. destruct (Hd f) as [Hc _]; [by rewrite E|congruence]. Qed.

Lemma act_inv pod events t a s s' : feed_inv pod events t s -> act a s = Some s' -> feed_inv pod events t s'.
Proof.
  intros Hi. destruct a as [f e|f|f|f|now|now|now| |now]; cbn [act].
  - destruct (fd_go s f) as [[] [|]] eqn:Eg; try done. intros [= <-]. pose proof (open_none _ _ _ _ _ _ Hi Eg) as Hn.
    eapply feed_inv_ext; [apply (goroutine_inv _ _ _ s f (mkGoroutine true (forward pvcNames f e)) (fd_updateCh s) (fd_seen s f ++ [e]) None Hi Hn)| | | | |..]; try done.
    + apply Hi.
    + intros H. rewrite Eg in H. rewrite omap_app, <- H. cbn. rewrite !app_nil_r, <- app_assoc. by destruct (forward pvcNames f e).
    + intros g. cbn. rewrite <- Hn. by rewrite update_id.
  - destruct (fd_go s f) as [[] [|]] eqn:Eg; try done. intros [= <-]. pose proof (open_none _ _ _ _ _ _ Hi Eg) as Hn.
    eapply feed_inv_ext; [apply (goroutine_inv _ _ _ s f (mkGoroutine false None) (fd_updateCh s) (fd_seen s f) None Hi Hn)| | | | |..]; try done.
    + apply Hi.
    + intros H. by rewrite Eg in H.
    + intros g. cbn. rewrite <- Hn. by rewrite !update_id.
  - destruct (fd_go s f) as [[] [i|]] eqn:Eg; try done. destruct (Nat.ltb_spec (length (fd_updateCh s)) capacity) as [Hc|]; [|done]. intros [= <-].
    pose proof (open_none _ _ _ _ _ _ Hi Eg) as Hn.
    eapply feed_inv_ext; [apply (goroutine_inv _ _ _ s f (mkGoroutine true None) (fd_updateCh s ++ [(f, i)]) (fd_seen s f) None Hi Hn)| | | | |..]; try done.
    + intros g Hg. by rewrite from_app, from_one, decide_False, app_nil_r.
    + rewrite length_app. cbn. lia.
    + intros H. rewrite Eg in H. rewrite from_app, from_one, decide_True by done. cbn. by rewrite app_nil_r, <- H.
    + intros g. cbn. rewrite <- Hn. by rewrite !update_id.
  - destruct (fd_go s f) as [[] g] eqn:Eg; try done. destruct (watch_done s) eqn:Ew; [|done]. intros [= <-].
    pose proof (open_none _ _ _ _ _ _ Hi Eg) as Hn.
    eapply feed_inv_ext; [apply (goroutine_inv _ _ _ s f (mkGoroutine false None) (fd_updateCh s) (fd_seen s f) g Hi Hn)| | | | |..]; try done.
    + apply Hi.
    + intros H. by rewrite Eg in H.
    + intros h. cbn. by rewrite update_id.
  - destruct (fd_updateCh s) as [|[f i] rest] eqn:Ec; [done|]. intros Ht. eapply take_inv; [done..| |].
    + intros g. rewrite Ec. change ((f, i) :: rest) with ([(f, i)] ++ rest). rewrite from_app, from_one. f_equal.
      repeat case_decide; congruence.
    + destruct Hi as [_ _ Hr _]. rewrite Ec in Hr. cbn in Hr. lia.
  - intros Ht. eapply take_inv; [done..|intros g; by rewrite decide_False|apply Hi].
  - destruct timed; [|done]. intros Ht. eapply take_inv; [done..|intros g; by rewrite decide_False|apply Hi].
  - intros [= <-]. by eapply feed_inv_ext.
  - destruct (fd_ctx s); [|done]. intros Ht. eapply take_inv; [done..|intros g; by rewrite decide_False|apply Hi].
Qed.

Lemma acts_inv pod events t l : forall s s', feed_inv pod events t s -> acts l s = Some s' -> feed_inv pod events t s'.
Proof.
  induction l as [|a l IH]; intros s s' Hi; cbn; [by intros [= <-]|]. destruct (act a s) as [s1|] eqn:E; [|done]. cbn.
  apply IH. by eapply act_inv.
Qed.

Lemma acts_app l1 l2 s : acts (l1 ++ l2) s = (acts l1 s ≫= acts l2).
Proof. revert s. induction l1 as [|a l1 IH]; intros s; cbn; [done|]. destruct (act a s); cbn; [apply IH|done]. Qed.

(** C23. Nothing is duplicated or reordered between a watch and the loop, and nothing is
    lost while the watch's context lives: what the loop received from a goroutine,
    what waits in the channel, what is being sent and what was dropped are together,
    in this order, what the goroutine forwards of what its watch delivered. Only a
    message that was being sent when the caller's context was done or the loop had
    returned is dropped, the last one of a goroutine that has ended. The channel
    stays within its capacity, and the loop's state and stream are those of
    PodWatch.v on the messages it received. *)
Theorem feeds_in_order pod events now l s : acts l (start_feeding pod events now) = Some s ->
  (forall f, taken_from f (fd_taken s) ++ from f (fd_updateCh s) ++ option_list (go_sending (fd_go s f)) ++ option_list (fd_dropped s f)
               = omap (forward pvcNames f) (fd_seen s f)) /\
  (forall f, is_Some (fd_dropped s f) ->
     fd_go s f = mkGoroutine false None /\ (fd_ctx s = true \/ exists r e, fd_loop s = Return r e)) /\
  (length (fd_updateCh s) <= capacity)%nat /\
  watchLoop podName CrashLoopThreshold streaming eventSlice (initial_state CrashLoopThreshold eventSlice pod events now)
    ((fun x => (x.1, x.2.2)) <$> fd_taken s) = (fd_out s, fd_loop s).
Proof.
  intros H. destruct (acts_inv pod events now l _ _ (start_feed_inv pod events now) H) as [A B C D]. split_and!; [done| |done|done].
  intros f Hf. destruct (B f Hf) as [Hg Hw]. split; [done|]. unfold watch_done in Hw. apply orb_true_iff in Hw as [Hw|Hw]; [by left|right].
  destruct (fd_loop s); [done|by eauto].
Qed.

(** ** Messages arrive *)

(** A goroutine that has ended sends nothing. *)
Definition ended_idle (s : feeding) : Prop := forall f, go_open (fd_go s f) = false -> go_sending (fd_go s f) = None.

Lemma start_closed pod events now : ended_idle (start_feeding pod events now).
Proof. done. Qed.

Lemma closed_sends_nothing l : forall s s', ended_idle s -> acts l s = Some s' -> ended_idle s'.
Proof.
  induction l as [|a l IH]; intros s s' Hs; cbn [acts]; [by intros [= <-]|]. destruct (act a s) as [s1|] eqn:E; [|done].
  cbn [mbind option_bind]. apply IH.
  assert (Hgo : (forall f, fd_go s1 f = fd_go s f) \/ exists g go, fd_go s1 = update g go (fd_go s) /\ (go_open go = false -> go_sending go = None)).
  { destruct a as [f e|f|f|f|now|now|now| |now]; cbn [act] in E; unfold take in E; repeat case_in E; simplify_eq; try (by left); right; by do 2 eexists. }
  intros f. destruct Hgo as [->|(g & go & -> & Hgo)]; [apply Hs|]. unfold update. case_decide; [exact Hgo|apply Hs].
Qed.

(** What has gone through the channel, and how many messages a run receives. *)
Definition channel_message (x : Z * (option feeder * input)) : option (feeder * input) :=
  match x.2.1 with Some f => Some (f, x.2.2) | None => None end.

Definition received (s : feeding) : list (feeder * input) := omap channel_message (fd_taken s).

Definition receives (l : list action) : nat := length (List.filter (fun a => match a with Receives _ => true | _ => false end) l).

Lemma taken_from_received f s : taken_from f (fd_taken s) = from f (received s).
Proof.
  unfold received. induction (fd_taken s) as [|[t [[g|] i]] l IH]; [done| |].
  - change (omap channel_message ((t, (Some g, i)) :: l)) with ([(g, i)] ++ omap channel_message l).
    rewrite from_app, from_one, <- IH. unfold taken_from at 1. cbn.
    destruct (decide (f = g)) as [->|Hne]; [by rewrite bool_decide_true|by rewrite bool_decide_false by congruence].
  - change (omap channel_message ((t, (None, i)) :: l)) with (omap channel_message l). by rewrite <- IH.
Qed.

Lemma received_snoc l t f i :
  omap channel_message (l ++ [(t, (f, i))]) = omap channel_message l ++ match f with Some g => [(g, i)] | None => [] end.
Proof. rewrite omap_app. by destruct f. Qed.

(** The channel is a queue: each receive takes its oldest message, and a goroutine
    only sees more. *)
Lemma act_queue a s s' : act a s = Some s' ->
  (exists new, received s' ++ fd_updateCh s' = (received s ++ fd_updateCh s) ++ new) /\
  length (received s') = length (received s) + receives [a] /\
  (forall f, fd_seen s f `prefix_of` fd_seen s' f).
Proof.
  assert (Htake : forall now f i rest, take now f i rest s = Some s' -> fd_updateCh s = match f with Some g => (g, i) :: rest | None => rest end ->
    received s' ++ fd_updateCh s' = (received s ++ fd_updateCh s) ++ [] /\
    length (received s') = length (received s) + length (option_list f) /\ forall f, fd_seen s f `prefix_of` fd_seen s' f).
  { intros now f i rest H Hch. unfold take in H. destruct (fd_loop s) as [st|]; [|done]. destruct (step _ _ _ _ st now i) as [out o].
    injection H as <-. unfold received. cbn [fd_taken fd_updateCh fd_seen]. rewrite received_snoc, Hch. split_and!; [|by rewrite length_app; destruct f|done].
    destruct f; cbn; by rewrite ?app_nil_r, <- ?app_assoc. }
  destruct a as [f e|f|f|f|now|now|now| |now]; cbn [act]; intros H.
  - destruct (fd_go s f) as [[] [|]]; try done. injection H as <-. split_and!; [exists []; by rewrite app_nil_r|cbn; unfold received; cbn; lia|].
    intros g. cbn. unfold update. case_decide; [subst g; by apply prefix_app_r|done].
  - destruct (fd_go s f) as [[] [|]]; try done. injection H as <-. split_and!; [exists []; by rewrite app_nil_r|cbn; unfold received; cbn; lia|done].
  - destruct (fd_go s f) as [[] [i|]]; try done. case_in H; [|done]. injection H as <-.
    split_and!; [exists [(f, i)]; unfold received; cbn; by rewrite app_assoc|cbn; unfold received; cbn; lia|done].
  - destruct (fd_go s f) as [[] g]; try done. case_in H; [|done]. injection H as <-.
    split_and!; [exists []; by rewrite app_nil_r|cbn; unfold received; cbn; lia|done].
  - destruct (fd_updateCh s) as [|[f i] rest] eqn:Ec; [done|]. destruct (Htake now (Some f) i rest H eq_refl) as (H1 & H2 & H3).
    split_and!; [by exists []|done|done].
  - destruct (Htake now None StuckTick (fd_updateCh s) H eq_refl) as (H1 & H2 & H3). split_and!; [by exists []|done|done].
  - destruct timed; [|done]. destruct (Htake now None TimeoutFired (fd_updateCh s) H eq_refl) as (H1 & H2 & H3). split_and!; [by exists []|done|done].
  - injection H as <-. split_and!; [exists []; by rewrite app_nil_r|cbn; unfold received; cbn; lia|done].
  - destruct (fd_ctx s); [|done]. destruct (Htake now None CtxDone (fd_updateCh s) H eq_refl) as (H1 & H2 & H3). split_and!; [by exists []|done|done].
Qed.

Lemma receives_cons a l : receives (a :: l) = receives [a] + receives l.
Proof. unfold receives. cbn. by destruct a. Qed.

Lemma acts_queue l : forall s s', acts l s = Some s' ->
  (exists new, received s' ++ fd_updateCh s' = (received s ++ fd_updateCh s) ++ new) /\
  length (received s') = length (received s) + receives l /\
  (forall f, fd_seen s f `prefix_of` fd_seen s' f).
Proof.
  induction l as [|a l IH]; intros s s'; cbn [acts].
  { intros [= <-]. split_and!; [exists []; by rewrite app_nil_r|cbn; lia|done]. }
  destruct (act a s) as [s1|] eqn:E; [|done]. cbn [mbind option_bind]. intros H.
  destruct (act_queue a s s1 E) as ((n1 & H1) & L1 & S1), (IH s1 s' H) as ((n2 & H2) & L2 & S2). split_and!.
  - exists (n1 ++ n2). by rewrite H2, H1, <- !app_assoc.
  - rewrite receives_cons. lia.
  - intros f. by trans (fd_seen s1 f).
Qed.

(** What waits in the channel is received with as many receives. *)
Lemma queue_arrives l s s' : acts l s = Some s' -> length (fd_updateCh s) <= receives l -> (received s ++ fd_updateCh s) `prefix_of` received s'.
Proof.
  intros H Hn. destruct (acts_queue l s s' H) as ((new & Hq) & Hl & _).
  assert (Hp : received s' `prefix_of` (received s ++ fd_updateCh s) ++ new) by (rewrite <- Hq; by apply prefix_app_r).
  assert (Hp' : (received s ++ fd_updateCh s) `prefix_of` (received s ++ fd_updateCh s) ++ new) by by apply prefix_app_r.
  destruct (prefix_weak_total _ _ _ Hp Hp') as [Hle|]; [|done].
  assert (E : received s' = received s ++ fd_updateCh s); [|by rewrite E].
  destruct Hle as [k Hk]. assert (k = []) as ->; [|by rewrite app_nil_r in Hk]. apply nil_length_inv.
  apply (f_equal length) in Hk. rewrite !length_app in Hk. lia.
Qed.

Lemma from_prefix f l l' : l `prefix_of` l' -> from f l `prefix_of` from f l'.
Proof. intros [k ->]. rewrite from_app. by apply prefix_app_r. Qed.

Lemma omap_prefix {A B} (h : A -> option B) l l' : l `prefix_of` l' -> omap h l `prefix_of` omap h l'.
Proof. intros [k ->]. rewrite omap_app. by apply prefix_app_r. Qed.

(** When a goroutine is sending nothing, as many receives as the channel has messages
    bring all it forwarded to the loop. *)
Lemma settled_arrives pod events now s f l s' : feed_inv pod events now s ->
  go_sending (fd_go s f) = None -> fd_dropped s f = None -> acts l s = Some s' -> length (fd_updateCh s) <= receives l ->
  omap (forward pvcNames f) (fd_seen s f) `prefix_of` taken_from f (fd_taken s').
Proof.
  intros Hi Hg Hd H Hn. pose proof (fi_order _ _ _ _ Hi f) as Ho. rewrite Hg, Hd in Ho. cbn in Ho. rewrite app_nil_r in Ho.
  rewrite <- Ho, !taken_from_received, <- from_app. apply from_prefix. by apply queue_arrives with (l := l).
Qed.

(** The channel is emptied by receiving, unless the loop returns. *)
Lemma drained s : (exists st, fd_loop s = Continue st) ->
  exists l s', acts l s = Some s' /\ Forall (fun a => exists t, a = Receives t) l /\ length l <= length (fd_updateCh s) /\
    fd_go s' = fd_go s /\ fd_seen s' = fd_seen s /\ fd_dropped s' = fd_dropped s /\
    ((exists r e, fd_loop s' = Return r e) \/ fd_updateCh s' = [] /\ exists st, fd_loop s' = Continue st).
Proof.
  remember (fd_updateCh s) as ch eqn:Ec. revert s Ec. induction ch as [|[f i] ch IH]; intros s Ec [st El].
  { exists [], s. split_and!; [done..|]. right. by eauto. }
  destruct (act (Receives 0) s) as [s1|] eqn:E; cbn [act] in E; rewrite <- Ec in E; unfold take in E; rewrite El in E;
    destruct (step podName CrashLoopThreshold streaming eventSlice st 0 i) as [out o] eqn:Es; [|done].
  injection E as E. destruct o as [st'|r e].
  - destruct (IH s1) as (l & s' & Hl & Hf & Hn & Hg & Hs & Hdr & Ho); [by subst s1|by subst s1; eexists|].
    exists (Receives 0 :: l), s'. subst s1. split_and!; [|constructor; [by eexists|done]|cbn; lia|done..].
    cbn [acts act]. rewrite <- Ec. unfold take. rewrite El, Es. exact Hl.
  - exists [Receives 0], s1. subst s1. cbn [acts act]. rewrite <- Ec. unfold take. rewrite El, Es. cbn.
    split_and!; [reflexivity|by repeat constructor; eexists|lia|done..|left; by eauto].
Qed.

(** C24. What a watch delivered reaches the loop as long as the loop goes on. It takes no
    more than the goroutine's send and receives: from every reachable state of a loop
    that runs and a goroutine that has dropped nothing, at most 129 of these alone
    lead to a state where the loop has received every message of the goroutine, or
    has returned. And nobody can prevent it: in every run, whatever else the watches,
    the goroutines, the ticker and the contexts do, once the message that was being
    sent has been sent, and then the channel's capacity of messages received, the loop
    has received every message that was delivered before; with nothing being sent, as
    many receives as there are messages waiting are enough. *)
Theorem messages_arrive pod events now l s f :
  acts l (start_feeding pod events now) = Some s -> fd_dropped s f = None ->
  ((exists st, fd_loop s = Continue st) ->
   exists l' s', acts l' s = Some s' /\ Forall (fun a => a = Sends f \/ exists t, a = Receives t) l' /\ length l' <= 2 * capacity + 1 /\
     fd_seen s' f = fd_seen s f /\
     ((exists r e, fd_loop s' = Return r e) \/ taken_from f (fd_taken s') = omap (forward pvcNames f) (fd_seen s f))) /\
  (forall l' s', acts l' s = Some s' ->
     go_sending (fd_go s f) = None /\ length (fd_updateCh s) <= receives l' \/
     (exists l1 l2, l' = l1 ++ Sends f :: l2 /\ capacity <= receives l2) ->
     omap (forward pvcNames f) (fd_seen s f) `prefix_of` taken_from f (fd_taken s')).
Proof.
  intros Hs Hd. pose proof (acts_inv pod events now l _ _ (start_feed_inv pod events now) Hs) as Hi. split.
  - intros Hc. pose proof (fi_room _ _ _ _ Hi) as Hroom. destruct (drained s Hc) as (l1 & s1 & H1 & Hf1 & Hn1 & Hg1 & He1 & Hd1 & Ho1).
    assert (Hf1' : Forall (fun a => a = Sends f \/ exists t, a = Receives t) l1) by (eapply Forall_impl; [exact Hf1|]; auto).
    destruct Ho1 as [Hr|[Hn Hc1]]; [exists l1, s1; rewrite He1; split_and!; auto; lia|].
    pose proof (acts_inv pod events now l1 _ _ Hi H1) as Hi1. pose proof (fi_order _ _ _ _ Hi1 f) as Ho. rewrite Hn, Hd1, Hd in Ho.
    destruct (go_sending (fd_go s1 f)) as [i|] eqn:Ei.
    2: { exists l1, s1. split_and!; [done|done|lia|by rewrite He1|right]. cbn in Ho. by rewrite !app_nil_r, He1 in Ho. }
    assert (Ho' : fd_go s1 f = mkGoroutine true (Some i)).
    { destruct (fd_go s1 f) as [[] g] eqn:Eg; cbn in Ei; subst g; [done|]. exfalso.
      pose proof (closed_sends_nothing l _ s (start_closed pod events now) Hs f) as Hx. rewrite <- Hg1, Eg in Hx. by specialize (Hx eq_refl). }
    destruct (act (Sends f) s1) as [s2|] eqn:E2; [|cbn [act] in E2; by rewrite Ho', Hn in E2].
    pose proof (act_inv pod events now _ _ _ Hi1 E2) as Hi2. pose proof E2 as E2'. cbn [act] in E2. rewrite Ho', Hn in E2. injection E2 as E2.
    destruct (drained s2) as (l3 & s3 & H3 & Hf3 & Hn3 & Hg3 & He3 & Hd3 & Ho3); [by subst s2|].
    exists (l1 ++ Sends f :: l3), s3. split_and!.
    + rewrite acts_app, H1. cbn [mbind option_bind acts]. rewrite E2'. exact H3.
    + apply Forall_app. split; [done|]. constructor; [by left|]. eapply Forall_impl; [exact Hf3|]. auto.
    + rewrite length_app. cbn [length]. assert (length l3 <= 1) by (etrans; [exact Hn3|]; by subst s2). unfold capacity in *. lia.
    + by rewrite He3; subst s2; cbn; rewrite He1.
    + destruct Ho3 as [Hr|[Hn' _]]; [by left|right]. pose proof (acts_inv pod events now l3 _ _ Hi2 H3) as Hi3.
      pose proof (fi_order _ _ _ _ Hi3 f) as Hz. rewrite Hn', Hg3, He3, Hd3 in Hz. subst s2. cbn [fd_go fd_seen fd_dropped] in Hz.
      unfold update in Hz. rewrite decide_True, Hd1, Hd in Hz by done. cbn in Hz. by rewrite !app_nil_r, He1 in Hz.
  - intros l' s' H [[Hg Hn]|(l1 & l2 & -> & Hn)]; [by eapply settled_arrives|].
    rewrite acts_app in H. destruct (acts l1 s) as [s1|] eqn:E1; [|done]. cbn [mbind option_bind acts] in H.
    destruct (act (Sends f) s1) as [s2|] eqn:E2; [|done]. cbn [mbind option_bind] in H.
    pose proof (acts_inv pod events now l1 _ _ Hi E1) as Hi1. pose proof (act_inv pod events now _ _ _ Hi1 E2) as Hi2.
    destruct (acts_queue l1 s s1 E1) as (_ & _ & S1). destruct (act_queue _ s1 s2 E2) as (_ & _ & S2).
    trans (omap (forward pvcNames f) (fd_seen s2 f)); [apply omap_prefix; by trans (fd_seen s1 f)|].
    cbn [act] in E2. destruct (fd_go s1 f) as [[] [i|]] eqn:Eg; try done. case_in E2; [|done]. injection E2 as E2.
    eapply settled_arrives; [exact Hi2| | |exact H|].
    + subst s2. cbn. unfold update. by rewrite decide_True.
    + subst s2. cbn. by eapply open_none.
    + etrans; [apply (fi_room _ _ _ _ Hi2)|exact Hn].
Qed.

(** A server ends its watches after some time; the goroutines return then, and nobody
    starts them again. Without a timeout the loop is left with its ticker: it goes on
    with the last pod it saw until its context is cancelled, whatever becomes of the
    pod. *)
Theorem ended_watches_stall l : forall s s' st, timed = false -> (forall f, fd_go s f = mkGoroutine false None) -> fd_updateCh s = [] ->
  fd_loop s = Continue st -> Forall (fun a => forall t, a <> Cancelled t) l -> acts l s = Some s' ->
  exists st', fd_loop s' = Continue st' /\ currentPod st' = currentPod st /\ lastStage st' = lastStage st /\ fd_updateCh s' = [].
Proof.
  induction l as [|a l IH]; intros s s' st Ht Hg Hc Hl Hf; cbn [acts]; [intros [= <-]; by exists st|].
  inversion Hf as [|? ? Ha Hf']; subst. destruct a as [f e|f|f|f|now|now|now| |now]; cbn [act]; rewrite ?Hg, ?Hc, ?Ht; try done;
    [|intros H; by eapply (IH _ s' st Ht) in H|by specialize (Ha now)].
  unfold take. rewrite Hl. cbn [step]. destruct (tick podName streaming eventSlice st now) as [out st1] eqn:E. cbn [mbind option_bind].
  assert (Hst : currentPod st1 = currentPod st /\ lastStage st1 = lastStage st).
  { unfold tick in E. case_in E; [|by injection E as _ <-]. injection E as _ <-. done. }
  destruct Hst as [<- <-]. intros H. by eapply (IH _ s' st1 Ht) in H.
Qed.

End feed.

(** ** Witnesses *)

Module FeedSample.
Definition start : feeding := start_feeding 2 WatchSample.slice ∅ WatchSample.pending [] 1.
Definition run_ (l : list action) : option feeding := acts "ws" 2 true WatchSample.slice ∅ false l start.

(** The pod is updated while its deletion and an event are on their way. *)
Definition busy : list action :=
  [Delivers FeedPod (WModified, WPod WatchSample.pending); Sends FeedPod; Delivers FeedPod (WDeleted, WPod WatchSample.pending);
   Delivers FeedPodEvents (WAdded, WEvent PodSample.pull)].
Definition ended : list action := [Ends FeedPod; Ends FeedPodEvents].
End FeedSample.

Lemma feeds_in_order_witness : exists s, FeedSample.run_ FeedSample.busy = Some s /\
  from FeedPod (fd_updateCh s) = [PodUpdate WatchSample.pending] /\ (length (fd_updateCh s) <= capacity)%nat.
Proof.
  destruct (FeedSample.run_ FeedSample.busy) as [s|] eqn:E; [|vm_compute in E; discriminate E]. exists s. split; [reflexivity|].
  destruct (feeds_in_order "ws" 2 true WatchSample.slice ∅ false WatchSample.pending [] 1 FeedSample.busy s E) as (_ & _ & H & _).
  split; [vm_compute in E; injection E as <-; reflexivity|exact H].
Defined.

(** The event that was being sent arrives by sending and receiving, and also when the
    ticker goes on and the context ends in between. *)
Lemma messages_arrive_witness :
  exists s l s', FeedSample.run_ FeedSample.busy = Some s /\
    acts "ws" 2 true WatchSample.slice ∅ false l s = Some s' /\ length l <= 2 * capacity + 1 /\
    ((exists r e, fd_loop s' = Return r e) \/ taken_from FeedPodEvents (fd_taken s') = [EventUpdate PodSample.pull]) /\
    exists s1 s2, acts "ws" 2 true WatchSample.slice ∅ false [Sends FeedPodEvents] s = Some s1 /\
      acts "ws" 2 true WatchSample.slice ∅ false [Ticks 5; Receives 6; CtxEnds; Receives 7] s1 = Some s2 /\
      [EventUpdate PodSample.pull] `prefix_of` taken_from FeedPodEvents (fd_taken s2).
Proof.
  destruct (FeedSample.run_ FeedSample.busy) as [s|] eqn:E; [|vm_compute in E; discriminate E]. exists s.
  assert (Hl : exists st, fd_loop s = Continue st) by (vm_compute in E; injection E as <-; by eexists).
  assert (Hd : fd_dropped s FeedPodEvents = None) by (vm_compute in E; by injection E as <-).
  destruct (messages_arrive "ws" 2 true WatchSample.slice ∅ false WatchSample.pending [] 1 FeedSample.busy s FeedPodEvents E Hd) as [Hm _].
  destruct (Hm Hl) as (l & s' & Ha & _ & Hn & _ & Ho). exists l, s'. split; [reflexivity|]. split; [exact Ha|]. split; [exact Hn|]. split.
  { destruct Ho as [Ho|Ho]; [by left|right]. rewrite Ho. vm_compute in E. injection E as <-. reflexivity. }
  destruct (acts "ws" 2 true WatchSample.slice ∅ false [Sends FeedPodEvents] s) as [s1|] eqn:E1; [|vm_compute in E; injection E as <-; vm_compute in E1; discriminate E1].
  assert (E' : FeedSample.run_ (FeedSample.busy ++ [Sends FeedPodEvents]) = Some s1).
  { unfold FeedSample.run_ in *. rewrite acts_app, E. exact E1. }
  destruct (acts "ws" 2 true WatchSample.slice ∅ false [Ticks 5; Receives 6; CtxEnds; Receives 7] s1) as [s2|] eqn:E2.
  2: { vm_compute in E'. injection E' as <-. vm_compute in E2. discriminate E2. }
  exists s1, s2. split; [reflexivity|]. split; [exact E2|].
  assert (Hs1 : fd_dropped s1 FeedPodEvents = None /\ go_sending (fd_go s1 FeedPodEvents) = None /\ length (fd_updateCh s1) = 2 /\
    omap (forward ∅ FeedPodEvents) (fd_seen s1 FeedPodEvents) = [EventUpdate PodSample.pull]).
  { vm_compute in E'. injection E' as <-. by split_and!. }
  destruct Hs1 as (Hd1 & Hg1 & Hc1 & Hf1).
  destruct (messages_arrive "ws" 2 true WatchSample.slice ∅ false WatchSample.pending [] 1 _ s1 FeedPodEvents E' Hd1) as [_ Hall].
  rewrite <- Hf1. apply (Hall _ _ E2). left. split; [exact Hg1|]. rewrite Hc1. reflexivity.
Defined.

Lemma ended_watches_stall_witness : exists s s' st, FeedSample.run_ FeedSample.ended = Some s /\
  acts "ws" 2 true WatchSample.slice ∅ false [Ticks 3600000000000] s = Some s' /\ fd_loop s' = Continue st /\ lastStage st = StageScheduling.
Proof.
  destruct (FeedSample.run_ FeedSample.ended) as [s|] eqn:E; [|vm_compute in E; discriminate E].
  destruct (acts "ws" 2 true WatchSample.slice ∅ false [Ticks 3600000000000] s) as [s'|] eqn:E'; [|vm_compute in E; injection E as <-; vm_compute in E'; discriminate E'].
  assert (H : (forall f, fd_go s f = mkGoroutine false None) /\ fd_updateCh s = [] /\ exists st, fd_loop s = Continue st /\ lastStage st = StageScheduling).
  { vm_compute in E. injection E as <-. split; [by intros []|]. split; [reflexivity|]. eexists. split; reflexivity. }
  destruct H as (Hg & Hc & st & Hl & Hs). exists s, s'.
  destruct (ended_watches_stall "ws" 2 true WatchSample.slice ∅ false [Ticks 3600000000000] s s' st eq_refl Hg Hc Hl) as (st' & H1 & _ & H2 & _);
    [by repeat constructor|exact E'|]. exists st'. split; [reflexivity|]. split; [exact E'|]. split; [exact H1|by rewrite H2].
Defined.
