(* ===== verification/Kube.v ===== *)
(** * The API server's objects

    What the code relies on of the Kubernetes API server for one kind of object:
    atomic creation, and updates and deletions that may be conditional on the
    resource version read before. [KubeStore] is the interface, [KubeLaws] what
    it promises; clients are verified against these. A finite map with a
    version counter implements them. *)

From S2P Require Import Prelude.

Inductive kresult (S : Type) : Type :=
| KOk (s : S)
| KNotFound
| KConflict.
Arguments KOk {_} _.
Arguments KNotFound {_}.
Arguments KConflict {_}.

Class KubeStore (S A : Type) : Type := {
  (** The object of a name with its resource version. *)
  kget : string -> S -> option (A * Z);
  (** [None] when the name is taken. *)
  kcreate : string -> A -> S -> option S;
  (** Conditional on the version when one is given. *)
  kupdate : string -> A -> option Z -> S -> kresult S;
  kdelete : string -> option Z -> S -> kresult S;
  (** Every object with its name and its resource version. *)
  klist : S -> list (string * (A * Z));
}.

Definition version_matches (rv : option Z) (v : Z) : bool :=
  match rv with Some r => Z.eqb r v | None => true end.

(** The promises: each call acts on its object only, and every write gives the
    object a version newer than any seen before ([krev] is the newest), so an
    object that still has the version it was read with is unchanged. *)
Class KubeLaws (S A : Type) `{KubeStore S A} : Type := {
  krev : S -> Z;
  kget_rev : forall n s a v, kget n s = Some (a, v) -> (v <= krev s)%Z;
  kcreate_spec : forall n a s,
    match kcreate n a s with
    | Some s' => kget n s = None /\ kget n s' = Some (a, krev s') /\ (krev s < krev s')%Z /\
                 forall m, m <> n -> kget m s' = kget m s
    | None => is_Some (kget n s)
    end;
  kupdate_spec : forall n a rv s,
    match kupdate n a rv s with
    | KOk s' => (exists b v, kget n s = Some (b, v) /\ version_matches rv v = true) /\
                kget n s' = Some (a, krev s') /\ (krev s < krev s')%Z /\
                forall m, m <> n -> kget m s' = kget m s
    | KNotFound => kget n s = None
    | KConflict => exists b v, kget n s = Some (b, v) /\ version_matches rv v = false
    end;
  kdelete_spec : forall n rv s,
    match kdelete n rv s with
    | KOk s' => (exists b v, kget n s = Some (b, v) /\ version_matches rv v = true) /\
                kget n s' = None /\ (krev s <= krev s')%Z /\
                forall m, m <> n -> kget m s' = kget m s
    | KNotFound => kget n s = None
    | KConflict => exists b v, kget n s = Some (b, v) /\ version_matches rv v = false
    end;
  klist_spec : forall n o s, (n, o) ∈ klist s <-> kget n s = Some o;
}.

(** ** What a read is worth later *)
Section read_at.
Context {S A : Type} `{L : KubeLaws S A}.
Implicit Types (s : S).

(** [a] is what the object [n] holds if it still has the version [rv]. *)
Definition read_at (n : string) (a : A) (rv : Z) s : Prop :=
  (rv <= krev s)%Z /\ forall b, kget n s = Some (b, rv) -> b = a.

(** What a call can do to the objects: each one is unchanged, gone, or written
    with a new version. *)
Definition newer s s' : Prop :=
  (krev s <= krev s')%Z /\
  forall n b v, kget n s' = Some (b, v) -> kget n s = Some (b, v) \/ (krev s < v)%Z.

Lemma newer_refl s : newer s s.
Proof. split; [done|]. intros n b v. by left. Qed.

Lemma read_at_get n a rv s : kget n s = Some (a, rv) -> read_at n a rv s.
Proof. intros Hg. split; [by eapply kget_rev|]. intros b Hb. congruence. Qed.

(** A later write has a later version, so [read_at] survives it. *)
Lemma read_at_newer n a rv s s' : newer s s' -> read_at n a rv s -> read_at n a rv s'.
Proof.
  intros [Hle Hn] [Hv Hr]. split; [lia|]. intros b [Hb|Hlt]%Hn; [by apply Hr|lia].
Qed.

Lemma kcreate_newer n a s s' : kcreate n a s = Some s' -> newer s s'.
Proof.
  intros E. pose proof (kcreate_spec n a s) as Hs. rewrite E in Hs. destruct Hs as (_ & H1 & Hlt & Ho).
  split; [lia|]. intros m b v. destruct (decide (m = n)) as [->|Hm]; [|rewrite (Ho m Hm); by auto].
  rewrite H1. intros [= <- <-]. right. lia.
Qed.

Lemma kupdate_newer n a rv s s' : kupdate n a rv s = KOk s' -> newer s s'.
Proof.
  intros E. pose proof (kupdate_spec n a rv s) as Hs. rewrite E in Hs. destruct Hs as (_ & H1 & Hlt & Ho).
  split; [lia|]. intros m b v. destruct (decide (m = n)) as [->|Hm]; [|rewrite (Ho m Hm); by auto].
  rewrite H1. intros [= <- <-]. right. lia.
Qed.

Lemma kdelete_newer n rv s s' : kdelete n rv s = KOk s' -> newer s s'.
Proof.
  intros E. pose proof (kdelete_spec n rv s) as Hs. rewrite E in Hs. destruct Hs as (_ & H1 & Hle & Ho).
  split; [lia|]. intros m b v. destruct (decide (m = n)) as [->|Hm]; [|rewrite (Ho m Hm); by auto].
  by rewrite H1.
Qed.

Lemma kcreate_ok n a s s' :
  kcreate n a s = Some s' -> kget n s = None /\ kget n s' = Some (a, krev s') /\ newer s s'.
Proof.
  intros E. pose proof (kcreate_newer _ _ _ _ E). pose proof (kcreate_spec n a s) as Hs.
  rewrite E in Hs. naive_solver.
Qed.

Lemma kupdate_ok n a rv s s' :
  kupdate n a rv s = KOk s' -> kget n s' = Some (a, krev s') /\ newer s s'.
Proof.
  intros E. pose proof (kupdate_newer _ _ _ _ _ E). pose proof (kupdate_spec n a rv s) as Hs.
  rewrite E in Hs. naive_solver.
Qed.

Lemma kdelete_ok n rv s s' : kdelete n rv s = KOk s' -> kget n s' = None /\ newer s s'.
Proof.
  intros E. pose proof (kdelete_newer _ _ _ _ E). pose proof (kdelete_spec n rv s) as Hs.
  rewrite E in Hs. naive_solver.
Qed.

(** A conditional write that succeeds replaces what was read. *)
Lemma kupdate_read n a b rv s s' :
  read_at n b rv s -> kupdate n a (Some rv) s = KOk s' -> kget n s = Some (b, rv).
Proof.
  intros [_ Hr] E. pose proof (kupdate_spec n a (Some rv) s) as Hs. rewrite E in Hs.
  destruct Hs as ((c & v & Hg & Hv%Z.eqb_eq) & _). subst v. by rewrite <- (Hr c Hg).
Qed.
End read_at.

(** ** The implementation *)

Record objects (A : Type) : Type := mkObjects { objs : gmap string (A * Z); rev : Z }.
Arguments mkObjects {_} _ _.
Arguments objs {_} _.
Arguments rev {_} _.

(** Objects whose versions are not past the counter. *)
Definition kube_objects (A : Type) : Type :=
  { s : objects A | bool_decide (map_Forall (fun _ (o : A * Z) => (o.2 <= rev s)%Z) (objs s)) }.

Section instance.
Context {A : Type}.
Implicit Types (s : kube_objects A).

Lemma put_ok n (a : A) (s : kube_objects A) :
  bool_decide (map_Forall (fun _ (o : A * Z) => (o.2 <= rev (`s) + 1)%Z)
                 (<[n := (a, rev (`s) + 1)%Z]> (objs (`s)))).
Proof.
  apply bool_decide_pack. apply map_Forall_insert_2; [cbn; lia|].
  pose proof (bool_decide_unpack _ (proj2_sig s)) as H.
  eapply map_Forall_impl; [exact H|]. cbn. intros. lia.
Qed.

Definition put (n : string) (a : A) (s : kube_objects A) : kube_objects A :=
  exist _ (mkObjects (<[n := (a, rev (`s) + 1)%Z]> (objs (`s))) (rev (`s) + 1)) (put_ok n a s).

Lemma remove_ok n (s : kube_objects A) :
  bool_decide (map_Forall (fun _ (o : A * Z) => (o.2 <= rev (`s))%Z) (delete n (objs (`s)))).
Proof.
  apply bool_decide_pack. apply map_Forall_delete. exact (bool_decide_unpack _ (proj2_sig s)).
Qed.

Definition remove (n : string) (s : kube_objects A) : kube_objects A :=
  exist _ (mkObjects (delete n (objs (`s))) (rev (`s))) (remove_ok n s).

#[global] Instance objects_store : KubeStore (kube_objects A) A := {|
  kget n s := objs (`s) !! n;
  kcreate n a s := match objs (`s) !! n with Some _ => None | None => Some (put n a s) end;
  kupdate n a rv s :=
    match objs (`s) !! n with
    | None => KNotFound
    | Some (_, v) => if version_matches rv v then KOk (put n a s) else KConflict
    end;
  kdelete n rv s :=
    match objs (`s) !! n with
    | None => KNotFound
    | Some (_, v) => if version_matches rv v then KOk (remove n s) else KConflict
    end;
  klist s := map_to_list (objs (`s));
|}.

#[global] Instance objects_laws : KubeLaws (kube_objects A) A.
Proof.
  refine {| krev s := rev (`s) |}.
  - intros n s a v. cbn. pose proof (bool_decide_unpack _ (proj2_sig s)) as H.
    intros Hn. exact (H n _ Hn).
  - intros n a s. cbn. destruct (objs (`s) !! n) eqn:E; [by eexists|]. cbn.
    rewrite lookup_insert_eq. split_and!; [done|done|lia|].
    intros m Hm. by rewrite lookup_insert_ne.
  - intros n a rv s. cbn. destruct (objs (`s) !! n) as [[b v]|] eqn:E; [|done].
    destruct (version_matches rv v) eqn:Ev; [|by exists b, v]. cbn.
    rewrite lookup_insert_eq. split_and!; [by exists b, v|done|lia|].
    intros m Hm. by rewrite lookup_insert_ne.
  - intros n rv s. cbn. destruct (objs (`s) !! n) as [[b v]|] eqn:E; [|done].
    destruct (version_matches rv v) eqn:Ev; [|by exists b, v]. cbn.
    rewrite lookup_delete_eq. split_and!; [by exists b, v|done|lia|].
    intros m Hm. by rewrite lookup_delete_ne.
  - intros n o s. apply elem_of_map_to_list.
Defined.

Lemma no_objects_ok : bool_decide (map_Forall (fun _ (o : A * Z) => (o.2 <= 0)%Z) (∅ : gmap string (A * Z))).
Proof. apply bool_decide_pack. intros k o. by rewrite lookup_empty. Qed.

Definition no_objects : kube_objects A := exist _ (mkObjects ∅ 0) no_objects_ok.
End instance.
