(* ===== verification/Lock.v ===== *)
(** * The workspace lock

    internal/workspace/lock.go: a mutex over replicas, a Lease object per
    workspace. Every process is a state machine that makes one API call per
    step; processes interleave. Times are microseconds, the resolution of
    [metav1.MicroTime]. *)

From S2P Require Import Prelude Kube.

Definition sec : Z := 1000000.

(** [coordinationv1.LeaseSpec]. *)
Record Lease : Type := mkLease {
  HolderIdentity : option string;
  LeaseDurationSeconds : option Z;
  AcquireTime : option Z;
  RenewTime : option Z;
}.

Inductive lock_error : Type :=
| ErrLockAlreadyHeld
| LockContextCancelled
| LockGetFailed
| LockCreateFailed
| LockRenewGetFailed
| LockRenewFailed
| LockReleaseGetFailed
| LockDeleteFailed.

(** src/internal/workspace/lock.go:161-176 isLeaseAvailable *)
Definition isLeaseAvailable (lease : Lease) (now : Z) : bool :=
  match HolderIdentity lease with
  | None => true
  | Some _ =>
      match RenewTime lease, LeaseDurationSeconds lease with
      | Some renewTime, Some d => (renewTime + d * sec <? now)%Z
      | _, _ => true
      end
  end.

(** src/internal/workspace/lock.go:115-129 createLease *)
Definition new_lease (holderID : string) (now : Z) : Lease :=
  {| HolderIdentity := Some holderID; LeaseDurationSeconds := Some 30%Z;
     AcquireTime := Some now; RenewTime := Some now |}.

(** The lease as it is taken over: its duration is the one it had.

    src/internal/workspace/lock.go:146-151 acquireExistingLease *)
Definition claimed_lease (holderID : string) (lease : Lease) (now : Z) : Lease :=
  {| HolderIdentity := Some holderID; LeaseDurationSeconds := LeaseDurationSeconds lease;
     AcquireTime := Some now; RenewTime := Some now |}.

(** src/internal/workspace/lock.go:194-195 Renew *)
Definition renewed_lease (lease : Lease) (now : Z) : Lease :=
  {| HolderIdentity := HolderIdentity lease; LeaseDurationSeconds := LeaseDurationSeconds lease;
     AcquireTime := AcquireTime lease; RenewTime := Some now |}.

Definition held_by (holderID : string) (lease : Lease) : bool :=
  bool_decide (HolderIdentity lease = Some holderID).

Definition initialRetryDelay : Z := 1 * sec.
Definition maxRetryDelay : Z := 5 * sec.

(** src/internal/workspace/lock.go:103-107 AcquireWithOptions *)
Definition next_delay (d : Z) : Z := if (maxRetryDelay <? d * 2)%Z then maxRetryDelay else d * 2.

(** Where a process is. [until] is when the lease it acquired expires: a ghost,
    the code does not keep it. *)
Inductive pc : Type :=
| Acquiring (wait : bool) (delay : Z)
| Creating (wait : bool) (delay : Z)
| Claiming (wait : bool) (delay : Z) (lease : Lease) (rv : Z)
| Sleeping (delay : Z)
| Holding (until : Z)
| Renewing (until : Z) (lease : Lease) (rv : Z)
| Releasing (until : Z)
| Released
| NotAcquired (e : lock_error)
| Lost (until : Z) (e : lock_error)
| ReleaseFailed (e : lock_error).

(** What makes a process step: its next call or timer, a cancelled context, an
    API call that fails, or its caller asking to renew or to release (the last
    with the first call failing). *)
Inductive lock_event : Type := Run | CtxDone | ApiError | AskRenew | AskRelease | AskReleaseError.

(** When a lease acquired at [now] expires. A lease without a duration counts
    as expired from the start. *)
Definition expiry (lease : Lease) (now : Z) : Z :=
  match LeaseDurationSeconds lease with Some d => now + d * sec | None => now - 1 end.

Section process.
Context {T : Type} `{K : KubeStore T Lease}.
Variable leaseName holderID : string.

(** The end of an iteration that did not get the lock.

  src/internal/workspace/lock.go:96-109 AcquireWithOptions *)
Definition retry (wait : bool) (delay : Z) : pc :=
if wait then Sleeping delay else NotAcquired ErrLockAlreadyHeld.

(** The head of an iteration, up to the next API call.

  src/internal/workspace/lock.go:60-94 AcquireWithOptions *)
Definition acquire_get (wait : bool) (delay now : Z) (s : T) : pc :=
match kget leaseName s with
| None => Creating wait delay
| Some (lease, rv) =>
    if isLeaseAvailable lease now then Claiming wait delay lease rv else retry wait delay
end.

(** src/internal/workspace/lock.go:112-141 createLease *)
Definition createLease (wait : bool) (delay now : Z) (s : T) : pc * T :=
match kcreate leaseName (new_lease holderID now) s with
| Some s' => (Holding (now + 30 * sec), s')
| None => (retry wait delay, s)
end.

(** A conflict is like any other error of the update.

  src/internal/workspace/lock.go:143-159 acquireExistingLease *)
Definition acquireExistingLease (wait : bool) (delay : Z) (lease : Lease) (rv now : Z) (s : T) : pc * T :=
match kupdate leaseName (claimed_lease holderID lease now) (Some rv) s with
| KOk s' => (Holding (expiry lease now), s')
| _ => (retry wait delay, s)
end.

(** src/internal/workspace/lock.go:185-192 Renew *)
Definition renew_get (until : Z) (s : T) : pc :=
match kget leaseName s with
| None => Lost until LockRenewGetFailed
| Some (lease, rv) =>
    if held_by holderID lease then Renewing until lease rv else Lost until ErrLockAlreadyHeld
end.

(** src/internal/workspace/lock.go:194-201 Renew *)
Definition renew_update (until : Z) (lease : Lease) (rv now : Z) (s : T) : pc * T :=
match kupdate leaseName (renewed_lease lease now) (Some rv) s with
| KOk s' => (Holding (expiry lease now), s')
| _ => (Lost until LockRenewFailed, s)
end.

(** src/internal/workspace/lock.go:232-247 Release *)
Definition release_get (until : Z) (s : T) : pc :=
match kget leaseName s with
| None => Released
| Some (lease, _) => if held_by holderID lease then Releasing until else Released
end.

(** The deletion has no precondition.

  src/internal/workspace/lock.go:246-254 Release *)
Definition release_delete (s : T) : pc * T :=
match kdelete leaseName None s with
| KOk s' => (Released, s')
| _ => (Released, s)
end.

(** One step of the process at time [now]; [None] when the event does not apply.

  src/internal/workspace/lock.go:43-255 AcquireWithOptions *)
Definition lock_step (ev : lock_event) (now : Z) (p : pc) (s : T) : option (pc * T) :=
match p, ev with
| Acquiring wait delay, Run => Some (acquire_get wait delay now s, s)
| Acquiring _ _, CtxDone => Some (NotAcquired LockContextCancelled, s)
| Acquiring _ _, ApiError => Some (NotAcquired LockGetFailed, s)
| Creating wait delay, Run => Some (createLease wait delay now s)
| Creating _ _, ApiError => Some (NotAcquired LockCreateFailed, s)
| Claiming wait delay lease rv, Run => Some (acquireExistingLease wait delay lease rv now s)
| Claiming wait delay _ _, ApiError => Some (retry wait delay, s)
| Sleeping delay, Run => Some (Acquiring true (next_delay delay), s)
| Sleeping _, CtxDone => Some (NotAcquired LockContextCancelled, s)
| Holding until, AskRenew => Some (renew_get until s, s)
| Holding until, ApiError => Some (Lost until LockRenewGetFailed, s)
| Renewing until lease rv, Run => Some (renew_update until lease rv now s)
| Renewing until _ _, ApiError => Some (Lost until LockRenewFailed, s)
| (Holding until | Lost until _), AskRelease => Some (release_get until s, s)
| (Holding _ | Lost _ _), AskReleaseError => Some (ReleaseFailed LockReleaseGetFailed, s)
| Releasing until, Run => Some (release_delete s)
| Releasing _, ApiError => Some (ReleaseFailed LockDeleteFailed, s)
| _, _ => None
end.
End process.

(** ** The system *)

(** The processes that compete for one lease, each under its own holder ID. *)
Record world (T : Type) : Type := mkWorld {
  api : T;
  clock : Z;
  procs : gmap string pc;
}.
Arguments mkWorld {_} _ _ _.
Arguments api {_} _.
Arguments clock {_} _.
Arguments procs {_} _.

Section system.
Context {T : Type} `{K : KubeStore T Lease}.
Variable leaseName : string.

(** Time passes, or a process steps. *)
Inductive world_step : world T -> world T -> Prop :=
| step_clock w t : (clock w <= t)%Z -> world_step w (mkWorld (api w) t (procs w))
| step_process w id p ev p' s' :
  procs w !! id = Some p -> lock_step leaseName id ev (clock w) p (api w) = Some (p', s') ->
  world_step w (mkWorld s' (clock w) (<[id := p']> (procs w))).

(** The same, but a release deletes the lease before it has expired. *)
Inductive timely_step : world T -> world T -> Prop :=
| timely w w' :
  world_step w w' ->
  (forall id until, procs w !! id = Some (Releasing until) ->
     procs w' !! id <> Some (Releasing until) -> (clock w <= until)%Z) ->
  timely_step w w'.

(** Nobody holds the lock and the lease does not exist. *)
Definition initial (w : world T) : Prop :=
kget leaseName (api w) = None /\
forall id p, procs w !! id = Some p -> exists wait, p = Acquiring wait initialRetryDelay.

(** The process [id] acts under the lock and the lease it took has not expired. *)
Definition in_control (w : world T) (id : string) : Prop :=
exists p until, procs w !! id = Some p /\ (clock w <= until)%Z /\
  (p = Holding until \/ exists lease rv, p = Renewing until lease rv).
End system.

(** ** The invariant *)

Section invariant.
Context {T : Type} `{L : KubeLaws T Lease}.
Variable n : string.

(** The lease exists, is [id]'s and does not expire before [until]. *)
Definition owns (id : string) (until : Z) (s : T) : Prop :=
exists lease v r d, kget n s = Some (lease, v) /\ HolderIdentity lease = Some id /\
  RenewTime lease = Some r /\ LeaseDurationSeconds lease = Some d /\ (until <= r + d * sec)%Z.

Definition until_of (p : pc) : option Z :=
match p with
| Holding u | Renewing u _ _ | Releasing u | Lost u _ => Some u
| _ => None
end.

(** What holds of a process: an unexpired lease it took is still its own, and
  what it is about to overwrite is what it has judged. *)
Definition proc_ok (id : string) (p : pc) (s : T) (now : Z) : Prop :=
(forall u, until_of p = Some u -> owns id u s \/ (u < now)%Z) /\
match p with
| Claiming _ _ lease rv => read_at n lease rv s /\ isLeaseAvailable lease now = true
| Renewing _ lease rv => read_at n lease rv s /\ HolderIdentity lease = Some id
| _ => True
end.

Definition lock_inv (w : world T) : Prop :=
forall id p, procs w !! id = Some p -> proc_ok id p (api w) (clock w).

(** What a step of [id] does to the lease. *)
Inductive effect (id : string) (p : pc) (now : Z) (s : T) : T -> Prop :=
| effect_none : effect id p now s s
| effect_create s' :
  kget n s = None -> newer s s' -> effect id p now s s'
| effect_update lease v s' :
  kget n s = Some (lease, v) -> newer s s' ->
  isLeaseAvailable lease now = true \/ HolderIdentity lease = Some id -> effect id p now s s'
| effect_delete u s' :
  p = Releasing u -> kget n s' = None -> newer s s' -> effect id p now s s'.

Lemma available_mono lease t1 t2 :
(t1 <= t2)%Z -> isLeaseAvailable lease t1 = true -> isLeaseAvailable lease t2 = true.
Proof.
unfold isLeaseAvailable. intros Ht. repeat (case_goal; try done). rewrite !Z.ltb_lt. lia.
Qed.

Lemma owns_unique id1 id2 u1 u2 s : owns id1 u1 s -> owns id2 u2 s -> id1 = id2.
Proof. intros (l1 & v1 & r1 & d1 & ?) (l2 & v2 & r2 & d2 & ?). naive_solver congruence. Qed.

Lemma owns_not_available id u s lease v now :
owns id u s -> kget n s = Some (lease, v) -> isLeaseAvailable lease now = true -> (u < now)%Z.
Proof.
intros (l & v' & r & d & Hg & Hh & Hr & Hd & Hu) Hk. simplify_eq.
unfold isLeaseAvailable. rewrite Hh, Hr, Hd, Z.ltb_lt. lia.
Qed.

Lemma effect_newer id p now s s' : effect id p now s s' -> newer s s'.
Proof. intros []; [apply newer_refl|done..]. Qed.

(** What the other processes keep. *)
Lemma proc_ok_other id q p pq s s' now :
id <> q -> effect q pq now s s' -> proc_ok q pq s now ->
(forall u, pq = Releasing u -> s' <> s -> (now <= u)%Z) ->
proc_ok id p s now -> proc_ok id p s' now.
Proof.
intros Hne He Hq Ht [Hu Hp]. split.
- intros u Hpu. destruct (Hu u Hpu) as [Ho|]; [|by right].
  destruct He as [|s' Hg _|le v s' Hg _ [Ha|Hh]|uq s' Hpq Hg' _].
  + by left.
  + destruct Ho as (? & ? & ? & ? & ? & _). congruence.
  + right. by eapply owns_not_available.
  + destruct Ho as (? & ? & ? & ? & ? & ? & _). congruence.
  + right. destruct Hq as [Hq _]. destruct (Hq uq) as [Hoq|]; [by rewrite Hpq| |].
    * by destruct Hne, (owns_unique _ _ _ _ _ Ho Hoq).
    * assert (s' <> s) as Hs.
      { intros ->. destruct Ho as (? & ? & ? & ? & ? & _). congruence. }
      specialize (Ht uq Hpq Hs). lia.
- apply effect_newer in He. destruct p; try done; destruct Hp; split; try done; by eapply read_at_newer.
Qed.

Lemma held_by_spec id lease : held_by id lease = true -> HolderIdentity lease = Some id.
Proof. unfold held_by. by rewrite bool_decide_eq_true. Qed.

Lemma retry_ok id wait delay s now : proc_ok id (retry wait delay) s now.
Proof. unfold retry. by destruct wait. Qed.

(** A write of [id]'s lease at [now] makes it [id]'s until it expires. *)
Lemma written_owns id lease now s v :
kget n s = Some (lease, v) -> HolderIdentity lease = Some id -> RenewTime lease = Some now ->
owns id (expiry lease now) s \/ (expiry lease now < now)%Z.
Proof.
intros Hg Hh Hr. unfold expiry. destruct (LeaseDurationSeconds lease) as [d|] eqn:Hd; [|right; lia].
left. by exists lease, v, now, d.
Qed.

Lemma acquire_get_ok id wait delay now s : proc_ok id (acquire_get n wait delay now s) s now.
Proof.
unfold acquire_get. destruct (kget n s) as [[lease rv]|] eqn:E; [|done].
destruct (isLeaseAvailable lease now) eqn:Ea; [|apply retry_ok].
split; [done|]. by split; [apply read_at_get|].
Qed.

Lemma createLease_ok id p wait delay now s p' s' :
createLease n id wait delay now s = (p', s') -> proc_ok id p' s' now /\ effect id p now s s'.
Proof.
unfold createLease. destruct (kcreate n _ s) as [s1|] eqn:E; intros [= <- <-];
  [|split; [apply retry_ok|constructor]].
apply kcreate_ok in E as (H0 & H1 & Hn). split; [|by eapply effect_create].
split; [|done]. intros u [= <-]. change (now + 30 * sec)%Z with (expiry (new_lease id now) now).
by eapply written_owns.
Qed.

Lemma acquireExistingLease_ok id p wait delay lease rv now s p' s' :
read_at n lease rv s -> isLeaseAvailable lease now = true ->
acquireExistingLease n id wait delay lease rv now s = (p', s') ->
proc_ok id p' s' now /\ effect id p now s s'.
Proof.
intros Hr Ha. unfold acquireExistingLease.
destruct (kupdate n _ _ s) as [s1| |] eqn:E; intros [= <- <-];
  [|split; [apply retry_ok|constructor]..].
pose proof (kupdate_read _ _ _ _ _ _ Hr E) as Hg. apply kupdate_ok in E as [H1 Hn].
split; [|by eapply effect_update; eauto]. split; [|done]. intros u [= <-].
change (expiry lease now) with (expiry (claimed_lease id lease now) now).
by eapply written_owns.
Qed.

Lemma renew_get_ok id until now s :
owns id until s \/ (until < now)%Z -> proc_ok id (renew_get n id until s) s now.
Proof.
intros Hu. unfold renew_get. destruct (kget n s) as [[lease rv]|] eqn:E.
2: { split; [|done]. by intros u [= <-]. }
destruct (held_by id lease) eqn:Eh; (split; [by intros u [= <-]|]); [|done].
split; [by apply read_at_get|by apply held_by_spec].
Qed.

Lemma renew_update_ok id p until lease rv now s p' s' :
owns id until s \/ (until < now)%Z -> read_at n lease rv s -> HolderIdentity lease = Some id ->
renew_update n until lease rv now s = (p', s') ->
proc_ok id p' s' now /\ effect id p now s s'.
Proof.
intros Hu Hr Hh. unfold renew_update.
destruct (kupdate n _ _ s) as [s1| |] eqn:E; intros [= <- <-];
  [|split; [split; [by intros u [= <-]|done]|constructor]..].
pose proof (kupdate_read _ _ _ _ _ _ Hr E) as Hg. apply kupdate_ok in E as [H1 Hn].
split; [|by eapply effect_update; eauto]. split; [|done]. intros u [= <-].
change (expiry lease now) with (expiry (renewed_lease lease now) now).
by eapply written_owns.
Qed.

Lemma release_get_ok id until now s :
owns id until s \/ (until < now)%Z -> proc_ok id (release_get n id until s) s now.
Proof.
intros Hu. unfold release_get. destruct (kget n s) as [[lease rv]|]; [|done].
destruct (held_by id lease); [|done]. split; [by intros u [= <-]|done].
Qed.

Lemma release_delete_ok id until now s p' s' :
release_delete n s = (p', s') -> proc_ok id p' s' now /\ effect id (Releasing until) now s s'.
Proof.
unfold release_delete.
destruct (kdelete n None s) as [s1| |] eqn:E; intros [= <- <-]; (split; [done|]); [|constructor..].
apply kdelete_ok in E as [H1 Hn]. by eapply effect_delete.
Qed.

(** A step keeps the process's own condition and has one of the effects. *)
Lemma lock_step_ok id ev now p s p' s' :
proc_ok id p s now -> lock_step n id ev now p s = Some (p', s') ->
proc_ok id p' s' now /\ effect id p now s s'.
Proof.
intros [Hu Hp]. destruct p; destruct ev; cbn [lock_step]; try done; intros Hs; injection Hs as Hs;
  try (subst; split; [|apply effect_none]);
  first [ done | by apply retry_ok | by apply acquire_get_ok
        | by apply renew_get_ok, Hu | by apply release_get_ok, Hu
        | by eapply createLease_ok
        | by destruct Hp; eapply acquireExistingLease_ok
        | by destruct Hp; eapply renew_update_ok; [apply Hu|..]
        | by eapply release_delete_ok
        | by split; [intros u [= <-]; apply Hu|] ].
Qed.
End invariant.

Section reachable.
Context {T : Type} `{L : KubeLaws T Lease}.
Variable n : string.

Lemma proc_ok_later id p s t1 t2 :
(t1 <= t2)%Z -> proc_ok n id p s t1 -> proc_ok n id p s t2.
Proof.
intros Ht [Hu Hp]. split.
- intros u Hpu. destruct (Hu u Hpu); [by left|right; lia].
- destruct p; try done. destruct Hp. split; [done|]. by eapply available_mono.
Qed.

Lemma initial_inv w : initial n w -> lock_inv n w.
Proof. intros [_ Hi] id p Hp. destruct (Hi id p Hp) as [wait ->]. by split. Qed.

Lemma timely_step_inv w w' : timely_step n w w' -> lock_inv n w -> lock_inv n w'.
Proof.
intros [w1 w2 Hs Ht] Hinv. destruct Hs as [w0 t Hle|w0 q pq ev pq' s' Hq Hstep].
{ intros id p Hp. cbn. eapply proc_ok_later; [exact Hle|]. by apply Hinv. }
destruct (lock_step_ok n q ev (clock w0) pq (api w0) pq' s' (Hinv q pq Hq) Hstep) as [Hok He].
intros id p. cbn. intros Hp0. apply lookup_insert_Some in Hp0 as [[<- <-]|[Hne Hp]]; [done|].
eapply proc_ok_other; [|exact He|by apply Hinv| |by apply Hinv]; [done|].
intros u -> Hs'. apply (Ht q u Hq). cbn. rewrite lookup_insert_eq. intros [= ->].
destruct ev; cbn in Hstep; try done. unfold release_delete in Hstep. by repeat case_match.
Qed.

Lemma reachable_inv w0 w : initial n w0 -> rtc (timely_step n) w0 w -> lock_inv n w.
Proof.
intros H0%initial_inv Hr. induction Hr as [w|w1 w2 w3 H12 _ IH]; [done|].
apply IH. by eapply timely_step_inv.
Qed.

Lemma in_control_owns w id : lock_inv n w -> in_control w id -> exists u, owns n id u (api w).
Proof.
intros Hinv (p & u & Hp & Hu & Hk). destruct (Hinv id p Hp) as [Hok _].
destruct (Hok u) as [Ho|]; [|by exists u|lia]. by destruct Hk as [->|(l & v & ->)].
Qed.
End reachable.

(** ** The theorems *)

(** C7. Mutual exclusion: however processes and time interleave, at no moment do
    two processes act under the lock on leases that have not expired, as long
    as every release that has found its lease deletes it before it expires. *)
Theorem lock_mutual_exclusion {T} `{KubeLaws T Lease} n w0 w id1 id2 :
  initial n w0 -> rtc (timely_step n) w0 w -> in_control w id1 -> in_control w id2 -> id1 = id2.
Proof.
  intros Hi Hr H1 H2. pose proof (reachable_inv n w0 w Hi Hr) as Hinv.
  destruct (in_control_owns n w id1 Hinv H1) as [u1 O1], (in_control_owns n w id2 Hinv H2) as [u2 O2].
  by eapply owns_unique.
Qed.

(** A process that releases does so before its lease expires. *)
Definition in_time (t : Z) (p : pc) : bool :=
  match p with Releasing until => bool_decide (t <= until)%Z | _ => true end.

(** A schedule: at each time a process and its event. With [strict] every
    release has to be in time. *)
Fixpoint run {T} `{KubeStore T Lease} (strict : bool) (n : string) (w : world T)
    (sched : list (Z * string * lock_event)) : option (world T) :=
  match sched with
  | [] => Some w
  | (t, id, ev) :: sched =>
      p ← procs w !! id;
      r ← lock_step n id ev t p (api w);
      if bool_decide (clock w <= t)%Z && (in_time t p || negb strict)
      then run strict n (mkWorld r.2 t (<[id := r.1]> (procs w))) sched
      else None
  end.

Section run.
Context {T : Type} `{K : KubeStore T Lease}.
Variable n : string.

Lemma timely_world w w' : timely_step n w w' -> world_step n w w'.
Proof. by intros []. Qed.

Lemma run_step w t id ev p p' s' :
procs w !! id = Some p -> lock_step n id ev t p (api w) = Some (p', s') -> (clock w <= t)%Z ->
rtc (world_step n) w (mkWorld s' t (<[id := p']> (procs w))) /\
(in_time t p = true -> rtc (timely_step n) w (mkWorld s' t (<[id := p']> (procs w)))).
Proof.
intros Hp Hl Ht.
assert (H1 : world_step n w (mkWorld (api w) t (procs w))) by by constructor.
assert (H2 : world_step n (mkWorld (api w) t (procs w)) (mkWorld s' t (<[id := p']> (procs w))))
  by by apply (step_process n (mkWorld (api w) t (procs w)) id p ev p' s').
split; [by eapply rtc_l, rtc_once|]. intros Hin.
eapply rtc_l, rtc_once; (split; [eassumption|]); cbn; intros i u Hi Hn; [done|].
destruct (decide (i = id)) as [->|Hne].
- simplify_eq. by apply bool_decide_eq_true in Hin.
- by rewrite lookup_insert_ne in Hn.
Qed.

Lemma run_steps strict sched : forall (w w' : world T),
run strict n w sched = Some w' ->
rtc (world_step n) w w' /\ (strict = true -> rtc (timely_step n) w w').
Proof.
induction sched as [|[[t id] ev] sched IH]; intros w w'; cbn [run].
{ intros [= ->]. by split. }
destruct (procs w !! id) as [p|] eqn:Hp; [|done]. cbn.
destruct (lock_step n id ev t p (api w)) as [[p' s']|] eqn:Hl; [|done]. cbn.
case_bool_decide as Ht; [|done]. cbn. destruct (in_time t p || negb strict) eqn:Hs; [|done].
intros [HW HT]%IH. destruct (run_step w t id ev p p' s' Hp Hl Ht) as [W1 T1].
split; [by etrans|]. intros ->. rewrite orb_false_r in Hs. etrans; [by apply T1|by apply HT].
Qed.
End run.

Module LockSample.
Definition api_store : Type := kube_objects Lease.
Definition start : world api_store :=
  mkWorld no_objects 0
    (<["a" := Acquiring true initialRetryDelay]>
     (<["b" := Acquiring true initialRetryDelay]>
      (<["c" := Acquiring true initialRetryDelay]> ∅))).
Definition at_ (s : Z) (id : string) (ev : lock_event) : Z * string * lock_event := ((s * sec)%Z, id, ev).
(** a acquires and, its lease just valid, starts to release it; b takes the
    expired lease over; then a's deletion removes b's lease and c acquires. *)
Definition late_release : list (Z * string * lock_event) :=
  [at_ 0 "a" Run; at_ 0 "a" Run; at_ 30 "a" AskRelease;
   at_ 31 "b" Run; at_ 31 "b" Run; at_ 32 "a" Run; at_ 33 "c" Run; at_ 33 "c" Run].
(** a acquires, b waits, a releases in time, b acquires. *)
Definition hand_over : list (Z * string * lock_event) :=
  [at_ 0 "a" Run; at_ 0 "a" Run; at_ 1 "b" Run; at_ 5 "a" AskRelease; at_ 5 "a" Run;
   at_ 6 "b" Run; at_ 6 "b" Run; at_ 6 "b" Run].
End LockSample.

Lemma lock_sample_initial : initial "l" LockSample.start.
Proof.
  split; [reflexivity|]. intros id p. unfold LockSample.start. cbn [procs].
  rewrite !lookup_insert_Some, lookup_empty. naive_solver.
Qed.

Definition controls {T} (w : world T) (id : string) : bool :=
  match procs w !! id with
  | Some (Holding until | Renewing until _ _) => bool_decide (clock w <= until)%Z
  | _ => false
  end.

(** The processes that act under the lock. *)
Definition controllers {T} (w : world T) : list string :=
  List.filter (controls w) (map fst (map_to_list (procs w))).

Lemma controllers_spec {T} (w : world T) id : id ∈ controllers w -> in_control w id.
Proof.
  unfold controllers, controls. intros [_ Hc]%list_elem_of_In%filter_In.
  destruct (procs w !! id) as [[]|] eqn:E; try done; apply bool_decide_eq_true in Hc;
    do 2 eexists; (split; [exact E|]); (split; [exact Hc|]); [by left|right; by do 2 eexists].
Qed.

(** Without releases in time exclusion fails: Release reads the lease and then
    deletes whatever lease there is, so a release that is late deletes the
    lease of the process that took the expired one over, and a third process
    acquires the lock beside it. *)
Theorem late_release_breaks_exclusion :
  exists w, initial "l" LockSample.start /\ rtc (world_step "l") LockSample.start w /\
    in_control w "b" /\ in_control w "c".
Proof.
  assert (Hc : (fun o => match o with Some w => Some (controllers w) | None => None end)
                 (run false "l" LockSample.start LockSample.late_release) = Some ["c"; "b"])
    by (vm_compute; reflexivity).
  destruct (run false "l" LockSample.start LockSample.late_release) as [w|] eqn:E; [|discriminate Hc].
  injection Hc as Hc. exists w. split; [exact lock_sample_initial|].
  split; [|by split; apply controllers_spec; rewrite Hc; set_solver].
  by eapply run_steps.
Qed.

Lemma lock_mutual_exclusion_witness :
  initial "l" LockSample.start /\ exists w, rtc (timely_step "l") LockSample.start w /\
    in_control w "b" /\ forall id, in_control w id -> id = "b".
Proof.
  split; [exact lock_sample_initial|].
  assert (Hc : (fun o => match o with Some w => Some (controllers w) | None => None end)
                 (run true "l" LockSample.start LockSample.hand_over) = Some ["b"])
    by (vm_compute; reflexivity).
  destruct (run true "l" LockSample.start LockSample.hand_over) as [w|] eqn:E; [|discriminate Hc].
  injection Hc as Hc. exists w.
  assert (Hr : rtc (timely_step "l") LockSample.start w)
    by (apply (run_steps "l" true LockSample.hand_over _ _ E); reflexivity).
  assert (Hb : in_control w "b") by (apply controllers_spec; rewrite Hc; set_solver).
  split; [exact Hr|]. split; [exact Hb|]. intros id Hid.
  exact (lock_mutual_exclusion "l" LockSample.start w id "b" lock_sample_initial Hr Hid Hb).
Defined.
