(* ===== verification/LockSpec.v ===== *)
(** * The workspace lock refines a lease mutex

    The specification of the lock of Lock.v is a mutex with one owner and a
    term: it is granted when it is free or its term is over, extended and freed
    by its owner. Every history of acquisitions, renewals and releases of the
    processes that compete for a Lease, in which a release that goes through is made
    before the lease expires, is one of that mutex.

    KeepAlive, the goroutine that renews a lock every interval, is a machine
    beside the process whose lock it renews; as long as its renewals are prompt
    and the others' releases in time it keeps the lock. *)

From S2P Require Import Prelude Kube Lock.

(** ** The abstract mutex *)

(** The owner and the end of its term. *)
Definition mutex : Type := option (string * Z).

Inductive mutex_op : Type := Grant (id : string) | Extend (id : string) | Free (id : string).

(** A granted or extended term: 30 seconds, what createLease writes. *)
Definition term : Z := 30 * sec.

Definition over (m : mutex) (t : Z) : bool :=
  match m with Some (_, until) => (until <? t)%Z | None => true end.

Definition owned_by (id : string) (m : mutex) : bool := bool_decide (fst <$> m = Some id).

(** [None] when the operation is not allowed at [t]. *)
Definition mutex_step (m : mutex) (t : Z) (o : mutex_op) : option mutex :=
  match o with
  | Grant id => if over m t then Some (Some (id, t + term)%Z) else None
  | Extend id => if owned_by id m then Some (Some (id, t + term)%Z) else None
  | Free id => if owned_by id m then Some None else None
  end.

Fixpoint mutex_run (m : mutex) (tr : list (Z * mutex_op)) : option mutex :=
  match tr with
  | [] => Some m
  | (t, o) :: tr => m' ← mutex_step m t o; mutex_run m' tr
  end.

Lemma mutex_run_app m tr1 tr2 : mutex_run m (tr1 ++ tr2) = m' ← mutex_run m tr1; mutex_run m' tr2.
Proof.
  revert m. induction tr1 as [|[t o] tr1 IH]; intros m; [done|]. cbn.
  destruct (mutex_step m t o); [apply IH|done].
Qed.

(** ** Histories of the processes *)

(** The operation of the mutex that a step from [p] to [p'] is. *)
Definition observed (id : string) (p p' : pc) : list mutex_op :=
  match p, p' with
  | (Creating _ _ | Claiming _ _ _ _), Holding _ => [Grant id]
  | Renewing _ _ _, Holding _ => [Extend id]
  | Releasing _, Released => [Free id]
  | _, _ => []
  end.

Section history.
Context {T : Type} `{K : KubeStore T Lease}.
Variable n : string.

(** What the lease says of the mutex. *)
Definition mutex_of (s : T) : mutex :=
  match kget n s with
  | Some (lease, _) =>
      id ← HolderIdentity lease; r ← RenewTime lease; d ← LeaseDurationSeconds lease;
      Some (id, r + d * sec)%Z
  | None => None
  end.

(** The processes go from [w0] to [w], with these operations at these times;
    every release that has found its lease deletes it before it expires. *)
Inductive history (w0 : world T) : list (Z * mutex_op) -> world T -> Prop :=
| history_start : history w0 [] w0
| history_clock tr w t :
    history w0 tr w -> (clock w <= t)%Z -> history w0 tr (mkWorld (api w) t (procs w))
| history_process tr w id p ev p' s' :
    history w0 tr w -> procs w !! id = Some p ->
    lock_step n id ev (clock w) p (api w) = Some (p', s') ->
    (forall until, p = Releasing until -> (clock w <= until)%Z) ->
    history w0 (tr ++ map (pair (clock w)) (observed id p p'))
      (mkWorld s' (clock w) (<[id := p']> (procs w))).
End history.

Section refinement.
Context {T : Type} `{L : KubeLaws T Lease}.
Variable n : string.
Implicit Types (s : T) (w : world T).

(** The lease as createLease, acquireExistingLease and Renew write it. *)
Definition lease_ok (lease : Lease) : Prop :=
  is_Some (HolderIdentity lease) /\ is_Some (RenewTime lease) /\ LeaseDurationSeconds lease = Some 30%Z.

Definition store_ok s : Prop := forall lease v, kget n s = Some (lease, v) -> lease_ok lease.

Lemma timely_process w id p ev p' s' :
  procs w !! id = Some p -> lock_step n id ev (clock w) p (api w) = Some (p', s') ->
  (forall until, p = Releasing until -> (clock w <= until)%Z) ->
  timely_step n w (mkWorld s' (clock w) (<[id := p']> (procs w))).
Proof.
  intros Hp Hl Ht. split; [by econstructor|]. cbn. intros i u Hi Hn.
  destruct (decide (i = id)) as [->|Hne]; [|by rewrite lookup_insert_ne in Hn].
  apply Ht. congruence.
Qed.

Lemma history_timely w0 tr w : history n w0 tr w -> rtc (timely_step n) w0 w.
Proof.
  intros Hh. induction Hh as [|tr w t Hh IH Hle|tr w id p ev p' s' Hh IH Hp Hl Ht]; [constructor| |].
  - eapply rtc_r; [exact IH|]. split; [by constructor|]. cbn. naive_solver.
  - eapply rtc_r; [exact IH|]. by eapply timely_process.
Qed.

(** A written lease gives the mutex its owner and a new term. *)
Lemma mutex_of_written s lease v id now :
  kget n s = Some (lease, v) -> HolderIdentity lease = Some id -> RenewTime lease = Some now ->
  LeaseDurationSeconds lease = Some 30%Z -> mutex_of n s = Some (id, now + term)%Z /\ store_ok s.
Proof.
  intros Hg Hh Hr Hd. unfold mutex_of, store_ok, lease_ok. rewrite Hg. split; [by rewrite Hh, Hr, Hd|].
  intros ? ? [= <- <-]. by rewrite Hh, Hr, Hd.
Qed.

(** Before it expires a lease that a process took is the mutex's. *)
Lemma owns_mutex id u s : owns n id u s -> exists t, mutex_of n s = Some (id, t) /\ (u <= t)%Z.
Proof.
  intros (l & v & r & d & Hg & Hh & Hr & Hd & Hu). exists (r + d * sec)%Z. unfold mutex_of.
  by rewrite Hg, Hh, Hr, Hd.
Qed.

Definition simulates s (ops : list (Z * mutex_op)) s' : Prop :=
  mutex_run (mutex_of n s) ops = Some (mutex_of n s') /\ store_ok s'.

Lemma createLease_simulates id wait delay now s p' s' p :
  (exists wait' delay', p = Creating wait' delay') ->
  store_ok s -> createLease n id wait delay now s = (p', s') ->
  simulates s (map (pair now) (observed id p p')) s'.
Proof.
  intros (wait' & delay' & ->) Hok. unfold createLease.
  destruct (kcreate n _ s) as [s1|] eqn:E; intros [= <- <-]; [|by destruct wait].
  apply kcreate_ok in E as (H0 & H1 & _).
  destruct (mutex_of_written _ _ _ id now H1) as [Hm Hs]; [done..|].
  split; [|done]. cbn. unfold mutex_of at 1. rewrite H0. cbn. by rewrite Hm.
Qed.

Lemma acquireExistingLease_simulates id wait delay lease rv now s p' s' :
  store_ok s -> read_at n lease rv s -> isLeaseAvailable lease now = true ->
  acquireExistingLease n id wait delay lease rv now s = (p', s') ->
  simulates s (map (pair now) (observed id (Claiming wait delay lease rv) p')) s'.
Proof.
  intros Hok Hr Ha. unfold acquireExistingLease.
  destruct (kupdate n _ _ s) as [s1| |] eqn:E; intros [= <- <-]; [|by destruct wait..].
  pose proof (kupdate_read _ _ _ _ _ _ Hr E) as Hg. apply kupdate_ok in E as [H1 _].
  destruct (Hok _ _ Hg) as ([h Hh] & [r Hrt] & Hd).
  destruct (mutex_of_written _ _ _ id now H1) as [Hm Hs]; [done..|].
  split; [|done]. cbn. unfold mutex_of at 1. rewrite Hg, Hh, Hrt, Hd. cbn.
  unfold isLeaseAvailable in Ha. rewrite Hh, Hrt, Hd in Ha. by rewrite Ha, Hm.
Qed.

Lemma renew_update_simulates id until lease rv now s p' s' :
  store_ok s -> read_at n lease rv s -> HolderIdentity lease = Some id ->
  renew_update n until lease rv now s = (p', s') ->
  simulates s (map (pair now) (observed id (Renewing until lease rv) p')) s'.
Proof.
  intros Hok Hr Hh. unfold renew_update.
  destruct (kupdate n _ _ s) as [s1| |] eqn:E; intros [= <- <-]; [|done..].
  pose proof (kupdate_read _ _ _ _ _ _ Hr E) as Hg. apply kupdate_ok in E as [H1 _].
  destruct (Hok _ _ Hg) as (_ & [r Hrt] & Hd).
  destruct (mutex_of_written _ _ _ id now H1) as [Hm Hs]; [done..|].
  split; [|done]. cbn. unfold mutex_of at 1. rewrite Hg, Hh, Hrt, Hd. cbn. unfold owned_by. cbn.
  by rewrite bool_decide_true, Hm.
Qed.

Lemma release_delete_simulates id until now s p' s' :
  store_ok s -> owns n id until s -> release_delete n s = (p', s') ->
  simulates s (map (pair now) (observed id (Releasing until) p')) s'.
Proof.
  intros Hok Ho. destruct (owns_mutex _ _ _ Ho) as (t & Hm & _).
  destruct Ho as (l & v & _ & _ & Hg & _). unfold release_delete.
  pose proof (kdelete_spec n None s) as Hs. destruct (kdelete n None s) as [s1| |]; intros [= <- <-].
  - destruct Hs as (_ & H1 & _). unfold simulates. cbn. rewrite Hm. unfold owned_by. cbn.
    rewrite bool_decide_true by done. unfold mutex_of, store_ok. rewrite H1. done.
  - congruence.
  - by destruct Hs as (b & v' & _ & ?).
Qed.

(** Every other step reads only and is no operation of the mutex. *)
Lemma lock_step_simulates id ev now p s p' s' :
  store_ok s -> proc_ok n id p s now -> (forall u, p = Releasing u -> (now <= u)%Z) ->
  lock_step n id ev now p s = Some (p', s') -> simulates s (map (pair now) (observed id p p')) s'.
Proof.
  intros Hok [Hu Hp] Ht.
  destruct p as [| | | | | |u| | | |]; destruct ev; cbn [lock_step]; try done; intros Hs; injection Hs as Hs;
    try (subst; by split); try (injection Hs as <- <-; by split).
  - by eapply createLease_simulates; eauto.
  - destruct Hp. by eapply acquireExistingLease_simulates.
  - subst. by destruct wait.
  - destruct Hp. by eapply renew_update_simulates.
  - eapply release_delete_simulates; [done| |exact Hs]. destruct (Hu u eq_refl); [done|].
    specialize (Ht u eq_refl). lia.
Qed.

Lemma history_simulates w0 tr w :
  initial n w0 -> history n w0 tr w ->
  lock_inv n w /\ store_ok (api w) /\ mutex_run None tr = Some (mutex_of n (api w)).
Proof.
  intros Hi Hh. split; [by eapply reachable_inv, history_timely|].
  induction Hh as [|tr w t Hh IH Hle|tr w id p ev p' s' Hh [Hok IH] Hp Hl Ht]; [|done|].
  - destruct Hi as [Hn _]. unfold store_ok, mutex_of. by rewrite Hn.
  - pose proof (reachable_inv n _ _ Hi (history_timely _ _ _ Hh)) as Hinv.
    destruct (lock_step_simulates _ _ _ _ _ _ _ Hok (Hinv _ _ Hp) Ht Hl) as [Hrun Hok'].
    cbn. split; [done|]. by rewrite mutex_run_app, IH.
Qed.
End refinement.

(** C8. As long as every release that has found its lease deletes it before it expires
    ([history] demands it; Lock.v's [late_release_breaks_exclusion] shows what
    happens otherwise), and however the processes and time interleave besides, what
    the processes do to the lock is a run of the abstract mutex that ends in what
    the lease says, and a process that acts under the lock is the mutex's owner, its
    term not over. *)
Theorem lock_refines_mutex {T} `{KubeLaws T Lease} n (w0 : world T) tr w :
  initial n w0 -> history n w0 tr w ->
  mutex_run None tr = Some (mutex_of n (api w)) /\
  forall id, in_control w id -> exists t, mutex_of n (api w) = Some (id, t) /\ (clock w <= t)%Z.
Proof.
  intros Hi Hh. destruct (history_simulates n w0 tr w Hi Hh) as (Hinv & _ & Hrun).
  split; [done|]. intros id (p & u & Hp & Hu & Hk). destruct (Hinv id p Hp) as [Hok _].
  destruct (Hok u) as [Ho|]; [by destruct Hk as [->|(? & ? & ->)]| |lia].
  destruct (owns_mutex n _ _ _ Ho) as (t & Hm & Hle). exists t. split; [done|lia].
Qed.

(** ** KeepAlive *)

(** src/internal/server/lifecycle.go:26-26 userWorkspaceDeleteLockRenewInterval *)
Definition userWorkspaceDeleteLockRenewInterval : Z := 10 * sec.

(** The goroutine: at its select, with the time the tick that its ticker holds
    or will hold next fires; renewing for the tick of a time; or ended, its
    failure in the channel or its context cancelled. *)
Inductive keeper : Type :=
| KaSelect (due : Z)
| KaRenewing (tick due : Z)
| KaLost (e : lock_error)
| KaStopped.

#[global] Instance lock_error_eq_dec : EqDecision lock_error.
Proof. solve_decision. Defined.
#[global] Instance keeper_eq_dec : EqDecision keeper.
Proof. solve_decision. Defined.

(** What its select receives, and the answers of the API server. *)
Inductive keeper_event : Type :=
| KaCtxDone
| KaTick (get_fails : bool)
| KaAnswer (update_fails : bool).

(** The ticker's channel holds one tick: the ticks between the one received and
    now are dropped, the next one fires after now. *)
Definition next_tick (interval due now : Z) : Z := due + interval * ((now - due) / interval + 1).

Section keeper.
Context {T : Type} `{K : KubeStore T Lease}.
Variable leaseName holderID : string.
Variable interval : Z.

(** Where the goroutine is after a call of Renew: it returned an error, it
    succeeded, or it waits for the answer of the second call. *)
Definition renewed (tick due : Z) (r : pc * T) : keeper * pc * T :=
  match r with
  | (Lost until e, s) => (KaLost e, Lost until e, s)
  | (Holding until, s) => (KaSelect due, Holding until, s)
  | (p, s) => (KaRenewing tick due, p, s)
  end.

(** One step of the goroutine, which renews the lock of the process at [p].

    src/internal/workspace/lock.go:209-230 KeepAlive *)
Definition KeepAlive (ev : keeper_event) (now : Z) (k : keeper) (p : pc) (s : T) : option (keeper * pc * T) :=
  match k, ev with
  | KaSelect _, KaCtxDone => Some (KaStopped, p, s)
  | KaSelect due, KaTick get_fails =>
      if (due <=? now)%Z then
        renewed due (next_tick interval due now) <$>
          lock_step leaseName holderID (if get_fails then ApiError else AskRenew) now p s
      else None
  | KaRenewing tick due, KaAnswer update_fails =>
      renewed tick due <$>
        lock_step leaseName holderID (if update_fails then ApiError else Run) now p s
  | _, _ => None
  end.

(** When the goroutine has to have moved on if each tick is received, and its
    renewal done, within [slack] of its firing. *)
Definition deadline (slack : Z) (k : keeper) : option Z :=
  match k with KaSelect due => Some (due + slack)%Z | KaRenewing tick _ => Some (tick + slack)%Z | _ => None end.

Definition in_slack (slack t : Z) (k : keeper) : bool :=
  match deadline slack k with Some d => (t <=? d)%Z | None => true end.

(** The system of the processes and the goroutine of the process [holderID]:
    time passes while no renewal is late, another process steps, or the
    goroutine does, with no call of its own failing. *)
Inductive kept_step (slack : Z) : keeper * world T -> keeper * world T -> Prop :=
| kept_clock k w t :
    (clock w <= t)%Z -> in_slack slack t k = true ->
    kept_step slack (k, w) (k, mkWorld (api w) t (procs w))
| kept_process k w q p ev p' s' :
    q <> holderID -> procs w !! q = Some p ->
    lock_step leaseName q ev (clock w) p (api w) = Some (p', s') ->
    (forall until, p = Releasing until -> (clock w <= until)%Z) ->
    kept_step slack (k, w) (k, mkWorld s' (clock w) (<[q := p']> (procs w)))
| kept_keeper k w p ev k' p' s' :
    procs w !! holderID = Some p -> ev <> KaTick true -> ev <> KaAnswer true ->
    KeepAlive ev (clock w) k p (api w) = Some (k', p', s') ->
    kept_step slack (k, w) (k', mkWorld s' (clock w) (<[holderID := p']> (procs w))).
End keeper.

Section kept.
Context {T : Type} `{L : KubeLaws T Lease}.
Variable n id : string.
Variable interval slack : Z.
Hypothesis Hinterval : (0 < interval)%Z.
Hypothesis Hslack : (interval + slack <= term)%Z.
Implicit Types (w : world T).

Lemma next_tick_bounds due now :
  (due <= now)%Z -> (now < next_tick interval due now <= now + interval)%Z.
Proof.
  intros Hle. unfold next_tick. pose proof (Z.div_mod (now - due) interval).
  pose proof (Z.mod_pos_bound (now - due) interval Hinterval). nia.
Qed.

(** While a lease that [id] took is not over, no other process writes it. *)
Lemma others_leave_lease w q p ev p' s' u :
  lock_inv n w -> owns n id u (api w) -> (clock w <= u)%Z -> q <> id ->
  procs w !! q = Some p -> lock_step n q ev (clock w) p (api w) = Some (p', s') ->
  (forall until, p = Releasing until -> (clock w <= until)%Z) ->
  kget n s' = kget n (api w).
Proof.
  intros Hinv Ho Hu Hq Hp Hl Ht. pose proof (Hinv q p Hp) as Hok.
  destruct (lock_step_ok n q ev _ p _ p' s' Hok Hl) as [_ He].
  destruct He as [|s' Hg _|le v s' Hg _ [Ha|Hh]|uq s' -> Hg' _]; [done|exfalso..].
  - destruct Ho as (? & ? & ? & ? & ? & _). congruence.
  - pose proof (owns_not_available _ _ _ _ _ _ _ Ho Hg Ha). lia.
  - destruct Ho as (? & ? & ? & ? & ? & ? & _). congruence.
  - destruct Hok as [Hok _]. specialize (Ht uq eq_refl). destruct (Hok uq eq_refl) as [Hoq|]; [|lia].
    by apply Hq, (owns_unique _ _ _ _ _ _ Hoq Ho).
Qed.

(** What holds of the goroutine and of its process. *)
Definition kept_inv (k : keeper) w : Prop :=
  match k with
  | KaSelect due =>
      exists u, procs w !! id = Some (Holding u) /\ (due + slack <= u)%Z /\ (clock w <= due + slack)%Z
  | KaRenewing tick due =>
      exists u lease rv, procs w !! id = Some (Renewing u lease rv) /\ kget n (api w) = Some (lease, rv) /\
        (tick + slack <= u)%Z /\ (clock w <= tick + slack)%Z /\ (tick <= due <= clock w + interval)%Z
  | KaLost _ => False
  | KaStopped => True
  end.

Lemma kept_in_control k w : kept_inv k w -> k <> KaStopped -> in_control w id.
Proof.
  destruct k; cbn; [|..|done|done].
  - intros (u & Hp & ? & ?) _. exists (Holding u), u. split; [done|]. split; [lia|]. by left.
  - intros (u & l & rv & Hp & _ & ? & ? & _) _. exists (Renewing u l rv), u.
    split; [done|]. split; [lia|]. right. by exists l, rv.
Qed.

Lemma in_control_lease w : lock_inv n w -> in_control w id ->
  exists u, owns n id u (api w) /\ (clock w <= u)%Z.
Proof.
  intros Hinv (p & u & Hp & Hu & Hk). destruct (Hinv id p Hp) as [Hok _].
  exists u. split; [|done]. destruct (Hok u); [by destruct Hk as [->|(? & ? & ->)]|done|lia].
Qed.

(** A tick within its slack finds the lease to be [id]'s. *)
Lemma tick_kept w u due k' p' s' :
  lock_inv n w -> procs w !! id = Some (Holding u) -> (due + slack <= u)%Z -> (clock w <= due + slack)%Z ->
  KeepAlive n id interval (KaTick false) (clock w) (KaSelect due) (Holding u) (api w) = Some (k', p', s') ->
  kept_inv k' (mkWorld s' (clock w) (<[id := p']> (procs w))).
Proof.
  intros Hinv Hp Hd Hc. cbn. destruct (Z.leb_spec due (clock w)); [|done]. cbn. unfold renew_get.
  destruct (in_control_lease w Hinv) as (u' & (l & rv & r & d & Hg & Hh & _) & _).
  { exists (Holding u), u. split; [done|]. split; [lia|]. by left. }
  rewrite Hg. unfold held_by. rewrite bool_decide_true by done. intros [= <- <- <-]. cbn.
  exists u, l, rv. rewrite lookup_insert_eq. pose proof (next_tick_bounds due (clock w)). split_and!; try done; lia.
Qed.

(** A renewal that is answered within its slack succeeds: the lease is as read. *)
Lemma answer_kept w u lease rv tick due k' p' s' :
  store_ok n (api w) -> procs w !! id = Some (Renewing u lease rv) -> kget n (api w) = Some (lease, rv) ->
  (clock w <= tick + slack)%Z -> (tick <= due <= clock w + interval)%Z ->
  KeepAlive n id interval (KaAnswer false) (clock w) (KaRenewing tick due) (Renewing u lease rv) (api w)
    = Some (k', p', s') ->
  kept_inv k' (mkWorld s' (clock w) (<[id := p']> (procs w))).
Proof.
  intros Hok Hp Hg Hc Hd. cbn. unfold renew_update. destruct (Hok _ _ Hg) as (_ & _ & Hdur).
  pose proof (kupdate_spec n (renewed_lease lease (clock w)) (Some rv) (api w)) as Hs.
  destruct (kupdate n _ _ _) as [s1| |].
  - intros [= <- <- <-]. cbn. exists (expiry lease (clock w)). unfold expiry. rewrite Hdur, lookup_insert_eq.
    unfold term in Hslack. split_and!; [done|lia..].
  - congruence.
  - destruct Hs as (b & v & Hb & Hv). rewrite Hg in Hb. injection Hb as <- <-. cbn in Hv.
    by rewrite Z.eqb_refl in Hv.
Qed.

(** What the system keeps: the lock's invariant, the leases and the above. *)
Definition kept_ok (kw : keeper * world T) : Prop :=
  lock_inv n kw.2 /\ store_ok n (api kw.2) /\ kept_inv kw.1 kw.2.

Lemma process_ok w q p ev p' s' :
  lock_inv n w -> store_ok n (api w) -> procs w !! q = Some p ->
  lock_step n q ev (clock w) p (api w) = Some (p', s') ->
  (forall until, p = Releasing until -> (clock w <= until)%Z) ->
  lock_inv n (mkWorld s' (clock w) (<[q := p']> (procs w))) /\ store_ok n s'.
Proof.
  intros Hinv Hok Hp Hl Ht. split.
  - eapply timely_step_inv; [|exact Hinv]. by eapply timely_process.
  - by destruct (lock_step_simulates n q ev (clock w) p _ p' s' Hok (Hinv q p Hp) Ht Hl).
Qed.

Lemma others_kept k w q p ev p' s' :
  kept_ok (k, w) -> q <> id -> procs w !! q = Some p ->
  lock_step n q ev (clock w) p (api w) = Some (p', s') ->
  (forall until, p = Releasing until -> (clock w <= until)%Z) ->
  kept_inv k (mkWorld s' (clock w) (<[q := p']> (procs w))).
Proof.
  intros (Hinv & Hok & Hk) Hq Hp Hl Ht.
  destruct (decide (k = KaStopped)) as [->|Hne]; [done|].
  destruct (in_control_lease w Hinv (kept_in_control k w Hk Hne)) as (u & Ho & Hu).
  pose proof (others_leave_lease w q p ev p' s' u Hinv Ho Hu Hq Hp Hl Ht) as Hsame.
  destruct k; cbn in *; try done; rewrite lookup_insert_ne by done; [done|]. by rewrite Hsame.
Qed.

(** The goroutine's steps are steps of its process, none of them a release. *)
Lemma KeepAlive_lock_step ev now k p s k' p' s' :
  KeepAlive n id interval ev now k p s = Some (k', p', s') ->
  (p', s') = (p, s) /\ k' = KaStopped /\ ev = KaCtxDone \/
  exists ev', lock_step n id ev' now p s = Some (p', s') /\ (ev' = AskRenew \/ ev' = ApiError \/ ev' = Run).
Proof.
  assert (Hr : forall tick due o, renewed tick due <$> o = Some (k', p', s') -> o = Some (p', s')).
  { intros tick due [[q t]|]; [|done]. cbn. destruct q; intros [= <- <- <-]; done. }
  destruct k, ev as [|[]|[]]; cbn -[lock_step]; try done; [by intros [= <- <- <-]; left|..]; try case_match;
    intros E; try done; apply Hr in E; right; eauto.
Qed.

Lemma kept_step_ok kw kw' : kept_step n id interval slack kw kw' -> kept_ok kw -> kept_ok kw'.
Proof.
  intros [k w t Hle Hs|k w q p ev p' s' Hq Hp Hl Ht|k w p ev k' p' s' Hp Ht1 Ht2 Hk] Hall;
    pose proof Hall as (Hinv & Hok & Hkept); cbn in Hinv, Hok, Hkept.
  - split_and!; [|done|].
    + eapply timely_step_inv; [|exact Hinv]. split; [by constructor|]. cbn. naive_solver.
    + unfold in_slack in Hs. destruct k; cbn in *; try done; apply Z.leb_le in Hs; naive_solver lia.
  - destruct (process_ok w q p ev p' s' Hinv Hok Hp Hl Ht). split_and!; [done..|]. by eapply others_kept.
  - cbn. destruct k as [due|tick due| |]; [|..|done|done].
    + destruct Hkept as (u & Hu & ? & ?). rewrite Hp in Hu. injection Hu as ->.
      destruct (KeepAlive_lock_step _ _ _ _ _ _ _ _ Hk) as [([= -> ->] & -> & _)|(ev' & Hl & _)].
      * rewrite insert_id by done. by destruct w.
      * destruct (process_ok w id _ ev' p' s' Hinv Hok Hp Hl) as [Hi' Ho']; [done|].
        split_and!; [done..|].
        destruct ev as [|[]|]; try done; [by injection Hk as <- _ _|by eapply tick_kept].
    + destruct Hkept as (u & l & rv & Hu & ? & ? & ? & ?). rewrite Hp in Hu. injection Hu as ->.
      destruct (KeepAlive_lock_step _ _ _ _ _ _ _ _ Hk) as [(_ & _ & ->)|(ev' & Hl & _)]; [done|].
      destruct (process_ok w id _ ev' p' s' Hinv Hok Hp Hl) as [Hi' Ho']; [done|].
      split_and!; [done..|]. destruct ev as [| |[]]; try done. by eapply answer_kept.
Qed.

Lemma kept_steps_ok kw kw' : rtc (kept_step n id interval slack) kw kw' -> kept_ok kw -> kept_ok kw'.
Proof.
  intros Hr. induction Hr as [x|x y z Hxy _ IH]; [done|]. intros Hx. by eapply IH, kept_step_ok.
Qed.
End kept.

(** C10. A lock that KeepAlive renews is kept. It starts from a process that holds the
    lock with a lease that lasts until the first tick's renewal is due; as long as
    each tick is received and its renewal answered, without a failure of the API
    server, within the slack that the lease's term leaves beside the interval, and
    as long as the other processes' own releases delete before their leases expire,
    no renewal finds the lock lost, whatever else the other processes do (acquire,
    renew, release, fail), and the process is in control at every moment until its
    goroutine is stopped. *)
Theorem KeepAlive_keeps {T} `{KubeLaws T Lease} n id interval slack (w0 w w' : world T) tr due until k :
  (0 < interval)%Z -> (interval + slack <= term)%Z ->
  initial n w0 -> history n w0 tr w -> procs w !! id = Some (Holding until) ->
  (clock w <= due + slack <= until)%Z ->
  rtc (kept_step n id interval slack) (KaSelect due, w) (k, w') ->
  (forall e, k <> KaLost e) /\ (k <> KaStopped -> in_control w' id).
Proof.
  intros Hi Hs Hw Hh Hp Hd Hr. destruct (history_simulates n w0 tr w Hw Hh) as (Hinv & Hok & _).
  assert (Hk : kept_ok n id interval slack (k, w')).
  { eapply kept_steps_ok; [done..|]. split_and!; [done..|]. exists until. naive_solver lia. }
  destruct Hk as (_ & _ & Hk). split; [by intros e ->|]. intros Hne. by eapply kept_in_control.
Qed.

(** ** Samples *)

Module MutexSample.
(** A history along a schedule, with what it does to the mutex. *)
Fixpoint observe {T} `{KubeStore T Lease} (n : string) (w : world T)
    (sched : list (Z * string * lock_event)) : option (list (Z * mutex_op) * world T) :=
  match sched with
  | [] => Some ([], w)
  | (t, id, ev) :: sched =>
      p ← procs w !! id;
      r ← lock_step n id ev t p (api w);
      if bool_decide (clock w <= t)%Z && in_time t p
      then o ← observe n (mkWorld r.2 t (<[id := r.1]> (procs w))) sched;
           Some (map (pair t) (observed id p r.1) ++ o.1, o.2)
      else None
  end.
(** a acquires, renews, b fails to take over, a releases, b acquires. *)
Definition schedule : list (Z * string * lock_event) :=
  [LockSample.at_ 0 "a" Run; LockSample.at_ 0 "a" Run; LockSample.at_ 10 "a" AskRenew;
   LockSample.at_ 10 "a" Run; LockSample.at_ 35 "b" Run; LockSample.at_ 36 "a" AskRelease;
   LockSample.at_ 37 "a" Run; LockSample.at_ 38 "b" Run; LockSample.at_ 38 "b" Run; LockSample.at_ 38 "b" Run].
(** a acquires; b waits for it. *)
Definition acquired : list (Z * string * lock_event) :=
  [LockSample.at_ 0 "a" Run; LockSample.at_ 0 "a" Run; LockSample.at_ 1 "b" Run].
End MutexSample.

Lemma observe_history {T} `{K : KubeStore T Lease} n w0 sched : forall tr0 (w : world T) tr w',
  history n w0 tr0 w -> MutexSample.observe n w sched = Some (tr, w') -> history n w0 (tr0 ++ tr) w'.
Proof.
  induction sched as [|[[t id] ev] sched IH]; intros tr0 w tr w' Hh; cbn [MutexSample.observe].
  { intros [= <- <-]. by rewrite app_nil_r. }
  destruct (procs w !! id) as [p|] eqn:Hp; [|done]. cbn.
  destruct (lock_step n id ev t p (api w)) as [[p' s']|] eqn:Hl; [|done]. cbn.
  case_bool_decide as Ht; [|done]. cbn. destruct (in_time t p) eqn:Hin; [|done].
  destruct (MutexSample.observe n _ sched) as [[tr1 w1]|] eqn:Ho; [|done]. intros [= <- <-]. cbn.
  rewrite app_assoc. eapply IH; [|exact Ho].
  apply (history_process n w0 tr0 (mkWorld (api w) t (procs w)) id p ev p' s'); [by constructor|done|done|].
  intros u ->. by apply bool_decide_eq_true in Hin.
Qed.

Lemma lock_refines_mutex_witness :
  exists w, initial "l" LockSample.start /\
    history "l" LockSample.start
      [(0, Grant "a"); (10 * sec, Extend "a"); (37 * sec, Free "a"); (38 * sec, Grant "b")]%Z w /\
    mutex_of "l" (api w) = Some ("b", 68 * sec)%Z /\
    mutex_run None [(0, Grant "a"); (10 * sec, Extend "a"); (37 * sec, Free "a"); (38 * sec, Grant "b")]%Z
      = Some (mutex_of "l" (api w)).
Proof.
  assert (Hc : (fun o => match o with Some (tr, w) => Some (tr, mutex_of "l" (api w)) | None => None end)
                 (MutexSample.observe "l" LockSample.start MutexSample.schedule) =
               Some ([(0, Grant "a"); (10 * sec, Extend "a"); (37 * sec, Free "a"); (38 * sec, Grant "b")]%Z,
                     Some ("b", 68 * sec)%Z)) by (vm_compute; reflexivity).
  destruct (MutexSample.observe "l" LockSample.start MutexSample.schedule) as [[tr w]|] eqn:E; [|discriminate Hc].
  injection Hc as -> Hm. exists w.
  assert (Hh : history "l" LockSample.start
      [(0, Grant "a"); (10 * sec, Extend "a"); (37 * sec, Free "a"); (38 * sec, Grant "b")]%Z w)
    by exact (observe_history "l" LockSample.start MutexSample.schedule [] _ _ _ (history_start _ _) E).
  split; [exact lock_sample_initial|]. split; [exact Hh|]. split; [exact Hm|].
  exact (proj1 (lock_refines_mutex "l" LockSample.start _ w lock_sample_initial Hh)).
Defined.

(** A schedule of the system with the goroutine. *)
Fixpoint keep_run {T} `{KubeStore T Lease} (n id : string) (interval slack : Z) (kw : keeper * world T)
    (sched : list (Z * (keeper_event + string * lock_event))) : option (keeper * world T) :=
  match sched with
  | [] => Some kw
  | (t, act) :: sched =>
      let w := mkWorld (api kw.2) t (procs kw.2) in
      if bool_decide (clock kw.2 <= t)%Z && in_slack slack t kw.1 then
        match act with
        | inl ev =>
            if match ev with KaTick b | KaAnswer b => b | KaCtxDone => false end then None else
            p ← procs w !! id;
            r ← KeepAlive n id interval ev t kw.1 p (api w);
            keep_run n id interval slack (r.1.1, mkWorld r.2 t (<[id := r.1.2]> (procs w))) sched
        | inr (q, ev) =>
            p ← procs w !! q;
            r ← lock_step n q ev t p (api w);
            if bool_decide (q = id) || negb (in_time t p) then None else
            keep_run n id interval slack (kw.1, mkWorld r.2 t (<[q := r.1]> (procs w))) sched
        end
      else None
  end.

Lemma keep_run_steps {T} `{K : KubeStore T Lease} n id interval slack sched : forall (kw kw' : keeper * world T),
  keep_run n id interval slack kw sched = Some kw' -> rtc (kept_step n id interval slack) kw kw'.
Proof.
  induction sched as [|[t act] sched IH]; intros [k w] kw'; cbn [keep_run fst snd].
  { by intros [= ->]. }
  case_bool_decide as Ht; [|done]. destruct (in_slack slack t k) eqn:Hs; [|done]. cbn [andb].
  intros Hrun. eapply rtc_l; [by apply (kept_clock n id interval slack k w t)|]. revert Hrun.
  destruct act as [ev|[q ev]].
  - destruct (match ev with KaTick b | KaAnswer b => b | KaCtxDone => false end) eqn:Hev; [done|].
    cbn [api procs]. destruct (procs w !! id) as [p|] eqn:Hp; [|done]. cbn [mbind option_bind].
    destruct (KeepAlive n id interval ev t k p (api w)) as [[[k1 p1] s1]|] eqn:Hk; [|done].
    cbn. intros Hrun. eapply rtc_l; [|by apply IH].
    apply (kept_keeper n id interval slack k (mkWorld (api w) t (procs w)) p ev k1 p1 s1); try done; by intros ->.
  - cbn [api procs]. destruct (procs w !! q) as [p|] eqn:Hp; [|done]. cbn [mbind option_bind].
    destruct (lock_step n q ev t p (api w)) as [[p1 s1]|] eqn:Hl; [|done]. cbn [mbind option_bind fst snd].
    case_bool_decide as Hq; [done|]. cbn [orb]. destruct (in_time t p) eqn:Hin; [|done]. cbn [negb].
    intros Hrun. eapply rtc_l; [|by apply IH].
    apply (kept_process n id interval slack k (mkWorld (api w) t (procs w)) q p ev p1 s1); try done.
    intros u ->. by apply bool_decide_eq_true in Hin.
Qed.

Module KeepSample.
Definition interval : Z := userWorkspaceDeleteLockRenewInterval.
(** The first tick fires at 10 s and is received at 12 s; c tries to acquire,
    the renewal is answered, b tries; the next tick fires at 20 s. *)
Definition schedule : list (Z * (keeper_event + string * lock_event)) :=
  [((12 * sec)%Z, inl (KaTick false)); ((13 * sec)%Z, inr ("c", Run)); ((14 * sec)%Z, inl (KaAnswer false));
   ((20 * sec)%Z, inr ("b", Run)); ((20 * sec)%Z, inr ("b", Run)); ((39 * sec)%Z, inl (KaTick false))].
End KeepSample.

Lemma KeepAlive_keeps_witness :
  exists (w w' : world LockSample.api_store) tr,
    history "l" LockSample.start tr w /\ procs w !! "a" = Some (Holding (30 * sec)) /\
    rtc (kept_step "l" "a" KeepSample.interval (20 * sec))
      (KaSelect (10 * sec), w) (KaRenewing (20 * sec) (40 * sec), w') /\
    clock w' = (39 * sec)%Z /\ in_control w' "a".
Proof.
  assert (Hc : match MutexSample.observe "l" LockSample.start MutexSample.acquired with
               | Some (_, w) =>
                   match keep_run "l" "a" KeepSample.interval (20 * sec) (KaSelect (10 * sec), w) KeepSample.schedule with
                   | Some kw => Some (clock w, procs w !! "a", kw.1, clock kw.2)
                   | None => None
                   end
               | None => None
               end = Some (1 * sec, Some (Holding (30 * sec)), KaRenewing (20 * sec) (40 * sec), 39 * sec)%Z)
    by (vm_compute; reflexivity).
  destruct (MutexSample.observe "l" LockSample.start MutexSample.acquired) as [[tr w]|] eqn:E; [|discriminate Hc].
  destruct (keep_run "l" "a" KeepSample.interval (20 * sec) (KaSelect (10 * sec), w) KeepSample.schedule)
    as [[k w']|] eqn:Ek; [|discriminate Hc].
  injection Hc as Hclock Hp Hk Hclock'. cbn in Hk, Hclock'. subst k. exists w, w', tr.
  assert (Hh : history "l" LockSample.start tr w)
    by exact (observe_history "l" LockSample.start MutexSample.acquired [] _ _ _ (history_start _ _) E).
  assert (Hr : rtc (kept_step "l" "a" KeepSample.interval (20 * sec)) (KaSelect (10 * sec), w)
                 (KaRenewing (20 * sec) (40 * sec), w')) by exact (keep_run_steps _ _ _ _ _ _ _ Ek).
  split; [exact Hh|]. split; [exact Hp|]. split; [exact Hr|]. split; [exact Hclock'|].
  refine (proj2 (KeepAlive_keeps "l" "a" KeepSample.interval (20 * sec) LockSample.start w w' tr
                   (10 * sec) (30 * sec) (KaRenewing (20 * sec) (40 * sec))
                   _ _ lock_sample_initial Hh Hp _ Hr) _).
  - reflexivity.
  - unfold KeepSample.interval, userWorkspaceDeleteLockRenewInterval, term, sec. lia.
  - rewrite Hclock. unfold sec. lia.
  - discriminate.
Defined.
