(* ===== verification/Alias.v ===== *)
(** * Web-proxy alias claims

    internal/workspace/alias.go: a ConfigMap per (organization, alias), whose
    atomic creation makes the alias unique. A claim is taken, taken over when it
    is stale, and released, by processes that make one API call per step and
    interleave. Times are nanoseconds. *)

From S2P Require Import Prelude GoStrings Sha256 Kube.

Definition second : Z := 1000000000.

(** What the code writes and reads of a claim ConfigMap: labels and data.
    [dataClaimedAt] is the parsed time, [None] when it does not parse. *)
Record AliasClaim : Type := mkClaim {
  labelWebProxyAlias : string;
  labelOrganization : string;
  labelCanonicalId : string;
  dataOrganization : string;
  dataAlias : string;
  dataWorkspace : string;
  dataClaimedAt : option Z;
}.

Inductive alias_error : Type :=
| AliasHeld (alias holder : string)
| CreateClaimFailed
| GetClaimFailed
| CheckHolderFailed (holder : string)
| TakeOverFailed
| TooManyClaimers (alias : string)
| AliasNotALabel (alias : string)
| ErrNoWebProxyRoute (alias pod : string).

(** src/internal/workspace/alias.go:34-50 const *)
Definition aliasClaimPrefix : string := "web-proxy-alias-".
Definition staleAliasClaimGrace : Z := 5 * 60 * second.
Definition aliasClaimAttempts : nat := 3.

(** src/internal/workspace/alias.go:92-98 aliasClaimName *)
Definition aliasClaimName (org alias : string) : string :=
  aliasClaimPrefix +:+ hex_encode (take 16 (sha256 (msg_of (org +:+ "/" +:+ alias)))).

(** RFC 3339 keeps whole seconds.

    src/internal/workspace/alias.go:100-120 newClaim *)
Definition newClaim (org alias workspace canonicalID : string) (now : Z) : AliasClaim :=
  {| labelWebProxyAlias := alias; labelOrganization := org; labelCanonicalId := canonicalID;
     dataOrganization := org; dataAlias := alias; dataWorkspace := workspace;
     dataClaimedAt := Some (now / second * second)%Z |}.

(** The first half of isStale: the claim is within its grace period.

    src/internal/workspace/alias.go:175-179 isStale *)
Definition in_grace (claim : AliasClaim) (now : Z) : bool :=
  match dataClaimedAt claim with
  | Some at_ => bool_decide (now - at_ < staleAliasClaimGrace)%Z
  | None => false
  end.

(** The second half, with the answer about the holder's Helm release.

    src/internal/workspace/alias.go:180-188 isStale *)
Definition holder_gone (claim : AliasClaim) (holderExists : string -> bool) : bool :=
  if String.eqb (dataWorkspace claim) "" then true else negb (holderExists (dataWorkspace claim)).

(** [holder]: the workspace a claim names, unless its key belongs to another
    (organization, alias) with the same hash.

    src/internal/workspace/alias.go:218-233 holder *)
Definition holder {T} `{KubeStore T AliasClaim} (org alias : string) (s : T) : option string :=
  match kget (aliasClaimName org alias) s with
  | None => None
  | Some (cm, _) =>
      if String.eqb (dataOrganization cm) org && String.eqb (dataAlias cm) alias
      then if String.eqb (dataWorkspace cm) "" then None else Some (dataWorkspace cm)
      else None
  end.

(** ** Taking a claim *)

(** Who claims what. *)
Record claimer : Type := mkClaimer {
  c_org : string;
  c_alias : string;
  c_workspace : string;
  c_canonicalID : string;
}.

Definition c_name (c : claimer) : string := aliasClaimName (c_org c) (c_alias c).
Definition c_claim (c : claimer) (now : Z) : AliasClaim :=
  newClaim (c_org c) (c_alias c) (c_workspace c) (c_canonicalID c) now.

(** Where a run of [claim] is; [more] counts the attempts after the current one. *)
Inductive claim_pc : Type :=
| Creating (more : nat)
| Getting (more : nat)
| Judging (more : nat) (existing : AliasClaim) (rv : Z)
| Probing (more : nat) (existing : AliasClaim) (rv : Z)
| TakingOver (more : nat) (rv : Z)
| Claimed (name : string)
| ClaimFailed (e : alias_error).

(** A call goes through, or fails with an error the code does not expect. *)
Inductive alias_event : Type := Call | CallFails.

Section claim.
Context {T : Type} `{K : KubeStore T AliasClaim}.

(** The end of an attempt without the claim.

    src/internal/workspace/alias.go:169-171 claim *)
Definition next_attempt (c : claimer) (more : nat) : claim_pc :=
  match more with
  | O => ClaimFailed (TooManyClaimers (c_alias c))
  | S more => Creating more
  end.

(** src/internal/workspace/alias.go:129-150 claim *)
Definition claim_create (c : claimer) (more : nat) (now : Z) (s : T) : claim_pc * T :=
  match kcreate (c_name c) (c_claim c now) s with
  | Some s' => (Claimed (c_name c), s')
  | None => (Getting more, s)
  end.

(** src/internal/workspace/alias.go:138-149 claim *)
Definition claim_get (c : claimer) (more : nat) (s : T) : claim_pc :=
  match kget (c_name c) s with
  | None => next_attempt c more
  | Some (existing, rv) =>
      if String.eqb (dataWorkspace existing) (c_workspace c) then Claimed (c_name c)
      else Judging more existing rv
  end.

Definition held_by_another (c : claimer) (existing : AliasClaim) : claim_pc :=
  ClaimFailed (AliasHeld (c_alias c) (dataWorkspace existing)).

(** src/internal/workspace/alias.go:150-168 claim *)
Definition claim_takeover (c : claimer) (more : nat) (rv now : Z) (s : T) : claim_pc * T :=
  match kupdate (c_name c) (c_claim c now) (Some rv) s with
  | KOk s' => (Claimed (c_name c), s')
  | KNotFound | KConflict => (next_attempt c more, s)
  end.

(** One step of [claim]; [None] once it has returned.

    src/internal/workspace/alias.go:122-189 claim *)
Definition claim_step (c : claimer) (ev : alias_event) (now : Z) (holderExists : string -> bool)
    (p : claim_pc) (s : T) : option (claim_pc * T) :=
  match p, ev with
  | Creating more, Call => Some (claim_create c more now s)
  | Creating _, CallFails => Some (ClaimFailed CreateClaimFailed, s)
  | Getting more, Call => Some (claim_get c more s, s)
  | Getting _, CallFails => Some (ClaimFailed GetClaimFailed, s)
  | Judging more existing rv, Call =>
      Some (if in_grace existing now then held_by_another c existing else Probing more existing rv, s)
  | Probing more existing rv, Call =>
      Some (if holder_gone existing holderExists then TakingOver more rv
            else held_by_another c existing, s)
  | Probing _ existing _, CallFails =>
      if String.eqb (dataWorkspace existing) "" then None
      else Some (ClaimFailed (CheckHolderFailed (dataWorkspace existing)), s)
  | TakingOver more rv, Call => Some (claim_takeover c more rv now s)
  | TakingOver _ _, CallFails => Some (ClaimFailed TakeOverFailed, s)
  | _, _ => None
  end.
End claim.

(** ** Reconciling: claim the desired alias, release the others *)

Inductive alias_message : Type :=
| NoMessage
| InvalidAlias (alias : string)
| HeldBy (alias holder : string).

Inductive reconcile_pc : Type :=
| RClaiming (p : claim_pc)
| RListing (applied : string) (message : alias_message) (keep : string)
| RDeleting (applied : string) (message : alias_message) (items : list (string * Z))
| RDone (applied : string) (message : alias_message)
| RFailed (e : alias_error).

(** What follows when [claim] has returned.

    src/internal/workspace/alias.go:278-289 reconcile *)
Definition after_claim (c : claimer) (p : claim_pc) : reconcile_pc :=
  match p with
  | Claimed name => RListing (c_alias c) NoMessage name
  | ClaimFailed (AliasHeld alias holder) => RListing "" (HeldBy alias holder) ""
  | ClaimFailed e => RFailed e
  | p => RClaiming p
  end.

(** Whether there is an alias to claim; [IsWebProxyAlias] is the validator of
    the common module.

    src/internal/workspace/alias.go:272-279 reconcile *)
Definition reconcile_start (IsWebProxyAlias : string -> bool) (c : claimer) : reconcile_pc :=
  if String.eqb (c_alias c) "" then RListing "" NoMessage ""
  else if negb (IsWebProxyAlias (c_alias c)) then RListing "" (InvalidAlias (c_alias c)) ""
  else RClaiming (Creating (pred aliasClaimAttempts)).

Section reconcile.
Context {T : Type} `{K : KubeStore T AliasClaim}.

(** The claims to release, with the versions listed.

    src/internal/workspace/alias.go:193-209 release *)
Definition releasable (canonicalID keep : string) (s : T) : list (string * Z) :=
  omap (fun '(name, (cm, rv)) =>
    if String.eqb (labelCanonicalId cm) canonicalID && negb (String.eqb name keep)
    then Some (name, rv) else None) (klist s).

(** An error of one deletion is only logged by reconcile.

    src/internal/workspace/alias.go:207-215 release *)
Definition release_one (name : string) (rv : Z) (s : T) : T :=
  match kdelete name (Some rv) s with KOk s' => s' | _ => s end.

(** One step of [reconcile]; [None] once it has returned.

    src/internal/workspace/alias.go:267-295 reconcile *)
Definition reconcile_step (c : claimer) (ev : alias_event) (now : Z) (holderExists : string -> bool)
    (p : reconcile_pc) (s : T) : option (reconcile_pc * T) :=
  match p, ev with
  | RClaiming p, ev =>
      '(p', s') ← claim_step c ev now holderExists p s;
      Some (after_claim c p', s')
  | RListing applied message keep, Call =>
      Some (RDeleting applied message (releasable (c_canonicalID c) keep s), s)
  | RListing applied message keep, CallFails => Some (RDone applied message, s)
  | RDeleting applied message [], Call => Some (RDone applied message, s)
  | RDeleting applied message ((name, rv) :: items), Call =>
      Some (RDeleting applied message items, release_one name rv s)
  | RDeleting applied message (_ :: items), CallFails => Some (RDeleting applied message items, s)
  | _, _ => None
  end.
End reconcile.

(** ** Other users of claims *)

(** What [claimForUpdate] decides before it claims: nothing to claim, an error,
    or the claimer. [pod_port] is the pod's web-proxy port annotation.

    src/internal/workspace/alias.go:297-318 claimForUpdate *)
Definition claimForUpdate (IsWebProxyAlias : string -> bool) (pod_name pod_org pod_port : string)
    (WebProxyAlias : string) (ReplaceWebProxy : bool) (WebProxyPort : Z) (canonicalID : string)
    : result alias_error (option claimer) :=
  if String.eqb WebProxyAlias "" then Ok None
  else if negb (IsWebProxyAlias WebProxyAlias) then Err (AliasNotALabel WebProxyAlias)
  else
    let hasRoute := if ReplaceWebProxy then bool_decide (0 < WebProxyPort)%Z
                    else negb (String.eqb pod_port "") in
    if hasRoute then Ok (Some (mkClaimer pod_org WebProxyAlias pod_name canonicalID))
    else Err (ErrNoWebProxyRoute WebProxyAlias pod_name).

(** src/internal/workspace/alias.go:258-265 blueprintWebProxyAlias *)
Definition blueprintWebProxyAlias (web_proxy_alias : option string) : string :=
  match web_proxy_alias with None => "" | Some alias => trim_space alias end.

(** The labels and annotations a recovered pod manifest gets.

    src/internal/workspace/alias.go:347-365 applyWebProxyAliasToPod *)
Definition applyWebProxyAliasToPod (labels annotations : gmap string string) (alias message : string)
    : gmap string string * gmap string string :=
  (if String.eqb alias "" then delete "k8shell.io/web-proxy-alias" labels
   else <["k8shell.io/web-proxy-alias" := alias]> labels,
   if String.eqb message "" then annotations
   else <["k8shell.io/web-proxy-alias-message" := message]> annotations).

(** ** The system *)

(** The processes that reconcile aliases, and the workspaces that have a Helm
    release. *)
Record world (T : Type) : Type := mkWorld {
  api : T;
  clock : Z;
  releases : gset string;
  procs : gmap nat (claimer * reconcile_pc);
}.
Arguments mkWorld {_} _ _ _ _.
Arguments api {_} _.
Arguments clock {_} _.
Arguments releases {_} _.
Arguments procs {_} _.

Definition has_release {T} (w : world T) (workspace : string) : bool :=
  bool_decide (workspace ∈ releases w).

Section system.
Context {T : Type} `{K : KubeStore T AliasClaim}.

(** The world after a step of the process [pid]. *)
Definition proc_step (w : world T) (pid : nat) (ev : alias_event) : option (world T) :=
  '(c, p) ← procs w !! pid;
  '(p', s') ← reconcile_step c ev (clock w) (has_release w) p (api w);
  Some (mkWorld s' (clock w) (releases w) (<[pid := (c, p')]> (procs w))).

(** Time passes, releases come and go, or a process steps. *)
Inductive alias_step : world T -> world T -> Prop :=
| step_env w t rs :
    (clock w <= t)%Z -> alias_step w (mkWorld (api w) t rs (procs w))
| step_proc w pid ev w' : proc_step w pid ev = Some w' -> alias_step w w'.

(** Every process is about to start; whatever claims there are. *)
Definition initial (IsWebProxyAlias : string -> bool) (w : world T) : Prop :=
  forall pid c p, procs w !! pid = Some (c, p) -> p = reconcile_start IsWebProxyAlias c.

(** The claim of the alias is [c]'s. *)
Definition holds (c : claimer) (w : world T) : Prop :=
  exists cl v, kget (c_name c) (api w) = Some (cl, v) /\ dataWorkspace cl = c_workspace c /\
    labelCanonicalId cl = c_canonicalID c.

(** The process [pid], which is [c]'s, writes its claim in this step. *)
Definition writes_claim (pid : nat) (c : claimer) (w w' : world T) : Prop :=
  exists p ev, procs w !! pid = Some (c, RClaiming p) /\
    (exists more, p = Creating more \/ exists rv, p = TakingOver more rv) /\
    proc_step w pid ev = Some w' /\
    procs w' !! pid = Some (c, RListing (c_alias c) NoMessage (c_name c)).

(** [c]'s workspace is alive: it has a release, or its claim is in grace. *)
Definition alive (c : claimer) (w : world T) : Prop :=
  c_workspace c ∈ releases w \/
  exists cl v, kget (c_name c) (api w) = Some (cl, v) /\ in_grace cl (clock w) = true.

(** A step while [c]'s workspace is alive and of a process that is not of the
    same workspace. *)
Inductive foreign_step (c : claimer) : world T -> world T -> Prop :=
| foreign_env w t rs :
    (clock w <= t)%Z -> alive c w -> foreign_step c w (mkWorld (api w) t rs (procs w))
| foreign_proc w pid d p ev w' :
    procs w !! pid = Some (d, p) -> c_canonicalID d <> c_canonicalID c -> alive c w ->
    proc_step w pid ev = Some w' -> foreign_step c w w'.
End system.

(** ** The invariant *)
Section invariant.
Context {T : Type} `{L : KubeLaws T AliasClaim}.
Implicit Types (s : T) (c d : claimer) (cl : AliasClaim).

(** What holds of a process that claims: what it is about to overwrite is what
    it has judged. *)
Definition claim_ok (c : claimer) (p : claim_pc) (s : T) (now : Z) : Prop :=
  match p with
  | Judging _ existing rv => read_at (c_name c) existing rv s
  | Probing _ existing rv => read_at (c_name c) existing rv s /\ in_grace existing now = false
  | TakingOver _ rv => (rv <= krev s)%Z
  | Claimed name => name = c_name c
  | _ => True
  end.

(** What holds of an item to release: a claim of the workspace. *)
Definition item_ok (c : claimer) (s : T) (item : string * Z) : Prop :=
  (item.2 <= krev s)%Z /\
  forall cl, kget item.1 s = Some (cl, item.2) -> labelCanonicalId cl = c_canonicalID c.

Definition reconcile_ok (c : claimer) (p : reconcile_pc) (s : T) (now : Z) : Prop :=
  match p with
  | RClaiming p => claim_ok c p s now
  | RDeleting _ _ items => Forall (item_ok c s) items
  | _ => True
  end.

Definition world_inv (w : world T) : Prop :=
  forall pid c p, procs w !! pid = Some (c, p) -> reconcile_ok c p (api w) (clock w).

Lemma in_grace_mono cl t1 t2 : (t1 <= t2)%Z -> in_grace cl t1 = false -> in_grace cl t2 = false.
Proof.
  intros Ht. unfold in_grace. destruct (dataClaimedAt cl); [|done].
  rewrite !bool_decide_eq_false. lia.
Qed.

Lemma item_ok_newer c s s' item : newer s s' -> item_ok c s item -> item_ok c s' item.
Proof.
  intros [Hle Hn] [Hv Hi]. split; [lia|]. intros cl [Hcl|Hlt]%Hn; [by apply Hi|lia].
Qed.

Lemma reconcile_ok_newer c p s s' t t' :
  newer s s' -> (t <= t')%Z -> reconcile_ok c p s t -> reconcile_ok c p s' t'.
Proof.
  intros Hn Ht. destruct p as [p| |? ? items| |]; cbn; [|done| |done|done].
  - destruct p; cbn; try done; [by apply read_at_newer| |destruct Hn; lia].
    intros [Hr Hg]. split; [by eapply read_at_newer|by eapply in_grace_mono].
  - intros Hi. eapply Forall_impl; [exact Hi|]. intros. by eapply item_ok_newer.
Qed.

Lemma releasable_ok c keep s : Forall (item_ok c s) (releasable (c_canonicalID c) keep s).
Proof.
  apply Forall_forall. intros [name rv]. unfold releasable. rewrite list_elem_of_omap.
  intros ([n [cl v]] & Hin & Heq). apply klist_spec in Hin.
  destruct (String.eqb (labelCanonicalId cl) (c_canonicalID c)) eqn:E; [|done].
  apply String.eqb_eq in E. destruct (negb _); [|done]. injection Heq as <- <-.
  split; [by eapply kget_rev|]. cbn. intros cl' Hg. congruence.
Qed.

Lemma next_attempt_ok c more s now : claim_ok c (next_attempt c more) s now.
Proof. by destruct more. Qed.

Lemma after_claim_ok c p s now : claim_ok c p s now -> reconcile_ok c (after_claim c p) s now.
Proof. by destruct p as [| | | | | |[]]. Qed.

(** A step keeps the process's own condition and makes the claims newer. *)
Lemma claim_step_ok c ev now he p s p' s' :
  claim_ok c p s now -> claim_step c ev now he p s = Some (p', s') ->
  claim_ok c p' s' now /\ newer s s'.
Proof.
  intros Hp. pose proof (newer_refl s) as Hrefl. destruct p; destruct ev; cbn; try done.
  - unfold claim_create. destruct (kcreate _ _ s) eqn:E; intros [= <- <-]; [|done].
    by apply kcreate_newer in E.
  - intros [= <- <-]. split; [done|done].
  - unfold claim_get. destruct (kget _ s) as [[existing rv]|] eqn:E; intros [= <- <-].
    + destruct (String.eqb _ _); [done|]. by split; [apply read_at_get|].
    + split; [apply next_attempt_ok|done].
  - intros [= <- <-]. done.
  - destruct (in_grace existing now) eqn:E; intros [= <- <-]; done.
  - destruct Hp as [[] ?]. destruct (holder_gone _ _); intros [= <- <-]; done.
  - destruct (String.eqb _ _); [done|]. by intros [= <- <-].
  - unfold claim_takeover. destruct (kupdate _ _ _ s) eqn:E; intros [= <- <-].
    + by apply kupdate_newer in E.
    + split; [apply next_attempt_ok|done].
    + split; [apply next_attempt_ok|done].
  - by intros [= <- <-].
Qed.

Lemma release_one_newer name rv s : newer s (release_one name rv s).
Proof.
  unfold release_one. destruct (kdelete _ _ s) eqn:E; [by apply kdelete_newer in E|apply newer_refl..].
Qed.

Lemma reconcile_step_ok c ev now he p s p' s' :
  reconcile_ok c p s now -> reconcile_step c ev now he p s = Some (p', s') ->
  reconcile_ok c p' s' now /\ newer s s'.
Proof.
  intros Hp. pose proof (newer_refl s) as Hrefl.
  destruct p as [p| |? ? [|[n rv] items]| |]; destruct ev; cbn; try done;
    try (destruct (claim_step c _ now he p s) as [[q s1]|] eqn:E; [|done]; intros [= <- <-];
         eapply claim_step_ok in E as [Hq Hn]; [|exact Hp]; split; [by apply after_claim_ok|done]).
  - intros [= <- <-]. split; [apply releasable_ok|done].
  - by intros [= <- <-].
  - by intros [= <- <-].
  - intros [= <- <-]. pose proof (release_one_newer n rv s) as Hn. split; [|done].
    inversion_clear Hp as [|? ? _ Hi]. eapply Forall_impl; [exact Hi|]. intros. by eapply item_ok_newer.
  - intros [= <- <-]. split; [by inversion Hp|done].
Qed.

(** The parts of a step of a process. *)
Lemma proc_step_inv w pid ev w' :
  proc_step w pid ev = Some w' ->
  exists c p p' s', procs w !! pid = Some (c, p) /\
    reconcile_step c ev (clock w) (has_release w) p (api w) = Some (p', s') /\
    w' = mkWorld s' (clock w) (releases w) (<[pid := (c, p')]> (procs w)).
Proof.
  unfold proc_step. destruct (procs w !! pid) as [[c p]|]; [cbn|done].
  destruct (reconcile_step _ _ _ _ _ _) as [[p' s']|] eqn:E; [cbn|done].
  intros [= <-]. by exists c, p, p', s'.
Qed.

Lemma alias_step_inv w w' : alias_step w w' -> world_inv w -> world_inv w'.
Proof.
  intros Hstep Hinv. destruct Hstep as [w t rs Ht|w pid ev w' Hp].
  - intros pid c p Hp. cbn. eapply reconcile_ok_newer; [apply newer_refl|exact Ht|by eapply Hinv].
  - apply proc_step_inv in Hp as (c & p & p' & s' & Hp & Hs & ->).
    eapply reconcile_step_ok in Hs as [Hok Hn]; [|by eapply Hinv].
    intros i d q. cbn. intros Hi. apply lookup_insert_Some in Hi as [[<- [= <- <-]]|[_ Hi]]; [done|].
    eapply reconcile_ok_newer; [exact Hn|done|by eapply Hinv].
Qed.

Lemma start_inv v w : initial v w -> world_inv w.
Proof. intros Hi pid c p ->%Hi. unfold reconcile_start. by repeat case_goal. Qed.

Lemma steps_inv w w' : rtc alias_step w w' -> world_inv w -> world_inv w'.
Proof. induction 1 as [|w1 w2 w3 H12 _ IH]; [done|]. intros Hw. by eapply IH, alias_step_inv. Qed.

Lemma foreign_alias_step c w w' : foreign_step c w w' -> alias_step w w'.
Proof. intros []; by econstructor. Qed.

(** ** A claim that was written is kept *)

(** The claim is [c]'s and nobody is about to take its current version over. *)
Definition protected (c : claimer) (w : world T) : Prop :=
  exists cl v, kget (c_name c) (api w) = Some (cl, v) /\ dataWorkspace cl = c_workspace c /\
    labelCanonicalId cl = c_canonicalID c /\
    forall pid d more, procs w !! pid = Some (d, RClaiming (TakingOver more v)) -> c_name d <> c_name c.

Lemma protected_holds c w : protected c w -> holds c w.
Proof. intros (cl & v & ? & ? & ? & _). by exists cl, v. Qed.

(** A write of a claim has a version newer than any read before. *)
Lemma claim_write c name more rv now he p s s' :
  p = Creating more \/ p = TakingOver more rv ->
  claim_step c Call now he p s = Some (Claimed name, s') ->
  kget (c_name c) s' = Some (c_claim c now, krev s') /\ (krev s < krev s')%Z.
Proof.
  intros [-> | ->]; cbn.
  - unfold claim_create. pose proof (kcreate_spec (c_name c) (c_claim c now) s) as Hk.
    destruct (kcreate _ _ s); [|done]. intros [= <- <-]. naive_solver.
  - unfold claim_takeover. pose proof (kupdate_spec (c_name c) (c_claim c now) (Some rv) s) as Hk.
    destruct (kupdate _ _ _ s); [|by destruct more..]. intros [= <- <-]. naive_solver.
Qed.

Lemma writes_protected pid c w w' : world_inv w -> writes_claim pid c w w' -> protected c w'.
Proof.
  intros Hinv (p & ev & Hp & (more & Hw) & Hs & Hp').
  apply proc_step_inv in Hs as (c' & p0 & q & s' & Hp0 & Hs & ->).
  rewrite Hp in Hp0. injection Hp0 as <- <-. cbn [procs] in Hp'.
  rewrite lookup_insert_eq in Hp'. injection Hp' as ->. cbn in Hs.
  destruct (claim_step c ev (clock w) (has_release w) p (api w)) as [[p1 s1]|] eqn:E; [|done].
  injection Hs as Ha <-. assert (p1 = Claimed (c_name c)) as ->.
  { destruct p1 as [| | | | | |[]]; try done; cbn in Ha; congruence. }
  assert (exists rv, p = Creating more \/ p = TakingOver more rv) as [rv Hw'].
  { destruct Hw as [->|[rv ->]]; [by exists 0%Z; left|by exists rv; right]. }
  assert (ev = Call) as -> by (destruct ev; [done|]; by destruct Hw' as [-> | ->]).
  destruct (claim_write _ _ _ _ _ _ _ _ _ Hw' E) as [Hg Hlt].
  exists (c_claim c (clock w)), (krev s1). split_and!; [done..|]. cbn.
  intros i d m Hi. apply lookup_insert_Some in Hi as [[_ Hi]|[_ Hi]]; [done|].
  apply Hinv in Hi. cbn in Hi. lia.
Qed.

(** What a step of a process of another workspace leaves of a claim that is not
    up for a take-over. *)
Lemma foreign_claim_step c d ev now he p s p' s' cl v :
  claim_ok d p s now -> claim_step d ev now he p s = Some (p', s') ->
  kget (c_name c) s = Some (cl, v) ->
  (forall more, p = TakingOver more v -> c_name d <> c_name c) ->
  (in_grace cl now = false -> holder_gone cl he = false) ->
  kget (c_name c) s' = Some (cl, v) /\
  forall more, p' = TakingOver more v -> c_name d <> c_name c.
Proof.
  intros Hp Hs Hg Hto Hgone. destruct p; destruct ev; cbn in Hs; try done.
  - unfold claim_create in Hs. pose proof (kcreate_spec (c_name d) (c_claim d now) s) as Hk.
    destruct (kcreate _ _ s); injection Hs as <- <-; [|done]. split; [|done].
    destruct Hk as (Hn & _ & _ & Ho). rewrite Ho; [done|congruence].
  - by injection Hs as <- <-.
  - injection Hs as <- <-. split; [done|]. unfold claim_get, next_attempt. intros m. by repeat case_goal.
  - by injection Hs as <- <-.
  - injection Hs as <- <-. by destruct (in_grace existing now).
  - injection Hs as <- <-. split; [done|]. intros m. destruct Hp as [[_ Hr] Hgr].
    destruct (holder_gone existing he) eqn:E; [|done]. intros [= _ ->] Heq.
    rewrite Heq in Hr. rewrite (Hr cl Hg) in Hgone. rewrite Hgone in E; done.
  - destruct (String.eqb _ _); [done|]. by injection Hs as <- <-.
  - unfold claim_takeover in Hs.
    pose proof (kupdate_spec (c_name d) (c_claim d now) (Some rv) s) as Hk.
    destruct (kupdate _ _ _ s); injection Hs as <- <-; [|by destruct more..]. split; [|done].
    destruct Hk as ((b & v' & Hb & Hv%Z.eqb_eq) & _ & _ & Ho). subst v'.
    rewrite Ho; [done|]. intros Heq. rewrite <- Heq, Hg in *. injection Hb as <- <-. by eapply Hto.
  - by injection Hs as <- <-.
Qed.

Lemma release_one_foreign c d name rv s cl v :
  item_ok d s (name, rv) -> kget (c_name c) s = Some (cl, v) ->
  labelCanonicalId cl <> c_canonicalID d -> kget (c_name c) (release_one name rv s) = Some (cl, v).
Proof.
  intros [_ Hi] Hg Hne. unfold release_one. pose proof (kdelete_spec name (Some rv) s) as Hk.
  destruct (kdelete _ _ s); [|done..]. destruct Hk as ((b & v' & Hb & Hv%Z.eqb_eq) & _ & _ & Ho).
  cbn in *. subst v'. rewrite Ho; [done|]. intros <-. destruct Hne. rewrite Hg in Hb.
  injection Hb as <- <-. by apply Hi.
Qed.
Lemma foreign_reconcile_step c d ev now he p s p' s' cl v :
  reconcile_ok d p s now -> reconcile_step d ev now he p s = Some (p', s') ->
  kget (c_name c) s = Some (cl, v) -> labelCanonicalId cl <> c_canonicalID d ->
  (forall more, p = RClaiming (TakingOver more v) -> c_name d <> c_name c) ->
  (in_grace cl now = false -> holder_gone cl he = false) ->
  kget (c_name c) s' = Some (cl, v) /\
  forall more, p' = RClaiming (TakingOver more v) -> c_name d <> c_name c.
Proof.
  intros Hp Hs Hg Hne Hto Hgone. destruct p as [p|a m k|a m [|[n rv] items]| |]; cbn [reconcile_step] in Hs.
  - destruct (claim_step d ev now he p s) as [[q s1]|] eqn:E; [|discriminate Hs]. injection Hs as <- <-.
    eapply foreign_claim_step in E as [Hq Hto']; [|exact Hp|exact Hg|intros ? ->; by eapply Hto|exact Hgone].
    split; [exact Hq|]. intros m Hm. apply (Hto' m). by destruct q as [| | | | | |[]]; simplify_eq/=.
  - by destruct ev; injection Hs as <- <-.
  - by destruct ev; [injection Hs as <- <-|].
  - destruct ev; injection Hs as <- <-; [|done]. split; [|done]. inversion_clear Hp.
    by eapply release_one_foreign.
  - by destruct ev.
  - by destruct ev.
Qed.

Lemma foreign_step_protected c w w' :
  c_workspace c <> "" -> world_inv w -> foreign_step c w w' -> protected c w -> protected c w'.
Proof.
  intros Hws Hinv Hstep (cl & v & Hg & Hw & Hc & Hto).
  destruct Hstep as [w t rs|w pid d p ev w' Hp Hd Halive Hs]; [by exists cl, v|].
  apply proc_step_inv in Hs as (d' & p0 & p' & s' & Hp0 & Hs & ->).
  rewrite Hp in Hp0. injection Hp0 as <- <-.
  destruct (foreign_reconcile_step c d ev (clock w) (has_release w) p (api w) p' s' cl v) as [Hg' Hto'].
  - by eapply Hinv.
  - done.
  - done.
  - congruence.
  - intros m ->. by eapply Hto.
  - intros Hgr. unfold holder_gone. rewrite Hw. rewrite (proj2 (String.eqb_neq _ _) Hws).
    unfold has_release. rewrite bool_decide_true; [done|].
    destruct Halive as [|(cl' & v' & Hg2 & Hgr2)]; [done|]. congruence.
  - exists cl, v. split_and!; [done..|]. cbn. intros i e m Hi.
    apply lookup_insert_Some in Hi as [[<- [= <- ->]]|[_ Hi]]; [by eapply Hto'|by eapply Hto].
Qed.

Lemma foreign_steps_protected c w w' :
  c_workspace c <> "" -> rtc (foreign_step c) w w' -> world_inv w -> protected c w -> protected c w'.
Proof.
  intros Hws. induction 1 as [|w1 w2 w3 H12 _ IH]; [done|]. intros Hinv Hp. apply IH.
  - by eapply alias_step_inv; [eapply foreign_alias_step|].
  - by eapply foreign_step_protected.
Qed.
End invariant.

(** C20. A claim that was written is kept: after a process has written its claim
    (by creating it or by a take-over), and for as long as its workspace has a
    Helm release or the claim is in its grace period, no interleaving of the
    processes of other workspaces, claiming or releasing, takes the claim from
    it or deletes it. *)
Theorem written_claim_kept {T} `{KubeLaws T AliasClaim} v w0 w pid c w' w'' :
  c_workspace c <> "" ->
  initial v w0 -> rtc alias_step w0 w -> writes_claim pid c w w' -> rtc (foreign_step c) w' w'' ->
  holds c w''.
Proof.
  intros Hws Hi Hr Hw Hf. apply protected_holds.
  assert (Hinv : world_inv w) by (by eapply steps_inv, start_inv).
  eapply foreign_steps_protected; [exact Hws|exact Hf| |by eapply writes_protected].
  destruct Hw as (p & ev & _ & _ & Hs & _). by eapply alias_step_inv; [eapply step_proc|].
Qed.

(** ** Schedules *)

(** What happens next: a process makes its call, or the environment changes the
    time and the releases. *)
Inductive alias_action : Type :=
| Step (pid : nat)
| Env (t : Z) (rs : list string).

Fixpoint run {T} `{KubeStore T AliasClaim} (w : world T) (sched : list alias_action) : option (world T) :=
  match sched with
  | [] => Some w
  | Step pid :: sched => w' ← proc_step w pid Call; run w' sched
  | Env t rs :: sched =>
      if bool_decide (clock w <= t)%Z then run (mkWorld (api w) t (list_to_set rs) (procs w)) sched
      else None
  end.

Lemma schedule_steps {T} `{KubeStore T AliasClaim} sched : forall (w w' : world T),
  run w sched = Some w' -> rtc alias_step w w'.
Proof.
  induction sched as [|[pid|t rs] sched IH]; intros w w'; cbn.
  - intros [= ->]. constructor.
  - destruct (proc_step w pid Call) as [w1|] eqn:E; [|done]. cbn. intros Hr.
    eapply rtc_l; [by eapply step_proc|by apply IH].
  - case_bool_decide; [|done]. intros Hr. eapply rtc_l; [by apply step_env|by apply IH].
Qed.

(** The alias a process ended with. *)
Definition applied {T} (w : world T) (pid : nat) : option string :=
  match procs w !! pid with Some (_, RDone a _) => Some a | _ => None end.

Module AliasSample.
Definition no_claims : kube_objects AliasClaim := no_objects.
Definition first : claimer := mkClaimer "org" "app" "alice" "alice-id".
Definition second_ : claimer := mkClaimer "org" "app" "bob" "bob-id".
(** Two provisionings of alice's workspace and one of bob's, with the same alias. *)
Definition start (rs : list string) : world (kube_objects AliasClaim) :=
  mkWorld no_claims 0 (list_to_set rs)
    (<[0%nat := (first, RClaiming (Creating 2))]>
     (<[1%nat := (first, RClaiming (Creating 2))]>
      (<[2%nat := (second_, RClaiming (Creating 2))]> ∅))).
(** alice's first provisioning claims the alias and installs nothing. Later her
    second one finds the claim her own; within the same second bob's finds it
    out of grace and takes it over. *)
Definition retry_and_takeover : list alias_action :=
  [Step 0; Step 0; Step 0; Env (600 * second) [];
   Step 1; Step 1; Step 1; Step 1;
   Step 2; Step 2; Step 2; Step 2; Step 2; Step 2; Step 2;
   Env (600 * second) ["alice"; "bob"]].
End AliasSample.

Lemma alias_sample_initial rs : initial (fun _ => true) (AliasSample.start rs).
Proof.
  intros pid c p. unfold AliasSample.start. cbn [procs].
  rewrite !lookup_insert_Some, lookup_empty. intros Hl.
  repeat destruct Hl as [[_ [= <- <-]]|[_ Hl]]; [reflexivity..|done].
Qed.

(** A claim that was only found again is not kept: a workspace that claims
    again the alias it already holds does not renew the claim, so with the old
    claim out of its grace period another workspace takes it over before the
    first has installed its release, and both provisionings of the same
    organization end with the alias applied. *)
Theorem reclaimed_alias_applied_twice :
  exists w, rtc alias_step (AliasSample.start []) w /\
    applied w 1 = Some "app" /\ applied w 2 = Some "app" /\
    c_org AliasSample.first = c_org AliasSample.second_ /\
    c_workspace AliasSample.first ∈ releases w /\ c_workspace AliasSample.second_ ∈ releases w /\
    holder "org" "app" (api w) = Some "bob".
Proof.
  assert (Hc : (fun o => match o with
                | Some w => Some (applied w 1, applied w 2, has_release w "alice", has_release w "bob",
                                  holder "org" "app" (api w))
                | None => None end)
                 (run (AliasSample.start []) AliasSample.retry_and_takeover) =
               Some (Some "app", Some "app", true, true, Some "bob")) by (vm_compute; reflexivity).
  destruct (run (AliasSample.start []) AliasSample.retry_and_takeover) as [w|] eqn:E; [|discriminate Hc].
  injection Hc as H1 H2 H3 H4 H5. unfold has_release in H3, H4. bool_simpl.
  exists w. split; [exact (schedule_steps _ _ _ E)|].
  exact (conj H1 (conj H2 (conj eq_refl (conj H3 (conj H4 H5))))).
Qed.

Lemma written_claim_kept_witness :
  exists w' w'', writes_claim 0 AliasSample.first (AliasSample.start ["alice"]) w' /\
    rtc (foreign_step AliasSample.first) w' w'' /\ holds AliasSample.first w''.
Proof.
  assert (Hc : (fun o => match o with
                | Some w => Some (procs w !! 0%nat, procs w !! 2%nat, has_release w "alice") | None => None end)
                 (proc_step (AliasSample.start ["alice"]) 0 Call) =
               Some (Some (AliasSample.first, RListing "app" NoMessage (c_name AliasSample.first)),
                     Some (AliasSample.second_, RClaiming (Creating 2)), true))
    by (vm_compute; reflexivity).
  destruct (proc_step (AliasSample.start ["alice"]) 0 Call) as [w'|] eqn:E; [|discriminate Hc].
  injection Hc as H1 H2 H3. unfold has_release in H3. apply bool_decide_eq_true in H3.
  assert (Hw : writes_claim 0 AliasSample.first (AliasSample.start ["alice"]) w').
  { exists (Creating 2), Call. split; [reflexivity|]. split; [exists 2%nat; by left|]. by split. }
  destruct (proc_step w' 2 Call) as [w''|] eqn:E2.
  2: { unfold proc_step in E2. rewrite H2 in E2. cbn in E2.
       destruct (claim_create AliasSample.second_ 2 (clock w') (api w')). discriminate E2. }
  assert (Hf : rtc (foreign_step AliasSample.first) w' w'').
  { apply rtc_once. eapply foreign_proc; [exact H2|discriminate|by left|exact E2]. }
  exists w', w''. split; [exact Hw|]. split; [exact Hf|].
  refine (written_claim_kept (fun _ => true) (AliasSample.start ["alice"]) (AliasSample.start ["alice"])
            0 AliasSample.first w' w'' _ (alias_sample_initial _) (rtc_refl _ _) Hw Hf). discriminate.
Defined.

(** ** Termination *)

Definition returned (p : claim_pc) : bool :=
  match p with Claimed _ | ClaimFailed _ => true | _ => false end.

(** A run of [claim] against whatever each of its calls meets: an event, the
    time, the releases and the claims. *)
Fixpoint drive {T} `{KubeStore T AliasClaim} (c : claimer) (p : claim_pc)
    (l : list (alias_event * Z * (string -> bool) * T)) : claim_pc :=
  match l with
  | [] => p
  | (ev, now, he, s) :: l =>
      match claim_step c ev now he p s with Some (p', _) => drive c p' l | None => p end
  end.

Definition claim_measure (p : claim_pc) : nat :=
  match p with
  | Creating k => 5 * k + 5
  | Getting k => 5 * k + 4
  | Judging k _ _ => 5 * k + 3
  | Probing k _ _ => 5 * k + 2
  | TakingOver k _ => 5 * k + 1
  | Claimed _ | ClaimFailed _ => 0
  end.

Lemma next_attempt_measure c k : claim_measure (next_attempt c k) <= 5 * k.
Proof. destruct k; cbn; lia. Qed.

Lemma claim_step_measure {T} `{KubeStore T AliasClaim} c ev now he p (s : T) p' s' :
  claim_step c ev now he p s = Some (p', s') -> claim_measure p' < claim_measure p.
Proof.
  destruct p; destruct ev; cbn [claim_step]; try done;
    unfold claim_create, claim_get, claim_takeover, held_by_another; intros Hs; repeat case_in Hs;
    try done; simplify_eq; cbn [claim_measure]; try lia;
    match goal with |- context [next_attempt ?c ?k] => pose proof (next_attempt_measure c k); lia end.
Qed.

(** Claiming returns: whatever its calls meet, after at most fifteen of them
    (three attempts of five steps) a claim has been made or an error returned,
    so it never spins against concurrent claimers. *)
Theorem claim_returns {T} `{KubeStore T AliasClaim} c (l : list (alias_event * Z * (string -> bool) * T)) :
  Forall (fun x => x.1.1.1 = Call) l -> 5 * aliasClaimAttempts <= length l ->
  returned (drive c (Creating (pred aliasClaimAttempts)) l) = true.
Proof.
  assert (Hgen : forall l p, Forall (fun x => x.1.1.1 = Call) l -> claim_measure p <= length l ->
            returned (drive (T := T) c p l) = true).
  { clear l. intros l. induction l as [|[[[ev now] he] s] l IH]; intros p Hl Hm.
    - destruct p; cbn in Hm; lia || done.
    - inversion_clear Hl as [|? ? Hev Hl']. cbn in Hev. subst ev. cbn [drive].
      destruct (claim_step c Call now he p s) as [[p' s']|] eqn:E; [|by destruct p].
      apply claim_step_measure in E. apply IH; [done|]. cbn in Hm. lia. }
  intros Hl Hlen. by apply Hgen.
Qed.

Lemma claim_returns_witness :
  returned (drive AliasSample.first (Creating 2)
    (repeat (Call, 0%Z, (fun _ : string => false), AliasSample.no_claims) 15)) = true.
Proof.
  apply (claim_returns AliasSample.first
    (repeat (Call, 0%Z, (fun _ : string => false), AliasSample.no_claims) 15)).
  - by apply Forall_forall; intros x Hx%list_elem_of_In%repeat_spec; subst x.
  - rewrite repeat_length. vm_compute. lia.
Defined.
