(* ===== verification/Podman.v ===== *)
(** * Podman profiles

    internal/podmanprofile: the expansion of the blueprint's [podman.profile]
    into concrete podman settings. *)

From S2P Require Import Prelude GoStrings.

(** A value of type [interface{}] as the YAML decoder makes it; a float is kept
    as [fmt.Sprint] prints it. *)
Inductive gvalue : Type :=
| VNil
| VBool (b : bool)
| VInt (z : Z)
| VFloat (text : string)
| VStr (s : string)
| VList (l : list gvalue)
| VMap (m : list (string * gvalue)).

(** What the profiles read and write of [models.Storage], [models.Podman] and
    [models.Blueprint], and what validation reads of them; the maps that are
    absent are empty. Of an init container only its storages are kept, of an
    overcommit only whether there is one. *)
Record Storage : Type := mkStorage {
  st_Enabled : bool;
  st_Type : string;
  st_Path : string;
  st_SizeLimit : string;
  st_ClaimSpec : list (string * gvalue);
  st_FsOwnerUid : option Z;
  st_FsOwnerGid : option Z;
}.

Record PodmanStorageImage : Type := mkImage {
  si_Mode : string;
  si_Storage : string;
  si_MountPath : string;
  si_DiskPath : string;
  si_InitImage : string;
  si_Size : string;
}.

Record Podman : Type := mkPodman {
  pm_Profile : string;
  pm_Enabled : bool;
  pm_SecurityContext : gmap string gvalue;
  pm_ExtFiles : gmap string string;
  pm_Storages : gmap string Storage;
  pm_StartupScript : string;
  pm_SocketMedium : string;
  pm_CacheTrimSeconds : option Z;
  pm_StorageImage : option PodmanStorageImage;
  pm_InitContainers : list (list string);
  pm_CPU : string;
  pm_Memory : string;
  pm_Overcommit : bool;
}.

Record Blueprint : Type := mkBlueprint {
  bp_Image : string;
  bp_RuntimeClassName : string;
  bp_Podman : Podman;
}.

Record User : Type := mkUser { Username : string; UID : Z; GID : Z }.

(** [CopyFailed] is Effective's (Validate.v). *)
Inductive profile_error : Type :=
| CopyFailed
| NeedsUser
| ErrKataRuntimeClass
| UnknownProfile (profile : string).

(** Source strings with double quotes, written here with backquotes. *)
Fixpoint quoted (s : string) : string :=
  match s with
  | EmptyString => EmptyString
  | String c s => String (if Ascii.eqb c (Ascii.ascii_of_nat 96) then Ascii.ascii_of_nat 34 else c) (quoted s)
  end.

(** src/internal/podmanprofile/profile.go:18-42 const *)
Definition Privileged : string := "privileged".
Definition Rootless : string := "rootless".
Definition Kata : string := "kata".
Definition GraphStorage : string := "graphdb".
Definition containersConfPath : string := "/etc/containers/containers.conf".
Definition storageConfPath : string := "/etc/containers/storage.conf".
Definition DefaultCacheTrimSeconds : Z := 300.
Definition DefaultStorageMountPath : string := "/var/lib/containers/storage".
Definition DefaultFileDiskPath : string := "/var/lib/containers/disk".
Definition DefaultBlockDevicePath : string := "/dev/podman-disk".

(** src/internal/podmanprofile/profile.go:44-50 privilegedContainersConf *)
Definition privilegedContainersConf : string := quoted
"[containers]
log_driver = `k8s-file`
[engine]
cgroup_manager = `cgroupfs`
events_logger=`file`
runtime=`crun`
".

(** src/internal/podmanprofile/profile.go:52-66 rootlessContainersConf *)
Definition rootlessContainersConf : string := quoted
"[containers]
netns=`host`
userns=`host`
ipcns=`host`
utsns=`host`
cgroupns=`host`
cgroups=`disabled`
log_driver = `k8s-file`
volumes = [`/proc:/proc`]
default_sysctls = []
[engine]
cgroup_manager = `cgroupfs`
events_logger=`file`
runtime=`crun`
".

(** src/internal/podmanprofile/profile.go:68-71 rootlessStorageConf *)
Definition rootlessStorageConf : string := quoted
"[storage]
driver = `overlay`
rootless_storage_path = `/home/podman/storage`
".

(** src/internal/podmanprofile/profile.go:73-82 kataStorageConf *)
Definition kataStorageConf : string := quoted
"[storage]
driver = `overlay`
runroot = `/run/containers/storage`
graphroot = `/var/lib/containers/storage`
[storage.options.overlay]
mountopt = `nodev`
".

(** src/internal/podmanprofile/profile.go:84-92 kataStartupScript *)
Definition kataStartupScript : string :=
"[ -e /dev/fuse ] || mknod -m 666 /dev/fuse c 10 229
[ -e /dev/kmsg ] || mknod -m 600 /dev/kmsg c 1 11
[ -e /dev/loop-control ] || mknod -m 660 /dev/loop-control c 10 237
for i in 0 1 2 3 4 5 6 7; do [ -e /dev/loop$i ] || mknod -m 660 /dev/loop$i b 7 $i; done
umount /sys/fs/cgroup
mount -t cgroup2 cgroup2 /sys/fs/cgroup".

Definition nl : string := String (Ascii.ascii_of_nat 10) EmptyString.

(** [fmt.Sprint] of a decoded value. *)
Definition sprint_list (l : list string) : string := "[" +:+ join " " l +:+ "]".

Fixpoint sprint (v : gvalue) : string :=
  match v with
  | VNil => "<nil>"
  | VBool b => if b then "true" else "false"
  | VInt z => pretty z
  | VFloat text => text
  | VStr s => s
  | VList l => sprint_list (map sprint l)
  | VMap m => "map" +:+ sprint_list ((fun kv => kv.1 +:+ ":" +:+ kv.2) <$>
                sort_by fst (map (fun kv => (kv.1, sprint kv.2)) m))
  end.

Fixpoint assoc {A} (k : string) (l : list (string * A)) : option A :=
  match l with
  | [] => None
  | (k', a) :: l => if String.eqb k' k then Some a else assoc k l
  end.

(** [m, _ := x.(map[string]interface{})]. *)
Definition as_map (v : option gvalue) : list (string * gvalue) :=
  match v with Some (VMap m) => m | _ => [] end.

(** src/internal/podmanprofile/claim.go:29-32 IsPVC *)
Definition IsPVC (s : Storage) : bool :=
  negb (String.eqb (st_Type s) "emptyDir") && negb (String.eqb (st_Type s) "memory").

(** src/internal/podmanprofile/claim.go:49-55 ClaimVolumeMode *)
Definition ClaimVolumeMode (s : Storage) : string :=
  match assoc "volumeMode" (st_ClaimSpec s) with
  | Some (VStr mode) => if String.eqb mode "" then "Filesystem" else mode
  | _ => "Filesystem"
  end.

(** The value an [int64] variable holds after an operation with exact result [z]. *)
Definition wrap64 (z : Z) : Z := (z + 2 ^ 63) mod 2 ^ 64 - 2 ^ 63.

(** src/internal/podmanprofile/profile.go:98-105 Valid *)
Definition Valid (name : string) : bool :=
  String.eqb name Privileged || String.eqb name Rootless || String.eqb name Kata.

(** Keep [s] unless it is empty. *)
Definition or_default (s d : string) : string := if String.eqb s "" then d else s.
Definition or_some {A} (o d : option A) : option A := match o with Some a => Some a | None => d end.

(** [p] with the fields that profiles change. *)
Definition set_podman (p : Podman) (sc : gmap string gvalue) (files : gmap string string)
    (storages : gmap string Storage) (script medium : string) (trim : option Z)
    (image : option PodmanStorageImage) : Podman :=
  {| pm_Profile := pm_Profile p; pm_Enabled := pm_Enabled p;
     pm_SecurityContext := sc; pm_ExtFiles := files; pm_Storages := storages;
     pm_StartupScript := script; pm_SocketMedium := medium; pm_CacheTrimSeconds := trim;
     pm_StorageImage := image;
     pm_InitContainers := pm_InitContainers p; pm_CPU := pm_CPU p; pm_Memory := pm_Memory p;
     pm_Overcommit := pm_Overcommit p |}.

Definition set_ExtFiles (p : Podman) (m : gmap string string) : Podman :=
  set_podman p (pm_SecurityContext p) m (pm_Storages p) (pm_StartupScript p) (pm_SocketMedium p)
    (pm_CacheTrimSeconds p) (pm_StorageImage p).

Definition set_Storages (p : Podman) (m : gmap string Storage) : Podman :=
  set_podman p (pm_SecurityContext p) (pm_ExtFiles p) m (pm_StartupScript p) (pm_SocketMedium p)
    (pm_CacheTrimSeconds p) (pm_StorageImage p).

(** src/internal/podmanprofile/profile.go:234-249 applySecurityContext *)
Definition applySecurityContext (p : Podman) (sc : gmap string gvalue) : Podman :=
  set_podman p (sc ∪ pm_SecurityContext p) (pm_ExtFiles p) (pm_Storages p) (pm_StartupScript p)
    (pm_SocketMedium p) (pm_CacheTrimSeconds p) (pm_StorageImage p).

(** src/internal/podmanprofile/profile.go:251-259 setFile *)
Definition setFile (path content : string) (p : Podman) : Podman :=
  match pm_ExtFiles p !! path with
  | Some _ => p
  | None => set_ExtFiles p (<[path := content]> (pm_ExtFiles p))
  end.

(** src/internal/podmanprofile/profile.go:269-277 applyGraphStorage *)
Definition fill_storage (s : Storage) (path : string) (uid gid : option Z) : Storage :=
  {| st_Enabled := st_Enabled s; st_Type := st_Type s; st_Path := or_default (st_Path s) path;
     st_SizeLimit := st_SizeLimit s; st_ClaimSpec := st_ClaimSpec s;
     st_FsOwnerUid := or_some (st_FsOwnerUid s) uid; st_FsOwnerGid := or_some (st_FsOwnerGid s) gid |}.

(** src/internal/podmanprofile/profile.go:261-279 applyGraphStorage *)
Definition applyGraphStorage (path : string) (uid gid : option Z) (p : Podman) : Podman :=
  match pm_Storages p !! GraphStorage with
  | Some s =>
      if st_Enabled s
      then set_Storages p (<[GraphStorage := fill_storage s path uid gid]> (pm_Storages p)) else p
  | None => p
  end.

Definition empty_image : PodmanStorageImage := mkImage "" "" "" "" "" "".

(** The zero value a map lookup gives for a missing storage. *)
Definition no_storage : Storage := mkStorage false "" "" "" [] None None.

Section quantities.
(** The value of a Kubernetes quantity in units, [None] when it does not parse
    ([resource.ParseQuantity] and [Value] of apimachinery). *)
Variable ParseQuantity : string -> option Z.

(** src/internal/podmanprofile/claim.go:34-47 ClaimSize *)
Definition ClaimSize (s : Storage) : option Z :=
  raw ← assoc "storage" (as_map (assoc "requests" (as_map (assoc "resources" (st_ClaimSpec s)))));
  ParseQuantity (sprint raw).

(** src/internal/podmanprofile/claim.go:13-27 StorageSize *)
Definition StorageSize (s : Storage) : option Z :=
  if IsPVC s then ClaimSize s
  else if String.eqb (st_SizeLimit s) "" then None else ParseQuantity (st_SizeLimit s).

(** 90% of the claim.

    src/internal/podmanprofile/profile.go:227-231 applyStorageImage *)
Definition image_size (Mode Size : string) (s : Storage) : string :=
  if String.eqb Mode "file" && String.eqb Size "" then
    match StorageSize s with
    | Some claim => pretty (Z.quot (wrap64 (claim * 9)) 10)
    | None => ""
    end
  else Size.

(** src/internal/podmanprofile/profile.go:198-232 applyStorageImage *)
Definition image_defaults (bp_image : string) (storages : gmap string Storage) (o : option PodmanStorageImage)
    : PodmanStorageImage :=
  let si := match o with Some si => si | None => empty_image end in
  let Mode := or_default (si_Mode si) "file" in
  let Storage_ := or_default (si_Storage si) GraphStorage in
  {| si_Mode := Mode;
     si_Storage := Storage_;
     si_MountPath := or_default (si_MountPath si) DefaultStorageMountPath;
     si_DiskPath := or_default (si_DiskPath si)
                      (if String.eqb Mode "block" then DefaultBlockDevicePath else DefaultFileDiskPath);
     si_InitImage := or_default (si_InitImage si) bp_image;
     si_Size := image_size Mode (si_Size si) (match storages !! Storage_ with Some s => s | None => no_storage end) |}.

Definition unconfined : gvalue := VMap [("type", VStr "Unconfined")].

(** src/internal/podmanprofile/profile.go:140-147 Apply *)
Definition apply_privileged (p : Podman) : Podman :=
  applyGraphStorage DefaultStorageMountPath (Some 0%Z) (Some 0%Z)
    (setFile containersConfPath privilegedContainersConf
       (applySecurityContext p
          (list_to_map [("privileged", VBool true); ("runAsUser", VInt 0); ("runAsGroup", VInt 0)]))).

(** src/internal/podmanprofile/profile.go:158-163 Apply *)
Definition rootless_files (user : User) : list (string * string) :=
  [(containersConfPath, rootlessContainersConf);
   (storageConfPath, rootlessStorageConf);
   ("/etc/group", "root:x:0:" +:+ nl +:+ Username user +:+ ":x:" +:+ pretty (GID user) +:+ ":" +:+ nl);
   ("/etc/passwd", "root:x:0:0:root:/root:/bin/sh" +:+ nl +:+ Username user +:+ ":x:" +:+
      pretty (UID user) +:+ ":" +:+ pretty (GID user) +:+ "::/home/podman:/bin/sh" +:+ nl);
   ("/etc/subgid", Username user +:+ ":2000000000:65536" +:+ nl);
   ("/etc/subuid", Username user +:+ ":2000000000:65536" +:+ nl)].

(** src/internal/podmanprofile/profile.go:149-165 Apply *)
Definition apply_rootless (user : User) (p : Podman) : Podman :=
  applyGraphStorage "/home/podman" None None
    (foldl (fun p f => setFile f.1 f.2 p)
       (applySecurityContext p
          (list_to_map [("appArmorProfile", unconfined); ("runAsUser", VInt (UID user));
                        ("runAsGroup", VInt (GID user))])) (rootless_files user)).

(** src/internal/podmanprofile/profile.go:179-190 Apply *)
Definition kata_defaults (bp_image : string) (p : Podman) : Podman :=
  let si := image_defaults bp_image (pm_Storages p) (pm_StorageImage p) in
  applyGraphStorage (si_DiskPath si) (Some 0%Z) (Some 0%Z)
    (set_podman p (pm_SecurityContext p) (pm_ExtFiles p) (pm_Storages p)
       (or_default (pm_StartupScript p) kataStartupScript)
       (or_default (pm_SocketMedium p) "Memory")
       (or_some (pm_CacheTrimSeconds p) (Some DefaultCacheTrimSeconds))
       (Some si)).

(** src/internal/podmanprofile/profile.go:167-190 Apply *)
Definition apply_kata (bp_image : string) (p : Podman) : Podman :=
  kata_defaults bp_image
    (setFile storageConfPath kataStorageConf
       (setFile containersConfPath privilegedContainersConf
          (applySecurityContext p
             (list_to_map [("privileged", VBool true); ("runAsUser", VInt 0); ("runAsGroup", VInt 0);
                           ("appArmorProfile", unconfined)])))).

Definition with_podman (bp : Blueprint) (p : Podman) : Blueprint :=
  mkBlueprint (bp_Image bp) (bp_RuntimeClassName bp) p.

(** The user may be absent.

    src/internal/podmanprofile/profile.go:131-196 Apply *)
Definition Apply (bp : Blueprint) (user : option User) : result profile_error Blueprint :=
  let p := bp_Podman bp in
  if String.eqb (pm_Profile p) "" || negb (pm_Enabled p) then Ok bp
  else if String.eqb (pm_Profile p) Privileged then Ok (with_podman bp (apply_privileged p))
  else if String.eqb (pm_Profile p) Rootless then
    match user with
    | None => Err NeedsUser
    | Some user => Ok (with_podman bp (apply_rootless user p))
    end
  else if String.eqb (pm_Profile p) Kata then
    if String.eqb (bp_RuntimeClassName bp) "" then Err ErrKataRuntimeClass
    else Ok (with_podman bp (apply_kata (bp_Image bp) p))
  else Err (UnknownProfile (pm_Profile p)).
End quantities.

(** ** Lemmas *)

Lemma or_default_idem s d d' : d <> "" -> or_default (or_default s d) d' = or_default s d.
Proof.
  intros Hd. unfold or_default. destruct (String.eqb s "") eqn:E; [|by rewrite E].
  by rewrite (proj2 (String.eqb_neq d "") Hd).
Qed.

Lemma or_default_keep s d : s <> "" -> or_default s d = s.
Proof. intros Hs. unfold or_default. by rewrite (proj2 (String.eqb_neq s "") Hs). Qed.

Lemma or_some_idem {A} (o d : option A) : or_some (or_some o d) d = or_some o d.
Proof. by destruct o, d. Qed.

Lemma fill_storage_idem s path uid gid :
  path <> "" -> fill_storage (fill_storage s path uid gid) path uid gid = fill_storage s path uid gid.
Proof.
  intros Hp. unfold fill_storage. cbn. by rewrite or_default_idem, !or_some_idem.
Qed.

Lemma set_podman_eta p : set_podman p (pm_SecurityContext p) (pm_ExtFiles p) (pm_Storages p)
  (pm_StartupScript p) (pm_SocketMedium p) (pm_CacheTrimSeconds p) (pm_StorageImage p) = p.
Proof. by destruct p. Qed.

Lemma union_present (m : gmap string string) k c x : m !! k = Some x -> m ∪ {[k := c]} = m.
Proof.
  intros Hm. apply map_eq. intros j. rewrite lookup_union. destruct (decide (j = k)) as [->|Hj].
  - by rewrite Hm, lookup_singleton_eq.
  - rewrite lookup_singleton_ne by done. by destruct (m !! j).
Qed.

Lemma union_absent (m : gmap string string) k c : m !! k = None -> m ∪ {[k := c]} = <[k := c]> m.
Proof.
  intros Hm. apply map_eq. intros j. rewrite lookup_union. destruct (decide (j = k)) as [->|Hj].
  - by rewrite Hm, lookup_insert_eq, lookup_singleton_eq.
  - rewrite lookup_insert_ne, lookup_singleton_ne by done. by destruct (m !! j).
Qed.

Lemma setFile_eq path c p : setFile path c p = set_ExtFiles p (pm_ExtFiles p ∪ {[path := c]}).
Proof.
  unfold setFile. destruct (pm_ExtFiles p !! path) as [x|] eqn:E.
  - rewrite (union_present _ _ _ x E). symmetry. apply set_podman_eta.
  - by rewrite union_absent.
Qed.

Lemma setFiles_eq l p :
  foldl (fun p f => setFile f.1 f.2 p) p l = set_ExtFiles p (pm_ExtFiles p ∪ list_to_map l).
Proof.
  revert p. induction l as [|[path c] l IH]; intros p; cbn [foldl].
  - cbn. rewrite (right_id_L ∅ (∪)). symmetry. apply set_podman_eta.
  - rewrite IH, setFile_eq. unfold set_ExtFiles. cbn. f_equal. rewrite <- (assoc_L (∪)). f_equal.
    by rewrite <- insert_union_l, (left_id_L ∅ (∪)).
Qed.

Definition fill_enabled (path : string) (uid gid : option Z) (s : Storage) : Storage :=
  if st_Enabled s then fill_storage s path uid gid else s.

Lemma applyGraphStorage_eq path uid gid p :
  applyGraphStorage path uid gid p =
  set_Storages p (alter (fill_enabled path uid gid) GraphStorage (pm_Storages p)).
Proof.
  unfold applyGraphStorage. destruct (pm_Storages p !! GraphStorage) as [s|] eqn:E.
  - assert (alter (fill_enabled path uid gid) GraphStorage (pm_Storages p) =
            <[GraphStorage := fill_enabled path uid gid s]> (pm_Storages p)) as ->.
    { apply map_eq. intros j. destruct (decide (j = GraphStorage)) as [->|Hj].
      - by rewrite lookup_alter_eq, E, lookup_insert_eq.
      - by rewrite lookup_alter_ne, lookup_insert_ne by done. }
    unfold fill_enabled. destruct (st_Enabled s); [done|]. rewrite insert_id by done.
    symmetry. apply set_podman_eta.
  - rewrite alter_id by (intros x; congruence). symmetry. apply set_podman_eta.
Qed.

(** The form of every profile: a security context, files, and defaults. *)
Definition expand (sc : gmap string gvalue) (files : gmap string string)
    (path : string) (uid gid : option Z) (script medium : string) (trim : option Z)
    (image : option PodmanStorageImage) (p : Podman) : Podman :=
  set_podman p (sc ∪ pm_SecurityContext p) (pm_ExtFiles p ∪ files)
    (alter (fill_enabled path uid gid) GraphStorage (pm_Storages p))
    (or_default (pm_StartupScript p) script) (or_default (pm_SocketMedium p) medium)
    (or_some (pm_CacheTrimSeconds p) trim) image.

Lemma or_default_empty s : or_default s "" = s.
Proof. unfold or_default. by destruct (String.eqb_spec s "") as [->|]. Qed.

Lemma or_some_none {A} (o : option A) : or_some o None = o.
Proof. by destruct o. Qed.

Definition root_context : list (string * gvalue) :=
  [("privileged", VBool true); ("runAsUser", VInt 0); ("runAsGroup", VInt 0)].

Lemma apply_privileged_eq p :
  apply_privileged p =
  expand (list_to_map root_context) (list_to_map [(containersConfPath, privilegedContainersConf)])
    DefaultStorageMountPath (Some 0%Z) (Some 0%Z) "" "" None (pm_StorageImage p) p.
Proof.
  unfold apply_privileged. rewrite applyGraphStorage_eq.
  pose proof (setFiles_eq [(containersConfPath, privilegedContainersConf)]
             (applySecurityContext p (list_to_map root_context))) as E.
  cbn [foldl fst snd] in E. unfold root_context in E. rewrite E.
  unfold expand. rewrite !or_default_empty, or_some_none. reflexivity.
Qed.

Lemma apply_rootless_eq user p :
  apply_rootless user p =
  expand (list_to_map [("appArmorProfile", unconfined); ("runAsUser", VInt (UID user));
                       ("runAsGroup", VInt (GID user))]) (list_to_map (rootless_files user))
    "/home/podman" None None "" "" None (pm_StorageImage p) p.
Proof.
  unfold apply_rootless. rewrite applyGraphStorage_eq, setFiles_eq.
  unfold expand. rewrite !or_default_empty, or_some_none. reflexivity.
Qed.

Lemma apply_kata_eq pq image p :
  apply_kata pq image p =
  let si := image_defaults pq image (pm_Storages p) (pm_StorageImage p) in
  expand (list_to_map (root_context ++ [("appArmorProfile", unconfined)]))
    (list_to_map [(containersConfPath, privilegedContainersConf); (storageConfPath, kataStorageConf)])
    (si_DiskPath si) (Some 0%Z) (Some 0%Z) kataStartupScript "Memory" (Some DefaultCacheTrimSeconds)
    (Some si) p.
Proof.
  unfold apply_kata.
  pose proof (setFiles_eq [(containersConfPath, privilegedContainersConf); (storageConfPath, kataStorageConf)]
             (applySecurityContext p (list_to_map (root_context ++ [("appArmorProfile", unconfined)])))) as E.
  cbn [foldl fst snd app root_context] in E. rewrite E.
  unfold kata_defaults. rewrite applyGraphStorage_eq. reflexivity.
Qed.

Lemma fill_enabled_idem path uid gid s :
  path <> "" -> fill_enabled path uid gid (fill_enabled path uid gid s) = fill_enabled path uid gid s.
Proof.
  intros Hp. unfold fill_enabled. destruct (st_Enabled s) eqn:E; [|by rewrite E].
  cbn. rewrite E. by apply fill_storage_idem.
Qed.

(** Filling in a storage does not change its capacity. *)
Lemma StorageSize_fill pq path uid gid s : StorageSize pq (fill_enabled path uid gid s) = StorageSize pq s.
Proof. unfold fill_enabled. by destruct (st_Enabled s). Qed.

Lemma expand_idem sc files path uid gid script medium trim image p :
  path <> "" ->
  let p' := expand sc files path uid gid script medium trim image p in
  expand sc files path uid gid script medium trim image p' = p'.
Proof.
  intros Hpath. cbn. unfold expand, set_podman. cbn. f_equal.
  - by rewrite (assoc_L (∪)), (idemp_L (∪)).
  - by rewrite <- (assoc_L (∪)), (idemp_L (∪)).
  - apply map_eq. intros j. destruct (decide (j = GraphStorage)) as [->|Hj].
    + rewrite !lookup_alter_eq. destruct (pm_Storages p !! GraphStorage); [|done].
      cbn. by rewrite fill_enabled_idem.
    + by rewrite !lookup_alter_ne.
  - destruct (decide (script = "")) as [->|]; [by rewrite !or_default_empty|by apply or_default_idem].
  - destruct (decide (medium = "")) as [->|]; [by rewrite !or_default_empty|by apply or_default_idem].
  - apply or_some_idem.
Qed.

Lemma image_path_nonempty pq image storages o : si_DiskPath (image_defaults pq image storages o) <> "".
Proof.
  cbn. unfold or_default. destruct (String.eqb (si_DiskPath _) "") eqn:E.
  - destruct (String.eqb _ "block"); discriminate.
  - by apply String.eqb_neq in E.
Qed.

Lemma image_size_idem pq m z s : image_size pq m (image_size pq m z s) s = image_size pq m z s.
Proof.
  unfold image_size. destruct (String.eqb m "file"); [|done]. cbn [andb].
  destruct (String.eqb z "") eqn:Ez; [|by rewrite Ez]. by case_goal.
Qed.

Lemma image_defaults_idem pq image storages o path uid gid :
  let si := image_defaults pq image storages o in
  image_defaults pq image (alter (fill_enabled path uid gid) GraphStorage storages) (Some si) = si.
Proof.
  cbn zeta. set (si := image_defaults pq image storages o). unfold image_defaults at 1.
  assert (Hm : si_Mode si <> "") by (cbn; unfold or_default; case_goal; [done|by apply String.eqb_neq]).
  assert (Hs : si_Storage si <> "") by (cbn; unfold or_default; case_goal; [done|by apply String.eqb_neq]).
  assert (Hp : si_MountPath si <> "") by (cbn; unfold or_default; case_goal; [done|by apply String.eqb_neq]).
  assert (Hd : si_DiskPath si <> "") by apply image_path_nonempty.
  rewrite !(or_default_keep (si_Mode si)), !(or_default_keep (si_Storage si)),
    !(or_default_keep (si_MountPath si)), !(or_default_keep (si_DiskPath si)) by done.
  assert (Hi : or_default (si_InitImage si) image = si_InitImage si).
  { cbn. unfold or_default. destruct (String.eqb_spec (si_InitImage match o with Some si => si | None => empty_image end) "") as [E|E].
    - by destruct (String.eqb_spec image "") as [->|].
    - by rewrite (proj2 (String.eqb_neq _ _) E). }
  rewrite Hi.
  assert (HS : forall m z, image_size pq m z (match alter (fill_enabled path uid gid) GraphStorage storages !! si_Storage si with
                               | Some s => s | None => no_storage end) =
               image_size pq m z (match storages !! si_Storage si with Some s => s | None => no_storage end)).
  { intros m z. destruct (decide (si_Storage si = GraphStorage)) as [->|Hg].
    - rewrite lookup_alter_eq. destruct (storages !! GraphStorage); [|done]. cbn.
      unfold image_size. by rewrite StorageSize_fill.
    - by rewrite lookup_alter_ne. }
  rewrite HS. clear HS.
  assert (Hz : image_size pq (si_Mode si) (si_Size si)
                 (match storages !! si_Storage si with Some s => s | None => no_storage end) = si_Size si).
  { apply image_size_idem. }
  rewrite Hz. by destruct si.
Qed.

(** A profile [f] is idempotent and stays selected. *)
Definition stable (f : Podman -> Podman) : Prop :=
  forall p, f (f p) = f p /\ pm_Profile (f p) = pm_Profile p /\ pm_Enabled (f p) = pm_Enabled p.

Lemma apply_privileged_stable : stable apply_privileged.
Proof.
  intros p. split; [|by rewrite apply_privileged_eq].
  rewrite !apply_privileged_eq. cbn [pm_StorageImage expand set_podman]. by apply expand_idem.
Qed.

Lemma apply_rootless_stable user : stable (apply_rootless user).
Proof.
  intros p. split; [|by rewrite apply_rootless_eq].
  rewrite !apply_rootless_eq. cbn [pm_StorageImage expand set_podman]. by apply expand_idem.
Qed.

Lemma apply_kata_stable pq image : stable (apply_kata pq image).
Proof.
  intros p. split; [|by rewrite apply_kata_eq].
  rewrite !apply_kata_eq. cbn zeta. pose proof (image_path_nonempty pq image (pm_Storages p) (pm_StorageImage p)) as Hd.
  pose proof (image_defaults_idem pq image (pm_Storages p) (pm_StorageImage p)) as Hi. cbn zeta in Hi.
  remember (image_defaults pq image (pm_Storages p) (pm_StorageImage p)) as si eqn:E.
  cbn [pm_StorageImage pm_Storages expand set_podman]. rewrite Hi. by apply expand_idem.
Qed.

(** Applying a podman profile twice is applying it once: the defaults that a
    profile fills in, the storage image and its size included, are what a
    second application finds set. So a blueprint recovered from stored values,
    where the profile is already expanded, expands to itself. *)
Theorem Apply_idempotent pq bp user bp' :
  Apply pq bp user = Ok bp' -> Apply pq bp' user = Ok bp'.
Proof.
  unfold Apply. destruct (_ || _) eqn:E0; [by intros [= <-]; rewrite E0|].
  destruct (String.eqb _ Privileged) eqn:E1; [|destruct (String.eqb _ Rootless) eqn:E2;
    [|destruct (String.eqb _ Kata) eqn:E3; [|done]]].
  - destruct (apply_privileged_stable (bp_Podman bp)) as (Hf & Hp & He).
    intros [= <-]. cbn [bp_Podman with_podman]. by rewrite Hp, He, E0, E1, Hf.
  - destruct user as [user|]; [|done].
    destruct (apply_rootless_stable user (bp_Podman bp)) as (Hf & Hp & He).
    intros [= <-]. cbn [bp_Podman with_podman]. by rewrite Hp, He, E0, E1, E2, Hf.
  - destruct (String.eqb (bp_RuntimeClassName bp) "") eqn:E4; [done|].
    destruct (apply_kata_stable pq (bp_Image bp) (bp_Podman bp)) as (Hf & Hp & He).
    intros [= <-]. cbn [bp_Podman bp_RuntimeClassName bp_Image with_podman].
    by rewrite Hp, He, E0, E1, E2, E3, E4, Hf.
Qed.

(** [a'] has what [a] sets. *)
Definition keeps (a a' : string) : Prop := a <> "" -> a' = a.
Definition keeps_some {A} (a a' : option A) : Prop := forall x, a = Some x -> a' = Some x.

(** A storage that a profile has filled in. *)
Definition storage_kept (s s' : Storage) : Prop :=
  st_Enabled s' = st_Enabled s /\ st_Type s' = st_Type s /\ st_SizeLimit s' = st_SizeLimit s /\
  st_ClaimSpec s' = st_ClaimSpec s /\ keeps (st_Path s) (st_Path s') /\
  keeps_some (st_FsOwnerUid s) (st_FsOwnerUid s') /\ keeps_some (st_FsOwnerGid s) (st_FsOwnerGid s') /\
  (st_Enabled s = false -> s' = s).

Definition image_kept (o o' : option PodmanStorageImage) : Prop :=
  forall si, o = Some si -> exists si', o' = Some si' /\
    keeps (si_Mode si) (si_Mode si') /\ keeps (si_Storage si) (si_Storage si') /\
    keeps (si_MountPath si) (si_MountPath si') /\ keeps (si_DiskPath si) (si_DiskPath si') /\
    keeps (si_InitImage si) (si_InitImage si') /\ keeps (si_Size si) (si_Size si').

(** What a profile keeps of the blueprint's podman settings. *)
Definition podman_kept (p p' : Podman) : Prop :=
  (forall path c, pm_ExtFiles p !! path = Some c -> pm_ExtFiles p' !! path = Some c) /\
  (forall n, match pm_Storages p !! n, pm_Storages p' !! n with
             | Some s, Some s' => storage_kept s s' /\ (n <> GraphStorage -> s' = s)
             | None, None => True
             | _, _ => False
             end) /\
  keeps (pm_StartupScript p) (pm_StartupScript p') /\ keeps (pm_SocketMedium p) (pm_SocketMedium p') /\
  keeps_some (pm_CacheTrimSeconds p) (pm_CacheTrimSeconds p') /\
  image_kept (pm_StorageImage p) (pm_StorageImage p') /\
  pm_InitContainers p' = pm_InitContainers p /\
  (pm_CPU p', pm_Memory p', pm_Overcommit p') = (pm_CPU p, pm_Memory p, pm_Overcommit p).

Lemma keeps_default s d : keeps s (or_default s d).
Proof. intros Hs. by apply or_default_keep. Qed.

Lemma keeps_some_default {A} (o d : option A) : keeps_some o (or_some o d).
Proof. by intros x ->. Qed.

Lemma keeps_refl s : keeps s s.
Proof. by intros _. Qed.

Lemma keeps_some_refl {A} (o : option A) : keeps_some o o.
Proof. by intros x. Qed.

#[export] Hint Resolve keeps_default keeps_some_default keeps_refl keeps_some_refl : prov.

Lemma image_kept_refl o : image_kept o o.
Proof. intros si ->. exists si. auto 7 with prov. Qed.

Lemma image_kept_defaults pq image storages o : image_kept o (Some (image_defaults pq image storages o)).
Proof.
  intros si ->. eexists. split; [done|]. unfold image_defaults. cbn. split_and!; auto with prov.
  intros Hz. unfold image_size. rewrite (proj2 (String.eqb_neq _ _) Hz). by rewrite andb_false_r.
Qed.

Lemma fill_enabled_kept path uid gid s : storage_kept s (fill_enabled path uid gid s).
Proof.
  unfold fill_enabled. destruct (st_Enabled s) eqn:E; unfold storage_kept; cbn; split_and!; auto with prov.
  by rewrite E.
Qed.

Lemma expand_kept sc files path uid gid script medium trim image p :
  image_kept (pm_StorageImage p) image -> podman_kept p (expand sc files path uid gid script medium trim image p).
Proof.
  intros Hi. unfold podman_kept, expand. cbn. split_and!; auto with prov.
  - intros k c Hk. by apply lookup_union_Some_l.
  - intros n. destruct (decide (n = GraphStorage)) as [->|Hn].
    + rewrite lookup_alter_eq. destruct (pm_Storages p !! GraphStorage); [|done]. cbn.
      split; [apply fill_enabled_kept|done].
    + rewrite lookup_alter_ne by done. destruct (pm_Storages p !! n); [|done].
      split; [|done]. unfold storage_kept. split_and!; auto with prov.
Qed.

(** A profile only supplies defaults: what the blueprint sets of files, the
    graph storage's path and owners, the start-up script, the socket medium, the
    cache trimming and the storage image is kept, no other storage changes, and
    none is created; only its own security-context keys win over the
    blueprint's, the others stay. *)
Theorem Apply_keeps pq bp user bp' :
  Apply pq bp user = Ok bp' ->
  bp_Image bp' = bp_Image bp /\ bp_RuntimeClassName bp' = bp_RuntimeClassName bp /\
  podman_kept (bp_Podman bp) (bp_Podman bp') /\
  exists sc, pm_SecurityContext (bp_Podman bp') = sc ∪ pm_SecurityContext (bp_Podman bp) /\
    dom sc ⊆ ({["privileged"; "runAsUser"; "runAsGroup"; "appArmorProfile"]} : gset string).
Proof.
  unfold Apply. destruct (_ || _).
  { intros [= <-]. split_and!; [done..| |].
    - unfold podman_kept. split_and!; auto using image_kept_refl with prov.
      intros n. destruct (pm_Storages _ !! n); [|done]. split; [|done].
      unfold storage_kept. split_and!; auto with prov.
    - exists ∅. by rewrite (left_id_L ∅ (∪)), dom_empty_L; split; [|set_solver]. }
  destruct (String.eqb _ Privileged); [|destruct (String.eqb _ Rootless);
    [destruct user; [|done]|destruct (String.eqb _ Kata); [destruct (String.eqb _ ""); [done|]|done]]].
  - rewrite apply_privileged_eq. intros [= <-]. split_and!; [done..|apply expand_kept, image_kept_refl|].
    eexists. split; [reflexivity|]. cbn [list_to_map foldr uncurry app root_context]. rewrite !dom_insert_L, dom_empty_L. set_solver.
  - rewrite apply_rootless_eq. intros [= <-]. split_and!; [done..|apply expand_kept, image_kept_refl|].
    eexists. split; [reflexivity|]. cbn [list_to_map foldr uncurry app root_context]. rewrite !dom_insert_L, dom_empty_L. set_solver.
  - rewrite apply_kata_eq. intros [= <-]. split_and!; [done..|apply expand_kept, image_kept_defaults|].
    eexists. split; [reflexivity|]. cbn [list_to_map foldr uncurry app root_context]. rewrite !dom_insert_L, dom_empty_L. set_solver.
Qed.

(** ** A kata blueprint *)
Module PodmanSample.
(** Quantities in plain bytes. *)
Definition ParseQuantity (s : string) : option Z :=
  if String.eqb s "1000" then Some 1000%Z else if String.eqb s "900" then Some 900%Z else None.
Definition graph : Storage :=
  mkStorage true "local" "" "" [("resources", VMap [("requests", VMap [("storage", VInt 1000)])])] None None.
Definition kata : Blueprint :=
  mkBlueprint "img" "kata"
    (mkPodman Kata true {["runAsUser" := VInt 7; "readOnly" := VBool true]} ∅ {[GraphStorage := graph]}
       "" "" None None [] "" "" false).
Definition expanded : result profile_error Blueprint := Apply ParseQuantity kata None.
End PodmanSample.

Example kata_sample :
  match PodmanSample.expanded with
  | Ok bp => (si_Size <$> pm_StorageImage (bp_Podman bp),
              st_Path <$> pm_Storages (bp_Podman bp) !! GraphStorage,
              pm_SecurityContext (bp_Podman bp) !! "runAsUser",
              pm_SecurityContext (bp_Podman bp) !! "readOnly")
  | Err _ => (None, None, None, None)
  end = (Some "900", Some DefaultFileDiskPath, Some (VInt 0), Some (VBool true)).
Proof. vm_compute. reflexivity. Qed.

Lemma Apply_idempotent_witness :
  match PodmanSample.expanded with
  | Ok bp => Apply PodmanSample.ParseQuantity bp None = Ok bp
  | Err _ => False
  end.
Proof. exact (Apply_idempotent PodmanSample.ParseQuantity PodmanSample.kata None _ eq_refl). Defined.

Lemma Apply_keeps_witness :
  match PodmanSample.expanded with
  | Ok bp => podman_kept (bp_Podman PodmanSample.kata) (bp_Podman bp)
  | Err _ => False
  end.
Proof. exact (proj1 (proj2 (proj2 (Apply_keeps PodmanSample.ParseQuantity PodmanSample.kata None _ eq_refl)))). Defined.
