(* ===== verification/Validate.v ===== *)
(** * The blueprint validators

    internal/blueprint/blueprint.go, lines 297 to 886: the checks that struct
    tags cannot express. A validator returns the list of its issues. A Go map is
    a list of its entries, in the order of iteration. *)

From S2P Require Import Prelude GoStrings Podman.

(** What an issue says; the message's arguments are kept. *)
Inductive issue_kind : Type :=
| Required
| InvalidEnvName (name : string)
| InvalidRegexp (pattern : string)
| ReservedPort (port : Z)
| InvalidQuantity (value : string)
| NotSupported
| InvalidStorageType (storage type_ : string)
| SizeLimitOnClaim (storage type_ : string)
| NotAnInteger (v : gvalue)
| InvalidDocument
| InvalidResourceName (name : string)
| InvalidCapability (name : string)
| MustBeRoot (got : Z)
| CannotBe (b : bool)
| RequiredCapabilityDropped (cap : string)
| CannotDropCapability (cap : string)
| UnknownPodmanProfile (profile : string)
| ProfileError (e : profile_error)
| NotAnEnabledStorage (storage : string)
| TrimTooShort (n : Z)
| TrimNeedsRuntimeClass
| BlockNeedsClaim (type_ : string)
| BlockNeedsBlockMode (mode : string)
| FileNeedsFilesystem
| ImageTooLarge (size : string).

(** src/internal/blueprint/blueprint.go:297-315 fieldError *)
Record fieldError : Type := newFieldError { field : string; kind : issue_kind }.

Definition bracket (prefix name : string) : string := prefix +:+ "[" +:+ name +:+ "]".

(** ** The simple fields *)

(** src/internal/blueprint/blueprint.go:325-334 validateDescriptionRequired *)
Definition validateDescriptionRequired (RequireDescription : bool) (Description : string) : list fieldError :=
  if RequireDescription && String.eqb Description "" then [newFieldError "description" Required] else [].

Definition env_start (c : Ascii.ascii) : bool :=
  let n := Ascii.nat_of_ascii c in
  ((65 <=? n) && (n <=? 90) || (97 <=? n) && (n <=? 122) || (n =? 95))%nat.

Definition env_part (c : Ascii.ascii) : bool :=
  let n := Ascii.nat_of_ascii c in env_start c || ((48 <=? n) && (n <=? 57))%nat.

(** src/internal/blueprint/blueprint.go:336-338 envNameRE *)
Definition envNameRE (s : string) : bool :=
  match s with
  | EmptyString => false
  | String c s => env_start c && forallb env_part (to_bytes s)
  end.

(** src/internal/blueprint/blueprint.go:340-351 validateEnvNames *)
Definition validateEnvNames (Env : list string) : list fieldError :=
  flat_map (fun name => if envNameRE name then [] else [newFieldError (bracket "env" name) (InvalidEnvName name)]) Env.

(** [regexp_ok]: whether [regexp.Compile] accepts the pattern.

    src/internal/blueprint/blueprint.go:353-367 validateIgnoreOrphans *)
Definition validateIgnoreOrphans (regexp_ok : string -> bool) (IgnoreOrphans : list string) : list fieldError :=
  flat_map (fun ip => if regexp_ok ip.2 then []
                      else [newFieldError (bracket "k8shelld.ignoreOrphans" (pretty ip.1)) (InvalidRegexp ip.2)])
    (imap (fun i p => (N.of_nat i, p)) IgnoreOrphans).

(** src/internal/blueprint/blueprint.go:369-383 validateWebProxy *)
Definition validateWebProxy (WORKSPACE_PORT : Z) (port : option Z) : list fieldError :=
  match port with
  | Some p => if Z.eqb p WORKSPACE_PORT then [newFieldError "network.webProxy.port" (ReservedPort p)] else []
  | None => []
  end.

(** ** Storages *)

(** A storage with its display name and its field path. *)
Record namedStorage : Type := mkNamed { ns_name : string; ns_path : string; ns_storage : Storage }.

(** src/internal/blueprint/blueprint.go:439-451 validateStorageTypes *)
Definition all_storages (Storages PodmanStorages : list (string * Storage)) : list namedStorage :=
  map (fun ns => mkNamed ns.1 (bracket "storages" ns.1) ns.2) Storages ++
  map (fun ns => mkNamed ("podman." +:+ ns.1) (bracket "podman.storages" ns.1) ns.2) PodmanStorages.

(** src/internal/blueprint/blueprint.go:419-428 validStorageTypes *)
Definition validStorageTypes (t : string) : bool :=
  existsb (String.eqb t) ["local"; "shared"; "emptyDir"; "memory"].

(** src/internal/blueprint/blueprint.go:453-463 validateStorageTypes *)
Definition storage_type_issues (ns : namedStorage) : list fieldError :=
  let t := st_Type (ns_storage ns) in
  if String.eqb t "" || validStorageTypes t then []
  else [newFieldError (ns_path ns +:+ ".type") (InvalidStorageType (ns_name ns) t)].

(** src/internal/blueprint/blueprint.go:430-463 validateStorageTypes *)
Definition validateStorageTypes (Storages PodmanStorages : list (string * Storage)) : list fieldError :=
  flat_map storage_type_issues (all_storages Storages PodmanStorages).

(** [resources.requests] or [resources.limits] of a claim spec.

    src/internal/blueprint/blueprint.go:614-650 validateClaimSpecResourceNames *)
Definition validateClaimSpecResourceNames (path : string) (claimSpec : list (string * gvalue)) : list fieldError :=
  match assoc "resources" claimSpec with
  | Some (VMap resources) =>
      flat_map (fun section =>
        match assoc section resources with
        | Some (VMap entries) =>
            flat_map (fun e => if String.eqb e.1 "storage" then []
                               else [newFieldError (path +:+ ".claimSpec.resources." +:+ section)
                                       (InvalidResourceName e.1)]) entries
        | _ => []
        end) ["requests"; "limits"]
  | _ => []
  end.

(** [marshal] is [json.Marshal], [decode] the strict decoding into a
    PersistentVolumeClaimSpec. An empty claim spec is as an absent one: it has
    nothing to reject.

    src/internal/blueprint/blueprint.go:588-611 validateClaimSpecs *)
Definition claim_spec_issues (marshal : list (string * gvalue) -> option string) (decode : string -> bool)
    (ns : namedStorage) : list fieldError :=
  match st_ClaimSpec (ns_storage ns) with
  | [] => []
  | claimSpec =>
      match marshal claimSpec with
      | None => [newFieldError (ns_path ns +:+ ".claimSpec") InvalidDocument]
      | Some jsonRaw =>
          (if decode jsonRaw then [] else [newFieldError (ns_path ns +:+ ".claimSpec") InvalidDocument]) ++
          validateClaimSpecResourceNames (ns_path ns) claimSpec
      end
  end.

(** src/internal/blueprint/blueprint.go:571-612 validateClaimSpecs *)
Definition validateClaimSpecs (marshal : list (string * gvalue) -> option string) (decode : string -> bool)
    (Storages PodmanStorages : list (string * Storage)) : list fieldError :=
  flat_map (claim_spec_issues marshal decode) (all_storages Storages PodmanStorages).

(** src/internal/blueprint/blueprint.go:559-569 isYAMLInteger *)
Definition isYAMLInteger (v : gvalue) : bool := match v with VInt _ => true | _ => false end.

(** src/internal/blueprint/blueprint.go:531-557 checkStorageOwnerIDs *)
Definition checkStorageOwnerIDs (pathPrefix : string) (storages : option gvalue) : list fieldError :=
  match storages with
  | Some (VMap m) =>
      flat_map (fun nv : string * gvalue =>
        match nv.2 with
        | VMap storage =>
            flat_map (fun key =>
              match assoc key storage with
              | None | Some VNil => []
              | Some v => if isYAMLInteger v then []
                          else [newFieldError (bracket pathPrefix nv.1 +:+ "." +:+ key) (NotAnInteger v)]
              end) ["fsOwnerUid"; "fsOwnerGid"]
        | _ => []
        end) m
  | _ => []
  end.

(** [raw]: the document decoded generically, [None] when that fails.

    src/internal/blueprint/blueprint.go:506-529 validateStorageOwnerIDs *)
Definition validateStorageOwnerIDs (raw : option (list (string * gvalue))) : list fieldError :=
  match raw with
  | None => []
  | Some raw =>
      checkStorageOwnerIDs "storages" (assoc "storages" raw) ++
      match assoc "podman" raw with
      | Some (VMap podman) => checkStorageOwnerIDs "podman.storages" (assoc "storages" podman)
      | _ => []
      end
  end.

(** ** Security contexts *)

(** What the checks read of [corev1.SecurityContext]. *)
Record Capabilities : Type := mkCapabilities { Add : list string; Drop : list string }.

Record SecurityContext : Type := mkSecurityContext {
  RunAsUser : option Z;
  RunAsGroup : option Z;
  RunAsNonRoot : option bool;
  ReadOnlyRootFilesystem : option bool;
  AllowPrivilegeEscalation : option bool;
  sc_Capabilities : option Capabilities;
}.

(** src/internal/blueprint/blueprint.go:101-102 requiredCaps *)
Definition requiredCaps : list string := ["CHOWN"; "SETUID"; "SETGID"].

(** src/internal/blueprint/blueprint.go:652-677 validCapabilityNames *)
Definition validCapabilityNames : list string :=
  ["ALL"; "AUDIT_CONTROL"; "AUDIT_READ"; "AUDIT_WRITE"; "BLOCK_SUSPEND"; "BPF"; "CHECKPOINT_RESTORE";
   "CHOWN"; "DAC_OVERRIDE"; "DAC_READ_SEARCH"; "FOWNER"; "FSETID"; "IPC_LOCK"; "IPC_OWNER"; "KILL";
   "LEASE"; "LINUX_IMMUTABLE"; "MAC_ADMIN"; "MAC_OVERRIDE"; "MKNOD"; "NET_ADMIN"; "NET_BIND_SERVICE";
   "NET_BROADCAST"; "NET_RAW"; "PERFMON"; "SETFCAP"; "SETGID"; "SETPCAP"; "SETUID"; "SYS_ADMIN";
   "SYS_BOOT"; "SYS_CHROOT"; "SYS_MODULE"; "SYS_NICE"; "SYS_PACCT"; "SYS_PTRACE"; "SYS_RAWIO";
   "SYS_RESOURCE"; "SYS_TIME"; "SYS_TTY_CONFIG"; "SYSLOG"; "WAKE_ALARM"].

Definition mem (l : list string) (s : string) : bool := existsb (String.eqb s) l.

(** src/internal/blueprint/blueprint.go:679-700 validateCapabilityNames *)
Definition validateCapabilityNames (fieldPrefix : string) (caps : option Capabilities) : list fieldError :=
  match caps with
  | None => []
  | Some caps =>
      let check (part : string) := flat_map (fun c =>
        if mem validCapabilityNames c then [] else [newFieldError (fieldPrefix +:+ part) (InvalidCapability c)]) in
      check ".add" (Add caps) ++ check ".drop" (Drop caps)
  end.

(** The capabilities k8shelld needs, against what is dropped.

    src/internal/blueprint/blueprint.go:751-780 validateSecurityContexts *)
Definition required_caps_issues (caps : Capabilities) : list fieldError :=
  if mem (Drop caps) "ALL" then
    flat_map (fun reqCap => if mem (Add caps) reqCap then []
                            else [newFieldError "securityContext.capabilities" (RequiredCapabilityDropped reqCap)])
      requiredCaps
  else
    flat_map (fun cap =>
      flat_map (fun reqCap => if String.eqb cap reqCap
                              then [newFieldError "securityContext.capabilities" (CannotDropCapability cap)] else [])
        requiredCaps) (Drop caps).

Definition root_id_issues (name : string) (id : option Z) : list fieldError :=
  match id with
  | Some id => if Z.eqb id 0 then [] else [newFieldError ("securityContext." +:+ name) (MustBeRoot id)]
  | None => []
  end.

Definition flag_issues (name : string) (bad : bool) (flag : option bool) : list fieldError :=
  match flag with
  | Some b => if Bool.eqb b bad then [newFieldError ("securityContext." +:+ name) (CannotBe bad)] else []
  | None => []
  end.

(** The checks of a decoded workspace security context.

    src/internal/blueprint/blueprint.go:731-781 validateSecurityContexts *)
Definition workspace_context_issues (spec : SecurityContext) : list fieldError :=
  root_id_issues "runAsUser" (RunAsUser spec) ++
  root_id_issues "runAsGroup" (RunAsGroup spec) ++
  flag_issues "runAsNonRoot" true (RunAsNonRoot spec) ++
  flag_issues "readOnlyRootFilesystem" true (ReadOnlyRootFilesystem spec) ++
  flag_issues "allowPrivilegeEscalation" false (AllowPrivilegeEscalation spec) ++
  match sc_Capabilities spec with
  | None => []
  | Some caps =>
      validateCapabilityNames "securityContext.capabilities" (Some caps) ++ required_caps_issues caps
  end.

(** [decode]: [json.Marshal] followed by decodeSecurityContextStrict, [None]
    when either fails.

    src/internal/blueprint/blueprint.go:716-798 validateSecurityContexts *)
Definition validateSecurityContexts {A} (decode : list A -> option SecurityContext)
    (SecurityContext_ PodmanSecurityContext : list A) : list fieldError :=
  match SecurityContext_ with
  | [] => []
  | sc => match decode sc with
          | None => [newFieldError "securityContext" InvalidDocument]
          | Some spec => workspace_context_issues spec
          end
  end ++
  match PodmanSecurityContext with
  | [] => []
  | sc => match decode sc with
          | None => [newFieldError "podman.securityContext" InvalidDocument]
          | Some spec => validateCapabilityNames "podman.securityContext.capabilities" (sc_Capabilities spec)
          end
  end.

(** ** Quantities and the podman profile *)
Section quantities.
(** [resource.ParseQuantity] with [Value], [None] for an error. *)
Variable ParseQuantity : string -> option Z.
(** A blueprint encoded by [yaml.Marshal] and decoded again. *)
Variable yaml_copy : Blueprint -> option Blueprint.

Definition quantity_issues (name value : string) : list fieldError :=
  if String.eqb value "" then []
  else match ParseQuantity value with
       | Some _ => []
       | None => [newFieldError name (InvalidQuantity value)]
       end.

(** src/internal/blueprint/blueprint.go:385-417 validateResourceQuantities *)
Definition validateResourceQuantities (CPU Memory : string) (podman : Podman) : list fieldError :=
  quantity_issues "resources.cpu" CPU ++ quantity_issues "resources.memory" Memory ++
  quantity_issues "podman.resources.cpu" (pm_CPU podman) ++
  quantity_issues "podman.resources.memory" (pm_Memory podman) ++
  (if pm_Overcommit podman then [newFieldError "podman.resources.overcommit" NotSupported] else []).

(** src/internal/blueprint/blueprint.go:483-501 validateStorageSizeLimits *)
Definition size_limit_issues (ns : namedStorage) : list fieldError :=
  let s := ns_storage ns in
  if negb (st_Enabled s) || String.eqb (st_SizeLimit s) "" then []
  else
    let storageType := or_default (st_Type s) "local" in
    if String.eqb storageType "emptyDir" || String.eqb storageType "memory" then
      match ParseQuantity (st_SizeLimit s) with
      | Some _ => []
      | None => [newFieldError (ns_path ns +:+ ".sizeLimit") (InvalidQuantity (st_SizeLimit s))]
      end
    else [newFieldError (ns_path ns +:+ ".sizeLimit") (SizeLimitOnClaim (ns_name ns) storageType)].

(** src/internal/blueprint/blueprint.go:465-504 validateStorageSizeLimits *)
Definition validateStorageSizeLimits (Storages PodmanStorages : list (string * Storage)) : list fieldError :=
  flat_map size_limit_issues (all_storages Storages PodmanStorages).

(** The storages that init containers use.

    src/internal/blueprint/blueprint.go:823-830 validatePodmanProfile *)
Definition enabled_storage (p : Podman) (name : string) : option Storage :=
  match pm_Storages p !! name with
  | Some s => if st_Enabled s then Some s else None
  | None => None
  end.

(** src/internal/blueprint/blueprint.go:823-830 validatePodmanProfile *)
Definition init_container_issues (p : Podman) : list fieldError :=
  flat_map (fun ic : N * list string =>
    flat_map (fun name =>
      match enabled_storage p name with
      | Some _ => []
      | None => [newFieldError (bracket "podman.initContainers" (pretty ic.1) +:+ ".storages")
                   (NotAnEnabledStorage name)]
      end) ic.2) (imap (fun i l => (N.of_nat i, l)) (pm_InitContainers p)).

Definition MinCacheTrimSeconds : Z := 30.

(** src/internal/blueprint/blueprint.go:832-841 validatePodmanProfile *)
Definition cache_trim_issues (RuntimeClassName : string) (trim : option Z) : list fieldError :=
  match trim with
  | None => []
  | Some n =>
      if Z.eqb n 0 then []
      else if (n <? MinCacheTrimSeconds)%Z then [newFieldError "podman.cacheTrimSeconds" (TrimTooShort n)]
      else if String.eqb RuntimeClassName "" then [newFieldError "podman.cacheTrimSeconds" TrimNeedsRuntimeClass]
      else []
  end.

(** The checks of the image against its storage.

    src/internal/blueprint/blueprint.go:852-884 validatePodmanProfile *)
Definition image_issues (si : PodmanStorageImage) (storage : Storage) : list fieldError :=
  (if String.eqb (si_DiskPath si) "" then [newFieldError "podman.storageImage.diskPath" Required] else []) ++
  let volumeMode := ClaimVolumeMode storage in
  if String.eqb (si_Mode si) "block" then
    if negb (IsPVC storage) then [newFieldError "podman.storageImage.mode" (BlockNeedsClaim (st_Type storage))]
    else if String.eqb volumeMode "Block" then []
    else [newFieldError "podman.storageImage.mode" (BlockNeedsBlockMode volumeMode)]
  else if String.eqb (si_Mode si) "file" then
    (if String.eqb volumeMode "Block" then [newFieldError "podman.storageImage.mode" FileNeedsFilesystem] else []) ++
    (if String.eqb (si_Size si) "" then [newFieldError "podman.storageImage.size" Required]
     else match ParseQuantity (si_Size si), StorageSize ParseQuantity storage with
          | None, _ => [newFieldError "podman.storageImage.size" (InvalidQuantity (si_Size si))]
          | Some q, Some claim =>
              if (claim <=? q)%Z then [newFieldError "podman.storageImage.size" (ImageTooLarge (si_Size si))] else []
          | Some _, None => []
          end)
  else [].

(** The checks of the expanded blueprint.

    src/internal/blueprint/blueprint.go:818-885 validatePodmanProfile *)
Definition expanded_podman_issues (eff : Blueprint) : list fieldError :=
  let p := bp_Podman eff in
  if negb (pm_Enabled p) then []
  else
    init_container_issues p ++ cache_trim_issues (bp_RuntimeClassName eff) (pm_CacheTrimSeconds p) ++
    match pm_StorageImage p with
    | None => []
    | Some si =>
        match enabled_storage p (si_Storage si) with
        | None => [newFieldError "podman.storageImage.storage" (NotAnEnabledStorage (si_Storage si))]
        | Some storage => image_issues si storage
        end
    end.

(** Apply on a copy.

    src/internal/podmanprofile/profile.go:107-129 Effective *)
Definition Effective (bp : Blueprint) (user : option User) : result profile_error Blueprint :=
  if String.eqb (pm_Profile (bp_Podman bp)) "" || negb (pm_Enabled (bp_Podman bp)) then Ok bp
  else match yaml_copy bp with
       | None => Err CopyFailed
       | Some out => Apply ParseQuantity out user
       end.

(** src/internal/blueprint/blueprint.go:800-886 validatePodmanProfile *)
Definition validatePodmanProfile (bp : Blueprint) : list fieldError :=
  let profile := pm_Profile (bp_Podman bp) in
  if negb (String.eqb profile "") && negb (Valid profile)
  then [newFieldError "podman.profile" (UnknownPodmanProfile profile)]
  else match Effective bp (Some (mkUser "user" 1000 1000)) with
       | Err ErrKataRuntimeClass => [newFieldError "runtimeClassName" (ProfileError ErrKataRuntimeClass)]
       | Err e => [newFieldError "podman.profile" (ProfileError e)]
       | Ok eff => expanded_podman_issues eff
       end.
End quantities.

(** ** Lemmas *)

Lemma flat_map_nil {A B} (f : A -> list B) l : flat_map f l = [] <-> forall x, In x l -> f x = [].
Proof.
  induction l as [|x l IH]; cbn; [naive_solver|].
  split.
  - intros [Hx Hl]%app_eq_nil y [<-|Hy]; [done|]. by apply IH.
  - intros H. rewrite (H x) by auto. apply IH. auto.
Qed.

Lemma app_nil {A} (l1 l2 : list A) : l1 ++ l2 = [] <-> l1 = [] /\ l2 = [].
Proof. split; [apply app_eq_nil|by intros [-> ->]]. Qed.

Lemma mem_spec l s : mem l s = true <-> s ∈ l.
Proof.
  unfold mem. rewrite existsb_exists, list_elem_of_In. split.
  - by intros (x & Hx & ->%String.eqb_eq).
  - intros Hs. exists s. by rewrite String.eqb_refl.
Qed.

Lemma if_nil {A} (b : bool) (x : A) : (if b then [] else [x]) = [] <-> b = true.
Proof. by destruct b. Qed.

Lemma if_nil_neg {A} (b : bool) (x : A) : (if b then [x] else []) = [] <-> b = false.
Proof. by destruct b. Qed.

(** The capability [cap] is available to a container with [caps], when the
    runtime grants [cap] by default. *)
Definition has_capability (caps : Capabilities) (cap : string) : Prop :=
  if mem (Drop caps) "ALL" then cap ∈ Add caps else cap ∉ Drop caps.

Lemma required_caps_issues_nil caps :
  required_caps_issues caps = [] <-> Forall (has_capability caps) requiredCaps.
Proof.
  unfold required_caps_issues, has_capability. rewrite Forall_forall.
  destruct (mem (Drop caps) "ALL"); rewrite flat_map_nil.
  - split.
    + intros H c Hc%list_elem_of_In. by apply H, if_nil, mem_spec in Hc.
    + intros H c Hc%list_elem_of_In. by apply if_nil, mem_spec, H.
  - split.
    + intros H c Hc Hd%list_elem_of_In. apply H in Hd. rewrite flat_map_nil in Hd.
      apply list_elem_of_In in Hc. apply Hd in Hc. by rewrite String.eqb_refl in Hc.
    + intros H c Hc%list_elem_of_In. apply flat_map_nil. intros r Hr%list_elem_of_In.
      apply if_nil_neg, String.eqb_neq. intros ->. by apply (H r).
Qed.

Lemma capability_names_nil prefix caps :
  validateCapabilityNames prefix (Some caps) = [] <->
  forall c, c ∈ Add caps ++ Drop caps -> c ∈ validCapabilityNames.
Proof.
  unfold validateCapabilityNames. rewrite app_nil, !flat_map_nil. setoid_rewrite if_nil.
  setoid_rewrite mem_spec. setoid_rewrite elem_of_app. setoid_rewrite list_elem_of_In. naive_solver.
Qed.

Definition flag_ok (bad : bool) (flag : option bool) : Prop := flag <> Some bad.

Lemma flag_issues_nil name bad flag : flag_issues name bad flag = [] <-> flag_ok bad flag.
Proof. unfold flag_ok. by destruct flag as [[]|], bad. Qed.

Lemma root_id_nil name id : root_id_issues name id = [] <-> (id = None \/ id = Some 0%Z).
Proof.
  destruct id as [z|]; cbn; [|naive_solver]. rewrite if_nil, Z.eqb_eq. naive_solver.
Qed.

(** The accepted workspace security contexts are exactly those k8shelld can
    run under: root user and group where given, no non-root or read-only root
    filesystem, privilege escalation not forbidden, every capability named is a
    Linux capability, and each capability that k8shelld requires survives what
    is dropped: added back when everything is dropped, not dropped otherwise. *)
Theorem workspace_context_accepted spec :
  workspace_context_issues spec = [] <->
  (RunAsUser spec = None \/ RunAsUser spec = Some 0%Z) /\
  (RunAsGroup spec = None \/ RunAsGroup spec = Some 0%Z) /\
  RunAsNonRoot spec <> Some true /\ ReadOnlyRootFilesystem spec <> Some true /\
  AllowPrivilegeEscalation spec <> Some false /\
  forall caps, sc_Capabilities spec = Some caps ->
    (forall c, c ∈ Add caps ++ Drop caps -> c ∈ validCapabilityNames) /\
    Forall (has_capability caps) requiredCaps.
Proof.
  unfold workspace_context_issues. rewrite !app_nil, !root_id_nil, !flag_issues_nil. unfold flag_ok.
  destruct (sc_Capabilities spec) as [caps|].
  - rewrite app_nil, capability_names_nil, required_caps_issues_nil. naive_solver.
  - naive_solver.
Qed.

(** What the podman helper relies on of an image on its storage. *)
Definition image_fits (pq : string -> option Z) (si : PodmanStorageImage) (s : Storage) : Prop :=
  si_DiskPath si <> "" /\
  (si_Mode si = "block" -> IsPVC s = true /\ ClaimVolumeMode s = "Block") /\
  (si_Mode si = "file" -> ClaimVolumeMode s <> "Block" /\
     exists q, pq (si_Size si) = Some q /\ si_Size si <> "" /\
       forall claim, StorageSize pq s = Some claim -> (q < claim)%Z).

Lemma image_issues_nil pq si s : image_issues pq si s = [] <-> image_fits pq si s.
Proof.
  unfold image_issues, image_fits. rewrite app_nil, if_nil_neg, String.eqb_neq. cbn zeta.
  destruct (String.eqb_spec (si_Mode si) "block") as [Hb|Hb].
  { rewrite Hb. destruct (IsPVC s); cbn [negb]; [|naive_solver]. rewrite if_nil, String.eqb_eq. naive_solver. }
  destruct (String.eqb_spec (si_Mode si) "file") as [Hf|Hf]; [|naive_solver].
  rewrite app_nil, if_nil_neg, String.eqb_neq.
  destruct (String.eqb_spec (si_Size si) "") as [Hz|Hz]; [naive_solver|].
  destruct (pq (si_Size si)) as [q|]; [|naive_solver].
  destruct (StorageSize pq s) as [claim|]; [|naive_solver].
  rewrite if_nil_neg, Z.leb_gt. naive_solver.
Qed.

Lemma enabled_storage_spec p name s :
  enabled_storage p name = Some s <-> pm_Storages p !! name = Some s /\ st_Enabled s = true.
Proof.
  unfold enabled_storage. destruct (pm_Storages p !! name) as [s'|]; [|naive_solver].
  destruct (st_Enabled s') eqn:E; naive_solver congruence.
Qed.

(** An accepted blueprint expands without an error, and once expanded every
    storage its init containers and its image name exists and is enabled, a
    block image is on a block-mode claim, a file image on a file system with a
    size below the capacity of its storage where that is known, and the page
    cache is trimmed only under a runtime class of its own, at least thirty
    seconds apart. *)
Theorem accepted_podman_profile pq copy bp :
  validatePodmanProfile pq copy bp = [] ->
  exists eff, Effective pq copy bp (Some (mkUser "user" 1000 1000)) = Ok eff /\
    let p := bp_Podman eff in
    pm_Enabled p = true ->
    (forall l name, l ∈ pm_InitContainers p -> name ∈ l ->
       exists s, pm_Storages p !! name = Some s /\ st_Enabled s = true) /\
    (forall n, pm_CacheTrimSeconds p = Some n ->
       n = 0%Z \/ (30 <= n)%Z /\ bp_RuntimeClassName eff <> "") /\
    (forall si, pm_StorageImage p = Some si ->
       exists s, pm_Storages p !! si_Storage si = Some s /\ st_Enabled s = true /\ image_fits pq si s).
Proof.
  unfold validatePodmanProfile. destruct (_ && _); [done|].
  destruct (Effective pq copy bp _) as [eff|[]]; [|done..]. intros H. exists eff. split; [done|]. cbn zeta.
  intros He. unfold expanded_podman_issues in H. rewrite He in H. cbn [negb] in H.
  rewrite !app_nil in H. destruct H as (Hi & Ht & Hs). split_and!.
  - intros l name Hl Hn. unfold init_container_issues in Hi. rewrite flat_map_nil in Hi.
    apply list_elem_of_lookup in Hl as [i Hl].
    assert (Hin : In (N.of_nat i, l) (imap (fun i l => (N.of_nat i, l)) (pm_InitContainers (bp_Podman eff)))).
    { apply list_elem_of_In, elem_of_lookup_imap. by exists i, l. }
    apply Hi in Hin. rewrite flat_map_nil in Hin. apply list_elem_of_In, Hin in Hn.
    destruct (enabled_storage _ name) as [s|] eqn:E; [|done]. exists s. by apply enabled_storage_spec.
  - intros n Hn. unfold cache_trim_issues in Ht. rewrite Hn in Ht.
    destruct (Z.eqb_spec n 0) as [E|]; [by left|].
    destruct (Z.ltb_spec n MinCacheTrimSeconds) as [|Hm]; [done|].
    destruct (String.eqb_spec (bp_RuntimeClassName eff) ""); [done|]. right. by unfold MinCacheTrimSeconds in Hm.
  - intros si Hsi. rewrite Hsi in Hs. destruct (enabled_storage _ _) as [s|] eqn:E; [|done].
    apply enabled_storage_spec in E as [Hg Hen]. exists s. split_and!; [done..|]. by apply image_issues_nil.
Qed.

(** What is documented of quantities: a plain decimal number is a quantity of
    as many units. *)
Definition parses_decimals (pq : string -> option Z) : Prop :=
  forall z, (0 <= z < 2 ^ 63)%Z -> pq (pretty z) = Some z.

Lemma pretty_Z_nonempty (z : Z) : pretty z <> "".
Proof.
  assert (Hgo : forall n : N, forall s, s <> "" -> pretty_N_go n s <> "").
  { intros n. induction (N.lt_wf_0 n) as [n _ IH]. intros s Hs.
    destruct (decide (n = 0%N)) as [->|Hn]; [by rewrite pretty_N_go_0|].
    rewrite pretty_N_go_step by lia. apply IH; [|done]. apply N.div_lt; lia. }
  assert (HN : forall n : N, pretty n <> "").
  { intros n. unfold pretty, pretty_N. destruct (decide (n = 0%N)); [done|].
    rewrite pretty_N_go_step by lia. by apply Hgo. }
  destruct z; [done|apply HN|done].
Qed.

Lemma wrap64_id z : (0 <= z < 2 ^ 63)%Z -> wrap64 z = z.
Proof. intros H. unfold wrap64. rewrite Z.mod_small; lia. Qed.

(** The defaults of the kata profile are accepted: a blueprint that only
    names the profile, its runtime class and an enabled graph storage with a
    file system of a positive capacity passes, as its default image of 90% of
    the capacity is smaller than the storage. The bound is where nine times
    the capacity leaves an int64; copying the blueprint through YAML is
    assumed to keep it. *)
Theorem kata_defaults_accepted pq copy bp s claim :
  parses_decimals pq -> copy bp = Some bp ->
  let p := bp_Podman bp in
  pm_Profile p = Kata -> pm_Enabled p = true -> bp_RuntimeClassName bp <> "" ->
  pm_StorageImage p = None -> pm_InitContainers p = [] -> pm_CacheTrimSeconds p = None ->
  pm_Storages p !! GraphStorage = Some s -> st_Enabled s = true -> ClaimVolumeMode s <> "Block" ->
  StorageSize pq s = Some claim -> (0 < claim)%Z -> (claim * 9 < 2 ^ 63)%Z ->
  validatePodmanProfile pq copy bp = [].
Proof.
  intros Hpq Hcopy p Hprof Hen Hrc Hsi Hic Hct Hg Hes Hvm Hsz Hpos Hmax. subst p.
  unfold validatePodmanProfile, Effective. rewrite Hcopy. unfold Apply. rewrite Hprof, Hen.
  change (String.eqb Kata "") with false. change (String.eqb Kata Privileged) with false.
  change (String.eqb Kata Rootless) with false. change (String.eqb Kata Kata) with true. cbn [negb orb andb].
  change (Valid Kata) with true. cbn [negb].
  rewrite (proj2 (String.eqb_neq _ _) Hrc), apply_kata_eq. cbn zeta. rewrite Hsi.
  set (si := image_defaults pq (bp_Image bp) (pm_Storages (bp_Podman bp)) None).
  assert (Hsize : si_Size si = pretty (claim * 9 / 10)%Z).
  { subst si. cbn. unfold image_size. rewrite Hg. cbn. rewrite Hsz, wrap64_id by lia.
    by rewrite Z.quot_div_nonneg by lia. }
  match goal with |- context [with_podman bp ?q] => set (p' := q) end.
  assert (Hen' : pm_Enabled p' = true) by done.
  assert (Hic' : pm_InitContainers p' = []) by done.
  assert (Hct' : pm_CacheTrimSeconds p' = Some 300%Z) by (unfold p', expand; cbn; by rewrite Hct).
  assert (Hsi' : pm_StorageImage p' = Some si) by done.
  set (s' := fill_enabled (si_DiskPath si) (Some 0%Z) (Some 0%Z) s).
  assert (Hg' : pm_Storages p' !! GraphStorage = Some s').
  { unfold p', expand. cbn [pm_Storages set_podman]. by rewrite lookup_alter_eq, Hg. }
  assert (Hes' : st_Enabled s' = true) by (unfold s', fill_enabled; by rewrite Hes).
  assert (Hs' : enabled_storage p' GraphStorage = Some s') by by apply enabled_storage_spec.
  clearbody p'. unfold expanded_podman_issues. cbn [bp_Podman with_podman bp_RuntimeClassName].
  rewrite Hen', Hct', Hsi'. change (si_Storage si) with GraphStorage. rewrite Hs'.
  unfold init_container_issues, cache_trim_issues. rewrite Hic', (proj2 (String.eqb_neq _ _) Hrc).
  apply image_issues_nil. split; [apply image_path_nonempty|]. split; [done|]. intros _. unfold s'.
  split; [unfold fill_enabled; by rewrite Hes|]. exists (claim * 9 / 10)%Z. rewrite Hsize.
  assert (Hq : (0 <= claim * 9 / 10 < claim)%Z).
  { split; [apply Z.div_pos; lia|]. apply Z.div_lt_upper_bound; lia. }
  split; [apply Hpq; lia|]. split; [apply pretty_Z_nonempty|].
  intros c Hc. rewrite StorageSize_fill in Hc. simplify_eq. lia.
Qed.

(** ** Samples *)

(** Decimal numbers. *)
Fixpoint decimal_from (acc : N) (s : string) : N :=
  match s with
  | EmptyString => acc
  | String c s => decimal_from (acc * 10 + (Ascii.N_of_ascii c - 48)) s
  end.

Definition decimal (s : string) : option Z :=
  if String.eqb s "" then None else Some (Z.of_N (decimal_from 0 s)).

Lemma digit_value d : (d < 10)%N -> (Ascii.N_of_ascii (pretty_N_char d) - 48 = d)%N.
Proof.
  intros Hd. destruct d as [|p]; [done|].
  do 4 (destruct p as [p|p|]; try lia; try done).
Qed.

Lemma decimal_from_pretty n : forall s, decimal_from 0 (pretty_N_go n s) = decimal_from n s.
Proof.
  induction (N.lt_wf_0 n) as [n _ IH]. intros s.
  destruct (decide (n = 0%N)) as [->|Hn]; [by rewrite pretty_N_go_0|].
  rewrite pretty_N_go_step by lia. rewrite IH by (apply N.div_lt; lia). cbn [decimal_from].
  rewrite digit_value by (apply N.mod_lt; lia). f_equal.
  pose proof (N.div_mod n 10). lia.
Qed.

Lemma decimal_parses : parses_decimals decimal.
Proof.
  intros z Hz. unfold decimal. rewrite (proj2 (String.eqb_neq _ _) (pretty_Z_nonempty z)). f_equal.
  destruct z as [|p|p]; [done| |lia].
  change (pretty (Z.pos p)) with (pretty (N.pos p)). unfold pretty, pretty_N.
  destruct (decide (N.pos p = 0%N)); [done|]. by rewrite decimal_from_pretty.
Qed.

Lemma kata_defaults_accepted_witness :
  parses_decimals decimal /\ validatePodmanProfile decimal Some PodmanSample.kata = [].
Proof.
  split; [exact decimal_parses|].
  apply (kata_defaults_accepted decimal Some PodmanSample.kata PodmanSample.graph 1000 decimal_parses eq_refl);
    first [reflexivity | discriminate | lia | vm_compute; reflexivity].
Defined.

Lemma accepted_podman_profile_witness :
  validatePodmanProfile decimal Some PodmanSample.kata = [] /\
  exists eff, Effective decimal Some PodmanSample.kata (Some (mkUser "user" 1000 1000)) = Ok eff /\
    pm_Enabled (bp_Podman eff) = true.
Proof.
  assert (H : validatePodmanProfile decimal Some PodmanSample.kata = []) by (vm_compute; reflexivity).
  split; [exact H|]. destruct (accepted_podman_profile decimal Some PodmanSample.kata H) as (eff & He & _).
  exists eff. split; [exact He|]. injection He as <-. reflexivity.
Defined.

Lemma workspace_context_accepted_witness :
  workspace_context_issues
    (mkSecurityContext (Some 0%Z) None None None None
       (Some (mkCapabilities ["CHOWN"; "SETUID"; "SETGID"; "SYS_PTRACE"] ["ALL"]))) = [].
Proof.
  apply workspace_context_accepted. cbn. split_and!; try (by auto).
  intros caps [= <-]. split.
  - intros c Hc. apply mem_spec.
    repeat (apply elem_of_cons in Hc as [->|Hc]; [reflexivity|]). inversion Hc.
  - unfold has_capability. repeat constructor.
Defined.
