(* ===== verification/Workspaces.v ===== *)
(** * Finding workspaces

    internal/workspace/workspace.go (GetWorkspaces and what it calls) and
    revision.go: workspaces are not stored, they are read off the pods of the
    target namespace, the installed releases without a pod, and the pods they
    are injected into. *)

From S2P Require Import Prelude GoStrings PodState.

(** ** What is read of a pod *)

(** A container of the spec, with its resource limits as printed. *)
Record Container : Type := mkContainer {
  c_Name : string;
  c_CPU : option string;
  c_Memory : option string;
  c_Ports : list Z;
}.

(** A pod with what [PodState.Pod] leaves out; [wp_Resources] are the limits the
    container statuses report, where they do. *)
Record WorkspacePod : Type := mkWorkspacePod {
  wp_Pod : Pod;
  wp_Annotations : gmap string string;
  wp_Containers : list Container;
  wp_Resources : list (string * option (option string * option string));
  wp_PodIP : string;
}.

Definition wp_Labels (p : WorkspacePod) : gmap string string := p_Labels (wp_Pod p).

(** src/internal/helm/inject.go:25-46 const *)
Definition LabelInjected : string := "k8shell.io/injected".
Definition LabelWorkloadKind : string := "k8shell.io/workload-kind".
Definition LabelWorkloadName : string := "k8shell.io/workload-name".
Definition LabelUsername : string := "k8shell.io/username".
Definition LabelOrganization : string := "k8shell.io/organization".
Definition LabelBlueprint : string := "k8shell.io/blueprint".
Definition LabelCanonicalId : string := "k8shell.io/canonical-id".
Definition LabelJobId : string := "k8shell.io/job-id".
Definition LabelAppVersion : string := "k8shell.io/k8shelld-version".
Definition LabelBlueprintRevision : string := "k8shell.io/blueprint-revision".
Definition LabelNetworkPolicy : string := "k8shell.io/network-policy".

(** The owner, name and ref of a repository. *)
Definition identity : Type := string * string * string.

Inductive WorkspaceType : Type := WorkspaceTypeStandalone | WorkspaceTypeInjected.

(** [models.WorkspaceDetails], less the egress rules and the web-proxy roles,
    which are decoded from JSON annotations. *)
Record WorkspaceDetails : Type := mkDetails {
  w_Name : string;
  w_Username : string;
  w_RepoOwner : string;
  w_RepoName : string;
  w_RepoRef : string;
  w_Blueprint : string;
  w_Origin : string;
  w_Organization : string;
  w_JobId : string;
  w_ServerName : string;
  w_PodIP : string;
  w_Port : Z;
  w_TLSEnabled : bool;
  w_AppVersion : string;
  w_CPU : string;
  w_Memory : string;
  w_Hostname : string;
  w_Namespace : string;
  w_NetworkPolicyClass : string;
  w_BlueprintRevision : string;
  w_WebProxyPort : Z;
  w_WebProxyAlias : string;
  w_WebProxyAliasMessage : string;
  w_WorkspaceType : WorkspaceType;
  w_Runtime : string;
  w_NodeSelectors : gmap string string;
  w_NodeName : string;
  w_WorkloadKind : string;
  w_WorkloadName : string;
}.

(** With the status, and the mark MarkBlueprintOutdated sets. *)
Record Workspace : Type := mkWorkspace {
  ws_Details : WorkspaceDetails;
  ws_Created : Z;
  ws_Status : WorkspaceStatusMessage;
  ws_Message : string;
  ws_Outdated : option bool;
}.

Definition digit (c : Ascii.ascii) : option Z :=
  let n := Z.of_nat (Ascii.nat_of_ascii c) in
  if ((48 <=? n) && (n <=? 57))%Z then Some (n - 48)%Z else None.

Fixpoint digits_from (acc : Z) (s : string) : option Z :=
  match s with
  | EmptyString => Some acc
  | String c s => d ← digit c; digits_from (acc * 10 + d) s
  end.

(** [strconv.Atoi], [None] for an error. *)
Definition atoi (s : string) : option Z :=
  let unsigned (s : string) := if String.eqb s "" then None else digits_from 0 s in
  z ← (if has_prefix s "-" then Z.opp <$> unsigned (trim_prefix s "-")
       else unsigned (trim_prefix s "+"));
  if bool_decide (- 2 ^ 63 <= z < 2 ^ 63)%Z then Some z else None.

Definition or_string (o : option string) (d : string) : string := default d o.

(** The limits of the main container: what its status reports, else its spec's.

    src/internal/workspace/workspace.go:1386-1410 workspaceDetailsCore *)
Definition container_limits (p : WorkspacePod) (c : Container) : string * string :=
  let reported := List.find (fun nr => String.eqb nr.1 (c_Name c) && bool_decide (is_Some nr.2)) (wp_Resources p) in
  let spec := (or_string (c_CPU c) "", or_string (c_Memory c) "") in
  match reported with
  | Some (_, Some (cpu, memory)) => (or_string cpu spec.1, or_string memory spec.2)
  | _ => spec
  end.

(** CPU, memory and port of the main container; a port of 0 is unset.

    src/internal/workspace/workspace.go:1378-1419 workspaceDetailsCore *)
Definition main_container (p : WorkspacePod) : string * string * Z :=
  match List.find (fun c => has_suffix (c_Name c) "k8shell-main") (wp_Containers p) with
  | None => ("", "", 0%Z)
  | Some c => (container_limits p c, default 0%Z (List.find (fun port => 0 <? port)%Z (c_Ports c)))
  end.

Section details.
(** The identity in a user string, [None] when it does not parse (userstr of the
    common module). *)
Variable parse_userstr : string -> option identity.
(** [models.WORKSPACE_PORT]. *)
Variable WORKSPACE_PORT : Z.

(** [None] for a pod that is not a workspace.

    src/internal/workspace/workspace.go:1348-1519 workspaceDetailsCore *)
Definition workspaceDetailsCore (p : WorkspacePod) : option WorkspaceDetails :=
  let pod := wp_Pod p in
  let l := label (wp_Labels p) in
  let userstrB64 := label (wp_Annotations p) "k8shell.io/userstr" in
  if String.eqb userstrB64 "" then None else
  match parse_userstr userstrB64 with
  | None => None
  | Some (repoOwner, repoName, repoRef) =>
      if String.eqb (l LabelCanonicalId) "" then None else
      let '(cpu, memory, port) := main_container p in
      let injected := String.eqb (l LabelInjected) "true" in
      Some {|
        w_Name := p_Name pod;
        w_Username := l LabelUsername;
        w_RepoOwner := repoOwner;
        w_RepoName := repoName;
        w_RepoRef := repoRef;
        w_Blueprint := l LabelBlueprint;
        w_Origin := if negb (String.eqb repoOwner "") && negb (String.eqb repoName "")
                    then repoOwner +:+ "/" +:+ repoName else l LabelBlueprint;
        w_Organization := l LabelOrganization;
        w_JobId := l LabelJobId;
        w_ServerName := l LabelCanonicalId +:+ "." +:+ p_Namespace pod;
        w_PodIP := wp_PodIP p;
        w_Port := if Z.eqb port 0 then WORKSPACE_PORT else port;
        w_TLSEnabled := podMountsSecret pod (l LabelCanonicalId +:+ "-tls");
        w_AppVersion := if String.eqb (l LabelAppVersion) "" then "1.0.0" else l LabelAppVersion;
        w_CPU := cpu;
        w_Memory := memory;
        w_Hostname := podHostname (Some pod);
        w_Namespace := p_Namespace pod;
        w_NetworkPolicyClass := l LabelNetworkPolicy;
        w_BlueprintRevision := l LabelBlueprintRevision;
        w_WebProxyPort := default 0%Z (atoi (label (wp_Annotations p) "k8shell.io/web-proxy-port"));
        w_WebProxyAlias := l "k8shell.io/web-proxy-alias";
        w_WebProxyAliasMessage := label (wp_Annotations p) "k8shell.io/web-proxy-alias-message";
        w_WorkspaceType := if injected then WorkspaceTypeInjected else WorkspaceTypeStandalone;
        w_Runtime := podRuntime pod;
        w_NodeSelectors := podNodeSelectors pod;
        w_NodeName := NodeName pod;
        w_WorkloadKind := if injected then l LabelWorkloadKind else "";
        w_WorkloadName := if injected then l LabelWorkloadName else "";
      |}
  end.

(** src/internal/workspace/workspace.go:1317-1327 workspaceDetailsFromPod *)
Definition workspaceDetailsFromPod (now : Z) (p : WorkspacePod) : option Workspace :=
  d ← workspaceDetailsCore p;
  let snap := AnalyzePod (Some (wp_Pod p)) [] defaultCrashLoopThreshold now in
  Some (mkWorkspace d (Created snap) (Status snap) (Message snap) None).

(** src/internal/workspace/workspace.go:1329-1346 workspaceDetailsFromStoppedPod *)
Definition workspaceDetailsFromStoppedPod (p : WorkspacePod) (created : Z) : option Workspace :=
  d ← workspaceDetailsCore p;
  Some (mkWorkspace d created WorkspaceStatusStopped "Workspace pod is stopped" None).
End details.

(** ** Selectors *)

(** A label selector: every key has one of its values. *)
Definition selector : Type := list (string * list string).

(** The requirements getSelector writes: keys without values are skipped. The
    values are label values, which the selector syntax takes as they are.

    src/internal/workspace/helpers.go:199-215 getSelector *)
Definition getSelector (labels : selector) : selector :=
  List.filter (fun kv => negb (Nat.eqb (length kv.2) 0)) labels.

(** What the API server selects. *)
Definition selects (sel : selector) (labels : gmap string string) : bool :=
  forallb (fun kv => match labels !! kv.1 with Some v => existsb (String.eqb v) kv.2 | None => false end) sel.

(** src/internal/workspace/workspace.go:89-113 GetWorkspacesOptions *)
Record GetWorkspacesOptions : Type := mkOptions {
  o_Usernames : list string;
  o_Organization : string;
  o_Blueprint : string;
  o_WorkspaceName : string;
  o_CanonicalId : string;
  o_InjectNamespaces : list string;
  o_InjectWorkload : string;
  o_InjectKind : string;
}.

(** A requirement for an option that is set. *)
Definition when_set (key value : string) : selector := if String.eqb value "" then [] else [(key, [value])].

(** src/internal/workspace/workspace.go:194-210 podMatchesWorkspaceFilters *)
Definition podMatchesWorkspaceFilters (p : WorkspacePod) (opts : GetWorkspacesOptions) : bool :=
  let l := label (wp_Labels p) in
  (Nat.eqb (length (o_Usernames opts)) 0 || existsb (String.eqb (l LabelUsername)) (o_Usernames opts)) &&
  (String.eqb (o_Organization opts) "" || String.eqb (l LabelOrganization) (o_Organization opts)) &&
  (String.eqb (o_Blueprint opts) "" || String.eqb (l LabelBlueprint) (o_Blueprint opts)).

(** The owner's part of every selector.

    src/internal/workspace/workspace.go:431-440 liveStandaloneWorkspaces *)
Definition owner_labels (opts : GetWorkspacesOptions) : selector :=
  [(LabelUsername, o_Usernames opts)] ++ when_set LabelOrganization (o_Organization opts) ++
  when_set LabelBlueprint (o_Blueprint opts).

(** src/internal/workspace/workspace.go:431-444 liveStandaloneWorkspaces *)
Definition live_selector (opts : GetWorkspacesOptions) : selector :=
  getSelector (owner_labels opts ++ when_set LabelCanonicalId (o_CanonicalId opts)).

(** src/internal/workspace/workspace.go:554-569 stoppedWorkspaces *)
Definition release_selector (chart : string) (opts : GetWorkspacesOptions) : selector :=
  getSelector ([("app.kubernetes.io/name", [chart])] ++ owner_labels opts ++
               when_set "app.kubernetes.io/instance" (o_WorkspaceName opts)).

(** src/internal/workspace/workspace.go:282-301 GetWorkspaces *)
Definition injected_selector (opts : GetWorkspacesOptions) : selector :=
  getSelector ([(LabelInjected, ["true"])] ++ owner_labels opts ++
               when_set LabelCanonicalId (o_CanonicalId opts) ++
               when_set LabelWorkloadName (o_InjectWorkload opts) ++
               (if String.eqb (o_InjectWorkload opts) "" then [] else [(LabelWorkloadKind, [o_InjectKind opts])])).

(** ** The lookup *)

(** A release with the pod of its manifest, if it has one, its labels and the
    times of its deployments. *)
Record ReleasePod : Type := mkReleasePod {
  rp_Pod : option WorkspacePod;
  rp_Labels : gmap string string;
  rp_FirstDeployed : Z;
  rp_LastDeployed : Z;
}.

(** What a lookup sees: the pods and releases of the target namespace, the pods
    of the cluster, and the calls that fail. *)
Record cluster : Type := mkCluster {
  cl_Pods : list WorkspacePod;
  cl_Releases : list ReleasePod;
  cl_AllPods : list WorkspacePod;
  cl_Failing : list string;
  cl_Now : Z;
}.

Inductive lookup_error : Type :=
| KindWithoutWorkload
| WorkloadWithoutKind
| GetPodFailed (name : string)
| ListPodsFailed
| ListReleasesFailed
| ListInjectedFailed (ns : string)
| WorkspaceNotFound (name : string)
| MultipleWorkspaces (name : string).

Section lookup.
Variable parse_userstr : string -> option identity.
Variable WORKSPACE_PORT : Z.
(** [helm.WORKSPACE_CHART_NAME]. *)
Variable chart : string.
Variable cl : cluster.

Definition fails (call : string) : bool := existsb (String.eqb call) (cl_Failing cl).

(** A workspace with its pod. *)
Definition found : Type := Workspace * WorkspacePod.

Definition live_details (p : WorkspacePod) : option found :=
  (fun d => (d, p)) <$> workspaceDetailsFromPod parse_userstr WORKSPACE_PORT (cl_Now cl) p.

(** src/internal/workspace/workspace.go:407-480 liveStandaloneWorkspaces *)
Definition liveStandaloneWorkspaces (opts : GetWorkspacesOptions) : result lookup_error (list found) :=
  if negb (String.eqb (o_WorkspaceName opts) "") then
    if fails "get" then Err (GetPodFailed (o_WorkspaceName opts))
    else
      match List.find (fun p => String.eqb (p_Name (wp_Pod p)) (o_WorkspaceName opts)) (cl_Pods cl) with
      | Some p => Ok (if podMatchesWorkspaceFilters p opts
                      then match live_details p with Some f => [f] | None => [] end else [])
      | None => Ok []
      end
  else if fails "list" then Err ListPodsFailed
  else Ok (omap (fun p => if podMatchesWorkspaceFilters p opts then live_details p else None)
             (List.filter (fun p => selects (live_selector opts) (wp_Labels p)) (cl_Pods cl))).

(** src/internal/workspace/workspace.go:581-604 stoppedWorkspaces *)
Definition stopped_details (opts : GetWorkspacesOptions) (rp : ReleasePod) : option found :=
  match rp_Pod rp with
  | None => None
  | Some pod =>
      if podMatchesWorkspaceFilters pod opts &&
         (String.eqb (o_CanonicalId opts) "" ||
          String.eqb (label (wp_Labels pod) LabelCanonicalId) (o_CanonicalId opts))
      then
        let created := if Z.eqb (rp_LastDeployed rp) 0 then rp_FirstDeployed rp else rp_LastDeployed rp in
        (fun d => (d, pod)) <$> workspaceDetailsFromStoppedPod parse_userstr WORKSPACE_PORT pod created
      else None
  end.

(** The releases come from the cache or from Helm, selected in the same way.

    src/internal/workspace/workspace.go:548-607 stoppedWorkspaces *)
Definition stoppedWorkspaces (opts : GetWorkspacesOptions) : result lookup_error (list found) :=
  if fails "releases" then Err ListReleasesFailed
  else Ok (omap (stopped_details opts)
             (List.filter (fun rp => selects (release_selector chart opts) (rp_Labels rp)) (cl_Releases cl))).

Definition found_name (f : found) : string := w_Name (ws_Details f.1).

(** A stopped release whose pod is live is left out.

    src/internal/workspace/workspace.go:239-279 GetWorkspaces *)
Definition standalone_workspaces (opts : GetWorkspacesOptions) : result lookup_error (list found) :=
  match liveStandaloneWorkspaces opts, stoppedWorkspaces opts with
  | Err e, _ | Ok _, Err e => Err e
  | Ok live, Ok stopped =>
      Ok (live ++ List.filter (fun f => negb (existsb (fun g => String.eqb (found_name g) (found_name f)) live)) stopped)
  end.

(** The pods injected in a namespace, "" for all namespaces.

    src/internal/workspace/workspace.go:303-317 GetWorkspaces *)
Definition listInjectedPods (opts : GetWorkspacesOptions) (ns : string) : result lookup_error (list WorkspacePod) :=
  if fails ("injected:" +:+ ns) then Err (ListInjectedFailed ns)
  else Ok (List.filter (fun p => (String.eqb ns "" || String.eqb (p_Namespace (wp_Pod p)) ns) &&
                                 selects (injected_selector opts) (wp_Labels p)) (cl_AllPods cl)).

(** The goroutines' lists are joined in any order; here in that of the namespaces.

    src/internal/workspace/workspace.go:319-375 GetWorkspaces *)
Definition injected_pods (opts : GetWorkspacesOptions) : result lookup_error (list WorkspacePod) :=
  match o_InjectNamespaces opts with
  | [] => Ok []
  | ns :: nss =>
      if String.eqb ns "*" then listInjectedPods opts ""
      else res_foldl (fun acc ns => (fun l => acc ++ l) <$> listInjectedPods opts ns) [] (ns :: nss)
  end.

(** src/internal/workspace/workspace.go:377-392 GetWorkspaces *)
Definition injected_workspaces (opts : GetWorkspacesOptions) : result lookup_error (list found) :=
  match injected_pods opts with
  | Err e => Err e
  | Ok items =>
      Ok (omap (fun p => if String.eqb (o_WorkspaceName opts) "" || String.eqb (p_Name (wp_Pod p)) (o_WorkspaceName opts)
                         then live_details p else None) items)
  end.

(** src/internal/workspace/workspace.go:216-399 GetWorkspaces *)
Definition GetWorkspaces (opts : GetWorkspacesOptions) : result lookup_error (list found) :=
  if negb (String.eqb (o_InjectKind opts) "") && String.eqb (o_InjectWorkload opts) "" then Err KindWithoutWorkload
  else if String.eqb (o_InjectKind opts) "" && negb (String.eqb (o_InjectWorkload opts) "") then Err WorkloadWithoutKind
  else
    match (if String.eqb (o_InjectWorkload opts) "" then standalone_workspaces opts else Ok []),
          injected_workspaces opts with
    | Err e, _ | Ok _, Err e => Err e
    | Ok standalone, Ok injected => Ok (standalone ++ injected)
    end.

(** src/internal/workspace/workspace.go:170-192 FindWorkspace *)
Definition FindWorkspace (workspace : string) (injectionNamespaces : list string) : result lookup_error found :=
  match GetWorkspaces (mkOptions [] "" "" workspace "" injectionNamespaces "" "") with
  | Err e => Err e
  | Ok [] => Err (WorkspaceNotFound workspace)
  | Ok [f] => Ok f
  | Ok _ => Err (MultipleWorkspaces workspace)
  end.
End lookup.

(** ** Outdated blueprints *)

(** One workspace of the loop; [memo] holds the revisions looked up.

    src/internal/workspace/revision.go:31-46 MarkBlueprintOutdated *)
Definition mark_outdated (current : string -> string -> string) (memo : gmap (string * string) string) (w : Workspace)
    : gmap (string * string) string * Workspace :=
  let d := ws_Details w in
  if String.eqb (w_BlueprintRevision d) "" || String.eqb (w_Blueprint d) "" || negb (String.eqb (w_RepoName d) "")
  then (memo, w)
  else
    let k := (w_Organization d, w_Blueprint d) in
    let rev := match memo !! k with Some rev => rev | None => current k.1 k.2 end in
    (<[k := rev]> memo,
     if String.eqb rev "" then w
     else mkWorkspace d (ws_Created w) (ws_Status w) (ws_Message w)
            (Some (negb (String.eqb rev (w_BlueprintRevision d))))).

Fixpoint mark_all (current : string -> string -> string) (memo : gmap (string * string) string) (l : list Workspace)
    : list Workspace :=
  match l with
  | [] => []
  | w :: l => let '(memo, w) := mark_outdated current memo w in w :: mark_all current memo l
  end.

(** src/internal/workspace/revision.go:13-47 MarkBlueprintOutdated *)
Definition MarkBlueprintOutdated (current : option (string -> string -> string)) (l : list Workspace) : list Workspace :=
  match current with None => l | Some current => mark_all current ∅ l end.

(** What is marked of one workspace, without the memo. *)
Definition outdated_spec (current : string -> string -> string) (w : Workspace) : Workspace :=
  (mark_outdated current ∅ w).2.

(** ** Lemmas *)

(** The memo holds what [current] answers. *)
Definition memo_ok (current : string -> string -> string) (memo : gmap (string * string) string) : Prop :=
  forall k rev, memo !! k = Some rev -> rev = current k.1 k.2.

Lemma mark_outdated_memo current memo w :
  memo_ok current memo ->
  memo_ok current (mark_outdated current memo w).1 /\ (mark_outdated current memo w).2 = outdated_spec current w.
Proof.
  intros Hm. unfold outdated_spec, mark_outdated. destruct (_ || _); [done|]. rewrite lookup_empty. cbv zeta.
  set (k := (w_Organization (ws_Details w), w_Blueprint (ws_Details w))).
  assert (Hrev : match memo !! k with Some rev => rev | None => current k.1 k.2 end = current k.1 k.2).
  { destruct (memo !! k) as [rev|] eqn:E; [by rewrite (Hm _ _ E)|done]. }
  rewrite Hrev. split; [|done]. cbn [fst]. intros k' rev. rewrite lookup_insert_Some. intros [[<- <-]|[_ H]]; [done|by apply Hm].
Qed.

Lemma mark_all_spec current l : forall memo,
  memo_ok current memo -> mark_all current memo l = outdated_spec current <$> l.
Proof.
  induction l as [|w l IH]; intros memo Hm; [done|]. cbn [mark_all].
  destruct (mark_outdated_memo current memo w Hm) as [Hm' Hw].
  destruct (mark_outdated current memo w) as [memo' w']. cbn in *. subst. by rewrite IH.
Qed.

(** The memo of a listing is not observable: every workspace is marked as it
    would be on its own, by comparing its revision with the current one of its
    organization's blueprint. *)
Theorem MarkBlueprintOutdated_spec current l :
  MarkBlueprintOutdated (Some current) l = outdated_spec current <$> l.
Proof. apply mark_all_spec. intros k rev. by rewrite lookup_empty. Qed.

Lemma selects_app s1 s2 labels : selects (s1 ++ s2) labels = selects s1 labels && selects s2 labels.
Proof. unfold selects. by rewrite forallb_app. Qed.

Lemma getSelector_app s1 s2 : getSelector (s1 ++ s2) = getSelector s1 ++ getSelector s2.
Proof. apply List.filter_app. Qed.

Lemma selects_when_set key v labels :
  selects (getSelector (when_set key v)) labels = true <-> v = "" \/ labels !! key = Some v.
Proof.
  unfold when_set. destruct (String.eqb_spec v "") as [->|Hv]; cbn; [naive_solver|].
  destruct (labels !! key) as [v'|]; [|naive_solver].
  rewrite andb_true_r, orb_false_r, String.eqb_eq. naive_solver.
Qed.

Lemma selects_values key vs labels :
  selects (getSelector [(key, vs)]) labels = true <-> vs = [] \/ exists v, labels !! key = Some v /\ v ∈ vs.
Proof.
  destruct vs as [|v vs]; [cbn; naive_solver|]. cbn [getSelector List.filter length Nat.eqb negb snd].
  cbn [selects forallb fst]. rewrite andb_true_r. destruct (labels !! key) as [v'|]; [|naive_solver].
  rewrite existsb_exists. setoid_rewrite list_elem_of_In. setoid_rewrite String.eqb_eq. naive_solver.
Qed.

(** A workspace that the owner's part of the options asks for. *)
Definition owned (opts : GetWorkspacesOptions) (f : found) : Prop :=
  let d := ws_Details f.1 in
  (o_Usernames opts = [] \/ w_Username d ∈ o_Usernames opts) /\
  (o_Organization opts = "" \/ w_Organization d = o_Organization opts) /\
  (o_Blueprint opts = "" \/ w_Blueprint d = o_Blueprint opts).

(** The details are read off the labels. *)
Definition read_off (d : WorkspaceDetails) (p : WorkspacePod) : Prop :=
  w_Name d = p_Name (wp_Pod p) /\ w_Username d = label (wp_Labels p) LabelUsername /\
  w_Organization d = label (wp_Labels p) LabelOrganization /\
  w_Blueprint d = label (wp_Labels p) LabelBlueprint.

Lemma details_read_off pu port p d : workspaceDetailsCore pu port p = Some d -> read_off d p.
Proof.
  unfold workspaceDetailsCore. destruct (String.eqb _ ""); [done|].
  destruct (pu _) as [[[o n] r]|]; [|done]. destruct (String.eqb _ ""); [done|].
  destruct (main_container p) as [[cpu memory] q]. intros [= <-]. done.
Qed.

Lemma podMatches_spec p opts :
  podMatchesWorkspaceFilters p opts = true <->
  (o_Usernames opts = [] \/ label (wp_Labels p) LabelUsername ∈ o_Usernames opts) /\
  (o_Organization opts = "" \/ label (wp_Labels p) LabelOrganization = o_Organization opts) /\
  (o_Blueprint opts = "" \/ label (wp_Labels p) LabelBlueprint = o_Blueprint opts).
Proof.
  unfold podMatchesWorkspaceFilters. rewrite !andb_true_iff, !orb_true_iff, !String.eqb_eq, Nat.eqb_eq.
  rewrite length_zero_iff_nil, existsb_exists. setoid_rewrite list_elem_of_In. setoid_rewrite String.eqb_eq.
  naive_solver.
Qed.

Lemma owner_labels_spec opts labels :
  selects (getSelector (owner_labels opts)) labels = true <->
  (o_Usernames opts = [] \/ exists v, labels !! LabelUsername = Some v /\ v ∈ o_Usernames opts) /\
  (o_Organization opts = "" \/ labels !! LabelOrganization = Some (o_Organization opts)) /\
  (o_Blueprint opts = "" \/ labels !! LabelBlueprint = Some (o_Blueprint opts)).
Proof.
  unfold owner_labels. rewrite !getSelector_app, !selects_app, !andb_true_iff.
  by rewrite selects_values, !selects_when_set.
Qed.

Lemma sel_app s1 s2 labels :
  selects (getSelector (s1 ++ s2)) labels = selects (getSelector s1) labels && selects (getSelector s2) labels.
Proof. by rewrite getSelector_app, selects_app. Qed.

Lemma release_selects chart opts labels :
  selects (release_selector chart opts) labels =
  selects (getSelector [("app.kubernetes.io/name", [chart])]) labels &&
  (selects (getSelector (owner_labels opts)) labels &&
   selects (getSelector (when_set "app.kubernetes.io/instance" (o_WorkspaceName opts))) labels).
Proof. unfold release_selector. rewrite sel_app. f_equal. apply sel_app. Qed.

(** The part of the selector of injected pods that is not the owner's. *)
Definition inject_part (opts : GetWorkspacesOptions) : selector :=
  when_set LabelCanonicalId (o_CanonicalId opts) ++ when_set LabelWorkloadName (o_InjectWorkload opts) ++
  (if String.eqb (o_InjectWorkload opts) "" then [] else [(LabelWorkloadKind, [o_InjectKind opts])]).

Lemma injected_selects opts labels :
  selects (injected_selector opts) labels =
  selects (getSelector [(LabelInjected, ["true"])]) labels &&
  (selects (getSelector (owner_labels opts)) labels && selects (getSelector (inject_part opts)) labels).
Proof. unfold injected_selector. rewrite sel_app. f_equal. apply sel_app. Qed.

Section narrowing.
Variable parse_userstr : string -> option identity.
Variable WORKSPACE_PORT : Z.
Variable chart : string.
Variable cl : cluster.
#[local] Notation live_ := (liveStandaloneWorkspaces parse_userstr WORKSPACE_PORT cl).
#[local] Notation stopped_ := (stoppedWorkspaces parse_userstr WORKSPACE_PORT chart cl).
#[local] Notation get_ := (GetWorkspaces parse_userstr WORKSPACE_PORT chart cl).

Lemma live_details_read f p : live_details parse_userstr WORKSPACE_PORT cl p = Some f ->
  f.2 = p /\ read_off (ws_Details f.1) p.
Proof.
  unfold live_details, workspaceDetailsFromPod. destruct (workspaceDetailsCore _ _ p) as [d|] eqn:E; [|done].
  intros [= <-]. split; [done|]. by apply details_read_off in E.
Qed.

Lemma stopped_details_read opts rp f :
  stopped_details parse_userstr WORKSPACE_PORT opts rp = Some f ->
  exists p, rp_Pod rp = Some p /\ f.2 = p /\ read_off (ws_Details f.1) p /\ podMatchesWorkspaceFilters p opts = true.
Proof.
  unfold stopped_details, workspaceDetailsFromStoppedPod. destruct (rp_Pod rp) as [p|]; [|done].
  destruct (podMatchesWorkspaceFilters p opts) eqn:Em; [|done]. cbn [andb].
  destruct (_ || _); [|done]. destruct (workspaceDetailsCore _ _ p) as [d|] eqn:E; [|done].
  intros [= <-]. exists p. apply details_read_off in E. do 2 (split; [done|]). exact (conj E Em).
Qed.

(** The details a workspace has whatever the options: those of a live pod. *)
Lemma elem_of_live opts l f :
  live_ opts = Ok l -> f ∈ l ->
  live_details parse_userstr WORKSPACE_PORT cl f.2 = Some f /\ f.2 ∈ cl_Pods cl /\
  podMatchesWorkspaceFilters f.2 opts = true /\
  (o_WorkspaceName opts = "" \/ p_Name (wp_Pod f.2) = o_WorkspaceName opts).
Proof.
  unfold liveStandaloneWorkspaces. destruct (String.eqb_spec (o_WorkspaceName opts) "") as [Hn|Hn]; cbn [negb].
  - destruct (fails cl "list"); [done|]. intros [= <-]. rewrite list_elem_of_omap.
    intros (p & Hp & Hf). apply list_elem_of_In, filter_In in Hp as [Hp _]. apply list_elem_of_In in Hp.
    destruct (podMatchesWorkspaceFilters p opts) eqn:Em; [|done].
    destruct (live_details_read f p Hf) as [-> _]. by split_and!; [| | |left].
  - destruct (fails cl "get"); [done|].
    destruct (List.find _ (cl_Pods cl)) as [p|] eqn:E; [|intros [= <-] Hf; by apply elem_of_nil in Hf].
    apply find_some in E as [Hp Hpn%String.eqb_eq]. apply list_elem_of_In in Hp.
    destruct (podMatchesWorkspaceFilters p opts) eqn:Em; intros [= <-] Hf; [|by apply elem_of_nil in Hf].
    destruct (live_details _ _ _ p) as [g|] eqn:Eg; [|by apply elem_of_nil in Hf].
    apply list_elem_of_singleton in Hf as ->. destruct (live_details_read g p Eg) as [-> _].
    by split_and!; [| | |right].
Qed.

Lemma owned_matches opts f p :
  read_off (ws_Details f.1) p -> podMatchesWorkspaceFilters p opts = true <-> owned opts f.
Proof. intros (_ & H1 & H2 & H3). rewrite podMatches_spec. unfold owned. by rewrite H1, H2, H3. Qed.

(** The owner's options hold of everything that is returned. *)
Lemma injected_elem opts l f :
  injected_workspaces parse_userstr WORKSPACE_PORT cl opts = Ok l -> f ∈ l ->
  exists items, injected_pods cl opts = Ok items /\ f.2 ∈ items /\
    live_details parse_userstr WORKSPACE_PORT cl f.2 = Some f /\
    (o_WorkspaceName opts = "" \/ p_Name (wp_Pod f.2) = o_WorkspaceName opts).
Proof.
  unfold injected_workspaces. destruct (injected_pods cl opts) as [items|]; [|done].
  intros [= <-]. rewrite list_elem_of_omap. intros (p & Hp & Hf). destruct (_ || _) eqn:En; [|done].
  destruct (live_details_read f p Hf) as [-> _]. exists items. split_and!; [done..|].
  rewrite orb_true_iff, !String.eqb_eq in En. done.
Qed.

Lemma injected_list_elem opts nss : forall acc items p,
  res_foldl (fun acc ns => (fun l => acc ++ l) <$> listInjectedPods cl opts ns) acc nss = Ok items ->
  p ∈ items <-> p ∈ acc \/ exists ns, ns ∈ nss /\ p ∈ cl_AllPods cl /\
    (ns = "" \/ p_Namespace (wp_Pod p) = ns) /\ selects (injected_selector opts) (wp_Labels p) = true.
Proof.
  induction nss as [|ns nss IH]; intros acc items p; cbn [res_foldl].
  - intros [= ->]. split; [by left|]. intros [|(ns & Hns & _)]; [done|]. by apply elem_of_nil in Hns.
  - unfold listInjectedPods at 1. destruct (fails cl ("injected:" +:+ ns)); [done|]. cbn [fmap result_fmap].
    intros Hr. rewrite (IH _ _ _ Hr), elem_of_app, !list_elem_of_In, filter_In, andb_true_iff, orb_true_iff, !String.eqb_eq.
    setoid_rewrite elem_of_cons. setoid_rewrite <- list_elem_of_In. naive_solver.
Qed.

Lemma injected_pods_elem opts items p :
  injected_pods cl opts = Ok items ->
  p ∈ items <-> exists ns, (ns ∈ o_InjectNamespaces opts /\ head (o_InjectNamespaces opts) <> Some "*" \/
                            ns = "" /\ head (o_InjectNamespaces opts) = Some "*") /\ p ∈ cl_AllPods cl /\
    (ns = "" \/ p_Namespace (wp_Pod p) = ns) /\ selects (injected_selector opts) (wp_Labels p) = true.
Proof.
  unfold injected_pods. destruct (o_InjectNamespaces opts) as [|ns nss] eqn:E.
  { intros [= <-]. split; [by intros ?%elem_of_nil|]. intros (ns & [[?%elem_of_nil _]|[_ [=]]] & _); done. }
  destruct (String.eqb_spec ns "*") as [->|Hns].
  - intros Hl. pose proof (injected_list_elem opts [""] [] items p) as H. cbn [res_foldl] in H.
    rewrite Hl in H. cbn [fmap result_fmap app] in H. rewrite (H eq_refl). setoid_rewrite list_elem_of_singleton.
    setoid_rewrite elem_of_nil. cbn [head]. naive_solver.
  - intros Hl. rewrite (injected_list_elem _ _ _ _ p Hl). setoid_rewrite elem_of_nil. cbn [head].
    assert (Some ns <> Some "*") by congruence. naive_solver.
Qed.

(** Options that only restrict the owner and the name. *)
Definition owner_options (us : list string) (org bp name : string) (nss : list string) : GetWorkspacesOptions :=
  mkOptions us org bp name "" nss "" "".

(** A cluster the provisioner has populated: pods have names of their own, and
    the release of a workspace carries the labels of its pod. *)
Definition well_labelled : Prop :=
  (forall p q, p ∈ cl_Pods cl -> q ∈ cl_Pods cl -> p_Name (wp_Pod p) = p_Name (wp_Pod q) -> p = q) /\
  (forall rp p, rp ∈ cl_Releases cl -> rp_Pod rp = Some p ->
     rp_Labels rp !! "app.kubernetes.io/instance" = Some (p_Name (wp_Pod p)) /\
     forall k, k ∈ [LabelUsername; LabelOrganization; LabelBlueprint] -> rp_Labels rp !! k = wp_Labels p !! k).

(** The details satisfy the options, and the workspace has an owner. *)
Definition wanted (opts : GetWorkspacesOptions) (f : found) : Prop :=
  owned opts f /\ w_Username (ws_Details f.1) <> "" /\ (o_WorkspaceName opts = "" \/ found_name f = o_WorkspaceName opts).

Lemma label_some labels k v : v <> "" -> label labels k = v -> labels !! k = Some v.
Proof. unfold label. destruct (labels !! k); cbn; congruence. Qed.

Lemma wanted_selected us org bp name nss f p :
  wanted (owner_options us org bp name nss) f -> read_off (ws_Details f.1) p ->
  selects (getSelector (owner_labels (owner_options us org bp name nss))) (wp_Labels p) = true.
Proof.
  intros [(Hu & Ho & Hb) [Hne _]] (_ & R1 & R2 & R3). cbn in Hu, Ho, Hb, Hne.
  apply owner_labels_spec. cbn [owner_options o_Usernames o_Organization o_Blueprint].
  rewrite R1 in Hu. rewrite R2 in Ho. rewrite R3 in Hb. split_and!.
  - destruct Hu as [|Hu]; [by left|right]. eexists. split; [|exact Hu]. apply label_some; [|done].
    by rewrite <- R1.
  - destruct Ho as [|Ho]; [by left|]. destruct (decide (org = "")); [by left|right]. by apply label_some.
  - destruct Hb as [|Hb]; [by left|]. destruct (decide (bp = "")); [by left|right]. by apply label_some.
Qed.

Lemma selects_labels opts l1 l2 :
  (forall k, k ∈ [LabelUsername; LabelOrganization; LabelBlueprint] -> l1 !! k = l2 !! k) ->
  selects (getSelector (owner_labels opts)) l1 = true -> selects (getSelector (owner_labels opts)) l2 = true.
Proof. intros Hk. rewrite !owner_labels_spec. by rewrite !Hk by set_solver. Qed.

Lemma live_intro opts l f :
  well_labelled -> live_ opts = Ok l -> live_details parse_userstr WORKSPACE_PORT cl f.2 = Some f ->
  f.2 ∈ cl_Pods cl -> owned opts f -> selects (live_selector opts) (wp_Labels f.2) = true ->
  (o_WorkspaceName opts = "" \/ found_name f = o_WorkspaceName opts) -> f ∈ l.
Proof.
  intros [Huniq _] Hl Hf Hp Hown Hsel Hname. destruct (live_details_read _ _ Hf) as [_ Hr].
  pose proof (proj2 (owned_matches opts f f.2 Hr) Hown) as Hm. revert Hl.
  unfold liveStandaloneWorkspaces. destruct (String.eqb_spec (o_WorkspaceName opts) "") as [Hn|Hn]; cbn [negb].
  - destruct (fails cl "list"); [done|]. intros [= <-]. apply list_elem_of_omap. exists f.2. rewrite Hm. split; [|done].
    by apply list_elem_of_In, filter_In; split; [apply list_elem_of_In|].
  - destruct (fails cl "get"); [done|]. destruct Hname as [|Hname]; [done|].
    destruct (List.find _ (cl_Pods cl)) as [q|] eqn:E.
    + apply find_some in E as [Hq Hqn%String.eqb_eq]. apply list_elem_of_In in Hq.
      assert (q = f.2) as ->.
      { apply Huniq; [done..|]. destruct Hr as (R & _). unfold found_name in Hname. congruence. }
      rewrite Hm, Hf. intros [= <-]. by left.
    + eapply find_none in E; [|by apply list_elem_of_In]. apply String.eqb_neq in E. destruct E.
      destruct Hr as (R & _). unfold found_name in Hname. congruence.
Qed.

Lemma stopped_narrow us org bp name nss l0 l f :
  well_labelled ->
  stopped_ (owner_options [] "" "" "" nss) = Ok l0 -> stopped_ (owner_options us org bp name nss) = Ok l ->
  f ∈ l0 -> wanted (owner_options us org bp name nss) f -> f ∈ l.
Proof.
  intros [_ Hrel]. unfold stoppedWorkspaces. destruct (fails cl "releases"); [done|].
  intros <-%Ok_inj <-%Ok_inj.
  rewrite !list_elem_of_omap. intros (rp & Hrp & Hf) Hw.
  apply list_elem_of_In, filter_In in Hrp as [Hrp Hsel]. apply list_elem_of_In in Hrp.
  destruct (stopped_details_read _ _ _ Hf) as (p & Hp & _ & Hr & _).
  destruct (Hrel rp p Hrp Hp) as [Hinst Hlab]. exists rp. split.
  - apply list_elem_of_In, filter_In. split; [by apply list_elem_of_In|]. revert Hsel.
    rewrite !release_selects, !andb_true_iff. intros (Hc & _ & _). split_and!; [done| |].
    + eapply selects_labels; [|by eapply wanted_selected]. intros k Hk. symmetry. by apply Hlab.
    + apply selects_when_set. cbn. destruct Hw as (_ & _ & [Hn|Hn]); [by left|right].
      rewrite Hinst. destruct Hr as (R & _). unfold found_name in Hn. cbn in Hn. congruence.
  - revert Hf. unfold stopped_details. rewrite Hp. cbn [owner_options o_CanonicalId].
    rewrite (proj2 (owned_matches _ _ _ Hr) (proj1 Hw)). by destruct (podMatchesWorkspaceFilters p _).
Qed.

Lemma injected_narrow us org bp name nss l0 l f :
  injected_workspaces parse_userstr WORKSPACE_PORT cl (owner_options [] "" "" "" nss) = Ok l0 ->
  injected_workspaces parse_userstr WORKSPACE_PORT cl (owner_options us org bp name nss) = Ok l ->
  f ∈ l0 -> wanted (owner_options us org bp name nss) f -> f ∈ l.
Proof.
  intros H0 H1 Hf Hw. destruct (injected_elem _ _ _ H0 Hf) as (items0 & I0 & Hin & Hd & _).
  destruct (live_details_read _ _ Hd) as [_ Hr]. unfold injected_workspaces in H1.
  destruct (injected_pods cl (owner_options us org bp name nss)) as [items|] eqn:I1; [|done].
  apply Ok_inj in H1 as <-. apply list_elem_of_omap. exists f.2. split.
  - apply (injected_pods_elem _ _ _ I1). apply (injected_pods_elem _ _ _ I0) in Hin as (ns & Hns & Hp & Hnp & Hsel).
    exists ns. split_and!; [exact Hns|exact Hp|exact Hnp|]. revert Hsel.
    rewrite !injected_selects, !andb_true_iff. intros (Hc & _ & Hrest). split_and!; [done| |done].
    by eapply wanted_selected.
  - destruct Hw as (_ & _ & Hn). destruct Hr as (R & _). unfold found_name in Hn. cbn [owner_options o_WorkspaceName] in *.
    destruct Hn as [->|Hn]; [done|]. rewrite <- Hn, <- R, String.eqb_refl, orb_true_r. done.
Qed.

(** The stopped workspaces that are not among the live ones. *)
Definition not_live (live stopped : list found) : list found :=
  List.filter (fun f => negb (existsb (fun g => String.eqb (found_name g) (found_name f)) live)) stopped.

Lemma GetWorkspaces_parts us org bp name nss l :
  get_ (owner_options us org bp name nss) = Ok l ->
  exists live stopped injected, live_ (owner_options us org bp name nss) = Ok live /\
    stopped_ (owner_options us org bp name nss) = Ok stopped /\
    injected_workspaces parse_userstr WORKSPACE_PORT cl (owner_options us org bp name nss) = Ok injected /\
    l = (live ++ not_live live stopped) ++ injected.
Proof.
  unfold GetWorkspaces, standalone_workspaces.
  change (o_InjectKind (owner_options us org bp name nss)) with "".
  change (o_InjectWorkload (owner_options us org bp name nss)) with "". cbn [String.eqb negb andb].
  destruct (live_ _) as [live|]; [|done]. destruct (stopped_ _) as [stopped|]; [|done].
  destruct (injected_workspaces _ _ _ _) as [injected|]; [|done].
  intros <-%Ok_inj. by exists live, stopped, injected.
Qed.

(** Restricting a lookup by owner and name loses nothing: whatever the
    unrestricted lookup finds that meets the restriction, the restricted one
    finds too, live, stopped or injected. *)
Lemma GetWorkspaces_narrow us org bp name nss l0 l f :
  well_labelled ->
  get_ (owner_options [] "" "" "" nss) = Ok l0 -> get_ (owner_options us org bp name nss) = Ok l ->
  f ∈ l0 -> wanted (owner_options us org bp name nss) f -> f ∈ l.
Proof.
  intros Hwl (live0 & stop0 & inj0 & L0 & S0 & I0 & ->)%GetWorkspaces_parts
    (live1 & stop1 & inj1 & L1 & S1 & I1 & ->)%GetWorkspaces_parts.
  set (o0 := owner_options [] "" "" "" nss) in *. set (o1 := owner_options us org bp name nss) in *.
  rewrite !elem_of_app. intros [[Hf|Hf]|Hf] Hw; pose proof Hw as (Hown & _ & Hname).
  - left. left. destruct (elem_of_live o0 live0 f L0 Hf) as (Hd & Hp & _ & _).
    destruct (live_details_read _ _ Hd) as [_ Hr]. eapply (live_intro o1); try done.
    unfold live_selector. rewrite sel_app. apply andb_true_iff.
    split; [by apply (wanted_selected us org bp name nss f)|done].
  - left. right. apply list_elem_of_In, filter_In in Hf as [Hf Hdead]. apply list_elem_of_In, filter_In. split.
    + apply list_elem_of_In. by eapply stopped_narrow; [|exact S0|exact S1|apply list_elem_of_In|].
    + apply negb_true_iff, not_true_iff_false. intros (g & Hg & Hgn)%existsb_exists. apply list_elem_of_In in Hg.
      destruct (elem_of_live o1 live1 g L1 Hg) as (Hd & Hp & Hm & _).
      destruct (live_details_read _ _ Hd) as [_ Hr].
      assert (g ∈ live0).
      { eapply (live_intro o0); try done; [|by left]. by split_and!; left. }
      apply negb_true_iff, not_true_iff_false in Hdead. destruct Hdead. apply existsb_exists. exists g.
      split; [by apply list_elem_of_In|done].
  - right. by eapply injected_narrow.
Qed.
Lemma stopped_widen us org bp name nss l0 l f :
  stopped_ (owner_options [] "" "" "" nss) = Ok l0 -> stopped_ (owner_options us org bp name nss) = Ok l ->
  f ∈ l -> f ∈ l0 /\ exists rp, rp ∈ cl_Releases cl /\ rp_Pod rp = Some f.2.
Proof.
  unfold stoppedWorkspaces. destruct (fails cl "releases"); [done|]. intros <-%Ok_inj <-%Ok_inj.
  rewrite !list_elem_of_omap. intros (rp & Hrp & Hf). apply list_elem_of_In, filter_In in Hrp as [Hrp Hsel].
  apply list_elem_of_In in Hrp. destruct (stopped_details_read _ _ _ Hf) as (p & Hp & <- & _ & _). split; [|by exists rp].
  exists rp. split.
  - apply list_elem_of_In, filter_In. split; [by apply list_elem_of_In|]. revert Hsel.
    rewrite !release_selects, !andb_true_iff. by intros (Hc & _ & _).
  - revert Hf. unfold stopped_details. rewrite Hp. by destruct (podMatchesWorkspaceFilters f.2 _).
Qed.

Lemma injected_widen us org bp name nss l0 l f :
  injected_workspaces parse_userstr WORKSPACE_PORT cl (owner_options [] "" "" "" nss) = Ok l0 ->
  injected_workspaces parse_userstr WORKSPACE_PORT cl (owner_options us org bp name nss) = Ok l ->
  f ∈ l -> f ∈ l0.
Proof.
  intros H0 H1 Hf. destruct (injected_elem _ _ _ H1 Hf) as (items & I1 & Hin & Hd & _).
  unfold injected_workspaces in H0. destruct (injected_pods cl (owner_options [] "" "" "" nss)) as [items0|] eqn:I0; [|done].
  apply Ok_inj in H0 as <-. apply list_elem_of_omap. exists f.2. split; [|done].
  apply (injected_pods_elem _ _ _ I0). apply (injected_pods_elem _ _ _ I1) in Hin as (ns & Hns & Hp & Hnp & Hsel).
  exists ns. split_and!; [exact Hns|exact Hp|exact Hnp|]. revert Hsel.
  rewrite !injected_selects, !andb_true_iff. by intros (Hc & _ & Hrest).
Qed.

(** What a restricted lookup finds and the unrestricted one does not: the
    workspace of a stopped release, left out there because a live pod has its
    name, one that the restriction keeps out. *)
Lemma GetWorkspaces_widen us org bp name nss l0 l f :
  well_labelled ->
  get_ (owner_options [] "" "" "" nss) = Ok l0 -> get_ (owner_options us org bp name nss) = Ok l ->
  f ∈ l ->
  f ∈ l0 \/
  (exists rp, rp ∈ cl_Releases cl /\ rp_Pod rp = Some f.2) /\
  exists g, g ∈ l0 /\ g.2 ∈ cl_Pods cl /\ found_name g = found_name f /\ ~ wanted (owner_options us org bp name nss) g.
Proof.
  intros Hwl (live0 & stop0 & inj0 & L0 & S0 & I0 & ->)%GetWorkspaces_parts
    (live1 & stop1 & inj1 & L1 & S1 & I1 & ->)%GetWorkspaces_parts.
  set (o1 := owner_options us org bp name nss) in *. rewrite !elem_of_app. intros [[Hf|Hf]|Hf].
  - left; left; left. destruct (elem_of_live o1 live1 f L1 Hf) as (Hd & Hp & _ & _).
    eapply live_intro; try done; [|by left]. by split_and!; left.
  - apply list_elem_of_In, filter_In in Hf as [Hf Hdead]. apply list_elem_of_In in Hf.
    destruct (stopped_widen us org bp name nss stop0 stop1 f S0 S1 Hf) as [Hf0 Hrp].
    destruct (existsb (fun g => String.eqb (found_name g) (found_name f)) live0) eqn:E.
    + right. split; [done|]. apply existsb_exists in E as (g & Hg & Hgn%String.eqb_eq). apply list_elem_of_In in Hg.
      destruct (elem_of_live _ live0 g L0 Hg) as (Hd & Hp & _ & _). exists g. rewrite !elem_of_app.
      split; [by left; left|]. split; [done|]. split; [done|]. intros Hw. pose proof Hw as (Hown & _ & Hn).
      destruct (live_details_read _ _ Hd) as [_ Hr].
      assert (g ∈ live1).
      { eapply (live_intro o1); try done. unfold live_selector. rewrite sel_app. apply andb_true_iff.
        split; [by apply (wanted_selected us org bp name nss g)|done]. }
      apply negb_true_iff, not_true_iff_false in Hdead. destruct Hdead. apply existsb_exists. exists g.
      split; [by apply list_elem_of_In|by apply String.eqb_eq].
    + left; left; right. apply list_elem_of_In, filter_In. split; [by apply list_elem_of_In|by rewrite E].
  - left; right. by eapply injected_widen.
Qed.
End narrowing.
