(* ===== verification/Query.v ===== *)
(** * Queries

    internal/workspace/query.go and internal/blueprint/query.go: filters, sorting
    and paging of workspaces and blueprints in memory, under the restriction
    that the caller's obligations impose, and the part of a query that is pushed
    down into the lookup of the workspaces. *)

From S2P Require Import Prelude GoStrings PodState Workspaces.

(** ** The messages of query.v1 *)

Inductive Operator : Type :=
| OPERATOR_EQ | OPERATOR_NE | OPERATOR_IN | OPERATOR_EXISTS
| OPERATOR_GT | OPERATOR_GTE | OPERATOR_LT | OPERATOR_LTE | OPERATOR_UNSPECIFIED.

#[export] Instance operator_eq_dec : EqDecision Operator.
Proof. solve_decision. Defined.

Inductive FieldType : Type := FIELD_TYPE_STRING | FIELD_TYPE_BOOLEAN | FIELD_TYPE_DATETIME.

Record Condition : Type := mkCondition { q_Field : string; q_Op : Operator; q_Values : list string }.

Record Filters : Type := mkFilters { q_Or : bool; q_Conditions : list Condition }.

Record Sort : Type := mkSort { s_Field : string; s_Desc : bool }.

Record Page : Type := mkPage { pg_Offset : Z; pg_Limit : Z }.

(** Absent filters are an empty conjunction. *)
Record Payload : Type := mkPayload {
  q_Filters : Filters;
  q_Sort : list Sort;
  q_Page : option Page;
}.

(** [NoValues] is the panic of indexing an empty list of values, which the
    validation of the payload excludes. *)
Inductive query_error : Type :=
| InvalidPayload
| UnknownField (name : string)
| UnsupportedOperator (op : Operator)
| InvalidDatetime (value : string)
| InvalidBoolean (value : string)
| InvalidQuantity (value : string)
| NoValues
| NoIdentityClient
| UsersFailed
| LookupFailed (e : lookup_error).

(** ** Glob patterns *)

(** src/internal/workspace/query.go:626-652 globMatchLower *)
Fixpoint globMatchLower (pattern value : string) : bool :=
  match pattern with
  | EmptyString => String.eqb value ""
  | String c pattern' =>
      if Ascii.eqb c (Ascii.ascii_of_nat 42) then
        if String.eqb pattern' "" then true
        else (fix suffixes (value : string) : bool :=
                globMatchLower pattern' value ||
                match value with EmptyString => false | String _ value => suffixes value end) value
      else if Ascii.eqb c (Ascii.ascii_of_nat 63) then
        match value with EmptyString => false | String _ value' => globMatchLower pattern' value' end
      else
        match value with
        | EmptyString => false
        | String d value' => Ascii.eqb d c && globMatchLower pattern' value'
        end
  end.

(** ** The engine *)

(** [strconv.ParseBool]. *)
Definition parse_bool (s : string) : option bool :=
  if existsb (String.eqb s) ["1"; "t"; "T"; "TRUE"; "true"; "True"] then Some true
  else if existsb (String.eqb s) ["0"; "f"; "F"; "FALSE"; "false"; "False"] then Some false
  else None.

Section engine.
(** [strings.ToLower] and [strings.EqualFold]. *)
Variable ToLower : string -> string.
Variable EqualFold : string -> string -> bool.
(** [time.Parse(time.RFC3339, _)] and [query.ParseValue] of a date, as instants. *)
Variable parse_rfc3339 parse_datetime : string -> option Z.
(** quantityToFloat: what a quantity measures, as a number that orders like it. *)
Variable quantityToFloat : string -> option Z.

(** What is queried: its fields with the value of a record and whether it is
    set, their types, and which of them are quantities. *)
Context {R : Type}.
Variable fieldValues : string -> option (R -> string * bool).
Variable fieldType : string -> FieldType.
Variable quantityFields : string -> bool.

(** src/internal/workspace/query.go:622-624 globMatch *)
Definition globMatch (pattern value : string) : bool := globMatchLower (ToLower pattern) (ToLower value).

Definition compare_op (op : Operator) (a b : Z) : result query_error bool :=
  match op with
  | OPERATOR_EQ => Ok (Z.eqb a b)
  | OPERATOR_GT => Ok (b <? a)%Z
  | OPERATOR_GTE => Ok (b <=? a)%Z
  | OPERATOR_LT => Ok (a <? b)%Z
  | OPERATOR_LTE => Ok (a <=? b)%Z
  | _ => Err (UnsupportedOperator op)
  end.

(** src/internal/workspace/query.go:592-617 matchesDatetime *)
Definition matchesDatetime (fieldValue : string) (op : Operator) (raw : string) : result query_error bool :=
  match parse_rfc3339 fieldValue with
  | None => Err (InvalidDatetime fieldValue)
  | Some fieldTime =>
      match parse_datetime raw with
      | None => Err (InvalidDatetime raw)
      | Some condTime => compare_op op fieldTime condTime
      end
  end.

(** src/internal/workspace/query.go:548-560 matchesBoolean *)
Definition matchesBoolean (fieldValue raw : string) : result query_error bool :=
  match parse_bool fieldValue with
  | None => Err (InvalidBoolean fieldValue)
  | Some fv => match parse_bool raw with None => Err (InvalidBoolean raw) | Some cv => Ok (Bool.eqb fv cv) end
  end.

(** src/internal/workspace/query.go:562-590 matchesQuantity *)
Definition matchesQuantity (fieldValue : string) (op : Operator) (raw : string) : result query_error bool :=
  match quantityToFloat fieldValue with
  | None => Err (InvalidQuantity fieldValue)
  | Some fv =>
      match quantityToFloat raw with None => Err (InvalidQuantity raw) | Some cv => compare_op op fv cv end
  end.

(** [c.GetValues()[0]]. *)
Definition first_value (c : Condition) : result query_error string :=
  match q_Values c with [] => Err NoValues | v :: _ => Ok v end.

(** The match of EQ for a field that is set.

    src/internal/workspace/query.go:499-517 matchesCondition *)
Definition matches_eq (c : Condition) (value : string) : result query_error bool :=
  match first_value c with
  | Err e => Err e
  | Ok v =>
      match fieldType (q_Field c) with
      | FIELD_TYPE_DATETIME => matchesDatetime value OPERATOR_EQ v
      | FIELD_TYPE_BOOLEAN => matchesBoolean value v
      | FIELD_TYPE_STRING =>
          if quantityFields (q_Field c) then matchesQuantity value OPERATOR_EQ v else Ok (globMatch v value)
      end
  end.

(** src/internal/workspace/query.go:482-546 matchesCondition *)
Definition matchesCondition (r : R) (c : Condition) : result query_error bool :=
  match fieldValues (q_Field c) with
  | None => Err (UnknownField (q_Field c))
  | Some extract =>
      let '(value, present) := extract r in
      match q_Op c with
      | OPERATOR_EXISTS =>
          let want := match q_Values c with [v] => String.eqb v "true" | _ => true end in
          Ok (Bool.eqb present want)
      | OPERATOR_EQ => if present then matches_eq c value else Ok false
      | OPERATOR_NE => if present then negb <$> matches_eq c value else Ok true
      | OPERATOR_IN => Ok (present && existsb (fun v => EqualFold v value) (q_Values c))
      | OPERATOR_GT | OPERATOR_GTE | OPERATOR_LT | OPERATOR_LTE =>
          if present then
            match first_value c with
            | Err e => Err e
            | Ok v => if quantityFields (q_Field c) then matchesQuantity value (q_Op c) v
                      else matchesDatetime value (q_Op c) v
            end
          else Ok false
      | OPERATOR_UNSPECIFIED => Err (UnsupportedOperator (q_Op c))
      end
  end.

(** src/internal/workspace/query.go:466-480 matchesFilters *)
Fixpoint match_all (or : bool) (r : R) (conditions : list Condition) : result query_error bool :=
  match conditions with
  | [] => Ok (negb or)
  | c :: conditions =>
      match matchesCondition r c with
      | Err e => Err e
      | Ok matched =>
          if or && matched then Ok true
          else if negb or && negb matched then Ok false
          else match_all or r conditions
      end
  end.

(** src/internal/workspace/query.go:460-480 matchesFilters *)
Definition matchesFilters (r : R) (filters : Filters) : result query_error bool :=
  match q_Conditions filters with
  | [] => Ok true
  | conditions => match_all (q_Or filters) r conditions
  end.

(** The loop that keeps what [keep] accepts and the filters match.

    src/internal/workspace/query.go:362-375 QueryWorkspaces *)
Fixpoint filter_matching (keep : R -> bool) (filters : Filters) (l : list R) : result query_error (list R) :=
  match l with
  | [] => Ok []
  | r :: l =>
      if keep r then
        match matchesFilters r filters with
        | Err e => Err e
        | Ok matched =>
            match filter_matching keep filters l with
            | Err e => Err e
            | Ok rest => Ok (if matched then r :: rest else rest)
            end
        end
      else filter_matching keep filters l
  end.

(** ** Sorting *)

(** src/internal/workspace/query.go:665-682 sortWorkspaces *)
Definition value_less (s : Sort) (vi vj : string) : bool :=
  let text := String.ltb vi vj in
  let less :=
    if quantityFields (s_Field s) then
      match quantityToFloat vi, quantityToFloat vj with
      | Some fi, Some fj => (fi <? fj)%Z
      | _, _ => text
      end
    else text in
  if s_Desc s then negb less else less.

(** src/internal/workspace/query.go:654-686 sortWorkspaces *)
Fixpoint sort_less (sorts : list Sort) (ri rj : R) : bool :=
  match sorts with
  | [] => false
  | s :: sorts =>
      match fieldValues (s_Field s) with
      | None => sort_less sorts ri rj
      | Some extract =>
          let vi := (extract ri).1 in
          let vj := (extract rj).1 in
          if String.eqb vi vj then sort_less sorts ri rj else value_less s vi vj
      end
  end.
End engine.

(** [sort.SliceStable] as it runs on up to twenty elements, by insertion; on more
    it gives the same result when [less] is a strict weak order. The sorted part
    is kept last first. *)
Fixpoint insert_back {R} (less : R -> R -> bool) (x : R) (rsorted : list R) : list R :=
  match rsorted with
  | [] => [x]
  | y :: rs => if less x y then y :: insert_back less x rs else x :: y :: rs
  end.

Definition slice_stable {R} (less : R -> R -> bool) (l : list R) : list R :=
  List.rev (foldl (fun rs x => insert_back less x rs) [] l).

(** src/internal/workspace/query.go:688-704 pageWorkspaces *)
Definition page_list {R} (l : list R) (page : option Page) : list R :=
  match page with
  | None => l
  | Some page =>
      let offset := Z.max 0 (pg_Offset page) in
      let len := Z.of_nat (length l) in
      if (len <? offset)%Z then []
      else
        let limit := pg_Limit page in
        let end_ := if (0 <? limit)%Z && (offset + limit <? len)%Z then (offset + limit)%Z else len in
        take (Z.to_nat (end_ - offset)) (drop (Z.to_nat offset) l)
  end.

(** ** Workspaces *)

Section workspaces.
Variable ToLower : string -> string.
Variable EqualFold : string -> string -> bool.
Variable parse_rfc3339 parse_datetime : string -> option Z.
(** [Format(time.RFC3339)] of a UTC time. *)
Variable format_rfc3339 : Z -> string.
Variable quantityToFloat : string -> option Z.
(** The texts of [models.WorkspaceStatusMessage] and [models.WorkspaceType]. *)
Variable status_text : WorkspaceStatusMessage -> string.
Variable type_text : WorkspaceType -> string.

Definition set_if_nonempty (f : WorkspaceDetails -> string) (w : Workspace) : string * bool :=
  let v := f (ws_Details w) in (v, negb (String.eqb v "")).

(** src/internal/workspace/query.go:110-153 workspaceFieldValues *)
Definition workspaceFieldValues (name : string) : option (Workspace -> string * bool) :=
  let named (s : string) := String.eqb name s in
  if named "name" then Some (set_if_nonempty w_Name)
  else if named "username" then Some (set_if_nonempty w_Username)
  else if named "organization" then Some (set_if_nonempty w_Organization)
  else if named "blueprint" then Some (set_if_nonempty w_Blueprint)
  else if named "origin" then Some (set_if_nonempty w_Origin)
  else if named "namespace" then Some (set_if_nonempty w_Namespace)
  else if named "status" then Some (fun w => let s := status_text (ws_Status w) in (s, negb (String.eqb s "")))
  else if named "repo_owner" then Some (set_if_nonempty w_RepoOwner)
  else if named "repo_name" then Some (set_if_nonempty w_RepoName)
  else if named "repo_ref" then Some (set_if_nonempty w_RepoRef)
  else if named "workspace_type" then Some (set_if_nonempty (fun d => type_text (w_WorkspaceType d)))
  else if named "runtime" then Some (set_if_nonempty w_Runtime)
  else if named "workload_kind" then Some (set_if_nonempty w_WorkloadKind)
  else if named "workload_name" then Some (set_if_nonempty w_WorkloadName)
  else if named "network_policy_class" then Some (set_if_nonempty w_NetworkPolicyClass)
  else if named "web_proxy_port" then
    Some (fun w => (pretty (w_WebProxyPort (ws_Details w)), negb (Z.eqb (w_WebProxyPort (ws_Details w)) 0)))
  else if named "cpu" then Some (set_if_nonempty w_CPU)
  else if named "memory" then Some (set_if_nonempty w_Memory)
  else if named "created" then
    Some (fun w => if Z.eqb (ws_Created w) 0 then ("", false) else (format_rfc3339 (ws_Created w), true))
  else if named "blueprint_revision" then Some (set_if_nonempty w_BlueprintRevision)
  else if named "blueprint_outdated" then
    Some (fun w => match ws_Outdated w with
                   | None => ("", false) | Some b => (if b then "true" else "false", true) end)
  else None.

(** The types the descriptor declares.

    src/internal/workspace/query.go:451-458 fieldType *)
Definition workspaceFieldType (name : string) : FieldType :=
  if String.eqb name "created" then FIELD_TYPE_DATETIME
  else if String.eqb name "blueprint_outdated" then FIELD_TYPE_BOOLEAN
  else FIELD_TYPE_STRING.

(** src/internal/workspace/query.go:155-161 quantityFields *)
Definition quantityFields (name : string) : bool := String.eqb name "cpu" || String.eqb name "memory".

Definition workspace_matches : Workspace -> Filters -> result query_error bool :=
  matchesFilters ToLower EqualFold parse_rfc3339 parse_datetime quantityToFloat
    workspaceFieldValues workspaceFieldType quantityFields.

(** src/internal/workspace/query.go:654-686 sortWorkspaces *)
Definition sortWorkspaces (l : list Workspace) (sorts : list Sort) : list Workspace :=
  match sorts with
  | [] => l
  | _ => slice_stable (sort_less quantityToFloat workspaceFieldValues quantityFields sorts) l
  end.

(** ** Obligations *)

(** What the gateway's obligations ask for, as parsed by authz. *)
Record Obligations : Type := mkObligations {
  obl_Org : option string;
  obl_Username : option string;
  obl_Roles : option (list string);
}.

(** [None] for the user names: unrestricted.

    src/internal/workspace/query.go:175-184 obligationScope *)
Record obligationScope : Type := mkScope { sc_organization : string; sc_usernames : option (list string) }.

Definition contains_fold (l : list string) (s : string) : bool := existsb (fun u => EqualFold u s) l.

(** src/internal/workspace/query.go:186-198 matches *)
Definition scope_matches (s : obligationScope) (w : Workspace) : bool :=
  (String.eqb (sc_organization s) "" || EqualFold (w_Organization (ws_Details w)) (sc_organization s)) &&
  match sc_usernames s with
  | None => true
  | Some us => contains_fold us (w_Username (ws_Details w))
  end.

(** src/internal/workspace/query.go:288-306 intersectUsernames *)
Definition intersectUsernames (a b : option (list string)) : option (list string) :=
  match a, b with
  | None, _ => b
  | _, None => a
  | Some a, Some b => Some (List.filter (contains_fold b) a)
  end.

(** A page of the identity service: the user names from an offset on. [None]
    when the fuel runs out.

    src/internal/workspace/query.go:258-286 usernamesWithRoles *)
Fixpoint usernamesWithRoles (fuel : nat) (GetUsers : nat -> option (list string)) (offset : nat)
    (usernames : list string) : option (result query_error (list string)) :=
  match fuel with
  | O => None
  | S fuel =>
      match GetUsers offset with
      | None => Some (Err UsersFailed)
      | Some [] => Some (Ok usernames)
      | Some users => usernamesWithRoles fuel GetUsers (offset + length users) (usernames ++ users)
      end
  end.

(** The user names that hold a role, as [roleUsernames] answers; [None] without
    an identity client.

    src/internal/workspace/query.go:214-251 resolveObligationScope *)
Definition resolveObligationScope (roleUsernames : option (list string -> result query_error (list string)))
    (ob : Obligations) : result query_error obligationScope :=
  let organization := default "" (obl_Org ob) in
  let usernames := (fun u => [u]) <$> obl_Username ob in
  match obl_Roles ob with
  | None | Some [] => Ok (mkScope organization usernames)
  | Some roles =>
      match roleUsernames with
      | None => Err NoIdentityClient
      | Some lookup =>
          match lookup roles with
          | Err e => Err e
          | Ok us => Ok (mkScope organization (intersectUsernames usernames (Some us)))
          end
      end
  end.

(** ** Pushing conditions down *)

Definition wildcard (c : Ascii.ascii) : bool :=
  Ascii.eqb c (Ascii.ascii_of_nat 42) || Ascii.eqb c (Ascii.ascii_of_nat 63).

(** src/internal/workspace/query.go:435-449 pushableValues *)
Definition pushableValues (op : Operator) (values : list string) : list string :=
  match op with
  | OPERATOR_EQ | OPERATOR_IN =>
      if existsb (fun v => existsb wildcard (to_bytes v)) values then [] else values
  | _ => []
  end.

Definition single (l : list string) : string := match l with [v] => v | _ => "" end.

(** One condition of the loop; an option that is set is kept.

    src/internal/workspace/query.go:401-430 pushdownOptionsFromPayload *)
Definition push_condition (opts : GetWorkspacesOptions) (c : Condition) : GetWorkspacesOptions :=
  let '(mkOptions us org bp name cid nss wl kind) := opts in
  let values := pushableValues (q_Op c) (q_Values c) in
  let keep (cur : string) := if String.eqb cur "" then single values else cur in
  if String.eqb (q_Field c) "username"
  then mkOptions (match us with [] => values | _ => us end) org bp name cid nss wl kind
  else if String.eqb (q_Field c) "organization" then mkOptions us (keep org) bp name cid nss wl kind
  else if String.eqb (q_Field c) "blueprint" then mkOptions us org (keep bp) name cid nss wl kind
  else if String.eqb (q_Field c) "name" then mkOptions us org bp (keep name) cid nss wl kind
  else opts.

(** src/internal/workspace/query.go:384-433 pushdownOptionsFromPayload *)
Definition pushdownOptionsFromPayload (filters : Filters) (nss : list string) : GetWorkspacesOptions :=
  let none := mkOptions [] "" "" "" "" nss "" "" in
  if q_Or filters then none else foldl push_condition none (q_Conditions filters).

(** No user names is no restriction of the lookup, as in the options.

    src/internal/workspace/query.go:200-212 narrow *)
Definition narrow (s : obligationScope) (opts : GetWorkspacesOptions) : GetWorkspacesOptions :=
  let '(mkOptions us org bp name cid nss wl kind) := opts in
  let pushed := match us with [] => None | _ => Some us end in
  mkOptions
    match sc_usernames s with
    | None => us
    | Some sus => default [] (intersectUsernames pushed (Some sus))
    end
    (if String.eqb (sc_organization s) "" then org else sc_organization s)
    bp name cid nss wl kind.

(** ** The query *)
Variable valid : Payload -> bool.
Variable roleUsernames : option (list string -> result query_error (list string)).
(** [GetWorkspaces] on the cluster as it is. *)
Variable lookup : GetWorkspacesOptions -> result lookup_error (list found).
Variable currentRevision : option (string -> string -> string).

Definition default_sort : list Sort := [mkSort "name" false].

(** src/internal/workspace/query.go:330-382 QueryWorkspaces *)
Definition QueryWorkspaces (payload : Payload) (ob : Obligations) (injectNamespaces : list string)
    : result query_error (list Workspace) :=
  if negb (valid payload) then Err InvalidPayload
  else
    match resolveObligationScope roleUsernames ob with
    | Err e => Err e
    | Ok scope =>
        match sc_usernames scope with
        | Some [] => Ok []
        | _ =>
            let opts := narrow scope (pushdownOptionsFromPayload (q_Filters payload) injectNamespaces) in
            match lookup opts with
            | Err e => Err (LookupFailed e)
            | Ok fs =>
                match filter_matching ToLower EqualFold parse_rfc3339 parse_datetime quantityToFloat
                        workspaceFieldValues workspaceFieldType quantityFields
                        (scope_matches scope) (q_Filters payload)
                        (MarkBlueprintOutdated currentRevision (fst <$> fs)) with
                | Err e => Err e
                | Ok filtered =>
                    let sorts := match q_Sort payload with [] => default_sort | sorts => sorts end in
                    Ok (page_list (sortWorkspaces filtered sorts) (q_Page payload))
                end
            end
        end
    end.
End workspaces.

(** ** Lemmas *)

(** What a pattern means. *)
Inductive glob_matches : string -> string -> Prop :=
| glob_nil : glob_matches "" ""
| glob_star p pre v : glob_matches p v -> glob_matches (String (Ascii.ascii_of_nat 42) p) (pre +:+ v)
| glob_any p c v : glob_matches p v -> glob_matches (String (Ascii.ascii_of_nat 63) p) (String c v)
| glob_char c p v :
    c <> Ascii.ascii_of_nat 42 -> c <> Ascii.ascii_of_nat 63 ->
    glob_matches p v -> glob_matches (String c p) (String c v).

Definition star_suffixes (p : string) : string -> bool :=
  fix suffixes (value : string) : bool :=
    globMatchLower p value ||
    match value with EmptyString => false | String _ value => suffixes value end.

Lemma star_suffixes_spec p v :
  star_suffixes p v = true <-> exists pre v', v = pre +:+ v' /\ globMatchLower p v' = true.
Proof.
  split.
  - induction v as [|c v IH]; cbn [star_suffixes]; intros [H|H]%orb_true_iff; try done.
    + by exists "", "".
    + by exists "", (String c v).
    + destruct (IH H) as (pre & v' & -> & Hm). by exists (String c pre), v'.
  - intros (pre & v' & -> & Hm). induction pre as [|c pre IH].
    + rewrite string_app_nil_l. destruct v'; cbn [star_suffixes]; by rewrite Hm.
    + rewrite string_app_cons. cbn [star_suffixes]. by rewrite IH, orb_true_r.
Qed.

(** The recursive matcher decides the meaning of patterns: a star stands for
    any run of bytes, a question mark for one byte, any other byte for itself. *)
Theorem globMatchLower_spec p v : globMatchLower p v = true <-> glob_matches p v.
Proof.
  revert v. induction p as [|c p IH]; intros v.
  { cbn. rewrite String.eqb_eq. split; [intros ->; constructor|by inversion 1]. }
  cbn [globMatchLower]. destruct (Ascii.eqb_spec c (Ascii.ascii_of_nat 42)) as [->|H1].
  { fold (star_suffixes p). split.
    - destruct (String.eqb_spec p "") as [->|_].
      + intros _. rewrite <- (string_app_nil_r v). constructor. constructor.
      + intros (pre & v' & -> & Hm)%star_suffixes_spec. constructor. by apply IH.
    - intros H. destruct (String.eqb p ""); [done|]. apply star_suffixes_spec.
      inversion H as [|? pre v' Hm| |]; subst; [|done]. exists pre, v'. by rewrite IH. }
  destruct (Ascii.eqb_spec c (Ascii.ascii_of_nat 63)) as [->|H2].
  - destruct v as [|d v]; [split; [done|by inversion 1]|]. rewrite IH.
    split; [by constructor|]. inversion 1; subst; [|done..]. done.
  - destruct v as [|d v]; [split; [done|inversion 1; subst; done]|].
    rewrite andb_true_iff, Ascii.eqb_eq, IH. split; [intros [-> ?]; by constructor|].
    inversion 1; subst; done.
Qed.

Lemma insert_back_perm {R} (less : R -> R -> bool) x l : insert_back less x l ≡ₚ x :: l.
Proof.
  induction l as [|y l IH]; cbn; [done|]. destruct (less x y); [|done]. rewrite IH. constructor.
Qed.

Lemma slice_stable_perm {R} (less : R -> R -> bool) l : slice_stable less l ≡ₚ l.
Proof.
  unfold slice_stable. rewrite <- Permutation_rev.
  assert (H : forall acc, foldl (fun rs x => insert_back less x rs) acc l ≡ₚ l ++ acc); [|by rewrite (H []), app_nil_r].
  induction l as [|x l IH]; intros acc; cbn; [done|]. rewrite IH, insert_back_perm. by rewrite Permutation_middle.
Qed.

(** A relation under which sorting by comparison is determined. *)
Record weak_order {R} (less : R -> R -> bool) : Prop := {
  wo_asym : forall x y, less x y = true -> less y x = false;
  wo_trans : forall x y z, less x y = false -> less y z = false -> less x z = false;
}.

Definition tied {R} (less : R -> R -> bool) (x y : R) : bool := negb (less x y) && negb (less y x).

Lemma tied_true {R} (less : R -> R -> bool) x y : tied less x y = true <-> less x y = false /\ less y x = false.
Proof. unfold tied. by rewrite andb_true_iff, !negb_true_iff. Qed.

Section sorting.
Context {R : Type} (less : R -> R -> bool) (Hwo : weak_order less).

Lemma insert_back_sorted x rs :
  StronglySorted (fun a b => less a b = false) rs -> StronglySorted (fun a b => less a b = false) (insert_back less x rs).
Proof.
  induction 1 as [|y rs Hrs IH Hy]; cbn [insert_back]; [by repeat constructor|].
  destruct (less x y) eqn:E.
  - constructor; [done|]. rewrite insert_back_perm. constructor; [by apply (wo_asym _ Hwo)|done].
  - constructor; [by constructor|]. constructor; [done|]. eapply Forall_impl; [exact Hy|].
    intros z Hz. by eapply (wo_trans _ Hwo).
Qed.

Lemma insert_back_tied r x rs :
  List.filter (tied less r) (insert_back less x rs) = List.filter (tied less r) (x :: rs).
Proof.
  induction rs as [|y rs IH]; [done|]. cbn [insert_back]. destruct (less x y) eqn:E; [|done].
  cbn [List.filter] in *. rewrite IH. destruct (tied less r y) eqn:Ey, (tied less r x) eqn:Ex; try done.
  apply tied_true in Ey as [Ey _], Ex as [_ Ex].
  by rewrite (wo_trans _ Hwo x r y) in E.
Qed.

Lemma StronglySorted_rev (P : R -> R -> Prop) l :
  StronglySorted P l -> StronglySorted (flip P) (List.rev l).
Proof.
  induction 1 as [|x l Hl IH Hx]; cbn; [constructor|]. apply StronglySorted_app. split_and!; [|done|by repeat constructor].
  intros y z Hy%list_elem_of_In%in_rev%list_elem_of_In ->%list_elem_of_singleton.
  rewrite Forall_forall in Hx. by apply Hx.
Qed.

(** Stable sorting: a permutation, in order, that keeps the order of ties. *)
Lemma slice_stable_spec l :
  slice_stable less l ≡ₚ l /\ StronglySorted (fun a b => less b a = false) (slice_stable less l) /\
  forall r, List.filter (tied less r) (slice_stable less l) = List.filter (tied less r) l.
Proof.
  split; [apply slice_stable_perm|]. unfold slice_stable.
  assert (H : forall l acc, StronglySorted (fun a b => less a b = false) acc ->
    StronglySorted (fun a b => less a b = false) (foldl (fun rs x => insert_back less x rs) acc l) /\
    forall r, List.filter (tied less r) (foldl (fun rs x => insert_back less x rs) acc l) =
              List.rev (List.filter (tied less r) l) ++ List.filter (tied less r) acc).
  { clear l. induction l as [|x l IH]; intros acc Hacc; cbn [foldl]; [done|].
    destruct (IH (insert_back less x acc)) as [H1 H2]; [by apply insert_back_sorted|]. split; [done|].
    intros r. rewrite H2, insert_back_tied. cbn [List.filter].
    destruct (tied less r x); cbn; [by rewrite <- app_assoc|done]. }
  destruct (H l []) as [H1 H2]; [constructor|]. split; [exact (StronglySorted_rev _ _ H1)|].
  intros r. rewrite filter_rev, H2. cbn. by rewrite app_nil_r, rev_involutive.
Qed.
End sorting.

Lemma ltb_leb s t : String.ltb s t = negb (String.leb t s).
Proof. unfold String.ltb, String.leb. rewrite String.compare_antisym. by destruct (String.compare t s). Qed.

Lemma leb_trans s t u : String.leb s t = true -> String.leb t u = true -> String.leb s u = true.
Proof. rewrite !leb_le. apply transitivity. Qed.

(** Decide by cases on the comparisons. *)
Ltac solve_leb :=
  repeat match goal with
    | H : true = true -> _ |- _ => specialize (H eq_refl)
    | H : false = true -> _ |- _ => clear H
    | H : true = true \/ _ |- _ => clear H
    | H : _ \/ true = true |- _ => clear H
    | H : false = true \/ _ |- _ => destruct H; [discriminate|]
    | H : true = false |- _ => discriminate H
    | H : false = true |- _ => discriminate H
    | H : context [String.leb ?u ?v] |- _ => destruct (String.leb u v); try congruence
    end; try done; try congruence.

(** Without a quantity among its fields, a sort compares the fields as texts, one
    after the other. *)
Lemma sort_less_weak {R} q (fv : string -> option (R -> string * bool)) qf sorts :
  Forall (fun s => qf (s_Field s) = false) sorts -> weak_order (sort_less q fv qf sorts).
Proof.
  set (tl := fun s a b => if s_Desc s then String.leb a b else String.ltb a b).
  assert (Hvl : forall s, qf (s_Field s) = false -> forall a b, value_less q qf s a b = (if s_Desc s then String.leb b a else negb (String.leb b a))).
  { intros s Hs a b. unfold value_less. rewrite Hs, ltb_leb. by destruct (s_Desc s); rewrite ?negb_involutive. }
  induction 1 as [|s sorts Hs Hsorts IH]; cbn [sort_less]; [by split|].
  destruct (fv (s_Field s)) as [extract|]; [|done]. specialize (Hvl s Hs).
  destruct IH as [IHa IHt]. split.
  - intros x y. rewrite (String.eqb_sym (extract y).1). destruct (String.eqb_spec (extract x).1 (extract y).1) as [|Hne]; [apply IHa|].
    rewrite !Hvl. pose proof (String.leb_total (extract x).1 (extract y).1) as Ht.
    pose proof (String.leb_antisym (extract x).1 (extract y).1) as Ha.
    destruct (s_Desc s), (String.leb (extract x).1 (extract y).1), (String.leb (extract y).1 (extract x).1); naive_solver.
  - intros x y z. generalize (extract x).1, (extract y).1, (extract z).1. intros a b c.
    pose proof (leb_trans a b c). pose proof (leb_trans c b a). pose proof (leb_trans c a b). pose proof (leb_trans b a c).
    pose proof (leb_trans a c b). pose proof (leb_trans b c a).
    pose proof (String.leb_total a b) as T1. pose proof (String.leb_total b c) as T2. pose proof (String.leb_total a c) as T3.
    pose proof (String.leb_antisym a b) as A1. pose proof (String.leb_antisym b c) as A2. pose proof (String.leb_antisym a c) as A3.
    rewrite !Hvl.
    destruct (String.eqb_spec a b), (String.eqb_spec b c), (String.eqb_spec a c); subst; try congruence;
      [by apply IHt|..];
      destruct (s_Desc s); solve_leb.
Qed.

Lemma page_list_elem {R} (l : list R) page x : x ∈ page_list l page -> x ∈ l.
Proof.
  unfold page_list. destruct page as [[offset limit]|]; [|done]. cbn [pg_Offset pg_Limit].
  destruct (_ <? _)%Z; [by intros ?%elem_of_nil|]. intros Hx.
  rewrite <- (take_drop (Z.to_nat (Z.max 0 offset)) l). apply elem_of_app. right.
  match type of Hx with _ ∈ take ?k ?t => rewrite <- (take_drop k t) end. apply elem_of_app. by left.
Qed.

Lemma filter_matching_elem {R} tl ef p1 p2 q fv ft qf (keep : R -> bool) filters l : forall l',
  filter_matching tl ef p1 p2 q fv ft qf keep filters l = Ok l' ->
  forall r, r ∈ l' <-> r ∈ l /\ keep r = true /\ matchesFilters tl ef p1 p2 q fv ft qf r filters = Ok true.
Proof.
  induction l as [|x l IH]; intros l'; cbn [filter_matching].
  { intros <-%Ok_inj r. split; [by intros ?%elem_of_nil|by intros [?%elem_of_nil _]]. }
  destruct (keep x) eqn:Ek.
  - destruct (matchesFilters _ _ _ _ _ _ _ _ x filters) as [matched|] eqn:Em; [|done].
    destruct (filter_matching _ _ _ _ _ _ _ _ _ _ l) as [rest|]; [|done]. intros <-%Ok_inj r.
    specialize (IH rest eq_refl r). destruct matched; rewrite ?elem_of_cons, IH.
    + split; [intros [->|?]; naive_solver|naive_solver].
    + split; [naive_solver|]. intros ([->|Hr] & Hk & Hm); [congruence|done].
  - intros Hl r. rewrite (IH _ Hl r), elem_of_cons. split; [naive_solver|].
    intros ([->|Hr] & Hk & Hm); [congruence|done].
Qed.

(** Where no filter fails, the loop is a filter. *)
Lemma filter_matching_eq {R} tl ef p1 p2 q fv ft qf (keep : R -> bool) filters l : forall l',
  filter_matching tl ef p1 p2 q fv ft qf keep filters l = Ok l' ->
  l' = List.filter (fun r => keep r && match matchesFilters tl ef p1 p2 q fv ft qf r filters with
                                       | Ok b => b | Err _ => false end) l.
Proof.
  induction l as [|x l IH]; intros l'; cbn [filter_matching List.filter]; [by intros <-%Ok_inj|].
  destruct (keep x) eqn:Ek; cbn [andb]; [|by apply IH].
  destruct (matchesFilters _ _ _ _ _ _ _ _ x filters) as [matched|]; [|done].
  destruct (filter_matching _ _ _ _ _ _ _ _ _ _ l) as [rest|]; [|done]. intros <-%Ok_inj.
  rewrite (IH rest eq_refl). by destruct matched.
Qed.

Section queries.
Context (ToLower : string -> string) (EqualFold : string -> string -> bool).
Context (parse_rfc3339 parse_datetime : string -> option Z) (format_rfc3339 : Z -> string).
Context (quantityToFloat : string -> option Z).
Context (status_text : WorkspaceStatusMessage -> string) (type_text : WorkspaceType -> string).
#[local] Notation matches_ := (workspace_matches ToLower EqualFold parse_rfc3339 parse_datetime format_rfc3339
  quantityToFloat status_text type_text).
#[local] Notation condition_ := (matchesCondition ToLower EqualFold parse_rfc3339 parse_datetime quantityToFloat
  (workspaceFieldValues format_rfc3339 status_text type_text) workspaceFieldType quantityFields).
#[local] Notation Query_ := (QueryWorkspaces ToLower EqualFold parse_rfc3339 parse_datetime format_rfc3339
  quantityToFloat status_text type_text).

(** C26. A query never shows more than its obligations allow: whatever the
    filters, the sort, the page and the push-down, every workspace returned was
    found by the lookup, is inside the scope the obligations resolve to, and
    matches the filters; and a scope without any user name returns nothing. *)
Theorem QueryWorkspaces_scoped valid roles lookup current payload ob nss l :
  Query_ valid roles lookup current payload ob nss = Ok l ->
  exists scope, resolveObligationScope EqualFold roles ob = Ok scope /\
    (sc_usernames scope = Some [] -> l = []) /\
    forall w, w ∈ l ->
      scope_matches EqualFold scope w = true /\ matches_ w (q_Filters payload) = Ok true /\
      exists fs opts, lookup opts = Ok fs /\ w ∈ MarkBlueprintOutdated current (fst <$> fs).
Proof.
  unfold QueryWorkspaces. destruct (valid payload); [|done]. cbn [negb].
  destruct (resolveObligationScope _ _ _) as [scope|]; [|done]. intros H. exists scope. split; [done|].
  assert (Hend : forall fs opts r,
    lookup opts = Ok fs ->
    filter_matching ToLower EqualFold parse_rfc3339 parse_datetime quantityToFloat
      (workspaceFieldValues format_rfc3339 status_text type_text) workspaceFieldType quantityFields
      (scope_matches EqualFold scope) (q_Filters payload) (MarkBlueprintOutdated current (fst <$> fs)) = Ok r ->
    forall sorts w, w ∈ page_list (sortWorkspaces format_rfc3339 quantityToFloat status_text type_text r sorts) (q_Page payload) ->
      scope_matches EqualFold scope w = true /\ matches_ w (q_Filters payload) = Ok true /\
      exists fs opts, lookup opts = Ok fs /\ w ∈ MarkBlueprintOutdated current (fst <$> fs)).
  { intros fs opts r Hl Hr sorts w Hw%page_list_elem.
    assert (w ∈ r) as Hin.
    { revert Hw. unfold sortWorkspaces. destruct sorts; [done|]. by rewrite slice_stable_perm. }
    apply (filter_matching_elem _ _ _ _ _ _ _ _ _ _ _ _ Hr) in Hin as (H1 & H2 & H3).
    split; [exact H2|]. split; [exact H3|]. by exists fs, opts. }
  destruct (sc_usernames scope) as [[|u us]|].
  - apply Ok_inj in H as <-. split; [done|]. by intros w ?%elem_of_nil.
  - split; [done|]. destruct (lookup _) as [fs|] eqn:El; [|done].
    destruct (filter_matching _ _ _ _ _ _ _ _ _ _ _) as [r|] eqn:Er; [|done]. apply Ok_inj in H as <-.
    by eapply Hend.
  - split; [done|]. destruct (lookup _) as [fs|] eqn:El; [|done].
    destruct (filter_matching _ _ _ _ _ _ _ _ _ _ _) as [r|] eqn:Er; [|done]. apply Ok_inj in H as <-.
    by eapply Hend.
Qed.

(** ** The push-down *)

Lemma glob_exact p v :
  existsb wildcard (to_bytes p) = false -> globMatchLower p v = true -> p = v.
Proof.
  revert v. induction p as [|c p IH]; intros v; cbn.
  { intros _ H%String.eqb_eq. done. }
  intros [[H1 H2]%orb_false_iff Hp]%orb_false_iff. rewrite H1, H2. destruct v as [|d v]; [done|].
  intros [->%Ascii.eqb_eq Hm]%andb_true_iff. by rewrite (IH v Hp Hm).
Qed.

(** Texts on which folding the case changes nothing. *)
Variable lower : string -> Prop.
Hypothesis ToLower_lower : forall s, lower s -> ToLower s = s.
Hypothesis EqualFold_lower : forall s t, lower s -> lower t -> EqualFold s t = true <-> s = t.

(** The fields that are pushed down, of a workspace. *)
Definition lower_workspace (w : Workspace) : Prop :=
  let d := ws_Details w in
  lower (w_Name d) /\ lower (w_Username d) /\ lower (w_Organization d) /\ lower (w_Blueprint d).

Definition lower_filters (filters : Filters) : Prop :=
  forall c v, c ∈ q_Conditions filters -> v ∈ q_Values c -> lower v.

Definition pushed_field (name : string) : option (WorkspaceDetails -> string) :=
  if String.eqb name "username" then Some w_Username
  else if String.eqb name "organization" then Some w_Organization
  else if String.eqb name "blueprint" then Some w_Blueprint
  else if String.eqb name "name" then Some w_Name
  else None.

(** A condition that is pushed down and matches: one of its values is the field. *)
Lemma pushed_value w c f :
  pushed_field (q_Field c) = Some f -> lower (f (ws_Details w)) -> (forall v, v ∈ q_Values c -> lower v) ->
  condition_ w c = Ok true -> pushableValues (q_Op c) (q_Values c) <> [] ->
  f (ws_Details w) ∈ pushableValues (q_Op c) (q_Values c).
Proof.
  intros Hf Hl Hv Hc Hp.
  assert (Hfields : workspaceFieldValues format_rfc3339 status_text type_text (q_Field c) = Some (set_if_nonempty f) /\
                    workspaceFieldType (q_Field c) = FIELD_TYPE_STRING /\ quantityFields (q_Field c) = false).
  { revert Hf. unfold pushed_field.
    destruct (String.eqb_spec (q_Field c) "username") as [->|_]; [by intros [= <-]|].
    destruct (String.eqb_spec (q_Field c) "organization") as [->|_]; [by intros [= <-]|].
    destruct (String.eqb_spec (q_Field c) "blueprint") as [->|_]; [by intros [= <-]|].
    destruct (String.eqb_spec (q_Field c) "name") as [->|_]; [by intros [= <-]|done]. }
  destruct Hfields as (H1 & H2 & H3). unfold matchesCondition in Hc. rewrite H1 in Hc. cbn [set_if_nonempty] in Hc.
  unfold pushableValues in *. destruct (q_Op c); try done;
    destruct (existsb (fun v => existsb wildcard (to_bytes v)) (q_Values c)) eqn:Ew; try done.
  - destruct (negb _); [|done]. unfold matches_eq, first_value in Hc. rewrite H2, H3 in Hc.
    destruct (q_Values c) as [|v vs] eqn:Ev; [done|]. apply Ok_inj in Hc. unfold globMatch in Hc.
    rewrite !ToLower_lower in Hc; [|done|apply Hv; left]. cbn in Ew. apply orb_false_iff in Ew as [Ew _].
    apply glob_exact in Hc; [|done]. rewrite Hc. left.
  - apply Ok_inj, andb_true_iff in Hc as [_ (v & Hin & Hfold)%existsb_exists].
    apply list_elem_of_In in Hin. by rewrite <- (proj1 (EqualFold_lower v (f (ws_Details w)) (Hv v Hin) Hl) Hfold).
Qed.

Lemma single_spec l x : single l <> "" -> x ∈ l -> x = single l.
Proof. destruct l as [|y [|]]; [done| |done]. cbn. by intros _ ?%list_elem_of_singleton. Qed.

(** What the loop keeps of the options. *)
Lemma push_condition_wanted us org bp name nss c (f : found) :
  lower_workspace f.1 -> (forall v, v ∈ q_Values c -> lower v) -> condition_ f.1 c = Ok true ->
  wanted (owner_options us org bp name nss) f -> (forall u, u ∈ us -> lower u) ->
  exists us' org' bp' name', push_condition (owner_options us org bp name nss) c = owner_options us' org' bp' name' nss /\
    wanted (owner_options us' org' bp' name' nss) f /\ forall u, u ∈ us' -> lower u.
Proof.
  intros (Ln & Lu & Lo & Lb) Hv Hc ((Hu & Ho & Hb) & Hne & Hn) Hus. cbn in Hu, Ho, Hb, Hn.
  pose proof (pushed_value f.1 c) as Hpush. unfold pushed_field in Hpush.
  unfold push_condition, owner_options. set (values := pushableValues (q_Op c) (q_Values c)) in *.
  assert (Hsingle : forall x cur, (values <> [] -> x ∈ values) -> cur = "" \/ x = cur ->
            (if String.eqb cur "" then single values else cur) = "" \/
            x = (if String.eqb cur "" then single values else cur)).
  { intros x cur Hx Hcur. destruct (String.eqb_spec cur "") as [->|]; [|by destruct Hcur; auto].
    destruct (decide (single values = "")) as [|Hs]; [by left|right]. apply single_spec; [done|].
    apply Hx. intros E. by rewrite E in Hs. }
  assert (Hvalues : forall u, u ∈ values -> lower u).
  { intros u Hin. apply Hv. subst values. revert Hin. unfold pushableValues.
    destruct (q_Op c); try (by intros ?%elem_of_nil); (destruct (existsb _ _); [by intros ?%elem_of_nil|done]). }
  unfold wanted, owned, found_name.
  destruct (String.eqb (q_Field c) "username"); [|destruct (String.eqb (q_Field c) "organization");
    [|destruct (String.eqb (q_Field c) "blueprint"); [|destruct (String.eqb (q_Field c) "name")]]];
    do 4 eexists; (split; [reflexivity|]); cbn; split_and!; try done.
  - destruct us as [|u us]; [|by destruct Hu; auto]. destruct values as [|v vs] eqn:E; [by left|right]. by apply Hpush.
  - by destruct us.
  - apply Hsingle; [by apply Hpush|naive_solver].
  - apply Hsingle; [by apply Hpush|naive_solver].
  - apply Hsingle; [by apply Hpush|naive_solver].
Qed.

Lemma pushdown_wanted filters nss (f : found) :
  lower_workspace f.1 -> lower_filters filters -> matches_ f.1 filters = Ok true -> w_Username (ws_Details f.1) <> "" ->
  exists us org bp name, pushdownOptionsFromPayload filters nss = owner_options us org bp name nss /\
    wanted (owner_options us org bp name nss) f /\ forall u, u ∈ us -> lower u.
Proof.
  intros Hlw Hlf Hm Hne. assert (Hnone : wanted (owner_options [] "" "" "" nss) f).
  { split; [by split_and!; left|]. split; [done|by left]. }
  unfold pushdownOptionsFromPayload. destruct (q_Or filters) eqn:Eor.
  { exists [], "", "", "". split; [done|]. split; [done|]. by intros u ?%elem_of_nil. }
  unfold workspace_matches, matchesFilters in Hm. unfold lower_filters in Hlf.
  assert (Hall : forall c, c ∈ q_Conditions filters -> condition_ f.1 c = Ok true).
  { destruct (q_Conditions filters) as [|c0 cs0]; [by intros c ?%elem_of_nil|]. rewrite Eor in Hm.
    revert Hm. generalize (c0 :: cs0). intros cs. induction cs as [|c cs IH]; [by intros _ c ?%elem_of_nil|].
    cbn [match_all]. destruct (condition_ f.1 c) as [[]|] eqn:E; cbn [andb negb]; [|done|done].
    intros Hm c' [->|Hc']%elem_of_cons; [done|by apply IH]. }
  clear Hm. change (mkOptions [] "" "" "" "" nss "" "") with (owner_options [] "" "" "" nss).
  assert (Hgen : forall cs us org bp name, wanted (owner_options us org bp name nss) f -> (forall u, u ∈ us -> lower u) ->
    (forall c, c ∈ cs -> condition_ f.1 c = Ok true /\ forall v, v ∈ q_Values c -> lower v) ->
    exists us' org' bp' name',
      foldl push_condition (owner_options us org bp name nss) cs = owner_options us' org' bp' name' nss /\
      wanted (owner_options us' org' bp' name' nss) f /\ forall u, u ∈ us' -> lower u).
  { clear -Hlw Hne EqualFold_lower ToLower_lower.
    induction cs as [|c cs IH]; intros us org bp name Hw Hus Hcs; cbn [foldl]; [by exists us, org, bp, name|].
    destruct (Hcs c) as [Hc Hv]; [left|].
    destruct (push_condition_wanted us org bp name nss c f) as (us' & org' & bp' & name' & -> & Hw' & Hus'); try done.
    apply IH; [done|done|]. intros c' Hc'. apply Hcs. by right. }
  apply Hgen; [done|by intros u ?%elem_of_nil|]. intros c Hc. split; [by apply Hall|]. intros v. by apply Hlf.
Qed.

Definition lower_scope (s : obligationScope) : Prop :=
  lower (sc_organization s) /\ forall us u, sc_usernames s = Some us -> u ∈ us -> lower u.

Lemma narrow_wanted scope us org bp name nss (f : found) :
  lower_workspace f.1 -> lower_scope scope -> (forall u, u ∈ us -> lower u) ->
  scope_matches EqualFold scope f.1 = true -> wanted (owner_options us org bp name nss) f ->
  exists us' org', narrow EqualFold scope (owner_options us org bp name nss) = owner_options us' org' bp name nss /\
    wanted (owner_options us' org' bp name nss) f.
Proof.
  intros (_ & Lu & Lo & _) [Ls Lus] Hus Hscope ((Hu & Ho & Hb) & Hne & Hn). cbn in Hu, Ho, Hb, Hn.
  unfold scope_matches in Hscope. apply andb_true_iff in Hscope as [Hso Hsu].
  unfold narrow, owner_options. do 2 eexists. split; [reflexivity|].
  split; [|by split]. split; [|split]; cbn; [| |done].
  - destruct (sc_usernames scope) as [sus|] eqn:Es; [|done]. right.
    unfold contains_fold in Hsu. apply existsb_exists in Hsu as (u & Hin & Hf). apply list_elem_of_In in Hin.
    apply EqualFold_lower in Hf as ->; [|by eapply Lus|done].
    destruct us as [|u0 us]; [done|]. destruct Hu as [|Hu]; [done|]. cbn [intersectUsernames default].
    apply list_elem_of_In, filter_In. split; [by apply list_elem_of_In|]. apply existsb_exists.
    exists (w_Username (ws_Details f.1)). split; [by apply list_elem_of_In|by apply EqualFold_lower].
  - destruct (String.eqb_spec (sc_organization scope) "") as [|Hs]; [done|right].
    by apply EqualFold_lower in Hso.
Qed.

(** What is pushed down restricts the owner and the name only. *)
Lemma pushdown_shape filters scope nss :
  exists us org bp name,
    narrow EqualFold scope (pushdownOptionsFromPayload filters nss) = owner_options us org bp name nss.
Proof.
  assert (Hf : forall cs us org bp name, exists us' org' bp' name',
    foldl push_condition (owner_options us org bp name nss) cs = owner_options us' org' bp' name' nss).
  { induction cs as [|c cs IH]; intros us org bp name; cbn [foldl]; [by exists us, org, bp, name|].
    unfold push_condition at 2. cbn [owner_options]. repeat case_match; apply IH. }
  assert (Hp : exists us org bp name, pushdownOptionsFromPayload filters nss = owner_options us org bp name nss).
  { unfold pushdownOptionsFromPayload. destruct (q_Or filters); [by exists [], "", "", ""|]. apply Hf. }
  destruct Hp as (us & org & bp & name & ->). do 4 eexists. reflexivity.
Qed.

(** C30. Looking up only what is pushed down, from the filters and from the scope of
    the obligations, against looking up everything and filtering in memory. It
    is assumed that both lookups succeed, that pods have names of their own and
    the release of a workspace carries the labels of its pod, and that the
    texts compared are ones on which folding the case changes nothing. Nothing
    is lost: a workspace that the unrestricted lookup finds, with a user name,
    in the scope and matching the filters, is found by the restricted lookup.
    What the restricted lookup finds is found by the unrestricted one, with one
    exception: the workspace of a stopped release, which the unrestricted lookup
    leaves out because a live pod has its name, where that pod's own workspace
    is not one that must be found: it has no user name, or its texts are not as
    assumed, or it is out of the scope or does not match. *)
Theorem pushdown_complete pu port chart cl filters scope nss l0 l :
  well_labelled cl -> lower_filters filters -> lower_scope scope ->
  GetWorkspaces pu port chart cl (owner_options [] "" "" "" nss) = Ok l0 ->
  GetWorkspaces pu port chart cl (narrow EqualFold scope (pushdownOptionsFromPayload filters nss)) = Ok l ->
  let asked (f : found) := w_Username (ws_Details f.1) <> "" /\ scope_matches EqualFold scope f.1 = true /\
    matches_ f.1 filters = Ok true in
  (forall f, f ∈ l0 -> lower_workspace f.1 -> asked f -> f ∈ l) /\
  (forall f, f ∈ l -> f ∈ l0 \/
     (exists rp, rp ∈ cl_Releases cl /\ rp_Pod rp = Some f.2) /\
     exists g, g ∈ l0 /\ g.2 ∈ cl_Pods cl /\ found_name g = found_name f /\ ~ (lower_workspace g.1 /\ asked g)).
Proof.
  intros Hwl Lf Ls H0 H1 asked. destruct (pushdown_shape filters scope nss) as (us & org & bp & name & Hn). rewrite Hn in H1.
  assert (Hw : forall f, lower_workspace f.1 -> asked f -> wanted (owner_options us org bp name nss) f).
  { intros f Lw (Hne & Hscope & Hm). rewrite <- Hn.
    destruct (pushdown_wanted filters nss f Lw Lf Hm Hne) as (us1 & org1 & bp1 & name1 & -> & Hw & Hus).
    by destruct (narrow_wanted scope us1 org1 bp1 name1 nss f Lw Ls Hus Hscope Hw) as (us' & org' & -> & Hw'). }
  split.
  - intros f Hf Lw Ha. eapply (GetWorkspaces_narrow pu port chart cl us org bp name nss l0 l f); auto.
  - intros f Hf. destruct (GetWorkspaces_widen pu port chart cl us org bp name nss l0 l f Hwl H0 H1 Hf)
      as [|(Hrp & g & Hg & Hp & Hname & Hnw)]; [by left|right]. split; [done|]. exists g. do 3 (split; [done|]).
    intros [Lw Ha]. by apply Hnw, Hw.
Qed.
End queries.

(** ** Paging through the identity service *)

(** The pages of a server that caps what it returns, at each request as it likes. *)
Definition capped_pages (all : list string) (cap : nat -> nat) (offset : nat) : option (list string) :=
  Some (take (cap offset) (drop offset all)).

Lemma take_drop_length {A} k (l : list A) : take k l ++ drop (length (take k l)) l = l.
Proof.
  rewrite length_take. destruct (Nat.min_spec k (length l)) as [[? ->]|[? ->]]; [apply take_drop|].
  by rewrite (take_ge l) by lia; rewrite drop_all, app_nil_r.
Qed.

Lemma usernamesWithRoles_from all cap : (forall offset, 0 < cap offset) ->
  forall fuel offset acc, length all - offset < fuel ->
  usernamesWithRoles fuel (capped_pages all cap) offset acc = Some (Ok (acc ++ drop offset all)).
Proof.
  intros Hcap. induction fuel as [|fuel IH]; intros offset acc Hf; [lia|].
  cbn [usernamesWithRoles]. unfold capped_pages at 1.
  destruct (take (cap offset) (drop offset all)) as [|u us] eqn:E.
  - assert (drop offset all = []) as ->; [|by rewrite app_nil_r].
    specialize (Hcap offset). destruct (drop offset all); [done|]. by destruct (cap offset); [lia|].
  - assert (Hlen : length (take (cap offset) (drop offset all)) <= length all - offset).
    { rewrite length_take, length_drop. lia. }
    rewrite E in Hlen. cbn [length] in Hlen. rewrite IH by (cbn [length]; lia).
    rewrite <- app_assoc, <- drop_drop, <- E. by rewrite take_drop_length.
Qed.

(** The users that hold a role are all found: as long as the identity service
    returns at least one user while there are any, whatever its cap on a page,
    the loop ends after at most one request more than there are users, with all
    of them in order. *)
Theorem usernamesWithRoles_complete all cap :
  (forall offset, 0 < cap offset) ->
  usernamesWithRoles (S (length all)) (capped_pages all cap) 0 [] = Some (Ok all).
Proof. intros Hcap. rewrite usernamesWithRoles_from by (done || lia). by rewrite drop_0. Qed.

Lemma usernamesWithRoles_complete_witness :
  usernamesWithRoles 4 (capped_pages ["alice"; "bob"; "carol"] (fun _ => 2)) 0 [] = Some (Ok ["alice"; "bob"; "carol"]).
Proof. apply (usernamesWithRoles_complete ["alice"; "bob"; "carol"] (fun _ => 2)). intros _. lia. Defined.

(** ** Pages *)

(** The pages of [n] from the first to the [k]th. *)
Fixpoint pages {R} (l : list R) (n : Z) (k : nat) : list R :=
  match k with
  | O => []
  | S k => pages l n k ++ page_list l (Some (mkPage (Z.of_nat k * n) n))
  end.

Lemma page_list_slice {R} (l : list R) n k : (0 < n)%Z ->
  page_list l (Some (mkPage (Z.of_nat k * n) n)) = take (Z.to_nat n) (drop (k * Z.to_nat n) l).
Proof.
  intros Hn. unfold page_list. cbn [pg_Offset pg_Limit].
  replace (Z.max 0 (Z.of_nat k * n)) with (Z.of_nat (k * Z.to_nat n)) by lia. cbv zeta.
  set (o := k * Z.to_nat n). destruct (Z.ltb_spec (Z.of_nat (length l)) (Z.of_nat o)).
  { rewrite drop_ge by lia. by rewrite take_nil. }
  rewrite Nat2Z.id. destruct (Z.ltb_spec 0 n); [|lia]. cbn [andb].
  destruct (Z.ltb_spec (Z.of_nat o + n) (Z.of_nat (length l))); [f_equal; lia|].
  rewrite !take_ge; [done|rewrite length_drop; lia..].
Qed.

Lemma pages_take {R} (l : list R) n k : (0 < n)%Z -> pages l n k = take (k * Z.to_nat n) l.
Proof.
  intros Hn. induction k as [|k IH]; [done|]. cbn [pages]. rewrite IH, page_list_slice by done.
  rewrite take_take_drop. f_equal. lia.
Qed.

(** Paging loses and repeats nothing: following pages of a positive limit,
    put together, are the list, once there are enough of them. *)
Theorem pages_cover {R} (l : list R) n k :
  (0 < n)%Z -> (Z.of_nat (length l) <= Z.of_nat k * n)%Z -> pages l n k = l.
Proof. intros Hn Hk. rewrite pages_take by done. apply take_ge. lia. Qed.

Lemma pages_cover_witness : pages ["a"; "b"; "c"; "d"; "e"] 2 3 = ["a"; "b"; "c"; "d"; "e"].
Proof. apply (pages_cover ["a"; "b"; "c"; "d"; "e"] 2 3); cbn; lia. Defined.

(** ** Sorting *)

(** Descending order is the negation of ascending order, also where neither of
    two quantities is less: written differently but equal, each comes before the
    other. *)
Lemma descending_quantities_not_an_order q qf f vi vj x :
  qf f = true -> q vi = Some x -> q vj = Some x ->
  value_less q qf (mkSort f true) vi vj = true /\ value_less q qf (mkSort f true) vj vi = true.
Proof. intros Hf Hi Hj. unfold value_less. cbn. by rewrite Hf, Hi, Hj, Z.ltb_irrefl. Qed.

(** ** An instance *)

Definition fold_case (s : string) : string := of_bytes (to_lower (to_bytes s)).
Definition fold_eq (s t : string) : bool := String.eqb (fold_case s) (fold_case t).
Definition is_lower (s : string) : Prop := fold_case s = s.

Lemma fold_eq_lower s t : is_lower s -> is_lower t -> fold_eq s t = true <-> s = t.
Proof. unfold is_lower, fold_eq. intros -> ->. apply String.eqb_eq. Qed.

Definition no_time (_ : string) : option Z := None.
Definition no_text (_ : Z) : string := "".

(** The pod of a workspace of [user] in the organization acme. *)
Definition demo_pod (name user : string) : WorkspacePod :=
  mkWorkspacePod
    (mkPod name "ns" (list_to_map [(LabelUsername, user); (LabelOrganization, "acme"); (LabelBlueprint, "go");
                                   (LabelCanonicalId, name)]) 1 None "node" "Running" "" "" [] [] [] [] [] ∅ [] None "" "")
    {[ "k8shell.io/userstr" := "go" ]} [] [] "10.0.0.1".

Definition demo_cluster : cluster := mkCluster [demo_pod "ws1" "alice"; demo_pod "ws2" "bob"] [] [] [] 10.

Definition demo_lookup : GetWorkspacesOptions -> result lookup_error (list found) :=
  GetWorkspaces (fun _ => Some ("", "", "")) 22 "k8shell-workspace" demo_cluster.

Definition by_username (user : string) : Filters := mkFilters false [mkCondition "username" OPERATOR_EQ [user]].

Definition demo_query (filters : Filters) (ob : Obligations) : result query_error (list Workspace) :=
  QueryWorkspaces fold_case fold_eq no_time no_time no_text (fun _ => None) (fun _ => "") (fun _ => "")
    (fun _ => true) None demo_lookup None (mkPayload filters [] None) ob [].

Definition names (r : result query_error (list Workspace)) : list string :=
  match r with Ok l => (fun w => w_Name (ws_Details w)) <$> l | Err _ => [] end.

Example demo_found : names (demo_query (mkFilters false []) (mkObligations (Some "acme") None None)) = ["ws1"; "ws2"].
Proof. vm_compute. reflexivity. Qed.

(** What the lookup finds without a restriction. *)
Definition demo_all : list found := match demo_lookup (owner_options [] "" "" "" []) with Ok l => l | Err _ => [] end.

(** The push-down is not only a matter of speed: user names are compared
    without regard to case in memory, but as they are by the label selector. So
    a workspace whose owner's name differs from a filter in case is found by the
    unrestricted lookup, is in the scope and matches the filter, and is not
    returned; a pattern that means the same finds it. *)
Theorem pushdown_misses_another_case :
  let all := fst <$> demo_all in
  let matching := workspace_matches fold_case fold_eq no_time no_time no_text (fun _ => None) (fun _ => "") (fun _ => "") in
  let anyone := mkObligations None None None in
  List.map (fun w => (w_Name (ws_Details w), matching w (by_username "Alice"))) all =
    [("ws1", Ok true); ("ws2", Ok false)] /\
    demo_query (by_username "Alice") anyone = Ok [] /\
    names (demo_query (by_username "alice") anyone) = ["ws1"] /\
    names (demo_query (by_username "Alice*") anyone) = ["ws1"].
Proof. vm_compute. done. Qed.

Lemma QueryWorkspaces_scoped_witness :
  exists l, demo_query (mkFilters false []) (mkObligations None (Some "bob") None) = Ok l /\
    length l = 1 /\
    exists scope, resolveObligationScope fold_eq None (mkObligations None (Some "bob") None) = Ok scope /\
    forall w, w ∈ l -> scope_matches fold_eq scope w = true.
Proof.
  eexists. split; [vm_compute; reflexivity|]. split; [reflexivity|].
  destruct (QueryWorkspaces_scoped fold_case fold_eq no_time no_time no_text (fun _ => None) (fun _ => "") (fun _ => "")
    (fun _ => true) None demo_lookup None (mkPayload (mkFilters false []) [] None)
    (mkObligations None (Some "bob") None) [] _ eq_refl) as (scope & Hs & _ & Hw).
  exists scope. split; [exact Hs|]. intros w Hin. apply (Hw w Hin).
Defined.

Lemma demo_well_labelled : well_labelled demo_cluster.
Proof.
  split; [|by intros rp p ?%elem_of_nil].
  intros p q. cbn [demo_cluster cl_Pods]. rewrite !elem_of_cons.
  intros [->|[->|?%elem_of_nil]] [->|[->|?%elem_of_nil]]; done.
Qed.

Definition demo_scope : obligationScope := mkScope "acme" None.

(** The workspaces of alice, as the query looks them up. *)
Definition demo_alice : list found :=
  match demo_lookup (narrow fold_eq demo_scope (pushdownOptionsFromPayload (by_username "alice") [])) with
  | Ok l => l | Err _ => []
  end.

Lemma demo_facts :
  match demo_all with
  | [] => False
  | f :: _ =>
      w_Username (ws_Details f.1) <> "" /\ lower_workspace is_lower f.1 /\ scope_matches fold_eq demo_scope f.1 = true /\
      workspace_matches fold_case fold_eq no_time no_time no_text (fun _ => None) (fun _ => "") (fun _ => "")
        f.1 (by_username "alice") = Ok true
  end.
Proof. vm_compute. done. Qed.

Lemma pushdown_complete_witness :
  exists f, f ∈ demo_all /\ f ∈ demo_alice /\ forall g, g ∈ demo_alice -> g ∈ demo_all.
Proof.
  assert (H : match demo_all with
    | [] => False
    | f :: _ => w_Username (ws_Details f.1) <> "" /\ lower_workspace is_lower f.1 /\ scope_matches fold_eq demo_scope f.1 = true /\
        workspace_matches fold_case fold_eq no_time no_time no_text (fun _ => None) (fun _ => "") (fun _ => "")
          f.1 (by_username "alice") = Ok true
    end) by exact demo_facts.
  destruct (pushdown_complete fold_case fold_eq no_time no_time no_text (fun _ => None) (fun _ => "") (fun _ => "")
    is_lower (fun s H => H) fold_eq_lower (fun _ => Some ("", "", "")) 22 "k8shell-workspace" demo_cluster
    (by_username "alice") demo_scope [] demo_all demo_alice demo_well_labelled) as [Hc Hs]; [|done|reflexivity|reflexivity|].
  - intros c v ->%list_elem_of_singleton ->%list_elem_of_singleton. reflexivity.
  - destruct demo_all as [|f rest]; [done|]. destruct H as (H1 & H2 & H3 & H4). exists f. split; [left|].
    split; [apply Hc; [left|exact H2|by split_and!]|].
    intros g Hg. destruct (Hs g Hg) as [|[(rp & Hrp & _) _]]; [done|by apply elem_of_nil in Hrp].
Defined.
