(* ===== verification/BlueprintQuery.v ===== *)
(** * Blueprint queries

    internal/blueprint/query.go: the listing of blueprints of Manager.v under
    the filters, the sort and the page of a query, inside what the caller may
    see. The code repeats the matcher of the workspace queries for its own
    fields; here it is the engine of Query.v at those fields. *)

From S2P Require Import Prelude GoStrings Yaml Inherit Manager PodState Workspaces Query.

(** src/internal/blueprint/query.go:63-82 blueprintFieldValues *)
Definition blueprintFieldValues (format_rfc3339 : Z -> string) (name : string)
    : option (BlueprintSummary -> string * bool) :=
  let text (f : BlueprintSummary -> string) b := (f b, negb (String.eqb (f b) "")) in
  let time (f : BlueprintSummary -> Z) b := if Z.eqb (f b) 0 then ("", false) else (format_rfc3339 (f b), true) in
  if String.eqb name "name" then Some (text bs_Name)
  else if String.eqb name "org" then Some (text bs_Org)
  else if String.eqb name "global" then Some (fun b => (if bs_IsGlobal b then "true" else "false", true))
  else if String.eqb name "created" then Some (time bs_CreatedAt)
  else if String.eqb name "updated" then Some (time bs_UpdatedAt)
  else if String.eqb name "revision" then Some (text bs_Revision)
  else None.

(** The types the descriptor declares.

    src/internal/blueprint/query.go:84-91 blueprintFieldType *)
Definition blueprintFieldType (name : string) : FieldType :=
  if String.eqb name "created" || String.eqb name "updated" then FIELD_TYPE_DATETIME
  else if String.eqb name "global" then FIELD_TYPE_BOOLEAN
  else FIELD_TYPE_STRING.

(** src/internal/blueprint/query.go:101-104 blueprintObligationScope *)
Record blueprintObligationScope : Type := mkBlueprintScope { bsc_unrestricted : bool; bsc_org : string }.

(** The org obligation, when the gateway presents one.

    src/internal/blueprint/query.go:122-131 resolveBlueprintObligationScope *)
Definition resolveBlueprintObligationScope (org : option string) : blueprintObligationScope :=
  match org with
  | None => mkBlueprintScope false ""
  | Some org => if String.eqb org "*" then mkBlueprintScope true "" else mkBlueprintScope false org
  end.

Section query.
Variable ToLower : string -> string.
Variable EqualFold : string -> string -> bool.
Variable parse_rfc3339 parse_datetime : string -> option Z.
Variable format_rfc3339 : Z -> string.

(** src/internal/blueprint/query.go:111-116 matches *)
Definition blueprint_visible (s : blueprintObligationScope) (b : BlueprintSummary) : bool :=
  bsc_unrestricted s || bs_IsGlobal b || (negb (String.eqb (bsc_org s) "") && EqualFold (bs_Org b) (bsc_org s)).

Definition no_quantity (_ : string) : bool := false.
Definition no_number (_ : string) : option Z := None.

(** src/internal/blueprint/query.go:198-256 matchesBlueprintCondition *)
Definition matchesBlueprintCondition : BlueprintSummary -> Condition -> result query_error bool :=
  matchesCondition ToLower EqualFold parse_rfc3339 parse_datetime no_number
    (blueprintFieldValues format_rfc3339) blueprintFieldType no_quantity.

(** src/internal/blueprint/query.go:176-196 matchesBlueprintFilters *)
Definition matchesBlueprintFilters : BlueprintSummary -> Filters -> result query_error bool :=
  matchesFilters ToLower EqualFold parse_rfc3339 parse_datetime no_number
    (blueprintFieldValues format_rfc3339) blueprintFieldType no_quantity.

(** src/internal/blueprint/query.go:336-353 sortBlueprints *)
Fixpoint blueprint_less (sorts : list Sort) (bi bj : BlueprintSummary) : bool :=
  match sorts with
  | [] => false
  | s :: sorts =>
      match blueprintFieldValues format_rfc3339 (s_Field s) with
      | None => blueprint_less sorts bi bj
      | Some extract =>
          let vi := (extract bi).1 in
          let vj := (extract bj).1 in
          if String.eqb vi vj then blueprint_less sorts bi bj
          else if s_Desc s then String.ltb vj vi else String.ltb vi vj
      end
  end.

(** src/internal/blueprint/query.go:332-354 sortBlueprints *)
Definition sortBlueprints (l : list BlueprintSummary) (sorts : list Sort) : list BlueprintSummary :=
  match sorts with [] => l | _ => slice_stable (blueprint_less sorts) l end.

Definition sorts_of (payload : Payload) : list Sort :=
  match q_Sort payload with [] => default_sort | sorts => sorts end.

Inductive blueprint_query_error : Type :=
| BlueprintQuery (e : query_error)
| SummaryFailed (e : get_error).

(** [summaries] is what GetBlueprintsSummary returns.

    src/internal/blueprint/query.go:141-174 QueryBlueprints *)
Definition QueryBlueprints (valid : Payload -> bool) (summaries : result get_error (list BlueprintSummary))
    (payload : Payload) (org : option string) : result blueprint_query_error (list BlueprintSummary) :=
  if negb (valid payload) then Err (BlueprintQuery InvalidPayload)
  else
    match summaries with
    | Err e => Err (SummaryFailed e)
    | Ok summaries =>
        match filter_matching ToLower EqualFold parse_rfc3339 parse_datetime no_number
                (blueprintFieldValues format_rfc3339) blueprintFieldType no_quantity
                (blueprint_visible (resolveBlueprintObligationScope org)) (q_Filters payload) summaries with
        | Err e => Err (BlueprintQuery e)
        | Ok filtered => Ok (page_list (sortBlueprints filtered (sorts_of payload)) (q_Page payload))
        end
    end.

Lemma blueprint_less_eq sorts bi bj :
  blueprint_less sorts bi bj = sort_less no_number (blueprintFieldValues format_rfc3339) no_quantity sorts bi bj.
Proof.
  induction sorts as [|s sorts IH]; [done|]. cbn [blueprint_less sort_less].
  destruct (blueprintFieldValues _ _) as [extract|]; [|done]. cbv zeta. rewrite IH.
  destruct (String.eqb_spec (extract bi).1 (extract bj).1) as [|Hne]; [done|].
  unfold value_less, no_quantity. destruct (s_Desc s); [|done]. rewrite !ltb_leb, negb_involutive.
  pose proof (String.leb_total (extract bi).1 (extract bj).1).
  pose proof (String.leb_antisym (extract bi).1 (extract bj).1). solve_leb.
Qed.

Lemma blueprint_less_weak sorts : weak_order (blueprint_less sorts).
Proof.
  destruct (sort_less_weak no_number (blueprintFieldValues format_rfc3339) no_quantity sorts) as [Ha Ht].
  { by apply Forall_forall. }
  split; intros *; rewrite !blueprint_less_eq; [apply Ha|apply Ht].
Qed.

(** The blueprints a query is about, in the order of the listing. *)
Definition selected (org : option string) (filters : Filters) (listed : list BlueprintSummary) : list BlueprintSummary :=
  List.filter (fun b => blueprint_visible (resolveBlueprintObligationScope org) b &&
                        match matchesBlueprintFilters b filters with Ok matched => matched | Err _ => false end) listed.

(** A query answers with a page of exactly the blueprints that are listed,
    visible under the obligation and matched by the filters, in the order of the
    sort keys, those that tie in the order of the listing. *)
Theorem QueryBlueprints_spec valid summaries payload org l :
  QueryBlueprints valid summaries payload org = Ok l ->
  exists listed sorted, summaries = Ok listed /\ l = page_list sorted (q_Page payload) /\
    sorted ≡ₚ selected org (q_Filters payload) listed /\
    StronglySorted (fun a b => blueprint_less (sorts_of payload) b a = false) sorted /\
    forall r, List.filter (tied (blueprint_less (sorts_of payload)) r) sorted =
              List.filter (tied (blueprint_less (sorts_of payload)) r) (selected org (q_Filters payload) listed).
Proof.
  unfold QueryBlueprints. destruct (valid payload); [|done]. cbn [negb]. destruct summaries as [listed|]; [|done].
  destruct (filter_matching _ _ _ _ _ _ _ _ _ _ listed) as [filtered|] eqn:Ef; [|done]. intros <-%Ok_inj.
  apply filter_matching_eq in Ef.
  destruct (slice_stable_spec _ (blueprint_less_weak (sorts_of payload)) filtered) as (Hp & Ho & Ht).
  exists listed, (slice_stable (blueprint_less (sorts_of payload)) filtered). unfold selected, matchesBlueprintFilters. rewrite <- Ef.
  split_and!; try done. f_equal. unfold sortBlueprints, sorts_of. by destruct (q_Sort payload).
Qed.

(** Without an org obligation a query shows the global blueprints alone, and
    with one for an organization nothing of another's, however it is filtered. *)
Theorem QueryBlueprints_confined valid summaries payload org l b :
  QueryBlueprints valid summaries payload org = Ok l -> b ∈ l -> org <> Some "*" ->
  bs_IsGlobal b = true \/ exists o, org = Some o /\ o <> "" /\ EqualFold (bs_Org b) o = true.
Proof.
  intros Hq Hb Horg. unfold QueryBlueprints in Hq. destruct (valid payload); [|done]. cbn [negb] in Hq.
  destruct summaries as [listed|]; [|done].
  destruct (filter_matching _ _ _ _ _ _ _ _ _ _ listed) as [filtered|] eqn:Ef; [|done]. apply Ok_inj in Hq as <-.
  apply page_list_elem in Hb. unfold sortBlueprints, sorts_of in Hb.
  assert (Hin : b ∈ filtered) by (revert Hb; unfold default_sort; destruct (q_Sort payload); by rewrite slice_stable_perm).
  apply (filter_matching_elem _ _ _ _ _ _ _ _ _ _ _ _ Ef) in Hin as (_ & Hv & _).
  unfold blueprint_visible, resolveBlueprintObligationScope in Hv. destruct org as [o|]; cbn in Hv.
  - destruct (String.eqb_spec o "*") as [->|_]; [done|]. cbn in Hv.
    apply orb_true_iff in Hv as [Hv|[Hne Hv]%andb_true_iff]; [by left|right].
    exists o. split; [done|]. split; [by intros ->|done].
  - rewrite orb_false_r in Hv. by left.
Qed.
End query.

(** ** An instance *)

Definition demo_summary (name org : string) (created : Z) : BlueprintSummary :=
  mkSummary name "" false (String.eqb org "") org "" created created "r1".

Definition demo_blueprints : list BlueprintSummary :=
  [demo_summary "go" "" 1; demo_summary "rust" "acme" 2; demo_summary "java" "umbrella" 3; demo_summary "ada" "" 4].

(** Names from last to first, of the blueprints with a revision. *)
Definition demo_payload : Payload :=
  mkPayload (mkFilters false [mkCondition "revision" OPERATOR_EXISTS ["true"]]) [mkSort "name" true] None.

Definition demo_answer (org : option string) : result blueprint_query_error (list BlueprintSummary) :=
  QueryBlueprints fold_case fold_eq no_time no_time no_text (fun _ => true) (Ok demo_blueprints) demo_payload org.

Definition answer_names (r : result blueprint_query_error (list BlueprintSummary)) : list string :=
  match r with Ok l => bs_Name <$> l | Err _ => [] end.

Lemma demo_names : answer_names (demo_answer (Some "ACME")) = ["rust"; "go"; "ada"].
Proof. vm_compute. reflexivity. Qed.

Lemma QueryBlueprints_spec_witness : exists sorted,
  demo_answer (Some "ACME") = Ok sorted /\ bs_Name <$> sorted = ["rust"; "go"; "ada"] /\
  sorted ≡ₚ selected fold_case fold_eq no_time no_time no_text (Some "ACME") (q_Filters demo_payload) demo_blueprints.
Proof.
  pose proof demo_names as Hn. destruct (demo_answer (Some "ACME")) as [l|] eqn:E; [|discriminate Hn].
  destruct (QueryBlueprints_spec fold_case fold_eq no_time no_time no_text (fun _ => true) (Ok demo_blueprints) demo_payload
    (Some "ACME") l E) as (listed & sorted & <-%Ok_inj & -> & Hp & _).
  exists sorted. split; [reflexivity|]. split; [exact Hn|exact Hp].
Defined.

Lemma QueryBlueprints_confined_witness : exists l b, demo_answer (Some "acme") = Ok l /\ b ∈ l /\ bs_Org b = "acme" /\
  (bs_IsGlobal b = true \/ exists o, Some "acme" = Some o /\ o <> "" /\ fold_eq (bs_Org b) o = true).
Proof.
  do 2 eexists. split; [vm_compute; reflexivity|]. split; [left|]. split; [reflexivity|].
  apply (QueryBlueprints_confined fold_case fold_eq no_time no_time no_text (fun _ => true) (Ok demo_blueprints) demo_payload
    (Some "acme") _ _ eq_refl); [left|discriminate].
Defined.
