(* ===== verification/Effects.v ===== *)
(** * Programs with calls

    Code that talks to the Kubernetes API, to Helm, to the identity service or
    to a channel is a tree of calls: each node makes a call of a signature [E] and
    continues with any answer of its type. What such code guarantees is proved
    for every answer, by following its calls with an automaton; what it computes
    is evaluated under a handler. Errors are values of type [goerr]. *)

From S2P Require Import Prelude.

(** ** Errors *)

(** The reasons of [apierrors] and [meta] the code asks for. *)
Inductive api_reason : Type :=
| NotFound | AlreadyExists | Conflict | Invalid | BadRequest | NoMatch | OtherReason.

#[export] Instance api_reason_eq_dec : EqDecision api_reason.
Proof. solve_decision. Defined.

(** The errors the code compares with [errors.Is]. *)
Inductive sentinel : Type :=
| ErrWorkspaceNotFound
| ErrInvalidParameters
| ErrLockAlreadyHeld
| ErrNodeUnreachable
| ErrResizeUnsupported
| ErrWebProxyAliasHeld
| ErrNoWebProxyRoute
| ErrReleaseNotFound
| ErrContextDone.

#[export] Instance sentinel_eq_dec : EqDecision sentinel.
Proof. solve_decision. Defined.

(** An error with what it wraps: [Wrap ctx e] is [fmt.Errorf("ctx: %w", e)], and
    [Plain] an error that wraps none. *)
Inductive goerr : Type :=
| Api (r : api_reason)
| Sentinel (s : sentinel)
| Plain (text : string)
| Wrap (text : string) (e : goerr).

#[export] Instance goerr_eq_dec : EqDecision goerr.
Proof. solve_decision. Defined.

(** The reason of the API status an error wraps. *)
Fixpoint reason_of (e : goerr) : option api_reason :=
  match e with
  | Api r => Some r
  | Wrap _ e => reason_of e
  | _ => None
  end.

Definition is_reason (r : api_reason) (e : goerr) : bool := bool_decide (reason_of e = Some r).

(** [apierrors.IsNotFound(err)], [apierrors.IsAlreadyExists(err)]. *)
Definition IsNotFound : goerr -> bool := is_reason NotFound.
Definition IsAlreadyExists : goerr -> bool := is_reason AlreadyExists.

(** [errors.Is(err, s)]. *)
Fixpoint errors_is (s : sentinel) (e : goerr) : bool :=
  match e with
  | Sentinel s' => bool_decide (s = s')
  | Wrap _ e => errors_is s e
  | _ => false
  end.

(** The result of a call that may fail. *)
Abbreviation answer := (result goerr).

(** ** Programs *)

Inductive prog (E : Type -> Type) (R : Type) : Type :=
| Ret (r : R)
| Vis {X : Type} (e : E X) (k : X -> prog E R).
Arguments Ret {E R} r.
Arguments Vis {E R X} e k.

Fixpoint prog_bind_ {E A B} (f : A -> prog E B) (m : prog E A) : prog E B :=
  match m with
  | Ret a => f a
  | Vis e k => Vis e (fun x => prog_bind_ f (k x))
  end.

#[export] Instance prog_ret E : MRet (prog E) := fun A a => Ret a.
#[export] Instance prog_bind E : MBind (prog E) := @prog_bind_ E.

(** One call. *)
Definition call {E X} (e : E X) : prog E X := Vis e Ret.

(** [x, err := m; if err != nil { return err }]. *)
Definition try_bind {E A B} (m : prog E (answer A)) (f : A -> prog E (answer B)) : prog E (answer B) :=
  m ≫= fun r => match r with Ok a => f a | Err e => Ret (Err e) end.

(** [if err != nil { return fmt.Errorf("text: %w", err) }]. *)
Definition wrapping {E A} (text : string) (m : prog E (answer A)) : prog E (answer A) :=
  m ≫= fun r => Ret (res_wrap (Wrap text) r).

Declare Scope prog_scope.
Notation "'let?' x ':=' m 'in' k" := (try_bind m (fun x => k))
  (at level 200, x pattern, m at level 200, k at level 200, right associativity) : prog_scope.
Notation "'let!' x ':=' m 'in' k" := (mbind (M := prog _) (fun x => k) m)
  (at level 200, x pattern, m at level 200, k at level 200, right associativity) : prog_scope.
#[global] Open Scope prog_scope.

(** ** Evaluation under a handler *)

Section handler.
Context {E : Type -> Type} {S : Type} (h : forall X, S -> E X -> S * X).

Fixpoint run {R} (m : prog E R) (s : S) : S * R :=
  match m with
  | Ret r => (s, r)
  | Vis e k => let '(s, x) := h _ s e in run (k x) s
  end.

Lemma run_bind {A B} (m : prog E A) (f : A -> prog E B) s :
  run (m ≫= f) s = let '(s, a) := run m s in run (f a) s.
Proof.
  revert s. induction m as [a|X e k IH]; intros s; cbn; [done|]. destruct (h X s e) as [s' x]. apply IH.
Qed.

Lemma run_call {X} (e : E X) s : run (call e) s = h X s e.
Proof. cbn. by destruct (h X s e). Qed.
End handler.

(** ** Traces *)

(** A call with its answer. *)
Inductive event (E : Type -> Type) : Type :=
| Did {X : Type} (e : E X) (x : X).
Arguments Did {E X} e x.

(** The calls a program makes, with any answers, up to its result. *)
Inductive traces {E : Type -> Type} {R} : prog E R -> list (event E) -> R -> Prop :=
| traces_ret r : traces (Ret r) [] r
| traces_vis {X} (e : E X) (k : X -> prog E R) x t r : traces (k x) t r -> traces (Vis e k) (Did e x :: t) r.

Lemma traces_bind {E A B} (m : prog E A) (f : A -> prog E B) t r :
  traces (m ≫= f) t r <-> exists t1 t2 a, t = t1 ++ t2 /\ traces m t1 a /\ traces (f a) t2 r.
Proof.
  split.
  - revert t. induction m as [a|X e k IH]; intros t.
    + intros H. exists [], t, a. split; [done|]. split; [constructor|done].
    + change (Vis e k ≫= f) with (Vis e (fun x => k x ≫= f)). intros H.
      remember (Vis e (fun x => k x ≫= f)) as m eqn:Em. destruct H as [r|Y e' k' x t r H]; [done|].
      assert (Hk : exists x0 : X, Did e' x = Did e x0 /\ traces (k x0 ≫= f) t r).
      { revert x H. refine (match Em in _ = m' return
          match m' with Ret _ => True | @Vis _ _ Y0 e0 k0 =>
            forall x, traces (k' x) t r -> exists x0 : Y0, Did e' x = Did e0 x0 /\ traces (k0 x0) t r end
          with eq_refl => _ end). intros x H. by exists x. }
      destruct Hk as (x0 & Heq & Hx0). rewrite Heq.
      destruct (IH x0 t Hx0) as (t1 & t2 & a & -> & H1 & H2). exists (Did e x0 :: t1), t2, a.
      split; [done|]. split; [by constructor|done].
  - intros (t1 & t2 & a & -> & H1 & H2). induction H1; cbn; [done|]. constructor. by apply IHtraces.
Qed.

(** A program returns, whatever is answered, as long as something is: it makes
    finitely many calls. *)
Theorem traces_exist {E R} (m : prog E R) :
  (forall X, E X -> inhabited X) -> exists t r, traces m t r.
Proof.
  intros HE. induction m as [r|X e k IH]; [by exists [], r; constructor|].
  destruct (HE X e) as [x]. destruct (IH x) as (t & r & H). exists (Did e x :: t), r. by constructor.
Qed.

(** ** Following the calls *)

(** What an automaton says of a call and its answer: the call must not be made,
    the environment does not answer so, or a next state. *)
Inductive judgement (S : Type) : Type := Forbidden | Excluded | Next (s : S).
Arguments Forbidden {S}.
Arguments Excluded {S}.
Arguments Next {S} s.

Section conform.
Context {E : Type -> Type} {S : Type} (step : S -> forall X, E X -> X -> judgement S).

(** Every call of [m] from [s] is allowed, and its result satisfies [Q]. *)
Fixpoint conform {R} (m : prog E R) (s : S) (Q : S -> R -> Prop) : Prop :=
  match m with
  | Ret r => Q s r
  | Vis e k => forall x, match step s _ e x with
                         | Forbidden => False
                         | Excluded => True
                         | Next s => conform (k x) s Q
                         end
  end.

Lemma conform_mono {R} (m : prog E R) s (Q Q' : S -> R -> Prop) :
  conform m s Q -> (forall s r, Q s r -> Q' s r) -> conform m s Q'.
Proof.
  intros H HQ. revert s H. induction m as [r|X e k IH]; intros s H; cbn in *; [by apply HQ|].
  intros x. specialize (H x). destruct (step s X e x); [done..|]. by apply IH.
Qed.

Lemma conform_bind {A B} (m : prog E A) (f : A -> prog E B) s (Q : S -> B -> Prop) :
  conform m s (fun s a => conform (f a) s Q) -> conform (m ≫= f) s Q.
Proof.
  revert s. induction m as [r|X e k IH]; intros s; cbn; [done|]. intros H x. specialize (H x).
  destruct (step s X e x); [done..|]. by apply IH.
Qed.

Lemma conform_bind_inv {A B} (m : prog E A) (f : A -> prog E B) s (Q : S -> B -> Prop) :
  conform (m ≫= f) s Q -> conform m s (fun s a => conform (f a) s Q).
Proof.
  revert s. induction m as [r|X e k IH]; intros s; cbn; [done|]. intros H x. specialize (H x).
  destruct (step s X e x); [done..|]. by apply IH.
Qed.

(** A rule for sequencing with an intermediate assertion. *)
Lemma conform_seq {A B} (m : prog E A) (f : A -> prog E B) s (P : S -> A -> Prop) (Q : S -> B -> Prop) :
  conform m s P -> (forall s a, P s a -> conform (f a) s Q) -> conform (m ≫= f) s Q.
Proof. intros Hm Hf. apply conform_bind. by eapply conform_mono. Qed.

Lemma conform_call {X} (e : E X) s (Q : S -> X -> Prop) :
  (forall x, match step s X e x with Forbidden => False | Excluded => True | Next s => Q s x end) ->
  conform (call e) s Q.
Proof. done. Qed.

Lemma conform_and {R} (m : prog E R) s (Q Q' : S -> R -> Prop) :
  conform m s Q -> conform m s Q' -> conform m s (fun s r => Q s r /\ Q' s r).
Proof.
  revert s. induction m as [r|X e k IH]; intros s; cbn; [done|]. intros H H' x. specialize (H x). specialize (H' x).
  destruct (step s X e x); [done..|]. by apply IH.
Qed.

(** [x, err := m; if err != nil { return err }; f(x)], with the error wrapped or not. *)
Lemma conform_try {A B} (m : prog E (answer A)) (f : A -> prog E (answer B)) s (Q : S -> answer B -> Prop) :
  conform m s (fun s r => match r with Ok a => conform (f a) s Q | Err e => Q s (Err e) end) ->
  conform (try_bind m f) s Q.
Proof.
  intros H. unfold try_bind. apply conform_bind. eapply conform_mono; [exact H|]. by intros s' [a|e].
Qed.

Lemma conform_wrap {A B} text (m : prog E (answer A)) (f : A -> prog E (answer B)) s (Q : S -> answer B -> Prop) :
  conform m s (fun s r => match r with Ok a => conform (f a) s Q | Err e => Q s (Err (Wrap text e)) end) ->
  conform (try_bind (wrapping text m) f) s Q.
Proof.
  intros H. apply conform_try. unfold wrapping. apply conform_bind. eapply conform_mono; [exact H|]. by intros s' [a|e].
Qed.

(** The automaton along a trace. *)
Fixpoint accept (s : S) (t : list (event E)) : judgement S :=
  match t with
  | [] => Next s
  | Did e x :: t => match step s _ e x with Next s => accept s t | v => v end
  end.

(** What is proved by following calls holds of every trace. *)
Theorem conform_sound {R} (m : prog E R) s (Q : S -> R -> Prop) t r :
  conform m s Q -> traces m t r ->
  match accept s t with Forbidden => False | Excluded => True | Next s => Q s r end.
Proof.
  intros H Ht. revert s H. induction Ht as [r|X e k x t r Ht IH]; intros s H; cbn in *; [done|].
  specialize (H x). destruct (step s X e x); [done..|]. by apply IH.
Qed.
End conform.

(** Every call satisfies [P]. *)
Definition only {E R} (P : forall X, E X -> bool) (m : prog E R) : Prop :=
  conform (fun _ X e _ => if P X e then Next tt else Forbidden) m tt (fun _ _ => True).

Lemma only_traces {E R} (P : forall X, E X -> bool) (m : prog E R) t r :
  only P m -> traces m t r -> Forall (fun ev => match ev with Did e _ => P _ e = true end) t.
Proof.
  unfold only. intros H Ht. induction Ht as [r|X e k x t r Ht IH]; [done|]. cbn in H. specialize (H x).
  destruct (P X e) eqn:E0; [|done]. constructor; [done|]. by apply IH.
Qed.

Lemma only_bind {E A B} (P : forall X, E X -> bool) (m : prog E A) (f : A -> prog E B) :
  only P m -> (forall a, only P (f a)) -> only P (m ≫= f).
Proof. intros Hm Hf. unfold only in *. eapply conform_seq; [exact Hm|]. intros [] a _. apply Hf. Qed.

Lemma only_mono {E R} (P P' : forall X, E X -> bool) (m : prog E R) :
  (forall X e, P X e = true -> P' X e = true) -> only P m -> only P' m.
Proof.
  intros HP. unfold only. induction m as [r|X e k IH]; cbn; [done|]. intros H x. specialize (H x).
  destruct (P X e) eqn:E0; [|done]. rewrite (HP _ _ E0). by apply IH.
Qed.

(** A program whose calls do not move the automaton leaves its state. *)
Lemma steady {E S R} (step : S -> forall X, E X -> X -> judgement S) (P : forall X, E X -> bool) (m : prog E R) s
    (Q : S -> R -> Prop) :
  only P m ->
  (forall X e x, P X e = true -> step s X e x = Next s \/ step s X e x = Excluded) ->
  (forall r, Q s r) -> conform step m s Q.
Proof.
  intros Hm Hs HQ. unfold only in Hm. induction m as [r|X e k IH]; cbn in *; [apply HQ|].
  intros x. specialize (Hm x). destruct (P X e) eqn:E0; [|done]. destruct (Hs X e x E0) as [->| ->]; [|done]. by apply IH.
Qed.

(** An invariant of the states that every call of a class keeps. *)
Lemma invariant_kept {E S R} (step : S -> forall X, E X -> X -> judgement S) (P : forall X, E X -> bool) (I : S -> Prop)
    (m : prog E R) s :
  only P m -> I s ->
  (forall s X e x, I s -> P X e = true -> match step s X e x with Forbidden => False | Excluded => True | Next s => I s end) ->
  conform step m s (fun s _ => I s).
Proof.
  intros Hm Hs HI. unfold only in Hm. revert s Hs. induction m as [r|X e k IH]; intros s Hs; cbn in *; [done|].
  intros x. specialize (Hm x). specialize (HI s X e x Hs). destruct (P X e) eqn:E0; [|done].
  specialize (HI eq_refl). destruct (step s X e x); [done..|]. by apply IH.
Qed.

(** ** Automation *)

(** Take the program apart at its head: a call is split on its answer. *)
Ltac conform_step :=
  lazymatch goal with
  | |- conform _ (Ret _) _ _ => cbn [conform]
  | |- conform _ (call _) _ _ => apply conform_call
  | |- conform _ (Vis _ _) _ _ => cbn [conform]
  | |- conform _ (mbind _ _) _ _ => apply conform_bind
  | |- conform _ (wrapping _ _) _ _ => unfold wrapping
  | |- conform _ (try_bind _ _) _ _ => unfold try_bind
  | |- conform _ (match ?x with _ => _ end) _ _ => destruct x eqn:?
  | |- conform _ (let _ := _ in _) _ _ => cbv zeta
  end.

(** Every call of a program is in a class that computes to [true]. *)
Ltac only_auto :=
  unfold only; repeat conform_step; try done; intros; rewrite ?String.eqb_refl; try done; cbn; repeat case_goal; try done.
