(* ===== verification/Values.v ===== *)
(** * The values of a workspace's chart

    internal/workspace/workspace.go (Values and what it calls), config.go,
    overcommit.go and the node selectors: what the provisioner hands to Helm for
    one workspace, from its blueprint, its owner and the configuration. *)

From S2P Require Import Prelude GoStrings Yaml DnsLabel PodState Podman Validate Effects.

(** ** Node selectors *)

Section selectors.
(** [validation.IsQualifiedName] and [validation.IsValidLabelValue] of
    apimachinery accept. *)
Variables qualified_name label_value : string -> bool.

(** One value of a key; [seen] are those kept so far.

    src/internal/workspace/workspace.go:832-846 ParseNodeSelectors *)
Fixpoint parse_values (k raw : string) (seen : list string) (vs : list string) : answer (list string) :=
  match vs with
  | [] => Ok seen
  | v :: vs =>
      let v := trim_space v in
      if String.eqb v "" then Err (Plain "empty value")
      else if negb (label_value v) then Err (Plain "invalid node selector value")
      else if bool_decide (v ∈ seen) then parse_values k raw seen vs
      else parse_values k raw (seen ++ [v]) vs
  end.

(** The selectors in any order of the Go map; a key without a value is not
    possible, since splitting gives at least one part.

    src/internal/workspace/workspace.go:826-849 ParseNodeSelectors *)
Fixpoint ParseNodeSelectors (selectors : list (string * string)) : answer (gmap string (list string)) :=
  match selectors with
  | [] => Ok ∅
  | (k, raw) :: selectors =>
      if negb (qualified_name k) then Err (Plain "invalid node selector key")
      else
        match parse_values k raw [] (split_byte (Ascii.ascii_of_nat 44) raw) with
        | Err e => Err e
        | Ok vs => insert k vs <$> ParseNodeSelectors selectors
        end
  end.
End selectors.

(** ** The workspace *)

(** [models.Resources]: the limits and the overcommit ratios, floats in Go. *)
Record Resources (F : Type) : Type := mkResources {
  r_CPU : string;
  r_Memory : string;
  r_Overcommit : option (option F * option F);
}.
Arguments mkResources {F}.
Arguments r_CPU {F}.
Arguments r_Memory {F}.
Arguments r_Overcommit {F}.

(** A storage of a blueprint, with what provisioning reads beside [Podman.Storage]. *)
Record WsStorage : Type := mkWsStorage {
  wst_storage : Storage;
  wst_Id : string;
  wst_Annotations : gmap string string;
}.

(** What the provisioner reads of [models.Blueprint]; [b_rest] is the rest of it. *)
Record WsBlueprint (F X : Type) : Type := mkWsBlueprint {
  b_Name : string;
  b_K8shelldImage : string;
  b_AllowAnyNS : bool;
  b_AllowAnySA : bool;
  b_IgnoreOrphans : list string;
  b_Resources : Resources F;
  b_Podman : Blueprint;
  b_NetworkPolicyClass : string;
  b_WebProxyAlias : option string;
  b_RepoAddress : string;
  b_RepoOwner : string;
  b_RepoName : string;
  b_RepoRef : string;
  b_Storages : gmap string WsStorage;
  b_rest : X;
}.
Arguments mkWsBlueprint {F X}.
Arguments b_Name {F X}.
Arguments b_K8shelldImage {F X}.
Arguments b_AllowAnyNS {F X}.
Arguments b_AllowAnySA {F X}.
Arguments b_IgnoreOrphans {F X}.
Arguments b_Resources {F X}.
Arguments b_Podman {F X}.
Arguments b_NetworkPolicyClass {F X}.
Arguments b_WebProxyAlias {F X}.
Arguments b_RepoAddress {F X}.
Arguments b_RepoOwner {F X}.
Arguments b_RepoName {F X}.
Arguments b_RepoRef {F X}.
Arguments b_Storages {F X}.
Arguments b_rest {F X}.

(** What it reads of [models.User]. *)
Record WsUser : Type := mkWsUser {
  u_Username : string;
  u_Organization : string;
  u_Source : string;
  u_UID : Z;
  u_GID : Z;
}.

(** A canonical user string: its text and the canonical id derived from it. *)
Record CanonicalUserStr : Type := mkUserStr { us_Text : string; us_CanonicalId : string }.

(** A workspace object: [w_blueprint] and [w_user] are [None] on the minimal ones made
    for deletion.

    src/internal/workspace/workspace.go:56-81 Workspace *)
Record WorkspaceObj (F X : Type) : Type := mkWorkspaceObj {
  wo_Name : string;
  wo_JobId : string;
  wo_blueprint : option (WsBlueprint F X);
  wo_blueprintChain : list string;
  wo_blueprintRevision : string;
  wo_appliedObligations : gmap string string;
  wo_user : option WsUser;
  wo_userStr : option CanonicalUserStr;
  wo_locked : bool;
  wo_provisionMode : string;
  wo_workloadName : string;
  wo_workloadNamespace : string;
  wo_workloadKind : string;
  wo_pat : string;
  wo_canonicalId : string;
  wo_userEnvVars : gmap string string;
  wo_nodeSelectors : gmap string (list string);
}.
Arguments mkWorkspaceObj {F X}.
Arguments wo_Name {F X}.
Arguments wo_JobId {F X}.
Arguments wo_blueprint {F X}.
Arguments wo_blueprintChain {F X}.
Arguments wo_blueprintRevision {F X}.
Arguments wo_appliedObligations {F X}.
Arguments wo_user {F X}.
Arguments wo_userStr {F X}.
Arguments wo_locked {F X}.
Arguments wo_provisionMode {F X}.
Arguments wo_workloadName {F X}.
Arguments wo_workloadNamespace {F X}.
Arguments wo_workloadKind {F X}.
Arguments wo_pat {F X}.
Arguments wo_canonicalId {F X}.
Arguments wo_userEnvVars {F X}.
Arguments wo_nodeSelectors {F X}.

(** What Values reads of the configuration and the Helm client. *)
Record ProvisionerConfig : Type := mkConfig {
  cf_TargetNamespace : string;
  cf_Namespace : string;
  cf_CertManager : yvalue;
  cf_CertManagerEnabled : bool;
  cf_Registry : yvalue;
  cf_AppVersion : string;
  cf_Commit : string;
  cf_APIServerEnabled : bool;
  cf_SaToken : yvalue;
  cf_Shells : yvalue;
}.

(** ** The parts of the values *)

Section values.
Context {F X : Type}.
#[local] Notation Bp := (WsBlueprint F X).
#[local] Notation Ws := (WorkspaceObj F X).

(** src/internal/workspace/workspace.go:901-910 appVersion *)
Definition appVersion (bp : Bp) : string :=
  if String.eqb (b_K8shelldImage bp) "" then "1.0.0"
  else match split_byte (Ascii.ascii_of_nat 58) (b_K8shelldImage bp) with
       | _ :: _ :: _ as parts => trim_prefix (List.last parts "") "v"
       | _ => "1.0.0"
       end.

(** [m["key"] = v] on a [map[string]interface{}] as a list of bindings. *)
Definition yset (key : string) (v : yvalue) (m : list (string * yvalue)) : list (string * yvalue) :=
  List.filter (fun kv => negb (String.eqb kv.1 key)) m ++ [(key, v)].

(** The text of a value that is a string, "" for another one: [s, _ := v.(string)]. *)
Definition string_or_empty (v : option yvalue) : string := default "" (v ≫= as_string).

(** [models.InitScriptFileName] of the common module. *)
Variable InitScriptFileName : nat -> string -> string.

Definition attach_file (i : nat) (entry : yvalue) : yvalue :=
  match entry with
  | YMap m => YMap (yset "__file" (YStr (InitScriptFileName i (string_or_empty (Some (yfield "name" m))))) m)
  | _ => entry
  end.

(** src/internal/workspace/workspace.go:924-937 attachInitScriptFiles *)
Definition attachInitScriptFiles (values : gmap string yvalue) : gmap string yvalue :=
  match values !! "initScripts" with
  | Some (YSeq scripts) => <["initScripts" := YSeq (imap attach_file scripts)]> values
  | _ => values
  end.

(** One of the two defaults: a label for a key that is unset.

    src/internal/workspace/workspace.go:947-956 applyDNSIdentityDefaults *)
Definition default_label (key from : string) (values : gmap string yvalue) : gmap string yvalue :=
  if String.eqb (string_or_empty (values !! key)) "" then
    let label := NormalizeDNSLabel from in
    if String.eqb label "" then values else <[key := YStr label]> values
  else values.

(** src/internal/workspace/workspace.go:946-957 applyDNSIdentityDefaults *)
Definition applyDNSIdentityDefaults (values : gmap string yvalue) (workspaceName organization : string)
    : gmap string yvalue :=
  default_label "subdomain" organization (default_label "hostname" workspaceName values).

(** ** Overcommit *)

(** [resource.ParseQuantity] with [MilliValue] and [Value], and the two ways a
    quantity is printed; [quotient n r] is [int64(float64(n) / r)]. *)
Variable ParseMilli ParseBytes : string -> option Z.
Variable show_milli show_bytes : Z -> string.
Variable quotient : Z -> F -> Z.

(** src/internal/workspace/overcommit.go:13-13 bytesPerMi *)
Definition bytesPerMi : Z := 1024 * 1024.

(** src/internal/workspace/overcommit.go:28-37 overcommitRequests *)
Definition cpu_request (cpu : string) (ratio : F) : option Z :=
  (fun limit => Z.max 1 (quotient limit ratio)) <$> ParseMilli cpu.

(** Whole mebibytes, at least one.

    src/internal/workspace/overcommit.go:40-49 overcommitRequests *)
Definition memory_request (memory : string) (ratio : F) : option Z :=
  (fun limit => Z.max 1 (Z.quot (quotient limit ratio) bytesPerMi) * bytesPerMi)%Z <$> ParseBytes memory.

(** src/internal/workspace/overcommit.go:20-56 overcommitRequests *)
Definition overcommitRequests (res : Resources F) : answer (option (list (string * yvalue))) :=
  match r_Overcommit res with
  | None => Ok None
  | Some (cpu, memory) =>
      match (match cpu with
             | None => Ok []
             | Some ratio => match cpu_request (r_CPU res) ratio with
                             | None => Err (Plain "invalid cpu limit")
                             | Some milli => Ok [("cpu", YStr (show_milli milli))]
                             end
             end) with
      | Err e => Err e
      | Ok cpu_out =>
          match (match memory with
                 | None => Ok []
                 | Some ratio => match memory_request (r_Memory res) ratio with
                                 | None => Err (Plain "invalid memory limit")
                                 | Some bytes => Ok [("memory", YStr (show_bytes bytes))]
                                 end
                 end) with
          | Err e => Err e
          | Ok memory_out => Ok (match cpu_out ++ memory_out with [] => None | out => Some out end)
          end
      end
  end.

(** A nil map as a value. *)
Definition requests_value (r : option (list (string * yvalue))) : yvalue :=
  match r with None => YNil | Some m => YMap m end.

(** ** The files of the pod *)

(** An entry of the allow list of the k8shelld server. *)
Record AllowedCaller : Type := mkCaller { ac_Namespace : string; ac_ServiceAccount : string }.

(** The configuration of k8shelld, less its constant switches. *)
Record K8shelldConfig : Type := mkK8shelldConfig {
  kc_Port : Z;
  kc_EnableTLS : bool;
  kc_CertFile : string;
  kc_KeyFile : string;
  kc_Allowed : list AllowedCaller;
  kc_ApiServerEnabled : bool;
  kc_ApiServerAddress : string;
  kc_CheckInterval : Z;
  kc_Exclude : list string;
  kc_SaToken : yvalue;
  kc_Shells : yvalue;
}.

(** The configuration that is written, before it is printed as YAML.

    src/internal/workspace/config.go:19-67 buildConfigYAML *)
Definition k8shelld_config (cf : ProvisionerConfig) (bp : Bp) (customNamespace : string) : K8shelldConfig :=
  let namespace := if String.eqb customNamespace "" then cf_Namespace cf else customNamespace in
  let tls := cf_CertManagerEnabled cf in
  {| kc_Port := 2822; kc_EnableTLS := tls;
     kc_CertFile := if tls then "/etc/tls/k8shelld/tls.crt" else "";
     kc_KeyFile := if tls then "/etc/tls/k8shelld/tls.key" else "";
     kc_Allowed :=
       [mkCaller (if b_AllowAnyNS bp then "*" else namespace) (if b_AllowAnySA bp then "*" else "ssh-proxy");
        mkCaller namespace "api-server"];
     kc_ApiServerEnabled := cf_APIServerEnabled cf;
     kc_ApiServerAddress := "http://api-server." +:+ namespace +:+ ":9101";
     kc_CheckInterval := 5; kc_Exclude := b_IgnoreOrphans bp;
     kc_SaToken := cf_SaToken cf; kc_Shells := cf_Shells cf |}.

(** yaml.v3 and encoding/json: the maps of the structures of the common module,
    the bytes of the files, each [None] when they fail. *)
Variable blueprint_map : Bp -> option (gmap string yvalue).
Variable user_map : WsUser -> option yvalue.
Variable profile_map : WsUser -> option (gmap string yvalue).
Variable config_yaml : K8shelldConfig -> option string.
Variable map_yaml : gmap string yvalue -> option string.
Variable blueprint_yaml : Bp -> gmap string string -> option string.
Variable identity_b64 : string -> string.
(** The quantity parser and the copy of Effective (Validate.v). *)
Variable ParseQuantity : string -> option Z.
Variable yaml_copy : Blueprint -> option Blueprint.
(** [authz.WorkspaceProvisionModeInject]. *)
Variable ModeInject : string.

(** The numbers are written as texts.

    src/internal/workspace/config.go:80-113 buildProfileYAML *)
Definition buildProfileYAML (user : WsUser) : answer string :=
  match profile_map user with
  | None => Err (Plain "failed to marshal user profile to JSON")
  | Some m =>
      match map_yaml (<["gid" := YStr (pretty (u_GID user))]> (<["uid" := YStr (pretty (u_UID user))]> m)) with
      | None => Err (Plain "failed to marshal user profile YAML")
      | Some out => Ok out
      end
  end.

(** src/internal/workspace/workspace.go:1054-1076 Values *)
Definition blueprint_file (bp : Bp) (chain : list string) (obligations : gmap string string) : answer string :=
  match blueprint_yaml bp obligations with
  | None => Err (Plain "failed to marshal blueprint to YAML")
  | Some text => Ok (match chain with
                     | [] => text
                     | _ => "# inheritance: " +:+ join " -> " chain +:+ String (Ascii.ascii_of_nat 10) "" +:+ text
                     end)
  end.

(** src/internal/workspace/workspace.go:1080-1101 Values *)
Definition values_env (cf : ProvisionerConfig) (w : Ws) (bp : Bp) (env : gmap string yvalue) : gmap string yvalue :=
  let env := (YStr <$> wo_userEnvVars w) ∪ env in
  let env := <["PROVISIONER_VERSION" := YStr (cf_AppVersion cf +:+ "-" +:+ cf_Commit cf)]> env in
  let env := if String.eqb (b_RepoName bp) "" then env
             else <["GIT_REPOREF" := YStr (b_RepoRef bp)]> (<["GIT_REPONAME" := YStr (b_RepoName bp)]>
                  (<["GIT_REPOOWNER" := YStr (b_RepoOwner bp)]> (<["GIT_ADDRESS" := YStr (b_RepoAddress bp)]> env))) in
  let env := <["PROVISION_MODE" := YStr (wo_provisionMode w)]> env in
  if String.eqb (wo_provisionMode w) ModeInject
  then <["WORKLOAD_KIND" := YStr (wo_workloadKind w)]> (<["WORKLOAD_NAMESPACE" := YStr (wo_workloadNamespace w)]>
       (<["WORKLOAD_NAME" := YStr (wo_workloadName w)]> env))
  else env.

(** [values["env"]], nil when it is not a map. *)
Definition env_of (values : gmap string yvalue) : gmap string yvalue :=
  match values !! "env" with Some (YMap m) => list_to_map m | _ => ∅ end.

Definition canonical_id (w : Ws) : string :=
  match wo_userStr w with Some us => us_CanonicalId us | None => wo_canonicalId w end.

(** src/internal/workspace/workspace.go:136-141 canonicalUserStrToBase64 *)
Definition canonicalUserStrToBase64 (us : option CanonicalUserStr) : string :=
  match us with
  | Some us => if String.eqb (us_Text us) "" then "" else identity_b64 (us_Text us)
  | None => ""
  end.

(** The requests of both containers, when there are any.

    src/internal/workspace/workspace.go:987-1006 Values *)
Definition add_requests (bp : Bp) (values : gmap string yvalue) : answer (gmap string yvalue) :=
  match overcommitRequests (b_Resources bp) with
  | Err e => Err (Wrap "failed to derive resource requests" e)
  | Ok main =>
      match overcommitRequests (mkResources (pm_CPU (bp_Podman (b_Podman bp))) (pm_Memory (bp_Podman (b_Podman bp)))
                                            (r_Overcommit (b_Resources bp))) with
      | Err e => Err (Wrap "failed to derive podman resource requests" e)
      | Ok podman =>
          Ok (match main, podman with
              | None, None => values
              | _, _ => <["resourceRequests" := YMap [("main", requests_value main); ("podman", requests_value podman)]]> values
              end)
      end
  end.

(** The keys the provisioner sets.

    src/internal/workspace/workspace.go:1011-1052 Values *)
Definition internal_values (cf : ProvisionerConfig) (w : Ws) (bp : Bp) (user : WsUser)
    (user_value : yvalue) (config profile blueprint : string) : gmap string yvalue :=
  list_to_map
    [("__canonicalid__", YStr (canonical_id w)); ("__user__", user_value); ("__username__", YStr (u_Username user));
     ("__blueprint__", YStr (b_Name bp)); ("__blueprintrevision__", YStr (wo_blueprintRevision w));
     ("__organization__", YStr (u_Organization user)); ("__networkpolicy__", YStr (b_NetworkPolicyClass bp));
     ("__registry__", cf_Registry cf); ("__namespace__", YStr (cf_Namespace cf));
     ("__targetnamespace__", YStr (cf_TargetNamespace cf)); ("__certmanager__", cf_CertManager cf);
     ("__appversion__", YStr (appVersion bp)); ("__identity__", YStr (u_Source user));
     ("__userstr__", YStr (canonicalUserStrToBase64 (wo_userStr w))); ("__jobid__", YStr (wo_JobId w));
     ("__configyaml__", YStr config); ("__profileyaml__", YStr profile); ("__blueprintyaml__", YStr blueprint);
     ("__pat__", YStr (wo_pat w))].

(** The effective blueprint: its podman part expanded.

    src/internal/workspace/workspace.go:968-971 Values *)
Definition effective_blueprint (bp : Bp) (user : WsUser) : answer Bp :=
  match Effective ParseQuantity yaml_copy (b_Podman bp) (Some (Podman.mkUser (u_Username user) (u_UID user) (u_GID user))) with
  | Err _ => Err (Plain "failed to apply podman profile")
  | Ok pod =>
      let '(mkWsBlueprint n ki ns sa io r _ npc wpa ra ro rn rr st x) := bp in
      Ok (mkWsBlueprint n ki ns sa io r pod npc wpa ra ro rn rr st x)
  end.

(** The override of the k8shelld tag is empty in every build and left out; a
    workspace without a user is not rendered.

    src/internal/workspace/workspace.go:963-1113 Workspace.Values *)
Definition Values (cf : ProvisionerConfig) (w : Ws) : answer (gmap string yvalue) :=
  match wo_blueprint w, wo_user w with
  | None, _ => Err (Plain "blueprint is nil for workspace")
  | _, None => Err (Plain "nil user")
  | Some bp0, Some user =>
      match effective_blueprint bp0 user with
      | Err e => Err e
      | Ok bp =>
          match blueprint_map bp with
          | None => Err (Plain "failed to convert blueprint to map")
          | Some values =>
              match add_requests bp values with
              | Err e => Err e
              | Ok values =>
                  let values := applyDNSIdentityDefaults (attachInitScriptFiles values) (wo_Name w) (u_Organization user) in
                  match user_map user with
                  | None => Err (Plain "failed to convert user to map")
                  | Some user_value =>
                      match config_yaml (k8shelld_config cf bp0 "") with
                      | None => Err (Plain "failed to build config YAML")
                      | Some config =>
                          match buildProfileYAML user with
                          | Err e => Err (Wrap "failed to build profile YAML" e)
                          | Ok profile =>
                              match blueprint_file bp0 (wo_blueprintChain w) (wo_appliedObligations w) with
                              | Err e => Err e
                              | Ok blueprint =>
                                  let values := internal_values cf w bp0 user user_value config profile blueprint ∪ values in
                                  let values := <["env" := YMap (map_to_list (values_env cf w bp0 (env_of values)))]> values in
                                  Ok (if bool_decide (wo_nodeSelectors w = ∅) then values
                                      else <["orgNodeSelector" :=
                                              YMap ((fun kv => (kv.1, YSeq (YStr <$> kv.2))) <$> map_to_list (wo_nodeSelectors w))]> values)
                              end
                          end
                      end
                  end
              end
          end
      end
  end.
End values.

(** ** Lemmas *)

Lemma quot_le_max n d : (0 < d)%Z -> (Z.quot n d <= Z.max 0 n)%Z.
Proof.
  intros Hd. destruct (decide (0 <= n)%Z).
  - rewrite Z.quot_div_nonneg by lia. transitivity n; [|lia]. apply Z.div_le_upper_bound; nia.
  - assert (0 <= Z.quot (- n) d)%Z by (apply Z.quot_pos; lia). rewrite Z.quot_opp_l in * by lia. lia.
Qed.

Section selector_lemmas.
Context (qualified_name label_value : string -> bool).

Lemma parse_values_spec k raw vs : forall seen l,
  NoDup seen -> Forall (fun v => v <> "" /\ label_value v = true) seen ->
  parse_values label_value k raw seen vs = Ok l ->
  NoDup l /\ Forall (fun v => v <> "" /\ label_value v = true) l /\
  forall v, v ∈ l <-> v ∈ seen \/ v ∈ trim_space <$> vs.
Proof.
  induction vs as [|v vs IH]; intros seen l Hnd Hall; cbn [parse_values].
  { intros <-%Ok_inj. split_and!; [done..|]. intros v. cbn. rewrite elem_of_nil. naive_solver. }
  cbv zeta. destruct (String.eqb_spec (trim_space v) "") as [|Hne]; [done|].
  destruct (label_value (trim_space v)) eqn:Hl; [|done]. cbn [negb].
  rewrite fmap_cons. setoid_rewrite elem_of_cons. case_bool_decide as Hin; intros H.
  - destruct (IH _ _ Hnd Hall H) as (H1 & H2 & H3). split_and!; [done..|]. intros u. rewrite H3. naive_solver.
  - destruct (IH (seen ++ [trim_space v]) l) as (H1 & H2 & H3); [| |done|].
    + apply NoDup_app. split_and!; [done| |apply NoDup_singleton]. intros u Hu ->%list_elem_of_singleton. done.
    + apply Forall_app. split; [done|]. by constructor.
    + split_and!; [done..|]. intros u. rewrite H3, elem_of_app, list_elem_of_singleton. naive_solver.
Qed.

(** What a node selector of an organization becomes: for every key the values
    are what its commas separate, trimmed, without repetition, none empty and
    each a valid label value, and every key is a valid label key; one bad key
    or value rejects them all. *)
Theorem ParseNodeSelectors_spec selectors out :
  NoDup selectors.*1 ->
  ParseNodeSelectors qualified_name label_value selectors = Ok out ->
  dom out = list_to_set selectors.*1 /\
  forall k raw, (k, raw) ∈ selectors -> qualified_name k = true /\
    exists vs, out !! k = Some vs /\ NoDup vs /\ Forall (fun v => v <> "" /\ label_value v = true) vs /\
      forall v, v ∈ vs <-> v ∈ trim_space <$> split_byte (Ascii.ascii_of_nat 44) raw.
Proof.
  revert out. induction selectors as [|[k raw] selectors IH]; intros out Hnd; cbn [ParseNodeSelectors].
  { intros <-%Ok_inj. split; [done|]. by intros k raw ?%elem_of_nil. }
  destruct (qualified_name k) eqn:Hq; [|done]. cbn [negb].
  destruct (parse_values label_value k raw [] _) as [vs|] eqn:Hv; [|done].
  destruct (ParseNodeSelectors _ _ selectors) as [rest|] eqn:Hr; [|done]. cbn [fmap result_fmap]. intros <-%Ok_inj.
  cbn [fmap list_fmap] in Hnd. apply NoDup_cons in Hnd as [Hk Hnd]. destruct (IH rest Hnd eq_refl) as [Hdom Hall].
  apply parse_values_spec in Hv as (H1 & H2 & H3); [|constructor..].
  split; [by rewrite dom_insert_L, Hdom|]. intros k' raw'. rewrite elem_of_cons. intros [[= -> ->]|Hin].
  - split; [done|]. exists vs. rewrite lookup_insert_eq. split_and!; [done..|]. intros v. rewrite H3, elem_of_nil. naive_solver.
  - destruct (Hall k' raw' Hin) as (Hq' & vs' & Hl & Hrest). split; [done|]. exists vs'. split; [|done].
    rewrite lookup_insert_ne; [done|]. intros ->. apply Hk. apply list_elem_of_fmap. by exists (k', raw').
Qed.
End selector_lemmas.

Lemma ParseNodeSelectors_spec_witness :
  exists out, ParseNodeSelectors (fun _ => true) (fun _ => true) [("pool", "a, b,a"); ("zone", "eu")] = Ok out /\
    out !! "pool" = Some ["a"; "b"] /\ dom out = {["pool"; "zone"]}.
Proof.
  destruct (ParseNodeSelectors (fun _ => true) (fun _ => true) [("pool", "a, b,a"); ("zone", "eu")]) as [out|] eqn:E; [|discriminate E].
  destruct (ParseNodeSelectors_spec (fun _ => true) (fun _ => true) [("pool", "a, b,a"); ("zone", "eu")] out) as [Hd _];
    [repeat constructor; set_solver|exact E|].
  exists out. split; [reflexivity|]. split; [|rewrite Hd; cbn; set_solver].
  apply Ok_inj in E. rewrite <- E. vm_compute. reflexivity.
Defined.

Section value_lemmas.
Context {F X : Type} (InitScriptFileName : nat -> string -> string) (ParseMilli ParseBytes : string -> option Z).
Context (show_milli show_bytes : Z -> string) (quotient : Z -> F -> Z).
Context (blueprint_map : WsBlueprint F X -> option (gmap string yvalue)) (user_map : WsUser -> option yvalue).
Context (profile_map : WsUser -> option (gmap string yvalue)) (config_yaml : K8shelldConfig -> option string).
Context (map_yaml : gmap string yvalue -> option string).
Context (blueprint_yaml : WsBlueprint F X -> gmap string string -> option string) (identity_b64 : string -> string).
Context (ParseQuantity : string -> option Z) (yaml_copy : Blueprint -> option Blueprint) (ModeInject : string).
#[local] Notation Values_ := (Values InitScriptFileName ParseMilli ParseBytes show_milli show_bytes quotient
  blueprint_map user_map profile_map config_yaml map_yaml blueprint_yaml identity_b64 ParseQuantity yaml_copy ModeInject).

(** The parts of the values: the blueprint with its podman part expanded as a map,
    what is added to it, and the keys and the environment of the provisioner. *)
Lemma Values_parts cf w v : Values_ cf w = Ok v ->
  exists bp user ebp m requested uv config profile file, wo_blueprint w = Some bp /\ wo_user w = Some user /\
    effective_blueprint ParseQuantity yaml_copy bp user = Ok ebp /\ blueprint_map ebp = Some m /\
    add_requests ParseMilli ParseBytes show_milli show_bytes quotient ebp m = Ok requested /\
    blueprint_file blueprint_yaml bp (wo_blueprintChain w) (wo_appliedObligations w) = Ok file /\
    let inner := internal_values identity_b64 cf w bp user uv config profile file
                 ∪ applyDNSIdentityDefaults (attachInitScriptFiles InitScriptFileName requested) (wo_Name w) (u_Organization user) in
    (forall k, k <> "env" -> k <> "orgNodeSelector" -> v !! k = inner !! k) /\
    v !! "env" = Some (YMap (map_to_list (values_env ModeInject cf w bp (env_of inner)))).
Proof.
  unfold Values. destruct (wo_blueprint w) as [bp|] eqn:Eb; [|done]. destruct (wo_user w) as [user|] eqn:Eu; [|done].
  destruct (effective_blueprint _ _ bp user) as [ebp|] eqn:Ee; [|done]. destruct (blueprint_map ebp) as [m|] eqn:Em; [|done].
  destruct (add_requests _ _ _ _ _ ebp m) as [values|] eqn:Ea; [|done]. cbv zeta.
  destruct (user_map user) as [uv|]; [|done]. destruct (config_yaml _) as [config|]; [|done].
  destruct (buildProfileYAML _ _ user) as [profile|]; [|done].
  destruct (blueprint_file _ bp _ _) as [file|] eqn:Ef; [|done]. intros <-%Ok_inj.
  exists bp, user, ebp, m, values, uv, config, profile, file. split_and!; [done..| |].
  - intros k H1 H2. case_bool_decide; [by rewrite lookup_insert_ne|]. by rewrite !lookup_insert_ne.
  - case_bool_decide; [by rewrite lookup_insert_eq|]. by rewrite lookup_insert_ne, lookup_insert_eq.
Qed.

(** What the keys of the provisioner are, in terms of the workspace alone. *)
Lemma Values_shape cf w v : Values_ cf w = Ok v ->
  exists bp user uv config profile file rest, wo_blueprint w = Some bp /\ wo_user w = Some user /\
    let inner := internal_values identity_b64 cf w bp user uv config profile file ∪ rest in
    (forall k, k <> "env" -> k <> "orgNodeSelector" -> v !! k = inner !! k) /\
    v !! "env" = Some (YMap (map_to_list (values_env ModeInject cf w bp (env_of inner)))).
Proof.
  intros (bp & user & ebp & m & requested & uv & config & profile & file & Hb & Hu & _ & _ & _ & _ & H)%Values_parts. by eauto 10.
Qed.

(** The token of the object is in the values. *)
Lemma Values_pat cf w v : Values_ cf w = Ok v -> v !! "__pat__" = Some (YStr (wo_pat w)).
Proof.
  intros (bp & user & uv & config & profile & file & rest & _ & _ & H & _)%Values_shape. cbv zeta in H.
  rewrite H by done. apply lookup_union_Some_l; reflexivity.
Qed.

(** Who a workspace belongs to cannot be set by its blueprint: whatever the
    blueprint's own values say, the owner, the organization, the canonical id,
    the network policy class, the namespaces, the token and the revision in
    the chart's values are those of the workspace object. *)
Theorem Values_identity cf w v bp user : Values_ cf w = Ok v -> wo_blueprint w = Some bp -> wo_user w = Some user ->
  v !! "__username__" = Some (YStr (u_Username user)) /\
  v !! "__organization__" = Some (YStr (u_Organization user)) /\
  v !! "__identity__" = Some (YStr (u_Source user)) /\
  v !! "__canonicalid__" = Some (YStr (canonical_id w)) /\
  v !! "__blueprint__" = Some (YStr (b_Name bp)) /\
  v !! "__blueprintrevision__" = Some (YStr (wo_blueprintRevision w)) /\
  v !! "__networkpolicy__" = Some (YStr (b_NetworkPolicyClass bp)) /\
  v !! "__namespace__" = Some (YStr (cf_Namespace cf)) /\
  v !! "__targetnamespace__" = Some (YStr (cf_TargetNamespace cf)) /\
  v !! "__pat__" = Some (YStr (wo_pat w)).
Proof.
  intros (bp' & user' & uv & config & profile & file & rest & Hbp & Hu & H & _)%Values_shape E1 E2.
  rewrite E1 in Hbp. rewrite E2 in Hu. injection Hbp as <-. injection Hu as <-. cbv zeta in H.
  split_and!; rewrite H by done; apply lookup_union_Some_l; reflexivity.
Qed.

Definition reserved_env : list string :=
  ["PROVISIONER_VERSION"; "GIT_ADDRESS"; "GIT_REPOOWNER"; "GIT_REPONAME"; "GIT_REPOREF"; "PROVISION_MODE";
   "WORKLOAD_NAME"; "WORKLOAD_NAMESPACE"; "WORKLOAD_KIND"].

Lemma values_env_other cf (w : WorkspaceObj F X) (bp : WsBlueprint F X) env k : k ∉ reserved_env ->
  values_env ModeInject cf w bp env !! k = ((YStr <$> wo_userEnvVars w) ∪ env) !! k.
Proof.
  unfold reserved_env. rewrite !not_elem_of_cons. intros (N1 & N2 & N3 & N4 & N5 & N6 & N7 & N8 & N9 & _).
  unfold values_env. destruct (String.eqb (wo_provisionMode w) ModeInject), (String.eqb (b_RepoName bp) "");
    by rewrite !lookup_insert_ne by done.
Qed.

(** The environment of the pod: the user's variables override the
    blueprint's, and neither overrides what the provisioner says of itself and
    of how the workspace was provisioned. *)
Theorem Values_env cf w v bp : Values_ cf w = Ok v -> wo_blueprint w = Some bp ->
  exists env (own : gmap string yvalue), v !! "env" = Some (YMap env) /\
    (forall k, k ∉ reserved_env -> (list_to_map env : gmap string yvalue) !! k =
       match wo_userEnvVars w !! k with Some x => Some (YStr x) | None => own !! k end) /\
    (list_to_map env : gmap string yvalue) !! "PROVISION_MODE" = Some (YStr (wo_provisionMode w)) /\
    (list_to_map env : gmap string yvalue) !! "PROVISIONER_VERSION" =
      Some (YStr (cf_AppVersion cf +:+ "-" +:+ cf_Commit cf)) /\
    (b_RepoName bp <> "" -> (list_to_map env : gmap string yvalue) !! "GIT_REPONAME" = Some (YStr (b_RepoName bp))) /\
    (wo_provisionMode w = ModeInject ->
       (list_to_map env : gmap string yvalue) !! "WORKLOAD_NAME" = Some (YStr (wo_workloadName w))).
Proof.
  intros (bp' & user' & uv & config & profile & file & rest & Hbp & _ & _ & H)%Values_shape E. cbv zeta in H.
  rewrite E in Hbp. injection Hbp as <-. eexists _, (env_of (internal_values identity_b64 cf w bp user' uv config profile file ∪ rest)).
  split; [exact H|]. rewrite list_to_map_to_list. split_and!.
  - intros k Hk. rewrite values_env_other by done. rewrite lookup_union, lookup_fmap.
    destruct (wo_userEnvVars w !! k); cbn; [|by rewrite (left_id_L None _)].
    by destruct (env_of _ !! k).
  - unfold values_env. destruct (String.eqb _ ModeInject); [rewrite !lookup_insert_ne by done|]; apply lookup_insert_eq.
  - unfold values_env. destruct (String.eqb _ ModeInject), (String.eqb (b_RepoName bp) "");
      rewrite !lookup_insert_ne by done; apply lookup_insert_eq.
  - intros Hr. unfold values_env. rewrite (proj2 (String.eqb_neq _ _) Hr).
    destruct (String.eqb _ ModeInject); rewrite !lookup_insert_ne by done; apply lookup_insert_eq.
  - intros Hm. unfold values_env. rewrite Hm, String.eqb_refl, !lookup_insert_ne by done. apply lookup_insert_eq.
Qed.

(** Overcommit never asks for nothing: a request that is derived is at least a
    thousandth of a core, or a positive whole number of mebibytes; and with a
    ratio that does not enlarge, it is at most the limit, unless that is less. *)
Theorem overcommit_bounds cpu memory ratio c m :
  (forall n, quotient n ratio <= Z.max 0 n)%Z ->
  cpu_request ParseMilli quotient cpu ratio = Some c -> memory_request ParseBytes quotient memory ratio = Some m ->
  (1 <= c)%Z /\ (bytesPerMi <= m)%Z /\ (m mod bytesPerMi = 0)%Z /\
  (forall limit, ParseMilli cpu = Some limit -> c <= Z.max 1 limit)%Z /\
  (forall limit, ParseBytes memory = Some limit -> m <= Z.max bytesPerMi limit)%Z.
Proof.
  intros Hq. unfold cpu_request, memory_request.
  destruct (ParseMilli cpu) as [lc|]; [|done]. destruct (ParseBytes memory) as [lm|]; [|done]. cbn [fmap option_fmap].
  intros [= <-] [= <-]. pose proof (Hq lc). pose proof (Hq lm). unfold bytesPerMi. change (1024 * 1024)%Z with 1048576%Z.
  split_and!; [lia|lia|by rewrite Z_mod_mult| |].
  - intros limit [= <-]. lia.
  - intros limit [= <-]. destruct (decide (0 <= quotient lm ratio)%Z).
    + rewrite Z.quot_div_nonneg by lia. pose proof (Z.mul_div_le (quotient lm ratio) 1048576). lia.
    + pose proof (quot_le_max (quotient lm ratio) 1048576 eq_refl). lia.
Qed.
End value_lemmas.

(** ** An instance *)

Definition demo_podman : Podman := mkPodman "" false ∅ ∅ ∅ "" "" None None [] "" "" false.

Definition demo_bp : WsBlueprint Z unit :=
  mkWsBlueprint "go" "registry/k8shelld:v2.1" false false [] (mkResources "2" "4096" (Some (Some 4%Z, Some 2%Z)))
    (mkBlueprint "img" "" demo_podman) "user" None "" "acme" "api" "main" ∅ ().

Definition demo_user : WsUser := mkWsUser "alice" "acme" "ldap" 1000 1000.

Definition demo_ws : WorkspaceObj Z unit :=
  mkWorkspaceObj "alice-go" "j1" (Some demo_bp) ["base"; "go"] "r1" ∅ (Some demo_user) (Some (mkUserStr "alice/go" "c1"))
    false "standalone" "" "" "" "tok" "c1" (<["EDITOR" := "vi"]> {["PROVISION_MODE" := "forged"]}) ∅.

Definition demo_config : ProvisionerConfig :=
  mkConfig "ws" "k8shell" YNil true YNil "1.0" "abc" true YNil YNil.

(** A blueprint whose own values try to set the owner. *)
Definition forging_map (_ : WsBlueprint Z unit) : option (gmap string yvalue) :=
  Some (<["env" := YMap [("EDITOR", YStr "nano"); ("LANG", YStr "C")]]> {["__username__" := YStr "root"]}).

Definition demo_values_of : WorkspaceObj Z unit -> answer (gmap string yvalue) :=
  Values (fun _ _ => "script") (fun _ => Some 2000%Z) (fun _ => Some 4294967296%Z) pretty pretty Z.quot
    forging_map (fun _ => Some YNil) (fun _ => Some ∅) (fun _ => Some "") (fun _ => Some "") (fun _ _ => Some "bp")
    (fun s => s) (fun _ => None) (fun b => Some b) "inject" demo_config.

Definition demo_values : answer (gmap string yvalue) := demo_values_of demo_ws.

Lemma demo_values_pat w v : demo_values_of w = Ok v -> v !! "__pat__" = Some (YStr (wo_pat w)).
Proof. apply Values_pat. Qed.

Lemma Values_identity_witness : exists v, demo_values = Ok v /\ v !! "__username__" = Some (YStr "alice").
Proof.
  destruct demo_values as [v|] eqn:E; [|discriminate E]. exists v. split; [reflexivity|].
  destruct (Values_identity (fun _ _ => "script") (fun _ => Some 2000%Z) (fun _ => Some 4294967296%Z) pretty pretty Z.quot
    forging_map (fun _ => Some YNil) (fun _ => Some ∅) (fun _ => Some "") (fun _ => Some "") (fun _ _ => Some "bp")
    (fun s => s) (fun _ => None) (fun b => Some b) "inject" demo_config demo_ws v demo_bp demo_user E eq_refl eq_refl) as [H _].
  exact H.
Defined.

Lemma Values_env_witness : exists v env, demo_values = Ok v /\ v !! "env" = Some (YMap env) /\
  (list_to_map env : gmap string yvalue) !! "EDITOR" = Some (YStr "vi") /\
  (list_to_map env : gmap string yvalue) !! "PROVISION_MODE" = Some (YStr "standalone").
Proof.
  destruct demo_values as [v|] eqn:E; [|discriminate E]. exists v.
  destruct (Values_env (fun _ _ => "script") (fun _ => Some 2000%Z) (fun _ => Some 4294967296%Z) pretty pretty Z.quot
    forging_map (fun _ => Some YNil) (fun _ => Some ∅) (fun _ => Some "") (fun _ => Some "") (fun _ _ => Some "bp")
    (fun s => s) (fun _ => None) (fun b => Some b) "inject" demo_config demo_ws v demo_bp E eq_refl)
    as (env & own & H & Ho & Hm & _).
  exists env. split; [reflexivity|]. split; [exact H|]. split; [|exact Hm].
  rewrite Ho; [reflexivity|]. apply (bool_decide_unpack _). reflexivity.
Defined.

Lemma overcommit_bounds_witness : exists c m,
  cpu_request (fun _ => Some 2000%Z) Z.quot "2" 4%Z = Some c /\
  memory_request (fun _ => Some 4294967296%Z) Z.quot "4Gi" 4%Z = Some m /\ (1 <= c)%Z /\ (bytesPerMi <= m)%Z.
Proof.
  eexists _, _. split; [reflexivity|]. split; [reflexivity|].
  destruct (overcommit_bounds (fun _ => Some 2000%Z) (fun _ => Some 4294967296%Z) Z.quot "2" "4Gi" 4%Z _ _
    (fun n => quot_le_max n 4 eq_refl)
    eq_refl eq_refl) as (H1 & H2 & _).
  split; [exact H1|exact H2].
Defined.
