(* ===== verification/NodePool.v ===== *)
(** * Node pools

    internal/nodepool/nodepool.go and internal/server/nodeselector.go: how many
    nodes have each value of the configured labels, and whether an organization's
    node selectors can be met. *)

From S2P Require Import Prelude.

(** ** Nodes *)

(** What is kept of a node: its labels, whether it takes pods, its conditions as
    type and status. *)
Record Node : Type := mkNode {
  n_Name : string;
  n_Labels : gmap string string;
  n_Unschedulable : bool;
  n_Conditions : list (string * string);
}.

(** The counts are 32-bit.

    src/internal/nodepool/nodepool.go:26-31 Value *)
Record Value : Type := mkValue {
  v_Value : string;
  NodeCount : Z;
  ReadyCount : Z;
  SchedulableCount : Z;
}.

(** src/internal/nodepool/nodepool.go:35-38 Key *)
Record Key : Type := mkKey { k_Key : string; k_Values : list Value }.

(** The first condition of type Ready.

    src/internal/nodepool/nodepool.go:122-124 isReady *)
Definition ready_condition (n : Node) : option (string * string) :=
  List.find (fun c => String.eqb c.1 "Ready") (n_Conditions n).

(** src/internal/nodepool/nodepool.go:121-128 isReady *)
Definition isReady (n : Node) : bool :=
  match ready_condition n with Some c => String.eqb c.2 "True" | None => false end.

(** src/internal/nodepool/nodepool.go:99-119 slimNode *)
Definition slimNode (n : Node) : Node :=
  mkNode (n_Name n) (n_Labels n) (n_Unschedulable n) (match ready_condition n with Some c => [c] | None => [] end).

(** [e.NodeCount++] and the like. *)
Definition incr (z : Z) : Z := wrap32 (z + 1).

(** One node counted for its value of the key.

    src/internal/nodepool/nodepool.go:136-153 summarize *)
Definition count_node (k : string) (byValue : gmap string Value) (n : Node) : gmap string Value :=
  match n_Labels n !! k with
  | None => byValue
  | Some v =>
      let e := default (mkValue v 0 0 0) (byValue !! v) in
      let e := mkValue (v_Value e) (incr (NodeCount e)) (ReadyCount e) (SchedulableCount e) in
      let e := if isReady n
               then mkValue (v_Value e) (NodeCount e) (incr (ReadyCount e))
                      (if n_Unschedulable n then SchedulableCount e else incr (SchedulableCount e))
               else e in
      <[v := e]> byValue
  end.

Section discovery.
(** The order in which Go iterates the map of values. *)
Variable range : gmap string Value -> list (string * Value).

(** src/internal/nodepool/nodepool.go:135-159 summarize *)
Definition summarize_key (nodes : list Node) (k : string) : Key :=
  mkKey k (sort_by v_Value (range (foldl (count_node k) ∅ nodes)).*2).

(** src/internal/nodepool/nodepool.go:132-162 summarize *)
Definition summarize (keys : list string) (nodes : list Node) : list Key := summarize_key nodes <$> keys.

(** Without keys nothing is looked at; the nodes in the store are slim.

    src/internal/nodepool/nodepool.go:81-95 Options *)
Definition Options (keys : list string) (informer : option (list Node)) : list Key :=
  match keys, informer with
  | [], _ | _, None => []
  | _, Some nodes => summarize keys (slimNode <$> nodes)
  end.

(** The keys as the API message has them: a key with the fields of its values.

    src/internal/server/nodeselector.go:17-34 GetNodeSelectorOptions *)
Definition GetNodeSelectorOptions (keys : list string) (informer : option (list Node))
    : list (string * list (string * Z * Z * Z)) :=
  (fun k => (k_Key k, (fun v => (v_Value v, NodeCount v, ReadyCount v, SchedulableCount v)) <$> k_Values k)) <$> Options keys informer.
End discovery.

(** ** Selectors *)

Inductive selector_error : Type :=
| KeyNotConfigured (k : string)
| NoNodeHas (k v : string).

(** The values of the options by key; of two with one key the later counts.

    src/internal/server/nodeselector.go:41-48 validateNodeSelectors *)
Definition option_values (options : list Key) : gmap string (gset string) :=
  foldl (fun m k => <[k_Key k := list_to_set (v_Value <$> k_Values k)]> m) ∅ options.

(** src/internal/server/nodeselector.go:57-65 validateNodeSelectors *)
Definition check_selector (byKey : gmap string (gset string)) (kv : string * list string) : option selector_error :=
  match byKey !! kv.1 with
  | None => Some (KeyNotConfigured kv.1)
  | Some vals => NoNodeHas kv.1 <$> List.find (fun v => negb (bool_decide (v ∈ vals))) kv.2
  end.

Fixpoint first_error {A} (f : A -> option selector_error) (l : list A) : option selector_error :=
  match l with [] => None | x :: l => match f x with Some e => Some e | None => first_error f l end end.

(** The error for the first key in order, [None] when all can be met; [selectors]
    lists the map in any order.

    src/internal/server/nodeselector.go:40-68 validateNodeSelectors *)
Definition validateNodeSelectors (selectors : list (string * list string)) (options : list Key) : option selector_error :=
  first_error (check_selector (option_values options)) (sort_by fst selectors).

(** ** Counts *)

Lemma slimNode_ready n : isReady (slimNode n) = isReady n.
Proof.
  unfold isReady, slimNode, ready_condition. cbn [n_Conditions].
  destruct (List.find _ (n_Conditions n)) as [c|] eqn:E0; [|done]. apply List.find_some in E0 as [_ E0]. cbn [List.find]. by rewrite E0.
Qed.

(** The nodes of a value. *)
Definition has_value (k v : string) (n : Node) : bool := bool_decide (n_Labels n !! k = Some v).

Definition number (p : Node -> bool) (nodes : list Node) : Z := Z.of_nat (length (List.filter p nodes)).

(** What is counted for a value. *)
Definition tally (k v : string) (nodes : list Node) : Value :=
  mkValue v (number (has_value k v) nodes) (number (fun n => has_value k v n && isReady n) nodes)
    (number (fun n => has_value k v n && isReady n && negb (n_Unschedulable n)) nodes).

Lemma number_snoc p nodes n : number p (nodes ++ [n]) = (number p nodes + if p n then 1 else 0)%Z.
Proof. unfold number. rewrite List.filter_app, length_app. cbn. destruct (p n); cbn; lia. Qed.

Lemma number_range p nodes : (0 <= number p nodes <= Z.of_nat (length nodes))%Z.
Proof. unfold number. pose proof (List.filter_length_le p nodes). lia. Qed.

Lemma incr_number p nodes : (Z.of_nat (length nodes) + 1 < 2 ^ 31)%Z -> incr (number p nodes) = (number p nodes + 1)%Z.
Proof. intros Hl. pose proof (number_range p nodes). unfold incr. apply wrap32_id. lia. Qed.

Lemma number_pos p nodes : (0 < number p nodes)%Z <-> exists n, n ∈ nodes /\ p n = true.
Proof.
  unfold number. split.
  - destruct (List.filter p nodes) as [|n l] eqn:E0; cbn; [lia|]. intros _. exists n.
    assert (In n (List.filter p nodes)) as [H1 H2]%List.filter_In by (rewrite E0; by left). by apply list_elem_of_In in H1.
  - intros (n & Hn & Hp). assert (In n (List.filter p nodes)) as H by (apply List.filter_In; by rewrite <- list_elem_of_In).
    destruct (List.filter p nodes); [done|cbn; lia].
Qed.

(** The map after any number of nodes that fits into 32 bits. *)
Lemma count_lookup k nodes v : (Z.of_nat (length nodes) < 2 ^ 31)%Z ->
  foldl (count_node k) ∅ nodes !! v = if (0 <? number (has_value k v) nodes)%Z then Some (tally k v nodes) else None.
Proof.
  induction nodes as [|n nodes IH] using rev_ind; [done|]. rewrite length_app. cbn [length]. intros Hl.
  specialize (IH ltac:(lia)). rewrite foldl_app. cbn [foldl]. unfold count_node at 1. set (m := foldl _ ∅ nodes) in *.
  unfold tally. rewrite !number_snoc. unfold has_value at 2 4 6 8. destruct (n_Labels n !! k) as [v'|] eqn:Ev.
  2: { rewrite bool_decide_eq_false_2 by done. cbn [andb]. rewrite !Z.add_0_r. exact IH. }
  destruct (decide (v' = v)) as [->|Hne].
  2: { rewrite bool_decide_eq_false_2 by congruence. cbn [andb]. rewrite !Z.add_0_r, lookup_insert_ne by done. exact IH. }
  rewrite bool_decide_eq_true_2 by done. cbn [andb]. rewrite lookup_insert_eq, IH.
  pose proof (number_range (has_value k v) nodes) as Hr.
  assert ((0 <? number (has_value k v) nodes + 1)%Z = true) as -> by (apply Z.ltb_lt; lia). f_equal.
  assert (Hdef : default (mkValue v 0 0 0) (if (0 <? number (has_value k v) nodes)%Z then Some (tally k v nodes) else None) = tally k v nodes).
  { destruct (Z.ltb_spec 0 (number (has_value k v) nodes)) as [|Hz]; [done|]. cbn. unfold tally.
    assert (Hno : forall n, n ∈ nodes -> has_value k v n = false).
    { intros n' Hn'. destruct (has_value k v n') eqn:E0; [|done]. assert (0 < number (has_value k v) nodes)%Z; [|lia]. apply number_pos. by exists n'. }
    assert (Hzero : forall q, number (fun n => has_value k v n && q n) nodes = 0%Z).
    { intros q. pose proof (number_range (fun n => has_value k v n && q n) nodes).
      destruct (Z.ltb_spec 0 (number (fun n => has_value k v n && q n) nodes)) as [Hq|]; [|lia].
      apply number_pos in Hq as (n' & Hn' & Hb). by rewrite Hno in Hb. }
    f_equal; [lia| |]; symmetry; [apply Hzero|]. rewrite <- (Hzero (fun n => isReady n && negb (n_Unschedulable n))).
    unfold number. do 2 f_equal. apply List.filter_ext. intros n'. by rewrite andb_assoc. }
  rewrite Hdef. unfold tally. cbn [v_Value NodeCount ReadyCount SchedulableCount].
  destruct (isReady n); cbn [andb]; [destruct (n_Unschedulable n); cbn [negb]|]; rewrite ?Z.add_0_r, ?incr_number by lia; done.
Qed.

Section summary.
Variable range : gmap string Value -> list (string * Value).
Hypothesis range_enumerates : forall m, enumerates (range m) m.

Lemma summary_values k nodes e : (Z.of_nat (length nodes) < 2 ^ 31)%Z ->
  e ∈ k_Values (summarize_key range nodes k) <-> e = tally k (v_Value e) nodes /\ (0 < NodeCount e)%Z.
Proof.
  intros Hl. cbn [summarize_key k_Values]. rewrite elem_of_sort_by, list_elem_of_fmap. split.
  - intros ([v e'] & -> & Hv). rewrite (enumerates_lookup _ _ _ _ (range_enumerates _)), count_lookup in Hv by done. cbn [snd].
    destruct (Z.ltb_spec 0 (number (has_value k v) nodes)); [|done]. injection Hv as <-. done.
  - intros [He Hpos]. exists (v_Value e, e). split; [done|]. rewrite (enumerates_lookup _ _ _ _ (range_enumerates _)), count_lookup by done.
    rewrite He in Hpos. cbn in Hpos. apply Z.ltb_lt in Hpos. by rewrite Hpos, <- He.
Qed.

Lemma tally_value k v nodes : v_Value (tally k v nodes) = v.
Proof. done. Qed.

Lemma summary_NoDup k nodes : (Z.of_nat (length nodes) < 2 ^ 31)%Z -> NoDup (v_Value <$> k_Values (summarize_key range nodes k)).
Proof.
  intros Hl. cbn [summarize_key k_Values]. rewrite (sort_by_perm v_Value). rewrite <- list_fmap_compose.
  assert (Hr : forall l, (forall v e, (v, e) ∈ l -> v_Value e = v) -> (v_Value ∘ snd) <$> l = l.*1).
  { induction l as [|[v e] l IH]; intros H; [done|]. cbn. f_equal; [apply H; by left|]. apply IH. intros v' e' H'. apply H. by right. }
  rewrite Hr; [by eapply enumerates_NoDup, range_enumerates|]. intros v e Hv.
  rewrite (enumerates_lookup _ _ _ _ (range_enumerates _)), count_lookup in Hv by done.
  destruct (0 <? _)%Z; [|done]. by injection Hv as <-.
Qed.

Lemma number_mono (p q : Node -> bool) nodes : (forall n, p n = true -> q n = true) -> (number p nodes <= number q nodes)%Z.
Proof.
  intros H. unfold number. induction nodes as [|n nodes IH]; cbn; [lia|]. specialize (H n).
  destruct (p n), (q n); cbn; lia.
Qed.

(** The options of a key are exactly the values nodes have for it: each value
    once, in order, with the number of nodes that have it, of those that are
    ready, and of those that also take pods; whatever order the map of values is
    iterated in, for fewer nodes than a 32-bit count holds. *)
Theorem summarize_counts k nodes : (Z.of_nat (length nodes) < 2 ^ 31)%Z ->
  let vals := k_Values (summarize_key range nodes k) in
  StronglySorted (key_le v_Value) vals /\ NoDup (v_Value <$> vals) /\
  (forall v, v ∈ v_Value <$> vals <-> exists n, n ∈ nodes /\ n_Labels n !! k = Some v) /\
  (forall e, e ∈ vals -> e = tally k (v_Value e) nodes /\
     (SchedulableCount e <= ReadyCount e <= NodeCount e)%Z /\ (0 < NodeCount e <= Z.of_nat (length nodes))%Z).
Proof.
  intros Hl vals. split_and!.
  - apply sort_by_sorted.
  - by apply summary_NoDup.
  - intros v. rewrite list_elem_of_fmap. split.
    + intros (e & -> & He). apply summary_values in He as [He Hpos]; [|done]. rewrite He in Hpos. cbn in Hpos.
      apply number_pos in Hpos as (n & Hn & Hv). exists n. unfold has_value in Hv. by apply bool_decide_eq_true_1 in Hv.
    + intros (n & Hn & Hv). exists (tally k v nodes). split; [done|]. apply summary_values; [done|]. split; [done|]. cbn.
      apply number_pos. exists n. split; [done|]. by apply bool_decide_eq_true_2.
  - intros e He. apply summary_values in He as [He Hpos]; [|done]. split; [done|]. rewrite He in *. cbn in *.
    pose proof (number_range (has_value k (v_Value e)) nodes).
    split; [split; apply number_mono; intros n Hn; by apply andb_prop in Hn as [? ?]|lia].
Qed.

(** ** Selectors that can be met *)

Lemma option_values_lookup nodes keys k :
  option_values (summarize_key range nodes <$> keys) !! k =
  if bool_decide (k ∈ keys) then Some (list_to_set (v_Value <$> k_Values (summarize_key range nodes k))) else None.
Proof.
  unfold option_values. induction keys as [|k' keys IH] using rev_ind; [done|]. rewrite fmap_app, foldl_app. cbn [fmap list_fmap foldl].
  destruct (decide (k = k')) as [->|Hne].
  - change (k_Key (summarize_key range nodes k')) with k'. rewrite lookup_insert_eq, bool_decide_eq_true_2 by set_solver. done.
  - change (k_Key (summarize_key range nodes k')) with k'. rewrite lookup_insert_ne, IH by done.
    by rewrite (bool_decide_ext (k ∈ keys) (k ∈ keys ++ [k'])) by set_solver.
Qed.

Lemma first_error_none {A} (f : A -> option selector_error) l : first_error f l = None <-> forall x, x ∈ l -> f x = None.
Proof.
  induction l as [|y l IH]; cbn; [split; [|done]; intros _ x Hx; by apply not_elem_of_nil in Hx|]. destruct (f y) as [e|] eqn:E0.
  - split; [done|]. intros H. specialize (H y ltac:(by left)). congruence.
  - rewrite IH. split; [|intros H x Hx; apply H; by right]. intros H x [->|Hx]%elem_of_cons; [done|by apply H].
Qed.

(** An organization's node selectors are accepted exactly when each can be met:
    every key is one of the configured keys, and for every value of it some node,
    ready or not, carries that label; against the options the discovery gives for
    the nodes it keeps. *)
Theorem selectors_accepted keys nodes selectors : (Z.of_nat (length nodes) < 2 ^ 31)%Z ->
  validateNodeSelectors selectors (Options range keys (Some nodes)) = None <->
  forall k vs, (k, vs) ∈ selectors -> k ∈ keys /\ forall v, v ∈ vs -> exists n, n ∈ nodes /\ n_Labels n !! k = Some v.
Proof.
  intros Hl. assert (Hopt : Options range keys (Some nodes) = summarize_key range (slimNode <$> nodes) <$> keys) by by destruct keys.
  unfold validateNodeSelectors. rewrite Hopt, first_error_none.
  assert (Hslim : forall k v, (exists n, n ∈ slimNode <$> nodes /\ n_Labels n !! k = Some v) <-> exists n, n ∈ nodes /\ n_Labels n !! k = Some v).
  { intros k v. split; [intros (n & (n0 & -> & Hn)%list_elem_of_fmap & Hv); by exists n0|].
    intros (n & Hn & Hv). exists (slimNode n). split; [by apply list_elem_of_fmap_2|done]. }
  assert (Hcheck : forall k vs, check_selector (option_values (summarize_key range (slimNode <$> nodes) <$> keys)) (k, vs) = None <->
    k ∈ keys /\ forall v, v ∈ vs -> exists n, n ∈ nodes /\ n_Labels n !! k = Some v).
  { intros k vs. unfold check_selector. cbn [fst snd]. rewrite option_values_lookup. case_bool_decide as Hk; [|split; [done|by intros [? _]]].
    assert (Hv : forall v, v ∈ (list_to_set (v_Value <$> k_Values (summarize_key range (slimNode <$> nodes) k)) : gset string) <->
      exists n, n ∈ nodes /\ n_Labels n !! k = Some v).
    { intros v. rewrite elem_of_list_to_set. destruct (summarize_counts k (slimNode <$> nodes)) as (_ & _ & H & _); [by rewrite length_fmap|].
      by rewrite H, Hslim. }
    split.
    - intros Hf. split; [done|]. intros v Hin. destruct (List.find _ vs) as [v'|] eqn:E0; [done|].
      pose proof (List.find_none _ _ E0 v) as Hn. apply list_elem_of_In in Hin. specialize (Hn Hin). apply negb_false_iff, bool_decide_eq_true in Hn. by apply Hv.
    - intros [_ H]. destruct (List.find _ vs) as [v'|] eqn:E0; [|done]. apply List.find_some in E0 as [Hin Hn].
      apply negb_true_iff, bool_decide_eq_false in Hn. destruct Hn. apply Hv, H. by apply list_elem_of_In. }
  split.
  - intros H k vs Hin. apply Hcheck, H. by apply elem_of_sort_by.
  - intros H [k vs] Hin. apply Hcheck, H. by apply elem_of_sort_by in Hin.
Qed.
End summary.

(** Two nodes, one of them not ready. *)
Definition demo_nodes : list Node :=
  [mkNode "n1" {["pool" := "a"]} false [("Ready", "True")]; mkNode "n2" {["pool" := "b"]} false [("Ready", "False")]].

Lemma summarize_counts_witness : exists e, e ∈ k_Values (summarize_key map_to_list demo_nodes "pool") /\ v_Value e = "b" /\ ReadyCount e = 0%Z.
Proof.
  destruct (summarize_counts map_to_list (fun m => enumerates_self m) "pool" demo_nodes) as (_ & _ & Hv & He); [reflexivity|].
  assert (Hb : "b" ∈ v_Value <$> k_Values (summarize_key map_to_list demo_nodes "pool")).
  { apply Hv. exists (mkNode "n2" {["pool" := "b"]} false [("Ready", "False")]). split; [set_solver|reflexivity]. }
  apply list_elem_of_fmap in Hb as (e & Hb & Hin). exists e. split; [exact Hin|]. split; [by rewrite Hb|].
  destruct (He e Hin) as [-> _]. rewrite <- Hb. reflexivity.
Defined.

Lemma selectors_accepted_witness :
  validateNodeSelectors [("pool", ["b"; "a"])] (Options map_to_list ["pool"] (Some demo_nodes)) = None.
Proof.
  apply (selectors_accepted map_to_list (fun m => enumerates_self m)); [reflexivity|].
  intros k vs Hin. apply list_elem_of_singleton in Hin. injection Hin as -> ->. split; [set_solver|].
  intros v [->|Hv]%elem_of_cons; [|apply list_elem_of_singleton in Hv; subst v].
  - exists (mkNode "n2" {["pool" := "b"]} false [("Ready", "False")]). split; [set_solver|reflexivity].
  - exists (mkNode "n1" {["pool" := "a"]} false [("Ready", "True")]). split; [set_solver|reflexivity].
Defined.

