(* ===== verification/Jobs.v ===== *)
(** * Provisioning jobs and their stream

    internal/server/provision.go: the job record that clients poll, and the loop
    that forwards what an operation reports to the caller's stream and to the
    record, with its progress in percent. Timestamps are left out. *)

From S2P Require Import Prelude GoStrings PodState PodWatch.

(** ** Events and jobs *)

(** [provisionerv1.ProvisionEvent]: a status ([None] is an error), an event of an
    object, a percentage. *)
Inductive ProvisionEvent : Type :=
| StatusEvent (object : string) (status : option WorkspaceStatusMessage) (message : string)
| ObjectEvent (object message : string)
| ProgressEvent (object : string) (percent : Z).

Inductive ProvisionJobStatus : Type := ProvisionJobRunning | ProvisionJobCompleted.

(** [models.ProvisionJob]: its events with their ids, and whether it is stamped as
    finished. *)
Record ProvisionJob : Type := mkProvisionJob {
  pj_ID : string;
  pj_WorkspaceName : string;
  pj_Username : string;
  pj_Status : ProvisionJobStatus;
  pj_Finished : bool;
  pj_Events : list (Z * ProvisionEvent);
}.

(** The job in memory and the records it has handed to the store, latest first.

    src/internal/server/provision.go:702-707 ProvisionJobServer *)
Record ProvisionJobServer : Type := mkJobServer {
  ProvisionJob_ : ProvisionJob;
  NextEventId : Z;
  js_written : list ProvisionJob;
}.

(** src/internal/server/provision.go:710-727 NewProvisionJob *)
Definition NewProvisionJob (id workspace username : string) : ProvisionJobServer :=
  mkJobServer (mkProvisionJob id workspace username ProvisionJobRunning false []) 1 [].

Section load.
(** The record of a job in the store and encoding/json. *)
Variable kv_get : string -> option string.
Variable unmarshal : string -> option ProvisionJob.

(** src/internal/server/provision.go:734-751 LoadProvisionJob *)
Definition LoadProvisionJob (id : string) : option ProvisionJobServer :=
  raw ← kv_get id; job ← unmarshal raw;
  Some (mkJobServer job (Z.of_nat (length (pj_Events job)) + 1) []).
End load.

(** A failed write is only logged; it was handed over all the same.

    src/internal/server/provision.go:781-792 update *)
Definition update (j : ProvisionJobServer) : ProvisionJobServer :=
  mkJobServer (ProvisionJob_ j) (NextEventId j) (ProvisionJob_ j :: js_written j).

(** src/internal/server/provision.go:755-767 AddEvent *)
Definition AddEvent (ev : ProvisionEvent) (j : ProvisionJobServer) : ProvisionJobServer :=
  let '(mkJobServer (mkProvisionJob id ws user st fin evs) next written) := j in
  update (mkJobServer (mkProvisionJob id ws user st fin (evs ++ [(next, ev)])) (next + 1) written).

(** src/internal/server/provision.go:771-779 SetStatus *)
Definition SetStatus (status : ProvisionJobStatus) (j : ProvisionJobServer) : ProvisionJobServer :=
  let '(mkJobServer (mkProvisionJob id ws user _ fin evs) next written) := j in
  let fin := match status with ProvisionJobCompleted => true | ProvisionJobRunning => fin end in
  update (mkJobServer (mkProvisionJob id ws user status fin evs) next written).

(** ** The stream *)

(** The variables of the loop, and what has been handed to the stream.

    src/internal/server/provision.go:274-279 runWorkspaceStream *)
Record stream_state : Type := mkStream {
  sm_job : option ProvisionJobServer;
  provisioningStep : nat;
  progressPct : Z;
  sm_sent : list ProvisionEvent;
}.

(** Sent, and recorded whether or not the send succeeds.

    src/internal/server/provision.go:52-69 sendProvisionEvent *)
Definition sendProvisionEvent (ev : ProvisionEvent) (s : stream_state) : stream_state :=
  mkStream (AddEvent ev <$> sm_job s) (provisioningStep s) (progressPct s) (sm_sent s ++ [ev]).

(** src/internal/server/provision.go:277-277 runWorkspaceStream *)
Definition provisioningMilestones : list Z := [20; 40; 60; 75]%Z.

(** The percentage a status stands for, and the next milestone.

    src/internal/server/provision.go:329-340 runWorkspaceStream *)
Definition percentage (status : WorkspaceStatusMessage) (step : nat) : Z * nat :=
  match status with
  | WorkspaceStatusProvisioning =>
      match provisioningMilestones !! step with Some p => (p, S step) | None => (0%Z, step) end
  | WorkspaceStatusPulling => (50%Z, step)
  | WorkspaceStatusRunning => (100%Z, step)
  | _ => (0%Z, step)
  end.

Section stream.
Variable workspaceName : string.
Variables sendProgress sendEvents : bool.

(** src/internal/server/provision.go:328-351 runWorkspaceStream *)
Definition progress (status : WorkspaceStatusMessage) (s : stream_state) : stream_state :=
  let '(newPerc, step) := percentage status (provisioningStep s) in
  if (progressPct s <? newPerc)%Z
  then sendProvisionEvent (ProgressEvent workspaceName newPerc) (mkStream (sm_job s) step newPerc (sm_sent s))
  else mkStream (sm_job s) step (progressPct s) (sm_sent s).

(** A message of the operation.

    src/internal/server/provision.go:309-351 runWorkspaceStream *)
Definition forward (msg : StreamEvent) (s : stream_state) : stream_state :=
  match msg with
  | StreamStatus object status message =>
      let s := sendProvisionEvent (StatusEvent object (Some status) message) s in
      if sendProgress then progress status s else s
  | StreamEventMsg object message =>
      if sendEvents then sendProvisionEvent (ObjectEvent object message) s else s
  end.

Definition complete (s : stream_state) : stream_state :=
  mkStream (SetStatus ProvisionJobCompleted <$> sm_job s) (provisioningStep s) (progressPct s) (sm_sent s).

(** The operation has succeeded.

    src/internal/server/provision.go:354-381 runWorkspaceStream *)
Definition succeeded (result : option (WorkspaceStatusMessage * string)) (s : stream_state) : stream_state :=
  let '(status, message) := default (WorkspaceStatusUnknown, "") result in
  let s := sendProvisionEvent (StatusEvent workspaceName (Some status) message) s in
  complete (if sendProgress && (progressPct s <? 100)%Z
            then sendProvisionEvent (ProgressEvent workspaceName 100) s else s).

(** The operation has failed.

    src/internal/server/provision.go:386-397 runWorkspaceStream *)
Definition failed (err : string) (s : stream_state) : stream_state :=
  complete (sendProvisionEvent (StatusEvent workspaceName None err) s).

(** What the select of the loop picks. *)
Inductive picked : Type :=
| ContextDone
| Received (msg : StreamEvent)
| OperationDone (result : option (WorkspaceStatusMessage * string))
| OperationFailed (err : string).

Inductive stream_end : Type := StreamCancelled | StreamFinished.

(** The loop on what it picks; it waits when nothing is left.

    src/internal/server/provision.go:266-401 runWorkspaceStream *)
Fixpoint runWorkspaceStream (inputs : list picked) (s : stream_state) : stream_state * option stream_end :=
  match inputs with
  | [] => (s, None)
  | ContextDone :: _ => (s, Some StreamCancelled)
  | Received msg :: inputs => runWorkspaceStream inputs (forward msg s)
  | OperationDone result :: _ => (succeeded result s, Some StreamFinished)
  | OperationFailed err :: _ => (failed err s, Some StreamFinished)
  end.
End stream.

(** The state a stream starts in. *)
Definition stream_start (job : option ProvisionJobServer) : stream_state := mkStream job 0 0 [].

(** ** The record *)

(** Events numbered from one, in order. *)
Definition numbered (j : ProvisionJob) : Prop :=
  (pj_Events j).*1 = Z.of_nat <$> seq 1 (length (pj_Events j)).

(** A job whose events are numbered, with the next id after them, and every record
    it has handed to the store numbered too. *)
Definition job_ok (j : ProvisionJobServer) : Prop :=
  numbered (ProvisionJob_ j) /\ NextEventId j = (Z.of_nat (length (pj_Events (ProvisionJob_ j))) + 1)%Z /\
  Forall numbered (js_written j).

Definition job_events (j : ProvisionJobServer) : list ProvisionEvent := (pj_Events (ProvisionJob_ j)).*2.

Lemma NewProvisionJob_ok id ws user : job_ok (NewProvisionJob id ws user).
Proof. done. Qed.

Lemma AddEvent_ok ev j : job_ok j ->
  job_ok (AddEvent ev j) /\ job_events (AddEvent ev j) = job_events j ++ [ev] /\
  pj_Status (ProvisionJob_ (AddEvent ev j)) = pj_Status (ProvisionJob_ j) /\
  head (js_written (AddEvent ev j)) = Some (ProvisionJob_ (AddEvent ev j)).
Proof.
  destruct j as [[id ws user st fin evs] next written]. intros (Hn & Hnext & Hw). unfold job_ok, numbered, job_events in *. cbn in *.
  assert (Hn' : (evs ++ [(next, ev)]).*1 = Z.of_nat <$> seq 1 (length (evs ++ [(next, ev)]))).
  { rewrite fmap_app, Hn, length_app, Hnext. cbn. rewrite seq_app, fmap_app. cbn. do 3 f_equal. lia. }
  split_and!; [exact Hn'|rewrite length_app; cbn; lia|by constructor|by rewrite fmap_app|done..].
Qed.

Lemma SetStatus_ok status j : job_ok j ->
  job_ok (SetStatus status j) /\ job_events (SetStatus status j) = job_events j /\
  pj_Status (ProvisionJob_ (SetStatus status j)) = status /\
  head (js_written (SetStatus status j)) = Some (ProvisionJob_ (SetStatus status j)).
Proof.
  destruct j as [[id ws user st fin evs] next written]. intros (Hn & Hnext & Hw). unfold job_ok in *. cbn in *.
  split_and!; try done. by constructor.
Qed.

(** A job that is loaded again continues where its record left off: for any
    record the server has handed to the store, whichever write was the last to
    succeed, loading it gives a job with that record whose next event id follows
    the ids in it, without a gap and without repeating one. *)
Theorem LoadProvisionJob_continues kv_get marshal unmarshal j record ev :
  (forall r, unmarshal (marshal r) = Some r) ->
  job_ok j -> record ∈ js_written j -> kv_get (pj_ID record) = Some (marshal record) ->
  exists j', LoadProvisionJob kv_get unmarshal (pj_ID record) = Some j' /\ ProvisionJob_ j' = record /\ job_ok j' /\
    (pj_Events (ProvisionJob_ (AddEvent ev j'))).*1 = Z.of_nat <$> seq 1 (S (length (pj_Events record))).
Proof.
  intros Hjson (_ & _ & Hw) Hr Hkv. eexists. split.
  { unfold LoadProvisionJob. rewrite Hkv. cbn. rewrite Hjson. reflexivity. }
  rewrite Forall_forall in Hw. specialize (Hw _ Hr).
  assert (Hok : job_ok (mkJobServer record (Z.of_nat (length (pj_Events record)) + 1) [])) by (split_and!; [exact Hw|done|constructor]).
  split_and!; [done|exact Hok|]. destruct (AddEvent_ok ev _ Hok) as [[Hn _] _]. unfold numbered in Hn. rewrite Hn.
  destruct record. cbn. rewrite length_app. cbn. by rewrite Nat.add_1_r.
Qed.

Section recorded.
Variable workspaceName : string.
Variables sendProgress sendEvents : bool.

(** The stream [s'] is [s] with more events sent, each also recorded. *)
Definition extends (s s' : stream_state) : Prop :=
  exists more, sm_sent s' = sm_sent s ++ more /\
    match sm_job s, sm_job s' with
    | Some j, Some j' => job_ok j -> job_ok j' /\ job_events j' = job_events j ++ more
    | None, None => True
    | _, _ => False
    end.

Definition status_of_job (s : stream_state) : option ProvisionJobStatus := (fun j => pj_Status (ProvisionJob_ j)) <$> sm_job s.

Lemma extends_refl s : extends s s.
Proof. exists []. rewrite app_nil_r. split; [done|]. destruct (sm_job s) as [j|]; [|done]. by rewrite app_nil_r. Qed.

Lemma extends_trans s1 s2 s3 : extends s1 s2 -> extends s2 s3 -> extends s1 s3.
Proof.
  intros (m1 & H1 & J1) (m2 & H2 & J2). exists (m1 ++ m2). rewrite H2, H1, app_assoc. split; [done|].
  destruct (sm_job s1), (sm_job s2), (sm_job s3); try done. intros Hok. destruct (J1 Hok) as [Ho1 He1]. destruct (J2 Ho1) as [Ho2 He2].
  split; [done|]. by rewrite He2, He1, app_assoc.
Qed.

Lemma send_extends ev s : extends s (sendProvisionEvent ev s) /\ status_of_job (sendProvisionEvent ev s) = status_of_job s.
Proof.
  split.
  - exists [ev]. split; [done|]. cbn. destruct (sm_job s) as [j|]; [|done]. cbn. intros Hok. by destruct (AddEvent_ok ev j Hok) as (? & ? & _).
  - unfold status_of_job. cbn. destruct (sm_job s) as [[[] ]|]; done.
Qed.

Lemma forward_extends msg s :
  extends s (forward workspaceName sendProgress sendEvents msg s) /\
  status_of_job (forward workspaceName sendProgress sendEvents msg s) = status_of_job s.
Proof.
  destruct msg as [object status message|object message]; cbn [forward].
  - destruct (send_extends (StatusEvent object (Some status) message) s) as [H1 H2]. set (s1 := sendProvisionEvent _ s) in *.
    destruct sendProgress; [|done]. unfold progress. destruct (percentage status (provisioningStep s1)) as [p step]. case_goal.
    + destruct (send_extends (ProgressEvent workspaceName p) (mkStream (sm_job s1) step p (sm_sent s1))) as [H3 H4].
      split; [by eapply extends_trans|by rewrite H4, <- H2].
    + split; [exact H1|exact H2].
  - destruct sendEvents; [apply send_extends|]. split; [apply extends_refl|done].
Qed.

Lemma complete_extends s s' : extends s s' ->
  extends s (complete s') /\ (is_Some (sm_job s) -> status_of_job (complete s') = Some ProvisionJobCompleted).
Proof.
  intros (more & Hs & Hj). split.
  - exists more. split; [done|]. cbn. destruct (sm_job s) as [j|], (sm_job s') as [j'|]; try done. cbn. intros Hok.
    destruct (Hj Hok) as [Hok' He]. destruct (SetStatus_ok ProvisionJobCompleted j' Hok') as (? & H2 & _). by rewrite H2.
  - intros [j Ej]. unfold status_of_job. cbn. rewrite Ej in Hj. destruct (sm_job s') as [[[] ]|]; done.
Qed.

(** The record of a job is the stream: whatever the loop picks and whether or not
    its sends succeed, the events recorded are those sent, in the same order and
    numbered on from what was there; the job ends as completed when the operation
    ends, also when it fails, and it stays as it was, running, for ever when the
    caller goes away. *)
Theorem stream_recorded inputs s s' o :
  runWorkspaceStream workspaceName sendProgress sendEvents inputs s = (s', o) ->
  extends s s' /\
  (o = Some StreamFinished -> is_Some (sm_job s) -> status_of_job s' = Some ProvisionJobCompleted) /\
  (o <> Some StreamFinished -> status_of_job s' = status_of_job s).
Proof.
  revert s. induction inputs as [|i inputs IH]; intros s; cbn [runWorkspaceStream].
  { intros [= <- <-]. split; [apply extends_refl|done]. }
  destruct i as [|msg|result|err].
  - intros [= <- <-]. split; [apply extends_refl|done].
  - intros H. destruct (IH _ H) as (H1 & H2 & H3). destruct (forward_extends msg s) as [H4 H5].
    split; [by eapply extends_trans|]. split; [|intros Ho; by rewrite H3].
    intros Ho Hj. apply H2; [done|]. destruct H4 as (more & _ & Hm). destruct Hj as [j Ej]. rewrite Ej in Hm.
    destruct (sm_job (forward _ _ _ msg s)); [by eexists|done].
  - intros [= <- <-]. unfold succeeded. destruct (default _ result) as [status message].
    set (s1 := sendProvisionEvent (StatusEvent workspaceName (Some status) message) s).
    assert (H1 : extends s s1) by apply send_extends.
    assert (H2 : extends s (if sendProgress && (progressPct s1 <? 100)%Z then sendProvisionEvent (ProgressEvent workspaceName 100) s1 else s1)).
    { case_goal; [eapply extends_trans; [exact H1|apply send_extends]|exact H1]. }
    destruct (complete_extends _ _ H2) as [H3 H4]. done.
  - intros [= <- <-]. unfold failed. destruct (complete_extends s (sendProvisionEvent (StatusEvent workspaceName None err) s)) as [H3 H4];
      [apply send_extends|]. done.
Qed.
End recorded.

Lemma stream_recorded_witness :
  let run := runWorkspaceStream "w" true true [Received (StreamStatus "w" WorkspaceStatusRunning "up"); OperationDone None]
               (stream_start (Some (NewProvisionJob "j1" "w" "alice"))) in
  extends (stream_start (Some (NewProvisionJob "j1" "w" "alice"))) run.1 /\ status_of_job run.1 = Some ProvisionJobCompleted.
Proof.
  cbv zeta. destruct (stream_recorded "w" true true [Received (StreamStatus "w" WorkspaceStatusRunning "up"); OperationDone None]
    (stream_start (Some (NewProvisionJob "j1" "w" "alice"))) _ _ eq_refl) as (H1 & H2 & _).
  split; [exact H1|]. apply H2; [reflexivity|]. eexists. reflexivity.
Defined.

(** A job of one event and a text form for it in place of JSON. *)
Definition demo_job : ProvisionJobServer := AddEvent (ProgressEvent "w" 20) (NewProvisionJob "j1" "w" "alice").

#[export] Instance job_status_eq_dec : EqDecision ProvisionJobStatus.
Proof. solve_decision. Defined.

#[export] Instance job_status_countable : Countable ProvisionJobStatus.
Proof.
  refine (inj_countable' (fun s => match s with ProvisionJobRunning => true | ProvisionJobCompleted => false end)
    (fun b => if b : bool then ProvisionJobRunning else ProvisionJobCompleted) _). by intros [].
Defined.

#[export] Instance status_countable : Countable WorkspaceStatusMessage.
Proof.
  refine (inj_countable' (fun s => match s with
      | WorkspaceStatusProvisioning => 0 | WorkspaceStatusPulling => 1 | WorkspaceStatusRunning => 2
      | WorkspaceStatusStopping => 3 | WorkspaceStatusTerminating => 4 | WorkspaceStatusNodeLost => 5
      | WorkspaceStatusStopped => 6 | WorkspaceStatusFailing => 7 | WorkspaceStatusUnknown => 8 | WorkspaceStatusWarning => 9 end%nat)
    (fun n => match n with
      | 0 => WorkspaceStatusProvisioning | 1 => WorkspaceStatusPulling | 2 => WorkspaceStatusRunning
      | 3 => WorkspaceStatusStopping | 4 => WorkspaceStatusTerminating | 5 => WorkspaceStatusNodeLost
      | 6 => WorkspaceStatusStopped | 7 => WorkspaceStatusFailing | 8 => WorkspaceStatusUnknown | _ => WorkspaceStatusWarning end%nat) _).
  by intros [].
Defined.

#[export] Instance event_eq_dec : EqDecision ProvisionEvent.
Proof. solve_decision. Defined.

#[export] Instance event_countable : Countable ProvisionEvent.
Proof.
  refine (inj_countable' (fun e => match e with
      | StatusEvent o st m => inl (o, st, m) | ObjectEvent o m => inr (inl (o, m)) | ProgressEvent o p => inr (inr (o, p)) end)
    (fun x => match x with
      | inl (o, st, m) => StatusEvent o st m | inr (inl (o, m)) => ObjectEvent o m | inr (inr (o, p)) => ProgressEvent o p end) _).
  by intros [].
Defined.

#[export] Instance job_eq_dec : EqDecision ProvisionJob.
Proof. solve_decision. Defined.

#[export] Instance job_countable : Countable ProvisionJob.
Proof.
  refine (inj_countable' (fun j => (pj_ID j, pj_WorkspaceName j, pj_Username j, pj_Status j, pj_Finished j, pj_Events j))
    (fun '(i, w, u, s, f, e) => mkProvisionJob i w u s f e) _). by intros [].
Defined.

Definition job_text (j : ProvisionJob) : string := bits (encode j).
Definition text_job (s : string) : option ProvisionJob := unbits s ≫= decode.

Lemma job_text_reads j : text_job (job_text j) = Some j.
Proof. unfold text_job, job_text. rewrite unbits_bits. cbn. apply decode_encode. Qed.

Lemma LoadProvisionJob_continues_witness : exists j',
  LoadProvisionJob (fun _ => Some (job_text (ProvisionJob_ demo_job))) text_job "j1" = Some j' /\
  (pj_Events (ProvisionJob_ (AddEvent (ProgressEvent "w" 40) j'))).*1 = [1; 2]%Z.
Proof.
  destruct (LoadProvisionJob_continues (fun _ => Some (job_text (ProvisionJob_ demo_job))) job_text text_job demo_job (ProvisionJob_ demo_job)
    (ProgressEvent "w" 40) job_text_reads) as (j' & Hl & _ & _ & Hids).
  - apply AddEvent_ok, NewProvisionJob_ok.
  - apply elem_of_cons. left. reflexivity.
  - reflexivity.
  - exists j'. split; [exact Hl|exact Hids].
Defined.

(** ** Progress *)

(** The percentages sent. *)
Definition percents (l : list ProvisionEvent) : list Z :=
  omap (fun ev => match ev with ProgressEvent _ p => Some p | _ => None end) l.

(** Increasing, up to the percentage the loop remembers. *)
Definition rising (s : stream_state) : Prop :=
  StronglySorted Z.lt (percents (sm_sent s)) /\ Forall (fun p => 0 < p <= progressPct s)%Z (percents (sm_sent s)) /\
  (0 <= progressPct s <= 100)%Z /\ (progressPct s = 0%Z \/ last (percents (sm_sent s)) = Some (progressPct s)).

Lemma percents_app l1 l2 : percents (l1 ++ l2) = percents l1 ++ percents l2.
Proof. apply omap_app. Qed.

Lemma StronglySorted_snoc (l : list Z) x :
  StronglySorted Z.lt l -> Forall (fun y => (y < x)%Z) l -> StronglySorted Z.lt (l ++ [x]).
Proof.
  induction 1 as [|y l Hs IH Hy]; cbn; [by repeat constructor|]. intros [H1 H2]%Forall_cons. constructor; [by apply IH|].
  apply Forall_app. split; [done|]. by constructor.
Qed.

Lemma percentage_range status step : (0 <= (percentage status step).1 <= 100)%Z.
Proof.
  destruct status; try (cbn; lia). destruct step as [|[|[|[|step]]]]; vm_compute; split; discriminate.
Qed.

(** An event that is not a percentage, or a higher one. *)
Lemma rising_other s ev : (forall o p, ev <> ProgressEvent o p) -> rising s -> rising (sendProvisionEvent ev s).
Proof.
  intros Hev (H1 & H2 & H3 & H4). unfold rising. cbn. rewrite percents_app.
  assert (percents [ev] = []) as -> by (destruct ev as [| |o p]; [done..|]; by destruct (Hev o p)). by rewrite app_nil_r.
Qed.

Lemma rising_higher s object p step : (progressPct s < p <= 100)%Z -> rising s ->
  rising (sendProvisionEvent (ProgressEvent object p) (mkStream (sm_job s) step p (sm_sent s))).
Proof.
  intros Hp (H1 & H2 & H3 & H4). unfold rising. cbn. rewrite percents_app. cbn [percents omap list_omap]. split_and!.
  - apply StronglySorted_snoc; [done|]. eapply Forall_impl; [exact H2|]. cbn. lia.
  - apply Forall_app. split; [eapply Forall_impl; [exact H2|]; cbn; lia|]. constructor; [cbn; lia|constructor].
  - lia.
  - lia.
  - right. by rewrite last_snoc.
Qed.

Lemma forward_rising name sp se msg s : rising s -> rising (forward name sp se msg s).
Proof.
  intros Hs. destruct msg as [object status message|object message]; cbn [forward].
  - set (s1 := sendProvisionEvent _ s). assert (H1 : rising s1) by by apply rising_other. destruct sp; [|done].
    unfold progress. pose proof (percentage_range status (provisioningStep s1)) as Hr.
    destruct (percentage status (provisioningStep s1)) as [p step]. cbn [fst] in Hr.
    destruct (progressPct s1 <? p)%Z eqn:E0; [|done]. apply rising_higher; [apply Z.ltb_lt in E0; lia|done].
  - destruct se; [by apply rising_other|done].
Qed.

(** The percentages a caller sees only rise, each is between 1 and 100, and an
    operation that succeeds ends at 100: a caller that asked for progress gets 100
    exactly once, whatever the operation reported before. *)
Theorem progress_rises name sp se job inputs s' o :
  runWorkspaceStream name sp se inputs (stream_start job) = (s', o) ->
  StronglySorted Z.lt (percents (sm_sent s')) /\ Forall (fun p => 0 < p <= 100)%Z (percents (sm_sent s')) /\
  (sp = true -> (exists picks result rest, inputs = (Received <$> picks) ++ OperationDone result :: rest) ->
     last (percents (sm_sent s')) = Some 100%Z).
Proof.
  assert (Hgen : forall s, rising s -> runWorkspaceStream name sp se inputs s = (s', o) ->
    StronglySorted Z.lt (percents (sm_sent s')) /\ Forall (fun p => 0 < p <= 100)%Z (percents (sm_sent s')) /\
    (sp = true -> (exists picks result rest, inputs = (Received <$> picks) ++ OperationDone result :: rest) ->
       last (percents (sm_sent s')) = Some 100%Z)).
  2: { apply Hgen. split_and!; cbn; [constructor|constructor|lia|lia|by left]. }
  assert (Hrange : forall s, rising s -> Forall (fun p => 0 < p <= 100)%Z (percents (sm_sent s))).
  { intros s (_ & H2 & H3 & _). eapply Forall_impl; [exact H2|]. cbn. lia. }
  induction inputs as [|i inputs IH]; intros s Hs; cbn [runWorkspaceStream].
  { intros [= <- <-]. split_and!; [apply Hs|by apply Hrange|]. intros _ ([|p l] & r & rest & H); done. }
  destruct i as [|msg|result|err].
  - intros [= <- <-]. split_and!; [apply Hs|by apply Hrange|]. intros _ ([|p l] & r & rest & H); done.
  - intros H. destruct (IH (forward name sp se msg s)) as (H1 & H2 & H3); [by apply forward_rising|done|].
    split_and!; [done..|]. intros Hsp ([|p l] & r & rest & Hin); [done|]. cbn in Hin. injection Hin as -> Hin. apply H3; [done|]. by exists l, r, rest.
  - intros [= <- <-]. unfold succeeded. destruct (default _ result) as [status message].
    set (s1 := sendProvisionEvent (StatusEvent name (Some status) message) s). assert (H1 : rising s1) by by apply rising_other.
    cbn [complete sm_sent]. destruct sp; cbn [andb].
    + destruct (progressPct s1 <? 100)%Z eqn:E0.
      * pose proof (rising_higher s1 name 100 0 ltac:(apply Z.ltb_lt in E0; lia) H1) as H2.
        change (sm_sent (sendProvisionEvent (ProgressEvent name 100) s1))
          with (sm_sent (sendProvisionEvent (ProgressEvent name 100) (mkStream (sm_job s1) 0 100 (sm_sent s1)))).
        split_and!; [apply H2|by apply Hrange|]. intros _ _. destruct H2 as (_ & _ & _ & [H2|H2]); [done|exact H2].
      * split_and!; [apply H1|by apply Hrange|]. intros _ _. destruct H1 as (_ & _ & H3 & [H4|H4]); apply Z.ltb_ge in E0; [lia|].
        rewrite H4. f_equal. lia.
    + split_and!; [apply H1|by apply Hrange|]. by intros.
  - intros [= <- <-]. unfold failed. cbn [complete sm_sent].
    assert (H1 : rising (sendProvisionEvent (StatusEvent name None err) s)) by by apply rising_other.
    split_and!; [apply H1|by apply Hrange|]. intros _ ([|p l] & r & rest & H); done.
Qed.

Lemma progress_rises_witness :
  let s' := (runWorkspaceStream "w" true true
               [Received (StreamStatus "w" WorkspaceStatusPulling ""); Received (StreamStatus "w" WorkspaceStatusProvisioning "");
                OperationDone (Some (WorkspaceStatusRunning, "up"))] (stream_start None)).1 in
  percents (sm_sent s') = [50; 100]%Z /\ last (percents (sm_sent s')) = Some 100%Z.
Proof.
  cbv zeta. split; [reflexivity|].
  destruct (progress_rises "w" true true None [Received (StreamStatus "w" WorkspaceStatusPulling "");
    Received (StreamStatus "w" WorkspaceStatusProvisioning ""); OperationDone (Some (WorkspaceStatusRunning, "up"))] _ _ eq_refl) as (_ & _ & H).
  apply H; [reflexivity|].
  exists [StreamStatus "w" WorkspaceStatusPulling ""; StreamStatus "w" WorkspaceStatusProvisioning ""], (Some (WorkspaceStatusRunning, "up")), [].
  reflexivity.
Defined.
