(* ===== verification/Calls.v ===== *)
(** * The calls of the workspace operations

    What internal/workspace and internal/server call beside their own code: the
    API server, Helm, the identity service, and what other files model (the lock,
    the alias claims, the pod watcher) as one call each. The programs of the
    following files are trees of these calls (Effects.v). *)

From S2P Require Import Prelude GoStrings NodePool Jobs Yaml PodState PodWatch Workspaces Effects.

(** ** Changes to an object's metadata *)

(** A JSON merge patch of labels and annotations: [None] removes the key. *)
Record meta_patch : Type := mkMetaPatch {
  mp_labels : list (string * option string);
  mp_annotations : list (string * option string);
}.

Definition patch_map (m : gmap string string) (p : list (string * option string)) : gmap string string :=
  foldl (fun m kv => match kv.2 with Some v => <[kv.1 := v]> m | None => delete kv.1 m end) m p.

Definition set_labels (pod : WorkspacePod) (labels annotations : gmap string string) : WorkspacePod :=
  let '(mkWorkspacePod p _ cs rs ip) := pod in
  let '(mkPod n ns _ ct dt nn ph re me co ics cst vc vs nsel rt rc ho su) := p in
  mkWorkspacePod (mkPod n ns labels ct dt nn ph re me co ics cst vc vs nsel rt rc ho su) annotations cs rs ip.

Definition patch_pod (pod : WorkspacePod) (p : meta_patch) : WorkspacePod :=
  set_labels pod (patch_map (wp_Labels pod) (mp_labels p)) (patch_map (wp_Annotations pod) (mp_annotations p)).

(** ** Objects *)

(** The kinds that are created, listed or deleted besides pods. *)
Inductive kind : Type :=
| ConfigMaps | Secrets | PersistentVolumeClaims | NetworkPolicies | CiliumNetworkPolicies | Certificates | Services.

#[export] Instance kind_eq_dec : EqDecision kind.
Proof. solve_decision. Defined.

(** An object as far as the code looks at it; [obj_body] is what it declares. *)
Record object : Type := mkObject {
  obj_Name : string;
  obj_Labels : gmap string string;
  obj_Annotations : gmap string string;
  obj_ResourceVersion : string;
  obj_body : yvalue;
}.

(** A Helm release: its labels, values and rendered manifest. *)
Record Release : Type := mkRelease {
  rel_Name : string;
  rel_Labels : gmap string string;
  rel_Config : gmap string yvalue;
  rel_Manifest : string;
}.

(** What the watcher sees of a pod: the answer of its first Get, the events, the
    time, and what its loop receives until its context is done. *)
Record watched : Type := mkWatched {
  wd_pod : option (option Pod);
  wd_podEvents : list Event;
  wd_pvcEvents : list Event;
  wd_now : Z;
  wd_inputs : list (Z * input);
}.

(** ** Workloads *)

(** A volume: the secret or the claim it mounts, if any. *)
Record PodVolume : Type := mkVolume {
  vol_Name : string;
  vol_Secret : option string;
  vol_Claim : option string;
  vol_rest : yvalue;
}.

(** A container with the volumes it mounts. *)
Record PodContainer : Type := mkPodContainer {
  pc_Name : string;
  pc_Mounts : list (string * yvalue);
  pc_rest : yvalue;
}.

(** [corev1.PodTemplateSpec]; absent maps are empty. *)
Record PodTemplate : Type := mkTemplate {
  pt_Labels : gmap string string;
  pt_Annotations : gmap string string;
  pt_SharePID : option bool;
  pt_InitContainers : list PodContainer;
  pt_Containers : list PodContainer;
  pt_Volumes : list PodVolume;
}.

(** What the adapters of the three kinds read and write.

    src/internal/helm/workload.go:22-43 WorkloadAdapter *)
Record Workload : Type := mkWorkload {
  wl_Kind : string;
  wl_Namespace : string;
  wl_Name : string;
  wl_Annotations : gmap string string;
  wl_Template : PodTemplate;
}.

(** What a listing of workloads is read for: the replicas, the annotations of the
    pod template. *)
Record WorkloadItem : Type := mkWorkloadItem {
  wi_Name : string;
  wi_Replicas : option Z;
  wi_Annotations : gmap string string;
}.

(** ** Replies *)

(** The codes of google.golang.org/grpc the handlers answer with. *)
Inductive grpc_code : Type :=
| InvalidArgument | CodeNotFound | CodeAlreadyExists | FailedPrecondition | PermissionDenied | DeadlineExceeded | Aborted
| Unavailable | Internal.

#[export] Instance grpc_code_eq_dec : EqDecision grpc_code.
Proof. solve_decision. Defined.

Abbreviation reply := (result grpc_code).

(** What the message of a reply says: done, handed to a goroutine, or under way by
    another request. *)
Inductive reply_message : Type := Done | Submitted | InProgress.

(** ** The signature *)

Inductive api : Type -> Type :=
(** internal/workspace/lock.go, as Lock.v models it. *)
| LockAcquire (lock : string) (timeout : Z) : api (answer bool)
| LockTryAcquire (lock : string) : api (answer bool)
| LockRelease (lock : string) : api (answer unit)
| LockLost (lock : string) : api bool
(** Pods. *)
| PodGet (ns name : string) : api (answer WorkspacePod)
| PodPatch (ns name : string) (p : meta_patch) : api (answer unit)
| PodResize (ns name container : string) (limits : list (string * string)) : api (answer WorkspacePod)
| PodDelete (ns name : string) : api (answer unit)
| PodCreate (ns : string) (pod : WorkspacePod) : api (answer unit)
| PodObserve (ns name : string) (wait : bool) : api watched
| PodObserveLabel (ns selector : string) (timeout : Z) : api (answer PodStateSnapshot)
(** Other objects of a namespace. *)
| ObjGet (k : kind) (ns name : string) : api (answer object)
| ObjList (k : kind) (ns selector : string) : api (answer (list object))
| ObjCreate (k : kind) (ns : string) (dry : bool) (o : object) : api (answer unit)
| ObjUpdate (k : kind) (ns : string) (o : object) : api (answer unit)
| ObjApply (k : kind) (ns : string) (o : object) : api (answer unit)
| ObjDelete (k : kind) (ns name : string) : api (answer unit)
| ObjDeleteCollection (k : kind) (ns selector : string) : api (answer unit)
(** Workloads, by kind and name. *)
| WorkloadGet (ns kind name : string) : api (answer Workload)
| WorkloadUpdate (w : Workload) : api (answer unit)
| WorkloadList (ns kind : string) : api (answer (list WorkloadItem))
(** Namespaces, and pods by label. *)
| NamespaceList : api (answer (list string))
| PodList (ns selector : string) : api (answer (list WorkspacePod))
(** Helm. *)
| ReleaseGet (name : string) : api (answer Release)
| ReleaseList (selector : list (string * list string)) : api (answer (list Release))
| ReleaseStuck (name : string) : api (answer bool)
| ReleaseInstall (name : string) (values : gmap string yvalue) (labels : gmap string string) : api (answer unit)
| ReleaseUninstall (name : string) : api (answer unit)
| ChartTemplate (name : string) (values : gmap string yvalue) : api (answer string)
(** The identity service. *)
| UserFind (username : string) : api (answer (string * string))
| TokenCreate (username name : string) (scopes : list string) : api (answer string)
| TokenList (username : string) : api (answer (list (string * Z)))
| TokenDelete (id : Z) : api (answer unit)
| EnvVarList (username : string) : api (answer (list (string * string * bool)))
| EnvVarGet (username key : string) : api (answer string)
| BlueprintByUserStr (userstr : string) : api (reply (string * string))
| TokenIssue (username source : string) : api (answer string)
| OrganizationGet (name : string) : api (reply (list (string * string)))
(** The policy engine: whether an action is allowed, with the patches of the
    blueprint it obliges to, by path; and what to detect. *)
| PolicyEvaluate (token workspace : string) (attributes : list (string * string)) : api (answer (bool * list (string * string)))
| ThreatEvaluate (token workspace : string) (attributes : list (string * string))
    (resources : option (gmap string (list (string * yvalue)))) : api (answer (option string))
(** The bucket of detections and that of jobs. *)
| ThreatBucket : api bool
| ThreatStore (key : string) (detect : option (string * string)) : api (answer unit)
| JobGet (id : string) : api (option string)
| JobPut (job : ProvisionJob) : api unit
| NewId : api string
(** The nodes in the store of the informer, if there is one. *)
| NodesCached : api (option (list NodePool.Node))
(** internal/workspace/alias.go, as Alias.v models it. *)
| AliasReconcile (org workspace canonicalID desired : string) : api (answer (string * string))
| AliasClaimFor (org alias workspace canonicalID : string) : api (answer string)
| AliasRelease (canonicalID keep : string) : api (answer unit)
(** Workspaces.v's lookups. *)
| WorkspacesFind (name : string) : api (answer WorkspacePod)
| WorkspacesOf (username : string) : api (answer (list WorkspacePod))
(** Time, and whether a wait ended because its context was done. *)
| Clock : api Z
| SleepSeconds (n : Z) : api unit
| PollTick : api bool
(** Events sent to the caller, and the threat detection that is dropped. *)
| EmitEvents (l : list StreamEvent) : api unit
(** The reply to a request whose goroutine goes on. *)
| Respond (r : reply reply_message) : api unit
(** The first message of a stream, the workspace and its job or an error; whether it
    could be sent. *)
| Handshake (workspace jobid : string) (error : option grpc_code) : api bool
| ThreatClear (key : string) : api unit.

(** The answers of an environment where nothing works. *)
Definition refuse {X} (e : api X) : X :=
  match e in api X return X with
  | LockAcquire _ _ | LockTryAcquire _ => Err (Plain "unavailable")
  | LockRelease _ => Err (Plain "unavailable")
  | LockLost _ => true
  | PodGet _ _ => Err (Plain "unavailable")
  | PodPatch _ _ _ | PodDelete _ _ | PodCreate _ _ => Err (Plain "unavailable")
  | PodResize _ _ _ _ => Err (Plain "unavailable")
  | PodObserve _ _ _ => mkWatched None [] [] 0 []
  | PodObserveLabel _ _ _ => Err (Plain "unavailable")
  | ObjGet _ _ _ => Err (Plain "unavailable")
  | ObjList _ _ _ => Err (Plain "unavailable")
  | ObjCreate _ _ _ _ | ObjUpdate _ _ _ | ObjApply _ _ _ | ObjDelete _ _ _ | ObjDeleteCollection _ _ _ =>
      Err (Plain "unavailable")
  | WorkloadGet _ _ _ => Err (Plain "unavailable")
  | WorkloadUpdate _ => Err (Plain "unavailable")
  | WorkloadList _ _ => Err (Plain "unavailable")
  | NamespaceList => Err (Plain "unavailable")
  | PodList _ _ => Err (Plain "unavailable")
  | ReleaseGet _ => Err (Plain "unavailable")
  | ReleaseList _ => Err (Plain "unavailable")
  | ReleaseStuck _ => Err (Plain "unavailable")
  | ReleaseInstall _ _ _ | ReleaseUninstall _ => Err (Plain "unavailable")
  | ChartTemplate _ _ => Err (Plain "unavailable")
  | UserFind _ => Err (Plain "unavailable")
  | TokenCreate _ _ _ => Err (Plain "unavailable")
  | TokenList _ => Err (Plain "unavailable")
  | TokenDelete _ => Err (Plain "unavailable")
  | EnvVarList _ => Err (Plain "unavailable")
  | EnvVarGet _ _ => Err (Plain "unavailable")
  | BlueprintByUserStr _ => Err Unavailable
  | TokenIssue _ _ => Err (Plain "unavailable")
  | OrganizationGet _ => Err Unavailable
  | PolicyEvaluate _ _ _ => Err (Plain "unavailable")
  | ThreatEvaluate _ _ _ _ => Err (Plain "unavailable")
  | ThreatBucket => false
  | ThreatStore _ _ => Err (Plain "unavailable")
  | JobGet _ => None
  | JobPut _ => tt
  | NewId => ""
  | NodesCached => None
  | AliasReconcile _ _ _ _ => Err (Plain "unavailable")
  | AliasClaimFor _ _ _ _ => Err (Plain "unavailable")
  | AliasRelease _ _ => Err (Plain "unavailable")
  | WorkspacesFind _ => Err (Plain "unavailable")
  | WorkspacesOf _ => Err (Plain "unavailable")
  | Clock => 0%Z
  | SleepSeconds _ => tt
  | PollTick => true
  | EmitEvents _ => tt
  | Respond _ => tt
  | Handshake _ _ _ => false
  | ThreatClear _ => tt
  end.

(** Every call can be answered. *)
Lemma api_inhabited X : api X -> inhabited X.
Proof. intros e. constructor. exact (refuse e). Qed.

(** ** Calls that change something *)

(** The calls that change the cluster or the identity service. *)
Definition mutates {X} (e : api X) : bool :=
  match e with
  | PodPatch _ _ _ | PodResize _ _ _ _ | PodDelete _ _ | PodCreate _ _
  | ObjUpdate _ _ _ | ObjApply _ _ _ | ObjDelete _ _ _ | ObjDeleteCollection _ _ _
  | WorkloadUpdate _ | ReleaseInstall _ _ _ | ReleaseUninstall _
  | TokenCreate _ _ _ | TokenDelete _
  | AliasReconcile _ _ _ _ | AliasClaimFor _ _ _ _ | AliasRelease _ _ => true
  | ObjCreate _ _ dry _ => negb dry
  | _ => false
  end.
