(* ===== verification/OrgBlueprints.v ===== *)
(** * Organization blueprints

    internal/server/org_blueprint.go and internal/db/blueprint.go: creating,
    updating and deleting the blueprints of an organization. A statement is atomic;
    between two of them other requests may change the table. Validation of a
    document and its YAML encoding are parameters. *)

From S2P Require Import Prelude GoStrings Yaml Merge Revision Inherit Cel Manager Effects PodState Workspaces NodePool Jobs Calls.

(** ** The statements *)

(** What PostgreSQL reports of a constraint. *)
Inductive constraint : Type := PrimaryKey | OrgForeignKey.

Inductive sql_error : Type := Violates (c : constraint) | Broken.

(** The rows of provisioner.org_blueprints by organization and name. *)
Abbreviation table := (gmap (string * string) OrgBlueprint).

(** The manager is asked for its cache and told to reload. *)
Inductive org_api : Type -> Type :=
| Insert (bp : OrgBlueprint) : org_api (result sql_error (Z * Z))
| UpdateReturning (org name : string) (description : option string) (yaml : string) (isTemplate : bool)
    (expected : option string) : org_api (result sql_error (option OrgBlueprint))
| Select (org name : string) : org_api (result sql_error (option OrgBlueprint))
| Delete (org name : string) : org_api (result sql_error bool)
(** The rows of an organization, or all: those that can be scanned until one cannot
    ([None]), and whether they came to their end. *)
| QueryRows (org : option string) : org_api (result sql_error (list (option OrgBlueprint) * bool))
| ManagerCache : org_api store
| ReloadOrgBlueprints : org_api (option load_error).

#[local] Abbreviation run_ := (prog org_api).

(** ** internal/db *)

Inductive db_error : Type := ErrBlueprintExists | ErrBlueprintNotFound | ErrBlueprintConflict | ErrOrgNotFound | DbFailed.

(** src/internal/db/blueprint.go:33-55 CreateBlueprint *)
Definition db_CreateBlueprint (org name description yaml : string) (isTemplate : bool) : run_ (result db_error OrgBlueprint) :=
  let! r := call (Insert (mkOrgBlueprint name org description isTemplate yaml 0 0)) in
  Ret (match r with
       | Ok (created, updated) => Ok (mkOrgBlueprint name org description isTemplate yaml created updated)
       | Err (Violates PrimaryKey) => Err ErrBlueprintExists
       | Err (Violates OrgForeignKey) => Err ErrOrgNotFound
       | Err Broken => Err DbFailed
       end).

(** src/internal/db/blueprint.go:95-111 GetBlueprint *)
Definition db_GetBlueprint (org name : string) : run_ (result db_error OrgBlueprint) :=
  let! r := call (Select org name) in
  Ret (match r with Ok (Some bp) => Ok bp | Ok None => Err ErrBlueprintNotFound | Err _ => Err DbFailed end).

(** src/internal/db/blueprint.go:116-122 LookupBlueprint *)
Definition db_LookupBlueprint (org name : string) : run_ (result db_error (option OrgBlueprint)) :=
  let! r := db_GetBlueprint org name in
  Ret (match r with Ok bp => Ok (Some bp) | Err ErrBlueprintNotFound => Ok None | Err e => Err e end).

(** Without a row that matches, a second look tells a conflict from an absent row.

    src/internal/db/blueprint.go:64-91 UpdateBlueprint *)
Definition db_UpdateBlueprint (org name : string) (description : option string) (yaml : string) (isTemplate : bool)
    (expected : option string) : run_ (result db_error OrgBlueprint) :=
  let! r := call (UpdateReturning org name description yaml isTemplate expected) in
  match r with
  | Ok (Some bp) => Ret (Ok bp)
  | Ok None =>
      match expected with
      | None => Ret (Err ErrBlueprintNotFound)
      | Some _ =>
          let! r := db_LookupBlueprint org name in
          Ret (Err (match r with Err _ => DbFailed | Ok (Some _) => ErrBlueprintConflict | Ok None => ErrBlueprintNotFound end))
      end
  | Err _ => Ret (Err DbFailed)
  end.

(** src/internal/db/blueprint.go:172-183 DeleteBlueprint *)
Definition db_DeleteBlueprint (org name : string) : run_ (result db_error unit) :=
  let! r := call (Delete org name) in
  Ret (match r with Ok true => Ok tt | Ok false => Err ErrBlueprintNotFound | Err _ => Err DbFailed end).

(** src/internal/db/blueprint.go:158-168 scanBlueprints *)
Fixpoint scanBlueprints (blueprints : list OrgBlueprint) (rows : list (option OrgBlueprint)) (ended : bool)
    : result db_error (list OrgBlueprint) :=
  match rows with
  | [] => if ended then Ok blueprints else Err DbFailed
  | None :: _ => Err DbFailed
  | Some bp :: rows => scanBlueprints (blueprints ++ [bp]) rows ended
  end.

(** src/internal/db/blueprint.go:125-139 ListBlueprints *)
Definition db_ListBlueprints (org : string) : run_ (result db_error (list OrgBlueprint)) :=
  let! r := call (QueryRows (Some org)) in
  Ret (match r with Ok (rows, ended) => scanBlueprints [] rows ended | Err _ => Err DbFailed end).

(** src/internal/db/blueprint.go:144-156 ListAllBlueprints *)
Definition db_ListAllBlueprints : run_ (result db_error (list OrgBlueprint)) :=
  let! r := call (QueryRows None) in
  Ret (match r with Ok (rows, ended) => scanBlueprints [] rows ended | Err _ => Err DbFailed end).

(** ** internal/server *)

Section handlers.
Context `{Y : YamlLib}.
Variable find_strategy : string -> string -> option strategy.
(** ValidateRawBlueprintForOrg: the number of issues, or its failure; and the
    encoding of a document. *)
Variable validate : store -> string -> string -> option nat.
Variable yaml_marshal : node -> option string.
(** Whether there is a database. *)
Variable has_db : bool.

(** src/internal/blueprint/validate_raw.go:446-457 CanonicalizeRawBlueprint *)
Definition CanonicalizeRawBlueprint (data : string) : option string :=
  doc ← yaml_unmarshal data; yaml_marshal (restoreCELNodes doc).

(** src/internal/server/org_blueprint.go:197-206 validateOrgBlueprintYaml *)
Definition validateOrgBlueprintYaml (s : store) (org yaml : string) : reply unit :=
  match validate s org yaml with None => Err Internal | Some O => Ok tt | Some _ => Err InvalidArgument end.

(** The checks of a submitted document and what it says of itself: name, description,
    whether it is a template, and the document that is stored.

    src/internal/server/org_blueprint.go:36-51 CreateBlueprint *)
Definition submitted (s : store) (org yaml : string) : reply (string * string * bool * string) :=
  match validateOrgBlueprintYaml s org yaml with
  | Err e => Err e
  | Ok _ =>
      match CanonicalizeRawBlueprint yaml with
      | None => Err InvalidArgument
      | Some doc =>
          match ParseBlueprintMeta doc with
          | None => Err InvalidArgument
          | Some (name, description, _, isTemplate) =>
              if String.eqb name "" then Err InvalidArgument else Ok (name, description, isTemplate, doc)
          end
      end
  end.

(** src/internal/server/org_blueprint.go:26-34 CreateBlueprint *)
Definition requested (org yaml : string) : option grpc_code :=
  if String.eqb org "" then Some InvalidArgument
  else if String.eqb yaml "" then Some InvalidArgument
  else if negb has_db then Some Unavailable else None.

(** The row with its revision, empty when it does not resolve.

    src/internal/server/org_blueprint.go:155-163 orgBlueprintToProto *)
Definition orgBlueprintToProto (bp : OrgBlueprint) : run_ (OrgBlueprint * string) :=
  let! s := call ManagerCache in
  Ret (bp, match OrgBlueprintRevision find_strategy s bp with Ok r => r | Err _ => "" end).

(** What follows a change: the reload, whose failure is reported although the change
    is stored.

    src/internal/server/org_blueprint.go:69-73 CreateBlueprint *)
Definition stored (bp : OrgBlueprint) : run_ (reply (OrgBlueprint * string)) :=
  let! r := call ReloadOrgBlueprints in
  match r with
  | Some _ => Ret (Err Internal)
  | None => let! proto := orgBlueprintToProto bp in Ret (Ok proto)
  end.

(** src/internal/server/org_blueprint.go:24-74 CreateBlueprint *)
Definition CreateBlueprint (org yaml : string) : run_ (reply (OrgBlueprint * string)) :=
  match requested org yaml with
  | Some e => Ret (Err e)
  | None =>
      let! s := call ManagerCache in
      match submitted s org yaml with
      | Err e => Ret (Err e)
      | Ok (name, description, isTemplate, doc) =>
          let! s := call ManagerCache in
          if HasGlobalBlueprint s name then Ret (Err CodeAlreadyExists)
          else
            let! r := db_CreateBlueprint org name description doc isTemplate in
            match r with
            | Err ErrBlueprintExists => Ret (Err CodeAlreadyExists)
            | Err ErrOrgNotFound => Ret (Err CodeNotFound)
            | Err _ => Ret (Err Internal)
            | Ok bp => stored bp
            end
      end
  end.

(** The document an update is based on, when it names a revision.

    src/internal/server/org_blueprint.go:114-132 UpdateBlueprint *)
Definition expected_yaml (org name expected : string) : run_ (reply (option string)) :=
  if String.eqb expected "" then Ret (Ok None)
  else
    let! r := db_GetBlueprint org name in
    match r with
    | Err ErrBlueprintNotFound => Ret (Err CodeNotFound)
    | Err _ => Ret (Err Internal)
    | Ok current =>
        let! s := call ManagerCache in
        Ret (match OrgBlueprintRevision find_strategy s current with
             | Err _ => Err Internal
             | Ok revision => if String.eqb revision expected then Ok (Some (ob_YAML current)) else Err Aborted
             end)
    end.

(** src/internal/server/org_blueprint.go:82-151 UpdateBlueprint *)
Definition UpdateBlueprint (org yaml expected : string) : run_ (reply (OrgBlueprint * string)) :=
  match requested org yaml with
  | Some e => Ret (Err e)
  | None =>
      let! s := call ManagerCache in
      match submitted s org yaml with
      | Err e => Ret (Err e)
      | Ok (name, description, isTemplate, doc) =>
          let! based := expected_yaml org name expected in
          match based with
          | Err e => Ret (Err e)
          | Ok based =>
              let! r := db_UpdateBlueprint org name (Some description) doc isTemplate based in
              match r with
              | Err ErrBlueprintNotFound => Ret (Err CodeNotFound)
              | Err ErrBlueprintConflict => Ret (Err Aborted)
              | Err _ => Ret (Err Internal)
              | Ok bp => stored bp
              end
          end
      end
  end.

(** src/internal/server/org_blueprint.go:167-191 DeleteBlueprint *)
Definition DeleteBlueprint (org name : string) : run_ (reply unit) :=
  if String.eqb name "" then Ret (Err InvalidArgument)
  else if String.eqb org "" then Ret (Err InvalidArgument)
  else if negb has_db then Ret (Err Unavailable)
  else
    let! r := db_DeleteBlueprint org name in
    match r with
    | Err ErrBlueprintNotFound => Ret (Err CodeNotFound)
    | Err _ => Ret (Err Internal)
    | Ok _ =>
        let! r := call ReloadOrgBlueprints in
        Ret (match r with Some _ => Err Internal | None => Ok tt end)
    end.
End handlers.

(** ** Runs against a table that others change too *)

(** A statement on the table [t] leaves [t'] with its answer; one that broke may have
    been carried out. *)
Definition inserted (bp : OrgBlueprint) (created updated : Z) (t : table) : table :=
  <[(ob_Org bp, ob_Name bp) := mkOrgBlueprint (ob_Name bp) (ob_Org bp) (ob_Description bp) (ob_IsTemplate bp) (ob_YAML bp) created updated]> t.

Definition replaces (old row : OrgBlueprint) (org name : string) (description : option string) (yaml : string) (isTemplate : bool) : Prop :=
  ob_Org row = org /\ ob_Name row = name /\ ob_Description row = default (ob_Description old) description /\
  ob_IsTemplate row = isTemplate /\ ob_YAML row = yaml /\ ob_CreatedAt row = ob_CreatedAt old.

(** The rows a query is about, once each. *)
Definition rows_of (t : table) (org : option string) (l : list OrgBlueprint) : Prop :=
  l ≡ₚ (List.filter (fun kv => match org with None => true | Some org => String.eqb kv.1.1 org end) (map_to_list t)).*2.

Definition answers (t t' : table) {X} (e : org_api X) : X -> Prop :=
  match e in org_api X return X -> Prop with
  | Insert bp => fun r =>
      match r with
      | Ok (created, updated) => t !! (ob_Org bp, ob_Name bp) = None /\ t' = inserted bp created updated t
      | Err (Violates PrimaryKey) => is_Some (t !! (ob_Org bp, ob_Name bp)) /\ t' = t
      | Err (Violates OrgForeignKey) => t' = t
      | Err Broken => t' = t \/ exists created updated, t' = inserted bp created updated t
      end
  | UpdateReturning org name description yaml isTemplate expected => fun r =>
      match r with
      | Ok (Some row) => exists old, t !! (org, name) = Some old /\ (forall y, expected = Some y -> ob_YAML old = y) /\
                         replaces old row org name description yaml isTemplate /\ t' = <[(org, name) := row]> t
      | Ok None => t' = t
      | Err _ => t' = t \/ exists row, t' = <[(org, name) := row]> t
      end
  | Select org name => fun r => t' = t /\ match r with Ok row => row = t !! (org, name) | Err _ => True end
  | Delete org name => fun r =>
      match r with
      | Ok true => is_Some (t !! (org, name)) /\ t' = delete (org, name) t
      | Ok false => t !! (org, name) = None /\ t' = t
      | Err _ => t' = t \/ t' = delete (org, name) t
      end
  | QueryRows org => fun r =>
      t' = t /\ match r with
                | Ok (rows, ended) => exists l, rows_of t org l /\ Forall2 (fun row bp => row = None \/ row = Some bp) rows (take (length rows) l) /\
                                      (ended = true -> length rows = length l)
                | Err _ => True
                end
  | ManagerCache => fun _ => t' = t
  | ReloadOrgBlueprints => fun _ => t' = t
  end.

(** The cached view, when the call reads it. *)
Definition served {X} (e : org_api X) : X -> option store :=
  match e in org_api X return X -> option store with ManagerCache => fun s => Some s | _ => fun _ => None end.

(** The table a call found, the view of the manager it got, and the table it left. *)
Abbreviation moment := (table * option store * table)%type.

Definition unchanged (l : list moment) : Prop := Forall (fun m : moment => m.2 = m.1.1) l.

(** Every run, whatever the table is when a call is made. *)
Fixpoint every_run {R} (m : run_ R) (h : list moment) (Q : list moment -> R -> Prop) : Prop :=
  match m with
  | Ret r => Q h r
  | Vis e k => forall t t' x, answers t t' e x -> every_run (k x) (h ++ [(t, served e x, t')]) Q
  end.

Lemma every_run_mono {R} (m : run_ R) (h : list moment) (Q Q' : list moment -> R -> Prop) :
  every_run m h Q -> (forall h r, Q h r -> Q' h r) -> every_run m h Q'.
Proof. intros H HQ. revert h H. induction m as [r|X e k IH]; intros h H; cbn in *; [by apply HQ|]. intros t t' x Hx. by apply IH, H. Qed.

Lemma every_run_seq {A B} (m : run_ A) (f : A -> run_ B) (h : list moment) (P : list moment -> A -> Prop) Q :
  every_run m h P -> (forall h a, P h a -> every_run (f a) h Q) -> every_run (m ≫= f) h Q.
Proof.
  intros H Hf. revert h H. induction m as [r|X e k IH]; intros h H; cbn in *; [by apply Hf|]. intros t t' x Hx. by apply IH, H.
Qed.

Lemma unchanged_snoc l t e t' : unchanged l -> t' = t -> unchanged (l ++ [(t, e, t')]).
Proof. intros Hl ->. apply Forall_app. split; [done|]. by repeat constructor. Qed.

Section runs.
Context `{Y : YamlLib} (fs : string -> string -> option strategy).
Context (validate : store -> string -> string -> option nat) (yaml_marshal : node -> option string) (has_db : bool).

(** [s] is what the manager held when it was asked in [h]. *)
Definition cached_in (h : list moment) (s : store) : Prop := exists t t', (t, Some s, t') ∈ h.

Lemma expected_yaml_run org name expected h :
  unchanged h ->
  every_run (expected_yaml fs org name expected) h (fun h' r => unchanged h' /\ h `prefix_of` h' /\
    match r with
    | Ok based => expected <> "" -> exists s cur, cached_in h' s /\ OrgBlueprintRevision fs s cur = Ok expected /\ based = Some (ob_YAML cur)
    | Err _ => True
    end).
Proof.
  intros Hh. unfold expected_yaml. destruct (String.eqb_spec expected "") as [->|He]; [by cbn|]. cbn.
  intros t t' [row|e] [-> Hrow]; cbn; [|split; [by apply unchanged_snoc|by split; [apply prefix_app_r|]]].
  destruct row as [cur|]; cbn; [|split; [by apply unchanged_snoc|by split; [apply prefix_app_r|]]].
  intros t1 t1' s ->. rewrite <- app_assoc. split; [apply Forall_app; split; [done|by repeat constructor]|]. split; [by apply prefix_app_r|].
  destruct (OrgBlueprintRevision fs s cur) as [rev|] eqn:Er; [|done]. destruct (String.eqb_spec rev expected) as [->|]; [|done].
  intros _. exists s, cur. split; [|done]. exists t1, t1. apply elem_of_app. right. right. left.
Qed.

(** One moment of [h'] puts [bp] into the table, none other changes anything. *)
Definition puts (h' : list moment) (t : table) (bp : OrgBlueprint) : Prop :=
  exists pre e post, h' = pre ++ (t, e, <[(ob_Org bp, ob_Name bp) := bp]> t) :: post /\ unchanged pre /\ unchanged post.

Lemma puts_snoc h t bp m : puts h t bp -> unchanged [m] -> puts (h ++ [m]) t bp.
Proof.
  intros (pre & e & post & -> & Hpre & Hpost) Hm. exists pre, e, (post ++ [m]). split; [by rewrite <- app_assoc|]. split; [done|].
  by apply Forall_app.
Qed.

Lemma db_UpdateBlueprint_run org name description yaml isTemplate based h :
  unchanged h ->
  every_run (db_UpdateBlueprint org name description yaml isTemplate based) h (fun h' r => h `prefix_of` h' /\
    match r with
    | Ok bp => exists t old, puts h' t bp /\ t !! (org, name) = Some old /\ (forall y, based = Some y -> ob_YAML old = y) /\
                 replaces old bp org name description yaml isTemplate
    | Err DbFailed => True
    | Err _ => unchanged h'
    end).
Proof.
  intros Hh. unfold db_UpdateBlueprint. cbn. intros t t' [[row|]|e] Hx; cbn.
  - split; [by apply prefix_app_r|]. destruct Hx as (old & Ho & Hb & Hr & ->). exists t, old. split; [|done].
    destruct Hr as (<- & <- & _). eexists h, _, []. split; [reflexivity|]. split; [done|]. constructor.
  - subst t'. destruct based as [y|]; cbn; [|split; [by apply prefix_app_r|by apply unchanged_snoc]].
    intros t1 t1' r [-> Hr]. assert (Hu : unchanged ((h ++ [(t, None, t)]) ++ [(t1, None, t1)])).
    { by do 2 (apply unchanged_snoc; [|done]). }
    destruct r as [[row|]|e]; cbn; split; try done; rewrite <- app_assoc; by apply prefix_app_r.
  - split; [by apply prefix_app_r|done].
Qed.

Lemma db_CreateBlueprint_run org name description yaml isTemplate h :
  unchanged h ->
  every_run (db_CreateBlueprint org name description yaml isTemplate) h (fun h' r => h `prefix_of` h' /\
    match r with
    | Ok bp => exists t created updated, puts h' t bp /\ t !! (org, name) = None /\
                 bp = mkOrgBlueprint name org description isTemplate yaml created updated
    | Err DbFailed => True
    | Err _ => unchanged h'
    end).
Proof.
  intros Hh. unfold db_CreateBlueprint. cbn. intros t t' [[created updated]|[[]|]] Hx; cbn; (split; [by apply prefix_app_r|]); [| | |done].
  - destruct Hx as [Hn ->]. exists t, created, updated. split; [|done]. eexists h, _, []. split; [reflexivity|]. split; [done|constructor].
  - destruct Hx as [_ ->]. by apply unchanged_snoc.
  - subst t'. by apply unchanged_snoc.
Qed.

Lemma stored_run bp h t :
  puts h t bp ->
  every_run (stored fs bp) h (fun h' r => h `prefix_of` h' /\ match r with Ok (bp', _) => bp' = bp /\ puts h' t bp | Err e => e = Internal end).
Proof.
  intros Hp. unfold stored. cbn. intros t1 t1' [e|] ->; cbn; [split; [by apply prefix_app_r|done]|]. intros t2 t2' s ->. cbn.
  split; [rewrite <- app_assoc; by apply prefix_app_r|]. split; [done|]. apply puts_snoc; [apply puts_snoc; [done|]|]; by repeat constructor.
Qed.

(** What is stored is the submitted document, validated and in its canonical form,
    with what it says of itself. *)
Definition document_of (h : list moment) (org yaml : string) (bp : OrgBlueprint) : Prop :=
  exists s template, cached_in h s /\ validate s org yaml = Some 0%nat /\ CanonicalizeRawBlueprint yaml_marshal yaml = Some (ob_YAML bp) /\
    ParseBlueprintMeta (ob_YAML bp) = Some (ob_Name bp, ob_Description bp, template, ob_IsTemplate bp) /\ ob_Name bp <> "" /\ ob_Org bp = org.

Lemma submitted_document s org yaml name description isTemplate doc :
  submitted validate yaml_marshal s org yaml = Ok (name, description, isTemplate, doc) ->
  validate s org yaml = Some 0%nat /\ CanonicalizeRawBlueprint yaml_marshal yaml = Some doc /\ name <> "" /\
  exists template, ParseBlueprintMeta doc = Some (name, description, template, isTemplate).
Proof.
  unfold submitted, validateOrgBlueprintYaml. destruct (validate s org yaml) as [[|]|]; try done.
  destruct (CanonicalizeRawBlueprint yaml_marshal yaml) as [d|]; [|done]. destruct (ParseBlueprintMeta d) as [[[[n ds] tp] it]|] eqn:Ep; [|done].
  destruct (String.eqb_spec n ""); [done|]. intros [= <- <- <- <-]. split_and!; try done. by exists tp.
Qed.

Lemma cached_prefix h h' s : cached_in h s -> h `prefix_of` h' -> cached_in h' s.
Proof. intros (t & t' & Hin) [l ->]. exists t, t'. apply elem_of_app. by left. Qed.

(** ** The theorems *)

(** C14. An update that succeeds is one change of the table: the organization's row of the
    name in the document now holds the document, validated and in canonical form,
    and everything else is as it was when the change was made. With an expected
    revision it replaced the content that had this revision, also when others
    changed the table between the check and the change: no update is lost. One that
    is refused, or finds a conflict, has changed nothing. *)
Theorem UpdateBlueprint_based org yaml expected :
  every_run (UpdateBlueprint fs validate yaml_marshal has_db org yaml expected) [] (fun h r =>
    match r with
    | Ok (bp, _) =>
        exists t old, puts h t bp /\ document_of h org yaml bp /\ t !! (org, ob_Name bp) = Some old /\
          (expected <> "" -> exists s cur, cached_in h s /\ OrgBlueprintRevision fs s cur = Ok expected /\ ob_YAML cur = ob_YAML old)
    | Err Internal => True
    | Err _ => unchanged h
    end).
Proof.
  unfold UpdateBlueprint. destruct (requested has_db org yaml) as [code|] eqn:Eq.
  { cbn. unfold requested in Eq. repeat case_in Eq; simplify_eq; constructor. }
  apply (every_run_seq _ _ _ (fun h s => unchanged h /\ cached_in h s)).
  { cbn. intros t t' s ->. split; [by repeat constructor|]. exists t, t. left. }
  intros h s [Hh Hs]. destruct (submitted validate yaml_marshal s org yaml) as [[[[name description] isTemplate] doc]|code] eqn:Es.
  2: { cbn. by destruct code. }
  apply submitted_document in Es as (Hv & Hc & Hne & template & Hm).
  eapply every_run_seq; [by apply (expected_yaml_run org name expected h)|]. intros h1 [based|code] (Hh1 & Hp1 & Hb); [|by destruct code].
  eapply every_run_seq; [by apply (db_UpdateBlueprint_run org name (Some description) doc isTemplate based h1)|].
  intros h2 [bp|[]] (Hp2 & Hr); try done. destruct Hr as (t & old & Hput & Hold & Hbased & Ho & Hn & Hd & Hi & Hy & _).
  eapply every_run_mono; [by apply stored_run|]. intros h3 [[bp' rev]|code] [Hp3 Hr']; [|by subst]. destruct Hr' as [-> Hput3].
  exists t, old. split; [done|]. split; [|split].
  - exists s, template. cbn in Hd. rewrite Ho, Hn, Hd, Hi, Hy. split_and!; try done.
    eapply cached_prefix; [eapply cached_prefix; [eapply cached_prefix; [exact Hs|exact Hp1]|exact Hp2]|exact Hp3].
  - by rewrite Hn.
  - intros He. destruct (Hb He) as (s' & cur & Hc' & Hrev & ->). exists s', cur. split_and!; [|done|by rewrite (Hbased _ eq_refl)].
    eapply cached_prefix; [eapply cached_prefix; [exact Hc'|exact Hp2]|exact Hp3].
Qed.

(** A creation that succeeds adds one row, under a name the organization had none for
    and that no global blueprint has in the manager's view; one that is refused has
    changed nothing. *)
Theorem CreateBlueprint_adds org yaml :
  every_run (CreateBlueprint fs validate yaml_marshal has_db org yaml) [] (fun h r =>
    match r with
    | Ok (bp, _) =>
        exists t s, puts h t bp /\ document_of h org yaml bp /\ t !! (org, ob_Name bp) = None /\
          cached_in h s /\ HasGlobalBlueprint s (ob_Name bp) = false
    | Err Internal => True
    | Err _ => unchanged h
    end).
Proof.
  unfold CreateBlueprint. destruct (requested has_db org yaml) as [code|] eqn:Eq.
  { cbn. unfold requested in Eq. repeat case_in Eq; simplify_eq; constructor. }
  apply (every_run_seq _ _ _ (fun h s => unchanged h /\ cached_in h s)).
  { cbn. intros t t' s ->. split; [by repeat constructor|]. exists t, t. left. }
  intros h s [Hh Hs]. destruct (submitted validate yaml_marshal s org yaml) as [[[[name description] isTemplate] doc]|code] eqn:Es.
  2: { cbn. by destruct code. }
  apply submitted_document in Es as (Hv & Hc & Hne & template & Hm).
  apply (every_run_seq _ _ _ (fun h' s' => unchanged h' /\ h `prefix_of` h' /\ cached_in h' s')).
  { cbn. intros t t' s' ->. split; [by apply unchanged_snoc|]. split; [by apply prefix_app_r|]. exists t, t. apply elem_of_app. right. left. }
  intros h1 s' (Hh1 & Hp1 & Hs'). destruct (HasGlobalBlueprint s' name) eqn:Eg; [done|].
  eapply every_run_seq; [by apply (db_CreateBlueprint_run org name description doc isTemplate h1)|].
  intros h2 [bp|[]] (Hp2 & Hr); try done. destruct Hr as (t & created & updated & Hput & Hnone & Hbp).
  eapply every_run_mono; [by apply stored_run|]. intros h3 [[bp' rev]|code] [Hp3 Hr']; [|by subst]. destruct Hr' as [-> Hput3]. subst bp.
  assert (Hp : h1 `prefix_of` h3) by (by etransitivity). exists t, s'. split; [done|]. split; [|split_and!; [done|by eapply cached_prefix|done]].
  exists s, template. cbn. split_and!; try done. eapply cached_prefix; [eapply cached_prefix; [exact Hs|exact Hp1]|exact Hp].
Qed.

(** A scan returns every row, or an error. *)
Lemma scanBlueprints_ok rows : forall acc ended l,
  scanBlueprints acc rows ended = Ok l -> ended = true /\ exists bps, rows = Some <$> bps /\ l = acc ++ bps.
Proof.
  induction rows as [|[bp|] rows IH]; intros acc ended l; cbn [scanBlueprints]; [|intros H|done].
  - destruct ended; [|done]. intros [= <-]. split; [done|]. exists []. by rewrite app_nil_r.
  - apply IH in H as [-> (bps & -> & ->)]. split; [done|]. exists (bp :: bps). by rewrite <- app_assoc.
Qed.

Lemma rows_scanned (rows : list (option OrgBlueprint)) bps l : rows = Some <$> bps -> length rows = length l ->
  Forall2 (fun row bp => row = None \/ row = Some bp) rows (take (length rows) l) -> bps = l.
Proof.
  intros -> Hlen. rewrite take_ge by lia. rewrite length_fmap in Hlen. revert l Hlen.
  induction bps as [|bp bps IH]; intros [|bp' l] Hlen H; [done..|]. rewrite fmap_cons in H.
  apply Forall2_cons in H as [[|[= ->]] Hl]; [done|]. f_equal. by apply IH; [injection Hlen|].
Qed.

(** C18. What the manager loads from the database is the whole table as it is at one
    moment: every row once, or an error; a row that does not scan, or a connection that
    breaks, never makes a shorter list. *)
Theorem ListAllBlueprints_complete h :
  every_run db_ListAllBlueprints h (fun h' r => exists t, h' = h ++ [(t, @None store, t)] /\
    match r with
    | Ok l => l ≡ₚ (map_to_list t).*2
    | Err e => e = DbFailed
    end).
Proof.
  unfold db_ListAllBlueprints. cbn. intros t t' [[rows ended]|e] [-> H]; exists t; (split; [done|]); [|done].
  destruct (scanBlueprints [] rows ended) as [l|e] eqn:E; cbn.
  - apply scanBlueprints_ok in E as [-> (bps & Hr & ->)]. destruct H as (l & Hl & Hrows & Hlen).
    rewrite (rows_scanned rows bps l Hr (Hlen eq_refl) Hrows). unfold rows_of in Hl.
    by rewrite List.forallb_filter_id in Hl by (apply List.forallb_forall; done).
  - clear H. revert E. generalize (@nil OrgBlueprint). induction rows as [|[bp|] rows IH]; intros acc; cbn [scanBlueprints]; [|apply IH|by intros [= <-]].
    by destruct ended; [|intros [= <-]].
Qed.
End runs.

(** ** Deleting a template that is used *)

Section templates.
Context `{Y : YamlLib} (fs : string -> string -> option strategy).

Lemma load_org_rows_keys s rows s2 k :
  res_foldl load_org_row s rows = Ok s2 -> is_Some (s2 !! k) -> is_Some (s !! k) \/ exists ob, ob ∈ rows /\ k = ob_key ob.
Proof.
  revert s. induction rows as [|ob rows IH]; intros s; cbn [res_foldl]; [intros [= <-]; by left|].
  unfold load_org_row at 1. destruct (org_content ob) as [n|]; [|done]. cbn. fold (ob_key ob). destruct (s !! ob_key ob); [done|].
  intros Hf Hk. destruct (IH _ Hf Hk) as [Hs|(ob' & Hin & ->)].
  - destruct (decide (k = ob_key ob)) as [->|Hne]; [right; exists ob; by split; [left|]|]. rewrite lookup_insert_ne in Hs by done. by left.
  - right. exists ob'. split; [by right|done].
Qed.

Lemma used_parent s k l bp :
  lineage s k l -> s !! k = Some bp -> Template bp <> "" -> is_Some (s !! parent_key s bp).
Proof.
  intros Hl Hk Ht. inversion Hl as [k' bp' Hk' Ht'|k' bp' p l' Hk' Ht' Hp Hl']; subst.
  - rewrite Hk in Hk'. by injection Hk' as <-.
  - rewrite Hk in Hk'. injection Hk' as <-. inversion Hl'; by eexists.
Qed.

(** A template can be deleted while another blueprint names it. From then on every
    load fails and leaves what was there before, so that each later change of any
    organization's blueprints is stored but reported as failed and not served from
    the cache. *)
Theorem used_template_blocks_reload os rows files errors enumerate original pub e ob own :
  (forall s, enumerate s ≡ₚ (map_to_list s).*1) ->
  ListAllBlueprints os = Some rows -> ob ∈ rows -> org_content ob = Ok own -> org_template own <> "" -> ob_Org ob <> "" ->
  (forall k, k ∈ [org_template own; orgBlueprintKey (ob_Org ob) (org_template own)] ->
     (forall s1, files = Ok s1 -> s1 !! k = None) /\ (forall ob', ob' ∈ rows -> ob_key ob' <> k)) ->
  loadAndValidateBlueprints fs (Some os) files errors enumerate original = (pub, e) ->
  is_Some e /\ last pub = Some original.
Proof.
  intros Hen Hrows Hin Hown Ht Horg Hmissing Hl. destruct e as [e|].
  { split; [by eexists|]. unfold loadAndValidateBlueprints in Hl. repeat case_in Hl; by simplify_eq. }
  destruct (load_success fs (Some os) files errors enumerate original pub Hl) as (s1 & s2 & s3 & Hf & Ho & Hr & _).
  unfold loadOrgBlueprints in Ho. rewrite Hrows in Ho. destruct (load_org_rows _ _ _ Ho) as (_ & H2 & _).
  destruct (H2 ob Hin) as (n & Hn & Hs2). rewrite Hown in Hn. injection Hn as <-.
  destruct (resolveInheritance_result fs s2 (enumerate s2) s3 (Hen s2) Hr) as (_ & Hd & Hlin).
  destruct (s3 !! ob_key ob) as [bp|] eqn:E3; [|by rewrite (proj1 (Hd (ob_key ob)) E3) in Hs2].
  destruct (Hlin _ _ E3) as (l & Hlineage & _).
  pose proof (used_parent s2 _ l _ Hlineage Hs2 Ht) as Hparent. set (raw := org_raw ob own own None [] "") in *.
  assert (Hk : parent_key s2 raw ∈ [org_template own; orgBlueprintKey (ob_Org ob) (org_template own)]).
  { unfold parent_key. cbn. destruct (String.eqb (ob_Org ob) ""); [left|].
    destruct (s2 !! orgBlueprintKey (ob_Org ob) (org_template own)); [right; left|left]. }
  destruct (Hmissing _ Hk) as [Hfile Hrow]. destruct (load_org_rows_keys _ _ _ _ Ho Hparent) as [Hs|(ob' & Hin' & Heq)].
  - rewrite (Hfile s1 Hf) in Hs. by destruct Hs.
  - by destruct (Hrow ob' Hin').
Qed.
End templates.

(** An organization whose blueprint names a template that is in no file. *)
Lemma used_template_blocks_reload_witness :
  let _ := SampleYaml.lib in
  exists pub e, loadAndValidateBlueprints InheritSample.no_strategy (Some ManagerSample.orgs) (Ok ∅) (fun _ => []) ManagerSample.enumerate ∅ = (pub, e) /\
    is_Some e.
Proof.
  intros L.
  destruct (loadAndValidateBlueprints InheritSample.no_strategy (Some ManagerSample.orgs) (Ok ∅) (fun _ => []) ManagerSample.enumerate ∅)
    as [pub e] eqn:E.
  exists pub, e. split; [done|].
  destruct (org_content ManagerSample.row) as [own|] eqn:Eo; [|vm_compute in Eo; discriminate Eo].
  assert (Ht : org_template own = "base") by (vm_compute in Eo; injection Eo as <-; reflexivity).
  destruct (used_template_blocks_reload InheritSample.no_strategy ManagerSample.orgs [ManagerSample.row] (Ok ∅) (fun _ => [])
              ManagerSample.enumerate ∅ pub e ManagerSample.row own (fun s => reflexivity _) eq_refl) as [H _];
    [by apply list_elem_of_singleton|exact Eo|rewrite Ht; discriminate|discriminate| |exact E|exact H].
  intros k Hk. rewrite Ht in Hk. split; [by intros s1 [= <-]|]. intros ob' ->%list_elem_of_singleton.
  apply elem_of_cons in Hk as [->|Hk]; [discriminate|]. apply list_elem_of_singleton in Hk as ->. discriminate.
Defined.
