(* ===== verification/Manifest.v ===== *)
(** * Rendered manifests and stored releases

    internal/helm/manifest.go, and of client.go what reads a manifest or a
    release secret: splitting a manifest into documents, the pod of a release,
    the documents shown to the policy engine, the digest, the secrets of
    releases, and the registry values. *)

From Stdlib Require Import Ascii.
From S2P Require Import Prelude GoStrings Yaml Sha256 PodState Workspaces Effects.

(** ** Documents *)

Definition newline : ascii := "010"%char.
Definition doc_sep : string := String newline "---".

Definition cons_head (a : ascii) (l : list string) : list string :=
  match l with [] => [String a ""] | w :: ws => String a w :: ws end.

(** [strings.Split(s, sep)] for a separator that is not empty, after [skip]
    more bytes. *)
Fixpoint split_from (sep : string) (skip : nat) (s : string) : list string :=
  match s with
  | "" => [""]
  | String a s' =>
      match skip with
      | S k => split_from sep k s'
      | O => if has_prefix s sep then "" :: split_from sep (String.length sep - 1) s'
             else cons_head a (split_from sep 0 s')
      end
  end.

(** The documents of a manifest, trimmed, without the empty ones.

    src/internal/helm/manifest.go:18-22 ManifestDocuments *)
Definition documents (manifest : string) : list string :=
  List.filter (fun doc => negb (String.eqb doc "")) (trim_space <$> split_from doc_sep 0 manifest).

Section decode.
(** sigs.k8s.io/yaml: a document as a map, and as a pod with its kind; [None]
    for a decoding error. *)
Variable decode_map : string -> option (list (string * yvalue)).
Variable decode_pod : string -> option (string * WorkspacePod).

Definition delete_key (key : string) (m : list (string * yvalue)) : list (string * yvalue) :=
  List.filter (fun kv => negb (String.eqb kv.1 key)) m.

Definition string_of (v : yvalue) : string := default "" (as_string v).

Definition doc_kind (doc : list (string * yvalue)) : string := string_of (yfield "kind" doc).

(** src/internal/helm/manifest.go:35-38 ManifestDocuments *)
Definition doc_name (doc : list (string * yvalue)) : string :=
  match as_map (yfield "metadata" doc) with Some meta => string_of (yfield "name" meta) | None => "" end.

(** src/internal/helm/manifest.go:39 ManifestDocuments *)
Definition doc_key (doc : list (string * yvalue)) : string := doc_kind doc +:+ "/" +:+ doc_name doc.

(** What is kept of a document, [None] for one left out.

    src/internal/helm/manifest.go:27-34 ManifestDocuments *)
Definition redact (doc : list (string * yvalue)) : option (list (string * yvalue)) :=
  if String.eqb (doc_kind doc) "" || String.eqb (doc_kind doc) "Secret" then None
  else Some (if String.eqb (doc_kind doc) "ConfigMap" then delete_key "binaryData" (delete_key "data" doc) else doc).

(** src/internal/helm/manifest.go:23-39 ManifestDocuments *)
Definition add_document (docs : gmap string (list (string * yvalue))) (raw : string)
    : answer (gmap string (list (string * yvalue))) :=
  match decode_map raw with
  | None => Err (Plain "failed to decode manifest document")
  | Some doc => Ok (match redact doc with Some doc => <[doc_key doc := doc]> docs | None => docs end)
  end.

(** src/internal/helm/manifest.go:16-42 ManifestDocuments *)
Definition ManifestDocuments (manifest : string) : answer (gmap string (list (string * yvalue))) :=
  res_foldl add_document ∅ (documents manifest).

(** What is left of a pod that is to be created again.

    src/internal/helm/client.go:622-625 PodManifestFromRelease *)
Definition fresh_pod (pod : WorkspacePod) : WorkspacePod :=
  let '(mkWorkspacePod p an cs _ _) := pod in
  let '(mkPod n ns l _ dt nn _ _ _ _ _ _ vc vs nsel rt rc ho su) := p in
  mkWorkspacePod (mkPod n ns l 0 dt nn "" "" "" [] [] [] vc vs nsel rt rc ho su) an cs [] "".

(** src/internal/helm/client.go:612-629 PodManifestFromRelease *)
Fixpoint pod_document (docs : list string) : answer WorkspacePod :=
  match docs with
  | [] => Err (Plain "pod not found in release manifest")
  | doc :: docs =>
      if negb (contains doc "kind: Pod") then pod_document docs
      else match decode_pod doc with
           | None => Err (Plain "failed to decode pod manifest from release")
           | Some (kind, pod) => if String.eqb kind "Pod" then Ok (fresh_pod pod) else pod_document docs
           end
  end.

(** src/internal/helm/client.go:611-630 PodManifestFromRelease *)
Definition PodManifestFromRelease (manifest : string) : answer WorkspacePod := pod_document (documents manifest).

(** Kind and name of every document but the pod, by key; documents that do not
    decode are passed over.

    src/internal/helm/inject.go:180-202 WorkspaceResourcesFromTemplate *)
Definition WorkspaceResources (rendered : string) : gmap string string :=
  foldl (fun resources doc =>
           match decode_map doc with
           | None => resources
           | Some m => if String.eqb (doc_kind m) "" || String.eqb (doc_kind m) "Pod" then resources
                       else <[doc_key m := doc]> resources
           end) ∅ (documents rendered).
End decode.

(** ** Releases *)

(** src/internal/helm/client.go:430-436 releaseSecretSelector *)
Definition releaseSecretSelector (selector : string) : string :=
  let base := "owner=helm,status=deployed" in
  if String.eqb selector "" then base else base +:+ "," +:+ selector.

(** The labels under which Helm stores the releases it left unfinished.

    src/internal/helm/client.go:417-419 StuckReleaseExists *)
Definition stuck_selector (name : string) : selector :=
  [("owner", ["helm"]); ("name", [name]);
   ("status", ["uninstalling"; "failed"; "pending-install"; "pending-upgrade"; "pending-rollback"])].

(** The labels under which Helm stores the current releases.

    src/internal/helm/client.go:431 releaseSecretSelector *)
Definition deployed_selector : selector := [("owner", ["helm"]); ("status", ["deployed"])].

(** src/internal/helm/client.go:416-424 StuckReleaseExists *)
Definition StuckReleaseExists (secrets : answer (list (gmap string string))) (name : string) : answer bool :=
  match secrets with
  | Err e => Err (Wrap "failed to list release secrets" e)
  | Ok secrets => Ok (existsb (selects (stuck_selector name)) secrets)
  end.

Section releases.
(** base64, gzip and JSON of a stored release: [None] when it does not decode. *)
Variables (D R : Type) (base64 gunzip : D -> option D) (is_gzip : D -> bool) (json : D -> option R).

(** src/internal/helm/client.go:462-484 decodeHelmReleaseSecret *)
Definition decodeHelmReleaseSecret (data : D) : option R :=
  b ← base64 data; b ← (if is_gzip b then gunzip b else Some b); json b.

(** Labels and data of each secret; the labels of the secret replace the release's.

    src/internal/helm/client.go:441-454 decodeReleaseSecrets *)
Definition decodeReleaseSecrets (secrets : list (gmap string string * D)) : list (gmap string string * R) :=
  omap (fun s => (fun rel => (s.1, rel)) <$> decodeHelmReleaseSecret s.2) secrets.
End releases.

(** ** The digest of a manifest *)

Definition trim_right_blank (s : string) : string :=
  of_bytes (drop_while_end (fun c => Ascii.eqb c " " || Ascii.eqb c "009") (to_bytes s)).

(** [strings.ReplaceAll(m, "\r\n", "\n")]. *)
Fixpoint unix_lines (s : string) : string :=
  match s with
  | String a s' => match s' with
                   | String b _ => if Ascii.eqb a "013" && Ascii.eqb b newline then unix_lines s' else String a (unix_lines s')
                   | "" => String a ""
                   end
  | "" => ""
  end.

(** The lines a [bufio.Scanner] delivers: a last empty one is not, and one
    carriage return at the end is dropped. *)
Definition drop_cr (s : string) : string := trim_suffix s (String "013" "").

Definition scan_lines (s : string) : list string :=
  let l := split_byte newline s in
  drop_cr <$> (if String.eqb (List.last l "") "" then List.removelast l else l).

(** The size of the scanner's buffer; a longer line is an error.

    src/internal/helm/client.go:955 normalizeManifest *)
Definition max_line : nat := Nat.mul 10 (Nat.mul 1024 1024).

(** What is kept of a line, [None] for nothing.

    src/internal/helm/client.go:958-970 normalizeManifest *)
Definition normal_line (line : string) : option string :=
  let line := trim_right_blank line in
  let trim := trim_space line in
  if String.eqb trim "" || String.eqb trim "---" || has_prefix line "# Source:" then None else Some line.

(** [limit] is [max_line].

    src/internal/helm/client.go:949-980 normalizeManifest *)
Definition normalizeManifest (limit : nat) (m : string) : answer string :=
  let m := trim_space (unix_lines m) in
  if existsb (fun l => Nat.leb limit (String.length l)) (split_byte newline m) then Err (Plain "token too long")
  else Ok (String.concat "" ((fun l => l +:+ String newline "") <$> omap normal_line (scan_lines m))).

(** ** Registry values *)

(** The values of the private registry replace three keys, when one is configured.

    src/internal/helm/client.go:161-173 RegistryValues *)
Definition RegistryValues (default_registry private_registry : gmap string yvalue) (private_host : string)
    : gmap string yvalue :=
  if String.eqb private_host "" then default_registry
  else filter (fun kv => kv.1 ∈ ["certCA"; "dockerConfigJson"; "regcred"]) private_registry ∪ default_registry.

(** ** Splitting *)

Lemma join_cons_head sep a l : l <> [] -> join sep (cons_head a l) = String a (join sep l).
Proof. destruct l as [|w [|w' l]]; [done| |]; by cbn. Qed.

Lemma split_from_nonempty sep k s : split_from sep k s <> [].
Proof.
  revert k. induction s as [|a s IH]; intros [|k]; cbn [split_from]; [done..| |done].
  case_goal; [done|]. destruct (split_from sep 0 s); done.
Qed.

(** The pieces joined again are the text. *)
Lemma join_split sep k s : sep <> "" -> join sep (split_from sep k s) = drop_str k s.
Proof.
  intros Hsep. revert k. induction s as [|a s IH]; intros [|k]; cbn [split_from drop_str]; [done..| |done].
  destruct (has_prefix (String a s) sep) eqn:Hp.
  - apply has_prefix_inv in Hp as [r Hr].
    destruct sep as [|b sep]; [done|]. injection Hr as -> ->.
    destruct (split_from (String b sep) (String.length (String b sep) - 1) (sep +:+ r)) as [|w ws] eqn:Es;
      [by apply split_from_nonempty in Es|].
    change (join (String b sep) ("" :: w :: ws)) with ("" +:+ String b sep +:+ join (String b sep) (w :: ws)).
    rewrite <- Es, IH. cbn [String.length]. rewrite Nat.sub_succ, Nat.sub_0_r, drop_str_app. done.
  - rewrite join_cons_head by apply split_from_nonempty. by rewrite IH.
Qed.

Lemma has_prefix_nil s : has_prefix s "" = true.
Proof. by destruct s. Qed.

Lemma has_prefix_cons a s b p : has_prefix (String a s) (String b p) = Ascii.eqb b a && has_prefix s p.
Proof. unfold has_prefix. cbn. destruct (ascii_dec b a) as [->|Hne]; [by rewrite Ascii.eqb_refl|]. by apply Ascii.eqb_neq in Hne as ->. Qed.

(** A separator is not found across the end of a piece, since it has one line
    break, its first byte. *)
Lemma doc_sep_apart a p rest :
  has_prefix (String a p) doc_sep = false -> has_prefix (String a p +:+ doc_sep +:+ rest) doc_sep = false.
Proof.
  unfold doc_sep. change "---" with (String "-" (String "-" (String "-" ""))).
  destruct p as [|b [|c [|d p]]];
    rewrite ?string_app_cons, ?string_app_nil_l, !has_prefix_cons, ?has_prefix_nil, ?andb_false_r; done.
Qed.

Lemma split_doc p rest : contains p doc_sep = false ->
  split_from doc_sep 0 (p +:+ doc_sep +:+ rest) = p :: split_from doc_sep 0 rest.
Proof.
  induction p as [|a p IH].
  - intros _. rewrite string_app_nil_l.
    assert (Hd : split_from doc_sep 3 ("---" +:+ rest) = split_from doc_sep 0 rest) by done.
    pose proof (has_prefix_app doc_sep rest) as Hp.
    change (doc_sep +:+ rest) with (String newline ("---" +:+ rest)) in Hp |- *. cbn [split_from]. rewrite Hp.
    change (String.length doc_sep - 1)%nat with 3%nat. by rewrite Hd.
  - cbn [contains]. rewrite orb_false_iff. intros [Hp Hc].
    change (String a p +:+ doc_sep +:+ rest) with (String a (p +:+ doc_sep +:+ rest)). cbn [split_from].
    change (String a (p +:+ doc_sep +:+ rest)) with (String a p +:+ doc_sep +:+ rest).
    rewrite (doc_sep_apart _ _ _ Hp), (IH Hc). done.
Qed.

Lemma split_last p : contains p doc_sep = false -> split_from doc_sep 0 p = [p].
Proof.
  induction p as [|a p IH]; [done|]. cbn [contains split_from]. rewrite orb_false_iff. intros [-> Hc]. by rewrite (IH Hc).
Qed.

(** What was joined is split again. *)
Lemma split_joined ps : ps <> [] -> Forall (fun p => contains p doc_sep = false) ps ->
  split_from doc_sep 0 (join doc_sep ps) = ps.
Proof.
  intros Hne H. induction H as [|p [|q ps] Hp Hps IH]; [done|by apply split_last|].
  change (join doc_sep (p :: q :: ps)) with (p +:+ doc_sep +:+ join doc_sep (q :: ps)).
  rewrite (split_doc _ _ Hp). by rewrite IH.
Qed.

(** ** Documents *)

Lemma yfield_delete k key m : yfield k (delete_key key m) = if String.eqb k key then YNil else yfield k m.
Proof.
  unfold delete_key. induction m as [|[k' v] m IH]; cbn; [by case_goal|].
  destruct (String.eqb_spec k' key) as [->|Hne]; cbn; rewrite IH; [rewrite (String.eqb_sym key k); by destruct (String.eqb k key)|].
  destruct (String.eqb_spec k' k) as [->|]; [|done]. by apply String.eqb_neq in Hne as ->.
Qed.

Lemma redact_spec src doc : redact src = Some doc ->
  doc_key doc = doc_key src /\ doc_kind doc = doc_kind src /\ doc_kind doc <> "" /\ doc_kind doc <> "Secret" /\
  (doc_kind doc = "ConfigMap" -> yfield "data" doc = YNil /\ yfield "binaryData" doc = YNil) /\
  forall k, k <> "data" -> k <> "binaryData" -> yfield k doc = yfield k src.
Proof.
  unfold redact. destruct (String.eqb_spec (doc_kind src) "") as [|H1]; [done|].
  destruct (String.eqb_spec (doc_kind src) "Secret") as [|H2]; [done|]. cbn [orb]. intros [= <-].
  destruct (String.eqb_spec (doc_kind src) "ConfigMap") as [H3|H3]; [|done].
  assert (Hf : forall k, k <> "data" -> k <> "binaryData" ->
    yfield k (delete_key "binaryData" (delete_key "data" src)) = yfield k src).
  { intros k ?%String.eqb_neq ?%String.eqb_neq. rewrite !yfield_delete. by repeat case_goal. }
  unfold doc_key, doc_name, doc_kind in *. rewrite !Hf by done.
  split_and!; [done..| |done]. intros _. rewrite !yfield_delete. done.
Qed.

Section manifest_lemmas.
Context (decode_map : string -> option (list (string * yvalue))).

Lemma add_document_inv docs raw docs' : add_document decode_map docs raw = Ok docs' ->
  exists src, decode_map raw = Some src /\
    match redact src with Some doc => docs' = <[doc_key doc := doc]> docs | None => docs' = docs end.
Proof.
  unfold add_document. destruct (decode_map raw) as [src|]; [|done]. intros <-%Ok_inj. exists src. by destruct (redact src).
Qed.

(** Every document shown comes from one of the list, and every one of the list
    that is not left out has its key. *)
Lemma fold_documents raws docs docs' : res_foldl (add_document decode_map) docs raws = Ok docs' ->
  (forall key doc, docs' !! key = Some doc -> docs !! key = Some doc \/
     exists raw src, raw ∈ raws /\ decode_map raw = Some src /\ redact src = Some doc /\ doc_key doc = key) /\
  (forall key, is_Some (docs !! key) -> is_Some (docs' !! key)) /\
  (forall raw, raw ∈ raws -> exists src, decode_map raw = Some src /\
     forall doc, redact src = Some doc -> is_Some (docs' !! doc_key doc)).
Proof.
  revert docs. induction raws as [|raw raws IH]; intros docs; cbn [res_foldl].
  { intros <-%Ok_inj. split_and!; [by left|done|]. by intros raw ?%elem_of_nil. }
  destruct (add_document decode_map docs raw) as [d1|] eqn:E1; [|done]. intros H.
  apply IH in H as (H1 & H2 & H3). apply add_document_inv in E1 as (src & Hsrc & Hd).
  split_and!.
  - intros key doc Hl. destruct (H1 key doc Hl) as [Hk|(raw' & src' & Hin & Hrest)].
    + destruct (redact src) as [d|] eqn:Er; subst d1; [|by left]. apply lookup_insert_Some in Hk as [[<- <-]|[_ Hk]]; [|by left].
      right. exists raw, src. split_and!; [by left|done..].
    + right. exists raw', src'. split; [by right|done].
  - intros key Hk. apply H2. destruct (redact src); subst d1; [|done]. destruct (decide (doc_key l = key)) as [->|];
      [by rewrite lookup_insert_eq|by rewrite lookup_insert_ne].
  - intros raw' [->|Hin]%elem_of_cons; [|by apply H3]. exists src. split; [done|]. intros doc Hr. rewrite Hr in Hd.
    apply H2. subst d1. by rewrite lookup_insert_eq.
Qed.

(** What the policy engine is given of a rendered manifest: every document
    but Secrets under its kind and name, as it was rendered, except that a
    ConfigMap has lost its data; nothing that a Secret or the data of a
    ConfigMap holds is in it; one undecodable document fails the whole. *)
Theorem ManifestDocuments_spec manifest docs : ManifestDocuments decode_map manifest = Ok docs ->
  (forall key doc, docs !! key = Some doc -> doc_key doc = key /\ doc_kind doc <> "Secret" /\
     (doc_kind doc = "ConfigMap" -> yfield "data" doc = YNil /\ yfield "binaryData" doc = YNil) /\
     exists raw src, raw ∈ documents manifest /\ decode_map raw = Some src /\
       forall k, k <> "data" -> k <> "binaryData" -> yfield k doc = yfield k src) /\
  (forall raw, raw ∈ documents manifest -> exists src, decode_map raw = Some src /\
     (doc_kind src <> "" -> doc_kind src <> "Secret" -> is_Some (docs !! doc_key src))).
Proof.
  intros (H1 & _ & H3)%fold_documents. split.
  - intros key doc Hl. destruct (H1 key doc Hl) as [Hk|(raw & src & Hin & Hd & Hr & Hkey)].
    { by rewrite lookup_empty in Hk. }
    destruct (redact_spec _ _ Hr) as (_ & _ & _ & Hs & Hc & Hf). split_and!; [done..|]. by exists raw, src.
  - intros raw Hin. destruct (H3 raw Hin) as (src & Hd & Hs). exists src. split; [done|].
    intros Hne Hnes. destruct (redact src) as [doc|] eqn:Er.
    + destruct (redact_spec _ _ Er) as (<- & _). by apply Hs.
    + unfold redact in Er. apply String.eqb_neq in Hne as Hne', Hnes as Hnes'. by rewrite Hne', Hnes' in Er.
Qed.
End manifest_lemmas.

(** A manifest of two documents. *)
Module ManifestSample.
Definition config : string := "kind: ConfigMap".
Definition secret : string := "kind: Secret".
Definition decode (doc : string) : option (list (string * yvalue)) :=
  if String.eqb doc config
  then Some [("kind", YStr "ConfigMap"); ("metadata", YMap [("name", YStr "cfg")]); ("data", YMap [("k", YStr "v")])]
  else if String.eqb doc secret then Some [("kind", YStr "Secret"); ("data", YMap [("token", YStr "t")])]
  else None.
Definition manifest : string := join doc_sep [config; secret].
End ManifestSample.

Lemma ManifestDocuments_spec_witness :
  exists docs, ManifestDocuments ManifestSample.decode ManifestSample.manifest = Ok docs /\
    dom docs = {["ConfigMap/cfg"]} /\
    forall doc, docs !! "ConfigMap/cfg" = Some doc -> yfield "data" doc = YNil.
Proof.
  destruct (ManifestDocuments ManifestSample.decode ManifestSample.manifest) as [docs|] eqn:E; [|vm_compute in E; discriminate E].
  pose proof (ManifestDocuments_spec _ _ _ E) as [H _]. exists docs. split; [reflexivity|].
  assert (Hd : docs = {["ConfigMap/cfg" := [("kind", YStr "ConfigMap"); ("metadata", YMap [("name", YStr "cfg")])]]}).
  { apply (Ok_inj (E := goerr)). rewrite <- E. vm_compute. reflexivity. }
  split; [rewrite Hd; apply dom_singleton_L|]. intros doc Hl. apply (H _ _ Hl). rewrite Hd, lookup_singleton_eq in Hl.
  apply Some_inj in Hl. rewrite <- Hl. reflexivity.
Defined.

(** A stored pod is created again with its labels, annotations and spec, and
    without any status. *)
Lemma fresh_pod_spec pod :
  wp_Labels (fresh_pod pod) = wp_Labels pod /\ wp_Annotations (fresh_pod pod) = wp_Annotations pod /\
  wp_Containers (fresh_pod pod) = wp_Containers pod /\ p_Name (wp_Pod (fresh_pod pod)) = p_Name (wp_Pod pod) /\
  Phase (wp_Pod (fresh_pod pod)) = "" /\ ContainerStatuses (wp_Pod (fresh_pod pod)) = [].
Proof. by destruct pod as [[]]. Qed.

(** The lists of current and of unfinished releases have no secret in common:
    what is listed as installed is not what deletion has to finish. *)
Lemma stuck_not_deployed name labels : selects (stuck_selector name) labels = true -> selects deployed_selector labels = false.
Proof.
  unfold selects, stuck_selector, deployed_selector. cbn. rewrite !andb_true_r, !andb_true_iff. intros (_ & _ & H).
  apply andb_false_iff. right. destruct (labels !! "status") as [v|]; [|done].
  destruct (String.eqb_spec v "deployed") as [->|]; done.
Qed.

(** A line that is kept is text: not blank, not a separator, not a comment of
    Helm's, with nothing blank at its end. *)
Lemma normal_line_spec line l : normal_line line = Some l ->
  l = trim_right_blank line /\ trim_space l <> "" /\ trim_space l <> "---" /\ has_prefix l "# Source:" = false.
Proof.
  unfold normal_line. destruct (String.eqb_spec (trim_space (trim_right_blank line)) "") as [|H1]; [done|].
  destruct (String.eqb_spec (trim_space (trim_right_blank line)) "---") as [|H2]; [done|].
  destruct (has_prefix _ "# Source:") eqn:H3; [done|]. cbn. by intros [= <-].
Qed.
