(* ===== verification/Watch.v ===== *)
(** * The file watcher

    internal/blueprint/watch.go: the directory of the blueprint files is watched
    and the manager reloads once changes have stopped for a while. The watcher's
    event loop, the goroutine that rebuilds it, its timer and its [Close] run
    concurrently; what each does under the mutex, or in one access of the shared
    fields, is one step. fsnotify is the environment: it delivers any events while
    its watcher is open, accepts or refuses a path, and its methods read their
    receiver, so that they panic on a nil one. *)

From Stdlib Require Import Ascii.
From stdpp Require Import relations.
From S2P Require Import Prelude GoStrings Include Manager.

(** ** Paths *)

(** [filepath.Base] on Unix; [filepath.Ext] is in Manager.v. *)
Definition filepath_base (p : string) : string :=
  match last (filter (fun e => e <> "") (split_byte "/" p)) with
  | Some e => e
  | None => if String.eqb p "" then "." else "/"
  end.

Example filepath_base_ex :
  (filepath_base <$> ["/a/..data"; "/a/b/"; "//"; ""; "x"], filepath_ext <$> ["/a.d/b"; "/a/b.yaml"; "b.tar.gz"; ".yml"; "b."])
  = (["..data"; "b"; "/"; "."; "x"], [""; ".yaml"; ".gz"; ".yml"; "."]).
Proof. reflexivity. Qed.

(** src/internal/blueprint/watch.go:303-306 isKubeShadow *)
Definition isKubeShadow (path : string) : bool := has_prefix (filepath_base path) "..".

(** ** The directories watched at the start *)

(** What [WalkDir] finds: a directory that cannot be read has no entries. *)
Inductive entry : Type :=
| File (name : string)
| Dir (name : string) (entries : list entry).

(** The callback of [WalkDir] below the root, in its order.

    src/internal/blueprint/watch.go:120-136 addInitialWatches *)
Fixpoint walked (parent : string) (e : entry) : list string :=
  match e with
  | File _ => []
  | Dir name entries =>
      let path := filepath_join parent name in
      if isKubeShadow path then [] else path :: flat_map (walked path) entries
  end.

(** The paths that are added; none below a root that is itself a shadow.

    src/internal/blueprint/watch.go:115-137 addInitialWatches *)
Definition addInitialWatches (watchDir : string) (entries : list entry) : list string :=
  [filepath_dir watchDir; watchDir] ++ (if isKubeShadow watchDir then [] else flat_map (walked watchDir) entries).

(** ** State *)

(** The fields of the struct; pointers and channels are numbers, nil is [None].
    [reloadWg] counts the reloads in flight.

    src/internal/blueprint/watch.go:20-37 Watcher *)
Record Watcher : Type := mkWatcher {
  watcher : option nat;
  watchedDirs : option (gset string);
  stopChan : option nat;
  reloadTimer : option nat;
  reinitOnce : bool;
  closed : bool;
  reloadWg : nat;
}.

(** What the runtime keeps: the clock, the pending timers with their times, the
    callbacks whose goroutine has not taken the mutex yet, the closed channels, the
    open fsnotify watchers and the next number. *)
Record Runtime : Type := mkRuntime {
  now : Z;
  pending : gmap nat Z;
  fired : nat;
  closedChans : gset nat;
  live : gset nat;
  fresh : nat;
}.

(** What the theorems speak of: whether a reload was scheduled after the last one
    began, when the last one was scheduled, how many began. *)
Record History : Type := mkHistory { dirty : bool; changed_at : Z; began : nat }.

Record mem : Type := mkMem { w : Watcher; rt : Runtime; hist : History }.

(** What the loop still has to do for an event. *)
Inductive action : Type :=
| AddWatch (path : string)
| RemoveWatch (path : string)
| ScheduleReload
| ScheduleReinit.

(** Where a goroutine is: the event loop with the rest of its event, the goroutine of
    [scheduleReinit] asleep, [Setup] between its accesses ([re] when it was called by
    that goroutine), [Close] likewise. *)
Inductive thread : Type :=
| Loop (fsW : nat) (stop : option nat) (todo : list action)
| Asleep (until : Z)
| Setup_chan (re : bool)
| Setup_new (re : bool)
| Setup_adds (re : bool) (fsW : nat) (paths : list string)
| Rescheduling
| Closing
| Closing_stop (stop fw : option nat)
| Closing_wait (fw : option nat)
| Returned.

(** What a goroutine's step makes: it cannot be taken, it panics, or it changes the
    memory and leaves these goroutines instead of it. *)
Inductive move : Type := Blocked | Panics | Moves (m : mem) (ts : list thread).

Definition with_dirs (w : Watcher) (f : option nat) (d : option (gset string)) : Watcher :=
  mkWatcher f d (stopChan w) (reloadTimer w) (reinitOnce w) (closed w) (reloadWg w).
Definition with_stop (w : Watcher) (s : option nat) : Watcher :=
  mkWatcher (watcher w) (watchedDirs w) s (reloadTimer w) (reinitOnce w) (closed w) (reloadWg w).
Definition with_timer (w : Watcher) (t : option nat) : Watcher :=
  mkWatcher (watcher w) (watchedDirs w) (stopChan w) t (reinitOnce w) (closed w) (reloadWg w).
Definition with_once (w : Watcher) (b : bool) : Watcher :=
  mkWatcher (watcher w) (watchedDirs w) (stopChan w) (reloadTimer w) b (closed w) (reloadWg w).
Definition with_wg (w : Watcher) (n : nat) : Watcher :=
  mkWatcher (watcher w) (watchedDirs w) (stopChan w) (reloadTimer w) (reinitOnce w) (closed w) n.

(** ** Operations *)

Section watch.
Variable watchDir : string.
Variable reloadDelay : Z.

(** [ok]: fsnotify accepts the path. [None] is a panic.

    src/internal/blueprint/watch.go:85-98 addWatch *)
Definition addWatch (ok : bool) (path : string) (w : Watcher) : option Watcher :=
  if isKubeShadow path then Some w
  else if bool_decide (path ∈ default ∅ (watchedDirs w)) then Some w
  else
    match watcher w with
    | None => None
    | Some _ =>
        if ok then match watchedDirs w with None => None | Some d => Some (with_dirs w (watcher w) (Some ({[path]} ∪ d))) end
        else Some w
    end.

(** src/internal/blueprint/watch.go:101-110 removeWatch *)
Definition removeWatch (path : string) (w : Watcher) : option Watcher :=
  match watchedDirs w with
  | None => Some w
  | Some d =>
      if bool_decide (path ∈ d)
      then match watcher w with None => None | Some f => Some (with_dirs w (Some f) (Some (d ∖ {[path]}))) end
      else Some w
  end.

(** The operations of an event. *)
Record Event : Type := mkEvent {
  ev_Name : string;
  Create : bool;
  Write : bool;
  Remove : bool;
  Rename : bool;
  Chmod : bool;
}.

(** What the loop does for an event; [is_dir] is what [os.Stat] says.

    src/internal/blueprint/watch.go:151-193 watchLoop *)
Definition event_actions (is_dir : bool) (e : Event) : list action :=
  let base := filepath_base (ev_Name e) in
  if String.eqb base "..data" && (Rename e || Create e) then [ScheduleReload]
  else if Chmod e || isKubeShadow (ev_Name e) then []
  else if (Remove e || Rename e) && String.eqb (ev_Name e) watchDir then [ScheduleReinit]
  else
    (if Create e && is_dir && negb (isKubeShadow (ev_Name e)) then [AddWatch (ev_Name e)] else []) ++
    (if (Remove e || Rename e) && negb (isKubeShadow (ev_Name e)) then [RemoveWatch (ev_Name e)] else []) ++
    (if negb (isYAMLFile (ev_Name e)) then []
     else if Write e || Create e || Remove e || Rename e then [ScheduleReload] else []).

(** [time.Timer.Stop] and [time.AfterFunc]. *)
Definition stop_timer (t : option nat) (p : gmap nat Z) : gmap nat Z :=
  match t with Some id => delete id p | None => p end.

(** src/internal/blueprint/watch.go:245-270 scheduleReload *)
Definition scheduleReload (m : mem) : mem :=
  let r := rt m in
  let p := stop_timer (reloadTimer (w m)) (pending r) in
  mkMem (with_timer (w m) (Some (fresh r)))
    (mkRuntime (now r) (<[fresh r := (now r + reloadDelay)%Z]> p) (fired r) (closedChans r) (live r) (S (fresh r)))
    (mkHistory true (now r) (began (hist m))).

(** The head of the timer's function: nothing once the watcher is closed.

    src/internal/blueprint/watch.go:251-269 scheduleReload *)
Definition begin_reload (m : mem) : mem :=
  let r := rt m in
  let r' := mkRuntime (now r) (pending r) (pred (fired r)) (closedChans r) (live r) (fresh r) in
  if closed (w m) then mkMem (w m) r' (hist m)
  else mkMem (with_wg (w m) (S (reloadWg (w m)))) r' (mkHistory false (changed_at (hist m)) (S (began (hist m)))).

(** The two seconds the goroutine of [scheduleReinit] sleeps, in nanoseconds. *)
Definition reinitDelay : Z := 2000000000.

(** The goroutine it starts, if none is under way.

    src/internal/blueprint/watch.go:210-241 scheduleReinit *)
Definition scheduleReinit (m : mem) : mem * list thread :=
  if reinitOnce (w m) then (m, [])
  else (mkMem (with_once (w m) true) (rt m) (hist m), [Asleep (now (rt m) + reinitDelay)]).

(** The old watcher is closed and a channel made for the next loop.

    src/internal/blueprint/watch.go:220-232 scheduleReinit *)
Definition teardown (m : mem) : mem :=
  let r := rt m in
  let w1 := match watcher (w m) with Some _ => with_dirs (w m) None None | None => w m end in
  let live1 := match watcher (w m) with Some f => live r ∖ {[f]} | None => live r end in
  mkMem (with_once (with_stop w1 (Some (fresh r))) false)
    (mkRuntime (now r) (pending r) (fired r) (closedChans r) live1 (S (fresh r))) (hist m).

(** src/internal/blueprint/watch.go:69-72 Setup *)
Definition install (m : mem) : mem :=
  let r := rt m in
  mkMem (with_dirs (w m) (Some (fresh r)) (Some ∅))
    (mkRuntime (now r) (pending r) (fired r) (closedChans r) ({[fresh r]} ∪ live r) (S (fresh r))) (hist m).

(** src/internal/blueprint/watch.go:52-62 Setup *)
Definition make_stop (m : mem) : mem :=
  match stopChan (w m) with
  | Some _ => m
  | None => let r := rt m in
      mkMem (with_stop (w m) (Some (fresh r)))
        (mkRuntime (now r) (pending r) (fired r) (closedChans r) (live r) (S (fresh r))) (hist m)
  end.

(** What [Close] does under the mutex.

    src/internal/blueprint/watch.go:275-284 Close *)
Definition close_section (m : mem) : mem * thread :=
  let x := w m in
  let r := rt m in
  (mkMem (mkWatcher None None (stopChan x) (reloadTimer x) (reinitOnce x) true (reloadWg x))
     (mkRuntime (now r) (stop_timer (reloadTimer x) (pending r)) (fired r) (closedChans r) (live r) (fresh r)) (hist m),
   Closing_stop (stopChan x) (watcher x)).

(** Closing a closed channel panics.

    src/internal/blueprint/watch.go:286-288 Close *)
Definition close_stop (stop fw : option nat) (m : mem) : move :=
  match stop with
  | None => Moves m [Closing_wait fw]
  | Some c =>
      let r := rt m in
      if bool_decide (c ∈ closedChans r) then Panics
      else Moves (mkMem (w m) (mkRuntime (now r) (pending r) (fired r) ({[c]} ∪ closedChans r) (live r) (fresh r)) (hist m)) [Closing_wait fw]
  end.

(** src/internal/blueprint/watch.go:290-297 Close *)
Definition close_wait (fw : option nat) (m : mem) : move :=
  match reloadWg (w m) with
  | S _ => Blocked
  | O =>
      match fw with
      | None => Moves m [Returned]
      | Some f => let r := rt m in
          Moves (mkMem (w m) (mkRuntime (now r) (pending r) (fired r) (closedChans r) (live r ∖ {[f]}) (fresh r)) (hist m)) [Returned]
      end
  end.

(** What the environment decides of a goroutine's step: the event a loop receives, the
    case of its select statement that is taken, whether fsnotify accepts what it is
    asked, the files the walk finds. *)
Inductive choice : Type :=
| Receive (e : Event) (is_dir : bool)
| EventsClosed
| StopSeen
| Proceed (ok : bool)
| Found (entries : list entry).

Definition watcher_moves (m : mem) (r : option Watcher) (ts : list thread) : move :=
  match r with None => Panics | Some x => Moves (mkMem x (rt m) (hist m)) ts end.

(** src/internal/blueprint/watch.go:166-193 watchLoop *)
Definition perform (a : action) (ok : bool) (m : mem) (next : thread) : move :=
  match a with
  | AddWatch path => watcher_moves m (addWatch ok path (w m)) [next]
  | RemoveWatch path => watcher_moves m (removeWatch path (w m)) [next]
  | ScheduleReload => Moves (scheduleReload m) [next]
  | ScheduleReinit => let '(m', ts) := scheduleReinit m in Moves m' (next :: ts)
  end.

(** One step of the event loop: it receives while its fsnotify watcher is open, acts,
    or returns when the events or its channel are closed.

    src/internal/blueprint/watch.go:143-205 watchLoop *)
Definition watchLoop (fsW : nat) (stop : option nat) (todo : list action) (c : choice) (m : mem) : move :=
  match todo, c with
  | [], Receive e is_dir =>
      if bool_decide (fsW ∈ live (rt m)) then Moves m [Loop fsW stop (event_actions is_dir e)] else Blocked
  | [], EventsClosed => if bool_decide (fsW ∈ live (rt m)) then Blocked else Moves m []
  | [], StopSeen =>
      match stop with Some s => if bool_decide (s ∈ closedChans (rt m)) then Moves m [] else Blocked | None => Blocked end
  | a :: todo, Proceed ok => perform a ok m (Loop fsW stop todo)
  | _, _ => Blocked
  end.

(** The steps of [Setup]; a failure ends it, and after it the goroutine of
    [scheduleReinit] schedules a reload in any case.

    src/internal/blueprint/watch.go:51-81 Setup *)
Definition setup_step (re : bool) (t : thread) (c : choice) (m : mem) : move :=
  let after := if re then [Rescheduling] else [] in
  match t, c with
  | Setup_chan _, Proceed _ => Moves (make_stop m) [Setup_new re]
  | Setup_new _, Proceed false => Moves m after
  | Setup_new _, Found entries => Moves (install m) [Setup_adds re (fresh (rt m)) (addInitialWatches watchDir entries)]
  | Setup_adds _ fsW (path :: paths), Proceed ok => watcher_moves m (addWatch ok path (w m)) [Setup_adds re fsW paths]
  | Setup_adds _ fsW [], Proceed _ => Moves m (Loop fsW (stopChan (w m)) [] :: after)
  | _, _ => Blocked
  end.

Definition thread_step (t : thread) (c : choice) (m : mem) : move :=
  match t, c with
  | Loop fsW stop todo, _ => watchLoop fsW stop todo c m
  | Asleep until, Proceed _ => if (until <=? now (rt m))%Z then Moves (teardown m) [Setup_chan true] else Blocked
  | Setup_chan re, _ | Setup_new re, _ | Setup_adds re _ _, _ => setup_step re t c m
  | Rescheduling, Proceed _ => Moves (scheduleReload m) []
  | Closing, Proceed _ => let '(m', t') := close_section m in Moves m' [t']
  | Closing_stop stop fw, Proceed _ => close_stop stop fw m
  | Closing_wait fw, Proceed _ => close_wait fw m
  | _, _ => Blocked
  end.

Inductive config : Type := Running (m : mem) (ts : list thread) | Crashed.

(** What happens next: a goroutine steps, time passes, a due timer starts its
    function, the function takes the mutex, a reload ends, [Close] is called. *)
Inductive event : Type :=
| Goes (i : nat) (c : choice)
| Elapses (d : N)
| Fires (id : nat)
| Begins
| Ends
| CloseCalled.

Definition run_thread (i : nat) (c : choice) (m : mem) (ts : list thread) : option config :=
  match ts !! i with
  | None => None
  | Some t =>
      match thread_step t c m with
      | Blocked => None
      | Panics => Some Crashed
      | Moves m' new => Some (Running m' (take i ts ++ new ++ drop (S i) ts))
      end
  end.

Definition happens (e : event) (cf : config) : option config :=
  match cf with
  | Crashed => None
  | Running m ts =>
      let r := rt m in
      match e with
      | Goes i c => run_thread i c m ts
      | Elapses d => Some (Running (mkMem (w m) (mkRuntime (now r + Z.of_N d) (pending r) (fired r) (closedChans r) (live r) (fresh r)) (hist m)) ts)
      | Fires id =>
          match pending r !! id with
          | Some due =>
              if (due <=? now r)%Z
              then Some (Running (mkMem (w m) (mkRuntime (now r) (delete id (pending r)) (S (fired r)) (closedChans r) (live r) (fresh r)) (hist m)) ts)
              else None
          | None => None
          end
      | Begins => match fired r with O => None | S _ => Some (Running (begin_reload m) ts) end
      | Ends => match reloadWg (w m) with O => None | S n => Some (Running (mkMem (with_wg (w m) n) r (hist m)) ts) end
      | CloseCalled => Some (Running m (ts ++ [Closing]))
      end
  end.

Definition step (cf cf' : config) : Prop := exists e, happens e cf = Some cf'.

(** A watcher that was made and whose [Setup] was called, as the manager does.

    src/internal/blueprint/watch.go:40-48 NewWatcher *)
Definition NewWatcher (t : Z) : config :=
  Running (mkMem (mkWatcher None None None None false false 0) (mkRuntime t ∅ 0 ∅ ∅ 0) (mkHistory false t 0)) [Setup_chan false].

Definition reachable (cf : config) : Prop := exists t, rtc step (NewWatcher t) cf.

(** Several happenings in order. *)
Fixpoint happen (es : list event) (cf : config) : option config :=
  match es with [] => Some cf | e :: es => match happens e cf with Some cf' => happen es cf' | None => None end end.
End watch.

(** ** The invariant *)

Section laws.
Variable watchDir : string.
Variable reloadDelay : Z.
#[local] Abbreviation step := (step watchDir reloadDelay).

(** A [Close] that is past its critical section. *)
Definition closing (t : thread) : bool :=
  match t with Closing_stop _ _ | Closing_wait _ | Returned => true | _ => false end.

(** Only the last timer is pending, and it is due [reloadDelay] after the last change. *)
Definition debounced (m : mem) : Prop :=
  forall id due, pending (rt m) !! id = Some due -> reloadTimer (w m) = Some id /\ due = (changed_at (hist m) + reloadDelay)%Z.

(** A change no reload has begun after has one on its way. *)
Definition on_its_way (m : mem) : Prop :=
  fired (rt m) <> 0%nat \/ exists id, pending (rt m) !! id = Some (changed_at (hist m) + reloadDelay)%Z.

Record mem_inv (m : mem) : Prop := {
  inv_debounced : debounced m;
  inv_lost : dirty (hist m) = true -> closed (w m) = true \/ on_its_way m;
  inv_dirs : watcher (w m) = None <-> watchedDirs (w m) = None;
  inv_shadow : forall d p, watchedDirs (w m) = Some d -> p ∈ d -> isKubeShadow p = false;
}.

Definition config_inv (cf : config) : Prop :=
  match cf with
  | Crashed => True
  | Running m ts =>
      mem_inv m /\ (forall t, t ∈ ts -> closing t = true -> closed (w m) = true) /\
      (Returned ∈ ts -> reloadWg (w m) = 0%nat)
  end.

(** What a goroutine's step does not change of the fields the theorems speak of. *)
Record keeps (m m' : mem) : Prop := {
  keeps_closed : closed (w m) = true -> closed (w m') = true;
  keeps_wg : reloadWg (w m') = reloadWg (w m);
  keeps_began : began (hist m') = began (hist m);
}.

#[local] Instance keeps_refl : Reflexive keeps.
Proof. by split. Qed.

Lemma addWatch_spec ok path x y :
  addWatch ok path x = Some y -> y = x \/
  exists f d, watcher x = Some f /\ watchedDirs x = Some d /\ isKubeShadow path = false /\ y = with_dirs x (Some f) (Some ({[path]} ∪ d)).
Proof.
  unfold addWatch. destruct (isKubeShadow path); [intros [= <-]; by left|]. case_bool_decide; [intros [= <-]; by left|].
  destruct (watcher x) as [f|]; [|done]. destruct ok; [|intros [= <-]; by left].
  destruct (watchedDirs x) as [d|]; [|done]. intros [= <-]. right. by exists f, d.
Qed.

Lemma removeWatch_spec path x y :
  removeWatch path x = Some y -> y = x \/
  exists f d, watcher x = Some f /\ watchedDirs x = Some d /\ y = with_dirs x (Some f) (Some (d ∖ {[path]})).
Proof.
  unfold removeWatch. destruct (watchedDirs x) as [d|]; [|intros [= <-]; by left]. case_bool_decide; [|intros [= <-]; by left].
  destruct (watcher x) as [f|]; [|done]. intros [= <-]. right. by exists f, d.
Qed.

(** Replacing the watcher or its directories. *)
Lemma mem_inv_dirs m f d r :
  mem_inv m -> (f = None <-> d = None) -> (forall s p, d = Some s -> p ∈ s -> isKubeShadow p = false) ->
  pending r = pending (rt m) -> fired r = fired (rt m) ->
  mem_inv (mkMem (with_dirs (w m) f d) r (hist m)).
Proof.
  intros [Hb Hl _ _] Hfd Hs Hp Hf. split; cbn; [|unfold on_its_way; cbn; by rewrite Hp, Hf|done|done]. unfold debounced. cbn. by rewrite Hp.
Qed.

Lemma addWatch_inv ok path m y : mem_inv m -> addWatch ok path (w m) = Some y -> mem_inv (mkMem y (rt m) (hist m)) /\ keeps m (mkMem y (rt m) (hist m)).
Proof.
  intros Hm [->|(f & d & Hf & Hd & Hs & ->)]%addWatch_spec; [by destruct m|]. split; [|by split].
  apply mem_inv_dirs; try done. intros s p [= <-] [->%elem_of_singleton|Hp]%elem_of_union; [done|]. by eapply inv_shadow.
Qed.

Lemma removeWatch_inv path m y : mem_inv m -> removeWatch path (w m) = Some y -> mem_inv (mkMem y (rt m) (hist m)) /\ keeps m (mkMem y (rt m) (hist m)).
Proof.
  intros Hm [->|(f & d & Hf & Hd & ->)]%removeWatch_spec; [by destruct m|]. split; [|by split].
  apply mem_inv_dirs; try done. intros s p [= <-] [Hp _]%elem_of_difference. by eapply inv_shadow.
Qed.

Lemma stop_timer_debounced m id due :
  debounced m -> stop_timer (reloadTimer (w m)) (pending (rt m)) !! id = Some due -> False.
Proof.
  intros Hd H. unfold stop_timer in H. destruct (reloadTimer (w m)) as [i|] eqn:Et.
  - apply lookup_delete_Some in H as [Hne H]. apply Hd in H as [H _]. congruence.
  - apply Hd in H as [H _]. congruence.
Qed.

Lemma scheduleReload_inv m : mem_inv m -> mem_inv (scheduleReload reloadDelay m) /\ keeps m (scheduleReload reloadDelay m).
Proof.
  intros [Hb Hl Hd Hs]. split; [|by split]. split; cbn; try done.
  - intros id due. cbn. intros [[<- <-]|[Hne H]]%lookup_insert_Some; [done|]. by apply stop_timer_debounced in H.
  - intros _. right. right. cbn. eexists. by rewrite lookup_insert_eq.
Qed.

Lemma scheduleReinit_inv m m' ts : mem_inv m -> scheduleReinit m = (m', ts) -> mem_inv m' /\ keeps m m' /\ forall t, t ∈ ts -> closing t = false /\ t <> Returned.
Proof.
  intros [Hb Hl Hd Hs]. unfold scheduleReinit. destruct (reinitOnce (w m)); intros [= <- <-].
  - by split_and!; [|by destruct m|set_solver].
  - split_and!; [by split|by split|]. by intros t ->%list_elem_of_singleton.
Qed.

Lemma teardown_inv m : mem_inv m -> mem_inv (teardown m) /\ keeps m (teardown m).
Proof.
  intros [Hb Hl Hd Hs]. unfold teardown. destruct (watcher (w m)) eqn:E; (split; [|by split]); split; cbn; try done.
  by rewrite E.
Qed.

Lemma install_inv m : mem_inv m -> mem_inv (install m) /\ keeps m (install m).
Proof. intros Hm. split; [|by split]. apply mem_inv_dirs; try done. intros s p [= <-]. set_solver. Qed.

Lemma make_stop_inv m : mem_inv m -> mem_inv (make_stop m) /\ keeps m (make_stop m).
Proof. intros [Hb Hl Hd Hs]. unfold make_stop. destruct (stopChan (w m)) eqn:E; split; by split. Qed.

Lemma close_section_inv m : mem_inv m -> mem_inv (close_section m).1 /\ closed (w (close_section m).1) = true /\ keeps m (close_section m).1.
Proof.
  intros [Hb Hl Hd Hs]. split_and!; [|done|by split]. split; cbn; try done; [|by left].
  intros id due H. by apply stop_timer_debounced in H.
Qed.

(** What a step leaves: the invariant, and goroutines that are past the critical
    section of [Close] only if the watcher is closed. *)
Definition left_by (m m' : mem) (new : list thread) : Prop :=
  mem_inv m' /\ keeps m m' /\ (forall t, t ∈ new -> closing t = true -> closed (w m') = true) /\ (Returned ∈ new -> reloadWg (w m') = 0%nat).

Lemma left_open m m' new :
  mem_inv m' /\ keeps m m' -> (forall t, t ∈ new -> closing t = false) -> left_by m m' new.
Proof.
  intros [H1 H2] H3. split; [done|]. split; [done|]. split.
  - intros t Ht Hc. by rewrite (H3 t Ht) in Hc.
  - intros Ht. by specialize (H3 _ Ht).
Qed.

Lemma open_thread t : closing t = false -> forall t', t' ∈ [t] -> closing t' = false.
Proof. by intros H t' ->%list_elem_of_singleton. Qed.

Lemma watcher_moves_left m r ts m' new :
  (forall y, r = Some y -> mem_inv (mkMem y (rt m) (hist m)) /\ keeps m (mkMem y (rt m) (hist m))) ->
  (forall t, t ∈ ts -> closing t = false) -> watcher_moves m r ts = Moves m' new -> left_by m m' new.
Proof. intros H Ht. destruct r as [y|]; [|done]. intros [= <- <-]. apply left_open; [by apply H|done]. Qed.

Lemma perform_left a ok m fsW stop todo m' new :
  mem_inv m -> perform reloadDelay a ok m (Loop fsW stop todo) = Moves m' new -> left_by m m' new.
Proof.
  intros Hm. destruct a as [path|path| |]; cbn.
  - apply watcher_moves_left; [|by apply open_thread]. intros y. by apply addWatch_inv.
  - apply watcher_moves_left; [|by apply open_thread]. intros y. by apply removeWatch_inv.
  - intros [= <- <-]. apply left_open; [by apply scheduleReload_inv|by apply open_thread].
  - destruct (scheduleReinit m) as [m1 ts] eqn:E. intros [= <- <-]. destruct (scheduleReinit_inv _ _ _ Hm E) as (H1 & H2 & H3).
    apply left_open; [done|]. intros t [->|Ht]%elem_of_cons; [done|by apply H3].
Qed.

Lemma watchLoop_left fsW stop todo c m m' new :
  mem_inv m -> watchLoop watchDir reloadDelay fsW stop todo c m = Moves m' new -> left_by m m' new.
Proof.
  intros Hm. destruct todo as [|a todo], c as [e is_dir| | |ok|entries]; cbn [watchLoop]; try done; [| | |apply perform_left, Hm].
  - case_bool_decide; [|done]. intros [= <- <-]. apply left_open; [done|by apply open_thread].
  - case_bool_decide; [done|]. intros [= <- <-]. apply left_open; [done|by intros ? ?%elem_of_nil].
  - destruct stop as [ch|]; [|done]. case_bool_decide; [|done]. intros [= <- <-]. apply left_open; [done|by intros ? ?%elem_of_nil].
Qed.

Lemma after_open (re : bool) (t : thread) : t ∈ (if re then [Rescheduling] else []) -> closing t = false.
Proof. destruct re; [by apply open_thread|]. by intros ?%elem_of_nil. Qed.

Lemma setup_left re t c m m' new :
  mem_inv m -> setup_step watchDir re t c m = Moves m' new -> left_by m m' new.
Proof.
  intros Hm. destruct t as [| | | |re' fsW [|path paths]| | | | |]; destruct c as [| | |[]|]; cbn [setup_step]; try done.
  all: try (intros [= <- <-]; apply left_open; [done|]; intros t; try (intros [->|H]%elem_of_cons; [done|revert H]); apply after_open).
  all: try (intros [= <- <-]; apply left_open; [by first [apply make_stop_inv|apply install_inv]|by apply open_thread]).
  all: apply watcher_moves_left; [|by apply open_thread]; intros y; by apply addWatch_inv.
Qed.

Lemma thread_left t c m m' new :
  mem_inv m -> (closing t = true -> closed (w m) = true) -> thread_step watchDir reloadDelay t c m = Moves m' new -> left_by m m' new.
Proof.
  intros Hm Hc. destruct t as [fsW stop todo|until|re|re|re fsW paths| | |stop fw|fw|]; cbn [thread_step].
  - by apply watchLoop_left.
  - destruct c as [| | |ok|]; try done. destruct (until <=? now (rt m))%Z; [|done]. intros [= <- <-].
    apply left_open; [by apply teardown_inv|by apply open_thread].
  - by apply setup_left.
  - by apply setup_left.
  - by apply setup_left.
  - destruct c; try done. intros [= <- <-]. apply left_open; [by apply scheduleReload_inv|set_solver].
  - destruct c; try done. destruct (close_section_inv m Hm) as (H1 & H2 & H3). intros [= <- <-]. split; [done|]. split; [done|].
    split; [done|]. by intros ?%list_elem_of_singleton.
  - destruct c; try done. unfold close_stop. destruct stop as [ch|]; [case_bool_decide; [done|]|]; intros [= <- <-].
    all: (split; [by destruct m, Hm; split|]); (split; [done|by split]) || (split; [by split|]; split; [by intros t _ _; apply Hc|by intros ?%list_elem_of_singleton]).
  - destruct c; try done. unfold close_wait. destruct (reloadWg (w m)) eqn:E; [|done]. destruct fw as [f|]; intros [= <- <-].
    all: (split; [by destruct Hm; split|]); (split; [by split|]); split; [by intros t _ _; apply Hc|done].
  - by destruct c.
Qed.

Lemma run_thread_inv i c m ts cf :
  config_inv (Running m ts) -> run_thread watchDir reloadDelay i c m ts = Some cf ->
  config_inv cf /\ match cf with Crashed => True | Running m' ts' => keeps m m' end.
Proof.
  intros (Hm & Hc & Hr). unfold run_thread. destruct (ts !! i) as [t|] eqn:Et; [|done].
  pose proof (list_elem_of_lookup_2 _ _ _ Et) as Ht.
  destruct (thread_step watchDir reloadDelay t c m) as [| |m' new] eqn:Es; [done|by intros [= <-]|]. intros [= <-].
  destruct (thread_left t c m m' new Hm (Hc t Ht) Es) as (H1 & H2 & H3 & H4). split; [|done].
  assert (Hin : forall t', t' ∈ take i ts ++ new ++ drop (S i) ts -> t' ∈ ts \/ t' ∈ new).
  { intros t' [H|[H|H]%elem_of_app]%elem_of_app; [left; apply elem_of_take in H as (j & H & _); by eapply list_elem_of_lookup_2|by right|left].
    apply list_elem_of_lookup in H as [j H]. rewrite lookup_drop in H. by eapply list_elem_of_lookup_2. }
  split; [done|]. split.
  - intros t' [Hold|Hnew]%Hin Hcl; [by eapply keeps_closed, Hc|by apply (H3 t')].
  - intros [Hold|Hnew]%Hin; [rewrite (keeps_wg _ _ H2); by apply Hr|by apply H4].
Qed.

(** Time and a timer that fires leave the fields alone. *)
Lemma runtime_inv m r ts :
  config_inv (Running m ts) -> (forall id due, pending r !! id = Some due -> pending (rt m) !! id = Some due) ->
  (on_its_way m -> fired r <> 0%nat \/ exists id, pending r !! id = Some (changed_at (hist m) + reloadDelay)%Z) ->
  config_inv (Running (mkMem (w m) r (hist m)) ts).
Proof.
  intros ([Hb Hl Hd Hs] & Hc & Hr) Hp Hw. split_and!; try done. split; cbn; try done.
  - intros id due H. by apply Hb, Hp.
  - intros H. destruct (Hl H) as [?|?]; [by left|right; by apply Hw].
Qed.

Lemma happens_inv e cf cf' : config_inv cf -> happens watchDir reloadDelay e cf = Some cf' -> config_inv cf'.
Proof.
  destruct cf as [m ts|]; [|done]. intros Hi. destruct e as [i c|d|id| | |]; cbn [happens].
  - intros H. by eapply run_thread_inv.
  - intros [= <-]. by apply runtime_inv.
  - destruct (pending (rt m) !! id) as [due|] eqn:Ep; [|done]. case_goal; [|done]. intros [= <-]. apply runtime_inv; [done| |by left].
    cbn. intros id' due'. by intros [_ ?]%lookup_delete_Some.
  - destruct (fired (rt m)) as [|n] eqn:Ef; [done|]. intros [= <-]. destruct Hi as ([Hb Hl Hd Hs] & Hc & Hr). unfold begin_reload.
    destruct (closed (w m)) eqn:Ec.
    + split; [split; cbn; try done; by left|]. split; [cbn; by rewrite Ec|done].
    + split; [by split|]. split; [intros t Ht Hcl; by specialize (Hc t Ht Hcl)|]. intros Hret. by specialize (Hc _ Hret eq_refl).
  - destruct (reloadWg (w m)) as [|n] eqn:En; [done|]. intros [= <-]. destruct Hi as ([Hb Hl Hd Hs] & Hc & Hr).
    split_and!; [by split|done|]. intros Hret. specialize (Hr Hret). congruence.
  - intros [= <-]. destruct Hi as (Hm & Hc & Hr). split_and!; [done| |].
    + intros t [H| ->%list_elem_of_singleton]%elem_of_app; [by apply Hc|done].
    + intros [H|H%list_elem_of_singleton]%elem_of_app; [by apply Hr|done].
Qed.

Lemma watcher_steps_inv cf cf' : rtc step cf cf' -> config_inv cf -> config_inv cf'.
Proof. induction 1 as [|cf1 cf2 cf3 [e He] _ IH]; [done|]. intros Hi. by eapply IH, happens_inv. Qed.

Lemma NewWatcher_inv t : config_inv (NewWatcher t).
Proof. split_and!; [by split|by intros ? ->%list_elem_of_singleton|by intros ?%list_elem_of_singleton]. Qed.

Lemma watcher_reachable_inv cf : reachable watchDir reloadDelay cf -> config_inv cf.
Proof. intros [t H]. by eapply watcher_steps_inv, NewWatcher_inv. Qed.

(** Once the watcher is closed no reload begins. *)
Lemma closed_steps cf cf' m ts :
  rtc step cf cf' -> cf = Running m ts -> config_inv cf -> closed (w m) = true ->
  match cf' with
  | Crashed => True
  | Running m' _ => closed (w m') = true /\ began (hist m') = began (hist m) /\ (reloadWg (w m') <= reloadWg (w m))%nat
  end.
Proof.
  intros H. revert m ts. induction H as [cf|cf1 cf2 cf3 [e He] H23 IH]; intros m ts -> Hi Hc; [done|].
  assert (H2 : match cf2 with Crashed => True | Running m' _ => closed (w m') = true /\ began (hist m') = began (hist m) /\ (reloadWg (w m') <= reloadWg (w m))%nat end).
  { destruct e as [i c|d|id| | |]; cbn [happens] in He.
    - destruct (run_thread_inv _ _ _ _ _ Hi He) as [_ Hk]. destruct cf2 as [m2 ts2|]; [|done]. destruct Hk as [H1 H2 H3].
      split_and!; [by apply H1|done|by rewrite H2].
    - by injection He as <-.
    - repeat case_in He; by simplify_eq.
    - case_in He; [done|]. injection He as <-. unfold begin_reload. by rewrite Hc.
    - case_in He; [done|]. injection He as <-. split_and!; [done|done|cbn; lia].
    - by injection He as <-. }
  pose proof (happens_inv _ _ _ Hi He) as Hi2. destruct cf2 as [m2 ts2|].
  - destruct H2 as (Hc2 & Hb2 & Hw2). specialize (IH m2 ts2 eq_refl Hi2 Hc2). destruct cf3; [|done].
    destruct IH as (? & ? & ?). split_and!; [done|congruence|lia].
  - inversion H23 as [|? ? ? [e' He'] _]; subst; [done|]. discriminate He'.
Qed.

(** ** The theorems *)

Lemma lookup_replaced {A} (ts : list A) i t t' : ts !! i = Some t -> (take i ts ++ [t'] ++ drop (S i) ts) !! i = Some t'.
Proof.
  intros Ht%lookup_lt_Some. rewrite lookup_app_r; rewrite length_take_le by lia; [|done]. by rewrite Nat.sub_diag.
Qed.

(** The events that are a change of the blueprints: the switch of a mounted
    ConfigMap's "..data", and a YAML file that is written, created, removed or
    renamed, unless the event also changes its mode, the file is a shadow, or it is
    the removal or the renaming of the watched directory itself. *)
Definition is_change (e : Event) : bool :=
  (String.eqb (filepath_base (ev_Name e)) "..data" && (Rename e || Create e)) ||
  (negb (Chmod e) && negb (isKubeShadow (ev_Name e)) && isYAMLFile (ev_Name e) && (Write e || Create e || Remove e || Rename e) &&
   negb ((Remove e || Rename e) && String.eqb (ev_Name e) watchDir)).

Lemma event_actions_change is_dir e : ScheduleReload ∈ event_actions watchDir is_dir e <-> is_change e = true.
Proof.
  unfold event_actions, is_change. cbv zeta.
  destruct (String.eqb (filepath_base (ev_Name e)) "..data" && (Rename e || Create e)); cbn [orb]; [split; [done|intros _; left]|].
  destruct (Chmod e), (isKubeShadow (ev_Name e)); cbn [orb andb negb]; try (by split; [intros ?%elem_of_nil|]).
  destruct ((Remove e || Rename e) && String.eqb (ev_Name e) watchDir); cbn [negb].
  { rewrite andb_false_r. split; [|done]. by intros ?%list_elem_of_singleton. }
  rewrite andb_true_r, !elem_of_app. destruct (isYAMLFile (ev_Name e)); cbn [andb negb].
  - destruct (Write e || Create e || Remove e || Rename e); (split; [|by (done || right; right; left)]);
      intros [H|[H|H]]; try done; repeat case_goal; revert H; rewrite ?andb_true_r; repeat case_goal; set_solver.
  - split; [|done]. intros [H|[H|H]]; revert H; repeat case_goal; set_solver.
Qed.

(** C21. In whatever order events, timers, reloads and the two background goroutines run:
    an event is put down for a reload exactly when it is a change of the blueprints,
    and a reload that is scheduled counts as the last change, at that time. At most
    one timer is pending, the last one armed; it is due [reloadDelay] after the last
    change, and it does not fire before. And a change that no reload has begun after
    has a timer or a callback under way, until the watcher is closed. (A callback
    whose timer has fired is not held back by a change that comes before it takes
    the mutex.) *)
Theorem scheduleReload_debounces m ts :
  reachable watchDir reloadDelay (Running m ts) ->
  (forall i fsW stop e is_dir, ts !! i = Some (Loop fsW stop []) -> fsW ∈ live (rt m) ->
     (exists ts' todo, happens watchDir reloadDelay (Goes i (Receive e is_dir)) (Running m ts) = Some (Running m ts') /\
        ts' !! i = Some (Loop fsW stop todo) /\ (ScheduleReload ∈ todo <-> is_change e = true))) /\
  (forall i fsW stop todo ok, ts !! i = Some (Loop fsW stop (ScheduleReload :: todo)) ->
     exists m' ts', happens watchDir reloadDelay (Goes i (Proceed ok)) (Running m ts) = Some (Running m' ts') /\
       ts' !! i = Some (Loop fsW stop todo) /\ dirty (hist m') = true /\ changed_at (hist m') = now (rt m) /\ began (hist m') = began (hist m)) /\
  (forall id due, pending (rt m) !! id = Some due -> reloadTimer (w m) = Some id /\ due = (changed_at (hist m) + reloadDelay)%Z) /\
  (forall id cf, happens watchDir reloadDelay (Fires id) (Running m ts) = Some cf -> (changed_at (hist m) + reloadDelay <= now (rt m))%Z) /\
  (dirty (hist m) = true -> closed (w m) = false ->
     fired (rt m) <> 0%nat \/ exists id, pending (rt m) !! id = Some (changed_at (hist m) + reloadDelay)%Z).
Proof.
  intros H%watcher_reachable_inv. destruct H as ([Hb Hl _ _] & _). split_and!.
  - intros i fsW stop e is_dir Ht Hlive. cbn [happens]. unfold run_thread. rewrite Ht. cbn [thread_step watchLoop].
    rewrite bool_decide_true by done. do 2 eexists. split; [done|]. split; [|apply event_actions_change].
    by eapply lookup_replaced.
  - intros i fsW stop todo ok Ht. cbn [happens]. unfold run_thread. rewrite Ht. cbn [thread_step watchLoop perform].
    do 2 eexists. split; [done|]. split; [by eapply lookup_replaced|done].
  - exact Hb.
  - intros id cf. cbn [happens]. destruct (pending (rt m) !! id) as [due|] eqn:Ep; [|done].
    destruct (Hb id due Ep) as [_ ->]. case_goal; [|done]. intros _. by apply Z.leb_le.
  - intros Hd Ho. destruct (Hl Hd) as [Hc|Hw]; [by rewrite Hc in Ho|exact Hw].
Qed.

(** When [Close] has returned no reload is running, and none begins whatever happens
    afterwards. *)
Theorem Close_waits m ts m' ts' :
  reachable watchDir reloadDelay (Running m ts) -> Returned ∈ ts ->
  rtc step (Running m ts) (Running m' ts') ->
  reloadWg (w m') = 0%nat /\ began (hist m') = began (hist m).
Proof.
  intros H%watcher_reachable_inv Hret Hs. destruct H as (Hm & Hc & Hr).
  destruct (closed_steps _ _ m ts Hs eq_refl (conj Hm (conj Hc Hr)) (Hc _ Hret eq_refl)) as (_ & Hb & Hw).
  rewrite (Hr Hret) in Hw. split; [lia|done].
Qed.

(** A pending change is reloaded once the delay has passed: time, the timer and its
    function alone lead to a reload that begins. *)
Theorem reload_follows m ts :
  reachable watchDir reloadDelay (Running m ts) -> dirty (hist m) = true -> closed (w m) = false ->
  exists m', rtc step (Running m ts) (Running m' ts) /\ began (hist m') = S (began (hist m)) /\ dirty (hist m') = false /\
    (now (rt m') <= Z.max (now (rt m)) (changed_at (hist m) + reloadDelay))%Z.
Proof.
  intros H%watcher_reachable_inv Hd Ho. destruct H as ([Hb Hl _ _] & _).
  assert (Hbegin : forall m1, w m1 = w m -> hist m1 = hist m -> fired (rt m1) <> 0%nat ->
    exists m', step (Running m1 ts) (Running m' ts) /\ began (hist m') = S (began (hist m)) /\ dirty (hist m') = false /\ now (rt m') = now (rt m1)).
  { intros m1 Hw Hh Hf. exists (begin_reload m1). unfold begin_reload. rewrite Hw, Ho, Hh. split; [|done]. exists Begins. cbn.
    destruct (fired (rt m1)) eqn:E; [done|]. unfold begin_reload. by rewrite Hw, Ho, Hh, E. }
  destruct (Hl Hd) as [Hc|[Hf|[id Hp]]]; [by rewrite Hc in Ho| |].
  - destruct (Hbegin m eq_refl eq_refl Hf) as (m' & Hs & H1 & H2 & H3). exists m'. split; [by apply rtc_once|]. split_and!; [done|done|lia].
  - set (d := Z.to_N (changed_at (hist m) + reloadDelay - now (rt m))).
    set (m1 := mkMem (w m) (mkRuntime (now (rt m) + Z.of_N d) (pending (rt m)) (fired (rt m)) (closedChans (rt m)) (live (rt m)) (fresh (rt m))) (hist m)).
    set (m2 := mkMem (w m) (mkRuntime (now (rt m) + Z.of_N d) (delete id (pending (rt m))) (S (fired (rt m))) (closedChans (rt m)) (live (rt m)) (fresh (rt m))) (hist m)).
    destruct (Hbegin m2 eq_refl eq_refl ltac:(done)) as (m' & Hs & H1 & H2 & H3). exists m'.
    assert (Hnow : (changed_at (hist m) + reloadDelay <= now (rt m) + Z.of_N d)%Z) by (unfold d; lia).
    split; [|split_and!; [done|done|rewrite H3; cbn; unfold d; lia]].
    eapply rtc_l; [exists (Elapses d); reflexivity|]. eapply (rtc_l _ (Running m1 ts) (Running m2 ts)); [|by apply rtc_once].
    exists (Fires id). cbn. rewrite Hp. apply Z.leb_le in Hnow. by rewrite Hnow.
Qed.
End laws.

(** ** What is watched at the start *)

(** The directories below [dir] that are not inside a shadow directory. *)
Inductive below (dir : string) (entries : list entry) : string -> Prop :=
| below_here name es : Dir name es ∈ entries -> isKubeShadow (filepath_join dir name) = false -> below dir entries (filepath_join dir name)
| below_deeper name es p : Dir name es ∈ entries -> isKubeShadow (filepath_join dir name) = false ->
    below (filepath_join dir name) es p -> below dir entries p.

Lemma flat_map_elem {A B} (f : A -> list B) l y : y ∈ flat_map f l <-> exists x, x ∈ l /\ y ∈ f x.
Proof. rewrite list_elem_of_In, in_flat_map. by setoid_rewrite list_elem_of_In. Qed.

Lemma below_walked dir entries p : below dir entries p -> p ∈ flat_map (walked dir) entries.
Proof.
  induction 1 as [dir entries name es Hin Hs|dir entries name es p Hin Hs _ IH]; apply flat_map_elem; exists (Dir name es); (split; [done|]);
    cbn [walked]; rewrite Hs; [left|by right].
Qed.

Lemma entry_list_ind (P : entry -> Prop) :
  (forall name, P (File name)) -> (forall name es, Forall P es -> P (Dir name es)) -> forall e, P e.
Proof.
  intros HF HD. fix IH 1. intros [name|name es]; [apply HF|]. apply HD. induction es as [|e es IHes]; constructor; [apply IH|exact IHes].
Qed.

Lemma walked_below e dir entries p : e ∈ entries -> p ∈ walked dir e -> below dir entries p.
Proof.
  revert dir entries. induction e as [name|name es IH] using entry_list_ind; intros dir entries Hin; cbn [walked]; [by intros ?%elem_of_nil|].
  destruct (isKubeShadow (filepath_join dir name)) eqn:Es; [by intros ?%elem_of_nil|].
  intros [->|(x & Hx & Hp)%flat_map_elem]%elem_of_cons; [by eapply below_here|].
  eapply below_deeper; [done|done|]. rewrite Forall_forall in IH. by eapply IH.
Qed.

(** At the start the parent of the directory, the directory and every directory below
    it are watched, except the shadow directories of a mounted ConfigMap and what is
    inside them. *)
Theorem addInitialWatches_spec watchDir entries p :
  p ∈ addInitialWatches watchDir entries <->
  p = filepath_dir watchDir \/ p = watchDir \/ (isKubeShadow watchDir = false /\ below watchDir entries p).
Proof.
  unfold addInitialWatches. cbn [app]. rewrite !elem_of_cons. split.
  - intros [->|[->|H]]; [by left|by right; left|]. destruct (isKubeShadow watchDir); [by apply elem_of_nil in H|].
    apply flat_map_elem in H as (e & He & Hp). right. right. split; [done|]. by eapply walked_below.
  - intros [->|[->|[Hs H]]]; [by left|by right; left|]. right. right. rewrite Hs. by apply below_walked.
Qed.

(** Only directories that are no shadows are ever watched, and the watcher and its
    directories come and go together. *)
Theorem watched_dirs watchDir reloadDelay m ts :
  reachable watchDir reloadDelay (Running m ts) ->
  (watcher (w m) = None <-> watchedDirs (w m) = None) /\
  forall d p, watchedDirs (w m) = Some d -> p ∈ d -> isKubeShadow p = false.
Proof. intros H%watcher_reachable_inv. by destruct H as ([_ _ Hd Hs] & _). Qed.

(** ** Orders of steps the code does not foresee *)

Lemma happen_steps watchDir reloadDelay es cf cf' : happen watchDir reloadDelay es cf = Some cf' -> rtc (step watchDir reloadDelay) cf cf'.
Proof.
  revert cf. induction es as [|e es IH]; intros cf; cbn; [by intros [= <-]|].
  destruct (happens watchDir reloadDelay e cf) as [cf1|] eqn:E; [|done]. intros H. eapply rtc_l; [by exists e|by apply IH].
Qed.

Module Sample.
Definition dir : string := "/etc/bp".
Definition delay : Z := 500000000.
Definition created (p : string) : Event := mkEvent p true false false false false.
Definition written (p : string) : Event := mkEvent p false true false false false.
Definition removed (p : string) : Event := mkEvent p false false true false false.

(** [Setup] of an empty directory. *)
Definition started : list event :=
  [Goes 0 (Proceed true); Goes 0 (Found []); Goes 0 (Proceed true); Goes 0 (Proceed true); Goes 0 (Proceed true)].
Definition changed : list event :=
  [Goes 0 (Receive (written "/etc/bp/a.yaml") false); Goes 0 (Proceed true); Elapses 500000000].

(** The directory is replaced; the loop has just received the creation of a directory
    when the goroutine tears the old watcher down. *)
Definition replaced : list event :=
  started ++ [Goes 0 (Receive (removed dir) false); Goes 0 (Proceed true); Elapses 2000000000;
              Goes 0 (Receive (created dir) true); Goes 1 (Proceed true); Goes 0 (Proceed true)].

(** [Close] returns while that goroutine sleeps. *)
Definition outlived : list event :=
  started ++ [Goes 0 (Receive (removed dir) false); Goes 0 (Proceed true); CloseCalled; Goes 2 (Proceed true); Goes 2 (Proceed true);
              Goes 2 (Proceed true); Goes 0 EventsClosed; Elapses 2000000000; Goes 0 (Proceed true); Goes 0 (Proceed true);
              Goes 0 (Found []); Goes 0 (Proceed true); Goes 0 (Proceed true); Goes 0 (Proceed true)].
End Sample.

(** When the watched directory is replaced, as a ConfigMap's is, the watcher is torn
    down under the event loop: a directory created meanwhile is added to a nil
    watcher, which ends the process. Nothing was closed. *)
Theorem reinit_crashes :
  exists es, Forall (fun e => e <> CloseCalled) es /\ happen Sample.dir Sample.delay es (NewWatcher 0) = Some Crashed.
Proof. exists Sample.replaced. split; [by repeat constructor|vm_compute; reflexivity]. Qed.

(** A goroutine of [scheduleReinit] that sleeps while [Close] runs sets the watcher up
    again afterwards: [Close] has returned, and an event loop runs on an open
    fsnotify watcher with a channel nobody will close. *)
Theorem reinit_outlives_Close :
  exists m f stop ts, reachable Sample.dir Sample.delay (Running m ts) /\ Returned ∈ ts /\ Loop f (Some stop) [] ∈ ts /\
    f ∈ live (rt m) /\ stop ∉ closedChans (rt m) /\ watcher (w m) = Some f.
Proof.
  destruct (happen Sample.dir Sample.delay Sample.outlived (NewWatcher 0)) as [[m ts|]|] eqn:E; [|vm_compute in E; discriminate E..].
  exists m, 3%nat, 2%nat, ts. split; [exists 0%Z; by eapply happen_steps|]. vm_compute in E. injection E as <- <-.
  split; [right; right; left|]. split; [left|]. split; [by apply (bool_decide_unpack _)|]. split; [by apply (bool_decide_unpack _)|done].
Qed.

(** A reload that takes longer than the delay is not waited for: the next one begins
    beside it. *)
Theorem reloads_overlap :
  exists m ts, reachable Sample.dir Sample.delay (Running m ts) /\ reloadWg (w m) = 2%nat.
Proof.
  pose (es := Sample.started ++ Sample.changed ++ [Fires 2; Begins] ++ Sample.changed ++ [Fires 3; Begins]).
  destruct (happen Sample.dir Sample.delay es (NewWatcher 0)) as [[m ts|]|] eqn:E; [|vm_compute in E; discriminate E..].
  exists m, ts. split; [exists 0%Z; by eapply happen_steps|]. vm_compute in E. by injection E as <- <-.
Qed.

(** Closing twice ends the process. *)
Theorem second_Close_crashes :
  let close i := [Goes i (Proceed true); Goes i (Proceed true); Goes i (Proceed true)] in
  happen Sample.dir Sample.delay (Sample.started ++ [CloseCalled] ++ close 1%nat ++ [CloseCalled; Goes 2 (Proceed true); Goes 2 (Proceed true)])
    (NewWatcher 0) = Some Crashed.
Proof. vm_compute. reflexivity. Qed.

(** A directory that appears with files in it, as when it is moved into place, is
    watched from then on but reloads nothing. *)
Theorem new_directory_reloads_nothing watchDir name :
  isKubeShadow name = false -> isYAMLFile name = false -> event_actions watchDir true (Sample.created name) = [AddWatch name].
Proof.
  intros Hs Hy. unfold event_actions, Sample.created. cbn. rewrite Hs, Hy. cbn.
  destruct (String.eqb_spec (filepath_base name) "..data") as [E|]; [|done]. unfold isKubeShadow in Hs. by rewrite E in Hs.
Qed.

(** ** Witnesses *)

Lemma Close_waits_witness :
  exists m ts, reachable Sample.dir Sample.delay (Running m ts) /\ Returned ∈ ts /\ reloadWg (w m) = 0%nat.
Proof.
  pose (es := Sample.started ++ Sample.changed ++ [Fires 2; Begins; CloseCalled; Goes 1 (Proceed true); Goes 1 (Proceed true); Ends; Goes 1 (Proceed true)]).
  destruct (happen Sample.dir Sample.delay es (NewWatcher 0)) as [[m ts|]|] eqn:E; [|vm_compute in E; discriminate E..].
  assert (Hr : reachable Sample.dir Sample.delay (Running m ts)) by (exists 0%Z; by eapply happen_steps).
  assert (Hin : Returned ∈ ts) by (vm_compute in E; injection E as <- <-; right; left).
  exists m, ts. split; [exact Hr|]. split; [exact Hin|]. exact (proj1 (Close_waits Sample.dir Sample.delay m ts m ts Hr Hin (rtc_refl _ _))).
Defined.

Lemma scheduleReload_debounces_witness :
  exists m ts, reachable Sample.dir Sample.delay (Running m ts) /\ pending (rt m) !! 2%nat = Some (changed_at (hist m) + Sample.delay)%Z.
Proof.
  destruct (happen Sample.dir Sample.delay (Sample.started ++ Sample.changed) (NewWatcher 0)) as [[m ts|]|] eqn:E; [|vm_compute in E; discriminate E..].
  assert (Hr : reachable Sample.dir Sample.delay (Running m ts)) by (exists 0%Z; by eapply happen_steps).
  exists m, ts. split; [exact Hr|]. assert (Hp : pending (rt m) !! 2%nat = Some 500000000%Z) by (vm_compute in E; by injection E as <- <-).
  destruct (scheduleReload_debounces Sample.dir Sample.delay m ts Hr) as (_ & _ & Hd & _). destruct (Hd _ _ Hp) as [_ <-]. exact Hp.
Defined.

Lemma reload_follows_witness :
  exists m ts m', reachable Sample.dir Sample.delay (Running m ts) /\ began (hist m) = 0%nat /\
    rtc (step Sample.dir Sample.delay) (Running m ts) (Running m' ts) /\ began (hist m') = 1%nat.
Proof.
  destruct (happen Sample.dir Sample.delay (Sample.started ++ Sample.changed) (NewWatcher 0)) as [[m ts|]|] eqn:E; [|vm_compute in E; discriminate E..].
  assert (Hr : reachable Sample.dir Sample.delay (Running m ts)) by (exists 0%Z; by eapply happen_steps).
  assert (Hm : dirty (hist m) = true /\ closed (w m) = false /\ began (hist m) = 0%nat) by (vm_compute in E; by injection E as <- <-).
  destruct Hm as (Hd & Hc & Hb). destruct (reload_follows Sample.dir Sample.delay m ts Hr Hd Hc) as (m' & Hs & Hb' & _).
  exists m, ts, m'. split_and!; [exact Hr|exact Hb|exact Hs|by rewrite Hb', Hb].
Defined.

Lemma watched_dirs_witness :
  exists m ts, reachable Sample.dir Sample.delay (Running m ts) /\ watchedDirs (w m) = Some {["/etc"; "/etc/bp"]} /\ watcher (w m) <> None.
Proof.
  destruct (happen Sample.dir Sample.delay Sample.started (NewWatcher 0)) as [[m ts|]|] eqn:E; [|vm_compute in E; discriminate E..].
  assert (Hr : reachable Sample.dir Sample.delay (Running m ts)) by (exists 0%Z; by eapply happen_steps).
  assert (Hw : watchedDirs (w m) = Some {["/etc"; "/etc/bp"]}) by (vm_compute in E; by injection E as <- <-).
  exists m, ts. split; [exact Hr|]. split; [exact Hw|]. intros Hn%(proj1 (watched_dirs Sample.dir Sample.delay m ts Hr)). by rewrite Hw in Hn.
Defined.

Lemma new_directory_reloads_nothing_witness : event_actions "/etc/bp" true (Sample.created "/etc/bp/team") = [AddWatch "/etc/bp/team"].
Proof. apply (new_directory_reloads_nothing "/etc/bp" "/etc/bp/team"); reflexivity. Defined.
