(* ===== verification/RawValidate.v ===== *)
(** * Validating a submitted blueprint

    internal/blueprint/validate_raw.go: every problem of a document as an issue
    with the path of its field, and what of it would be loaded; and the checks a
    load makes of each blueprint (internal/blueprint/blueprint.go). The decoders of
    yaml.v3 and yamlcel and the validator of struct tags are parameters, with the
    texts of their errors; the texts of the messages the code writes itself are
    left out, their arguments kept, but for the messages of the struct tags. *)

From Stdlib Require Import Ascii.
From S2P Require Import Prelude GoStrings DnsLabel Yaml Merge Strategies Revision Inherit Cel Manager Compose Podman Validate.

(** ** Issues *)

(** What an issue says. *)
Inductive issue_message : Type :=
| TextMessage (text : string)
| CheckMessage (k : issue_kind)
| NotMappingMessage
| TemplateNotFoundMessage (name : string)
| CelTemplateMessage
| CelFailedMessage (text : string)
| UnknownFieldMessage (name : string).

(** src/internal/blueprint/validate_raw.go:41-46 ValidationIssue *)
Record ValidationIssue : Type := mkIssue { vi_Line : Z; vi_Column : Z; vi_Field : string; vi_Message : issue_message }.

(** src/internal/blueprint/validate_raw.go:78-79 fieldYAML *)
Definition fieldYAML : string := "yaml".
(** src/internal/blueprint/validate_raw.go:78-80 fieldCEL *)
Definition fieldCEL : string := "cel".

(** ** Messages of the libraries *)

(** What follows the leftmost of the texts [heads], up to the apostrophe that closes
    it. *)
Fixpoint quoted_after (heads : list string) (s : string) : option string :=
  let here :=
    omap (fun head => if has_prefix s head then let '(path, _, closed) := cut_byte "'" (drop_str (String.length head) s) in
                                               if closed : bool then Some path else None
                      else None) heads in
  match here with
  | path :: _ => Some path
  | [] => match s with EmptyString => None | String _ s => quoted_after heads s end
  end.

(** src/internal/blueprint/validate_raw.go:68-68 celEvalPathRE *)
Definition celEvalPathRE : list string := ["failed to evaluate '"].
(** src/internal/blueprint/validate_raw.go:69-69 celValuePathRE *)
Definition celValuePathRE : list string := ["empty CELValue at path '"; "failed to parse value for key '"].
(** src/internal/blueprint/validate_raw.go:70-70 celSectionRE *)
Definition celSectionRE : list string := ["section '"].

(** src/internal/blueprint/validate_raw.go:125-137 celErrorField *)
Definition celErrorField (msg : string) : string :=
  match quoted_after celEvalPathRE msg, quoted_after celValuePathRE msg, quoted_after celSectionRE msg with
  | Some path, _, _ | None, Some path, _ | None, None, Some path => bracketMapKeys path
  | None, None, None => fieldCEL
  end.

(** The digits a text starts with, and the rest. *)
Fixpoint digits (s : string) : list N * string :=
  match s with
  | EmptyString => ([], s)
  | String c s' => if is_digit c then let '(ds, r) := digits s' in (N_of_ascii c - 48 :: ds, r)%N else ([], s)
  end.

(** [strconv.Atoi] with its error dropped: a number that is out of range is the
    largest one. *)
Definition atoi (ds : list N) : Z :=
  let n := foldl (fun acc d => 10 * acc + Z.of_N d)%Z 0%Z ds in Z.min n (2 ^ 63 - 1).

(** The first number that follows "line ".

    src/internal/blueprint/validate_raw.go:474-481 parseYAMLErrorLine *)
Fixpoint parseYAMLErrorLine (msg : string) : Z :=
  let later := match msg with EmptyString => 0%Z | String _ msg => parseYAMLErrorLine msg end in
  if has_prefix msg "line " then
    match digits (drop_str 5 msg) with
    | ([], _) => later
    | (ds, _) => atoi ds
    end
  else later.

(** The characters up to the next white space of a regular expression. *)
Fixpoint non_space (s : string) : string * string :=
  match s with
  | EmptyString => ("", "")
  | String c s' =>
      if bool_decide (N_of_ascii c ∈ [9; 10; 12; 13; 32]%N) then ("", s)
      else let '(a, r) := non_space s' in (String c a, r)
  end.

(** src/internal/blueprint/validate_raw.go:49-49 unknownFieldRE *)
Fixpoint unknownFieldRE (msg : string) : option string :=
  let later := match msg with EmptyString => None | String _ msg => unknownFieldRE msg end in
  if has_prefix msg "field " then
    let '(name, rest) := non_space (drop_str 6 msg) in
    if negb (String.eqb name "") && has_prefix rest " not found" then Some name else later
  else later.

(** [line N: ] at the start is dropped.

    src/internal/blueprint/validate_raw.go:54-54 decodeLinePrefixRE *)
Definition decodeLinePrefixRE (msg : string) : string :=
  if has_prefix msg "line " then
    match digits (drop_str 5 msg) with
    | ([], _) => msg
    | (_, rest) => if has_prefix rest ": " then drop_str 2 rest else msg
    end
  else msg.

(** src/internal/blueprint/validate_raw.go:537-543 cleanDecodeMessage *)
Definition cleanDecodeMessage (msg : string) : issue_message :=
  let msg := decodeLinePrefixRE msg in
  match unknownFieldRE msg with Some name => UnknownFieldMessage name | None => TextMessage msg end.

(** src/internal/blueprint/validate_raw.go:552-557 parseYAMLErrorField *)
Definition parseYAMLErrorField (msg : string) : string := default fieldYAML (unknownFieldRE msg).

(** src/internal/blueprint/validate_raw.go:545-547 yamlErrorToIssue *)
Definition yamlErrorToIssue (msg : string) : ValidationIssue := mkIssue (parseYAMLErrorLine msg) 0 fieldYAML (TextMessage msg).

(** An error of the decoder: a [*yaml.TypeError] lists what it found and leaves the
    other fields decoded. *)
Inductive decode_error : Type := TypeErrors (msgs : list string) | OtherError (msg : string).

(** [root]: the decoded document, parsed.

    src/internal/blueprint/validate_raw.go:566-584 decodeErrorToIssues *)
Definition decodeErrorToIssues (e : decode_error) (root : option node) : list ValidationIssue :=
  match e with
  | OtherError msg => [mkIssue 0 0 fieldYAML (cleanDecodeMessage msg)]
  | TypeErrors msgs =>
      (fun m =>
         let field := bracketMapKeys (yamlPathAtLine root (parseYAMLErrorLine m)) in
         mkIssue 0 0 (if String.eqb field "" then parseYAMLErrorField m else field) (cleanDecodeMessage m)) <$> msgs
  end.

(** src/internal/blueprint/validate_raw.go:367-373 errorToIssue *)
Definition errorToIssue (e : fieldError) : ValidationIssue := mkIssue 0 0 (field e) (CheckMessage (kind e)).

Example messages_ex :
  (parseYAMLErrorLine "yaml: line 12: did not find", cleanDecodeMessage "line 3: field enabledx not found in type models.Storage",
   parseYAMLErrorField "line 3: cannot unmarshal", celErrorField "x: failed to evaluate 'storages.home.type': boom", celErrorField "boom")
  = (12%Z, UnknownFieldMessage "enabledx", "yaml", "storages[home].type", "cel").
Proof. reflexivity. Qed.

(** ** The checks of a decoded blueprint *)

(** What the checks read of a decoded blueprint, and the libraries they call. *)
Class Checks (Bp : Type) : Type := {
  ck_Description : Bp -> string;
  ck_Env : Bp -> list string;
  ck_IgnoreOrphans : Bp -> list string;
  ck_WebProxyPort : Bp -> option Z;
  ck_Storages : Bp -> list (string * Storage);
  ck_PodmanStorages : Bp -> list (string * Storage);
  ck_CPU : Bp -> string;
  ck_Memory : Bp -> string;
  ck_profile : Bp -> Podman.Blueprint;
  ck_SecurityContext : Bp -> list (string * gvalue);
  ck_PodmanSecurityContext : Bp -> list (string * gvalue);
  ck_RequireDescription : bool;
  ck_WORKSPACE_PORT : Z;
  ck_regexp_ok : string -> bool;
  ck_claim_marshal : list (string * gvalue) -> option string;
  ck_claim_decode : string -> bool;
  ck_context_decode : list (string * gvalue) -> option SecurityContext;
  ck_ParseQuantity : string -> option Z;
  ck_yaml_copy : Podman.Blueprint -> option Podman.Blueprint;
}.

(** src/internal/blueprint/validate_raw.go:321-350 validateRawBlueprint *)
Definition semantic_errors {Bp} `{Checks Bp} (bp : Bp) : list fieldError :=
  validateClaimSpecs ck_claim_marshal ck_claim_decode (ck_Storages bp) (ck_PodmanStorages bp) ++
  validateStorageTypes (ck_Storages bp) (ck_PodmanStorages bp) ++
  validateStorageSizeLimits ck_ParseQuantity (ck_Storages bp) (ck_PodmanStorages bp) ++
  validateResourceQuantities ck_ParseQuantity (ck_CPU bp) (ck_Memory bp) (bp_Podman (ck_profile bp)) ++
  validateWebProxy ck_WORKSPACE_PORT (ck_WebProxyPort bp) ++
  validateEnvNames (ck_Env bp) ++
  validateIgnoreOrphans ck_regexp_ok (ck_IgnoreOrphans bp) ++
  validatePodmanProfile ck_ParseQuantity ck_yaml_copy (ck_profile bp) ++
  validateSecurityContexts ck_context_decode (ck_SecurityContext bp) (ck_PodmanSecurityContext bp) ++
  validateDescriptionRequired ck_RequireDescription (ck_Description bp).

(** [govalidator.FieldError]: the namespace of the field, which starts with the name
    of the root type, its leaf name, the tag and its parameter, the value as printed. *)
Record FieldError : Type := mkFieldError {
  fe_Namespace : string;
  fe_Field : string;
  fe_Tag : string;
  fe_Param : string;
  fe_Value : string;
}.

(** The issues of the decoders, in the order of the code; a decoded document comes
    with what was wrong in it. *)
Class RawDecoders (Bp Tmpl : Type) : Type := {
  (** [yaml.Unmarshal]'s error for a text it refuses. *)
  rd_yaml_error : string -> string;
  (** [EvalToBytes]'s error. *)
  rd_eval_error : Tmpl -> list (string * yvalue) -> string;
  (** The decoding into [map[string]interface{}] of the evaluated document. *)
  rd_generic : string -> option (list (string * gvalue));
  (** [Decode] into [models.Blueprint]: what it fills in and its error. *)
  rd_decode : string -> Bp * option decode_error;
  (** The errors of the struct tags. *)
  rd_struct_errors : Bp -> list FieldError;
}.

(** [strings.ReplaceAll(param, " ", ", ")]. *)
Definition comma_separated (param : string) : string := join ", " (split_byte " " param).

(** src/internal/blueprint/validate_raw.go:190-215 structValidationMessage *)
Definition structValidationMessage (fe : FieldError) : string :=
  let field := fe_Field fe in
  let value := " (value: " +:+ fe_Value fe +:+ ")" in
  let tag := String.eqb (fe_Tag fe) in
  if tag "required" then field +:+ " is required"
  else if tag "oneof" then field +:+ " must be one of: " +:+ comma_separated (fe_Param fe) +:+ value
  else if tag "min" then field +:+ " must be at least " +:+ fe_Param fe +:+ " characters long" +:+ value
  else if tag "max" then field +:+ " must be no more than " +:+ fe_Param fe +:+ " characters long" +:+ value
  else if tag "len" then field +:+ " must be exactly " +:+ fe_Param fe +:+ " characters long" +:+ value
  else if tag "fqdn" then field +:+ " must be a valid domain name" +:+ value
  else if tag "uri" then field +:+ " must be a valid URI" +:+ value
  else if tag "startswith" then field +:+ " must start with '" +:+ fe_Param fe +:+ "'" +:+ value
  else if tag "required_if" then field +:+ " is required when " +:+ fe_Param fe +:+ value
  else field +:+ " is invalid (validation: " +:+ fe_Tag fe +:+ ")" +:+ value.

(** The part after the name of the root type.

    src/internal/blueprint/validate_raw.go:174-186 structFieldIssues *)
Definition struct_issue (fe : FieldError) : ValidationIssue :=
  let '(_, path, found) := cut_byte "." (fe_Namespace fe) in
  mkIssue 0 0 (if found : bool then path else fe_Namespace fe) (TextMessage (structValidationMessage fe)).

Section validate.
Context `{Y : YamlLib} {Bp Tmpl : Type} `{D : !BlueprintDoc Bp Tmpl} `{K : !Checks Bp} `{R : !RawDecoders Bp Tmpl}.
Variable find_strategy : string -> string -> option strategy.

(** The validator returns no other error, a blueprint being a struct.

    src/internal/blueprint/validate_raw.go:163-186 structFieldIssues *)
Definition structFieldIssues (bp : Bp) : list ValidationIssue := struct_issue <$> rd_struct_errors bp.

(** The user and the repository blueprints are tried with.

    src/internal/blueprint/blueprint.go:132-156 TestScope *)
Definition TestScope : BlueprintScope :=
  mkScope (Some (Manager.mkUser "testuser" "" ["testblueprint"])) ""
    (mkMetadata "testblueprint" "testrepo" "testowner" "testref" "testaddress").

(** The errors of the Go function itself. *)
Inductive validate_error : Type := ValidateMerge (template : string) (e : merge_error) | ScopeToMap | ValidateDecodeRaw.

(** The tree the issues are about: the submitted one over its template. The template
    is what the manager holds, already resolved.

    src/internal/blueprint/validate_raw.go:254-276 validateRawBlueprint *)
Definition over_template (s : store) (org : string) (n : node) : result validate_error (node + ValidationIssue) :=
  let templateName := str_field "template" (default [] (yaml_decode_map n)) in
  if String.eqb templateName "" then Ok (inl n)
  else
    match resolveTemplateParent s org templateName with
    | None => Ok (inr (mkIssue (findKeyLine n "template") 0 "template" (TemplateNotFoundMessage templateName)))
    | Some parent =>
        match mergeYAMLNodes find_strategy (BpNode parent) n with
        | Err e => Err (ValidateMerge templateName e)
        | Ok merged => Ok (inl merged)
        end
    end.

(** The issues of an evaluated document.

    src/internal/blueprint/validate_raw.go:298-350 validateRawBlueprint *)
Definition document_issues (docBytes : string) : list ValidationIssue :=
  let pre := errorToIssue <$> validateStorageOwnerIDs (rd_generic docBytes) in
  let '(bp, e) := rd_decode docBytes in
  match e with
  | Some (OtherError msg) => pre ++ decodeErrorToIssues (OtherError msg) (yaml_unmarshal docBytes)
  | _ =>
      pre ++ from_option (fun e => decodeErrorToIssues e (yaml_unmarshal docBytes)) [] e ++
      structFieldIssues bp ++ (errorToIssue <$> semantic_errors bp)
  end.

(** The evaluated document, or the issue that keeps it from being evaluated.

    src/internal/blueprint/validate_raw.go:278-296 validateRawBlueprint *)
Definition evaluated (name : string) (merged : node) : result validate_error (string + ValidationIssue) :=
  match bd_decode_template merged with
  | None => Ok (inr (mkIssue 0 0 fieldYAML CelTemplateMessage))
  | Some tmpl =>
      match ToMap (named_scope name TestScope) with
      | None => Err ScopeToMap
      | Some m =>
          let m := put_key "blueprint" (YStr name) m in
          match bd_eval tmpl m with
          | None => let msg := rd_eval_error tmpl m in Ok (inr (mkIssue 0 0 (celErrorField msg) (CelFailedMessage msg)))
          | Some docBytes => Ok (inl docBytes)
          end
      end
  end.

(** The issues, or none and the raw merged document.

    src/internal/blueprint/validate_raw.go:242-362 validateRawBlueprint *)
Definition validateRawBlueprint (s : store) (org data : string) : result validate_error (list ValidationIssue * option yvalue) :=
  match yaml_unmarshal data with
  | None => Ok ([yamlErrorToIssue (rd_yaml_error data)], None)
  | Some doc =>
      match resolveValidationNode doc with
      | None => Ok ([mkIssue 0 0 fieldYAML NotMappingMessage], None)
      | Some n =>
          let n := restoreCELNodes n in
          t ← over_template s org n;
          match t with
          | inr issue => Ok ([issue], None)
          | inl merged =>
              d ← evaluated (str_field "name" (default [] (yaml_decode_map n))) merged;
              match d with
              | inr issue => Ok ([issue], None)
              | inl docBytes =>
                  match document_issues docBytes with
                  | [] => match decodeRawNode merged with Ok v => Ok ([], Some v) | Err _ => Err ValidateDecodeRaw end
                  | issues => Ok (issues, None)
                  end
              end
          end
      end
  end.

(** src/internal/blueprint/validate_raw.go:229-231 ValidateRawBlueprint *)
Definition ValidateRawBlueprint (s : store) (data : string) := validateRawBlueprint s "" data.
(** src/internal/blueprint/validate_raw.go:238-240 ValidateRawBlueprintForOrg *)
Definition ValidateRawBlueprintForOrg (s : store) (org data : string) := validateRawBlueprint s org data.

(** What the handlers ask of a document (OrgBlueprints.v): how many issues it has, an
    error being none. *)
Definition issue_count (s : store) (org data : string) : option nat :=
  match ValidateRawBlueprintForOrg s org data with Err _ => None | Ok (issues, _) => Some (length issues) end.

(** The problems a load finds in one blueprint.

    src/internal/blueprint/blueprint.go:252-292 validateAllBlueprints *)
Inductive blueprint_problem : Type := NotEvaluated (e : eval_error) | TagProblems (l : list string) | CheckProblem (e : fieldError).

(** src/internal/blueprint/blueprint.go:252-292 validateAllBlueprints *)
Definition blueprint_problems (raw : RawBlueprint) : list blueprint_problem :=
  match evaluateRawBlueprint TestScope raw (Name raw) with
  | Err e => [NotEvaluated e]
  | Ok bp => (match bd_problems bp with [] => [] | l => [TagProblems l] end) ++ (CheckProblem <$> semantic_errors bp)
  end.
End validate.

(** ** Every issue names a field *)

Definition named (e : fieldError) : Prop := field e <> "".

Lemma app_tail_ne a b : b <> "" -> a +:+ b <> "".
Proof. by destruct a. Qed.

Lemma app_head_ne a b : a <> "" -> a +:+ b <> "".
Proof. by destruct a. Qed.

Lemma bracket_ne p n : bracket p n <> "".
Proof. unfold bracket. by apply app_tail_ne. Qed.

Lemma Forall_flat_map {A B} (P : B -> Prop) (f : A -> list B) l : (forall x, Forall P (f x)) -> Forall P (flat_map f l).
Proof. intros H. induction l; cbn; [constructor|]. by apply Forall_app. Qed.

Create HintDb named.
#[export] Hint Resolve app_tail_ne app_head_ne bracket_ne : named.

(** Issue by issue. *)
Ltac all_named :=
  repeat first
    [ progress cbn beta iota zeta
    | apply Forall_nil_2 | apply Forall_app; split | apply Forall_cons; split
    | apply Forall_flat_map; intros
    | match goal with |- Forall _ (map _ _) => fail 1 | |- context [match ?x with _ => _ end] => destruct x end
    | solve [unfold named; cbn [field]; first [discriminate|auto with named]] ].

Lemma named_claims marshal decode st pst : Forall named (validateClaimSpecs marshal decode st pst).
Proof.
  apply Forall_flat_map. intros ns. unfold claim_spec_issues, validateClaimSpecResourceNames. all_named.
Qed.

Lemma named_storages pq st pst : Forall named (validateStorageTypes st pst) /\ Forall named (validateStorageSizeLimits pq st pst).
Proof.
  split; apply Forall_flat_map; intros ns; unfold storage_type_issues, size_limit_issues; all_named.
Qed.

Lemma named_owner_ids raw : Forall named (validateStorageOwnerIDs raw).
Proof.
  assert (H : forall p v, Forall named (checkStorageOwnerIDs p v)) by (intros p v; unfold checkStorageOwnerIDs; all_named).
  unfold validateStorageOwnerIDs. destruct raw as [raw|]; [|constructor]. apply Forall_app. split; [apply H|].
  destruct (assoc "podman" raw) as [[]|]; try constructor. apply H.
Qed.

Lemma named_contexts {A} (decode : list A -> option SecurityContext) sc psc : Forall named (validateSecurityContexts decode sc psc).
Proof.
  unfold validateSecurityContexts, workspace_context_issues, root_id_issues, flag_issues, required_caps_issues, validateCapabilityNames.
  destruct sc, psc; all_named.
Qed.

Lemma named_profile pq copy bp : Forall named (validatePodmanProfile pq copy bp).
Proof.
  unfold validatePodmanProfile. case_match; [all_named|]. case_match; [|all_named].
  unfold expanded_podman_issues, init_container_issues, cache_trim_issues, image_issues. all_named.
Qed.

Lemma named_simple port p req d rx env orphans :
  Forall named (validateWebProxy port p ++ validateEnvNames env ++ validateIgnoreOrphans rx orphans ++ validateDescriptionRequired req d).
Proof. unfold validateWebProxy, validateEnvNames, validateIgnoreOrphans, validateDescriptionRequired. all_named. Qed.

Lemma named_quantities pq cpu memory p : Forall named (validateResourceQuantities pq cpu memory p).
Proof. unfold validateResourceQuantities, quantity_issues. all_named. Qed.

Lemma semantic_named {Bp} `{Checks Bp} (bp : Bp) : Forall named (semantic_errors bp).
Proof.
  pose proof (named_simple ck_WORKSPACE_PORT (ck_WebProxyPort bp) ck_RequireDescription (ck_Description bp) ck_regexp_ok (ck_Env bp)
                (ck_IgnoreOrphans bp)) as Hs.
  destruct (named_storages ck_ParseQuantity (ck_Storages bp) (ck_PodmanStorages bp)) as [H1 H2].
  unfold semantic_errors. rewrite !Forall_app in *. destruct Hs as (Hw & He & Ho & Hd).
  split_and!; try done; [apply named_claims|apply named_quantities|apply named_profile|apply named_contexts].
Qed.

(** ** Paths in messages *)

Lemma bracketMapKeys_empty path : bracketMapKeys path = "" -> path = "".
Proof. destruct path as [|c path]; [done|]. unfold bracketMapKeys, mapFieldPrefixes. repeat case_goal; done. Qed.

Lemma unknownFieldRE_ne msg name : unknownFieldRE msg = Some name -> name <> "".
Proof.
  induction msg as [|c msg IH]; cbn [unknownFieldRE]; [done|]. destruct (has_prefix (String c msg) "field "); [|exact IH].
  destruct (non_space (drop_str 6 (String c msg))) as [n rest]. destruct (String.eqb_spec n ""); cbn [negb andb]; [exact IH|].
  destruct (has_prefix rest " not found"); [by intros [= <-]|exact IH].
Qed.

Lemma decode_issues_named e root : Forall (fun i => vi_Field i <> "") (decodeErrorToIssues e root).
Proof.
  destruct e as [msgs|msg]; [|by repeat constructor]. unfold decodeErrorToIssues. apply Forall_fmap, Forall_forall. intros m _.
  unfold compose. cbv zeta. cbn [vi_Field].
  destruct (String.eqb_spec (bracketMapKeys (yamlPathAtLine root (parseYAMLErrorLine m))) "") as [_|Hne]; [|done].
  unfold parseYAMLErrorField. destruct (unknownFieldRE m) eqn:E; [by eapply unknownFieldRE_ne|done].
Qed.

Lemma checks_named l : Forall named l -> Forall (fun i => vi_Field i <> "") (errorToIssue <$> l).
Proof. intros H. by apply Forall_fmap. Qed.

(** The library names no empty path. *)
Definition names_paths (msg : string) : Prop :=
  forall heads, heads ∈ [celEvalPathRE; celValuePathRE; celSectionRE] -> quoted_after heads msg <> Some "".

Lemma celErrorField_ne msg : names_paths msg -> celErrorField msg <> "".
Proof.
  intros H. unfold celErrorField.
  destruct (quoted_after celEvalPathRE msg) eqn:E1; [intros ->%bracketMapKeys_empty; eapply H, E1; by left|].
  destruct (quoted_after celValuePathRE msg) eqn:E2; [intros ->%bracketMapKeys_empty; eapply H, E2; by right; left|].
  destruct (quoted_after celSectionRE msg) eqn:E3; [intros ->%bracketMapKeys_empty; eapply H, E3; by right; right; left|done].
Qed.

(** ** The theorems *)

Section laws.
Context `{Y : YamlLib} {Bp Tmpl : Type} `{D : !BlueprintDoc Bp Tmpl} `{K : !Checks Bp} `{R : !RawDecoders Bp Tmpl}.
Context (fs : string -> string -> option strategy).

(** The namespace of a tag error is the root type, a dot and the path of the field. *)
Definition namespaced (bp : Bp) : Prop :=
  Forall (fun fe => exists root path, cut_byte "." (fe_Namespace fe) = (root, path, true) /\ path <> "") (rd_struct_errors bp).

Lemma document_issues_named docBytes : namespaced (rd_decode docBytes).1 -> Forall (fun i => vi_Field i <> "") (document_issues docBytes).
Proof.
  intros Hn. unfold document_issues. destruct (rd_decode docBytes) as [bp e]. cbn in Hn.
  assert (Hs : Forall (fun i => vi_Field i <> "") (structFieldIssues bp ++ (errorToIssue <$> semantic_errors bp))).
  { apply Forall_app. split; [|apply checks_named, semantic_named]. apply Forall_fmap. eapply Forall_impl; [exact Hn|].
    intros fe (root & path & E & Hp). cbn. unfold struct_issue. by rewrite E. }
  pose proof (checks_named _ (named_owner_ids (rd_generic docBytes))) as Hp.
  destruct e as [e|]; [pose proof (decode_issues_named e (yaml_unmarshal docBytes)) as Hd; destruct e|]; cbn [from_option];
    rewrite !Forall_app in *; rewrite ?Forall_nil; tauto.
Qed.

(** The answer is either issues or the merged document, never both or neither, and
    every issue names a field. *)
Theorem validateRawBlueprint_issues s org data issues preview :
  (forall bp, namespaced bp) -> (forall tmpl m, names_paths (rd_eval_error tmpl m)) ->
  validateRawBlueprint fs s org data = Ok (issues, preview) ->
  (is_Some preview <-> issues = []) /\ Forall (fun i => vi_Field i <> "") issues.
Proof.
  intros Hn Hp. unfold validateRawBlueprint.
  assert (H1 : forall i, vi_Field i <> "" -> Ok ([i], None) = @Ok validate_error _ (issues, preview) ->
    (is_Some preview <-> issues = []) /\ Forall (fun i => vi_Field i <> "") issues).
  { intros i Hi [= <- <-]. split; [split; [by intros []|done]|by repeat constructor]. }
  destruct (yaml_unmarshal data) as [doc|]; [|by apply H1]. destruct (resolveValidationNode doc) as [n|]; [|by apply H1].
  destruct (over_template fs s org (restoreCELNodes n)) as [[merged|i]|e] eqn:Et; cbn [mbind result_bind]; [|apply H1|done].
  2: { unfold over_template in Et. repeat case_in Et; simplify_eq. done. }
  destruct (evaluated _ merged) as [[docBytes|i]|e] eqn:Ee; cbn [mbind result_bind]; [|apply H1|done].
  2: { unfold evaluated in Ee. repeat case_in Ee; simplify_eq; [by apply celErrorField_ne|done]. }
  pose proof (document_issues_named docBytes (Hn _)) as Hd. destruct (document_issues docBytes) as [|i l].
  - destruct (decodeRawNode merged) as [v|]; [|done]. intros [= <- <-]. split; [by split; [|by eexists]|constructor].
  - intros [= <- <-]. split; [split; [by intros []|done]|done].
Qed.

(** What a text says, its expressions restored. *)
Definition document (data : string) : option node :=
  doc ← yaml_unmarshal data; restoreCELNodes <$> resolveValidationNode doc.

Lemma org_content_document ob own : org_content ob = Ok own <-> document (ob_YAML ob) = Some own.
Proof.
  unfold org_content, document. destruct (yaml_unmarshal (ob_YAML ob)) as [doc|]; cbn; [|done].
  destruct (resolveValidationNode doc); cbn; naive_solver.
Qed.

(** An accepted document: its tree, what it is over its template and what that
    evaluates to. *)
Lemma validate_accepts s org data preview :
  validateRawBlueprint fs s org data = Ok ([], Some preview) ->
  exists n merged docBytes, document data = Some n /\ over_template fs s org n = Ok (inl merged) /\
    evaluated (str_field "name" (default [] (yaml_decode_map n))) merged = Ok (inl docBytes) /\
    document_issues docBytes = [] /\ decodeRawNode merged = Ok preview.
Proof.
  unfold validateRawBlueprint, document. destruct (yaml_unmarshal data) as [doc|]; [|done]. cbn [mbind option_bind].
  destruct (resolveValidationNode doc) as [n|]; [|done]. cbn [fmap option_fmap option_map].
  destruct (over_template fs s org (restoreCELNodes n)) as [[merged|i]|e] eqn:Et; cbn [mbind result_bind]; [|done..].
  destruct (evaluated _ merged) as [[docBytes|i]|e] eqn:Ee; cbn [mbind result_bind]; [|done..].
  destruct (document_issues docBytes) as [|i l] eqn:Ed; [|done]. destruct (decodeRawNode merged) as [v|] eqn:Ev; [|done].
  intros [= <-]. by exists (restoreCELNodes n), merged, docBytes.
Qed.

Lemma over_template_built s ob own merged :
  org_content ob = Ok own -> over_template fs s (ob_Org ob) own = Ok (inl merged) ->
  exists raw, buildOrgRawBlueprint fs s ob = Ok raw /\ BpNode raw = merged /\ Name raw = ob_Name ob.
Proof.
  intros Ho. unfold over_template, buildOrgRawBlueprint. rewrite Ho. cbn [mbind result_bind]. fold (org_template own).
  destruct (String.eqb (org_template own) ""); [intros [= <-]; by eexists|].
  destruct (resolveTemplateParent s (ob_Org ob) (org_template own)) as [parent|]; [|done].
  destruct (mergeYAMLNodes fs (BpNode parent) own) as [m|]; [|done]. intros [= <-]. by eexists.
Qed.

Lemma document_issues_none docBytes :
  (forall bp, rd_decode docBytes <> (bp, Some (TypeErrors []))) -> document_issues docBytes = [] ->
  exists bp, rd_decode docBytes = (bp, None) /\ rd_struct_errors bp = [] /\ semantic_errors bp = [].
Proof.
  unfold document_issues. destruct (rd_decode docBytes) as [bp [e|]]; intros Hne H.
  - destruct e as [[|m msgs]|msg]; [by destruct (Hne bp)| |]; apply app_nil in H as [_ H]; discriminate H.
  - cbn [from_option] in H. apply app_nil in H as [_ H]. cbn [app] in H. apply app_nil in H as [H1 H2]. exists bp.
    by apply fmap_nil_inv in H1, H2.
Qed.

(** The content a row is built to is its own over that of its template. *)
Lemma built_same_content s s' ob own raw raw' :
  org_content ob = Ok own ->
  (org_template own <> "" ->
     BpNode <$> resolveTemplateParent s' (ob_Org ob) (org_template own) = BpNode <$> resolveTemplateParent s (ob_Org ob) (org_template own)) ->
  buildOrgRawBlueprint fs s ob = Ok raw -> buildOrgRawBlueprint fs s' ob = Ok raw' -> BpNode raw' = BpNode raw.
Proof.
  intros Ho Hp. unfold buildOrgRawBlueprint. rewrite Ho. cbn [mbind result_bind].
  destruct (String.eqb_spec (org_template own) "") as [|Hne]; [by intros [= <-] [= <-]|]. specialize (Hp Hne).
  destruct (resolveTemplateParent s _ _) as [p|], (resolveTemplateParent s' _ _) as [p'|]; try done.
  cbn in Hp. injection Hp as ->. destruct (mergeYAMLNodes fs (BpNode p) own); [|done]. by intros [= <-] [= <-].
Qed.

(** The name of a row's blueprint after a load. *)
Lemma loaded_row_name s1 rows s2 s3 order ob loaded :
  fresh s1 -> res_foldl load_org_row s1 rows = Ok s2 -> ob ∈ rows ->
  order ≡ₚ (map_to_list s2).*1 -> resolveInheritance fs order s2 = Some (Ok s3) ->
  s3 !! ob_key ob = Some loaded -> Name loaded = ob_Name ob.
Proof.
  intros Hf Hrows Hob Ho Hm Hl. destruct (load_org_rows s1 rows s2 Hrows) as (_ & H2 & H3). specialize (H3 Hf).
  destruct (H2 ob Hob) as (n & Hn & Hraw).
  destruct (resolveInheritance_result fs s2 order s3 Ho Hm) as (_ & _ & Hres). destruct (Hres _ _ Hl) as (l & Hli & Hlr).
  destruct (resolve_lineage_facts fs s2 _ l loaded H3 Hli Hlr) as (_ & _ & _ & raw & Hr & _ & Hname & _).
  rewrite Hraw in Hr. injection Hr as <-. exact Hname.
Qed.

(** A blueprint shows what was previewed; it is evaluated, and the tags and the
    checks find nothing when the name it evaluates to is its own label. *)
Definition as_previewed (ob : OrgBlueprint) (preview : yvalue) (bp : Bp) (raw : RawBlueprint) : Prop :=
  decodeRawNode (BpNode raw) = Ok preview /\
  evaluateRawBlueprint TestScope raw (Name raw) = Ok (bd_set_metadata (sc_Metadata (named_scope (ob_Name ob) TestScope)) (normalize_name bp)) /\
  (NormalizeDNSLabel (bd_Name bp) = bd_Name bp -> blueprint_problems raw = []).

Lemma as_previewed_content ob preview bp raw raw' :
  BpNode raw' = BpNode raw -> Name raw' = Name raw -> as_previewed ob preview bp raw -> as_previewed ob preview bp raw'.
Proof. intros Hn Hm. unfold as_previewed, blueprint_problems, evaluateRawBlueprint. by rewrite Hn, Hm. Qed.

(** C15. What it means for a document to be accepted for an organization. Once it is
    stored under the name it gives itself, the blueprint the manager builds of the
    row shows, in the state it was validated in, what the validation previewed; it
    is evaluated without error, the checks find nothing in it, and neither do the
    tags when the name it evaluates to is its own label. After every load of the
    files and rows with that row among them that succeeds, the cache holds the row's
    blueprint under its name, and the same is true of it as long as the template it
    inherits from has the content it was validated against. A load may still be
    refused, for the row itself when it is its own template
    ([self_template_accepted]). The two decodings of yaml.v3 agree, the tags are the
    same, and the checks do not read the name and the metadata. *)
Theorem accepted_loads s org data preview ob own :
  (forall text bp, rd_decode text = (bp, None) -> bd_decode text = Some bp) ->
  (forall text bp, rd_decode text <> (bp, Some (TypeErrors []))) ->
  (forall bp md, rd_struct_errors bp = [] -> bd_problems (bd_set_metadata md bp) = []) ->
  (forall bp, bd_rename (bd_Name bp) bp = bp) ->
  (forall bp md name, semantic_errors (bd_set_metadata md (bd_rename name bp)) = semantic_errors bp) ->
  validateRawBlueprint fs s org data = Ok ([], Some preview) ->
  document data = Some own -> org_content ob = Ok own ->
  ob_Org ob = org -> ob_Name ob = str_field "name" (default [] (yaml_decode_map own)) ->
  exists raw bp, buildOrgRawBlueprint fs s ob = Ok raw /\ as_previewed ob preview bp raw /\ semantic_errors bp = [] /\
    forall os rows files errors enumerate original pub,
      (forall s, enumerate s ≡ₚ (map_to_list s).*1) -> fresh files ->
      ListAllBlueprints os = Some rows -> ob ∈ rows ->
      loadAndValidateBlueprints fs (Some os) (Ok files) errors enumerate original = (pub, None) ->
      exists final loaded, last pub = Some final /\ final !! ob_key ob = Some loaded /\ Name loaded = ob_Name ob /\
        ((org_template own <> "" -> BpNode <$> resolveTemplateParent final org (org_template own) =
                                    BpNode <$> resolveTemplateParent s org (org_template own)) ->
         as_previewed ob preview bp loaded).
Proof.
  intros Hdec Hmsgs Htags Hren Hsem Hv Hdoc Hoc <- Hname.
  apply validate_accepts in Hv as (n & merged & docBytes & Hn & Ht & He & Hi & Hp).
  rewrite Hdoc in Hn. injection Hn as <-. rewrite <- Hname in He.
  destruct (over_template_built s ob own merged Hoc Ht) as (raw & Hraw & Hnode & Hnm).
  destruct (document_issues_none docBytes (Hmsgs docBytes) Hi) as (bp & Hd & Htag & Hck). apply Hdec in Hd.
  assert (Hev : evaluateRawBlueprint TestScope raw (Name raw)
    = Ok (bd_set_metadata (sc_Metadata (named_scope (ob_Name ob) TestScope)) (normalize_name bp))).
  { unfold evaluateRawBlueprint, evaluate_node. rewrite Hnm, Hnode. unfold evaluated in He. repeat case_in He; simplify_eq. by rewrite Hd. }
  assert (Hshown : as_previewed ob preview bp raw).
  { split; [by rewrite Hnode|]. split; [done|]. intros Hlabel. unfold blueprint_problems. rewrite Hev.
    assert (Hnorm : normalize_name bp = bp) by (unfold normalize_name; rewrite Hlabel, Hren; by destruct (String.eqb _ _)).
    rewrite Hnorm, (Htags bp _ Htag). pose proof (Hsem bp (sc_Metadata (named_scope (ob_Name ob) TestScope)) (bd_Name bp)) as Hs.
    rewrite Hren in Hs. by rewrite Hs, Hck. }
  exists raw, bp. split; [done|]. split; [done|]. split; [done|].
  intros os rows files errors enumerate original pub Hen Hf Hrows Hob Hl.
  destruct (load_success _ _ _ _ _ _ _ Hl) as (s1 & s2 & s3 & [= <-] & Ho & Hr & _ & ->).
  unfold loadOrgBlueprints in Ho. rewrite Hrows in Ho.
  destruct (org_row_served fs files s2 s3 (enumerate s2) rows ob) as (loaded & served & chain & Hs3 & Hserved & Hc & _); [done..|].
  assert (Hln : Name loaded = ob_Name ob) by (eapply loaded_row_name; [exact Hf|exact Ho|exact Hob|apply Hen|exact Hr|exact Hs3]).
  exists s3, loaded. split; [done|]. split; [done|]. split; [done|]. intros Hsame.
  apply (as_previewed_content ob preview bp raw); [|congruence|done].
  rewrite <- Hc. by eapply (built_same_content s s3).
Qed.
End laws.

(** ** A template of itself *)

Section circular.
Context `{Y : YamlLib} (fs : string -> string -> option strategy).

Lemma no_lineage_of_itself s k bp l : lineage s k l -> s !! k = Some bp -> Template bp <> "" -> parent_key s bp = k -> False.
Proof.
  intros Hl Hs Ht Hp. induction Hl as [k bp' Hs' Ht'|k bp' p l Hs' Ht' Hp' _ IH].
  - rewrite Hs in Hs'. by injection Hs' as <-.
  - rewrite Hs in Hs'. injection Hs' as <-. rewrite Hp in Hp'. subst p. by apply IH.
Qed.

(** A document that names itself as its template is merged over the stored version of
    itself and accepted, when there is one; but once it is stored no load succeeds
    any more, for no organization, until the row is repaired. *)
Theorem self_template_accepted os rows files errors enumerate original pub e ob own s parent merged :
  (forall s, enumerate s ≡ₚ (map_to_list s).*1) ->
  ListAllBlueprints os = Some rows -> ob ∈ rows -> org_content ob = Ok own ->
  org_template own = ob_Name ob -> ob_Name ob <> "" -> ob_Org ob <> "" ->
  s !! orgBlueprintKey (ob_Org ob) (ob_Name ob) = Some parent -> mergeYAMLNodes fs (BpNode parent) own = Ok merged ->
  loadAndValidateBlueprints fs (Some os) files errors enumerate original = (pub, e) ->
  over_template fs s (ob_Org ob) own = Ok (inl merged) /\ is_Some e /\ last pub = Some original.
Proof.
  intros Hen Hrows Hin Hown Ht Hne Horg Hs Hm Hl. split.
  { unfold over_template. fold (org_template own). rewrite Ht. apply String.eqb_neq in Hne as ->.
    unfold resolveTemplateParent. apply String.eqb_neq in Horg as ->. by rewrite Hs, Hm. }
  destruct e as [e|]; [split; [by eexists|]; unfold loadAndValidateBlueprints in Hl; repeat case_in Hl; by simplify_eq|].
  exfalso. destruct (load_success fs (Some os) files errors enumerate original pub Hl) as (s1 & s2 & s3 & Hf & Ho & Hr & _).
  unfold loadOrgBlueprints in Ho. rewrite Hrows in Ho. destruct (load_org_rows _ _ _ Ho) as (_ & H2 & _).
  destruct (H2 ob Hin) as (n & Hn & Hs2). rewrite Hown in Hn. injection Hn as <-.
  destruct (resolveInheritance_result fs s2 (enumerate s2) s3 (Hen s2) Hr) as (_ & Hd & Hlin).
  destruct (s3 !! ob_key ob) as [bp|] eqn:E3; [|by rewrite (proj1 (Hd (ob_key ob)) E3) in Hs2].
  destruct (Hlin _ _ E3) as (l & Hlineage & _).
  apply (no_lineage_of_itself s2 _ _ l Hlineage Hs2); unfold parent_key; cbn; rewrite Ht; [done|].
  apply String.eqb_neq in Horg as ->. unfold ob_key in Hs2. by rewrite Hs2.
Qed.
End circular.

(** ** Examples *)

Module RawSample.
Definition checks : Checks (string * BlueprintMetadata) := {|
  ck_Description := fun _ => ""; ck_Env := fun _ => []; ck_IgnoreOrphans := fun _ => []; ck_WebProxyPort := fun _ => None;
  ck_Storages := fun _ => []; ck_PodmanStorages := fun _ => []; ck_CPU := fun _ => "1"; ck_Memory := fun _ => "";
  ck_profile := fun _ => mkBlueprint "" "" (mkPodman "" false ∅ ∅ ∅ "" "" None None [] "" "" false);
  ck_SecurityContext := fun _ => []; ck_PodmanSecurityContext := fun _ => []; ck_RequireDescription := false; ck_WORKSPACE_PORT := 2222;
  ck_regexp_ok := fun _ => true; ck_claim_marshal := fun _ => None; ck_claim_decode := fun _ => true;
  ck_context_decode := fun _ => None; ck_ParseQuantity := decimal; ck_yaml_copy := Some;
|}.
Definition decoders : RawDecoders (string * BlueprintMetadata) node := {|
  rd_yaml_error := fun _ => "yaml: line 1: bad";
  rd_eval_error := fun _ _ => "failed to evaluate 'name'";
  rd_generic := fun _ => Some [];
  rd_decode := fun text => ((text, mkMetadata "" "" "" "" ""), None);
  rd_struct_errors := fun bp => if String.eqb bp.1 "" then [mkFieldError "Blueprint.name" "name" "required" "" ""] else [];
|}.
Definition text : string := "name: dev" +:+ String "010"%char "template: base".
Definition unnamed : string := "template: base".
Definition stored : OrgBlueprint := mkOrgBlueprint "dev" "acme" "" false text 0 0.
Definition orgs : OrgBlueprintStore := {|
  LookupBlueprint := fun _ _ => Some None;
  ListAllBlueprints := Some [stored];
|}.
End RawSample.
#[local] Existing Instance ComposeSample.doc.
#[local] Existing Instance RawSample.checks.
#[local] Existing Instance RawSample.decoders.

Lemma validateRawBlueprint_issues_witness :
  let _ := SampleYaml.lib in
  exists issues, validateRawBlueprint InheritSample.no_strategy ManagerSample.files "acme" RawSample.unnamed = Ok (issues, None) /\
    issues <> [] /\ Forall (fun i => vi_Field i <> "") issues.
Proof.
  intros L.
  destruct (validateRawBlueprint InheritSample.no_strategy ManagerSample.files "acme" RawSample.unnamed) as [[issues p]|] eqn:E;
    [|vm_compute in E; discriminate E].
  assert (Hp : p = None) by (vm_compute in E; by injection E as <- <-). subst p. exists issues. split; [done|].
  destruct (validateRawBlueprint_issues InheritSample.no_strategy ManagerSample.files "acme" RawSample.unnamed issues None) as [Hi Hf].
  - intros bp. unfold namespaced. cbn. case_match; [|constructor]. constructor; [|constructor]. exists "Blueprint", "name". split; [reflexivity|discriminate].
  - intros tmpl m heads Hh. repeat (apply elem_of_cons in Hh as [->|Hh]; [vm_compute; discriminate|]). by apply elem_of_nil in Hh.
  - exact E.
  - split; [|exact Hf]. intros ->. destruct Hi as [_ Hi]. by destruct (Hi eq_refl).
Defined.

Lemma accepted_loads_witness :
  let _ := SampleYaml.lib in
  exists preview raw bp, validateRawBlueprint InheritSample.no_strategy ManagerSample.files "acme" RawSample.text = Ok ([], Some preview) /\
    buildOrgRawBlueprint InheritSample.no_strategy ManagerSample.files RawSample.stored = Ok raw /\
    decodeRawNode (BpNode raw) = Ok preview /\ semantic_errors bp = [] /\
    exists pub final loaded, loadAndValidateBlueprints InheritSample.no_strategy (Some RawSample.orgs) (Ok ManagerSample.files)
        (fun _ => []) ManagerSample.enumerate ∅ = (pub, None) /\
      last pub = Some final /\ final !! "acme/dev" = Some loaded /\ decodeRawNode (BpNode loaded) = Ok preview.
Proof.
  intros L.
  destruct (validateRawBlueprint InheritSample.no_strategy ManagerSample.files "acme" RawSample.text) as [[issues p]|] eqn:E;
    [|vm_compute in E; discriminate E].
  assert (Hi : issues = [] /\ is_Some p) by (vm_compute in E; injection E as <- <-; split; [done|by eexists]).
  destruct Hi as [-> [preview ->]].
  destruct (org_content RawSample.stored) as [own|] eqn:Eo; [|vm_compute in Eo; discriminate Eo].
  destruct (accepted_loads InheritSample.no_strategy ManagerSample.files "acme" RawSample.text preview RawSample.stored own)
    as (raw & bp & H1 & H2 & H3 & H4).
  - intros text bp [= <-]. reflexivity.
  - intros text bp. discriminate.
  - reflexivity.
  - by intros [].
  - reflexivity.
  - exact E.
  - exact (proj1 (org_content_document _ _) Eo).
  - exact Eo.
  - reflexivity.
  - vm_compute in Eo. injection Eo as <-. reflexivity.
  - exists preview, raw, bp. split; [done|]. split; [exact H1|]. split; [exact (proj1 H2)|]. split; [exact H3|].
    destruct (loadAndValidateBlueprints InheritSample.no_strategy (Some RawSample.orgs) (Ok ManagerSample.files)
                (fun _ => []) ManagerSample.enumerate ∅) as [pub e] eqn:El.
    assert (e = None) as -> by (vm_compute in El; by injection El as _ <-).
    destruct (H4 RawSample.orgs [RawSample.stored] ManagerSample.files (fun _ => []) ManagerSample.enumerate ∅ pub
                (fun s => reflexivity _) sample_files_fresh eq_refl ltac:(by apply list_elem_of_singleton) El)
      as (final & loaded & Hlast & Hk & _ & Hshow).
    exists pub, final, loaded. split; [done|]. split; [exact Hlast|]. split; [exact Hk|]. apply Hshow.
    intros _. vm_compute in Eo. injection Eo as <-. vm_compute in El. injection El as <-. cbn in Hlast. injection Hlast as <-.
    vm_compute. reflexivity.
Defined.

(** A template of itself, "loop", in the database of "acme". *)
Module CircularSample.
Definition text : string := "name: loop" +:+ String "010"%char "template: loop".
Definition row : OrgBlueprint := mkOrgBlueprint "loop" "acme" "" false text 0 0.
Definition orgs : OrgBlueprintStore := {|
  LookupBlueprint := fun _ _ => Some (Some row);
  ListAllBlueprints := Some [row];
|}.
(** What the manager holds before: the organization's blueprint without a template. *)
Definition before : store := {[ "acme/loop" := InheritSample.base ]}.
End CircularSample.

Lemma self_template_accepted_witness :
  let _ := SampleYaml.lib in
  exists own merged e, over_template InheritSample.no_strategy CircularSample.before "acme" own = Ok (inl merged) /\
    (loadAndValidateBlueprints InheritSample.no_strategy (Some CircularSample.orgs) (Ok ∅) (fun _ => []) ManagerSample.enumerate ∅).2 = Some e.
Proof.
  intros L.
  destruct (org_content CircularSample.row) as [own|] eqn:Eo; [|vm_compute in Eo; discriminate Eo].
  assert (Ht : org_template own = "loop") by (vm_compute in Eo; injection Eo as <-; reflexivity).
  destruct (mergeYAMLNodes InheritSample.no_strategy (BpNode InheritSample.base) own) as [merged|] eqn:Em.
  2: { vm_compute in Eo. injection Eo as <-. vm_compute in Em. discriminate Em. }
  destruct (loadAndValidateBlueprints InheritSample.no_strategy (Some CircularSample.orgs) (Ok ∅) (fun _ => []) ManagerSample.enumerate ∅)
    as [pub e] eqn:El.
  destruct (self_template_accepted InheritSample.no_strategy CircularSample.orgs [CircularSample.row] (Ok ∅) (fun _ => [])
              ManagerSample.enumerate ∅ pub e CircularSample.row own CircularSample.before InheritSample.base merged) as (H1 & [e' ->] & _);
    [reflexivity|reflexivity|by apply list_elem_of_singleton|exact Eo|exact Ht|discriminate|discriminate|reflexivity|exact Em|exact El|].
  exists own, merged, e'. split; [exact H1|reflexivity].
Defined.
