(* ===== verification/Cache.v ===== *)
(** * The cache of listings

    internal/helm/cache.go and informer.go: a listing is served for two seconds,
    concurrent misses share one fetch, and an informer serves what it covers. *)

From S2P Require Import Prelude GoStrings Workspaces.

(** ** The cache with a lifetime *)

(** Nanoseconds.

    src/internal/helm/cache.go:18-18 listCacheTTL *)
Definition listCacheTTL : Z := 2 * 1000000000.

Section cache.
Context {V : Type}.

(** src/internal/helm/cache.go:20-23 cacheEntry *)
Record cacheEntry : Type := mkEntry { ce_value : V; ce_fetched : Z }.

(** The entries, and the fetches in progress with the callers that wait for each
    (singleflight).

    src/internal/helm/cache.go:31-35 ttlCache *)
Record ttlCache : Type := mkCache {
  byKey : gmap string cacheEntry;
  group : gmap string (list nat);
}.

(** src/internal/helm/cache.go:37-39 newTTLCache *)
Definition newTTLCache : ttlCache := mkCache ∅ ∅.

(** The fast path: an entry that is still fresh.

    src/internal/helm/cache.go:45-50 getOrFetch *)
Definition cached (c : ttlCache) (now : Z) (key : string) : option V :=
  match byKey c !! key with
  | Some e => if (now - ce_fetched e <? listCacheTTL)%Z then Some (ce_value e) else None
  | None => None
  end.

(** What happens to a cache: a caller looks up a key, a caller that missed joins
    or starts the fetch of its key, a fetch ends. A caller is a number. *)
Inductive cache_event : Type :=
| Lookup (caller : nat) (now : Z) (key : string)
| Join (caller : nat) (key : string)
| Finish (now : Z) (key : string) (result : option V).

(** What callers are given: a value or the error of the fetch. *)
Definition given : Type := list (nat * option V).

(** src/internal/helm/cache.go:44-67 getOrFetch *)
Definition cache_step (c : ttlCache) (ev : cache_event) : ttlCache * given :=
  match ev with
  | Lookup caller now key => (c, match cached c now key with Some v => [(caller, Some v)] | None => [] end)
  | Join caller key => (mkCache (byKey c) (<[key := default [] (group c !! key) ++ [caller]]> (group c)), [])
  | Finish now key result =>
      match group c !! key with
      | None => (c, [])
      | Some callers =>
          (mkCache (match result with Some v => <[key := mkEntry v now]> (byKey c) | None => byKey c end)
                   (delete key (group c)),
           (fun caller => (caller, result)) <$> callers)
      end
  end.

Definition event_time (ev : cache_event) : option Z :=
  match ev with Lookup _ now _ | Finish now _ _ => Some now | Join _ _ => None end.

(** The states of a cache after a list of events, with every fetch that has
    ended and is in the cache. *)
Fixpoint cache_run (c : ttlCache) (evs : list cache_event) : ttlCache * list (cache_event * given) :=
  match evs with
  | [] => (c, [])
  | ev :: evs => let '(c', g) := cache_step c ev in let '(c'', out) := cache_run c' evs in (c'', (ev, g) :: out)
  end.

(** Every entry is the value of a fetch of its key that ended when it says. *)
Definition from_fetches (past : list cache_event) (c : ttlCache) : Prop :=
  forall key e, byKey c !! key = Some e -> Finish (ce_fetched e) key (Some (ce_value e)) ∈ past.

Lemma cache_step_fetches past c ev c' g : from_fetches past c -> cache_step c ev = (c', g) -> from_fetches (past ++ [ev]) c'.
Proof.
  intros Hc Hs key e He. rewrite elem_of_app. destruct ev as [caller now k|caller k|now k r]; cbn in Hs.
  - injection Hs as <- <-. left. by apply Hc.
  - injection Hs as <- <-. left. by apply Hc.
  - destruct (group c !! k); [|injection Hs as <- <-; left; by apply Hc].
    injection Hs as <- <-. cbn in He. destruct r as [v|]; [|left; by apply Hc].
    apply lookup_insert_Some in He as [[<- <-]|[_ He]]; [right; by left|left; by apply Hc].
Qed.

(** Every value a caller is given by looking up was fetched less than two seconds
    before. *)
Lemma cache_fresh evs : forall past c c' out, from_fetches past c -> cache_run c evs = (c', out) ->
  forall caller now key g v, (Lookup caller now key, g) ∈ out -> (caller, Some v) ∈ g ->
  exists t, Finish t key (Some v) ∈ past ++ evs /\ (now - t < listCacheTTL)%Z.
Proof.
  induction evs as [|ev evs IH]; intros past c c' out Hc; cbn [cache_run].
  { intros [= <- <-]. by intros ? ? ? ? ? ?%elem_of_nil. }
  destruct (cache_step c ev) as [c1 g1] eqn:E1. destruct (cache_run c1 evs) as [c2 out2] eqn:E2. intros [= <- <-].
  intros caller now key g v [Heq|Hin]%elem_of_cons Hv.
  - injection Heq as <- <-. cbn in E1. destruct (cached c now key) as [w|] eqn:Ew; injection E1 as <- <-.
    + apply list_elem_of_singleton in Hv. injection Hv as <-. unfold cached in Ew.
      destruct (byKey c !! key) as [e|] eqn:Ee; [|done]. destruct (Z.ltb_spec (now - ce_fetched e) listCacheTTL); [|done].
      injection Ew as <-. exists (ce_fetched e). split; [|done]. apply elem_of_app. left. by apply Hc.
    + by apply elem_of_nil in Hv.
  - destruct (IH (past ++ [ev]) c1 c2 out2 (cache_step_fetches _ _ _ _ _ Hc E1) E2 _ _ _ _ _ Hin Hv) as (t & Ht & Hlt).
    exists t. split; [|done]. by rewrite <- app_assoc in Ht.
Qed.

Lemma cache_run_app c evs1 evs2 :
  cache_run c (evs1 ++ evs2) = let '(c1, o1) := cache_run c evs1 in let '(c2, o2) := cache_run c1 evs2 in (c2, o1 ++ o2).
Proof.
  revert c. induction evs1 as [|ev evs1 IH]; intros c; cbn; [by destruct (cache_run c evs2)|].
  destruct (cache_step c ev) as [c1 g]. rewrite IH. destruct (cache_run c1 evs1) as [c2 o1]. by destruct (cache_run c2 evs2).
Qed.

(** A listing served from the cache is the outcome of a fetch of the same key
    that ended less than two seconds before the lookup; failed fetches are never
    served. *)
Theorem getOrFetch_fresh evs c out caller now key g v :
  cache_run newTTLCache evs = (c, out) -> (Lookup caller now key, g) ∈ out -> (caller, Some v) ∈ g ->
  exists t, Finish t key (Some v) ∈ evs /\ (now - t < listCacheTTL)%Z.
Proof.
  intros Hrun Hin Hv.
  destruct (cache_fresh evs [] newTTLCache c out) with (caller := caller) (now := now) (key := key) (g := g) (v := v) as (t & Ht & Hlt); [|done..|].
  - intros k e He. cbn in He. by rewrite lookup_empty in He.
  - by exists t.
Qed.

(** Callers that miss during a fetch all get its outcome, errors included, and
    the next miss starts another one. *)
Theorem coalesced c now key r callers : group c !! key = Some callers ->
  (cache_step c (Finish now key r)).2 = ((fun caller => (caller, r)) <$> callers) /\
  group (cache_step c (Finish now key r)).1 !! key = None /\
  (r = None -> byKey (cache_step c (Finish now key r)).1 = byKey c).
Proof. intros H. cbn. rewrite H. cbn. split_and!; [done|apply lookup_delete_eq|by intros ->]. Qed.
End cache.
Arguments cacheEntry V : clear implicits.
Arguments ttlCache V : clear implicits.
Arguments cache_event V : clear implicits.

Lemma getOrFetch_fresh_witness :
  let evs := [Lookup 1 0 "ns"; Join 1 "ns"; Lookup 2 10 "ns"; Join 2 "ns"; Finish 50 "ns" (Some "pods"); Lookup 3 60 "ns"] in
  exists t, Finish t "ns" (Some "pods") ∈ evs /\ (60 - t < listCacheTTL)%Z.
Proof.
  cbv zeta.
  apply (getOrFetch_fresh [Lookup 1 0 "ns"; Join 1 "ns"; Lookup 2 10 "ns"; Join 2 "ns"; Finish 50 "ns" (Some "pods"); Lookup 3 60 "ns"]
           (mkCache {["ns" := mkEntry "pods" 50]} ∅)
           [(Lookup 1 0 "ns", []); (Join 1 "ns", []); (Lookup 2 10 "ns", []); (Join 2 "ns", []);
            (Finish 50 "ns" (Some "pods"), [(1%nat, Some "pods"); (2%nat, Some "pods")]); (Lookup 3 60 "ns", [(3%nat, Some "pods")])]
           3 60 "ns" [(3%nat, Some "pods")] "pods").
  - vm_compute. reflexivity.
  - set_solver.
  - set_solver.
Defined.

(** ** Informers *)

(** A requirement of a parsed selector: key, operator, values. *)
Record requirement : Type := mkReq { rq_Key : string; rq_Operator : string; rq_Values : list string }.

(** src/internal/helm/informer.go:223-237 requiresInjected *)
Definition requiresInjected (sel : list requirement) : bool :=
  existsb (fun r => String.eqb (rq_Key r) LabelInjected &&
                    existsb (String.eqb (rq_Operator r)) ["="; "=="; "in"] &&
                    match rq_Values r with [v] => String.eqb v "true" | _ => false end) sel.

(** The requirements a pod meets, as far as they are equalities and sets. *)
Definition meets (sel : list requirement) (labels : gmap string string) : bool :=
  forallb (fun r => match labels !! rq_Key r with Some v => existsb (String.eqb v) (rq_Values r) | None => false end) sel.

(** An informer: whether it has its first list, and the pods it holds, each with
    its namespace. *)
Record informer : Type := mkInformer { inf_synced : bool; inf_pods : list (string * gmap string string) }.

(** src/internal/helm/informer.go:86-95 workspaceInformers *)
Record workspaceInformers : Type := mkInformers {
  targetNamespace : string;
  targetPods : informer;
  injectedPods : gmap string informer;
}.

(** The informer that covers a listing, if one does.

    src/internal/helm/informer.go:179-192 listPods *)
Definition covering (w : workspaceInformers) (ns : string) (sel : list requirement) : option informer :=
  if String.eqb ns (targetNamespace w) then Some (targetPods w)
  else if requiresInjected sel then
    match injectedPods w !! ns with Some i => Some i | None => injectedPods w !! "" end
  else None.

(** src/internal/helm/informer.go:171-207 listPods *)
Definition listPods (w : workspaceInformers) (ns : string) (sel : list requirement)
    : option (list (string * gmap string string)) :=
  match covering w ns sel with
  | None => None
  | Some i =>
      if negb (inf_synced i) then None
      else
        let objs := if String.eqb ns "" then inf_pods i else List.filter (fun p => String.eqb p.1 ns) (inf_pods i) in
        Some (List.filter (fun p => meets sel p.2) objs)
  end.

(** What the API server lists: the pods of the cluster in the namespace, all of
    them for "", that meet the selector. *)
Definition api_list (all : list (string * gmap string string)) (ns : string) (sel : list requirement)
    : list (string * gmap string string) :=
  List.filter (fun p => meets sel p.2) (if String.eqb ns "" then all else List.filter (fun p => String.eqb p.1 ns) all).

(** The informers are in step with a cluster: each holds what its own list
    options select, the namespace of the injected ones being their key. *)
Definition in_step (w : workspaceInformers) (all : list (string * gmap string string)) : Prop :=
  targetNamespace w <> "" /\
  inf_pods (targetPods w) = List.filter (fun p => String.eqb p.1 (targetNamespace w)) all /\
  forall key i, injectedPods w !! key = Some i ->
    inf_pods i = List.filter (fun p => bool_decide (p.2 !! LabelInjected = Some "true"))
                   (if String.eqb key "" then all else List.filter (fun p => String.eqb p.1 key) all).

Lemma filter_filter_and {A} (f g : A -> bool) (l : list A) :
  List.filter f (List.filter g l) = List.filter (fun x => g x && f x) l.
Proof. induction l as [|x l IH]; cbn; [done|]. destruct (g x); cbn; [destruct (f x); by rewrite IH|done]. Qed.

Lemma filter_ext_b {A} (f g : A -> bool) (l : list A) : (forall x, f x = g x) -> List.filter f l = List.filter g l.
Proof. intros H. induction l as [|x l IH]; cbn; [done|]. by rewrite H, IH. Qed.

(** A selector that requires the injection label is met only by pods that have it. *)
Lemma requiresInjected_meets sel labels :
  requiresInjected sel = true -> meets sel labels = true -> labels !! LabelInjected = Some "true".
Proof.
  unfold requiresInjected, meets. intros (r & Hin & Hr)%existsb_exists Hm.
  rewrite !andb_true_iff in Hr. destruct Hr as [[Hk%String.eqb_eq _] Hv].
  rewrite forallb_forall in Hm. specialize (Hm r Hin). rewrite Hk in Hm.
  destruct (labels !! LabelInjected) as [v|]; [|done]. destruct (rq_Values r) as [|v' [|]]; [done| |done].
  apply String.eqb_eq in Hv as ->. cbn in Hm. rewrite orb_false_r in Hm. by apply String.eqb_eq in Hm as ->.
Qed.

(** A listing an informer serves is what the API server would have answered:
    when the informers are in step with the cluster, serving from them loses no
    pod and adds none, whatever the namespace and the selector. *)
Theorem listPods_agrees w all ns sel pods :
  in_step w all -> listPods w ns sel = Some pods -> pods = api_list all ns sel.
Proof.
  intros (Hne & Ht & Hi). unfold listPods. destruct (covering w ns sel) as [i|] eqn:Hc; [|done].
  destruct (inf_synced i); [|done]. cbn [negb]. intros [= <-]. unfold api_list, covering in *.
  destruct (String.eqb_spec ns (targetNamespace w)) as [->|Hns].
  - injection Hc as <-. apply String.eqb_neq in Hne as ->. rewrite Ht, !filter_filter_and.
    apply filter_ext_b. intros p. by destruct (String.eqb p.1 _).
  - destruct (requiresInjected sel) eqn:Hr; [|done].
    assert (Hmeets : forall p : string * gmap string string,
      bool_decide (p.2 !! LabelInjected = Some "true") && meets sel p.2 = meets sel p.2).
    { intros p. destruct (meets sel p.2) eqn:Hm; [|apply andb_false_r].
      rewrite andb_true_r. by apply bool_decide_eq_true, (requiresInjected_meets sel). }
    assert (exists key, injectedPods w !! key = Some i /\ (key = ns \/ key = "")) as (key & Hk & Hkey).
    { destruct (injectedPods w !! ns) as [j|] eqn:Ej; [injection Hc as <-; exists ns; auto|]. exists ""; auto. }
    rewrite (Hi key i Hk). destruct (String.eqb_spec ns "") as [->|Hnn].
    + assert (key = "") as -> by (by destruct Hkey). cbn. rewrite filter_filter_and. by apply filter_ext_b.
    + destruct (String.eqb_spec key "") as [->|Hkn].
      * rewrite !filter_filter_and. apply filter_ext_b. intros p. rewrite <- (Hmeets p) at 2.
        destruct (bool_decide _), (String.eqb p.1 ns); cbn; auto.
      * destruct Hkey as [->|]; [|done]. rewrite !filter_filter_and. apply filter_ext_b. intros p. rewrite <- (Hmeets p) at 2.
        destruct (bool_decide _), (String.eqb p.1 ns); cbn; auto.
Qed.

Lemma listPods_agrees_witness :
  let pod := ("team", {[LabelInjected := "true"]} : gmap string string) in
  let w := mkInformers "ws" (mkInformer true []) {["" := mkInformer true [pod]]} in
  let sel := [mkReq LabelInjected "=" ["true"]] in
  listPods w "team" sel = Some (api_list [pod] "team" sel) /\ api_list [pod] "team" sel = [pod].
Proof.
  cbv zeta. split; [|reflexivity]. set (pod := ("team", {[LabelInjected := "true"]} : gmap string string)).
  set (w := mkInformers "ws" (mkInformer true []) {["" := mkInformer true [pod]]}).
  rewrite <- (listPods_agrees w [pod] "team" [mkReq LabelInjected "=" ["true"]] [pod]); [reflexivity| |reflexivity].
  split; [discriminate|]. split; [reflexivity|]. intros key i Hk. cbn in Hk.
  apply lookup_singleton_Some in Hk as [<- <-]. reflexivity.
Defined.
