(* ===== verification/HelmOps.v ===== *)
(** * Namespace resources

    internal/helm/client.go (the base resources, the PAT secret) and inject.go
    (resources applied and deleted for a workspace): what is created, updated and
    deleted besides pods and releases, as programs over Calls.v. *)

From S2P Require Import Prelude GoStrings Yaml Workspaces Values Effects Calls.

(** ** Create or update *)

Definition with_version (rv : string) (o : object) : object :=
  mkObject (obj_Name o) (obj_Labels o) (obj_Annotations o) rv (obj_body o).

Definition with_labels (labels : gmap string string) (o : object) : object :=
  mkObject (obj_Name o) (labels ∪ obj_Labels o) (obj_Annotations o) (obj_ResourceVersion o) (obj_body o).

Definition with_body (body : yvalue) (o : object) : object :=
  mkObject (obj_Name o) (obj_Labels o) (obj_Annotations o) (obj_ResourceVersion o) body.

(** Get, then create, or update at the version read; [what] names the kind in
    the errors. The code writes it once per kind.

    src/internal/helm/client.go:240-257 applyConfigMap *)
Definition apply_object (k : kind) (ns what : string) (o : object) : prog api (answer unit) :=
  let! r := call (ObjGet k ns (obj_Name o)) in
  match r with
  | Err e =>
      if negb (IsNotFound e) then Ret (Err (Wrap ("failed to get " +:+ what) e))
      else wrapping ("failed to create " +:+ what) (call (ObjCreate k ns false o))
  | Ok existing =>
      wrapping ("failed to update " +:+ what) (call (ObjUpdate k ns (with_version (obj_ResourceVersion existing) o)))
  end.

(** A map of texts as a value. *)
Definition texts (data : list (string * string)) : yvalue := YMap ((fun kv => (kv.1, YStr kv.2)) <$> data).

(** src/internal/helm/client.go:230-258 applyConfigMap *)
Definition applyConfigMap (ns name : string) (labels : gmap string string) (data : list (string * string))
    : prog api (answer unit) :=
  apply_object ConfigMaps ns "configmap" (mkObject name labels ∅ "" (YMap [("data", texts data)])).

(** src/internal/helm/client.go:261-290 applySecret *)
Definition applySecret (ns name : string) (labels : gmap string string) (type : string) (data : list (string * string))
    : prog api (answer unit) :=
  apply_object Secrets ns "secret" (mkObject name labels ∅ "" (YMap [("type", YStr type); ("data", texts data)])).

(** The labels of the base resources.

    src/internal/helm/client.go:198-202 EnsureBase *)
Definition base_labels (AppVersion Commit : string) : gmap string string :=
  list_to_map [("app.kubernetes.io/version", AppVersion); ("app.kubernetes.io/managed-by", "k8shell-provisioner");
               ("io.k8shell.provisioner/commit", Commit)].

(** The name of the registry secret.

    src/internal/helm/client.go:207-210 EnsureBase *)
Definition regcred_name (private_values : gmap string yvalue) : string :=
  let name := string_or_empty (private_values !! "regcred") in if String.eqb name "" then "regcred" else name.

(** src/internal/helm/client.go:193-227 EnsureBase *)
Definition EnsureBase (ns AppVersion Commit : string) (private_values : gmap string yvalue) : prog api (answer unit) :=
  if String.eqb ns "" then Ret (Err (Plain "target namespace is not set")) else
  let labels := base_labels AppVersion Commit in
  let dockerConfigJson := string_or_empty (private_values !! "dockerConfigJson") in
  let certCA := string_or_empty (private_values !! "certCA") in
  let? _ := (if String.eqb dockerConfigJson "" then Ret (Ok tt)
             else wrapping "failed to apply secret"
                    (applySecret ns (regcred_name private_values) labels "kubernetes.io/dockerconfigjson"
                       [(".dockerconfigjson", dockerConfigJson)])) in
  if String.eqb certCA "" then Ret (Ok tt)
  else wrapping "failed to apply registryca configmap"
         (applyConfigMap ns "registryca" labels [("registry-ca.pem", certCA)]).

(** ** The PAT secret *)

(** The token replaces all data; labels and the rest stay.

    src/internal/helm/client.go:646-647 UpdatePATSecret *)
Definition token_data (token : string) (body : yvalue) : yvalue :=
  match body with
  | YMap m => YMap (yset "data" (texts [("token", token)]) (List.filter (fun kv => negb (String.eqb kv.1 "stringData")) m))
  | _ => YMap [("data", texts [("token", token)])]
  end.

(** src/internal/helm/client.go:638-652 UpdatePATSecret *)
Definition UpdatePATSecret (ns releaseName token : string) : prog api (answer unit) :=
  let? existing := wrapping "failed to get PAT secret" (call (ObjGet Secrets ns (releaseName +:+ "-pat"))) in
  wrapping "failed to update PAT secret"
    (call (ObjUpdate Secrets ns (with_body (token_data token (obj_body existing)) existing))).

(** ** The resources of an injected workspace *)

Section apply.
(** sigs.k8s.io/yaml: the kind and name of a document, and the document decoded
    as an object of its kind; [None] for a decoding error. *)
Variable decode_meta : string -> option (string * string).
Variable decode_object : kind -> string -> option object.

(** Get, then create; an existing claim is not touched.

    src/internal/helm/inject.go:621-630 applyGenericResource *)
Definition apply_claim (ns : string) (o : object) : prog api (answer unit) :=
  let! r := call (ObjGet PersistentVolumeClaims ns (obj_Name o)) in
  match r with
  | Err e =>
      if negb (IsNotFound e) then Ret (Err (Wrap "failed to get PVC" e))
      else wrapping "failed to create PVC" (call (ObjCreate PersistentVolumeClaims ns false o))
  | Ok _ => Ret (Ok tt)
  end.

(** Server-side apply, which replaces what other managers hold.

    src/internal/helm/inject.go:680-717 applyCertificate *)
Definition applyCertificate (ns doc : string) (extraLabels : gmap string string) : prog api (answer unit) :=
  match decode_object Certificates doc with
  | None => Ret (Err (Plain "unmarshal failed"))
  | Some cert => call (ObjApply Certificates ns (with_labels extraLabels cert))
  end.

(** The kinds that are applied; every other one is passed over.

    src/internal/helm/inject.go:563-669 applyGenericResource *)
Definition applyGenericResource (ns doc : string) (extraLabels : gmap string string) : prog api (answer unit) :=
  match decode_meta doc with
  | None => Ret (Err (Plain "failed to parse resource"))
  | Some (k, _) =>
      if String.eqb k "ConfigMap" then
        match decode_object ConfigMaps doc with
        | None => Ret (Err (Plain "failed to decode ConfigMap"))
        | Some cm => apply_object ConfigMaps ns "ConfigMap" (with_labels extraLabels cm)
        end
      else if String.eqb k "PersistentVolumeClaim" then
        match decode_object PersistentVolumeClaims doc with
        | None => Ret (Err (Plain "failed to decode PVC"))
        | Some pvc => apply_claim ns (with_labels extraLabels pvc)
        end
      else if String.eqb k "Certificate" then
        wrapping "failed to apply Certificate" (applyCertificate ns doc extraLabels)
      else if String.eqb k "Secret" then
        match decode_object Secrets doc with
        | None => Ret (Err (Plain "failed to decode Secret"))
        | Some secret => apply_object Secrets ns "Secret" (with_labels extraLabels secret)
        end
      else Ret (Ok tt)
  end.

(** The resources in the order Go iterates their map.

    src/internal/helm/inject.go:490-497 ApplyNamespacedResources *)
Fixpoint ApplyNamespacedResources (ns : string) (resources : list (string * string)) (labels : gmap string string)
    : prog api (answer unit) :=
  match resources with
  | [] => Ret (Ok tt)
  | (_, doc) :: resources =>
      let? _ := applyGenericResource ns doc labels in ApplyNamespacedResources ns resources labels
  end.
End apply.

(** ** Deleting what a workspace leaves *)

(** [if err != nil && !IsNotFound(err) { return fmt.Errorf(...) }]. *)
Definition unless_gone (text : string) (m : prog api (answer unit)) : prog api (answer unit) :=
  let! r := m in
  Ret (match r with Err e => if IsNotFound e then Ok tt else Err (Wrap text e) | Ok _ => Ok tt end).

(** [if err != nil { log }]. *)
Definition ignoring (m : prog api (answer unit)) : prog api (answer unit) := let! _ := m in Ret (Ok tt).

Definition canonical_selector (canonicalId : string) : string := LabelCanonicalId +:+ "=" +:+ canonicalId.

(** src/internal/helm/inject.go:44-44 LabelStorageType *)
Definition LabelStorageType : string := "k8shell.io/storage-type".

Definition is_shared (o : object) : bool := String.eqb (default "" (obj_Labels o !! LabelStorageType)) "shared".

(** src/internal/helm/inject.go:518-526 DeleteNamespacedWorkspaceResources *)
Fixpoint delete_claims (ns : string) (pvcs : list object) : prog api (answer unit) :=
  match pvcs with
  | [] => Ret (Ok tt)
  | pvc :: pvcs =>
      if is_shared pvc then delete_claims ns pvcs
      else
        let? _ := unless_gone "failed to delete PVC" (call (ObjDelete PersistentVolumeClaims ns (obj_Name pvc))) in
        delete_claims ns pvcs
  end.

(** src/internal/helm/inject.go:501-557 DeleteNamespacedWorkspaceResources *)
Definition DeleteNamespacedWorkspaceResources (ns canonicalId : string) : prog api (answer unit) :=
  let sel := canonical_selector canonicalId in
  let? _ := unless_gone "failed to delete configmaps" (call (ObjDeleteCollection ConfigMaps ns sel)) in
  let? _ := unless_gone "failed to delete secrets" (call (ObjDeleteCollection Secrets ns sel)) in
  let! listed := call (ObjList PersistentVolumeClaims ns sel) in
  let? pvcs := Ret (match listed with
                    | Err e => if IsNotFound e then Ok [] else Err (Wrap "failed to list PVCs" e)
                    | Ok pvcs => Ok pvcs
                    end) in
  let? _ := delete_claims ns pvcs in
  let? _ := unless_gone "failed to delete network policies" (call (ObjDeleteCollection NetworkPolicies ns sel)) in
  let? _ := ignoring (call (ObjDeleteCollection CiliumNetworkPolicies ns sel)) in
  ignoring (call (ObjDeleteCollection Certificates ns sel)).

(** ** An API server for these objects *)

#[export] Instance kind_countable : Countable kind.
Proof.
  refine (inj_countable' (fun k => match k with
      | ConfigMaps => 0 | Secrets => 1 | PersistentVolumeClaims => 2 | NetworkPolicies => 3
      | CiliumNetworkPolicies => 4 | Certificates => 5 | Services => 6 end%nat)
    (fun n => match n with
      | 0 => ConfigMaps | 1 => Secrets | 2 => PersistentVolumeClaims | 3 => NetworkPolicies
      | 4 => CiliumNetworkPolicies | 5 => Certificates | _ => Services end%nat) _).
  by intros [].
Defined.

(** The objects by kind, namespace and name, and a counter for their versions. *)
Record served : Type := mkServed { sv_objs : gmap (kind * string * string) object; sv_rev : Z }.

Definition put_object (key : kind * string * string) (o : object) (s : served) : served :=
  mkServed (<[key := with_version (pretty (sv_rev s)) o]> (sv_objs s)) (sv_rev s + 1).

(** Optimistic concurrency: a write at a version that is not the current one fails. *)
Definition serve X (s : served) (e : api X) : served * X :=
  match e in api X return served * X with
  | ObjGet k ns name => (s, match sv_objs s !! (k, ns, name) with Some o => Ok o | None => Err (Api NotFound) end)
  | ObjCreate k ns dry o =>
      match sv_objs s !! (k, ns, obj_Name o) with
      | Some _ => (s, Err (Api AlreadyExists))
      | None => (if dry then s else put_object (k, ns, obj_Name o) o s, Ok tt)
      end
  | ObjUpdate k ns o =>
      match sv_objs s !! (k, ns, obj_Name o) with
      | None => (s, Err (Api NotFound))
      | Some cur => if String.eqb (obj_ResourceVersion o) "" || String.eqb (obj_ResourceVersion o) (obj_ResourceVersion cur)
                    then (put_object (k, ns, obj_Name o) o s, Ok tt)
                    else (s, Err (Api Conflict))
      end
  | e => (s, refuse e)
  end.

(** ** Create or update *)

(** The two ways it goes, by what the read finds. *)
Lemma apply_object_run k ns what o s :
  run serve (apply_object k ns what o) s =
  (put_object (k, ns, obj_Name o)
     (match sv_objs s !! (k, ns, obj_Name o) with Some cur => with_version (obj_ResourceVersion cur) o | None => o end) s, Ok tt).
Proof.
  unfold apply_object. rewrite run_bind, run_call. cbn [serve].
  destruct (sv_objs s !! (k, ns, obj_Name o)) as [cur|] eqn:E.
  - cbn. rewrite E, String.eqb_refl, orb_true_r. done.
  - change (IsNotFound (Api NotFound)) with true. cbn. rewrite E. done.
Qed.

(** An object as it was declared, whatever its version. *)
Definition declared (s : served) (key : kind * string * string) (labels : gmap string string) (body : yvalue) : Prop :=
  exists o, sv_objs s !! key = Some o /\ obj_Labels o = labels /\ obj_body o = body.

Lemma apply_object_declares k ns what o s : exists s',
  run serve (apply_object k ns what o) s = (s', Ok tt) /\
  declared s' (k, ns, obj_Name o) (obj_Labels o) (obj_body o) /\
  forall key, key <> (k, ns, obj_Name o) -> sv_objs s' !! key = sv_objs s !! key.
Proof.
  eexists. split; [apply apply_object_run|]. split.
  - eexists. split; [apply lookup_insert_eq|]. by destruct (sv_objs s !! _).
  - intros key Hk. cbn. by rewrite lookup_insert_ne.
Qed.

Lemma declared_other s s' k : (forall key, key <> k -> sv_objs s' !! key = sv_objs s !! key) ->
  forall key labels body, key <> k -> declared s key labels body -> declared s' key labels body.
Proof. intros H key labels body Hk (o & Ho & ?). exists o. by rewrite H. Qed.

Lemma run_wrapping {X St} (h : forall X, St -> api X -> St * X) text (m : prog api (answer X)) s :
  run h (wrapping text m) s = let '(s, r) := run h m s in (s, res_wrap (Wrap text) r).
Proof. unfold wrapping. by rewrite run_bind. Qed.

Lemma run_try_bind {A B St} (h : forall X, St -> api X -> St * X) (m : prog api (answer A)) (f : A -> prog api (answer B)) s :
  run h (let? x := m in f x) s =
  let '(s, r) := run h m s in match r with Ok a => run h (f a) s | Err e => (s, Err e) end.
Proof. unfold try_bind. rewrite run_bind. destruct (run h m s) as [s' [a|e]]; done. Qed.

(** The base resources are ensured whatever state the namespace is in: in a
    namespace that is set the call succeeds, afterwards the registry secret and
    the CA config map are there exactly as configured, and no other object has
    changed. *)
Theorem EnsureBase_ensures ns AppVersion Commit values s : ns <> "" ->
  exists s', run serve (EnsureBase ns AppVersion Commit values) s = (s', Ok tt) /\
    (string_or_empty (values !! "dockerConfigJson") <> "" ->
       declared s' (Secrets, ns, regcred_name values) (base_labels AppVersion Commit)
         (YMap [("type", YStr "kubernetes.io/dockerconfigjson");
                ("data", texts [(".dockerconfigjson", string_or_empty (values !! "dockerConfigJson"))])])) /\
    (string_or_empty (values !! "certCA") <> "" ->
       declared s' (ConfigMaps, ns, "registryca") (base_labels AppVersion Commit)
         (YMap [("data", texts [("registry-ca.pem", string_or_empty (values !! "certCA"))])])) /\
    forall key, key <> (Secrets, ns, regcred_name values) -> key <> (ConfigMaps, ns, "registryca") ->
      sv_objs s' !! key = sv_objs s !! key.
Proof.
  intros Hns%String.eqb_neq. unfold EnsureBase. rewrite Hns, run_try_bind.
  assert (exists s1, run serve (if String.eqb (string_or_empty (values !! "dockerConfigJson")) "" then Ret (Ok tt)
      else wrapping "failed to apply secret" (applySecret ns (regcred_name values) (base_labels AppVersion Commit)
             "kubernetes.io/dockerconfigjson" [(".dockerconfigjson", string_or_empty (values !! "dockerConfigJson"))])) s = (s1, Ok tt) /\
    (string_or_empty (values !! "dockerConfigJson") <> "" ->
       declared s1 (Secrets, ns, regcred_name values) (base_labels AppVersion Commit)
         (YMap [("type", YStr "kubernetes.io/dockerconfigjson");
                ("data", texts [(".dockerconfigjson", string_or_empty (values !! "dockerConfigJson"))])])) /\
    forall key, key <> (Secrets, ns, regcred_name values) -> sv_objs s1 !! key = sv_objs s !! key) as (s1 & Hr1 & Hd1 & Ho1).
  { destruct (String.eqb_spec (string_or_empty (values !! "dockerConfigJson")) "") as [->|Hne]; [by exists s|].
    unfold applySecret. rewrite run_wrapping.
    destruct (apply_object_declares Secrets ns "secret" (mkObject (regcred_name values) (base_labels AppVersion Commit) ∅ ""
      (YMap [("type", YStr "kubernetes.io/dockerconfigjson");
             ("data", texts [(".dockerconfigjson", string_or_empty (values !! "dockerConfigJson"))])])) s) as (s1 & -> & Hd & Ho).
    by exists s1. }
  rewrite Hr1. destruct (String.eqb_spec (string_or_empty (values !! "certCA")) "") as [->|Hne].
  { exists s1. split_and!; [done..|]. auto. }
  unfold applyConfigMap. rewrite run_wrapping.
  destruct (apply_object_declares ConfigMaps ns "configmap" (mkObject "registryca" (base_labels AppVersion Commit) ∅ ""
    (YMap [("data", texts [("registry-ca.pem", string_or_empty (values !! "certCA"))])])) s1) as (s2 & -> & Hd2 & Ho2).
  exists s2. split_and!; [done| |done|].
  - intros Hj. eapply declared_other; [exact Ho2|done|auto].
  - intros key H1 H2. by rewrite Ho2, Ho1.
Qed.

Lemma EnsureBase_ensures_witness :
  let values : gmap string yvalue := {["certCA" := YStr "pem"]} in
  exists s', run serve (EnsureBase "ws" "1" "c" values) (mkServed ∅ 1) = (s', Ok tt) /\
    declared s' (ConfigMaps, "ws", "registryca") (base_labels "1" "c") (YMap [("data", texts [("registry-ca.pem", "pem")])]).
Proof.
  cbv zeta. destruct (EnsureBase_ensures "ws" "1" "c" {["certCA" := YStr "pem"]} (mkServed ∅ 1)) as (s' & Hr & _ & Hc & _);
    [discriminate|]. exists s'. split; [exact Hr|]. apply Hc. vm_compute. discriminate.
Defined.

(** Refreshing the PAT of a stored secret changes its data and its version only. *)
Lemma UpdatePATSecret_run ns name token s cur :
  sv_objs s !! (Secrets, ns, name +:+ "-pat") = Some cur -> obj_Name cur = name +:+ "-pat" ->
  run serve (UpdatePATSecret ns name token) s =
  (put_object (Secrets, ns, name +:+ "-pat") (with_body (token_data token (obj_body cur)) cur) s, Ok tt).
Proof.
  intros Hs Hn. unfold UpdatePATSecret. rewrite run_try_bind, run_wrapping, run_call. cbn [serve]. rewrite Hs. cbn [res_wrap].
  rewrite run_wrapping, run_call. cbn [serve with_body obj_Name obj_ResourceVersion]. rewrite Hn, Hs, String.eqb_refl, orb_true_r. done.
Qed.

(** The documents the chart renders beside these kinds are passed over, network
    policies and services among them, without an error. *)
Lemma unsupported_resource_skipped decode_meta decode_object ns doc labels k name :
  decode_meta doc = Some (k, name) -> k ∉ ["ConfigMap"; "PersistentVolumeClaim"; "Certificate"; "Secret"] ->
  applyGenericResource decode_meta decode_object ns doc labels = Ret (Ok tt).
Proof.
  intros H Hk. unfold applyGenericResource. rewrite H. rewrite !not_elem_of_cons in Hk.
  destruct Hk as (?%String.eqb_neq & ?%String.eqb_neq & ?%String.eqb_neq & ?%String.eqb_neq & _). by repeat case_goal.
Qed.

(** ** Deleting what a workspace leaves *)

(** What has happened: the claims that were listed, the claims deleted, the kinds
    whose collection was deleted. *)
Record sweep : Type := mkSweep { sw_listed : option (list object); sw_claims : list string; sw_kinds : list kind }.

(** Of the claims listed, one with this name, and none that is shared. *)
Definition deletable (l : list object) (name : string) : bool :=
  existsb (fun o => String.eqb (obj_Name o) name) l &&
  forallb (fun o => negb (String.eqb (obj_Name o) name && is_shared o)) l.

(** Only the objects of the workspace are asked for, and a shared claim is not
    deleted; claims have distinct names. *)
Definition sweep_step (ns sel : string) (st : sweep) X (e : api X) : X -> judgement sweep :=
  match e in api X return X -> judgement sweep with
  | ObjDeleteCollection k ns' sel' => fun _ =>
      if String.eqb ns' ns && String.eqb sel' sel && negb (bool_decide (k = PersistentVolumeClaims))
      then Next (mkSweep (sw_listed st) (sw_claims st) (sw_kinds st ++ [k])) else Forbidden
  | ObjList PersistentVolumeClaims ns' sel' => fun r =>
      if String.eqb ns' ns && String.eqb sel' sel
      then match r with
           | Ok l => if bool_decide (NoDup (obj_Name <$> l)) then Next (mkSweep (Some l) (sw_claims st) (sw_kinds st)) else Excluded
           | Err _ => Next (mkSweep (Some []) (sw_claims st) (sw_kinds st))
           end
      else Forbidden
  | ObjDelete PersistentVolumeClaims ns' name => fun _ =>
      if String.eqb ns' ns && deletable (default [] (sw_listed st)) name
      then Next (mkSweep (sw_listed st) (sw_claims st ++ [name]) (sw_kinds st)) else Forbidden
  | _ => fun _ => Forbidden
  end.

Definition unshared (l : list object) : list string := obj_Name <$> List.filter (fun o => negb (is_shared o)) l.

Lemma name_unique (l : list object) o o' : NoDup (obj_Name <$> l) -> o ∈ l -> o' ∈ l -> obj_Name o = obj_Name o' -> o = o'.
Proof.
  induction l as [|x l IH]; [by intros _ ?%elem_of_nil|]. cbn. intros [Hx Hnd]%NoDup_cons. rewrite !elem_of_cons.
  intros [->|H1] [->|H2] Heq; [done| | |by apply IH]; exfalso; apply Hx; apply list_elem_of_fmap; eauto.
Qed.

Lemma deletable_listed l o : NoDup (obj_Name <$> l) -> o ∈ l -> is_shared o = false -> deletable l (obj_Name o) = true.
Proof.
  intros Hnd Hin Hsh. unfold deletable. rewrite andb_true_iff, existsb_exists, forallb_forall. split.
  - exists o. split; [by apply list_elem_of_In|]. apply String.eqb_refl.
  - intros o' Ho'%list_elem_of_In. destruct (String.eqb_spec (obj_Name o') (obj_Name o)) as [Heq|]; [|done].
    by rewrite (name_unique l o' o Hnd Ho' Hin Heq), Hsh.
Qed.

Lemma delete_claims_conform ns sel all pvcs claims kinds : NoDup (obj_Name <$> all) -> (forall o, o ∈ pvcs -> o ∈ all) ->
  conform (sweep_step ns sel) (delete_claims ns pvcs) (mkSweep (Some all) claims kinds)
    (fun st r => sw_listed st = Some all /\ sw_kinds st = kinds /\ (r = Ok tt -> sw_claims st = claims ++ unshared pvcs)).
Proof.
  intros Hnd. revert claims. induction pvcs as [|o pvcs IH]; intros claims Hsub; cbn [delete_claims].
  { cbn. split_and!; [done..|]. intros _. unfold unshared. cbn. by rewrite app_nil_r. }
  assert (Hsub' : forall o', o' ∈ pvcs -> o' ∈ all) by (intros; apply Hsub; by right).
  assert (Hin : o ∈ all) by (apply Hsub; left).
  destruct (is_shared o) eqn:Hsh.
  { eapply conform_mono; [by apply IH|]. intros st r (H1 & H2 & H3). split_and!; [done..|].
    intros Hr. rewrite (H3 Hr). unfold unshared. cbn. by rewrite Hsh. }
  unfold try_bind, unless_gone. repeat conform_step. intros x. cbn [sweep_step sw_listed default].
  rewrite String.eqb_refl. cbn [andb].
  cbn [id]. rewrite (deletable_listed all o Hnd Hin Hsh).
  cbn [andb conform]. set (r := match x with Err e => if IsNotFound e then Ok () else Err _ | Ok _ => Ok () end).
  destruct r as [[]|e]; [|cbn; split_and!; [done..|done]].
  eapply conform_mono; [by apply IH|]. intros st r' (H1 & H2 & H3). split_and!; [done..|].
  intros Hr'. rewrite (H3 Hr'), <- app_assoc. unfold unshared. cbn. by rewrite Hsh.
Qed.

Lemma sweep_step_collection ns sel k st : k <> PersistentVolumeClaims -> forall x,
  sweep_step ns sel st _ (ObjDeleteCollection k ns sel) x = Next (mkSweep (sw_listed st) (sw_claims st) (sw_kinds st ++ [k])).
Proof. intros Hk x. cbn. rewrite !String.eqb_refl. by rewrite bool_decide_eq_false_2. Qed.

Lemma sweep_collection ns sel k text st Q : k <> PersistentVolumeClaims ->
  (forall r, Q (mkSweep (sw_listed st) (sw_claims st) (sw_kinds st ++ [k])) r) ->
  conform (sweep_step ns sel) (unless_gone text (call (ObjDeleteCollection k ns sel))) st Q /\
  conform (sweep_step ns sel) (ignoring (call (ObjDeleteCollection k ns sel))) st Q.
Proof.
  intros Hk HQ. split; repeat conform_step; intros x; rewrite (sweep_step_collection _ _ _ _ Hk); cbn; apply HQ.
Qed.

(** Deleting what a workspace leaves, whatever the API server answers: only
    objects that carry the workspace's canonical id are deleted and never a
    shared claim; when it returns without an error, every other claim listed has
    been deleted and the collections of the five other kinds have been asked
    for, also when those of optional resources failed. *)
Theorem DeleteNamespacedWorkspaceResources_spec ns id :
  conform (sweep_step ns (canonical_selector id)) (DeleteNamespacedWorkspaceResources ns id) (mkSweep None [] [])
    (fun st r => r = Ok tt -> exists l, sw_listed st = Some l /\ sw_claims st = unshared l /\
       sw_kinds st = [ConfigMaps; Secrets; NetworkPolicies; CiliumNetworkPolicies; Certificates]).
Proof.
  unfold DeleteNamespacedWorkspaceResources, try_bind. cbv zeta. set (sel := canonical_selector id).
  apply conform_bind, sweep_collection; [done|]. intros [[]|e]; [|done].
  apply conform_bind, sweep_collection; [done|]. intros [[]|e]; [|done]. cbn [sw_listed sw_claims sw_kinds app].
  repeat conform_step. intros listed. cbn [sweep_step sw_claims sw_kinds]. rewrite !String.eqb_refl. cbn [andb].
  assert (Hrest : forall l, NoDup (obj_Name <$> l) ->
    conform (sweep_step ns sel) (let? _ := delete_claims ns l in
      let? _ := unless_gone "failed to delete network policies" (call (ObjDeleteCollection NetworkPolicies ns sel)) in
      let? _ := ignoring (call (ObjDeleteCollection CiliumNetworkPolicies ns sel)) in
      ignoring (call (ObjDeleteCollection Certificates ns sel))) (mkSweep (Some l) [] [ConfigMaps; Secrets])
      (fun st r => r = Ok tt -> exists l', sw_listed st = Some l' /\ sw_claims st = unshared l' /\
         sw_kinds st = [ConfigMaps; Secrets; NetworkPolicies; CiliumNetworkPolicies; Certificates])).
  { intros l Hnd. unfold try_bind. eapply conform_seq; [by apply delete_claims_conform|].
    intros st [[]|e] (H1 & H2 & H3); [|done].
    apply conform_bind, sweep_collection; [done|]. intros [[]|e]; [|done].
    apply conform_bind; apply (sweep_collection _ _ _ ""); [done|]. intros [[]|e]; [|done].
    apply (sweep_collection _ _ _ ""); [done|]. intros r _. exists l. cbn. by rewrite H1, H2, H3. }
  destruct listed as [l|e].
  - case_bool_decide as Hnd; [|done]. by apply Hrest.
  - destruct (IsNotFound e); [|done]. by apply (Hrest []); constructor.
Qed.
