(* ===== verification/Instance.v ===== *)
(** * A workspace and its pod

    internal/workspace/workspace.go, provision.go, pat.go and envvars.go: the
    operations of a workspace object that provisioning, stopping and deletion are
    made of. *)

From S2P Require Import Prelude GoStrings Yaml Sha256 Podman PodState PodWatch Workspaces Values Effects Calls Manifest HelmOps.

(** What the process is started with: its configuration, whether there is an
    identity client, the cache listing of a map of events, Values.v's [Values] at
    its parameters, and what the text of an error says. *)
Class Deployment (F X : Type) : Type := {
  dp_config : ProvisionerConfig;
  dp_identity : bool;
  dp_events : gmap string Event -> list Event;
  dp_values : WorkspaceObj F X -> answer (gmap string yvalue);
  (** [strings.Contains(err.Error(), "not found")]. *)
  dp_says_not_found : goerr -> bool;
  (** sigs.k8s.io/yaml: the kind of a document and the pod it is decoded as. *)
  dp_decode_pod : string -> option (string * WorkspacePod);
  (** The claim spec of a storage, through JSON; nothing declared is an empty one. *)
  dp_claim_spec : Podman.Storage -> option yvalue;
  (** The order in which Go iterates the storages of a blueprint. *)
  dp_storages : gmap string WsStorage -> list (string * WsStorage);
}.

(** ** The object *)

Section object.
Context {F X : Type}.
#[local] Notation Ws := (WorkspaceObj F X).

Definition empty_workspace (name : string) : Ws :=
  mkWorkspaceObj name "" None [] "" ∅ None None false "" "" "" "" "" "" ∅ ∅.

(** src/internal/workspace/workspace.go:639-648 NewWorkspaceForEject *)
Definition NewWorkspaceForEject (name : string) : answer Ws :=
  if String.eqb name "" then Err (Plain "workspace name is required") else Ok (empty_workspace name).

(** src/internal/workspace/workspace.go:655-664 NewWorkspaceForUninstall *)
Definition NewWorkspaceForUninstall (name : string) : answer Ws :=
  if String.eqb name "" then Err (Plain "workspace name is required") else Ok (empty_workspace name).

(** src/internal/workspace/workspace.go:667-688 NewWorkspace *)
Definition NewWorkspace (name : string) (bp : WsBlueprint F X) (user : WsUser) (us : CanonicalUserStr) : Ws :=
  mkWorkspaceObj name "" (Some bp) [] "" ∅ (Some user) (Some us) false "" "" "" "" "" (us_CanonicalId us) ∅ ∅.

(** src/internal/workspace/workspace.go:867-869 SetPAT *)
Definition SetPAT (pat : string) (w : Ws) : Ws :=
  let '(mkWorkspaceObj n j b ch r o u us l pm wn wns wk _ c e ns) := w in mkWorkspaceObj n j b ch r o u us l pm wn wns wk pat c e ns.

Definition set_locked (l : bool) (w : Ws) : Ws :=
  let '(mkWorkspaceObj n j b ch r o u us _ pm wn wns wk p c e ns) := w in mkWorkspaceObj n j b ch r o u us l pm wn wns wk p c e ns.

Definition set_canonical (c : string) (w : Ws) : Ws :=
  let '(mkWorkspaceObj n j b ch r o u us l pm wn wns wk p _ e ns) := w in mkWorkspaceObj n j b ch r o u us l pm wn wns wk p c e ns.

Definition set_selectors (ns : gmap string (list string)) (w : Ws) : Ws :=
  let '(mkWorkspaceObj n j b ch r o u us l pm wn wns wk p c e _) := w in mkWorkspaceObj n j b ch r o u us l pm wn wns wk p c e ns.

(** Nothing is stored when a selector is invalid.

    src/internal/workspace/workspace.go:856-863 SetNodeSelectors *)
Definition SetNodeSelectors (qualified_name label_value : string -> bool) (selectors : list (string * string)) (w : Ws)
    : answer Ws :=
  (fun parsed => set_selectors parsed w) <$> ParseNodeSelectors qualified_name label_value selectors.

(** src/internal/workspace/workspace.go:1261-1271 canonicalIdForCleanup *)
Definition canonicalIdForCleanup (w : Ws) : string :=
  if negb (String.eqb (wo_canonicalId w) "") then wo_canonicalId w
  else match wo_userStr w with
       | Some us => if String.eqb (us_CanonicalId us) "" then wo_Name w else us_CanonicalId us
       | None => wo_Name w
       end.

(** ** A workspace from its release *)

(** The values a value of "orgNodeSelector" gives to a key.

    src/internal/workspace/workspace.go:738-743 NewWorkspaceFromHelmRelease *)
Definition selector_values (v : yvalue) : list string :=
  match v with YSeq l => omap as_string l | _ => [] end.

(** src/internal/workspace/workspace.go:732-745 NewWorkspaceFromHelmRelease *)
Definition released_selectors (config : gmap string yvalue) : gmap string (list string) :=
  match config !! "orgNodeSelector" with
  | Some (YMap raw) =>
      filter (fun kv => kv.2 <> []) (list_to_map ((fun kv => (kv.1, selector_values kv.2)) <$> raw))
  | _ => ∅
  end.

(** The workspace a release and its user give; [decode_bp] is the blueprint in
    the values (yaml.v3), [parse_userstr] reads the stored user string.

    src/internal/workspace/workspace.go:705-761 NewWorkspaceFromHelmRelease *)
Definition workspace_of_release (decode_bp : gmap string yvalue -> option (WsBlueprint F X))
    (parse_userstr : string -> option CanonicalUserStr) (name : string) (rel : Release) (user : WsUser) : answer Ws :=
  match decode_bp (rel_Config rel) with
  | None => Err (Plain "failed to unmarshal blueprint values")
  | Some bp =>
      let '(mkWsBlueprint _ ki ns sa io r po npc wpa ra ro rn rr st x) := bp in
      let bp := mkWsBlueprint (default "" (rel_Labels rel !! LabelBlueprint)) ki ns sa io r po npc wpa ra ro rn rr st x in
      let b64 := string_or_empty (rel_Config rel !! "__userstr__") in
      Ok (mkWorkspaceObj name (string_or_empty (rel_Config rel !! "__jobid__")) (Some bp) [] "" ∅ (Some user)
            (if String.eqb b64 "" then None else parse_userstr b64) false "" "" "" "" ""
            (string_or_empty (rel_Config rel !! "__canonicalid__")) ∅ (released_selectors (rel_Config rel)))
  end.

(** src/internal/workspace/workspace.go:610-633 FindWorkspaceHelmRelease *)
Definition FindWorkspaceHelmRelease (chart name : string) : prog api (answer Release) :=
  let? releases := wrapping "failed to list releases"
    (call (ReleaseList [("app.kubernetes.io/name", [chart]); ("app.kubernetes.io/instance", [name])])) in
  Ret (match releases with
       | [] => Err (Wrap name (Sentinel ErrWorkspaceNotFound))
       | [rel] => Ok rel
       | _ => Err (Plain "multiple releases found for workspace")
       end).

(** [to_user] decodes the answer of the identity service.

    src/internal/workspace/workspace.go:691-762 NewWorkspaceFromHelmRelease *)
Definition NewWorkspaceFromHelmRelease (decode_bp : gmap string yvalue -> option (WsBlueprint F X))
    (parse_userstr : string -> option CanonicalUserStr) (to_user : string * string -> WsUser) (chart name : string)
    : prog api (answer Ws) :=
  let? rel := FindWorkspaceHelmRelease chart name in
  let? found := wrapping "failed to get user" (call (UserFind (default "" (rel_Labels rel !! LabelUsername)))) in
  Ret (workspace_of_release decode_bp parse_userstr name rel (to_user found)).
End object.

(** ** The operations *)

Section operations.
Context {F X : Type} `{!Deployment F X}.
#[local] Notation Ws := (WorkspaceObj F X).

(** [helm.Client.TargetNamespace]. *)
Definition target_ns : string := cf_TargetNamespace dp_config.

(** ** Tokens and environment variables *)

(** The first token of that name.

    src/internal/workspace/pat.go:30-33 DeleteWorkspacePAT *)
Definition named_token (id : string) (tokens : list (string * Z)) : option Z :=
  snd <$> List.find (fun t => String.eqb t.1 id) tokens.

(** src/internal/workspace/pat.go:20-43 DeleteWorkspacePAT *)
Definition DeleteWorkspacePAT (username canonicalId : string) : prog api (answer unit) :=
  if negb dp_identity || String.eqb username "" || String.eqb canonicalId "" then Ret (Ok tt)
  else
    let? tokens := wrapping "failed to list access tokens" (call (TokenList username)) in
    match named_token canonicalId tokens with
    | None => Ret (Ok tt)
    | Some id => wrapping "failed to delete access token" (call (TokenDelete id))
    end.

(** src/internal/workspace/workspace.go:886-891 DeletePAT *)
Definition DeletePAT (w : Ws) : prog api (answer unit) :=
  match wo_user w with
  | None => Ret (Ok tt)
  | Some user => DeleteWorkspacePAT (u_Username user) (wo_canonicalId w)
  end.

(** src/internal/workspace/pat.go:69-74 DeleteWorkspacePATFromLabels *)
Definition DeleteWorkspacePATFromLabels (labels : gmap string string) : prog api (answer unit) :=
  DeleteWorkspacePAT (label labels LabelUsername) (label labels LabelCanonicalId).

(** The workspace with the token it minted. A workspace without a user is not
    provisioned.

    src/internal/workspace/pat.go:50-62 MintPAT *)
Definition MintPAT (w : Ws) (scopes : list string) : prog api (answer Ws) :=
  match wo_user w with
  | None => Ret (Err (Plain "nil user"))
  | Some user =>
      let? token := wrapping "failed to create PAT" (call (TokenCreate (u_Username user) (wo_canonicalId w) scopes)) in
      Ret (Ok (SetPAT token w))
  end.

(** src/internal/workspace/workspace.go:876-878 RefreshPATSecret *)
Definition RefreshPATSecret (w : Ws) : prog api (answer unit) := UpdatePATSecret target_ns (wo_Name w) (wo_pat w).

(** src/internal/workspace/envvars.go:34-48 FetchUserEnvVars *)
Fixpoint env_values (username : string) (vars : list (string * string * bool)) (out : gmap string string)
    : prog api (answer (gmap string string)) :=
  match vars with
  | [] => Ret (Ok out)
  | (key, value, redacted) :: vars =>
      let? value := (if redacted : bool
                     then wrapping "failed to fetch secret environment variable" (call (EnvVarGet username key))
                     else Ret (Ok value)) in
      env_values username vars (<[key := value]> out)
  end.

(** The variables; nothing without an identity client.

    src/internal/workspace/envvars.go:21-52 FetchUserEnvVars *)
Definition FetchUserEnvVars (w : Ws) : prog api (answer (gmap string string)) :=
  match dp_identity, wo_user w with
  | true, Some user =>
      let? vars := wrapping "failed to list environment variables" (call (EnvVarList (u_Username user))) in
      env_values (u_Username user) vars ∅
  | _, _ => Ret (Ok (wo_userEnvVars w))
  end.

(** ** The lock of a workspace *)

(** The object keeps the lock it has made also when acquiring it failed.

    src/internal/workspace/provision.go:246-266 lock *)
Definition lock (w : Ws) (timeout : Z) : prog api (Ws * answer unit) :=
  if wo_locked w then Ret (w, Ok tt)
  else
    let! r := call (LockAcquire (wo_Name w) timeout) in
    Ret (set_locked true w,
         match r with
         | Err e => Err (Wrap "failed to acquire lock for workspace" e)
         | Ok false => Err (Plain "timeout acquiring lock for workspace")
         | Ok true => Ok tt
         end).

(** An error is only logged.

    src/internal/workspace/provision.go:269-280 unlock *)
Definition unlock (w : Ws) : prog api Ws :=
  if wo_locked w then let! _ := call (LockRelease (wo_Name w)) in Ret (set_locked false w) else Ret w.

(** ** The pod *)

(** [models.WorkspaceStatus]. *)
Definition WorkspaceStatus : Type := Z * WorkspaceStatusMessage * string * Z * string.
Definition status_of (s : WorkspaceStatus) : WorkspaceStatusMessage := s.1.1.1.2.

(** The error value of a watch. *)
Definition error_of_watch (e : watch_error) : goerr :=
  match e with
  | ContextCancelled => Sentinel ErrContextDone
  | PodNotFound pod => Wrap pod (Sentinel ErrWorkspaceNotFound)
  | Critical message => Plain message
  | _ => Plain "workspace pod"
  end.

Definition watch_result (o : outcome) : answer PodStateSnapshot :=
  match o with
  | Return _ (Some e) => Err (error_of_watch e)
  | Return (Some s) None => Ok s
  | _ => Err (Plain "no snapshot")
  end.

(** [pw.Watch]: what the watcher receives ends with its context. *)
Definition observe (w : Ws) (messages wait : bool) : prog api (answer PodStateSnapshot) :=
  let! wd := call (PodObserve target_ns (wo_Name w) wait) in
  let '(out, o) := Watch (wo_Name w) defaultCrashLoopThreshold messages dp_events
                     (wd_pod wd) (wd_podEvents wd) (wd_pvcEvents wd) (wd_now wd) wait (wd_inputs wd ++ [(wd_now wd, CtxDone)]) in
  let! _ := call (EmitEvents out) in
  Ret (watch_result o).

Definition to_status (s : PodStateSnapshot) : WorkspaceStatus :=
  (Created s, Status s, Message s, Restarts s, LastFailMessage s).

(** src/internal/workspace/workspace.go:1201-1211 GetPodStatus *)
Definition GetPodStatus (w : Ws) : prog api (answer WorkspaceStatus) :=
  let! r := observe w false false in
  Ret (match r with
       | Ok snap => Ok (to_status snap)
       | Err e => if errors_is ErrWorkspaceNotFound e then Err e else Err (Wrap "failed to get workspace pod status" e)
       end).

(** src/internal/workspace/alias.go:369-378 releaseExists *)
Definition releaseExists (name : string) : prog api (answer bool) :=
  let! r := call (ReleaseGet name) in
  Ret (match r with
       | Ok _ => Ok true
       | Err e => if dp_says_not_found e then Ok false else Err e
       end).

(** src/internal/workspace/workspace.go:1215-1217 IsInstalled *)
Definition IsInstalled (w : Ws) : prog api (answer bool) := releaseExists (wo_Name w).

(** Whether it runs, with the status of its pod if there is one.

    src/internal/workspace/provision.go:43-66 ExistsAndRunning *)
Definition ExistsAndRunning (w : Ws) : prog api (answer (bool * option WorkspaceStatus)) :=
  let? exists_ := wrapping "failed to check if workspace exists" (IsInstalled w) in
  if exists_ : bool then
    let! r := GetPodStatus w in
    Ret (match r with
         | Err e => if errors_is ErrWorkspaceNotFound e then Ok (false, None)
                    else Err (Wrap "failed to get workspace pod status" e)
         | Ok s => Ok (bool_decide (status_of s = WorkspaceStatusRunning), Some s)
         end)
  else Ret (Ok (false, None)).

(** src/internal/workspace/workspace.go:1277-1289 EnsureNodeReachable *)
Definition EnsureNodeReachable (w : Ws) : prog api (answer unit) :=
  let! r := call (PodGet target_ns (wo_Name w)) in
  match r with
  | Err e => Ret (if IsNotFound e then Ok tt else Err (Wrap "failed to get workspace pod" e))
  | Ok pod =>
      let! now := call Clock in
      Ret (if podNodeLost (wp_Pod pod) now then Err (Wrap "node is unreachable" (Sentinel ErrNodeUnreachable)) else Ok tt)
  end.

(** src/internal/workspace/workspace.go:1296-1315 StopPod *)
Definition StopPod (w : Ws) : prog api (answer unit) :=
  let? _ := EnsureNodeReachable w in
  let? _ := unless_gone "failed to label workspace pod as stopping"
    (call (PodPatch target_ns (wo_Name w) (mkMetaPatch [(LabelStopRequested, Some "true")] []))) in
  unless_gone "failed to stop workspace pod" (call (PodDelete target_ns (wo_Name w))).

(** The polls that fit into the timeout; the context ends the loop after them.

    src/internal/workspace/provision.go:195-209 WaitForPodGone *)
Fixpoint wait_gone (ticks : nat) (w : Ws) : prog api (answer unit) :=
  let! r := call (PodGet target_ns (wo_Name w)) in
  match r with
  | Err e => Ret (if IsNotFound e then Ok tt else Err (Wrap "failed to get workspace pod while waiting for deletion" e))
  | Ok _ =>
      match ticks with
      | O => Ret (Err (Wrap "timeout waiting for workspace pod to be deleted" (Sentinel ErrContextDone)))
      | S ticks =>
          let! done_ := call PollTick in
          if done_ : bool then Ret (Err (Wrap "timeout waiting for workspace pod to be deleted" (Sentinel ErrContextDone)))
          else wait_gone ticks w
      end
  end.

(** Two polls a second.

    src/internal/workspace/provision.go:182-210 WaitForPodGone *)
Definition WaitForPodGone (w : Ws) (timeout : Z) : prog api (answer unit) :=
  wait_gone (Z.to_nat (2 * if (timeout <=? 0)%Z then 20 else timeout)) w.

(** ** The chart *)

(** The values of a rendering that can be compared with another.

    src/internal/workspace/workspace.go:1118-1135 Template *)
Definition template_values (values : gmap string yvalue) : gmap string yvalue :=
  <["__manifesthash__" := YStr ""]> (<["__jobid__" := YStr ""]> values).

(** src/internal/workspace/workspace.go:1118-1135 Template *)
Definition Template (w : Ws) : prog api (answer string) :=
  match dp_values w with
  | Err e => Ret (Err e)
  | Ok values => call (ChartTemplate (wo_Name w) (template_values values))
  end.

(** src/internal/workspace/workspace.go:1188-1197 TemplateHash *)
Definition TemplateHash (w : Ws) : prog api (answer string) :=
  let? template := Template w in Ret (Ok (hex_encode (sha256 (msg_of template)))).

(** src/internal/workspace/workspace.go:1178-1184 ReleasedResources *)
Definition ReleasedResources (decode_map : string -> option (list (string * yvalue))) (w : Ws)
    : prog api (answer (gmap string (list (string * yvalue)))) :=
  let? rel := call (ReleaseGet (wo_Name w)) in Ret (ManifestDocuments decode_map (rel_Manifest rel)).

(** ** Removal *)

(** What follows once the release may be removed.

    src/internal/workspace/workspace.go:1235-1255 Uninstall *)
Definition uninstall_release (w : Ws) : prog api (answer unit) :=
  let! _ := DeletePAT w in
  let? _ := wrapping "failed to uninstall workspace" (call (ReleaseUninstall (wo_Name w))) in
  if String.eqb (canonicalIdForCleanup w) "" then Ret (Ok tt)
  else ignoring (DeleteNamespacedWorkspaceResources target_ns (canonicalIdForCleanup w)).

(** src/internal/workspace/workspace.go:1222-1256 Uninstall *)
Definition Uninstall (w : Ws) (timeout : Z) (with_lock : bool) : prog api (answer unit) :=
  if with_lock then
    let! (w, r) := lock w timeout in
    match r with
    | Err e => Ret (Err (Wrap "failed to acquire lock" e))
    | Ok _ => let! r := uninstall_release w in let! _ := unlock w in Ret r
    end
  else uninstall_release w.
End operations.

(** ** An instance *)

(** Releases with one pod; an error says "not found" when it is the sentinel. *)
#[export] Instance demo_deployment : Deployment Z unit := {|
  dp_config := demo_config;
  dp_identity := true;
  dp_events := fun m => (map_to_list m).*2;
  dp_values := demo_values_of;
  dp_says_not_found := errors_is ErrReleaseNotFound;
  dp_decode_pod := fun _ => Some ("Pod", mkWorkspacePod (PodState.PodSample.pod) ∅ [] [] "");
  dp_claim_spec := fun _ => Some YNil;
  dp_storages := map_to_list;
|}.
