(* ===== verification/Provision.v ===== *)
(** * Provisioning a workspace

    internal/workspace/provision.go: a workspace is installed when it has no Helm
    release, its pod is created again from the release when it has one, and it is
    left alone when it runs. *)

From S2P Require Import Prelude GoStrings Yaml Podman PodState PodWatch Workspaces Alias Values Effects Calls Manifest HelmOps Instance.

Section provision.
Context {F X : Type} `{!Deployment F X}.
#[local] Notation Ws := (WorkspaceObj F X).

(** src/internal/workspace/provision.go:26-40 ProvisionOptions *)
Record ProvisionOptions : Type := mkProvisionOptions {
  po_Timeout : Z;
  po_Messages : bool;
  po_LockTimeout : Z;
  po_PATScopes : list string;
}.

(** ** Storages *)

(** src/internal/workspace/provision.go:425-428 ensureSharedStorages *)
Definition pvc_name (prefix name : string) (storage : WsStorage) : string :=
  "pvc-" +:+ prefix +:+ name +:+ (if String.eqb (wst_Id storage) "" then "" else "-" +:+ wst_Id storage).

(** src/internal/workspace/provision.go:469-483 ensureSharedStorages *)
Definition shared_claim (pvcName name : string) (storage : WsStorage) (spec : yvalue) : object :=
  mkObject pvcName
    (list_to_map [("app.kubernetes.io/version", cf_AppVersion dp_config); ("app.kubernetes.io/managed-by", "k8shell-provisioner");
                  (LabelStorageType, "shared"); ("k8shell.io/storage-name", name);
                  ("io.k8shell.provisioner/commit", cf_Commit dp_config)])
    (wst_Annotations storage) "" spec.

(** One enabled storage of type "shared". A claim that exists is left as it is.

    src/internal/workspace/provision.go:425-497 ensureSharedStorages *)
Definition ensure_shared (ns prefix name : string) (storage : WsStorage) : prog api (answer unit) :=
  let pvcName := pvc_name prefix name storage in
  let! existing := call (ObjGet PersistentVolumeClaims ns pvcName) in
  match existing with
  | Err e =>
      if negb (IsNotFound e) then Ret (Err (Wrap "failed to check shared PVC" e))
      else
        match dp_claim_spec (wst_storage storage) with
        | None => Ret (Err (Plain "invalid claimSpec"))
        | Some spec =>
            let pvc := shared_claim pvcName name storage spec in
            let? _ := wrapping "claimSpec rejected by API server (dry-run)" (call (ObjCreate PersistentVolumeClaims ns true pvc)) in
            let! r := call (ObjCreate PersistentVolumeClaims ns false pvc) in
            Ret (match r with
                 | Err e => if IsAlreadyExists e then Ok tt else Err (Wrap "failed to create shared PVC" e)
                 | Ok _ => Ok tt
                 end)
        end
  | Ok _ =>
      Ret (match dp_claim_spec (wst_storage storage) with None => Err (Plain "invalid claimSpec") | Some _ => Ok tt end)
  end.

(** The storages in the order Go iterates their map.

    src/internal/workspace/provision.go:420-498 ensureSharedStorages *)
Fixpoint ensure_storages (ns prefix : string) (storages : list (string * WsStorage)) : prog api (answer unit) :=
  match storages with
  | [] => Ret (Ok tt)
  | (name, storage) :: storages =>
      if negb (st_Enabled (wst_storage storage)) || negb (String.eqb (st_Type (wst_storage storage)) "shared")
      then ensure_storages ns prefix storages
      else let? _ := ensure_shared ns prefix name storage in ensure_storages ns prefix storages
  end.

(** src/internal/workspace/provision.go:413-501 ensureSharedStorages *)
Definition ensureSharedStorages (w : Ws) (ns prefix : string) : prog api (answer unit) :=
  match wo_blueprint w with
  | None => Ret (Ok tt)
  | Some bp => ensure_storages ns prefix (dp_storages (b_Storages bp))
  end.

(** ** The headless service *)

(** src/internal/workspace/provision.go:504-544 createHeadlessService *)
Definition createHeadlessService (values : gmap string yvalue) : prog api (answer unit) :=
  let subdomain := string_or_empty (values !! "subdomain") in
  let hostname := string_or_empty (values !! "hostname") in
  if String.eqb subdomain "" || String.eqb hostname "" then Ret (Ok tt)
  else
    let service := mkObject subdomain
      (list_to_map [("app.kubernetes.io/managed-by", "k8shell-provisioner"); ("k8shell.io/subdomain", subdomain)]) ∅ ""
      (YMap [("clusterIP", YStr "None"); ("selector", YMap [("k8shell.io/subdomain", YStr subdomain)])]) in
    let! r := call (ObjCreate Services target_ns false service) in
    Ret (match r with
         | Err e => if IsAlreadyExists e then Ok tt else Err (Wrap "failed to create headless service" e)
         | Ok _ => Ok tt
         end).

(** ** The alias *)

(** The claim of the workspace brought in line with the alias it should have.

    src/internal/workspace/alias.go:322-329 reconcileWebProxyAlias *)
Definition reconcileWebProxyAlias (w : Ws) (desired : string) : prog api (answer (string * string)) :=
  call (AliasReconcile (match wo_user w with Some user => u_Organization user | None => "" end)
          (wo_Name w) (canonicalIdForCleanup w) desired).

(** src/internal/workspace/alias.go:334-345 emitWebProxyAliasWarning *)
Definition emitWebProxyAliasWarning (w : Ws) (opts : ProvisionOptions) (message : string) : prog api unit :=
  if String.eqb message "" || negb (po_Messages opts) then Ret tt
  else call (EmitEvents [StreamStatus (wo_Name w) WorkspaceStatusWarning message]).

(** ** Installing *)

(** src/internal/workspace/provision.go:316-327 doInstallation *)
Definition release_labels (w : Ws) (bp : WsBlueprint F X) (user : WsUser) : gmap string string :=
  let labels : gmap string string := list_to_map
    [("app.kubernetes.io/name", "k8shell-workspace"); ("app.kubernetes.io/instance", wo_Name w);
     (LabelAppVersion, appVersion bp); ("app.kubernetes.io/managed-by", "k8shell-provisioner");
     (LabelUsername, u_Username user); (LabelBlueprint, b_Name bp); (LabelOrganization, u_Organization user)] in
  if String.eqb (wo_blueprintRevision w) "" then labels else <[LabelBlueprintRevision := wo_blueprintRevision w]> labels.

(** The pod, once it runs or cannot. *)
Definition watch_start (w : Ws) (opts : ProvisionOptions) : prog api (answer WorkspaceStatus) :=
  let? snap := observe w (po_Messages opts) true in Ret (Ok (to_status snap)).

(** src/internal/workspace/provision.go:283-354 doInstallation *)
Definition doInstallation (w : Ws) (opts : ProvisionOptions) : prog api (answer WorkspaceStatus) :=
  let? w := wrapping "failed to create PAT" (MintPAT w (po_PATScopes opts)) in
  let? _ := wrapping "failed to ensure shared storages" (ensureSharedStorages w target_ns "") in
  match dp_values w, wo_blueprint w, wo_user w with
  | Err e, _, _ => Ret (Err e)
  | Ok values, Some bp, Some user =>
      let? hash := wrapping "failed to compute template hash" (TemplateHash w) in
      let values := <["__manifesthash__" := YStr hash]> values in
      let? _ := wrapping "failed to create headless service" (createHeadlessService values) in
      let? am := wrapping "failed to claim web-proxy alias"
                   (reconcileWebProxyAlias w (blueprintWebProxyAlias (b_WebProxyAlias bp))) in
      let values := <["__webproxyaliasmessage__" := YStr am.2]> (<["__webproxyalias__" := YStr am.1]> values) in
      let! _ := emitWebProxyAliasWarning w opts am.2 in
      let? _ := wrapping "failed to install workspace" (call (ReleaseInstall (wo_Name w) values (release_labels w bp user))) in
      watch_start w opts
  | Ok _, _, _ => Ret (Err (Plain "nil blueprint"))
  end.

(** ** Starting again *)

(** src/internal/workspace/update.go:693-708 stampHelmOwnership *)
Definition stampHelmOwnership (labels annotations : gmap string string) (releaseName ns : string)
    : gmap string string * gmap string string :=
  (<["app.kubernetes.io/managed-by" := "Helm"]> labels,
   <["meta.helm.sh/release-namespace" := ns]> (<["meta.helm.sh/release-name" := releaseName]> annotations)).

(** The pod of the release with the alias that is applied and Helm's metadata.

    src/internal/workspace/provision.go:384-390 doStart *)
Definition restarted_pod (w : Ws) (pod : WorkspacePod) (alias message : string) : WorkspacePod :=
  let '(labels, annotations) := applyWebProxyAliasToPod (wp_Labels pod) (wp_Annotations pod) alias message in
  let '(labels, annotations) := stampHelmOwnership labels annotations (wo_Name w) target_ns in
  set_labels pod labels annotations.

(** src/internal/helm/client.go:598-604 PodFromRelease *)
Definition PodFromRelease (name : string) : prog api (answer WorkspacePod) :=
  let? rel := call (ReleaseGet name) in Ret (PodManifestFromRelease dp_decode_pod (rel_Manifest rel)).

(** src/internal/workspace/provision.go:358-407 doStart *)
Definition doStart (w : Ws) (opts : ProvisionOptions) : prog api (answer WorkspaceStatus) :=
  let? w := wrapping "failed to create PAT" (MintPAT w (po_PATScopes opts)) in
  let? _ := wrapping "failed to refresh PAT secret" (RefreshPATSecret w) in
  let? pod := wrapping "failed to get pod manifest from release" (PodFromRelease (wo_Name w)) in
  let? am := wrapping "failed to claim web-proxy alias"
               (reconcileWebProxyAlias w (label (wp_Labels pod) "k8shell.io/web-proxy-alias")) in
  let! _ := emitWebProxyAliasWarning w opts am.2 in
  let? _ := wrapping "failed to create workspace pod" (call (PodCreate target_ns (restarted_pod w pod am.1 am.2))) in
  watch_start w opts.

(** ** Provisioning *)

(** src/internal/workspace/provision.go:140-177 provisionExisting *)
Definition provisionExisting (w : Ws) (opts : ProvisionOptions) (status : WorkspaceStatus)
    : prog api (answer WorkspaceStatus) :=
  let restart :=
    let? _ := WaitForPodGone w (po_Timeout opts) in
    let? installed := wrapping "failed to recheck if workspace exists" (IsInstalled w) in
    if installed : bool then doStart w opts else doInstallation w opts in
  match status_of status with
  | WorkspaceStatusProvisioning | WorkspaceStatusPulling => watch_start w opts
  | WorkspaceStatusNodeLost => Ret (Err (Wrap status.1.1.2 (Sentinel ErrNodeUnreachable)))
  | WorkspaceStatusStopping | WorkspaceStatusTerminating => restart
  | _ => let? _ := wrapping "failed to delete workspace pod" (StopPod w) in restart
  end.

(** What is done under the lock.

    src/internal/workspace/provision.go:110-133 Provision *)
Definition provision_locked (w : Ws) (opts : ProvisionOptions) : prog api (answer WorkspaceStatus) :=
  let? exists_ := wrapping "failed to recheck if workspace exists" (IsInstalled w) in
  if exists_ : bool then
    let! r := GetPodStatus w in
    match r with
    | Err e => if errors_is ErrWorkspaceNotFound e then doStart w opts else Ret (Err (Wrap "failed to recheck workspace status" e))
    | Ok status =>
        if bool_decide (status_of status = WorkspaceStatusRunning) then Ret (Ok status) else provisionExisting w opts status
    end
  else doInstallation w opts.

(** Whether the workspace needs no lock: it runs, or is being started.

    src/internal/workspace/provision.go:82-97 Provision *)
Definition provision_unlocked (w : Ws) (opts : ProvisionOptions) : prog api (option (answer WorkspaceStatus)) :=
  let! pre := IsInstalled w in
  match pre with
  | Ok true =>
      let! r := GetPodStatus w in
      match r with
      | Ok status =>
          match status_of status with
          | WorkspaceStatusRunning => Ret (Some (Ok status))
          | WorkspaceStatusProvisioning | WorkspaceStatusPulling => let! r := watch_start w opts in Ret (Some r)
          | _ => Ret None
          end
      | Err _ => Ret None
      end
  | _ => Ret None
  end.

(** src/internal/workspace/provision.go:70-80 Provision *)
Definition provision_options (opts : option ProvisionOptions) : ProvisionOptions :=
  match opts with
  | None => mkProvisionOptions 20 false 30 []
  | Some o => if Z.eqb (po_LockTimeout o) 0 then mkProvisionOptions (po_Timeout o) (po_Messages o) 30 (po_PATScopes o) else o
  end.

(** src/internal/workspace/provision.go:69-134 Provision *)
Definition Provision (w : Ws) (opts : option ProvisionOptions) : prog api (answer WorkspaceStatus) :=
  let opts := provision_options opts in
  let! pre := provision_unlocked w opts in
  match pre with
  | Some r => Ret r
  | None =>
      let! (w, r) := lock w (po_LockTimeout opts) in
      match r with
      | Err e => Ret (Err e)
      | Ok _ => let! r := provision_locked w opts in let! _ := unlock w in Ret r
      end
  end.
End provision.
