(* ===== verification/ProvisionSpec.v ===== *)
(** * What provisioning guarantees

    Theorems on Provision.v and Instance.v for every environment: an automaton
    follows the calls of the program with whatever they are answered. *)

From S2P Require Import Prelude GoStrings Yaml Podman PodState PodWatch Workspaces Alias Values Effects Calls Manifest HelmOps Instance Provision.

(** ** The calls of each operation *)

(** The calls that only look, at pods, time and releases, and tell the caller. *)
Definition looks {X} (e : api X) : bool :=
  match e with
  | PodGet _ _ | PodObserve _ _ _ | Clock | PollTick | EmitEvents _ | ChartTemplate _ _ => true
  | _ => false
  end.

(** The calls that make sure that shared claims and the service exist. *)
Definition ensures (ns : string) {X} (e : api X) : bool :=
  match e with
  | ObjGet PersistentVolumeClaims ns' _ => String.eqb ns' ns
  | ObjCreate (PersistentVolumeClaims | Services) ns' _ _ => String.eqb ns' ns
  | _ => false
  end.

Section calls.
Context {F X : Type} `{!Deployment F X}.
Implicit Types w : WorkspaceObj F X.

Lemma observe_looks w messages wait : only (@looks) (observe w messages wait).
Proof.
  unfold observe. repeat conform_step. unfold only. repeat conform_step. intros wd. cbn [looks].
  destruct (Watch _ _ _ _ _ _ _ _ _ _) as [out o]. repeat conform_step. intros []. done.
Qed.

Lemma GetPodStatus_looks w : only (@looks) (GetPodStatus w).
Proof. unfold GetPodStatus. apply only_bind; [apply observe_looks|]. intros [s|e]; done. Qed.

Lemma watch_start_looks w opts : only (@looks) (watch_start w opts).
Proof. unfold watch_start, try_bind. apply only_bind; [apply observe_looks|]. intros [s|e]; done. Qed.

Lemma EnsureNodeReachable_looks w : only (@looks) (EnsureNodeReachable w).
Proof. unfold EnsureNodeReachable. only_auto. Qed.

Lemma wait_gone_looks ticks w : only (@looks) (wait_gone ticks w).
Proof.
  induction ticks as [|ticks IH]; cbn [wait_gone]; unfold only; repeat conform_step; intros [pod|e]; cbn [looks];
    repeat conform_step; try done. intros []; cbn [looks]; [done|]. apply IH.
Qed.

Lemma WaitForPodGone_looks w timeout : only (@looks) (WaitForPodGone w timeout).
Proof. apply wait_gone_looks. Qed.

Lemma emit_looks w opts message : only (@looks) (emitWebProxyAliasWarning w opts message).
Proof. unfold emitWebProxyAliasWarning. only_auto. Qed.

Lemma TemplateHash_looks w : only (@looks) (TemplateHash w).
Proof.
  unfold TemplateHash, Template, try_bind. apply only_bind.
  - destruct (dp_values w); [|done]. unfold only. repeat conform_step. intros x. done.
  - intros [t|e]; done.
Qed.

Lemma ensure_shared_ensures ns prefix name storage : only (@ensures ns) (ensure_shared ns prefix name storage).
Proof.
  unfold only, ensure_shared. cbv zeta. repeat conform_step. intros [o|e]; cbn [ensures]; rewrite String.eqb_refl; [done|].
  repeat conform_step; try done. intros r; cbn [ensures]; rewrite String.eqb_refl. unfold mret, wrapping.
  repeat conform_step; try done. intros r'. cbn [ensures]. by rewrite String.eqb_refl.
Qed.

Lemma ensure_storages_ensures ns prefix storages : only (@ensures ns) (ensure_storages ns prefix storages).
Proof.
  induction storages as [|[name storage] storages IH]; cbn [ensure_storages]; [done|]. case_goal; [done|].
  unfold try_bind. apply only_bind; [apply ensure_shared_ensures|]. by intros [[]|e].
Qed.

Lemma ensureSharedStorages_ensures w ns prefix : only (@ensures ns) (ensureSharedStorages w ns prefix).
Proof. unfold ensureSharedStorages. destruct (wo_blueprint w); [apply ensure_storages_ensures|done]. Qed.

Lemma createHeadlessService_ensures values : only (@ensures target_ns) (createHeadlessService values).
Proof. unfold createHeadlessService. cbv zeta. case_goal; [done|]. unfold only. repeat conform_step. intros r. cbn [ensures]. by rewrite String.eqb_refl. Qed.
End calls.

(** ** The discipline of provisioning *)

(** Where a provisioning stands with its lock, and what it has learnt of the
    release since it holds it. *)
Inductive phase : Type :=
| Unlocked
| Held (installed : option bool)
| Over.

#[export] Instance phase_eq_dec : EqDecision phase.
Proof. solve_decision. Defined.

(** Nothing is changed but under the lock of this workspace; a release is only
    installed when there is none, a pod only created, labelled or deleted when
    there is one; no release is removed, and nothing but that pod is deleted (what
    [AliasReconcile] does to alias claims is in Alias.v). *)
Definition discipline {F X} `{!Deployment F X} (name : string) (st : phase) A (e : api A) : A -> judgement phase :=
  match e in api A return A -> judgement phase with
  | LockAcquire l _ => fun r =>
      if String.eqb l name && bool_decide (st = Unlocked)
      then Next (match r with Ok true => Held None | _ => Over end) else Forbidden
  | LockRelease l => fun _ =>
      match st with Held _ => if String.eqb l name then Next Over else Forbidden | _ => Forbidden end
  | ReleaseGet n => fun r =>
      match st with
      | Held i => if String.eqb n name
                  then Next (Held (match r with
                                   | Ok _ => Some true
                                   | Err e => if dp_says_not_found e then Some false else None
                                   end))
                  else Forbidden
      | _ => Next st
      end
  | ReleaseInstall n _ _ => fun _ => if String.eqb n name && bool_decide (st = Held (Some false)) then Next st else Forbidden
  | PodCreate ns _ => fun _ => if String.eqb ns target_ns && bool_decide (st = Held (Some true)) then Next st else Forbidden
  | PodPatch ns n _ | PodDelete ns n => fun _ =>
      if String.eqb ns target_ns && String.eqb n name && bool_decide (st = Held (Some true)) then Next st else Forbidden
  | ObjCreate (PersistentVolumeClaims | Services) ns _ _ => fun _ =>
      match st with Held _ => if String.eqb ns target_ns then Next st else Forbidden | _ => Forbidden end
  | ObjUpdate Secrets ns _ => fun _ =>
      match st with Held _ => if String.eqb ns target_ns then Next st else Forbidden | _ => Forbidden end
  | TokenCreate _ _ _ | AliasReconcile _ _ _ _ => fun _ => match st with Held _ => Next st | _ => Forbidden end
  | ObjGet _ _ _ | PodGet _ _ | PodObserve _ _ _ | Clock | PollTick | EmitEvents _ | ChartTemplate _ _ => fun _ => Next st
  | _ => fun _ => Forbidden
  end.

Section disciplined.
Context {F X : Type} `{!Deployment F X}.
Implicit Types w : WorkspaceObj F X.

Lemma looks_steady {R} name st (m : prog api R) Q : only (@looks) m -> (forall r, Q st r) -> conform (discipline name) m st Q.
Proof. intros Hm HQ. eapply steady; [exact Hm| |exact HQ]. intros A e x He. destruct e; try discriminate He; by left. Qed.

Lemma ensures_steady {R} name i (m : prog api R) Q :
  only (@ensures target_ns) m -> (forall r, Q (Held i) r) -> conform (discipline name) m (Held i) Q.
Proof.
  intros Hm HQ. eapply steady; [exact Hm| |exact HQ].
  intros A e x He. destruct e; try discriminate He; destruct k; try discriminate He; cbn [ensures] in He; cbn [discipline]; rewrite ?He; by left.
Qed.

(** One call that the discipline lets pass. *)
Ltac allowed :=
  repeat conform_step; intros ?; cbn [discipline]; rewrite ?String.eqb_refl, ?bool_decide_eq_true_2 by done; cbn [andb conform].

Lemma IsInstalled_discipline w i Q :
  Q (Held (Some true)) (Ok true) -> Q (Held (Some false)) (Ok false) -> (forall e, Q (Held None) (Err e)) ->
  conform (discipline (wo_Name w)) (IsInstalled w) (Held i) Q.
Proof.
  intros H1 H2 H3. unfold IsInstalled, releaseExists. allowed. destruct x as [rel|e]; [done|]. by destruct (dp_says_not_found e).
Qed.

Lemma IsInstalled_unlocked w Q : (forall r, Q Unlocked r) -> conform (discipline (wo_Name w)) (IsInstalled w) Unlocked Q.
Proof. intros H. unfold IsInstalled, releaseExists. allowed. destruct x as [rel|e]; [done|]. destruct (dp_says_not_found e); apply H. Qed.

Lemma MintPAT_discipline name w scopes i (Q : phase -> answer (WorkspaceObj F X) -> Prop) :
  (forall token, Q (Held i) (Ok (SetPAT token w))) -> (forall e, Q (Held i) (Err e)) ->
  conform (discipline name) (MintPAT w scopes) (Held i) Q.
Proof.
  intros H1 H2. unfold MintPAT. destruct (wo_user w); [|apply H2]. unfold try_bind, wrapping. allowed.
  destruct x as [token|e]; cbn; auto.
Qed.

Lemma SetPAT_name token w : wo_Name (SetPAT token w) = wo_Name w.
Proof. by destruct w. Qed.

Lemma RefreshPATSecret_discipline name w i Q : (forall r, Q (Held i) r) ->
  conform (discipline name) (RefreshPATSecret w) (Held i) Q.
Proof.
  intros H. unfold RefreshPATSecret, UpdatePATSecret, try_bind, wrapping. allowed.
  destruct x as [o|e]; cbn [res_wrap]; [|apply H]. allowed. apply H.
Qed.

Lemma reconcile_discipline name w alias i Q : (forall r, Q (Held i) r) ->
  conform (discipline name) (reconcileWebProxyAlias w alias) (Held i) Q.
Proof. intros H. unfold reconcileWebProxyAlias. allowed. apply H. Qed.

Lemma StopPod_discipline w Q : (forall r, Q (Held (Some true)) r) ->
  conform (discipline (wo_Name w)) (StopPod w) (Held (Some true)) Q.
Proof.
  intros H. unfold StopPod, try_bind, unless_gone. apply conform_bind.
  apply looks_steady; [apply EnsureNodeReachable_looks|]. intros [[]|e]; [|apply H].
  allowed. case_goal; [|apply H]. allowed. apply H.
Qed.

Lemma watch_start_discipline name w opts st (Q : phase -> answer WorkspaceStatus -> Prop) :
  (forall r, Q st r) -> conform (discipline name) (watch_start w opts) st Q.
Proof. apply looks_steady, watch_start_looks. Qed.

Lemma emit_discipline name w opts message st (Q : phase -> unit -> Prop) :
  Q st tt -> conform (discipline name) (emitWebProxyAliasWarning w opts message) st Q.
Proof. intros H. apply looks_steady; [apply emit_looks|]. by intros []. Qed.

(** Whatever a step under the lock is answered, the lock is still held. *)
Definition held (st : phase) : Prop := match st with Held _ => True | _ => False end.

Ltac or_done := intros [?|?]; [|done].

Lemma doInstallation_discipline w opts :
  conform (discipline (wo_Name w)) (doInstallation w opts) (Held (Some false)) (fun st _ => held st).
Proof.
  unfold doInstallation. apply conform_wrap, MintPAT_discipline; [|done]. intros token.
  rewrite <- (SetPAT_name token w). set (w' := SetPAT token w).
  apply conform_wrap, ensures_steady; [apply ensureSharedStorages_ensures|]. or_done.
  destruct (dp_values w') as [values|e], (wo_blueprint w') as [bp|], (wo_user w') as [user|]; try done.
  apply conform_wrap, looks_steady; [apply TemplateHash_looks|]. or_done. cbv zeta.
  apply conform_wrap, ensures_steady; [apply createHeadlessService_ensures|]. or_done.
  apply conform_wrap, reconcile_discipline. or_done.
  apply conform_bind, emit_discipline. apply conform_wrap. allowed. destruct x as [[]|e]; [|done].
  by apply watch_start_discipline.
Qed.

Lemma doStart_discipline w opts i :
  conform (discipline (wo_Name w)) (doStart w opts) (Held i) (fun st _ => held st).
Proof.
  unfold doStart. apply conform_wrap, MintPAT_discipline; [|done]. intros token.
  rewrite <- (SetPAT_name token w). set (w' := SetPAT token w).
  apply conform_wrap, RefreshPATSecret_discipline. or_done.
  apply conform_wrap. unfold PodFromRelease. apply conform_try. allowed. destruct x as [rel|e]; [|by destruct (dp_says_not_found e)].
  cbn [conform]. destruct (PodManifestFromRelease _ _) as [pod|e]; [|done].
  apply conform_wrap, reconcile_discipline. or_done.
  apply conform_bind, emit_discipline. apply conform_wrap. allowed. destruct x as [[]|e]; [|done].
  by apply watch_start_discipline.
Qed.

Lemma restart_discipline w opts i :
  conform (discipline (wo_Name w))
    (let? _ := WaitForPodGone w (po_Timeout opts) in
     let? installed := wrapping "failed to recheck if workspace exists" (IsInstalled w) in
     if installed : bool then doStart w opts else doInstallation w opts) (Held i) (fun st _ => held st).
Proof.
  apply conform_try, looks_steady; [apply WaitForPodGone_looks|]. or_done.
  apply conform_wrap, IsInstalled_discipline; [apply doStart_discipline|apply doInstallation_discipline|done].
Qed.

Lemma provision_locked_discipline w opts :
  conform (discipline (wo_Name w)) (provision_locked w opts) (Held None) (fun st _ => held st).
Proof.
  unfold provision_locked. apply conform_wrap, IsInstalled_discipline; [|apply doInstallation_discipline|done].
  apply conform_bind, looks_steady; [apply GetPodStatus_looks|]. intros [status|e].
  - case_bool_decide; [done|]. unfold provisionExisting. cbv zeta.
    destruct (status_of status); try apply restart_discipline; try by apply watch_start_discipline.
    all: try (apply conform_wrap, StopPod_discipline; or_done; apply restart_discipline). done.
  - case_goal; [apply doStart_discipline|done].
Qed.

Lemma provision_unlocked_discipline w opts Q : (forall r, Q Unlocked r) ->
  conform (discipline (wo_Name w)) (provision_unlocked w opts) Unlocked Q.
Proof.
  intros HQ. unfold provision_unlocked. apply conform_bind, IsInstalled_unlocked. intros [[]|e]; try apply HQ.
  apply conform_bind, looks_steady; [apply GetPodStatus_looks|]. intros [s|e]; [|apply HQ].
  destruct (status_of s); try apply HQ; apply conform_bind, watch_start_discipline; intros; apply HQ.
Qed.

(** *** Where the pod comes from *)

(** The release found last, the alias applied last, and each pod that was created
    with what they were then. *)
Record sources : Type := mkSources {
  so_rel : option Release;
  so_alias : option (string * string);
  so_made : list (option Release * option (string * string) * WorkspacePod);
}.

Definition answered {A} (r : answer A) : option A := match r with Ok a => Some a | Err _ => None end.

Definition sourcing (st : sources) A (e : api A) : A -> judgement sources :=
  match e in api A return A -> judgement sources with
  | ReleaseGet _ => fun r => Next (mkSources (answered r) (so_alias st) (so_made st))
  | AliasReconcile _ _ _ _ => fun r => Next (mkSources (so_rel st) (answered r) (so_made st))
  | PodCreate _ pod => fun _ => Next (mkSources (so_rel st) (so_alias st) ((so_rel st, so_alias st, pod) :: so_made st))
  | _ => fun _ => Next st
  end.

(** Each pod is the one in the manifest of the release found last, with the alias
    applied last and Helm's metadata. *)
Definition made_of (w : WorkspaceObj F X) (st : sources) : Prop :=
  Forall (fun '(rel, am, pod) => exists r a p,
    rel = Some r /\ am = Some a /\ PodManifestFromRelease dp_decode_pod (rel_Manifest r) = Ok p /\
    pod = restarted_pod w p a.1 a.2) (so_made st).
#[local] Notation sourced w m s := (conform sourcing m s (fun st _ => made_of w st)).

Definition creates_no_pod {A} (e : api A) : bool := match e with PodCreate _ _ => false | _ => true end.

Lemma no_pod_keeps {R} w (m : prog api R) st : only (@creates_no_pod) m -> made_of w st -> sourced w m st.
Proof. intros Hm Hst. eapply invariant_kept; [exact Hm|exact Hst|]. intros s A e x Hs He. by destruct e. Qed.

Lemma no_pod_then {A B} w (m : prog api A) (f : A -> prog api B) st :
  only (@creates_no_pod) m -> made_of w st -> (forall a st, made_of w st -> sourced w (f a) st) -> sourced w (m ≫= f) st.
Proof. intros Hm Hst Hf. eapply conform_seq; [by apply no_pod_keeps|]. intros st' a. apply Hf. Qed.

Lemma no_pod_try {A B} w (m : prog api (answer A)) (f : A -> prog api (answer B)) st :
  only (@creates_no_pod) m -> made_of w st -> (forall a st, made_of w st -> sourced w (f a) st) ->
  sourced w (try_bind m f) st.
Proof. intros Hm Hst Hf. by apply no_pod_then; [| |intros [a|e]]; [..|apply Hf|]. Qed.

Lemma try_no_pod {A B} (m : prog api (answer A)) (f : A -> prog api (answer B)) :
  only (@creates_no_pod) m -> (forall a, only (@creates_no_pod) (f a)) -> only (@creates_no_pod) (try_bind m f).
Proof. intros Hm Hf. apply only_bind; [exact Hm|]. intros [a|e]; [apply Hf|done]. Qed.

Lemma wrapping_no_pod {A} text (m : prog api (answer A)) : only (@creates_no_pod) m -> only (@creates_no_pod) (wrapping text m).
Proof. intros Hm. apply only_bind; [exact Hm|]. by intros []. Qed.

Lemma looks_no_pod {R} (m : prog api R) : only (@looks) m -> only (@creates_no_pod) m.
Proof. apply only_mono. intros A e. by destruct e. Qed.
Lemma ensures_no_pod {R} ns (m : prog api R) : only (@ensures ns) m -> only (@creates_no_pod) m.
Proof. apply only_mono. intros A e. by destruct e. Qed.
Lemma IsInstalled_no_pod w : only (@creates_no_pod) (IsInstalled w).
Proof. unfold IsInstalled, releaseExists. by only_auto. Qed.
Lemma MintPAT_no_pod w scopes : only (@creates_no_pod) (MintPAT w scopes).
Proof. unfold MintPAT. by only_auto. Qed.
Lemma RefreshPATSecret_no_pod w : only (@creates_no_pod) (RefreshPATSecret w).
Proof. unfold RefreshPATSecret, UpdatePATSecret. by only_auto. Qed.
Lemma reconcile_no_pod w alias : only (@creates_no_pod) (reconcileWebProxyAlias w alias).
Proof. unfold reconcileWebProxyAlias. by only_auto. Qed.
Lemma StopPod_no_pod w : only (@creates_no_pod) (StopPod w).
Proof. unfold StopPod, unless_gone. apply try_no_pod; [apply looks_no_pod, EnsureNodeReachable_looks|]. intros []. by only_auto. Qed.
Lemma watch_start_no_pod w opts : only (@creates_no_pod) (watch_start w opts).
Proof. apply looks_no_pod, watch_start_looks. Qed.

#[local] Hint Resolve IsInstalled_no_pod MintPAT_no_pod RefreshPATSecret_no_pod reconcile_no_pod StopPod_no_pod
  watch_start_no_pod wrapping_no_pod : no_pod.

Lemma doInstallation_no_pod w opts : only (@creates_no_pod) (doInstallation w opts).
Proof.
  unfold doInstallation. apply try_no_pod; [auto with no_pod|]. intros v.
  apply try_no_pod; [eapply wrapping_no_pod, ensures_no_pod, ensureSharedStorages_ensures|]. intros [].
  destruct (dp_values v) as [values|e], (wo_blueprint v) as [bp|], (wo_user v) as [user|]; try done.
  apply try_no_pod; [apply wrapping_no_pod, looks_no_pod, TemplateHash_looks|]. intros h. cbv zeta.
  apply try_no_pod; [eapply wrapping_no_pod, ensures_no_pod, createHeadlessService_ensures|]. intros [].
  apply try_no_pod; [auto with no_pod|]. intros am.
  apply only_bind; [apply looks_no_pod, emit_looks|]. intros [].
  apply try_no_pod; [by only_auto|]. intros []. auto with no_pod.
Qed.

Lemma MintPAT_sourced w scopes st :
  conform sourcing (MintPAT w scopes) st (fun st' r => st' = st /\ forall v, r = Ok v -> exists token, v = SetPAT token w).
Proof.
  unfold MintPAT. destruct (wo_user w); [|done]. apply conform_wrap. apply conform_call. intros [token|e]; [|done].
  cbn [conform]. split; [done|]. intros v [= <-]. by exists token.
Qed.

Lemma restarted_pod_token token w pod a m : restarted_pod (SetPAT token w) pod a m = restarted_pod w pod a m.
Proof. unfold restarted_pod. by rewrite SetPAT_name. Qed.

Lemma doStart_sourced w opts st : made_of w st -> sourced w (doStart w opts) st.
Proof.
  intros Hst. unfold doStart. apply conform_wrap. eapply conform_mono; [apply MintPAT_sourced|].
  intros ? [v|e] [-> Hv]; [|done]. destruct (Hv v eq_refl) as [token ->]. clear Hv.
  apply no_pod_try; [auto with no_pod|done|]. clear st Hst. intros _ st Hst.
  apply conform_wrap. unfold PodFromRelease. apply conform_try, conform_call. intros [rel|e]; [|done].
  cbn [sourcing answered conform]. destruct (PodManifestFromRelease _ _) as [pod|e] eqn:Hpod; [|done].
  apply conform_wrap. unfold reconcileWebProxyAlias. apply conform_call. intros [am|e]; [|done].
  cbn [sourcing answered so_rel so_made]. unfold emitWebProxyAliasWarning. apply conform_bind.
  assert (Hcreate : sourced w (let? _ := wrapping "failed to create workspace pod"
      (call (PodCreate target_ns (restarted_pod (SetPAT token w) pod am.1 am.2))) in watch_start (SetPAT token w) opts)
      (mkSources (Some rel) (Some am) (so_made st))).
  { apply conform_wrap, conform_call. intros r. cbn [sourcing so_rel so_alias so_made].
    assert (Hmade : made_of w (mkSources (Some rel) (Some am) ((Some rel, Some am, restarted_pod (SetPAT token w) pod am.1 am.2) :: so_made st))).
    { apply Forall_cons. split; [|exact Hst]. exists rel, am, pod. by rewrite restarted_pod_token. }
    destruct r as [[]|e]; [|exact Hmade]. apply no_pod_keeps; [apply watch_start_no_pod|exact Hmade]. }
  case_goal; [exact Hcreate|]. apply conform_call. intros []. exact Hcreate.
Qed.

Lemma restart_sourced w opts st : made_of w st ->
  sourced w (let? _ := WaitForPodGone w (po_Timeout opts) in
             let? installed := wrapping "failed to recheck if workspace exists" (IsInstalled w) in
             if installed : bool then doStart w opts else doInstallation w opts) st.
Proof.
  intros Hst. apply no_pod_try; [apply looks_no_pod, WaitForPodGone_looks|done|]. intros _ st' Hst'.
  apply no_pod_try; [auto with no_pod|done|]. intros [] st'' Hst''; [by apply doStart_sourced|].
  by apply no_pod_keeps; [apply doInstallation_no_pod|].
Qed.

Lemma provision_locked_sourced w opts st : made_of w st -> sourced w (provision_locked w opts) st.
Proof.
  intros Hst. unfold provision_locked. apply no_pod_try; [auto with no_pod|done|]. intros [] st' Hst'.
  2: { by apply no_pod_keeps; [apply doInstallation_no_pod|]. }
  apply no_pod_then; [apply looks_no_pod, GetPodStatus_looks|done|]. intros [status|e] st'' Hst''.
  - case_bool_decide; [done|]. unfold provisionExisting. cbv zeta.
    destruct (status_of status); try by apply restart_sourced.
    all: try (by apply no_pod_keeps; [apply watch_start_no_pod|]).
    all: try (apply no_pod_try; [auto with no_pod|done|]; intros _ ? ?; by apply restart_sourced). done.
  - case_goal; [by apply doStart_sourced|done].
Qed.

Lemma provision_unlocked_no_pod w opts : only (@creates_no_pod) (provision_unlocked w opts).
Proof.
  unfold provision_unlocked. apply only_bind; [apply IsInstalled_no_pod|]. intros [[]|e]; [|done..].
  apply only_bind; [apply looks_no_pod, GetPodStatus_looks|]. intros [s|e]; [|done].
  destruct (status_of s); try done; (apply only_bind; [apply watch_start_no_pod|done]).
Qed.

Lemma made_of_locked l w st : made_of (set_locked l w) st <-> made_of w st.
Proof.
  unfold made_of. split; intros H; (eapply Forall_impl; [exact H|]);
    intros [[rel am] pod] (r & a & p & ? & ? & ? & ->); exists r, a, p; by destruct w.
Qed.

Lemma Provision_sourced w opts : wo_locked w = false -> sourced w (Provision w opts) (mkSources None None []).
Proof.
  intros Hl. unfold Provision. cbv zeta. apply no_pod_then; [apply provision_unlocked_no_pod|constructor|].
  intros [r|] st Hst; [done|]. unfold lock. rewrite Hl. apply conform_bind, conform_bind, conform_call. intros r.
  cbn [sourcing conform]. destruct r as [[]|e]; [|done..]. apply conform_bind.
  eapply conform_mono; [by apply provision_locked_sourced, made_of_locked|].
  intros st' r Hst'%made_of_locked. apply no_pod_keeps; [|done]. unfold unlock. by only_auto.
Qed.

(** C2. Provisioning is disciplined, whatever the cluster and the services answer.
    It asks for the workspace's own lock at most once, changes something only
    between being granted it and asking for its release, and always asks for that
    release (which may fail, and is then only logged; the lease expires). It
    installs the release only when the last lookup under the lock found none, and
    creates, labels or deletes only the pod of that name, only when that lookup
    found the release; a pod it creates is the one in the manifest of the release
    it read last, with the alias it was granted last and Helm's metadata. Besides
    that it creates volume claims and services, updates a secret, mints a token
    and reconciles the alias claim (which may give back other alias claims of the
    workspace, Alias.v): it removes no release, no volume claim and no object
    other than that pod. *)
Theorem Provision_disciplined w opts :
  wo_locked w = false ->
  conform (discipline (wo_Name w)) (Provision w opts) Unlocked (fun st _ => ~ held st) /\
  sourced w (Provision w opts) (mkSources None None []).
Proof.
  intros Hl. split; [|by apply Provision_sourced].
  unfold Provision. cbv zeta. apply conform_bind, provision_unlocked_discipline.
  intros [r|]; [by intros []|]. apply conform_bind. unfold lock. rewrite Hl. allowed.
  destruct x as [[]|e]; [|by intros []..].
  assert (Hn : wo_Name (set_locked true w) = wo_Name w) by by destruct w.
  rewrite <- Hn. apply conform_bind. eapply conform_mono; [apply provision_locked_discipline|].
  intros [|i|] r; [done| |done]. intros _. unfold unlock.
  assert (wo_locked (set_locked true w) = true) as -> by by destruct w. allowed. by intros [].
Qed.
End disciplined.

(** ** What is handed to the pod *)

Definition text_is (o : option yvalue) (t : string) : bool :=
  match o with Some (YStr s) => String.eqb s t | _ => false end.

(** The token in the data of a secret. *)
Definition secret_token (body : yvalue) : option yvalue :=
  match body with
  | YMap m => match yfield "data" m with YMap d => Some (yfield "token" d) | _ => None end
  | _ => None
  end.

(** The token minted last, whether the workspace's secret holds it, and the alias
    that was claimed last. *)
Record handover : Type := mkHandover {
  ho_token : option string;
  ho_secret : bool;
  ho_alias : option string;
}.

(** A release is installed with, and a pod created after, a token minted for this
    workspace and an alias that was reconciled, and with these. *)
Definition hands_over {F X} `{!Deployment F X} (username id : string) (st : handover) A (e : api A) : A -> judgement handover :=
  match e in api A return A -> judgement handover with
  | TokenCreate u n _ => fun r =>
      if String.eqb u username && String.eqb n id
      then Next (match r with Ok t => mkHandover (Some t) false (ho_alias st) | Err _ => st end) else Forbidden
  | ObjUpdate Secrets _ o => fun r =>
      match ho_token st with
      | Some t => if text_is (secret_token (obj_body o)) t
                  then Next (mkHandover (Some t) (ho_secret st || is_ok r) (ho_alias st)) else Forbidden
      | None => Forbidden
      end
  | AliasReconcile _ _ _ _ => fun r =>
      Next (match r with Ok am => mkHandover (ho_token st) (ho_secret st) (Some am.1) | Err _ => st end)
  | ReleaseInstall _ v _ => fun _ =>
      match ho_token st, ho_alias st with
      | Some t, Some a => if text_is (v !! "__pat__") t && text_is (v !! "__webproxyalias__") a then Next st else Forbidden
      | _, _ => Forbidden
      end
  | PodCreate _ pod => fun _ =>
      match ho_token st, ho_alias st with
      | Some _, Some a => if ho_secret st && String.eqb (label (wp_Labels pod) "k8shell.io/web-proxy-alias") a &&
                             String.eqb (label (wp_Labels pod) "app.kubernetes.io/managed-by") "Helm"
                          then Next st else Forbidden
      | _, _ => Forbidden
      end
  | _ => fun _ => Next st
  end.

Lemma yfield_yset k key v m : yfield k (yset key v m) = if String.eqb k key then v else yfield k m.
Proof.
  unfold yset. induction m as [|[k' v'] m IH]; cbn; [by rewrite String.eqb_sym|].
  destruct (String.eqb_spec k' key) as [->|Hne]; cbn; rewrite IH; [rewrite (String.eqb_sym key k); by case_goal|].
  destruct (String.eqb_spec k' k) as [->|]; [|done]. by apply String.eqb_neq in Hne as ->.
Qed.

Lemma token_data_token token body : text_is (secret_token (token_data token body)) token = true.
Proof. destruct body; cbn; rewrite ?yfield_yset; cbn; apply String.eqb_refl. Qed.

Lemma restarted_pod_labels {F X} `{!Deployment F X} (w : WorkspaceObj F X) pod alias message :
  label (wp_Labels (restarted_pod w pod alias message)) "k8shell.io/web-proxy-alias" = alias /\
  label (wp_Labels (restarted_pod w pod alias message)) "app.kubernetes.io/managed-by" = "Helm".
Proof.
  unfold restarted_pod, applyWebProxyAliasToPod, stampHelmOwnership, label. destruct pod as [[]]. unfold wp_Labels. cbn [wp_Pod set_labels PodState.p_Labels].
  rewrite lookup_insert_eq, lookup_insert_ne by done.
  destruct (String.eqb_spec alias "") as [->|]; [by rewrite lookup_delete_eq|]. by rewrite lookup_insert_eq.
Qed.

Section handed_over.
Context {F X : Type} `{!Deployment F X}.
Implicit Types w : WorkspaceObj F X.
Context (values_pat : forall w v, dp_values w = Ok v -> v !! "__pat__" = Some (YStr (wo_pat w))).

Lemma looks_handed {R} u id st (m : prog api R) Q : only (@looks) m -> (forall r, Q st r) -> conform (hands_over u id) m st Q.
Proof. intros Hm HQ. eapply steady; [exact Hm| |exact HQ]. intros A e x He. destruct e; try discriminate He; by left. Qed.

Lemma ensures_handed {R} u id st (m : prog api R) Q :
  only (@ensures target_ns) m -> (forall r, Q st r) -> conform (hands_over u id) m st Q.
Proof. intros Hm HQ. eapply steady; [exact Hm| |exact HQ]. intros A e x He. destruct e; try discriminate He; destruct k; try discriminate He; by left. Qed.

Ltac handed := repeat conform_step; intros ?; cbn [hands_over ho_token ho_alias ho_secret].
Ltac or_done := intros [?|?]; [|done].

Definition anything {A} (_ : handover) (_ : A) : Prop := True.

Lemma IsInstalled_handed u id w st Q : (forall r, Q st r) -> conform (hands_over u id) (IsInstalled w) st Q.
Proof. intros H. unfold IsInstalled, releaseExists. handed. cbn. destruct x as [rel|e]; [apply H|]. destruct (dp_says_not_found e); apply H. Qed.

Lemma MintPAT_handed w user scopes st (Q : handover -> answer (WorkspaceObj F X) -> Prop) :
  wo_user w = Some user ->
  (forall token, Q (mkHandover (Some token) false (ho_alias st)) (Ok (SetPAT token w))) -> (forall e, Q st (Err e)) ->
  conform (hands_over (u_Username user) (wo_canonicalId w)) (MintPAT w scopes) st Q.
Proof.
  intros Hu H1 H2. unfold MintPAT. rewrite Hu. apply conform_wrap. handed. rewrite !String.eqb_refl. cbn [andb conform].
  destruct x; cbn; auto.
Qed.

Lemma SetPAT_user token w : wo_user (SetPAT token w) = wo_user w.
Proof. by destruct w. Qed.
Lemma SetPAT_canonicalId token w : wo_canonicalId (SetPAT token w) = wo_canonicalId w.
Proof. by destruct w. Qed.
Lemma SetPAT_pat token w : wo_pat (SetPAT token w) = token.
Proof. by destruct w. Qed.

Lemma reconcile_handed u id w alias st Q : (forall e, Q st (Err e)) ->
  (forall am, Q (mkHandover (ho_token st) (ho_secret st) (Some am.1)) (Ok am)) ->
  conform (hands_over u id) (reconcileWebProxyAlias w alias) st Q.
Proof. intros H1 H2. unfold reconcileWebProxyAlias. handed. destruct x; auto. Qed.

Lemma doInstallation_handed w user opts st : wo_user w = Some user ->
  conform (hands_over (u_Username user) (wo_canonicalId w)) (doInstallation w opts) st anything.
Proof using values_pat.
  intros Hu. unfold doInstallation. eapply conform_wrap, MintPAT_handed; [done| |done]. intros token.
  set (w' := SetPAT token w).
  apply conform_wrap, ensures_handed; [apply ensureSharedStorages_ensures|]. or_done.
  destruct (dp_values w') as [values|e] eqn:Ev, (wo_blueprint w') as [bp|], (wo_user w') as [user'|]; try done.
  apply conform_wrap, looks_handed; [apply TemplateHash_looks|]. or_done. cbv zeta.
  apply conform_wrap, ensures_handed; [apply createHeadlessService_ensures|]. or_done.
  apply conform_wrap, reconcile_handed; [done|]. intros am.
  apply conform_bind, looks_handed; [apply emit_looks|]. intros _. apply conform_wrap. handed.
  rewrite !lookup_insert_ne, lookup_insert_eq by done. apply values_pat in Ev. rewrite Ev. unfold w' at 1. rewrite SetPAT_pat.
  cbn [text_is]. rewrite !String.eqb_refl. cbn [andb conform]. destruct x as [[]|e]; [|done].
  by apply looks_handed; [apply watch_start_looks|].
Qed.

Lemma doStart_handed w user opts st : wo_user w = Some user ->
  conform (hands_over (u_Username user) (wo_canonicalId w)) (doStart w opts) st anything.
Proof.
  intros Hu. unfold doStart. eapply conform_wrap, MintPAT_handed; [done| |done]. intros token.
  set (w' := SetPAT token w). apply conform_wrap. unfold RefreshPATSecret, UpdatePATSecret. apply conform_wrap.
  handed. destruct x as [o|e]; [|done]. unfold wrapping. handed. unfold w' at 1. rewrite SetPAT_pat.
  cbn [with_body obj_body]. rewrite token_data_token. cbn [conform ho_alias]. destruct x as [[]|e]; cbn [res_wrap]; [|done]. cbn [is_ok].
  apply conform_wrap. unfold PodFromRelease. apply conform_try. handed. destruct x as [rel|e]; [|done]. cbn [conform].
  destruct (PodManifestFromRelease _ _) as [pod|e]; [|done].
  apply conform_wrap, reconcile_handed; [done|]. intros am.
  apply conform_bind, looks_handed; [apply emit_looks|]. intros _. apply conform_wrap. handed. cbn [orb andb].
  destruct (restarted_pod_labels w' pod am.1 am.2) as [-> ->]. rewrite !String.eqb_refl. cbn [andb conform].
  destruct x as [[]|e]; [|done]. by apply looks_handed; [apply watch_start_looks|].
Qed.

Lemma set_locked_user l w : wo_user (set_locked l w) = wo_user w.
Proof. by destruct w. Qed.
Lemma set_locked_name l w : wo_Name (set_locked l w) = wo_Name w.
Proof. by destruct w. Qed.
Lemma set_locked_canonicalId l w : wo_canonicalId (set_locked l w) = wo_canonicalId w.
Proof. by destruct w. Qed.

Lemma restart_handed w user opts st : wo_user w = Some user ->
  conform (hands_over (u_Username user) (wo_canonicalId w))
    (let? _ := WaitForPodGone w (po_Timeout opts) in
     let? installed := wrapping "failed to recheck if workspace exists" (IsInstalled w) in
     if installed : bool then doStart w opts else doInstallation w opts) st anything.
Proof using values_pat.
  intros Hu. apply conform_try, looks_handed; [apply WaitForPodGone_looks|]. or_done.
  apply conform_wrap, IsInstalled_handed. intros [[]|e]; [by apply doStart_handed|by apply doInstallation_handed|done].
Qed.

Lemma StopPod_handed u id w st Q : (forall r, Q st r) -> conform (hands_over u id) (StopPod w) st Q.
Proof.
  intros H. unfold StopPod, unless_gone. apply conform_try, looks_handed; [apply EnsureNodeReachable_looks|]. intros [[]|e]; [|apply H].
  apply conform_try. handed. cbn. destruct x as [[]|e]; [|case_goal]; cbn; auto.
Qed.

Lemma provision_locked_handed w user opts st : wo_user w = Some user ->
  conform (hands_over (u_Username user) (wo_canonicalId w)) (provision_locked w opts) st anything.
Proof using values_pat.
  intros Hu. unfold provision_locked. apply conform_wrap, IsInstalled_handed. intros [[]|e]; [|by apply doInstallation_handed|done].
  apply conform_bind, looks_handed; [apply GetPodStatus_looks|]. intros [status|e].
  - case_bool_decide; [done|]. unfold provisionExisting. cbv zeta.
    destruct (status_of status); try by apply restart_handed.
    all: try (by apply looks_handed; [apply watch_start_looks|]).
    all: try (apply conform_wrap, StopPod_handed; or_done; by apply restart_handed). done.
  - case_goal; [by apply doStart_handed|done].
Qed.

(** What provisioning hands over, whatever is answered: the only token it mints
    is for this user and workspace; a release is installed with exactly the token
    minted last and the alias the workspace was granted last; a pod is created
    again only after the workspace's secret has been updated to that token, with
    the granted alias as its label and as part of the Helm release. *)
Theorem Provision_hands_over w user opts :
  wo_user w = Some user ->
  conform (hands_over (u_Username user) (wo_canonicalId w)) (Provision w opts) (mkHandover None false None) anything.
Proof using values_pat.
  intros Hu. unfold Provision. cbv zeta. apply conform_bind. unfold provision_unlocked.
  apply conform_bind, IsInstalled_handed. intros r.
  assert (Hlocked : conform (hands_over (u_Username user) (wo_canonicalId w))
    (let! (w, r) := lock w (po_LockTimeout (provision_options opts)) in
      match r with
      | Err e => Ret (Err e)
      | Ok _ => let! r := provision_locked w (provision_options opts) in let! _ := unlock w in Ret r
      end) (mkHandover None false None) anything).
  { apply conform_bind. unfold lock. destruct (wo_locked w).
    - cbn [conform]. eapply conform_seq; [by apply provision_locked_handed|]. intros st r' _. unfold unlock. case_goal; [|done].
      handed. done.
    - handed. destruct x as [[]|e]; [|done..]. cbn [conform].
      rewrite <- (set_locked_canonicalId true w). eapply conform_seq; [apply provision_locked_handed; by rewrite set_locked_user|].
      intros st r' _. unfold unlock. case_goal; [|done]. handed. done. }
  destruct r as [[]|e]; [|done..]. apply conform_bind, looks_handed; [apply GetPodStatus_looks|].
  intros [s|e]; [|done]. destruct (status_of s); try done;
    (apply conform_bind, looks_handed; [apply watch_start_looks|done]).
Qed.
End handed_over.

(** ** A healthy environment *)

(** The snapshot of a single look at a pod. *)
Definition seen {F X} `{!Deployment F X} (wd : watched) (pod : Pod) : PodStateSnapshot :=
  ready_message (AnalyzePod (Some pod) (watched_events pod (wd_podEvents wd) (wd_pvcEvents wd)) defaultCrashLoopThreshold (wd_now wd))
    (wd_now wd).

(** What a look returns. *)
Lemma observe_once {F X} `{!Deployment F X} name messages events wd inputs :
  watch_result (Watch name defaultCrashLoopThreshold messages events (wd_pod wd) (wd_podEvents wd) (wd_pvcEvents wd)
                  (wd_now wd) false inputs).2 =
  match wd_pod wd with
  | None => Err (Plain "workspace pod")
  | Some None => Err (Wrap name (Sentinel ErrWorkspaceNotFound))
  | Some (Some pod) => match CriticalErr (seen wd pod) with Some m => Err (Plain m) | None => Ok (seen wd pod) end
  end.
Proof.
  unfold Watch, seen. destruct (wd_pod wd) as [[pod|]|]; [|done..]. cbv zeta. cbn [negb snd].
  by destruct (CriticalErr (ready_message _ _)).
Qed.

(** Whether the pod is being deleted, whether the release was found, and how many
    more looks may still find the pod that is being deleted. *)
Record health : Type := mkHealth {
  he_deleting : bool;
  he_installed : option bool;
  he_lingers : nat;
}.
Definition set_deleting (d : bool) (st : health) : health := mkHealth d (he_installed st) (he_lingers st).
Definition set_installed (i : bool) (st : health) : health := mkHealth (he_deleting st) (Some i) (he_lingers st).

(** Every call works, the lock is free, a pod that is being deleted is found at
    most so many times more and then gone, a pod that is watched gets to run, and
    no pod is lost with its node or beyond recovery; nobody else installs or
    removes the release. A pod must not be created while the old one is there. *)
Definition healthy {F X} `{!Deployment F X} (w : WorkspaceObj F X) (messages : bool) (st : health) A (e : api A)
    : A -> judgement health :=
  match e in api A return A -> judgement health with
  | LockAcquire _ _ => fun r => match r with Ok true => Next st | _ => Excluded end
  | ReleaseGet _ => fun r =>
      match r with
      | Ok rel => if is_ok (PodManifestFromRelease dp_decode_pod (rel_Manifest rel)) && negb (bool_decide (he_installed st = Some false))
                  then Next (set_installed true st) else Excluded
      | Err e => if dp_says_not_found e && negb (bool_decide (he_installed st = Some true)) then Next (set_installed false st) else Excluded
      end
  | TokenCreate _ _ _ => fun r => if is_ok r then Next st else Excluded
  | ChartTemplate _ _ => fun r => if is_ok r then Next st else Excluded
  | ObjGet PersistentVolumeClaims _ _ => fun r => match r with Ok _ => Next st | Err e => if IsNotFound e then Next st else Excluded end
  | ObjGet _ _ _ => fun r => if is_ok r then Next st else Excluded
  | ObjCreate _ _ true _ => fun r => if is_ok r then Next st else Excluded
  | ObjCreate _ _ false _ => fun r =>
      match r with Ok _ => Next st | Err e => if IsAlreadyExists e then Next st else Excluded end
  | ObjUpdate _ _ _ | ReleaseInstall _ _ _ => fun r => if is_ok r then Next st else Excluded
  | AliasReconcile _ _ _ _ => fun r => if is_ok r then Next st else Excluded
  | PodPatch _ _ _ => fun r => if is_ok r then Next st else Excluded
  | PodCreate _ _ => fun r => if he_deleting st then Forbidden else if is_ok r then Next st else Excluded
  | PodDelete _ _ => fun r => if is_ok r then Next (set_deleting true st) else Excluded
  | PodGet _ _ => fun r =>
      match r with
      | Ok pod =>
          if he_deleting st
          then match he_lingers st with
               | O => Excluded
               | S n => Next (mkHealth true (he_installed st) n)
               end
          else if bool_decide (is_Some (DeletionTimestamp (wp_Pod pod))) then Excluded else Next st
      | Err e => if IsNotFound e then Next (set_deleting false st) else Excluded
      end
  | PollTick => fun ended => if ended then Excluded else Next st
  | PodObserve _ _ false => fun wd =>
      match wd_pod wd with
      | None => Excluded
      | Some None => Next (set_deleting false st)
      | Some (Some pod) =>
          match CriticalErr (seen wd pod), Status (seen wd pod) with
          | Some _, _ | _, WorkspaceStatusNodeLost => Excluded
          | None, (WorkspaceStatusStopping | WorkspaceStatusTerminating) => Next (set_deleting true st)
          | None, _ => Next (set_deleting false st)
          end
      end
  | PodObserve _ _ true => fun wd =>
      match watch_result (Watch (wo_Name w) defaultCrashLoopThreshold messages dp_events (wd_pod wd) (wd_podEvents wd)
              (wd_pvcEvents wd) (wd_now wd) true (wd_inputs wd ++ [(wd_now wd, CtxDone)])).2 with
      | Ok s => if bool_decide (Status s = WorkspaceStatusRunning) then Next st else Excluded
      | Err _ => Excluded
      end
  | _ => fun _ => Next st
  end.

(** The polls of a timeout in seconds, two a second. *)
Definition polls (timeout : Z) : nat := Z.to_nat (2 * if (timeout <=? 0)%Z then 20 else timeout).

Section works.
Context {F X : Type} `{!Deployment F X}.
Context (w : WorkspaceObj F X) (messages : bool).
#[local] Notation ok := (conform (healthy w messages)).
(** Another object of the same workspace, as [SetPAT] and [lock] make them. *)
Implicit Types v : WorkspaceObj F X.

Ltac called x := repeat conform_step; intros x; cbn [healthy].
Definition runs (_ : health) (r : answer WorkspaceStatus) : Prop := exists s, r = Ok s /\ status_of s = WorkspaceStatusRunning.

Lemma watch_start_ok v opts b : po_Messages opts = messages -> wo_Name v = wo_Name w -> ok (watch_start v opts) b runs.
Proof.
  intros Hm Hn. unfold watch_start, observe. apply conform_try. called x.
  rewrite Hm, Hn. destruct (Watch _ _ _ _ _ _ _ _ _ _) as [out o]. cbn [snd].
  destruct (watch_result o) as [s|e]; [|done]. case_bool_decide as Hs; [|done].
  called y. cbn [conform]. exists (to_status s). by split.
Qed.

Lemma GetPodStatus_ok v b (Q : health -> answer WorkspaceStatus -> Prop) :
  (forall s, status_of s = WorkspaceStatusStopping \/ status_of s = WorkspaceStatusTerminating -> Q (set_deleting true b) (Ok s)) ->
  (forall s, status_of s <> WorkspaceStatusStopping -> status_of s <> WorkspaceStatusTerminating ->
     status_of s <> WorkspaceStatusNodeLost -> Q (set_deleting false b) (Ok s)) ->
  (forall name, Q (set_deleting false b) (Err (Wrap name (Sentinel ErrWorkspaceNotFound)))) ->
  ok (GetPodStatus v) b Q.
Proof.
  intros H1 H2 H3. unfold GetPodStatus, observe. called x.
  pose proof (observe_once (wo_Name v) false dp_events x (wd_inputs x ++ [(wd_now x, CtxDone)])) as Ho.
  destruct (Watch _ _ _ _ _ _ _ _ _ _) as [out o]. cbn [snd] in Ho. rewrite Ho.
  destruct (wd_pod x) as [[pod|]|]; [|called y; apply H3|done].
  destruct (CriticalErr (seen x pod)); [done|].
  destruct (Status (seen x pod)) eqn:Hs; try done; called y;
    (apply H1; cbn; rewrite Hs; auto; done) || (apply H2; cbn; rewrite Hs; done).
Qed.

Lemma IsInstalled_ok v b (Q : health -> answer bool -> Prop) :
  (forall i, he_installed b <> Some (negb i) -> Q (set_installed i b) (Ok i)) -> ok (IsInstalled v) b Q.
Proof.
  intros H. unfold IsInstalled, releaseExists. called x. destruct x as [rel|e].
  - destruct (is_ok _ && _) eqn:Hx; [|done]. bool_simpl. by apply (H true).
  - destruct (dp_says_not_found e) eqn:He; [|done]. cbn [andb]. case_bool_decide; [done|]. cbn [negb conform]. rewrite ?He. by apply (H false).
Qed.

Lemma MintPAT_ok v scopes b (Q : health -> answer (WorkspaceObj F X) -> Prop) :
  is_Some (wo_user v) -> (forall token, Q b (Ok (SetPAT token v))) -> ok (MintPAT v scopes) b Q.
Proof.
  intros [user Hu] H. unfold MintPAT. rewrite Hu. apply conform_wrap. called x. destruct x as [token|]; [|done].
  cbn [is_ok conform]. apply H.
Qed.

Lemma RefreshPATSecret_ok v b (Q : health -> answer unit -> Prop) : Q b (Ok tt) -> ok (RefreshPATSecret v) b Q.
Proof.
  intros H. unfold RefreshPATSecret, UpdatePATSecret. apply conform_wrap. called x. destruct x as [o|]; [|done]. cbn [is_ok].
  unfold wrapping. called y. by destruct y as [[]|].
Qed.

Lemma ensure_storages_ok ns prefix storages b (Q : health -> answer unit -> Prop) :
  (forall st, is_Some (dp_claim_spec st)) -> Q b (Ok tt) -> ok (ensure_storages ns prefix storages) b Q.
Proof.
  intros Hc HQ. induction storages as [|[name storage] storages IH]; cbn [ensure_storages]; [done|]. case_goal; [done|].
  apply conform_try. unfold ensure_shared. cbv zeta. destruct (Hc (wst_storage storage)) as [spec ->]. called x.
  destruct x as [o|e]; [exact IH|]. destruct (IsNotFound e) eqn:He; [|done]. cbn [conform]. rewrite ?He. cbn [negb].
  apply conform_wrap. called y. destruct y as [[]|]; [|done]. cbn [is_ok]. called z.
  destruct z as [[]|e']; [exact IH|]. destruct (IsAlreadyExists e') eqn:He'; [|done]. cbn [conform]. rewrite ?He'. exact IH.
Qed.

Lemma createHeadlessService_ok values b (Q : health -> answer unit -> Prop) : Q b (Ok tt) -> ok (createHeadlessService values) b Q.
Proof.
  intros H. unfold createHeadlessService. cbv zeta. case_goal; [done|]. called x.
  destruct x as [[]|e]; [done|]. destruct (IsAlreadyExists e) eqn:He; [|done]. cbn [conform]. rewrite ?He; done.
Qed.

Lemma reconcile_ok v alias b (Q : health -> answer (string * string) -> Prop) : (forall am, Q b (Ok am)) -> ok (reconcileWebProxyAlias v alias) b Q.
Proof. intros H. unfold reconcileWebProxyAlias. called x. destruct x as [am|]; [|done]. apply H. Qed.

Lemma emit_ok v opts message b (Q : health -> unit -> Prop) : Q b tt -> ok (emitWebProxyAliasWarning v opts message) b Q.
Proof. intros H. unfold emitWebProxyAliasWarning. case_goal; [done|]. called x. by destruct x. Qed.

Context (Huser : is_Some (wo_user w)) (Hblueprint : is_Some (wo_blueprint w)).
Context (Hvalues : forall token l, is_ok (dp_values (SetPAT token (set_locked l w))) = true).
Context (Hclaims : forall st, is_Some (dp_claim_spec st)).

Lemma doInstallation_ok opts b : po_Messages opts = messages -> ok (doInstallation (set_locked true w) opts) b runs.
Proof using Huser Hblueprint Hvalues Hclaims.
  intros Hm. unfold doInstallation. apply conform_wrap, MintPAT_ok; [by rewrite set_locked_user|]. intros token.
  specialize (Hvalues token true). set (v := SetPAT token (set_locked true w)) in *.
  assert (Hn : wo_Name v = wo_Name w) by (unfold v; by rewrite SetPAT_name, set_locked_name).
  apply conform_wrap. unfold ensureSharedStorages.
  destruct (wo_blueprint v) as [bp|] eqn:Hb; [|exfalso; unfold v in Hb; destruct Hblueprint, w; cbn in *; congruence].
  destruct (wo_user v) as [user|] eqn:Hu; [|exfalso; unfold v in Hu; destruct Huser, w; cbn in *; congruence].
  apply ensure_storages_ok; [done|].
  destruct (dp_values v) as [values|] eqn:Hv; [|done].
  apply conform_wrap. unfold TemplateHash. apply conform_try. unfold Template. rewrite Hv. called x.
  destruct x as [manifest|]; [|done]. cbn [is_ok conform]. cbv zeta.
  apply conform_wrap, createHeadlessService_ok. apply conform_wrap, reconcile_ok. intros am.
  apply conform_bind, emit_ok. apply conform_wrap. called x. destruct x as [[]|]; [|done]. cbn [is_ok].
  by apply watch_start_ok.
Qed.

Lemma doStart_ok opts b : po_Messages opts = messages -> he_installed b = Some true -> he_deleting b = false -> ok (doStart (set_locked true w) opts) b runs.
Proof using Huser.
  intros Hm Hi Hd. unfold doStart. apply conform_wrap, MintPAT_ok; [by rewrite set_locked_user|]. intros token.
  set (v := SetPAT token (set_locked true w)). assert (Hn : wo_Name v = wo_Name w) by (unfold v; by rewrite SetPAT_name, set_locked_name).
  apply conform_wrap, RefreshPATSecret_ok. apply conform_wrap. unfold PodFromRelease. apply conform_try. called x.
  rewrite Hi. destruct x as [rel|e]; [|by rewrite andb_false_r].
  destruct (PodManifestFromRelease dp_decode_pod (rel_Manifest rel)) as [pod|] eqn:Hp; [|done].
  cbn [is_ok andb negb]. rewrite bool_decide_eq_false_2 by done. cbn [conform negb]. rewrite ?Hp. apply conform_wrap, reconcile_ok. intros am.
  apply conform_bind, emit_ok. apply conform_wrap. called y. cbn [set_installed he_deleting]. rewrite Hd.
  destruct y as [[]|]; [|done]. cbn [is_ok]. by apply watch_start_ok.
Qed.

Lemma StopPod_ok v b (Q : health -> answer unit -> Prop) :
  he_deleting b = false -> Q (set_deleting true b) (Ok tt) -> ok (StopPod v) b Q.
Proof.
  intros Hb H. unfold StopPod, EnsureNodeReachable. apply conform_try. called x.
  assert (Hrest : ok (let? _ := unless_gone "failed to label workspace pod as stopping"
      (call (PodPatch target_ns (wo_Name v) (mkMetaPatch [(LabelStopRequested, Some "true")] []))) in
      unless_gone "failed to stop workspace pod" (call (PodDelete target_ns (wo_Name v)))) b Q).
  { unfold unless_gone. apply conform_try. called y. destruct y as [[]|]; [|done]. cbn [is_ok conform]. called z. by destruct z as [[]|]. }
  rewrite Hb. destruct x as [pod|e].
  - destruct (DeletionTimestamp (wp_Pod pod)) as [t|] eqn:Ht; [by rewrite bool_decide_eq_true_2 by eauto|].
    rewrite bool_decide_eq_false_2 by (by intros []). called now. cbn [conform].
    unfold podNodeLost. rewrite Ht. exact Hrest.
  - destruct (IsNotFound e) eqn:He; [|done]. cbn [conform]. rewrite ?He.
    assert (set_deleting false b = b) as -> by (destruct b; cbn in *; by subst). exact Hrest.
Qed.

Lemma wait_gone_ok v ticks b (Q : health -> answer unit -> Prop) :
  he_deleting b = true -> he_lingers b <= ticks ->
  (forall n, Q (mkHealth false (he_installed b) n) (Ok tt)) -> ok (wait_gone ticks v) b Q.
Proof.
  revert b. induction ticks as [|ticks IH]; intros b Hb Hn HQ; cbn [wait_gone]; called x; rewrite Hb;
    (destruct x as [pod|e];
      [|destruct (IsNotFound e) eqn:He; [|done]; cbn [conform]; rewrite ?He; apply HQ]).
  - assert (he_lingers b = 0) as -> by lia. done.
  - destruct (he_lingers b) as [|n] eqn:El; [done|]. called ended. destruct ended; [done|]. apply IH; cbn; [done|lia|exact HQ].
Qed.

Lemma restart_ok opts b : po_Messages opts = messages -> he_deleting b = true -> he_lingers b <= polls (po_Timeout opts) ->
  ok (let? _ := WaitForPodGone (set_locked true w) (po_Timeout opts) in
      let? installed := wrapping "failed to recheck if workspace exists" (IsInstalled (set_locked true w)) in
      if installed : bool then doStart (set_locked true w) opts else doInstallation (set_locked true w) opts) b runs.
Proof using Huser Hblueprint Hvalues Hclaims.
  intros Hm Hb Hn. apply conform_try. unfold WaitForPodGone. apply wait_gone_ok; [done..|]. intros n.
  apply conform_wrap, IsInstalled_ok. intros [] _; [by apply doStart_ok|by apply doInstallation_ok].
Qed.

Lemma provision_locked_ok opts b : po_Messages opts = messages -> he_lingers b <= polls (po_Timeout opts) ->
  ok (provision_locked (set_locked true w) opts) b runs.
Proof using Huser Hblueprint Hvalues Hclaims.
  intros Hm Hb. unfold provision_locked. apply conform_wrap, IsInstalled_ok. intros [] _; [|by apply doInstallation_ok].
  assert (Hn : wo_Name (set_locked true w) = wo_Name w) by by destruct w.
  apply conform_bind, GetPodStatus_ok.
  - intros s Hs. rewrite bool_decide_eq_false_2 by (destruct Hs; congruence). unfold provisionExisting. cbv zeta.
    destruct Hs as [-> | ->]; by apply restart_ok.
  - intros s H1 H2 H3. case_bool_decide as Hr; [by exists s|]. unfold provisionExisting. cbv zeta.
    destruct (status_of s); try done; try (by apply watch_start_ok);
      (apply conform_wrap, StopPod_ok; [done|]; by apply restart_ok).
  - intros name. cbn. by apply doStart_ok.
Qed.

End works.

(** ** What provisioning does not recover from *)

(** The release is there and every look at the pod finds it in a critical state;
    nothing else is called. *)
Definition stays_critical {F X} `{!Deployment F X} (_ : unit) A (e : api A) : A -> judgement unit :=
  match e in api A return A -> judgement unit with
  | ReleaseGet _ => fun r => if is_ok r then Next tt else Excluded
  | PodObserve _ _ false => fun wd =>
      match wd_pod wd with
      | Some (Some pod) => if bool_decide (is_Some (CriticalErr (seen wd pod))) then Next tt else Excluded
      | _ => Excluded
      end
  | LockAcquire _ _ => fun _ => Next tt
  | LockRelease _ | EmitEvents _ => fun _ => Next tt
  | _ => fun _ => Forbidden
  end.

(** A pod whose image cannot be pulled. *)
Definition unpullable_pod : Pod :=
  mkPod "ws" "ws" ∅ 1 None "node" "Pending" "" "" [] []
    [mkContainerStatus "app" false 0 (Some ("ImagePullBackOff", "back-off")) false None None] [] [] ∅ [] None "" "".

Section critical.
Context {F X : Type} `{!Deployment F X}.
Implicit Types w : WorkspaceObj F X.

Lemma GetPodStatus_critical w (Q : unit -> answer WorkspaceStatus -> Prop) :
  (forall m, Q tt (Err (Wrap "failed to get workspace pod status" (Plain m)))) -> conform stays_critical (GetPodStatus w) tt Q.
Proof.
  intros H. unfold GetPodStatus, observe. repeat conform_step. intros x. cbn [stays_critical].
  pose proof (observe_once (wo_Name w) false dp_events x (wd_inputs x ++ [(wd_now x, CtxDone)])) as Ho.
  destruct (Watch _ _ _ _ _ _ _ _ _ _) as [out o]. cbn [snd] in Ho. rewrite Ho.
  destruct (wd_pod x) as [[pod|]|]; [|done..]. case_bool_decide as Hc; [|done]. destruct Hc as [m ->].
  repeat conform_step. intros y. cbn. apply H.
Qed.

(** A workspace whose pod is in a critical state (images that cannot
    be pulled, a back-off after repeated crashes) is not recycled by provisioning, although its status is
    "failing": the look at the pod returns the critical error as its own, so
    provisioning ends with an error before it decides what to do with the pod.
    Nothing is changed, whatever is answered otherwise. Such pods exist. *)
Theorem critical_pod_not_recycled w opts :
  conform stays_critical (Provision w opts) tt (fun _ r => is_ok r = false) /\
  CriticalErr (AnalyzePod (Some unpullable_pod) [] defaultCrashLoopThreshold 1) <> None /\
  Status (AnalyzePod (Some unpullable_pod) [] defaultCrashLoopThreshold 1) = WorkspaceStatusFailing.
Proof.
  split; [|split; [vm_compute; discriminate|reflexivity]].
  assert (Hin : forall v (Q : unit -> answer bool -> Prop), Q tt (Ok true) -> conform stays_critical (IsInstalled v) tt Q).
  { intros v Q H. unfold IsInstalled, releaseExists. repeat conform_step. intros [rel|e]; cbn; [exact H|done]. }
  unfold Provision. cbv zeta. apply conform_bind. unfold provision_unlocked. apply conform_bind, Hin.
  apply conform_bind, GetPodStatus_critical. intros m. cbn [conform].
  assert (Hlocked : forall v, conform stays_critical (provision_locked v (provision_options opts)) tt (fun _ r => is_ok r = false)).
  { intros v. unfold provision_locked. apply conform_wrap, Hin. apply conform_bind, GetPodStatus_critical. intros m'. done. }
  apply conform_bind. unfold lock. destruct (wo_locked w).
  - cbn [conform]. eapply conform_seq; [apply Hlocked|]. intros [] r Hr. unfold unlock. case_goal; [|done].
    repeat conform_step. intros x. exact Hr.
  - repeat conform_step. intros [[]|e]; cbn [stays_critical conform]; [|done..].
    eapply conform_seq; [apply Hlocked|]. intros [] r Hr. unfold unlock. case_goal; [|done]. repeat conform_step. intros x. exact Hr.
Qed.

(** ** The lock of the object *)

(** When taking the lock fails, the object believes it holds it: the next time it
    locks, it is told that it has, without a call; and what it then releases is
    a lock it never took. *)
Theorem lock_after_failure w timeout timeout' : wo_locked w = false ->
  conform (fun (n : nat) A (e : api A) =>
             match e in api A return A -> judgement nat with
             | LockAcquire _ _ => fun r => match n, r with O, Err _ => Next 1%nat | O, Ok _ => Excluded | _, _ => Forbidden end
             | _ => fun _ => Forbidden
             end)
    (let! (w, r1) := lock w timeout in let! (w, r2) := lock w timeout' in Ret (r1, r2)) 0%nat
    (fun n r => n = 1%nat /\ is_ok r.1 = false /\ r.2 = Ok tt).
Proof.
  intros Hl. apply conform_bind. unfold lock at 1. rewrite Hl. repeat conform_step; intros [r|e]; [done|]. cbn [conform].
  unfold lock. assert (wo_locked (set_locked true w) = true) as -> by by destruct w. done.
Qed.

(** ** Concurrent claims *)

(** Two workspaces that need the same new shared claim at the same time: when the
    other one creates it between the look and the dry run, the dry run is told
    that it exists and provisioning fails, although the same answer to the real
    creation, one call later, is accepted. *)
Theorem concurrent_claim_fails ns prefix name storage spec :
  dp_claim_spec (wst_storage storage) = Some spec ->
  let claim := pvc_name prefix name storage in
  let pvc := shared_claim claim name storage spec in
  traces (ensure_shared ns prefix name storage)
    [Did (ObjGet PersistentVolumeClaims ns claim) (Err (Api NotFound));
     Did (ObjCreate PersistentVolumeClaims ns true pvc) (Err (Api AlreadyExists))]
    (Err (Wrap "claimSpec rejected by API server (dry-run)" (Api AlreadyExists))) /\
  traces (ensure_shared ns prefix name storage)
    [Did (ObjGet PersistentVolumeClaims ns claim) (Err (Api NotFound));
     Did (ObjCreate PersistentVolumeClaims ns true pvc) (Ok tt);
     Did (ObjCreate PersistentVolumeClaims ns false pvc) (Err (Api AlreadyExists))] (Ok tt).
Proof.
  intros Hc. cbv zeta. unfold ensure_shared. cbv zeta. rewrite Hc. split; cbn; repeat constructor.
Qed.
End critical.

(** ** Witnesses *)

Lemma Provision_disciplined_witness :
  conform (discipline (wo_Name demo_ws)) (Provision demo_ws None) Unlocked (fun st _ => ~ held st) /\
  conform sourcing (Provision demo_ws None) (mkSources None None []) (fun st _ => made_of demo_ws st).
Proof. apply (Provision_disciplined demo_ws None). reflexivity. Defined.

Lemma Provision_hands_over_witness :
  conform (hands_over "alice" "c1") (Provision demo_ws None) (mkHandover None false None) anything.
Proof.
  apply (Provision_hands_over (Deployment0 := demo_deployment) demo_values_pat demo_ws demo_user None). reflexivity.
Defined.


Lemma lock_after_failure_witness :
  conform (fun (n : nat) A (e : api A) =>
             match e in api A return A -> judgement nat with
             | LockAcquire _ _ => fun r => match n, r with O, Err _ => Next 1%nat | O, Ok _ => Excluded | _, _ => Forbidden end
             | _ => fun _ => Forbidden
             end)
    (let! (w, r1) := lock demo_ws 30 in let! (w, r2) := lock w 30 in Ret (r1, r2)) 0%nat
    (fun n r => n = 1%nat /\ is_ok r.1 = false /\ r.2 = Ok tt).
Proof. apply (lock_after_failure demo_ws 30 30). reflexivity. Defined.

Definition demo_storage : WsStorage := mkWsStorage (mkStorage true "shared" "/data" "" [] None None) "" ∅.

Lemma concurrent_claim_fails_witness :
  let pvc := shared_claim "pvc-data" "data" demo_storage YNil in
  traces (ensure_shared "ws" "" "data" demo_storage)
    [Did (ObjGet PersistentVolumeClaims "ws" "pvc-data") (Err (Api NotFound));
     Did (ObjCreate PersistentVolumeClaims "ws" true pvc) (Err (Api AlreadyExists))]
    (Err (Wrap "claimSpec rejected by API server (dry-run)" (Api AlreadyExists))).
Proof. apply (concurrent_claim_fails "ws" "" "data" demo_storage YNil). reflexivity. Defined.
