(* ===== verification/Injection.v ===== *)
(** * Injecting a workspace into a workload

    internal/helm/inject.go and workload.go, internal/workspace/inject.go and
    injectlist.go: what is taken from the rendered chart, how it is added to a
    Deployment, StatefulSet or DaemonSet and taken out again, and the listing of
    the workloads that can be injected into. *)

From S2P Require Import Prelude GoStrings Yaml Podman PodState Workspaces Values Effects Calls Manifest HelmOps Instance Provision.

(** ** What is injected *)

(** src/internal/helm/inject.go:122-128 InjectionState *)
Record InjectionState : Type := mkInjectionState {
  is_CanonicalId : string;
  is_Containers : list string;
  is_InitContainers : list string;
  is_Volumes : list string;
  is_SharePID : bool;
}.

(** src/internal/helm/inject.go:156-165 InjectionSpec *)
Record InjectionSpec : Type := mkInjectionSpec {
  sp_Containers : list PodContainer;
  sp_InitContainers : list PodContainer;
  sp_Volumes : list PodVolume;
  sp_PodLabels : gmap string string;
  sp_PodAnnotations : gmap string string;
}.

(** src/internal/helm/inject.go:29-29 AnnotationInjectionState *)
Definition AnnotationInjectionState : string := "k8shell.io/injection".

(** src/internal/helm/inject.go:68-68 AnnotationUserStr *)
Definition AnnotationUserStr : string := "k8shell.io/userstr".

(** *** From the rendered chart *)

(** The volumes that are not injected: secrets but the certificate's and the token's.

    src/internal/helm/inject.go:242-247 InjectionSpecFromTemplate *)
Definition skipped (id : string) (v : PodVolume) : bool :=
  match vol_Secret v with
  | Some s => negb (String.eqb s (id +:+ "-tls")) && negb (String.eqb s (id +:+ "-pat"))
  | None => false
  end.

(** Skipping is by name.

    src/internal/helm/inject.go:242-247 InjectionSpecFromTemplate *)
Definition skipped_names (id : string) (vs : list PodVolume) : list string :=
  vol_Name <$> List.filter (skipped id) vs.

Definition is_skipped (id : string) (vs : list PodVolume) (name : string) : bool :=
  existsb (String.eqb name) (skipped_names id vs).

(** Mounts of a volume that is injected, under its new name.

    src/internal/helm/inject.go:256-266 InjectionSpecFromTemplate *)
Definition rewriteMounts (id : string) (vs : list PodVolume) (mounts : list (string * yvalue)) : list (string * yvalue) :=
  omap (fun m => if existsb (fun v => String.eqb (vol_Name v) m.1) vs && negb (is_skipped id vs m.1)
                 then Some (id +:+ "-" +:+ m.1, m.2) else None) mounts.

(** src/internal/helm/inject.go:268-280 InjectionSpecFromTemplate *)
Definition rename_container (id : string) (vs : list PodVolume) (c : PodContainer) : PodContainer :=
  mkPodContainer (id +:+ "-" +:+ pc_Name c) (rewriteMounts id vs (pc_Mounts c)) (pc_rest c).

(** Every claim whose name starts with "pvc-" is given the prefix of the shared ones.

    src/internal/helm/inject.go:289-293 InjectionSpecFromTemplate *)
Definition rename_claim (sharedPvcPrefix : string) (cn : string) : string :=
  if has_prefix cn "pvc-" && negb (has_prefix cn ("pvc-" +:+ sharedPvcPrefix))
  then "pvc-" +:+ sharedPvcPrefix +:+ trim_prefix cn "pvc-" else cn.

(** src/internal/helm/inject.go:282-296 InjectionSpecFromTemplate *)
Definition rename_volume (id sharedPvcPrefix : string) (v : PodVolume) : PodVolume :=
  mkVolume (id +:+ "-" +:+ vol_Name v) (vol_Secret v) (rename_claim sharedPvcPrefix <$> vol_Claim v) (vol_rest v).

(** src/internal/helm/inject.go:298-303 InjectionSpecFromTemplate *)
Definition podLabelAllowlist : list string := [LabelUsername; LabelOrganization; LabelBlueprint; LabelBlueprintRevision].

(** src/internal/helm/inject.go:242-324 InjectionSpecFromTemplate *)
Definition injection_spec (id jobId sharedPvcPrefix : string) (pod : PodTemplate) : InjectionSpec :=
  let vs := pt_Volumes pod in
  {| sp_Containers := rename_container id vs <$> pt_Containers pod;
     sp_InitContainers := rename_container id vs <$> pt_InitContainers pod;
     sp_Volumes := rename_volume id sharedPvcPrefix <$> List.filter (fun v => negb (is_skipped id vs (vol_Name v))) vs;
     sp_PodLabels := <[LabelJobId := jobId]> (<[LabelCanonicalId := id]>
                       (filter (fun kv => kv.1 ∈ podLabelAllowlist) (pt_Labels pod)));
     sp_PodAnnotations := match pt_Annotations pod !! AnnotationUserStr with
                          | Some v => if String.eqb v "" then ∅ else {[AnnotationUserStr := v]}
                          | None => ∅
                          end |}.

Section injection.
(** sigs.k8s.io/yaml decodes a document into the pod decoded so far, [None] for an
    error; the kind is the first component. *)
Variable decode_template : string * PodTemplate -> string -> option (string * PodTemplate).
(** encoding/json of the state; [None] for an annotation that does not decode. *)
Variable marshal_state : InjectionState -> string.
Variable unmarshal_state : string -> option InjectionState.

(** The first document of kind Pod.

    src/internal/helm/inject.go:219-231 InjectionSpecFromTemplate *)
Fixpoint pod_template (acc : string * PodTemplate) (docs : list string) : option PodTemplate :=
  match docs with
  | [] => None
  | doc :: docs =>
      if negb (contains doc "kind: Pod") then pod_template acc docs
      else match decode_template acc doc with
           | None => pod_template acc docs
           | Some (kind, pod) => if String.eqb kind "Pod" then Some pod else pod_template (kind, pod) docs
           end
  end.

Definition empty_template : PodTemplate := mkTemplate ∅ ∅ None [] [] [].

(** src/internal/helm/inject.go:208-328 InjectionSpecFromTemplate *)
Definition InjectionSpecFromTemplate (rendered id jobId sharedPvcPrefix : string) : answer InjectionSpec :=
  match pod_template ("", empty_template) (documents rendered) with
  | None => Err (Plain "pod document not found in rendered workspace chart")
  | Some pod => Ok (injection_spec id jobId sharedPvcPrefix pod)
  end.

(** ** Into the workload and out of it *)

(** src/internal/helm/inject.go:132-142 ParseInjectionState *)
Definition ParseInjectionState (annotations : gmap string string) : option InjectionState :=
  match annotations !! AnnotationInjectionState with
  | Some raw => if String.eqb raw "" then None else unmarshal_state raw
  | None => None
  end.

(** src/internal/helm/inject.go:146-152 InjectedCanonicalId *)
Definition InjectedCanonicalId (annotations : gmap string string) : string :=
  match ParseInjectionState annotations with Some s => is_CanonicalId s | None => "" end.

(** What is recorded.

    src/internal/helm/inject.go:342-367 InjectIntoWorkload *)
Definition injection_state (id : string) (spec : InjectionSpec) (tpl : PodTemplate) : InjectionState :=
  {| is_CanonicalId := id; is_Containers := pc_Name <$> sp_Containers spec;
     is_InitContainers := pc_Name <$> sp_InitContainers spec; is_Volumes := vol_Name <$> sp_Volumes spec;
     is_SharePID := default false (pt_SharePID tpl) |}.

(** src/internal/helm/inject.go:375-394 InjectIntoWorkload *)
Definition inject_template (kind name : string) (spec : InjectionSpec) (tpl : PodTemplate) : PodTemplate :=
  {| pt_Labels := <[LabelWorkloadName := name]> (<[LabelWorkloadKind := kind]> (<[LabelInjected := "true"]>
                    (sp_PodLabels spec ∪ pt_Labels tpl)));
     pt_Annotations := sp_PodAnnotations spec ∪ pt_Annotations tpl;
     pt_SharePID := Some true;
     pt_InitContainers := pt_InitContainers tpl ++ sp_InitContainers spec;
     pt_Containers := pt_Containers tpl ++ sp_Containers spec;
     pt_Volumes := pt_Volumes tpl ++ sp_Volumes spec |}.

(** The workload after injection, or that it is injected already.

    src/internal/helm/inject.go:336-395 InjectIntoWorkload *)
Definition inject_workload (id : string) (spec : InjectionSpec) (wl : Workload) : answer Workload :=
  if negb (String.eqb (InjectedCanonicalId (wl_Annotations wl)) "") then Err (Plain "is already injected with workspace")
  else Ok (mkWorkload (wl_Kind wl) (wl_Namespace wl) (wl_Name wl)
             (<[AnnotationInjectionState := marshal_state (injection_state id spec (wl_Template wl))]> (wl_Annotations wl))
             (inject_template (wl_Kind wl) (wl_Name wl) spec (wl_Template wl))).

(** src/internal/helm/inject.go:334-404 InjectIntoWorkload *)
Definition InjectIntoWorkload (id : string) (spec : InjectionSpec) (wl : Workload) : prog api (answer unit) :=
  match inject_workload id spec wl with
  | Err e => Ret (Err e)
  | Ok wl => wrapping "failed to update workload" (call (WorkloadUpdate wl))
  end.

(** The empty name removes nothing.

    src/internal/helm/inject.go:721-729 toSet *)
Definition toSet (items : list string) : list string := List.filter (fun s => negb (String.eqb s "")) items.

(** src/internal/helm/inject.go:731-739 filterContainers *)
Definition filterContainers (cs : list PodContainer) (remove : list string) : list PodContainer :=
  List.filter (fun c => negb (existsb (String.eqb (pc_Name c)) remove)) cs.

(** src/internal/helm/inject.go:741-749 filterVolumes *)
Definition filterVolumes (vs : list PodVolume) (remove : list string) : list PodVolume :=
  List.filter (fun v => negb (existsb (String.eqb (vol_Name v)) remove)) vs.

(** src/internal/helm/inject.go:435-446 EjectFromWorkload *)
Definition injectedLabelKeys : list string :=
  [LabelInjected; LabelWorkloadKind; LabelWorkloadName; LabelCanonicalId; LabelJobId; LabelUsername;
   LabelOrganization; LabelBlueprint; LabelBlueprintRevision].

(** src/internal/helm/inject.go:423-474 EjectFromWorkload *)
Definition eject_template (state : InjectionState) (tpl : PodTemplate) : PodTemplate :=
  {| pt_Labels := filter (fun kv => kv.1 ∉ injectedLabelKeys) (pt_Labels tpl);
     pt_Annotations := filter (fun kv => kv.1 ∉ [AnnotationUserStr]) (pt_Annotations tpl);
     pt_SharePID := Some (is_SharePID state);
     pt_InitContainers := filterContainers (pt_InitContainers tpl) (toSet (is_InitContainers state));
     pt_Containers := filterContainers (pt_Containers tpl) (toSet (is_Containers state));
     pt_Volumes := filterVolumes (pt_Volumes tpl) (toSet (is_Volumes state)) |}.

(** src/internal/helm/inject.go:412-477 EjectFromWorkload *)
Definition eject_workload (id : string) (wl : Workload) : answer Workload :=
  match ParseInjectionState (wl_Annotations wl) with
  | Some state =>
      if String.eqb (is_CanonicalId state) id
      then Ok (mkWorkload (wl_Kind wl) (wl_Namespace wl) (wl_Name wl)
                 (delete AnnotationInjectionState (wl_Annotations wl)) (eject_template state (wl_Template wl)))
      else Err (Plain "is not injected with workspace")
  | None => Err (Plain "is not injected with workspace")
  end.

(** The canonical id, once the workload has been updated.

    src/internal/helm/inject.go:410-486 EjectFromWorkload *)
Definition EjectFromWorkload (id : string) (wl : Workload) : prog api (answer string) :=
  match eject_workload id wl with
  | Err e => Ret (Err e)
  | Ok wl => let? _ := wrapping "failed to update workload during eject" (call (WorkloadUpdate wl)) in Ret (Ok id)
  end.

(** src/internal/helm/workload.go:79-81 SupportedWorkloadKinds *)
Definition SupportedWorkloadKinds : list string := ["deployment"; "statefulset"; "daemonset"].

Definition lower (s : string) : string := of_bytes (to_lower (to_bytes s)).

(** src/internal/helm/workload.go:51-76 GetWorkloadAdapter *)
Definition GetWorkloadAdapter (ns kind name : string) : prog api (answer Workload) :=
  if existsb (String.eqb (lower kind)) SupportedWorkloadKinds
  then wrapping "failed to get workload" (call (WorkloadGet ns (lower kind) (lower name)))
  else Ret (Err (Plain "unsupported workload kind")).
End injection.

(** ** The blueprint that is injected *)

(** src/internal/workspace/inject.go:299-314 toStringSlice *)
Definition toStringSlice (v : gvalue) : list string :=
  match v with VList l => omap (fun x => match x with VStr s => Some s | _ => None end) l | _ => [] end.

Fixpoint claim_key (key : string) (m : list (string * gvalue)) : option gvalue :=
  match m with [] => None | (k, v) :: m => if String.eqb k key then Some v else claim_key key m end.

(** src/internal/workspace/inject.go:286-297 storageClaimUsesReadWriteOnce *)
Definition storageClaimUsesReadWriteOnce (s : Storage) : bool :=
  match claim_key "accessModes" (st_ClaimSpec s) with
  | None => false
  | Some modes => existsb (fun mode => String.eqb (lower (trim_space mode)) (lower "ReadWriteOnce")) (toStringSlice modes)
  end.

Definition disable (s : Storage) : Storage :=
  mkStorage false (st_Type s) (st_Path s) (st_SizeLimit s) (st_ClaimSpec s) (st_FsOwnerUid s) (st_FsOwnerGid s).

(** Whether an enabled storage is left out.

    src/internal/workspace/inject.go:248-258 sanitizeBlueprintForInjection *)
Definition left_out (s : Storage) : bool :=
  st_Enabled s && String.eqb (if String.eqb (st_Type s) "" then "local" else st_Type s) "local" &&
  (storageClaimUsesReadWriteOnce s || has_prefix (st_Path s) "/home/").

(** src/internal/workspace/inject.go:247-262 sanitizeBlueprintForInjection *)
Definition sanitize_storage (s : WsStorage) : WsStorage :=
  mkWsStorage (if left_out (wst_storage s) then disable (wst_storage s) else wst_storage s) (wst_Id s) (wst_Annotations s).

(** src/internal/workspace/inject.go:264-272 sanitizeBlueprintForInjection *)
Definition sanitize_podman (b : Blueprint) : Blueprint :=
  let '(mkBlueprint image _ (mkPodman _ _ sc ef st ss sm ct si ic cpu mem oc)) := b in
  mkBlueprint image "" (mkPodman "" false sc ef (disable <$> st) ss sm ct si ic cpu mem oc).

Section sanitize.
Context {F X : Type}.
(** yaml.v3: the copy of a blueprint, and the rest of it with an empty network. *)
Variable copy_blueprint : WsBlueprint F X -> option (WsBlueprint F X).
Variable clear_network : X -> X.

(** src/internal/workspace/inject.go:232-282 sanitizeBlueprintForInjection *)
Definition sanitizeBlueprintForInjection (bp : option (WsBlueprint F X)) : answer (WsBlueprint F X) :=
  match bp with
  | None => Err (Plain "blueprint is nil")
  | Some bp =>
      match copy_blueprint bp with
      | None => Err (Plain "unmarshal blueprint copy")
      | Some (mkWsBlueprint _ ki ns sa io r po _ _ ra ro rn rr st x) =>
          Ok (mkWsBlueprint (b_Name bp) ki ns sa io r (sanitize_podman po) "" None ra ro rn rr
                (sanitize_storage <$> st) (clear_network x))
      end
  end.
End sanitize.

(** ** Injecting and ejecting *)

(** src/internal/workspace/inject.go:20-38 InjectOptions *)
Record InjectOptions : Type := mkInjectOptions {
  io_Namespace : string;
  io_WorkloadName : string;
  io_WorkloadKind : string;
  io_WorkspaceCanonicalId : string;
  io_JobId : string;
  io_Timeout : Z;
}.

(** src/internal/config/config.go:250-260 AllowsInjectionNamespace *)
Definition AllowsInjectionNamespace (injectNamespaces : list string) (ns : string) : bool :=
  negb (String.eqb ns "") && existsb (fun n => String.eqb n "*" || String.eqb n ns) injectNamespaces.

Definition with_blueprint {F X} (bp : WsBlueprint F X) (w : WorkspaceObj F X) : WorkspaceObj F X :=
  let '(mkWorkspaceObj n j _ ch r o u us l pm wn wns wk p c e ns) := w in mkWorkspaceObj n j (Some bp) ch r o u us l pm wn wns wk p c e ns.

(** The owner of an injected pod, by the labels of the injection.

    src/internal/workspace/inject.go:319-327 FindOwnerWorkload *)
Definition FindOwnerWorkload (labels : gmap string string) : answer (string * string) :=
  let kind := label labels LabelWorkloadKind in
  let name := label labels LabelWorkloadName in
  if negb (String.eqb kind "") && negb (String.eqb name "") then Ok (kind, name)
  else Err (Plain "pod is missing workload owner labels").

Section inject.
Context {F X : Type} `{!Deployment F X}.
#[local] Notation Ws := (WorkspaceObj F X).
Variable decode_map : string -> option (list (string * yvalue)).
Variable decode_meta : string -> option (string * string).
Variable decode_object : kind -> string -> option object.
Variable decode_template : string * PodTemplate -> string -> option (string * PodTemplate).
Variable marshal_state : InjectionState -> string.
Variable unmarshal_state : string -> option InjectionState.
Variable copy_blueprint : WsBlueprint F X -> option (WsBlueprint F X).
Variable clear_network : X -> X.
(** The namespaces the configuration allows. *)
Variable injectNamespaces : list string.

(** src/internal/workspace/inject.go:116-120 Inject *)
Definition resource_labels (id kind name : string) : gmap string string :=
  list_to_map [(LabelCanonicalId, id); ("k8shell.io/inject-target", kind +:+ "." +:+ name);
               ("k8shell.io/managed-by", "k8shell-provisioner")].

(** What is done once the options have been accepted. The chart is rendered once
    for the resources and once for the pod.

    src/internal/workspace/inject.go:93-164 Inject *)
Definition inject_accepted (w : Ws) (o : InjectOptions) : prog api (answer WorkspaceStatus) :=
  let id := io_WorkspaceCanonicalId o in
  match sanitizeBlueprintForInjection copy_blueprint clear_network (wo_blueprint w) with
  | Err e => Ret (Err (Wrap "failed to sanitize blueprint for injection" e))
  | Ok bp =>
      let w := with_blueprint bp w in
      match dp_values w with
      | Err e => Ret (Err (Wrap "failed to build helm values" e))
      | Ok values =>
          let values := <["__targetnamespace__" := YStr (io_Namespace o)]> values in
          let? rendered := wrapping "failed to render workspace resources" (call (ChartTemplate id values)) in
          let resources := map_to_list (WorkspaceResources decode_map rendered) in
          let? rendered := wrapping "failed to build injection spec" (call (ChartTemplate id values)) in
          match InjectionSpecFromTemplate decode_template rendered id (io_JobId o) "k8shell-" with
          | Err e => Ret (Err (Wrap "failed to build injection spec" e))
          | Ok spec =>
              let? _ := wrapping "failed to apply workspace resources"
                (ApplyNamespacedResources decode_meta decode_object (io_Namespace o) resources
                   (resource_labels id (io_WorkloadKind o) (io_WorkloadName o))) in
              let? _ := wrapping "failed to ensure shared storages" (ensureSharedStorages w (io_Namespace o) "k8shell-") in
              let? wl := wrapping "failed to get workload adapter"
                (GetWorkloadAdapter (io_Namespace o) (io_WorkloadKind o) (io_WorkloadName o)) in
              let? _ := wrapping "failed to inject" (InjectIntoWorkload marshal_state unmarshal_state id spec wl) in
              let? snap := wrapping "error watching injected pods"
                (call (PodObserveLabel (io_Namespace o) (LabelCanonicalId +:+ "=" +:+ id) (io_Timeout o))) in
              Ret (Ok (to_status snap))
          end
      end
  end.

(** src/internal/workspace/inject.go:79-84 Inject *)
Definition inject_defaults (o : InjectOptions) : InjectOptions :=
  mkInjectOptions (io_Namespace o) (io_WorkloadName o)
    (if String.eqb (io_WorkloadKind o) "" then "Deployment" else io_WorkloadKind o)
    (io_WorkspaceCanonicalId o) (io_JobId o) (if Z.eqb (io_Timeout o) 0 then 120 else io_Timeout o).

(** src/internal/workspace/inject.go:63-166 Inject *)
Definition Inject (w : Ws) (opts : option InjectOptions) : prog api (answer WorkspaceStatus) :=
  match opts with
  | None => Ret (Err (Plain "inject options are required"))
  | Some o =>
      if String.eqb (io_Namespace o) "" then Ret (Err (Plain "namespace is required"))
      else if negb (AllowsInjectionNamespace injectNamespaces (io_Namespace o)) then Ret (Err (Plain "namespace is not allowed"))
      else if String.eqb (io_WorkloadName o) "" then Ret (Err (Plain "workloadName is required"))
      else inject_accepted w (inject_defaults o)
  end.

(** src/internal/workspace/inject.go:172-218 Eject *)
Definition Eject (w : Ws) (ns kind name : string) : prog api (answer unit) :=
  if String.eqb ns "" then Ret (Err (Plain "namespace is required"))
  else if String.eqb name "" then Ret (Err (Plain "workloadName is required"))
  else
    let kind := if String.eqb kind "" then "Deployment" else kind in
    let? wl := wrapping "failed to get workload adapter" (GetWorkloadAdapter ns kind name) in
    let? id := wrapping "failed to eject" (EjectFromWorkload unmarshal_state (wo_Name w) wl) in
    wrapping "failed to delete workspace resources" (DeleteNamespacedWorkspaceResources ns id).

(** src/internal/workspace/inject.go:222-228 IsInjected *)
Definition IsInjected (w : Ws) (ns kind name : string) : prog api (answer bool) :=
  let? wl := GetWorkloadAdapter ns kind name in
  Ret (Ok (String.eqb (InjectedCanonicalId unmarshal_state (wl_Annotations wl)) (wo_Name w))).

(** The documents of the chart, as it would be rendered in [injectNamespace].

    src/internal/workspace/workspace.go:1140-1173 RenderedResources *)
Definition RenderedResources (w : Ws) (injectNamespace : string) : prog api (answer (gmap string (list (string * yvalue)))) :=
  if String.eqb injectNamespace "" then
    let? manifest := Template w in Ret (ManifestDocuments decode_map manifest)
  else
    match sanitizeBlueprintForInjection copy_blueprint clear_network (wo_blueprint w) with
    | Err e => Ret (Err (Wrap "failed to sanitize blueprint for injection" e))
    | Ok bp =>
        match dp_values (with_blueprint bp w) with
        | Err e => Ret (Err e)
        | Ok values =>
            let values := <["__targetnamespace__" := YStr injectNamespace]> values in
            let? manifest := call (ChartTemplate (canonical_id w) values) in Ret (ManifestDocuments decode_map manifest)
        end
    end.
End inject.

(** ** The workloads that can be injected into *)

(** src/internal/workspace/injectlist.go:26-41 InjectWorkloadInfo *)
Record InjectWorkloadInfo : Type := mkWorkloadInfo {
  wk_Namespace : string;
  wk_Kind : string;
  wk_Name : string;
  wk_Replicas : Z;
  wk_Injected : bool;
  wk_Workspace : string;
  wk_Username : string;
  wk_Organization : string;
  wk_Blueprint : string;
  wk_RepoSource : string;
  wk_RepoRevision : string;
  wk_BlueprintRevision : string;
}.

(** The labels of the last injected pod of each workload.

    src/internal/workspace/injectlist.go:125-140 injectedWorkloadsInNamespace *)
Definition injected_workloads (pods : list WorkspacePod) : gmap string (gmap string string) :=
  foldl (fun out pod =>
           let kind := label (wp_Labels pod) LabelWorkloadKind in
           let name := label (wp_Labels pod) LabelWorkloadName in
           if String.eqb kind "" || String.eqb name "" then out else <[kind +:+ " / " +:+ name := wp_Labels pod]> out) ∅ pods.

(** src/internal/workspace/injectlist.go:194-214 buildInjectWorkloadInfo *)
Definition buildInjectWorkloadInfo (ns kind name : string) (replicas : Z) (annotations : gmap string string)
    (injected : gmap string (gmap string string)) : InjectWorkloadInfo :=
  let source := label annotations "org.opencontainers.image.source" in
  let revision := label annotations "org.opencontainers.image.revision" in
  match injected !! (kind +:+ " / " +:+ name) with
  | Some l => mkWorkloadInfo ns kind name replicas true (label l LabelCanonicalId) (label l LabelUsername)
                (label l LabelOrganization) (label l LabelBlueprint) source revision (label l LabelBlueprintRevision)
  | None => mkWorkloadInfo ns kind name replicas false "" "" "" "" source revision ""
  end.

(** A daemon set's replicas are those scheduled, of the others one by default.

    src/internal/workspace/injectlist.go:146-189 listWorkloadsOfKind *)
Definition listWorkloadsOfKind (ns kind : string) (injected : gmap string (gmap string string))
    : prog api (answer (list InjectWorkloadInfo)) :=
  let? items := wrapping "failed to list workloads" (call (WorkloadList ns kind)) in
  Ret (Ok ((fun i => buildInjectWorkloadInfo ns kind (wi_Name i) (default 1%Z (wi_Replicas i)) (wi_Annotations i) injected) <$> items)).

(** src/internal/workspace/injectlist.go:92-98 ListInjectWorkloads *)
Fixpoint list_kinds (ns : string) (injected : gmap string (gmap string string)) (kinds : list string)
    : prog api (answer (list InjectWorkloadInfo)) :=
  match kinds with
  | [] => Ret (Ok [])
  | kind :: kinds =>
      let? items := listWorkloadsOfKind ns kind injected in
      let? rest := list_kinds ns injected kinds in
      Ret (Ok (items ++ rest))
  end.

(** src/internal/workspace/injectlist.go:87-99 ListInjectWorkloads *)
Fixpoint list_namespaces (kinds namespaces : list string) : prog api (answer (list InjectWorkloadInfo)) :=
  match namespaces with
  | [] => Ret (Ok [])
  | ns :: namespaces =>
      let? pods := wrapping "failed to list injected pods" (call (PodList ns (LabelInjected +:+ "=true"))) in
      let? items := list_kinds ns (injected_workloads pods) kinds in
      let? rest := list_namespaces kinds namespaces in
      Ret (Ok (items ++ rest))
  end.

(** By namespace, kind and name.

    src/internal/workspace/injectlist.go:101-109 ListInjectWorkloads *)
Definition sort_workloads (l : list InjectWorkloadInfo) : list InjectWorkloadInfo :=
  sort_by wk_Namespace (sort_by wk_Kind (sort_by wk_Name l)).

(** src/internal/workspace/injectlist.go:60-71 ListInjectWorkloads *)
Definition requested_kinds (kinds : list string) : answer (list string) :=
  match kinds with
  | [] => Ok SupportedWorkloadKinds
  | _ => if forallb (fun k => existsb (String.eqb (lower (trim_space k))) SupportedWorkloadKinds) kinds
         then Ok ((fun k => lower (trim_space k)) <$> kinds)
         else Err (Wrap "unsupported workload kind" (Sentinel ErrInvalidParameters))
  end.

(** src/internal/workspace/injectlist.go:59-112 ListInjectWorkloads *)
Definition ListInjectWorkloads (namespaces kinds : list string) : prog api (answer (list InjectWorkloadInfo)) :=
  match requested_kinds kinds with
  | Err e => Ret (Err e)
  | Ok kinds =>
      let? namespaces := (match namespaces with
                          | [ns] => if String.eqb ns "*" then wrapping "failed to list namespaces" (call NamespaceList) else Ret (Ok [ns])
                          | _ => Ret (Ok namespaces)
                          end) in
      let? items := list_namespaces kinds namespaces in
      Ret (Ok (sort_workloads items))
  end.
