(* ===== verification/InjectionLaws.v ===== *)
(** * What injection guarantees

    Theorems on Injection.v: what is taken from the chart is well formed, ejecting
    undoes injecting, both stay in their namespace, and where they go wrong. *)

From S2P Require Import Prelude GoStrings Yaml Podman PodState Workspaces Values Effects Calls Manifest HelmOps Instance Provision Injection.

(** ** What is taken from the chart *)

Lemma existsb_eqb s l : existsb (String.eqb s) l = true <-> s ∈ l.
Proof.
  rewrite existsb_exists. split.
  - intros (x & Hx & ->%String.eqb_eq). by apply list_elem_of_In.
  - intros H. exists s. split; [by apply list_elem_of_In|apply String.eqb_refl].
Qed.

Lemma existsb_eqb_false s l : existsb (String.eqb s) l = false <-> s ∉ l.
Proof. rewrite <- existsb_eqb. by destruct (existsb _ _). Qed.

Lemma rewriteMounts_elem id vs mounts m : m ∈ rewriteMounts id vs mounts <->
  exists n r, (n, r) ∈ mounts /\ m = (id +:+ "-" +:+ n, r) /\ (exists v, v ∈ vs /\ vol_Name v = n) /\ is_skipped id vs n = false.
Proof.
  unfold rewriteMounts. rewrite list_elem_of_omap. split.
  - intros ([n r] & Hin & Hm). cbn in Hm. destruct (existsb _ vs) eqn:He; [|done]. destruct (is_skipped id vs n) eqn:Hs; [done|].
    cbn in Hm. injection Hm as <-. exists n, r. split_and!; [done..| |done].
    apply existsb_exists in He as (v & Hv & Hn%String.eqb_eq). exists v. split; [by apply list_elem_of_In|done].
  - intros (n & r & Hin & -> & (v & Hv & Hn) & Hs). exists (n, r). split; [done|]. cbn. rewrite Hs.
    assert (existsb (fun v => String.eqb (vol_Name v) n) vs = true) as ->; [|done].
    apply existsb_exists. exists v. split; [by apply list_elem_of_In|]. by apply String.eqb_eq.
Qed.

Lemma spec_volume id job prefix pod v : v ∈ sp_Volumes (injection_spec id job prefix pod) <->
  exists v0, v0 ∈ pt_Volumes pod /\ is_skipped id (pt_Volumes pod) (vol_Name v0) = false /\ v = rename_volume id prefix v0.
Proof.
  cbn [injection_spec sp_Volumes]. rewrite list_elem_of_fmap. split.
  - intros (v0 & -> & Hin). apply list_elem_of_In, List.filter_In in Hin as [Hin Hs]. exists v0.
    split_and!; [by apply list_elem_of_In|by apply negb_true_iff|done].
  - intros (v0 & Hin & Hs & ->). exists v0. split; [done|]. apply list_elem_of_In, List.filter_In.
    split; [by apply list_elem_of_In|by rewrite Hs].
Qed.

(** What is injected is closed and confined: every volume that an injected
    container mounts is injected with it, every container and volume has the
    workspace's id as a prefix of its name, and of the chart's secrets only the
    certificate and the token of this workspace are mounted. *)
Theorem injection_spec_closed id job prefix pod :
  let spec := injection_spec id job prefix pod in
  (forall c n r, c ∈ sp_Containers spec ++ sp_InitContainers spec -> (n, r) ∈ pc_Mounts c ->
     exists v, v ∈ sp_Volumes spec /\ vol_Name v = n) /\
  (forall c, c ∈ sp_Containers spec ++ sp_InitContainers spec -> has_prefix (pc_Name c) (id +:+ "-") = true) /\
  (forall v, v ∈ sp_Volumes spec -> has_prefix (vol_Name v) (id +:+ "-") = true /\
     forall s, vol_Secret v = Some s -> s = id +:+ "-tls" \/ s = id +:+ "-pat").
Proof.
  cbv zeta.
  assert (Hc : forall c, c ∈ sp_Containers (injection_spec id job prefix pod) ++ sp_InitContainers (injection_spec id job prefix pod) ->
    exists c0, c = rename_container id (pt_Volumes pod) c0).
  { intros c [Hin|Hin]%elem_of_app; cbn in Hin; apply list_elem_of_fmap in Hin as (c0 & -> & _); by exists c0. }
  split_and!.
  - intros c n r Hin Hm. destruct (Hc c Hin) as [c0 ->]. cbn [rename_container pc_Mounts] in Hm.
    apply rewriteMounts_elem in Hm as (n0 & r0 & _ & [= -> ->] & (v & Hv & <-) & Hs).
    exists (rename_volume id prefix v). split; [|done]. apply spec_volume. by exists v.
  - intros c Hin. destruct (Hc c Hin) as [c0 ->]. cbn [rename_container pc_Name]. rewrite <- string_app_assoc. apply has_prefix_app.
  - intros v (v0 & Hin & Hs & ->)%spec_volume. cbn [rename_volume vol_Name vol_Secret].
    split; [rewrite <- string_app_assoc; apply has_prefix_app|]. intros s Hsec.
    unfold is_skipped in Hs. apply existsb_eqb_false in Hs. destruct (skipped id v0) eqn:Hk.
    + exfalso. apply Hs. unfold skipped_names. apply list_elem_of_fmap. exists v0. split; [done|].
      apply list_elem_of_In, List.filter_In. split; [by apply list_elem_of_In|done].
    + unfold skipped in Hk. rewrite Hsec in Hk.
      destruct (String.eqb_spec s (id +:+ "-tls")) as [|]; [by left|]. destruct (String.eqb_spec s (id +:+ "-pat")) as [|]; [by right|done].
Qed.

(** ** Ejecting undoes injecting *)

Lemma filterContainers_app l1 l2 r : filterContainers (l1 ++ l2) r = filterContainers l1 r ++ filterContainers l2 r.
Proof. apply List.filter_app. Qed.

Lemma filterContainers_none l r : (forall c, c ∈ l -> pc_Name c ∉ r) -> filterContainers l r = l.
Proof.
  unfold filterContainers. induction l as [|c l IH]; intros H; cbn; [done|].
  assert (existsb (String.eqb (pc_Name c)) r = false) as -> by (apply existsb_eqb_false, H; left). cbn. f_equal. apply IH.
  intros c' Hc'. apply H. by right.
Qed.

Lemma filterContainers_all l r : (forall c, c ∈ l -> pc_Name c ∈ r) -> filterContainers l r = [].
Proof.
  unfold filterContainers. induction l as [|c l IH]; intros H; cbn; [done|].
  assert (existsb (String.eqb (pc_Name c)) r = true) as -> by (apply existsb_eqb, H; left). apply IH. intros c' Hc'. apply H. by right.
Qed.

Lemma filterVolumes_none l r : (forall v, v ∈ l -> vol_Name v ∉ r) -> filterVolumes l r = l.
Proof.
  unfold filterVolumes. induction l as [|c l IH]; intros H; cbn; [done|].
  assert (existsb (String.eqb (vol_Name c)) r = false) as -> by (apply existsb_eqb_false, H; left). cbn. f_equal. apply IH.
  intros c' Hc'. apply H. by right.
Qed.

Lemma filterVolumes_all l r : (forall v, v ∈ l -> vol_Name v ∈ r) -> filterVolumes l r = [].
Proof.
  unfold filterVolumes. induction l as [|c l IH]; intros H; cbn; [done|].
  assert (existsb (String.eqb (vol_Name c)) r = true) as -> by (apply existsb_eqb, H; left). apply IH. intros c' Hc'. apply H. by right.
Qed.

Lemma toSet_elem s l : s ∈ toSet l <-> s <> "" /\ s ∈ l.
Proof.
  unfold toSet. rewrite list_elem_of_In, List.filter_In, <- list_elem_of_In, negb_true_iff, String.eqb_neq. naive_solver.
Qed.

Lemma prefixed_nonempty id n : has_prefix n (id +:+ "-") = true -> n <> "".
Proof. intros [r ->]%has_prefix_inv. by destruct id. Qed.

(** Names that were there before do not start with the workspace's id. *)
Definition foreign (id : string) (tpl : PodTemplate) : Prop :=
  (forall c, c ∈ pt_Containers tpl ++ pt_InitContainers tpl -> has_prefix (pc_Name c) (id +:+ "-") = false) /\
  (forall v, v ∈ pt_Volumes tpl -> has_prefix (vol_Name v) (id +:+ "-") = false).

Lemma eject_containers id (old new : list PodContainer) :
  (forall c, c ∈ old -> has_prefix (pc_Name c) (id +:+ "-") = false) ->
  (forall c, c ∈ new -> has_prefix (pc_Name c) (id +:+ "-") = true) ->
  filterContainers (old ++ new) (toSet (pc_Name <$> new)) = old.
Proof.
  intros Hold Hnew. rewrite filterContainers_app, (filterContainers_none old), (filterContainers_all new), app_nil_r; [done| |].
  - intros c Hc. apply toSet_elem. split; [by eapply prefixed_nonempty, Hnew|]. apply list_elem_of_fmap. by exists c.
  - intros c Hc [_ (c' & Heq & Hc')%list_elem_of_fmap]%toSet_elem. specialize (Hold c Hc). rewrite Heq, Hnew in Hold; done.
Qed.

Lemma eject_volumes id (old new : list PodVolume) :
  (forall c, c ∈ old -> has_prefix (vol_Name c) (id +:+ "-") = false) ->
  (forall c, c ∈ new -> has_prefix (vol_Name c) (id +:+ "-") = true) ->
  filterVolumes (old ++ new) (toSet (vol_Name <$> new)) = old.
Proof.
  intros Hold Hnew. unfold filterVolumes. rewrite List.filter_app. fold (filterVolumes old (toSet (vol_Name <$> new))).
  fold (filterVolumes new (toSet (vol_Name <$> new))). rewrite (filterVolumes_none old), (filterVolumes_all new), app_nil_r; [done| |].
  - intros c Hc. apply toSet_elem. split; [by eapply prefixed_nonempty, Hnew|]. apply list_elem_of_fmap. by exists c.
  - intros c Hc [_ (c' & Heq & Hc')%list_elem_of_fmap]%toSet_elem. specialize (Hold c Hc). rewrite Heq, Hnew in Hold; done.
Qed.

(** Adding keys of a set and filtering the set out again. *)
Lemma filter_union_keys (keys : list string) (added m : gmap string string) :
  (forall k, is_Some (added !! k) -> k ∈ keys) -> (forall k, k ∈ keys -> m !! k = None) ->
  filter (fun kv => kv.1 ∉ keys) (added ∪ m) = m.
Proof.
  intros Ha Hm. apply map_eq. intros k. destruct (decide (k ∈ keys)) as [Hk|Hk].
  - rewrite (Hm k Hk). apply map_lookup_filter_None. right. intros v _ Hn. by apply Hn.
  - assert (added !! k = None) as Hn by (apply eq_None_not_Some; intros Hs; by apply Hk, Ha).
    destruct (m !! k) as [v|] eqn:E.
    + apply map_lookup_filter_Some. split; [|done]. by rewrite lookup_union_r.
    + apply map_lookup_filter_None. left. by rewrite lookup_union_r.
Qed.

Lemma insert_as_union (k v : string) (m : gmap string string) : <[k := v]> m = {[k := v]} ∪ m.
Proof. apply insert_union_singleton_l. Qed.

Section round_trip.
Context (marshal_state : InjectionState -> string) (unmarshal_state : string -> option InjectionState).
(** encoding/json reads back the state it wrote. *)
Context (state_json : forall s, unmarshal_state (marshal_state s) = Some s /\ marshal_state s <> "").

Lemma parse_marshalled s m : ParseInjectionState unmarshal_state (<[AnnotationInjectionState := marshal_state s]> m) = Some s.
Proof using state_json. 
  unfold ParseInjectionState. rewrite lookup_insert_eq. destruct (state_json s) as [Hu Hne%String.eqb_neq]. by rewrite Hne, Hu.
Qed.

(** C5. Ejecting undoes injecting: when the workload carries no trace of an
    injection, its names do not start with the workspace's id, and its pods have
    none of the labels and annotations that injection uses, then ejecting the
    same workspace gives back its containers, volumes, labels and annotations
    exactly as they were. Only shareProcessNamespace may differ: unset becomes
    false. *)
Theorem eject_inject id job prefix pod wl wl' :
  wl_Annotations wl !! AnnotationInjectionState = None -> foreign id (wl_Template wl) ->
  (forall k, k ∈ injectedLabelKeys -> pt_Labels (wl_Template wl) !! k = None) ->
  pt_Annotations (wl_Template wl) !! AnnotationUserStr = None ->
  inject_workload marshal_state unmarshal_state id (injection_spec id job prefix pod) wl = Ok wl' ->
  eject_workload unmarshal_state id wl' =
    Ok (mkWorkload (wl_Kind wl) (wl_Namespace wl) (wl_Name wl) (wl_Annotations wl)
          (mkTemplate (pt_Labels (wl_Template wl)) (pt_Annotations (wl_Template wl))
             (Some (default false (pt_SharePID (wl_Template wl))))
             (pt_InitContainers (wl_Template wl)) (pt_Containers (wl_Template wl)) (pt_Volumes (wl_Template wl)))).
Proof using state_json.
  intros Hann [Hc Hv] Hl Ha. unfold inject_workload. case_goal; [done|]. intros <-%Ok_inj.
  unfold eject_workload. cbn [wl_Annotations]. rewrite parse_marshalled. cbn [injection_state is_CanonicalId]. rewrite String.eqb_refl.
  cbn [wl_Kind wl_Namespace wl_Name wl_Template]. rewrite delete_insert_id by done.
  destruct (injection_spec_closed id job prefix pod) as (_ & Hpc & Hpv). cbv zeta in Hpc, Hpv.
  set (spec := injection_spec id job prefix pod) in *.
  do 2 f_equal. unfold eject_template, inject_template, injection_state.
  cbn [pt_Labels pt_Annotations pt_SharePID pt_InitContainers pt_Containers pt_Volumes is_SharePID is_InitContainers is_Containers is_Volumes].
  f_equal.
  - rewrite !insert_as_union, !map_union_assoc. apply filter_union_keys; [|done].
    intros k Hk. rewrite !lookup_union_is_Some, !lookup_singleton_is_Some in Hk.
    assert (Hspec : is_Some (sp_PodLabels spec !! k) -> k ∈ injectedLabelKeys).
    { unfold spec. cbn [injection_spec sp_PodLabels]. rewrite !lookup_insert_is_Some. intros [<-|[_ [<-|[_ Hf]]]]; [set_solver..|].
      destruct Hf as [v [_ Hf]%map_lookup_filter_Some]. cbn in Hf. unfold podLabelAllowlist in Hf. unfold injectedLabelKeys. set_solver. }
    destruct Hk as [[[<-|<-]|<-]|Hk]; [set_solver..|by apply Hspec].
  - apply filter_union_keys; [|by intros k ->%list_elem_of_singleton]. intros k Hk. unfold spec in Hk. cbn [injection_spec sp_PodAnnotations] in Hk.
    destruct (pt_Annotations pod !! AnnotationUserStr) as [u|]; [|by rewrite lookup_empty in Hk; destruct Hk].
    destruct (String.eqb u ""); [by rewrite lookup_empty in Hk; destruct Hk|].
    apply lookup_singleton_is_Some in Hk as <-. left.
  - apply (eject_containers id).
    + intros c Hin. apply Hc. apply elem_of_app. by right.
    + intros c Hin. apply Hpc. apply elem_of_app. by right.
  - apply (eject_containers id).
    + intros c Hin. apply Hc. apply elem_of_app. by left.
    + intros c Hin. apply Hpc. apply elem_of_app. by left.
  - apply (eject_volumes id); [done|]. intros v Hin. by apply Hpv.
Qed.
End round_trip.

(** ** Where it goes wrong *)

Lemma has_prefix_pvc r : has_prefix ("pvc-" +:+ r) "pvc-" = true.
Proof. apply has_prefix_app. Qed.

Lemma has_prefix_app_l (a r p : string) : has_prefix (a +:+ r) (a +:+ p) = has_prefix r p.
Proof. induction a as [|c a IH]; [done|]. rewrite !string_app_cons, has_prefix_cons, Ascii.eqb_refl. exact IH. Qed.

(** The claims of a workspace's own storages are not mounted when it is
    injected: every claim an injected volume refers to and that is named like the
    chart's has been given the prefix of the shared claims, also the claim
    "pvc-<id>-<storage>" of a local storage, which the chart renders and the
    provisioner creates under its own name. The pod then waits for a claim that
    is never created. *)
Theorem injected_claim_renamed id job pod :
  (forall v c, v ∈ sp_Volumes (injection_spec id job "k8shell-" pod) -> vol_Claim v = Some c ->
     has_prefix c "pvc-" = true -> has_prefix c "pvc-k8shell-" = true) /\
  forall v0 storage, v0 ∈ pt_Volumes pod -> is_skipped id (pt_Volumes pod) (vol_Name v0) = false ->
    vol_Claim v0 = Some ("pvc-" +:+ id +:+ "-" +:+ storage) -> has_prefix (id +:+ "-" +:+ storage) "k8shell-" = false ->
    exists v, v ∈ sp_Volumes (injection_spec id job "k8shell-" pod) /\ vol_Name v = id +:+ "-" +:+ vol_Name v0 /\
      vol_Claim v = Some ("pvc-k8shell-" +:+ id +:+ "-" +:+ storage) /\
      "pvc-k8shell-" +:+ id +:+ "-" +:+ storage <> "pvc-" +:+ id +:+ "-" +:+ storage.
Proof.
  split.
  - intros v c (v0 & _ & _ & ->)%spec_volume. cbn [rename_volume vol_Claim]. intros (cn & Hcn & ->)%fmap_Some_1 Hp. unfold rename_claim in *.
    destruct (has_prefix cn "pvc-") eqn:H1; cbn [andb] in *; [|congruence].
    destruct (has_prefix cn ("pvc-" +:+ "k8shell-")) eqn:H2; cbn [negb] in *; [exact H2|].
    change ("pvc-" +:+ "k8shell-" +:+ trim_prefix cn "pvc-") with ("pvc-k8shell-" +:+ trim_prefix cn "pvc-"). apply has_prefix_app.
  - intros v0 storage Hin Hs Hc Hp. exists (rename_volume id "k8shell-" v0).
    split; [apply spec_volume; by exists v0|]. split; [done|]. cbn [rename_volume vol_Claim]. rewrite Hc. cbn [fmap option_fmap option_map].
    unfold rename_claim. rewrite has_prefix_pvc, has_prefix_app_l, Hp. cbn [andb negb]. rewrite trim_prefix_app. split; [done|].
    intros Heq. apply (f_equal String.length) in Heq. rewrite !string_length_app in Heq. cbn in Heq. lia.
Qed.

(** A workload is ejected once: after the workload has been updated, the same
    workspace is not found in it any more, so when deleting the resources fails
    afterwards, a second attempt ends before it gets to them. *)
Theorem ejected_once unmarshal_state id wl wl' :
  eject_workload unmarshal_state id wl = Ok wl' ->
  eject_workload unmarshal_state id wl' = Err (Plain "is not injected with workspace") /\
  InjectedCanonicalId unmarshal_state (wl_Annotations wl') = "".
Proof.
  unfold eject_workload. destruct (ParseInjectionState unmarshal_state (wl_Annotations wl)) as [state|]; [|done].
  case_goal; [|done]. intros <-%Ok_inj. cbn [wl_Annotations]. unfold InjectedCanonicalId, ParseInjectionState.
  by rewrite lookup_delete_eq.
Qed.

(** ** The blueprint that is injected *)

Section sanitize.
Context {F X : Type} (copy_blueprint : WsBlueprint F X -> option (WsBlueprint F X)) (clear_network : X -> X).

Lemma left_out_disable s : left_out (disable s) = false.
Proof. by destruct s. Qed.

(** What is left of a blueprint for injection: no podman sidecar and none of its
    storages, no runtime class, no network policy class and no alias; no enabled
    storage whose own claim only one node can mount or that replaces a home
    directory. Every other storage stays as it was in the copy. *)
Theorem sanitized_blueprint bp bp0 bp' :
  copy_blueprint bp0 = Some bp -> sanitizeBlueprintForInjection copy_blueprint clear_network (Some bp0) = Ok bp' ->
  let p := bp_Podman (b_Podman bp') in
  pm_Enabled p = false /\ pm_Profile p = "" /\ bp_RuntimeClassName (b_Podman bp') = "" /\
  (forall k s, pm_Storages p !! k = Some s -> st_Enabled s = false) /\
  b_NetworkPolicyClass bp' = "" /\ b_WebProxyAlias bp' = None /\ b_Name bp' = b_Name bp0 /\
  (forall k s, b_Storages bp' !! k = Some s -> left_out (wst_storage s) = false) /\
  (forall k s, b_Storages bp !! k = Some s -> left_out (wst_storage s) = false -> b_Storages bp' !! k = Some s).
Proof.
  intros Hcopy. unfold sanitizeBlueprintForInjection. rewrite Hcopy.
  destruct bp as [n ki ns sa io r [image rc [pf en sc ef st ss sm ct si ic cpu mem oc]] npc wpa ra ro rn rr sts x].
  intros <-%Ok_inj. cbv zeta. cbn [b_Podman bp_Podman sanitize_podman pm_Enabled pm_Profile bp_RuntimeClassName pm_Storages
    b_NetworkPolicyClass b_WebProxyAlias b_Name b_Storages]. split_and!; try done.
  - intros k s. rewrite lookup_fmap. by intros (s0 & _ & ->)%fmap_Some_1.
  - intros k s. rewrite lookup_fmap. intros (s0 & _ & ->)%fmap_Some_1. unfold sanitize_storage. cbn [wst_storage].
    destruct (left_out (wst_storage s0)) eqn:H; [apply left_out_disable|done].
  - intros k s Hk Hs. rewrite lookup_fmap, Hk. cbn. unfold sanitize_storage. rewrite Hs. by destruct s.
Qed.
End sanitize.

(** ** Where it acts *)

(** Every object that is read or changed is in the namespace, nothing is deleted,
    no pod is touched, and the workload is the one that was asked for. *)
Definition confined (ns : string) (_ : unit) A (e : api A) : A -> judgement unit :=
  let inside (b : bool) : judgement unit := if b then Next tt else Forbidden in
  match e in api A return A -> judgement unit with
  | ObjGet _ ns' _ => fun _ => inside (String.eqb ns' ns)
  | ObjCreate k ns' _ _ => fun _ => inside (String.eqb ns' ns && bool_decide (k ∈ [ConfigMaps; Secrets; PersistentVolumeClaims]))
  | ObjUpdate k ns' _ => fun _ => inside (String.eqb ns' ns && bool_decide (k ∈ [ConfigMaps; Secrets]))
  | ObjApply k ns' _ => fun _ => inside (String.eqb ns' ns && bool_decide (k = Certificates))
  | WorkloadGet ns' _ _ => fun r =>
      match r with
      | Ok wl => if String.eqb ns' ns then if String.eqb (wl_Namespace wl) ns then Next tt else Excluded else Forbidden
      | Err _ => inside (String.eqb ns' ns)
      end
  | WorkloadUpdate wl => fun _ => inside (String.eqb (wl_Namespace wl) ns)
  | PodObserveLabel ns' _ _ => fun _ => inside (String.eqb ns' ns)
  | ChartTemplate _ _ => fun _ => Next tt
  | _ => fun _ => Forbidden
  end.

Section confinement.
Context {F X : Type} `{!Deployment F X}.
Implicit Types w : WorkspaceObj F X.
Context (decode_map : string -> option (list (string * yvalue))) (decode_meta : string -> option (string * string)).
Context (decode_object : kind -> string -> option object) (decode_template : string * PodTemplate -> string -> option (string * PodTemplate)).
Context (marshal_state : InjectionState -> string) (unmarshal_state : string -> option InjectionState).
Context (copy_blueprint : WsBlueprint F X -> option (WsBlueprint F X)) (clear_network : X -> X) (injectNamespaces : list string).

Definition whatever {A} (_ : unit) (_ : A) : Prop := True.

Ltac inside := repeat conform_step; intros ?; cbn [confined]; rewrite ?String.eqb_refl, ?bool_decide_eq_true_2 by set_solver; cbn [andb conform].

Lemma apply_object_confined k ns what o : k ∈ [ConfigMaps; Secrets] -> conform (confined ns) (apply_object k ns what o) tt whatever.
Proof.
  intros Hk. unfold apply_object. repeat conform_step. intros [existing|e]; cbn [confined]; rewrite String.eqb_refl.
  - repeat conform_step. intros r. cbn [confined]. rewrite String.eqb_refl, bool_decide_eq_true_2 by done. done.
  - repeat conform_step; [done|]. intros r. cbn [confined]. rewrite String.eqb_refl, bool_decide_eq_true_2 by set_solver. done.
Qed.

Lemma applyGenericResource_confined ns doc labels :
  conform (confined ns) (applyGenericResource decode_meta decode_object ns doc labels) tt whatever.
Proof.
  unfold applyGenericResource. destruct (decode_meta doc) as [[k n]|]; [|done].
  case_goal; [destruct (decode_object ConfigMaps doc); [apply apply_object_confined; set_solver|done]|].
  case_goal.
  { destruct (decode_object PersistentVolumeClaims doc) as [o|]; [|done]. unfold apply_claim. repeat conform_step.
    intros [o'|e]; cbn [confined]; rewrite String.eqb_refl; [done|]. repeat conform_step; [done|]. intros r. cbn [confined].
    rewrite String.eqb_refl, bool_decide_eq_true_2 by set_solver. done. }
  case_goal; [unfold applyCertificate; destruct (decode_object Certificates doc) as [o|]; [|done]; inside; done|].
  case_goal; [destruct (decode_object Secrets doc); [apply apply_object_confined; set_solver|done]|]. done.
Qed.

Lemma ApplyNamespacedResources_confined ns resources labels :
  conform (confined ns) (ApplyNamespacedResources decode_meta decode_object ns resources labels) tt whatever.
Proof.
  induction resources as [|[key doc] resources IH]; cbn [ApplyNamespacedResources]; [done|]. unfold try_bind.
  eapply conform_seq; [apply applyGenericResource_confined|]. by intros [] [[]|e] _.
Qed.

Lemma ensure_storages_confined ns prefix storages : conform (confined ns) (ensure_storages ns prefix storages) tt whatever.
Proof.
  induction storages as [|[name storage] storages IH]; cbn [ensure_storages]; [done|]. case_goal; [done|]. unfold try_bind.
  eapply (conform_seq _ _ _ _ whatever); [|by intros [] [[]|e] _].
  unfold ensure_shared. cbv zeta. repeat conform_step. intros [o|e]; cbn [confined]; rewrite String.eqb_refl; [done|].
  repeat conform_step; try done. intros r. cbn [confined]. rewrite String.eqb_refl, bool_decide_eq_true_2 by set_solver. cbn [andb].
  repeat conform_step; try done. intros r'. cbn [confined]. rewrite String.eqb_refl, bool_decide_eq_true_2 by set_solver. done.
Qed.

(** Injecting stays where it is allowed to be: options without a namespace, with
    one the configuration does not allow, or without a workload are refused
    before anything is called; otherwise every call is in the namespace that was
    asked for, on objects the workspace brings or on the workload that was asked
    for; nothing is deleted and no pod is touched. *)
Theorem Inject_confined w o :
  let inject := Inject decode_map decode_meta decode_object decode_template marshal_state unmarshal_state copy_blueprint
                  clear_network injectNamespaces w (Some o) in
  (AllowsInjectionNamespace injectNamespaces (io_Namespace o) = false -> exists e, inject = Ret (Err e)) /\
  conform (confined (io_Namespace o)) inject tt whatever.
Proof.
  cbv zeta. unfold Inject. split.
  { intros Hns. rewrite Hns. cbn [negb]. case_goal; by eexists. }
  repeat (case_goal; [done|]). unfold inject_accepted. cbn [inject_defaults io_Namespace io_WorkspaceCanonicalId io_WorkloadName io_JobId io_Timeout].
  destruct (sanitizeBlueprintForInjection _ _ _) as [bp|]; [|done].
  set (w' := with_blueprint bp w). destruct (dp_values w') as [values|]; [|done]. cbv zeta.
  apply conform_wrap. inside. destruct x as [rendered|]; [|done].
  apply conform_wrap. inside. destruct x as [rendered'|]; [|done].
  destruct (InjectionSpecFromTemplate _ _ _ _ _) as [spec|]; [|done].
  apply conform_wrap. eapply conform_mono; [apply ApplyNamespacedResources_confined|]. intros [] [[]|e] _; [|done].
  apply conform_wrap. eapply conform_mono with (Q := whatever).
  { unfold ensureSharedStorages. destruct (wo_blueprint w'); [apply ensure_storages_confined|done]. }
  intros [] [[]|e] _; [|done]. apply conform_wrap. unfold GetWorkloadAdapter. case_goal; [|done].
  unfold wrapping. repeat conform_step. intros [wl|e]; cbn [confined]; rewrite String.eqb_refl; [|done].
  destruct (String.eqb_spec (wl_Namespace wl) (io_Namespace o)) as [Hn|]; [|done]. cbn [conform res_wrap].
  apply conform_wrap. unfold InjectIntoWorkload. destruct (inject_workload _ _ _ _ wl) as [wl'|e] eqn:Hwl; [|done].
  assert (Hn' : wl_Namespace wl' = io_Namespace o).
  { unfold inject_workload in Hwl. case_in Hwl; [done|]. apply Ok_inj in Hwl. by rewrite <- Hwl. }
  unfold wrapping. repeat conform_step. intros r. cbn [confined]. rewrite Hn', String.eqb_refl. cbn [conform].
  destruct r as [[]|e]; cbn [res_wrap]; [|done]. apply conform_wrap. inside. by destruct x.
Qed.
End confinement.

(** ** An instance *)

(** A text form of states that reads back, in place of JSON. *)
#[export] Instance InjectionState_eq_dec : EqDecision InjectionState.
Proof. solve_decision. Defined.

#[export] Instance InjectionState_countable : Countable InjectionState.
Proof.
  refine (inj_countable' (fun s => (is_CanonicalId s, is_Containers s, is_InitContainers s, is_Volumes s, is_SharePID s))
    (fun '(c, cs, ics, vs, sp) => mkInjectionState c cs ics vs sp) _). by intros [].
Defined.

Definition demo_marshal (s : InjectionState) : string := "j" +:+ bits (encode s).
Definition demo_unmarshal (s : string) : option InjectionState := unbits (trim_prefix s "j") ≫= decode.

Lemma demo_state_json s : demo_unmarshal (demo_marshal s) = Some s /\ demo_marshal s <> "".
Proof.
  split; [|done]. unfold demo_unmarshal, demo_marshal. rewrite trim_prefix_app, unbits_bits. cbn. apply decode_encode.
Qed.

(** A rendered pod with the token's secret, another one and a local claim. *)
Definition demo_rendered : PodTemplate :=
  mkTemplate {[LabelUsername := "alice"]} {[AnnotationUserStr := "b64"]} None []
    [mkPodContainer "main" [("pat", YNil); ("other", YNil)] YNil]
    [mkVolume "pat" (Some "c1-pat") None YNil; mkVolume "other" (Some "ca") None YNil;
     mkVolume "data" None (Some "pvc-c1-data") YNil].

Definition demo_workload : Workload :=
  mkWorkload "deployment" "team" "api" ∅
    (mkTemplate {["app" := "api"]} ∅ (Some true) [] [mkPodContainer "app" [] YNil] [mkVolume "tmp" None None YNil]).

Lemma eject_inject_witness :
  exists wl', inject_workload demo_marshal demo_unmarshal "c1" (injection_spec "c1" "j1" "k8shell-" demo_rendered) demo_workload = Ok wl' /\
    eject_workload demo_unmarshal "c1" wl' = Ok demo_workload.
Proof.
  eexists. split; [reflexivity|].
  apply (eject_inject demo_marshal demo_unmarshal demo_state_json "c1" "j1" "k8shell-" demo_rendered demo_workload).
  - reflexivity.
  - split; [intros c Hc|intros v Hv]; cbn in *; set_solver.
  - intros k Hk. cbn. unfold injectedLabelKeys in Hk. apply lookup_singleton_ne. intros <-. set_solver.
  - reflexivity.
  - reflexivity.
Defined.

Lemma injected_claim_renamed_witness : exists v, v ∈ sp_Volumes (injection_spec "c1" "j1" "k8shell-" demo_rendered) /\
  vol_Claim v = Some "pvc-k8shell-c1-data".
Proof.
  destruct (injected_claim_renamed "c1" "j1" demo_rendered) as [_ H].
  destruct (H (mkVolume "data" None (Some "pvc-c1-data") YNil) "data") as (v & Hv & _ & Hc & _); [set_solver|reflexivity..|].
  exists v. split; [exact Hv|exact Hc].
Defined.

Lemma ejected_once_witness :
  exists wl', eject_workload (fun _ => Some (mkInjectionState "c1" [] [] [] false)) "c1"
    (mkWorkload "deployment" "team" "api" {[AnnotationInjectionState := "state"]} (wl_Template demo_workload)) = Ok wl' /\
    eject_workload (fun _ => Some (mkInjectionState "c1" [] [] [] false)) "c1" wl' = Err (Plain "is not injected with workspace").
Proof.
  eexists. split; [reflexivity|].
  apply (ejected_once (fun _ => Some (mkInjectionState "c1" [] [] [] false)) "c1"
    (mkWorkload "deployment" "team" "api" {[AnnotationInjectionState := "state"]} (wl_Template demo_workload))).
  reflexivity.
Defined.

Lemma sanitized_blueprint_witness : exists bp', sanitizeBlueprintForInjection Some (fun x => x) (Some demo_bp) = Ok bp' /\
  b_NetworkPolicyClass demo_bp = "user" /\ b_NetworkPolicyClass bp' = "".
Proof.
  eexists. split; [reflexivity|]. split; [reflexivity|].
  apply (sanitized_blueprint Some (fun x => x) demo_bp demo_bp _ eq_refl eq_refl).
Defined.
