(* ===== verification/Adapters.v ===== *)
(** * The workload adapters

    internal/helm/workload.go: one interface over Deployments, StatefulSets and
    DaemonSets, with the injection and ejection of internal/helm/inject.go written
    against it statement by statement. [WorkloadAdapter] is the interface,
    [WorkloadAdapterLaws] what its methods promise each other; the three kinds and
    the dynamic dispatch over them are instances. Injection.v works on the view
    that an adapter gives of its object; here that view is justified: on any
    adapter the code does what inject_workload and eject_workload do, and leaves
    the rest of the object alone. *)

From S2P Require Import Prelude GoStrings Yaml Workspaces Effects Calls HelmOps Injection InjectionLaws.

(** ** The objects *)

(** [metav1.ObjectMeta]; [None] is the nil map. *)
Record ObjectMeta : Type := mkMeta {
  m_Namespace : string;
  m_Name : string;
  m_Annotations : option (gmap string string);
  m_ResourceVersion : string;
}.

(** [metav1.LabelSelector], its match labels. *)
Abbreviation LabelSelector := (gmap string string).

(** The apps/v1 types; [rest] is the part of the object the code never looks at. *)
Record Deployment : Type := mkDeployment {
  dep_Meta : ObjectMeta; dep_Selector : LabelSelector; dep_Template : PodTemplate; dep_rest : yvalue }.
Record StatefulSet : Type := mkStatefulSet {
  ss_Meta : ObjectMeta; ss_Selector : LabelSelector; ss_Template : PodTemplate; ss_rest : yvalue }.
Record DaemonSet : Type := mkDaemonSet {
  ds_Meta : ObjectMeta; ds_Selector : LabelSelector; ds_Template : PodTemplate; ds_rest : yvalue }.

Definition empty_meta : ObjectMeta := mkMeta "" "" None "".

(** The typed clients of the apps/v1 group. *)
Inductive apps : Type -> Type :=
| DeploymentsGet (ns name : string) : apps (answer Deployment)
| DeploymentsUpdate (ns : string) (dep : Deployment) : apps (answer unit)
| StatefulSetsGet (ns name : string) : apps (answer StatefulSet)
| StatefulSetsUpdate (ns : string) (ss : StatefulSet) : apps (answer unit)
| DaemonSetsGet (ns name : string) : apps (answer DaemonSet)
| DaemonSetsUpdate (ns : string) (ds : DaemonSet) : apps (answer unit).

(** The informers of a shared factory. *)
Inductive informer : Type := DeploymentsInformer | StatefulSetsInformer | DaemonSetsInformer.

(** ** The interface *)

(** Objects are behind pointers: a method that writes returns the object as it is
    afterwards.

    src/internal/helm/workload.go:22-46 WorkloadAdapter *)
Class WorkloadAdapter (A : Type) : Type := {
  Kind : A -> string;
  Name : A -> string;
  Namespace : A -> string;
  GetAnnotations : A -> gmap string string * A;
  SetAnnotation : string -> string -> A -> A;
  DeleteAnnotation : string -> A -> A;
  GetPodTemplate : A -> PodTemplate;
  SetPodTemplate : PodTemplate -> A -> A;
  GetSelector : A -> LabelSelector;
  Update : A -> prog apps (answer unit);
  NewInformer : A -> informer;
}.

Definition annotations {A} `{WorkloadAdapter A} (a : A) : gmap string string := (GetAnnotations a).1.

(** What the interface does not show of an object, and its identity. *)
Record remainder : Type := mkRemainder {
  re_Kind : string; re_Namespace : string; re_Name : string; re_Selector : LabelSelector;
  re_ResourceVersion : string; re_rest : yvalue }.

(** The annotations and the pod template are two independent parts of the object,
    and no method changes anything else. *)
Class WorkloadAdapterLaws (A : Type) `{WorkloadAdapter A} : Type := {
  rest_of : A -> remainder;
  rest_identity : forall a,
    re_Kind (rest_of a) = Kind a /\ re_Namespace (rest_of a) = Namespace a /\ re_Name (rest_of a) = Name a /\
    re_Selector (rest_of a) = GetSelector a;
  law_get_annotations : forall a, let a' := (GetAnnotations a).2 in
    annotations a' = annotations a /\ GetPodTemplate a' = GetPodTemplate a /\ rest_of a' = rest_of a;
  law_set_annotation : forall k v a, let a' := SetAnnotation k v a in
    annotations a' = <[k := v]> (annotations a) /\ GetPodTemplate a' = GetPodTemplate a /\ rest_of a' = rest_of a;
  law_delete_annotation : forall k a, let a' := DeleteAnnotation k a in
    annotations a' = delete k (annotations a) /\ GetPodTemplate a' = GetPodTemplate a /\ rest_of a' = rest_of a;
  law_set_template : forall t a, let a' := SetPodTemplate t a in
    annotations a' = annotations a /\ GetPodTemplate a' = t /\ rest_of a' = rest_of a;
}.

(** ** The three kinds *)

(** [make(map[string]string)] where the map is nil. *)
Definition with_annotations (m : ObjectMeta) (f : gmap string string -> gmap string string) : ObjectMeta :=
  mkMeta (m_Namespace m) (m_Name m) (Some (f (default ∅ (m_Annotations m)))) (m_ResourceVersion m).

(** [delete] on the map, which may be nil. *)
Definition without_annotation (m : ObjectMeta) (key : string) : ObjectMeta :=
  mkMeta (m_Namespace m) (m_Name m) (delete key <$> m_Annotations m) (m_ResourceVersion m).

(** Each kind keeps its laws by computation. *)
Ltac solve_laws :=
  unfold annotations; intros;
  match goal with o : _ |- _ => destruct o as [[? ? [?|] ?] ? ? ?] end;
  cbn; rewrite ?delete_empty; done.

(** *** Deployment *)

Definition dep_set_meta (o : Deployment) (m : ObjectMeta) : Deployment := mkDeployment m (dep_Selector o) (dep_Template o) (dep_rest o).

(** src/internal/helm/workload.go:111-116 GetAnnotations *)
Definition dep_GetAnnotations (o : Deployment) : gmap string string * Deployment :=
  let m := with_annotations (dep_Meta o) id in (default ∅ (m_Annotations m), dep_set_meta o m).

(** src/internal/helm/workload.go:117-122 SetAnnotation *)
Definition dep_SetAnnotation (key value : string) (o : Deployment) : Deployment :=
  dep_set_meta o (with_annotations (dep_Meta o) <[key := value]>).

(** src/internal/helm/workload.go:123-125 DeleteAnnotation *)
Definition dep_DeleteAnnotation (key : string) (o : Deployment) : Deployment :=
  dep_set_meta o (without_annotation (dep_Meta o) key).

(** src/internal/helm/workload.go:129-131 SetPodTemplate *)
Definition dep_SetPodTemplate (tpl : PodTemplate) (o : Deployment) : Deployment := mkDeployment (dep_Meta o) (dep_Selector o) tpl (dep_rest o).

(** src/internal/helm/workload.go:135-138 Update *)
Definition dep_Update (o : Deployment) : prog apps (answer unit) := call (DeploymentsUpdate (m_Namespace (dep_Meta o)) o).

(** src/internal/helm/workload.go:103-141 DeploymentAdapter *)
#[export] Instance DeploymentAdapter : WorkloadAdapter Deployment := {|
  Kind _ := "deployment";
  Name o := m_Name (dep_Meta o);
  Namespace o := m_Namespace (dep_Meta o);
  GetAnnotations := dep_GetAnnotations;
  SetAnnotation := dep_SetAnnotation;
  DeleteAnnotation := dep_DeleteAnnotation;
  GetPodTemplate := dep_Template;
  SetPodTemplate := dep_SetPodTemplate;
  GetSelector := dep_Selector;
  Update := dep_Update;
  NewInformer _ := DeploymentsInformer;
|}.

#[export] Instance DeploymentAdapter_laws : WorkloadAdapterLaws Deployment.
Proof.
  refine {| rest_of o := mkRemainder "deployment" (m_Namespace (dep_Meta o)) (m_Name (dep_Meta o)) (dep_Selector o)
                           (m_ResourceVersion (dep_Meta o)) (dep_rest o) |}; solve_laws.
Defined.

(** *** StatefulSet *)

Definition ss_set_meta (o : StatefulSet) (m : ObjectMeta) : StatefulSet := mkStatefulSet m (ss_Selector o) (ss_Template o) (ss_rest o).

(** src/internal/helm/workload.go:154-159 GetAnnotations *)
Definition ss_GetAnnotations (o : StatefulSet) : gmap string string * StatefulSet :=
  let m := with_annotations (ss_Meta o) id in (default ∅ (m_Annotations m), ss_set_meta o m).

(** src/internal/helm/workload.go:160-165 SetAnnotation *)
Definition ss_SetAnnotation (key value : string) (o : StatefulSet) : StatefulSet :=
  ss_set_meta o (with_annotations (ss_Meta o) <[key := value]>).

(** src/internal/helm/workload.go:166-168 DeleteAnnotation *)
Definition ss_DeleteAnnotation (key : string) (o : StatefulSet) : StatefulSet :=
  ss_set_meta o (without_annotation (ss_Meta o) key).

(** src/internal/helm/workload.go:172-174 SetPodTemplate *)
Definition ss_SetPodTemplate (tpl : PodTemplate) (o : StatefulSet) : StatefulSet := mkStatefulSet (ss_Meta o) (ss_Selector o) tpl (ss_rest o).

(** src/internal/helm/workload.go:178-181 Update *)
Definition ss_Update (o : StatefulSet) : prog apps (answer unit) := call (StatefulSetsUpdate (m_Namespace (ss_Meta o)) o).

(** src/internal/helm/workload.go:146-184 StatefulSetAdapter *)
#[export] Instance StatefulSetAdapter : WorkloadAdapter StatefulSet := {|
  Kind _ := "statefulset";
  Name o := m_Name (ss_Meta o);
  Namespace o := m_Namespace (ss_Meta o);
  GetAnnotations := ss_GetAnnotations;
  SetAnnotation := ss_SetAnnotation;
  DeleteAnnotation := ss_DeleteAnnotation;
  GetPodTemplate := ss_Template;
  SetPodTemplate := ss_SetPodTemplate;
  GetSelector := ss_Selector;
  Update := ss_Update;
  NewInformer _ := StatefulSetsInformer;
|}.

#[export] Instance StatefulSetAdapter_laws : WorkloadAdapterLaws StatefulSet.
Proof.
  refine {| rest_of o := mkRemainder "statefulset" (m_Namespace (ss_Meta o)) (m_Name (ss_Meta o)) (ss_Selector o)
                           (m_ResourceVersion (ss_Meta o)) (ss_rest o) |}; solve_laws.
Defined.

(** *** DaemonSet *)

Definition ds_set_meta (o : DaemonSet) (m : ObjectMeta) : DaemonSet := mkDaemonSet m (ds_Selector o) (ds_Template o) (ds_rest o).

(** src/internal/helm/workload.go:197-202 GetAnnotations *)
Definition ds_GetAnnotations (o : DaemonSet) : gmap string string * DaemonSet :=
  let m := with_annotations (ds_Meta o) id in (default ∅ (m_Annotations m), ds_set_meta o m).

(** src/internal/helm/workload.go:203-208 SetAnnotation *)
Definition ds_SetAnnotation (key value : string) (o : DaemonSet) : DaemonSet :=
  ds_set_meta o (with_annotations (ds_Meta o) <[key := value]>).

(** src/internal/helm/workload.go:209-211 DeleteAnnotation *)
Definition ds_DeleteAnnotation (key : string) (o : DaemonSet) : DaemonSet :=
  ds_set_meta o (without_annotation (ds_Meta o) key).

(** src/internal/helm/workload.go:215-217 SetPodTemplate *)
Definition ds_SetPodTemplate (tpl : PodTemplate) (o : DaemonSet) : DaemonSet := mkDaemonSet (ds_Meta o) (ds_Selector o) tpl (ds_rest o).

(** src/internal/helm/workload.go:221-224 Update *)
Definition ds_Update (o : DaemonSet) : prog apps (answer unit) := call (DaemonSetsUpdate (m_Namespace (ds_Meta o)) o).

(** src/internal/helm/workload.go:189-227 DaemonSetAdapter *)
#[export] Instance DaemonSetAdapter : WorkloadAdapter DaemonSet := {|
  Kind _ := "daemonset";
  Name o := m_Name (ds_Meta o);
  Namespace o := m_Namespace (ds_Meta o);
  GetAnnotations := ds_GetAnnotations;
  SetAnnotation := ds_SetAnnotation;
  DeleteAnnotation := ds_DeleteAnnotation;
  GetPodTemplate := ds_Template;
  SetPodTemplate := ds_SetPodTemplate;
  GetSelector := ds_Selector;
  Update := ds_Update;
  NewInformer _ := DaemonSetsInformer;
|}.

#[export] Instance DaemonSetAdapter_laws : WorkloadAdapterLaws DaemonSet.
Proof.
  refine {| rest_of o := mkRemainder "daemonset" (m_Namespace (ds_Meta o)) (m_Name (ds_Meta o)) (ds_Selector o)
                           (m_ResourceVersion (ds_Meta o)) (ds_rest o) |}; solve_laws.
Defined.

(** ** Dynamic dispatch *)

(** A value of the interface type: one of the three, by a pointer to its object. *)
Inductive Adapter : Type :=
| ADeployment (dep : Deployment)
| AStatefulSet (ss : StatefulSet)
| ADaemonSet (ds : DaemonSet).

#[export] Instance Adapter_adapter : WorkloadAdapter Adapter := {|
  Kind a := match a with ADeployment o => Kind o | AStatefulSet o => Kind o | ADaemonSet o => Kind o end;
  Name a := match a with ADeployment o => Name o | AStatefulSet o => Name o | ADaemonSet o => Name o end;
  Namespace a := match a with ADeployment o => Namespace o | AStatefulSet o => Namespace o | ADaemonSet o => Namespace o end;
  GetAnnotations a :=
    match a with
    | ADeployment o => let r := GetAnnotations o in (r.1, ADeployment r.2)
    | AStatefulSet o => let r := GetAnnotations o in (r.1, AStatefulSet r.2)
    | ADaemonSet o => let r := GetAnnotations o in (r.1, ADaemonSet r.2)
    end;
  SetAnnotation k v a :=
    match a with
    | ADeployment o => ADeployment (SetAnnotation k v o)
    | AStatefulSet o => AStatefulSet (SetAnnotation k v o)
    | ADaemonSet o => ADaemonSet (SetAnnotation k v o)
    end;
  DeleteAnnotation k a :=
    match a with
    | ADeployment o => ADeployment (DeleteAnnotation k o)
    | AStatefulSet o => AStatefulSet (DeleteAnnotation k o)
    | ADaemonSet o => ADaemonSet (DeleteAnnotation k o)
    end;
  GetPodTemplate a :=
    match a with ADeployment o => GetPodTemplate o | AStatefulSet o => GetPodTemplate o | ADaemonSet o => GetPodTemplate o end;
  SetPodTemplate t a :=
    match a with
    | ADeployment o => ADeployment (SetPodTemplate t o)
    | AStatefulSet o => AStatefulSet (SetPodTemplate t o)
    | ADaemonSet o => ADaemonSet (SetPodTemplate t o)
    end;
  GetSelector a :=
    match a with ADeployment o => GetSelector o | AStatefulSet o => GetSelector o | ADaemonSet o => GetSelector o end;
  Update a := match a with ADeployment o => Update o | AStatefulSet o => Update o | ADaemonSet o => Update o end;
  NewInformer a := match a with ADeployment o => NewInformer o | AStatefulSet o => NewInformer o | ADaemonSet o => NewInformer o end;
|}.

(** Dispatch inherits the laws of the kind it dispatches to. *)
#[export] Instance Adapter_laws : WorkloadAdapterLaws Adapter.
Proof.
  refine {| rest_of a := match a with ADeployment o => rest_of o | AStatefulSet o => rest_of o | ADaemonSet o => rest_of o end |}.
  - intros [o|o|o]; exact (rest_identity o).
  - intros [o|o|o]; exact (law_get_annotations o).
  - intros k v [o|o|o]; exact (law_set_annotation k v o).
  - intros k [o|o|o]; exact (law_delete_annotation k o).
  - intros t [o|o|o]; exact (law_set_template t o).
Defined.

(** [fmt.Errorf("failed to get Deployment %s/%s: %w", ...)] and the like.

    src/internal/helm/workload.go:51-76 GetWorkloadAdapter *)
Definition typed_GetWorkloadAdapter (namespace kind name : string) : prog apps (answer Adapter) :=
  let kind := lower kind in
  let name := lower name in
  if String.eqb kind "deployment" then
    let? dep := wrapping "failed to get Deployment" (call (DeploymentsGet namespace name)) in Ret (Ok (ADeployment dep))
  else if String.eqb kind "statefulset" then
    let? ss := wrapping "failed to get StatefulSet" (call (StatefulSetsGet namespace name)) in Ret (Ok (AStatefulSet ss))
  else if String.eqb kind "daemonset" then
    let? ds := wrapping "failed to get DaemonSet" (call (DaemonSetsGet namespace name)) in Ret (Ok (ADaemonSet ds))
  else Ret (Err (Plain "unsupported workload kind")).

(** src/internal/helm/workload.go:86-98 ProtoAdapter *)
Definition ProtoAdapter (kind : string) : answer Adapter :=
  let kind := lower kind in
  if String.eqb kind "deployment" then Ok (ADeployment (mkDeployment empty_meta ∅ empty_template YNil))
  else if String.eqb kind "statefulset" then Ok (AStatefulSet (mkStatefulSet empty_meta ∅ empty_template YNil))
  else if String.eqb kind "daemonset" then Ok (ADaemonSet (mkDaemonSet empty_meta ∅ empty_template YNil))
  else Err (Plain "unsupported workload kind").

(** ** Injection and ejection, against the interface *)

Section adapter.
Context {A : Type} `{L : WorkloadAdapterLaws A}.
Variable marshal_state : InjectionState -> string.
Variable unmarshal_state : string -> option InjectionState.
Implicit Types (a : A) (tpl : PodTemplate).

(** The workload as Injection.v sees it. *)
Definition as_workload a : Workload := mkWorkload (Kind a) (Namespace a) (Name a) (annotations a) (GetPodTemplate a).

(** A statement that writes through the pointer that GetPodTemplate returned,
    which points into the object. *)
Definition through (f : PodTemplate -> PodTemplate) a : A := SetPodTemplate (f (GetPodTemplate a)) a.

Definition set_label (k v : string) tpl : PodTemplate :=
  mkTemplate (<[k := v]> (pt_Labels tpl)) (pt_Annotations tpl) (pt_SharePID tpl) (pt_InitContainers tpl)
    (pt_Containers tpl) (pt_Volumes tpl).
Definition set_annotation (k v : string) tpl : PodTemplate :=
  mkTemplate (pt_Labels tpl) (<[k := v]> (pt_Annotations tpl)) (pt_SharePID tpl) (pt_InitContainers tpl)
    (pt_Containers tpl) (pt_Volumes tpl).
Definition set_labels (m : gmap string string) tpl : PodTemplate :=
  mkTemplate m (pt_Annotations tpl) (pt_SharePID tpl) (pt_InitContainers tpl) (pt_Containers tpl) (pt_Volumes tpl).
Definition set_annotations (m : gmap string string) tpl : PodTemplate :=
  mkTemplate (pt_Labels tpl) m (pt_SharePID tpl) (pt_InitContainers tpl) (pt_Containers tpl) (pt_Volumes tpl).
Definition set_share_pid (b : bool) tpl : PodTemplate :=
  mkTemplate (pt_Labels tpl) (pt_Annotations tpl) (Some b) (pt_InitContainers tpl) (pt_Containers tpl) (pt_Volumes tpl).
Definition set_init (cs : list PodContainer) tpl : PodTemplate :=
  mkTemplate (pt_Labels tpl) (pt_Annotations tpl) (pt_SharePID tpl) cs (pt_Containers tpl) (pt_Volumes tpl).
Definition set_containers (cs : list PodContainer) tpl : PodTemplate :=
  mkTemplate (pt_Labels tpl) (pt_Annotations tpl) (pt_SharePID tpl) (pt_InitContainers tpl) cs (pt_Volumes tpl).
Definition set_volumes (vs : list PodVolume) tpl : PodTemplate :=
  mkTemplate (pt_Labels tpl) (pt_Annotations tpl) (pt_SharePID tpl) (pt_InitContainers tpl) (pt_Containers tpl) vs.

(** A range over a Go map, whose entries come in the order [kvs]. *)
Definition range_through (f : string -> string -> PodTemplate -> PodTemplate) (kvs : list (string * string)) a : A :=
  foldl (fun a kv => through (f kv.1 kv.2) a) a kvs.

(** The statements that change the object, in their order.

    src/internal/helm/inject.go:334-395 InjectIntoWorkload *)
Definition adapter_inject (labels annots : list (string * string)) (id : string) (spec : InjectionSpec) a : answer A :=
  let r := GetAnnotations a in
  let a := r.2 in
  if negb (String.eqb (InjectedCanonicalId unmarshal_state r.1) "") then Err (Plain "is already injected with workspace")
  else
    let state := injection_state id spec (GetPodTemplate a) in
    let a := SetAnnotation AnnotationInjectionState (marshal_state state) a in
    let a := range_through set_label labels a in
    let a := through (set_label LabelInjected "true") a in
    let a := through (set_label LabelWorkloadKind (Kind a)) a in
    let a := through (set_label LabelWorkloadName (Name a)) a in
    let a := range_through set_annotation annots a in
    let a := through (set_share_pid true) a in
    let a := through (fun tpl => set_init (pt_InitContainers tpl ++ sp_InitContainers spec) tpl) a in
    let a := through (fun tpl => set_containers (pt_Containers tpl ++ sp_Containers spec) tpl) a in
    let a := through (fun tpl => set_volumes (pt_Volumes tpl ++ sp_Volumes spec) tpl) a in
    Ok (SetPodTemplate (GetPodTemplate a) a).

(** src/internal/helm/inject.go:410-477 EjectFromWorkload *)
Definition adapter_eject (id : string) a : answer A :=
  let r := GetAnnotations a in
  let a := r.2 in
  match ParseInjectionState unmarshal_state r.1 with
  | None => Err (Plain "is not injected with workspace")
  | Some state =>
      if negb (String.eqb (is_CanonicalId state) id) then Err (Plain "is not injected with workspace")
      else
        let a := through (fun tpl => set_containers (filterContainers (pt_Containers tpl) (toSet (is_Containers state))) tpl) a in
        let a := through (fun tpl => set_init (filterContainers (pt_InitContainers tpl) (toSet (is_InitContainers state))) tpl) a in
        let a := through (fun tpl => set_volumes (filterVolumes (pt_Volumes tpl) (toSet (is_Volumes state))) tpl) a in
        let a := through (fun tpl => set_labels (filter (fun kv => kv.1 ∉ injectedLabelKeys) (pt_Labels tpl)) tpl) a in
        let a := through (fun tpl => set_annotations (filter (fun kv => kv.1 ∉ [AnnotationUserStr]) (pt_Annotations tpl)) tpl) a in
        let a := through (set_share_pid (is_SharePID state)) a in
        let a := SetPodTemplate (GetPodTemplate a) a in
        Ok (DeleteAnnotation AnnotationInjectionState a)
  end.

(** src/internal/helm/inject.go:334-404 InjectIntoWorkload *)
Definition adapter_InjectIntoWorkload labels annots (id : string) (spec : InjectionSpec) a : prog apps (answer unit) :=
  match adapter_inject labels annots id spec a with
  | Err e => Ret (Err e)
  | Ok a => wrapping "failed to update workload" (Update a)
  end.

(** src/internal/helm/inject.go:410-486 EjectFromWorkload *)
Definition adapter_EjectFromWorkload (id : string) a : prog apps (answer string) :=
  match adapter_eject id a with
  | Err e => Ret (Err e)
  | Ok a => let? _ := wrapping "failed to update workload during eject" (Update a) in Ret (Ok id)
  end.

(** *** What the statements do *)

(** [a'] is [a] with its template changed by [f], and nothing else. *)
Definition template_changed (f : PodTemplate -> PodTemplate) a a' : Prop :=
  annotations a' = annotations a /\ GetPodTemplate a' = f (GetPodTemplate a) /\ rest_of a' = rest_of a.

Lemma through_changes f a : template_changed f a (through f a).
Proof. apply law_set_template. Qed.

Lemma changed_trans f g a1 a2 a3 :
  template_changed f a1 a2 -> template_changed g a2 a3 -> template_changed (fun t => g (f t)) a1 a3.
Proof. intros (? & Hf & ?) (? & Hg & ?). split_and!; [congruence| |congruence]. by rewrite Hg, Hf. Qed.

Lemma range_changes f kvs a :
  template_changed (fun t => foldl (fun t kv => f kv.1 kv.2 t) t kvs) a (range_through f kvs a).
Proof.
  revert a. induction kvs as [|kv kvs IH]; intros a; [by split|].
  exact (changed_trans (f kv.1 kv.2) (fun t => foldl (fun t kv => f kv.1 kv.2 t) t kvs) a _ _
           (through_changes _ _) (IH (through (f kv.1 kv.2) a))).
Qed.

Lemma self_assigned a : template_changed (fun t => t) a (SetPodTemplate (GetPodTemplate a) a).
Proof. apply (law_set_template (GetPodTemplate a) a). Qed.

Lemma same_identity a a' : rest_of a' = rest_of a -> Kind a' = Kind a /\ Namespace a' = Namespace a /\ Name a' = Name a.
Proof.
  intros Hr. destruct (rest_identity a) as (? & ? & ? & _), (rest_identity a') as (? & ? & ? & _).
  split_and!; congruence.
Qed.

(** Setting the entries of a map one by one, in any order, is the union. *)
Lemma insert_all (kvs : list (string * string)) : forall m : gmap string string,
  NoDup kvs.*1 -> foldl (fun m kv => <[kv.1 := kv.2]> m) m kvs = list_to_map kvs ∪ m.
Proof.
  induction kvs as [|[k v] kvs IH]; intros m; cbn; [by rewrite (left_id_L ∅ (∪))|].
  intros [Hk Hnd]%NoDup_cons. rewrite IH by done. rewrite <- insert_union_r; [by rewrite insert_union_l|].
  by apply not_elem_of_list_to_map_1.
Qed.

Lemma range_map (m0 : gmap string string) kvs (m : gmap string string) :
  kvs ≡ₚ map_to_list m0 -> foldl (fun m kv => <[kv.1 := kv.2]> m) m kvs = m0 ∪ m.
Proof.
  intros Hp. assert (Hnd : NoDup kvs.*1) by (rewrite Hp; apply NoDup_fst_map_to_list).
  rewrite insert_all by done. by rewrite (list_to_map_proper _ _ Hnd Hp), list_to_map_to_list.
Qed.

Lemma fold_set_label kvs : forall tpl,
  foldl (fun t kv => set_label kv.1 kv.2 t) tpl kvs = set_labels (foldl (fun m kv => <[kv.1 := kv.2]> m) (pt_Labels tpl) kvs) tpl.
Proof. induction kvs as [|kv kvs IH]; intros tpl; [by destruct tpl|]. cbn. by rewrite IH. Qed.

Lemma fold_set_annotation kvs : forall tpl,
  foldl (fun t kv => set_annotation kv.1 kv.2 t) tpl kvs = set_annotations (foldl (fun m kv => <[kv.1 := kv.2]> m) (pt_Annotations tpl) kvs) tpl.
Proof. induction kvs as [|kv kvs IH]; intros tpl; [by destruct tpl|]. cbn. by rewrite IH. Qed.

(** The object after the statements: its annotations and template are those of
    the workload [wl], the rest is that of [a]. *)
Definition becomes a (wl : Workload) a' : Prop := as_workload a' = wl /\ rest_of a' = rest_of a.

Lemma becomes_intro a a' anns tpl :
  rest_of a' = rest_of a -> annotations a' = anns -> GetPodTemplate a' = tpl ->
  becomes a (mkWorkload (Kind a) (Namespace a) (Name a) anns tpl) a'.
Proof.
  intros Hr <- <-. split; [|done]. unfold as_workload. by destruct (same_identity _ _ Hr) as (-> & -> & ->).
Qed.

Lemma changed_kind f a a' : template_changed f a a' -> Kind a' = Kind a.
Proof. intros (_ & _ & Hr). by destruct (same_identity a a' Hr). Qed.

Lemma changed_name f a a' : template_changed f a a' -> Name a' = Name a.
Proof. intros (_ & _ & Hr). by destruct (same_identity a a' Hr) as (_ & _ & ?). Qed.

(** Extend [C], what the statements so far did, by the next statement of the goal. *)
Ltac statement C :=
  let extend T := (let C' := fresh "C" in pose proof (changed_trans _ _ _ _ _ C T) as C'; clear C; rename C' into C) in
  lazymatch type of C with
  | template_changed _ ?a ?b =>
      rewrite ?(changed_kind _ _ _ C), ?(changed_name _ _ _ C);
      match goal with
      | |- context [through ?g b] => extend (through_changes g b)
      | |- context [range_through ?g ?kvs b] => extend (range_changes g kvs b)
      | |- context [SetPodTemplate (GetPodTemplate b) b] => extend (self_assigned b)
      end
  end.

Lemma adapter_inject_spec labels annots id spec a :
  labels ≡ₚ map_to_list (sp_PodLabels spec) -> annots ≡ₚ map_to_list (sp_PodAnnotations spec) ->
  match inject_workload marshal_state unmarshal_state id spec (as_workload a) with
  | Err e => adapter_inject labels annots id spec a = Err e
  | Ok wl => exists a', adapter_inject labels annots id spec a = Ok a' /\ becomes a wl a'
  end.
Proof.
  intros Hl Ha. unfold inject_workload, adapter_inject. cbn [wl_Annotations as_workload].
  change (GetAnnotations a).1 with (annotations a).
  destruct (negb _); [done|]. eexists. split; [done|]. cbv zeta.
  destruct (law_get_annotations a) as (Hga & Hgt & Hgr). set (a0 := (GetAnnotations a).2) in *.
  set (st := injection_state id spec (GetPodTemplate a0)).
  destruct (law_set_annotation AnnotationInjectionState (marshal_state st) a0) as (Hsa & Hst & Hsr).
  set (a1 := SetAnnotation _ _ a0) in *.
  destruct (same_identity a a1 ltac:(congruence)) as (HK & _ & HN).
  pose proof (range_changes set_label labels a1) as C. repeat statement C.
  destruct C as (Hann & Htpl & Hrest). apply becomes_intro; [congruence| |].
  - rewrite Hann, Hsa, Hga. unfold st. by rewrite Hgt.
  - rewrite Htpl, Hst, Hgt, fold_set_label, fold_set_annotation, HK, HN. unfold inject_template. cbn.
    by rewrite (range_map _ _ _ Hl), (range_map _ _ _ Ha).
Qed.

Lemma adapter_eject_spec id a :
  match eject_workload unmarshal_state id (as_workload a) with
  | Err e => adapter_eject id a = Err e
  | Ok wl => exists a', adapter_eject id a = Ok a' /\ becomes a wl a'
  end.
Proof.
  unfold eject_workload, adapter_eject. cbn [wl_Annotations as_workload].
  change (GetAnnotations a).1 with (annotations a).
  destruct (ParseInjectionState unmarshal_state (annotations a)) as [state|]; [|done].
  destruct (String.eqb (is_CanonicalId state) id); [|done]. cbn [negb]. eexists. split; [done|]. cbv zeta.
  destruct (law_get_annotations a) as (Hga & Hgt & Hgr). set (a0 := (GetAnnotations a).2) in *.
  pose proof (through_changes (fun tpl => set_containers (filterContainers (pt_Containers tpl) (toSet (is_Containers state))) tpl) a0) as C.
  repeat statement C. destruct C as (Hann & Htpl & Hrest).
  lazymatch goal with |- becomes _ _ (DeleteAnnotation ?k ?b) => destruct (law_delete_annotation k b) as (Hda & Hdt & Hdr) end.
  apply becomes_intro; [congruence| |].
  - by rewrite Hda, Hann, Hga.
  - by rewrite Hdt, Htpl, Hgt.
Qed.
End adapter.

(** ** Refinement *)

Lemma traces_inv {E R} (m : prog E R) t r : traces m t r ->
  match m with
  | Ret a => t = [] /\ r = a
  | Vis e k => exists x t', t = Did e x :: t' /\ traces (k x) t' r
  end.
Proof. intros []; eauto. Qed.

(** What a call on a typed client is for Injection.v. *)
Definition view_event (ev : event apps) : event api :=
  match ev with
  | Did e x =>
      match e in apps X return X -> event api with
      | DeploymentsGet ns name => fun x => Did (WorkloadGet ns "deployment" name) (as_workload <$> x)
      | DeploymentsUpdate _ o => fun x => Did (WorkloadUpdate (as_workload o)) x
      | StatefulSetsGet ns name => fun x => Did (WorkloadGet ns "statefulset" name) (as_workload <$> x)
      | StatefulSetsUpdate _ o => fun x => Did (WorkloadUpdate (as_workload o)) x
      | DaemonSetsGet ns name => fun x => Did (WorkloadGet ns "daemonset" name) (as_workload <$> x)
      | DaemonSetsUpdate _ o => fun x => Did (WorkloadUpdate (as_workload o)) x
      end x
  end.

Fixpoint view_trace (t : list (event apps)) : list (event api) :=
  match t with [] => [] | ev :: t => view_event ev :: view_trace t end.

Lemma view_trace_app t1 t2 : view_trace (t1 ++ t2) = view_trace t1 ++ view_trace t2.
Proof. induction t1 as [|ev t1 IH]; [done|]. cbn. by rewrite IH. Qed.

(** Errors that differ in their texts only. *)
Definition same_error (e e' : goerr) : Prop := reason_of e = reason_of e' /\ forall s, errors_is s e = errors_is s e'.

Definition same_outcome {A B} (R : A -> B -> Prop) (r : answer A) (r' : answer B) : Prop :=
  match r, r' with Ok x, Ok y => R x y | Err e, Err e' => same_error e e' | _, _ => False end.

(** Every run of the typed program is, seen through the adapters, a run of the
    program of Injection.v. *)
Definition trace_refines {A B} (R : A -> B -> Prop) (m : prog apps (answer A)) (m' : prog api (answer B)) : Prop :=
  forall t r, traces m t r -> exists r', traces m' (view_trace t) r' /\ same_outcome R r r'.

Lemma refines_ret {A B} (R : A -> B -> Prop) r r' : same_outcome R r r' -> trace_refines R (Ret r) (Ret r').
Proof. intros HR t r0 [-> ->]%traces_inv. exists r'. split; [constructor|done]. Qed.

Lemma refines_try {A B A' B'} (R : A -> B -> Prop) (R' : A' -> B' -> Prop) m m' f f' :
  trace_refines R m m' -> (forall x y, R x y -> trace_refines R' (f x) (f' y)) ->
  trace_refines R' (try_bind m f) (try_bind m' f').
Proof.
  intros Hm Hf t r (t1 & t2 & a & -> & H1 & H2)%traces_bind. destruct (Hm _ _ H1) as (b & Hb & Hab).
  destruct a as [x|e], b as [y|e']; cbn in Hab; try done.
  - destruct (Hf x y Hab _ _ H2) as (r' & Hr' & Ho). exists r'. split; [|done].
    rewrite view_trace_app. apply traces_bind. eauto 6.
  - apply traces_inv in H2 as [-> ->]. exists (Err e'). split; [|done].
    rewrite view_trace_app. apply traces_bind. exists (view_trace t1), [], (Err e'). split_and!; [done..|constructor].
Qed.

Lemma refines_wrapped {X Y} (R : X -> Y -> Prop) text text' (e : apps (answer X)) (e' : api (answer Y)) (v : answer X -> answer Y) :
  (forall x, view_event (Did e x) = Did e' (v x)) ->
  (forall x, same_outcome R x (v x)) ->
  trace_refines R (wrapping text (call e)) (wrapping text' (call e')).
Proof.
  intros Hv HR t r Ht. unfold wrapping in *. apply traces_bind in Ht as (t1 & t2 & a & -> & H1 & H2).
  apply traces_inv in H1 as (x & t' & -> & [-> ->]%traces_inv). apply traces_inv in H2 as [-> ->].
  exists (res_wrap (Wrap text') (v x)). split.
  - cbn [view_trace app]. rewrite Hv. constructor. constructor.
  - specialize (HR x). by destruct (v x), x.
Qed.

Section injecting.
Variable marshal_state : InjectionState -> string.
Variable unmarshal_state : string -> option InjectionState.

(** The adapter gives the view of the object that was fetched. *)
Lemma GetWorkloadAdapter_refines ns kind name :
  trace_refines (fun (a : Adapter) wl => wl = as_workload a)
    (typed_GetWorkloadAdapter ns kind name) (GetWorkloadAdapter ns kind name).
Proof.
  unfold typed_GetWorkloadAdapter, GetWorkloadAdapter, SupportedWorkloadKinds. cbn [existsb].
  assert (Hget : forall {X} `{WorkloadAdapter X} (mk : X -> Adapter) text (e : apps (answer X)) k,
    (forall x, view_event (Did e x) = Did (WorkloadGet ns k (lower name)) (as_workload <$> x)) ->
    (forall x, as_workload (mk x) = as_workload x) ->
    trace_refines (fun (a : Adapter) wl => wl = as_workload a)
      (let? o := wrapping text (call e) in Ret (Ok (mk o)))
      (wrapping "failed to get workload" (call (WorkloadGet ns k (lower name))))).
  { intros X HX mk text e k He Hmk t r Ht.
    pose proof (refines_wrapped (fun x wl => wl = as_workload x) text "failed to get workload" e _ (fmap as_workload) He) as Hw.
    unfold try_bind in Ht. apply traces_bind in Ht as (t1 & t2 & a & -> & H1 & H2).
    destruct (Hw ltac:(by intros []) _ _ H1) as (r' & Hr' & Ho).
    assert (t2 = [] /\ r = match a with Ok x => Ok (mk x) | Err e => Err e end) as [-> ->]
      by (destruct a; by apply traces_inv in H2 as [-> ->]).
    rewrite app_nil_r. exists r'. split; [done|]. destruct a, r'; cbn in *; try done. by rewrite Hmk. }
  destruct (String.eqb_spec (lower kind) "deployment") as [->|_]; [by apply (Hget Deployment _ ADeployment)|].
  destruct (String.eqb_spec (lower kind) "statefulset") as [->|_]; [by apply (Hget StatefulSet _ AStatefulSet)|].
  destruct (String.eqb_spec (lower kind) "daemonset") as [->|_]; [by apply (Hget DaemonSet _ ADaemonSet)|].
  by apply refines_ret.
Qed.

(** An update sends the view of the object it updates. *)
Lemma Update_refines text text' (a : Adapter) :
  trace_refines eq (wrapping text (Update a)) (wrapping text' (call (WorkloadUpdate (as_workload a)))).
Proof. destruct a as [o|o|o]; apply (refines_wrapped eq text text' _ _ id); try done; by intros []. Qed.

Lemma inject_refines labels annots id spec (a : Adapter) :
  labels ≡ₚ map_to_list (sp_PodLabels spec) -> annots ≡ₚ map_to_list (sp_PodAnnotations spec) ->
  trace_refines eq (adapter_InjectIntoWorkload marshal_state unmarshal_state labels annots id spec a)
    (InjectIntoWorkload marshal_state unmarshal_state id spec (as_workload a)).
Proof.
  intros Hl Ha. pose proof (adapter_inject_spec marshal_state unmarshal_state labels annots id spec a Hl Ha) as Hs.
  unfold adapter_InjectIntoWorkload, InjectIntoWorkload.
  destruct (inject_workload _ _ id spec (as_workload a)) as [wl|e].
  - destruct Hs as (a' & -> & <- & _). apply Update_refines.
  - rewrite Hs. by apply refines_ret.
Qed.

Lemma eject_refines id (a : Adapter) :
  trace_refines eq (adapter_EjectFromWorkload unmarshal_state id a) (EjectFromWorkload unmarshal_state id (as_workload a)).
Proof.
  pose proof (adapter_eject_spec unmarshal_state id a) as Hs. unfold adapter_EjectFromWorkload, EjectFromWorkload.
  destruct (eject_workload _ id (as_workload a)) as [wl|e].
  - destruct Hs as (a' & -> & <- & _). eapply refines_try; [apply Update_refines|]. intros [] [] _. by apply refines_ret.
  - rewrite Hs. by apply refines_ret.
Qed.
End injecting.

(** C6. The code on typed objects refines the model of injection that the other
    theorems are about: every run that fetches a Deployment, StatefulSet or
    DaemonSet through its client and injects a workspace into it, the labels and
    annotations set in any order of the Go maps, is a run of GetWorkloadAdapter
    and InjectIntoWorkload on the view of that object, with the same calls and
    the same outcome; and so is every run that ejects. *)
Theorem typed_injection_refines marshal_state unmarshal_state ns kind name labels annots id spec :
  labels ≡ₚ map_to_list (sp_PodLabels spec) -> annots ≡ₚ map_to_list (sp_PodAnnotations spec) ->
  trace_refines eq
    (let? a := typed_GetWorkloadAdapter ns kind name in
     adapter_InjectIntoWorkload marshal_state unmarshal_state labels annots id spec a)
    (let? wl := GetWorkloadAdapter ns kind name in InjectIntoWorkload marshal_state unmarshal_state id spec wl) /\
  trace_refines eq
    (let? a := typed_GetWorkloadAdapter ns kind name in adapter_EjectFromWorkload unmarshal_state id a)
    (let? wl := GetWorkloadAdapter ns kind name in EjectFromWorkload unmarshal_state id wl).
Proof.
  intros Hl Ha. split; (eapply refines_try; [apply GetWorkloadAdapter_refines|]; intros a ? ->).
  - by apply inject_refines.
  - apply eject_refines.
Qed.

(** Whatever is injected into an object or ejected from it, its kind, name,
    namespace, selector, resource version and everything the adapter does not
    show stay as they are. *)
Theorem injection_leaves_rest {A} `{WorkloadAdapterLaws A} marshal_state unmarshal_state labels annots id spec (a a' : A) :
  labels ≡ₚ map_to_list (sp_PodLabels spec) -> annots ≡ₚ map_to_list (sp_PodAnnotations spec) ->
  adapter_inject marshal_state unmarshal_state labels annots id spec a = Ok a' \/
    adapter_eject unmarshal_state id a = Ok a' ->
  rest_of a' = rest_of a.
Proof.
  intros Hl Ha [Hi|He].
  - pose proof (adapter_inject_spec marshal_state unmarshal_state labels annots id spec a Hl Ha) as Hs.
    destruct (inject_workload _ _ _ _ _); [|congruence]. destruct Hs as (a1 & H1 & _ & Hr). congruence.
  - pose proof (adapter_eject_spec unmarshal_state id a) as Hs.
    destruct (eject_workload _ _ _); [|congruence]. destruct Hs as (a1 & H1 & _ & Hr). congruence.
Qed.

(** ** The selector *)

(** The workload still selects the pods of its own template. *)
Definition selects_own {A} `{WorkloadAdapter A} (a : A) : Prop := GetSelector a ⊆ pt_Labels (GetPodTemplate a).

Lemma subset_through (sel m m' : gmap string string) :
  sel ⊆ m -> (forall k, is_Some (sel !! k) -> m' !! k = m !! k) -> sel ⊆ m'.
Proof.
  rewrite !map_subseteq_spec. intros Hs Hk k v Hv. rewrite Hk by by rewrite Hv. by apply Hs.
Qed.

(** Injecting and ejecting keep a workload's selector satisfied when it uses none
    of the labels of injection: the pods of the changed template are still the
    workload's. *)
Theorem selector_kept {A} `{WorkloadAdapterLaws A} marshal_state unmarshal_state labels annots id spec (a a' : A) :
  labels ≡ₚ map_to_list (sp_PodLabels spec) -> annots ≡ₚ map_to_list (sp_PodAnnotations spec) ->
  (forall k, is_Some (sp_PodLabels spec !! k) -> k ∈ injectedLabelKeys) ->
  (forall k, is_Some (GetSelector a !! k) -> k ∉ injectedLabelKeys) ->
  adapter_inject marshal_state unmarshal_state labels annots id spec a = Ok a' \/
    adapter_eject unmarshal_state id a = Ok a' ->
  selects_own a -> selects_own a'.
Proof.
  intros Hl Ha Hspec Hsel Hop Hown. unfold selects_own in *.
  assert (Hb : exists wl, becomes a wl a' /\ forall k, k ∉ injectedLabelKeys ->
    pt_Labels (wl_Template wl) !! k = pt_Labels (GetPodTemplate a) !! k).
  { destruct Hop as [Hop|Hop].
    - pose proof (adapter_inject_spec marshal_state unmarshal_state labels annots id spec a Hl Ha) as Hs.
      destruct (inject_workload _ _ _ _ _) as [wl|] eqn:E; [|congruence]. destruct Hs as (a1 & H1 & Hb).
      exists wl. split; [congruence|]. intros k Hk. revert E. unfold inject_workload.
      case_goal; [done|]. intros <-%Ok_inj. cbn [wl_Template inject_template pt_Labels as_workload].
      assert (k <> LabelWorkloadName /\ k <> LabelWorkloadKind /\ k <> LabelInjected) as (? & ? & ?)
        by (split_and!; intros ->; apply Hk; unfold injectedLabelKeys; set_solver).
      rewrite !lookup_insert_ne by done. rewrite lookup_union_r; [done|].
      apply eq_None_not_Some. by intros Hin%Hspec.
    - pose proof (adapter_eject_spec unmarshal_state id a) as Hs.
      destruct (eject_workload _ _ _) as [wl|] eqn:E; [|congruence]. destruct Hs as (a1 & H1 & Hb).
      exists wl. split; [congruence|]. intros k Hk. revert E. unfold eject_workload.
      destruct (ParseInjectionState _ _); [|done]. case_goal; [|done]. intros <-%Ok_inj.
      cbn [wl_Template eject_template pt_Labels as_workload].
      destruct (pt_Labels (GetPodTemplate a) !! k) as [v|] eqn:Ek.
      + by apply map_lookup_filter_Some.
      + apply map_lookup_filter_None. by left. }
  destruct Hb as (wl & [Hv Hr] & Hk). pose proof (f_equal wl_Template Hv) as Ht. cbn in Ht. rewrite Ht.
  assert (GetSelector a' = GetSelector a) as ->.
  { destruct (rest_identity a) as (_ & _ & _ & <-), (rest_identity a') as (_ & _ & _ & <-). by rewrite Hr. }
  eapply subset_through; [exact Hown|]. intros k Hs. by apply Hk, Hsel.
Qed.

(** ** Samples *)

Module AdapterSample.
Definition spec : InjectionSpec := injection_spec "c1" "j1" "k8shell-" demo_rendered.
Definition labels : list (string * string) := List.rev (map_to_list (sp_PodLabels spec)).
Definition annots : list (string * string) := map_to_list (sp_PodAnnotations spec).
Definition template (extra : gmap string string) : PodTemplate :=
  let t := wl_Template demo_workload in
  mkTemplate (extra ∪ pt_Labels t) (pt_Annotations t) (pt_SharePID t) (pt_InitContainers t) (pt_Containers t) (pt_Volumes t).
(** A StatefulSet without annotations whose selector asks for [selector]. *)
Definition object (selector : gmap string string) : Adapter :=
  AStatefulSet (mkStatefulSet (mkMeta "team" "api" None "7") selector (template selector) (YInt 3)).
Definition run_get (a : Adapter) : event apps :=
  match a with
  | ADeployment o => Did (DeploymentsGet "team" "api") (Ok o)
  | AStatefulSet o => Did (StatefulSetsGet "team" "api") (Ok o)
  | ADaemonSet o => Did (DaemonSetsGet "team" "api") (Ok o)
  end.
End AdapterSample.

(** An ejection does not consult the selector: a workload whose selector uses a
    label that injection sets too no longer selects its own pods. *)
Theorem ejection_strips_selected_label :
  let a := AdapterSample.object {[LabelUsername := "ann"]} in
  exists injected ejected,
    adapter_inject demo_marshal demo_unmarshal AdapterSample.labels AdapterSample.annots "c1" AdapterSample.spec a = Ok injected /\
    adapter_eject demo_unmarshal "c1" injected = Ok ejected /\
    selects_own a /\ ~ selects_own ejected.
Proof.
  cbv zeta. eexists _, _. split; [vm_compute; reflexivity|]. split; [vm_compute; reflexivity|]. split.
  - unfold selects_own. rewrite map_subseteq_spec. intros k v Hk. cbn [GetSelector Adapter_adapter AdapterSample.object StatefulSetAdapter ss_Selector] in Hk.
    apply lookup_singleton_Some in Hk as [<- <-]. vm_compute. reflexivity.
  - intros Hs. unfold selects_own in Hs. rewrite map_subseteq_spec in Hs.
    specialize (Hs LabelUsername "ann"). vm_compute in Hs. specialize (Hs eq_refl). discriminate Hs.
Qed.

Lemma sample_labels : AdapterSample.labels ≡ₚ map_to_list (sp_PodLabels AdapterSample.spec).
Proof. unfold AdapterSample.labels. symmetry. apply Permutation_rev. Qed.

Lemma sample_annots : AdapterSample.annots ≡ₚ map_to_list (sp_PodAnnotations AdapterSample.spec).
Proof. done. Qed.

Lemma sample_keys k : is_Some (sp_PodLabels AdapterSample.spec !! k) -> k ∈ injectedLabelKeys.
Proof.
  unfold AdapterSample.spec. cbn [injection_spec sp_PodLabels]. rewrite !lookup_insert_is_Some. unfold injectedLabelKeys.
  intros [<-|[_ [<-|[_ Hf]]]]; [set_solver..|].
  destruct Hf as [v [_ Hf]%map_lookup_filter_Some]. cbn in Hf. unfold podLabelAllowlist in Hf. set_solver.
Qed.

Lemma sample_selector_keys k :
  is_Some (GetSelector (AdapterSample.object {["app" := "api"]}) !! k) -> k ∉ injectedLabelKeys.
Proof.
  intros [v Hk]. change (({["app" := "api"]} : gmap string string) !! k = Some v) in Hk.
  apply lookup_singleton_Some in Hk as [<- _]. unfold injectedLabelKeys. set_solver.
Qed.

(** The calls of an injection into a StatefulSet that is found. *)
Lemma stateful_set_found {B} ns name o (f : Adapter -> prog apps (answer B)) t r :
  traces (f (AStatefulSet o)) t r ->
  traces (let? a := typed_GetWorkloadAdapter ns "StatefulSet" name in f a) (Did (StatefulSetsGet ns (lower name)) (Ok o) :: t) r.
Proof.
  intros Hf. unfold typed_GetWorkloadAdapter. change (lower "StatefulSet") with "statefulset".
  apply traces_bind. exists [Did (StatefulSetsGet ns (lower name)) (Ok o)], t, (Ok (AStatefulSet o)).
  split; [done|]. split; [|exact Hf]. apply traces_bind. exists [Did (StatefulSetsGet ns (lower name)) (Ok o)], [], (Ok o).
  split; [done|]. split; [|constructor]. apply (traces_vis (StatefulSetsGet ns (lower name)) _ (Ok o)). constructor.
Qed.

Lemma stateful_set_injected labels annots id spec o o' :
  adapter_inject demo_marshal demo_unmarshal labels annots id spec (AStatefulSet o) = Ok (AStatefulSet o') ->
  traces (adapter_InjectIntoWorkload demo_marshal demo_unmarshal labels annots id spec (AStatefulSet o))
    [Did (StatefulSetsUpdate (m_Namespace (ss_Meta o')) o') (Ok tt)] (Ok tt).
Proof. intros Hi. unfold adapter_InjectIntoWorkload. rewrite Hi.
  apply (traces_vis (StatefulSetsUpdate (m_Namespace (ss_Meta o')) o') _ (Ok tt)). constructor. Qed.

Lemma typed_injection_refines_witness :
  exists o o' r',
  let t := [Did (StatefulSetsGet "team" (lower "API")) (Ok o); Did (StatefulSetsUpdate (m_Namespace (ss_Meta o')) o') (Ok tt)] in
  traces
    (let? a := typed_GetWorkloadAdapter "team" "StatefulSet" "API" in
     adapter_InjectIntoWorkload demo_marshal demo_unmarshal AdapterSample.labels AdapterSample.annots "c1" AdapterSample.spec a)
    t (Ok tt) /\
  traces
    (let? wl := GetWorkloadAdapter "team" "StatefulSet" "API" in
     InjectIntoWorkload demo_marshal demo_unmarshal "c1" AdapterSample.spec wl) (view_trace t) r' /\
  same_outcome eq (Ok tt) r'.
Proof.
  pose (o := mkStatefulSet (mkMeta "team" "api" None "7") ∅ (AdapterSample.template ∅) YNil). exists o.
  assert (Hc : match adapter_inject demo_marshal demo_unmarshal AdapterSample.labels AdapterSample.annots "c1" AdapterSample.spec
                       (AStatefulSet o) with Ok (AStatefulSet _) => true | _ => false end = true)
    by (vm_compute; reflexivity).
  destruct (adapter_inject demo_marshal demo_unmarshal AdapterSample.labels AdapterSample.annots "c1" AdapterSample.spec (AStatefulSet o))
    as [[|o'|]|] eqn:E; try discriminate Hc. exists o'.
  pose proof (stateful_set_found "team" "API" o _ _ _ (stateful_set_injected _ _ _ _ _ _ E)) as Ht.
  destruct (proj1 (typed_injection_refines demo_marshal demo_unmarshal "team" "StatefulSet" "API" AdapterSample.labels
    AdapterSample.annots "c1" AdapterSample.spec sample_labels sample_annots) _ (Ok tt) Ht) as (r' & Hr' & Ho).
  exists r'. split; [exact Ht|]. split; [exact Hr'|exact Ho].
Defined.

Lemma injection_leaves_rest_witness : exists a',
  adapter_inject demo_marshal demo_unmarshal AdapterSample.labels AdapterSample.annots "c1" AdapterSample.spec (AdapterSample.object ∅) = Ok a' /\
  rest_of a' = mkRemainder "statefulset" "team" "api" ∅ "7" (YInt 3).
Proof.
  destruct (adapter_inject demo_marshal demo_unmarshal AdapterSample.labels AdapterSample.annots "c1" AdapterSample.spec
    (AdapterSample.object ∅)) as [a'|e] eqn:E; [|vm_compute in E; discriminate E].
  exists a'. split; [reflexivity|].
  exact (injection_leaves_rest demo_marshal demo_unmarshal AdapterSample.labels AdapterSample.annots "c1" AdapterSample.spec
    (AdapterSample.object ∅) a' sample_labels sample_annots (or_introl E)).
Defined.

Lemma selector_kept_witness : exists a',
  adapter_inject demo_marshal demo_unmarshal AdapterSample.labels AdapterSample.annots "c1" AdapterSample.spec
    (AdapterSample.object {["app" := "api"]}) = Ok a' /\ selects_own a'.
Proof.
  destruct (adapter_inject demo_marshal demo_unmarshal AdapterSample.labels AdapterSample.annots "c1" AdapterSample.spec
    (AdapterSample.object {["app" := "api"]})) as [a'|e] eqn:E; [|vm_compute in E; discriminate E].
  exists a'. split; [reflexivity|].
  refine (selector_kept demo_marshal demo_unmarshal AdapterSample.labels AdapterSample.annots "c1" AdapterSample.spec
    (AdapterSample.object {["app" := "api"]}) a' sample_labels sample_annots _ _ (or_introl E) _).
  - exact sample_keys.
  - exact sample_selector_keys.
  - unfold selects_own. rewrite map_subseteq_spec. intros k v Hk.
    change (({["app" := "api"]} : gmap string string) !! k = Some v) in Hk.
    apply lookup_singleton_Some in Hk as [<- <-]. reflexivity.
Defined.
