(* ===== verification/Update.v ===== *)
(** * Updating a running workspace

    internal/workspace/update.go: limits, network policies and the web-proxy route
    and alias of a workspace that runs, changed on the live objects and not in the
    Helm release. *)

From S2P Require Import Prelude GoStrings Yaml PodState Workspaces Alias Values Effects Calls Manifest HelmOps Instance Provision Injection.

(** src/internal/helm/inject.go:77-77 AnnotationEgressRules *)
Definition AnnotationEgressRules : string := "k8shell.io/egress-rules".

(** src/internal/helm/inject.go:82-82 LabelWebProxy *)
Definition LabelWebProxy : string := "k8shell.io/web-proxy".

(** src/internal/helm/inject.go:90-90 AnnotationWebProxyPort *)
Definition AnnotationWebProxyPort : string := "k8shell.io/web-proxy-port".

(** src/internal/helm/inject.go:91-91 AnnotationWebProxyRoles *)
Definition AnnotationWebProxyRoles : string := "k8shell.io/web-proxy-roles".

(** src/internal/helm/inject.go:98-98 LabelWebProxyAlias *)
Definition LabelWebProxyAlias : string := "k8shell.io/web-proxy-alias".

(** src/internal/helm/inject.go:109-109 AnnotationWebProxyAliasMessage *)
Definition AnnotationWebProxyAliasMessage : string := "k8shell.io/web-proxy-alias-message".

(** src/internal/workspace/update.go:31-31 mainContainerName *)
Definition mainContainerName : string := "k8shell-main".

(** src/internal/workspace/update.go:35-41 npClasses *)
Definition npClasses : list string := ["workspace"; "system"; "isolated"; "user"; "organization"].

(** src/internal/workspace/update.go:70-107 UpdateOptions *)
Record UpdateOptions : Type := mkUpdateOptions {
  up_ChangeResources : bool;
  up_CPU : string;
  up_Memory : string;
  up_ChangeNetwork : bool;
  up_NetworkPolicyClass : string;
  up_ReplaceEgress : bool;
  up_AllowEgressToCIDRs : list string;
  up_AllowEgressToPods : list (gmap string string);
  up_ReplaceWebProxy : bool;
  up_WebProxyPort : Z;
  up_WebProxyRoles : list string;
  up_ChangeWebProxyAlias : bool;
  up_WebProxyAlias : string;
}.

(** src/internal/workspace/update.go:110-120 UpdateResult *)
Record UpdateResult : Type := mkUpdateResult {
  ur_ResourcesChanged : bool;
  ur_AppliedCPU : string;
  ur_AppliedMemory : string;
  ur_NetworkChanged : bool;
  ur_AppliedNetworkPolicyClass : string;
  ur_WebProxyChanged : bool;
  ur_AppliedWebProxyPort : Z;
  ur_WebProxyAliasChanged : bool;
  ur_AppliedWebProxyAlias : string;
}.

(** An update's change of route and alias, with the claim that is to stay and the
    one for the alias on the pod now.

    src/internal/workspace/update.go:193-203 webProxyUpdate *)
Record webProxyUpdate : Type := mkWebProxyUpdate {
  wp_update_pod : WorkspacePod;
  wp_update_id : string;
  wp_update_opts : UpdateOptions;
  wp_keep : string;
  wp_prev : string;
}.

Section update.
Context {F X : Type} `{!Deployment F X}.
#[local] Notation Ws := (WorkspaceObj F X).
(** The validator of alias names, resource.ParseQuantity with the text of the
    quantity, encoding/json, sigs.k8s.io/yaml and the egress rules in the rest of
    a blueprint. *)
Variable IsWebProxyAlias : string -> bool.
Variable parse_quantity : string -> option string.
Variable roles_json : list string -> string.
Variable egress_json : list string -> list (gmap string string) -> string.
Variable decode_kind : string -> option string.
Variable decode_object : kind -> string -> option object.
Variable set_egress : list string -> list (gmap string string) -> X -> X.

(** ** The web-proxy route *)

(** src/internal/workspace/update.go:244-246 clearsRoute *)
Definition clearsRoute (opts : UpdateOptions) : bool := up_ReplaceWebProxy opts && Z.eqb (up_WebProxyPort opts) 0.

(** The claim of the alias the pod carries.

    src/internal/workspace/update.go:227-229 prepareWebProxyUpdate *)
Definition carried_claim (pod : WorkspacePod) : string :=
  let cur := label (wp_Labels pod) LabelWebProxyAlias in
  if String.eqb cur "" then "" else aliasClaimName (label (wp_Labels pod) LabelOrganization) cur.

Definition claim_error (e : alias_error) : goerr :=
  match e with
  | AliasNotALabel alias => Wrap alias (Sentinel ErrInvalidParameters)
  | Alias.ErrNoWebProxyRoute alias _ => Wrap alias (Sentinel ErrNoWebProxyRoute)
  | _ => Plain "failed to claim web-proxy alias"
  end.

(** A pod that is not there is a workspace that is not found. *)
Definition get_pod (name : string) : prog api (answer WorkspacePod) :=
  let! r := call (PodGet target_ns name) in
  Ret (match r with
       | Err e => Err (if IsNotFound e then Wrap name (Sentinel ErrWorkspaceNotFound)
                       else Wrap "failed to get workspace pod" e)
       | Ok pod => Ok pod
       end).

(** src/internal/workspace/update.go:213-241 prepareWebProxyUpdate *)
Definition prepareWebProxyUpdate (name canonicalID : string) (opts : UpdateOptions)
    : prog api (answer (option webProxyUpdate)) :=
  if negb (up_ReplaceWebProxy opts) && negb (up_ChangeWebProxyAlias opts) then Ret (Ok None)
  else
    let? pod := get_pod name in
    let prev := carried_claim pod in
    let update keep := Some (mkWebProxyUpdate pod canonicalID opts keep prev) in
    if up_ChangeWebProxyAlias opts then
      match claimForUpdate IsWebProxyAlias (p_Name (wp_Pod pod)) (label (wp_Labels pod) LabelOrganization)
              (label (wp_Annotations pod) AnnotationWebProxyPort) (up_WebProxyAlias opts)
              (up_ReplaceWebProxy opts) (up_WebProxyPort opts) canonicalID with
      | Err e => Ret (Err (claim_error e))
      | Ok None => Ret (Ok (update ""))
      | Ok (Some c) =>
          let? keep := call (AliasClaimFor (c_org c) (c_alias c) (c_workspace c) (c_canonicalID c)) in
          Ret (Ok (update keep))
      end
    else Ret (Ok (update (if clearsRoute opts then "" else prev))).

(** The failure of a release is only logged.

    src/internal/workspace/update.go:323-327 abort *)
Definition abort (u : webProxyUpdate) : prog api unit :=
  if String.eqb (wp_keep u) (wp_prev u) then Ret tt
  else let! _ := call (AliasRelease (wp_update_id u) (wp_prev u)) in Ret tt.

(** The route's port and metadata after the update.

    src/internal/workspace/update.go:256-278 commit *)
Definition route_patch (opts : UpdateOptions) (pod : WorkspacePod) : Z * meta_patch :=
  if up_ReplaceWebProxy opts then
    let port := up_WebProxyPort opts in
    (port,
     if (0 <? port)%Z then
       mkMetaPatch [(LabelWebProxy, Some "true")]
         [(AnnotationWebProxyPort, Some (pretty port)); (AnnotationWebProxyRoles, Some (roles_json (up_WebProxyRoles opts)))]
     else mkMetaPatch [(LabelWebProxy, None)] [(AnnotationWebProxyPort, None); (AnnotationWebProxyRoles, None)])
  else (default 0%Z (atoi (label (wp_Annotations pod) AnnotationWebProxyPort)), mkMetaPatch [] []).

(** The alias after the update and its metadata.

    src/internal/workspace/update.go:280-295 commit *)
Definition alias_patch (opts : UpdateOptions) (pod : WorkspacePod) : string * meta_patch :=
  if up_ChangeWebProxyAlias opts || clearsRoute opts then
    let alias := if up_ChangeWebProxyAlias opts then up_WebProxyAlias opts else "" in
    (alias, mkMetaPatch [(LabelWebProxyAlias, if String.eqb alias "" then None else Some alias)]
              [(AnnotationWebProxyAliasMessage, None)])
  else (label (wp_Labels pod) LabelWebProxyAlias, mkMetaPatch [] []).

Definition join_patches (p q : meta_patch) : meta_patch :=
  mkMetaPatch (mp_labels p ++ mp_labels q) (mp_annotations p ++ mp_annotations q).

(** src/internal/workspace/update.go:252-319 commit *)
Definition commit (u : webProxyUpdate) : prog api (answer (Z * string)) :=
  let pod := wp_update_pod u in
  let '(port, route) := route_patch (wp_update_opts u) pod in
  let '(alias, aliasing) := alias_patch (wp_update_opts u) pod in
  let! r := call (PodPatch target_ns (p_Name (wp_Pod pod)) (join_patches route aliasing)) in
  match r with
  | Err e =>
      let! _ := abort u in
      Ret (Err (if IsNotFound e then Wrap (p_Name (wp_Pod pod)) (Sentinel ErrWorkspaceNotFound)
                else Wrap "failed to update web-proxy metadata" e))
  | Ok _ =>
      if String.eqb (wp_keep u) (wp_prev u) then Ret (Ok (port, alias))
      else let! _ := call (AliasRelease (wp_update_id u) (wp_keep u)) in Ret (Ok (port, alias))
  end.

(** ** Limits *)

(** A pod in a runtime class sizes its machine when it starts.

    src/internal/workspace/update.go:59-65 checkResizable *)
Definition checkResizable (pod : WorkspacePod) : answer unit :=
  if String.eqb (default "" (RuntimeClassName (wp_Pod pod))) "" then Ok tt
  else Err (Wrap (p_Name (wp_Pod pod)) (Sentinel ErrResizeUnsupported)).

(** src/internal/workspace/update.go:370-376 resizeMainContainer *)
Definition limit_after (what value : string) (current : option string) : answer (option string) :=
  if String.eqb value "" then Ok current
  else match parse_quantity value with
       | None => Err (Wrap ("invalid " +:+ what +:+ " quantity") (Sentinel ErrInvalidParameters))
       | Some q => Ok (Some q)
       end.

Definition main_container (pod : WorkspacePod) : option Container :=
  List.find (fun c => String.eqb (c_Name c) mainContainerName) (wp_Containers pod).

Definition limits_patch (cpu memory : option string) : list (string * string) :=
  match cpu with Some q => [("cpu", q)] | None => [] end ++ match memory with Some q => [("memory", q)] | None => [] end.

(** What a limit reads as: an absent one is the zero quantity. *)
Definition applied (pod : WorkspacePod) (limit : Container -> option string) : string :=
  match main_container pod with Some c => default "0" (limit c) | None => "" end.

(** src/internal/workspace/update.go:339-432 resizeMainContainer *)
Definition resizeMainContainer (w : Ws) (cpu memory : string) : prog api (answer (string * string)) :=
  let? pod := get_pod (wo_Name w) in
  match checkResizable pod with
  | Err e => Ret (Err e)
  | Ok _ =>
      match main_container pod with
      | None => Ret (Err (Plain "workspace pod has no main container"))
      | Some current =>
          match limit_after "cpu" cpu (c_CPU current) with
          | Err e => Ret (Err e)
          | Ok cpu =>
              match limit_after "memory" memory (c_Memory current) with
              | Err e => Ret (Err e)
              | Ok memory =>
                  let! r := call (PodResize target_ns (wo_Name w) mainContainerName (limits_patch cpu memory)) in
                  Ret (match r with
                       | Err e => if is_reason Invalid e || is_reason BadRequest e
                                  then Err (Wrap "cannot resize workspace" (Sentinel ErrInvalidParameters))
                                  else Err (Wrap "failed to resize workspace pod" e)
                       | Ok updated => Ok (applied updated c_CPU, applied updated c_Memory)
                       end)
              end
          end
      end
  end.

(** ** Network policies *)

(** The class in effect: the pod's label, which an earlier update may have moved
    off the blueprint's class, then the blueprint, then the chart's default.

    src/internal/workspace/update.go:488-499 reapplyNetworkPolicies *)
Definition class_in_effect (pod : WorkspacePod) (bp : WsBlueprint F X) : string :=
  let current := label (wp_Labels pod) LabelNetworkPolicy in
  if negb (String.eqb current "") then current
  else if negb (String.eqb (b_NetworkPolicyClass bp) "") then b_NetworkPolicyClass bp
  else "workspace".

(** The class the policies are rendered with, and whether it was asked for.

    src/internal/workspace/update.go:477-500 reapplyNetworkPolicies *)
Definition policy_class (w : Ws) (bp : WsBlueprint F X) (opts : UpdateOptions) : prog api (answer (string * bool)) :=
  if negb (String.eqb (up_NetworkPolicyClass opts) "") then Ret (Ok (up_NetworkPolicyClass opts, true))
  else let? pod := get_pod (wo_Name w) in Ret (Ok (class_in_effect pod bp, false)).

(** src/internal/workspace/update.go:505-508 reapplyNetworkPolicies *)
Definition policy_owner (w : Ws) : string :=
  if negb (String.eqb (wo_canonicalId w) "") then wo_canonicalId w
  else match wo_userStr w with Some us => us_CanonicalId us | None => "" end.

(** src/internal/workspace/update.go:515-519 reapplyNetworkPolicies *)
Definition with_network (bp : WsBlueprint F X) (class : string) (opts : UpdateOptions) : WsBlueprint F X :=
  let '(mkWsBlueprint n ki ns sa io r po _ wpa ra ro rn rr st x) := bp in
  mkWsBlueprint n ki ns sa io r po class wpa ra ro rn rr st
    (if up_ReplaceEgress opts then set_egress (up_AllowEgressToCIDRs opts) (up_AllowEgressToPods opts) x else x).

(** The network policies of the rendered documents, and the Cilium ones.

    src/internal/workspace/update.go:528-555 reapplyNetworkPolicies *)
Fixpoint policies (docs : list string) : answer (list object * list object) :=
  match docs with
  | [] => Ok ([], [])
  | doc :: docs =>
      let found := default "" (decode_kind doc) in
      if String.eqb found "NetworkPolicy" then
        match decode_object NetworkPolicies doc with
        | None => Err (Plain "failed to decode rendered NetworkPolicy")
        | Some o => (fun p => (o :: p.1, p.2)) <$> policies docs
        end
      else if String.eqb found "CiliumNetworkPolicy" then
        match decode_object CiliumNetworkPolicies doc with
        | None => Err (Plain "failed to decode rendered CiliumNetworkPolicy")
        | Some o => (fun p => (p.1, o :: p.2)) <$> policies docs
        end
      else policies docs
  end.

(** src/internal/workspace/update.go:713-742 systemCiliumNetworkPolicy *)
Definition systemCiliumNetworkPolicy (w : Ws) (canonicalID : string) : object :=
  let org := match wo_user w with Some user => u_Organization user | None => "" end in
  mkObject ("cilium-np-" +:+ wo_Name w) {[LabelCanonicalId := canonicalID]} ∅ ""
    (YMap [("endpointSelector",
            YMap [("matchLabels", YMap [(LabelOrganization, YStr org); (LabelCanonicalId, YStr canonicalID)])]);
           ("egress", YSeq [YMap [("toEntities", YSeq [YStr "world"; YStr "cluster"])]])]).

(** The chart renders its Cilium policy only where Helm sees the API, which a
    rendering without a cluster does not.

    src/internal/workspace/update.go:564-566 reapplyNetworkPolicies *)
Definition with_system_policy (w : Ws) (class : string) (cps : list object) : list object :=
  if String.eqb class "system" && bool_decide (cps = []) then [systemCiliumNetworkPolicy w (policy_owner w)] else cps.

(** A policy as part of the release.

    src/internal/workspace/update.go:693-708 stampHelmOwnership *)
Definition owned (w : Ws) (o : object) : object :=
  let '(labels, annotations) := stampHelmOwnership (obj_Labels o) (obj_Annotations o) (wo_Name w) target_ns in
  mkObject (obj_Name o) labels annotations (obj_ResourceVersion o) (obj_body o).

(** Created, or updated when one of that name is there.

    src/internal/workspace/update.go:595-609 reapplyNetworkPolicies *)
Fixpoint put_policies (nps : list object) : prog api (answer unit) :=
  match nps with
  | [] => Ret (Ok tt)
  | np :: nps =>
      let! r := call (ObjCreate NetworkPolicies target_ns false np) in
      match r with
      | Ok _ => put_policies nps
      | Err e =>
          if negb (IsAlreadyExists e) then Ret (Err (Wrap "failed to create network policy" e))
          else
            let? existing := wrapping "failed to get existing network policy"
                               (call (ObjGet NetworkPolicies target_ns (obj_Name np))) in
            let? _ := wrapping "failed to update network policy"
                        (call (ObjUpdate NetworkPolicies target_ns (with_version (obj_ResourceVersion existing) np))) in
            put_policies nps
      end
  end.

(** Created, or deleted and created; a cluster without Cilium is left alone.

    src/internal/workspace/update.go:611-628 reapplyNetworkPolicies *)
Fixpoint put_cilium (cps : list object) : prog api (answer unit) :=
  match cps with
  | [] => Ret (Ok tt)
  | cp :: cps =>
      let! r := call (ObjCreate CiliumNetworkPolicies target_ns false cp) in
      match r with
      | Ok _ => put_cilium cps
      | Err e =>
          if is_reason NoMatch e then put_cilium cps
          else if IsAlreadyExists e then
            let? _ := unless_gone "failed to replace CiliumNetworkPolicy"
                        (call (ObjDelete CiliumNetworkPolicies target_ns (obj_Name cp))) in
            let? _ := wrapping "failed to recreate CiliumNetworkPolicy"
                        (call (ObjCreate CiliumNetworkPolicies target_ns false cp)) in
            put_cilium cps
          else Ret (Err (Wrap "failed to create CiliumNetworkPolicy" e))
      end
  end.

(** The metadata of the pod that follows the policies.

    src/internal/workspace/update.go:638-663 reapplyNetworkPolicies *)
Definition network_patch (opts : UpdateOptions) (class : string) (classChanged : bool) : meta_patch :=
  mkMetaPatch
    (if classChanged then [(LabelNetworkPolicy, Some class)] else [])
    (if up_ReplaceEgress opts then
       [(AnnotationEgressRules,
         match up_AllowEgressToCIDRs opts, up_AllowEgressToPods opts with
         | [], [] => None
         | cidrs, pods => Some (egress_json cidrs pods)
         end)]
     else []).

(** The policies are replaced: the old ones deleted by label, the new ones created.

    src/internal/workspace/update.go:583-628 reapplyNetworkPolicies *)
Definition replace_policies (canonicalID : string) (nps cps : list object) : prog api (answer unit) :=
  let sel := canonical_selector canonicalID in
  let? _ := unless_gone "failed to delete existing network policies" (call (ObjDeleteCollection NetworkPolicies target_ns sel)) in
  let! _ := call (ObjDeleteCollection CiliumNetworkPolicies target_ns sel) in
  let? _ := put_policies nps in
  put_cilium cps.

(** src/internal/workspace/update.go:470-679 reapplyNetworkPolicies *)
Definition reapplyNetworkPolicies (w : Ws) (opts : UpdateOptions) : prog api (answer (string * bool)) :=
  match wo_blueprint w with
  | None => Ret (Err (Plain "blueprint is nil for workspace"))
  | Some bp =>
      let? (class, classChanged) := policy_class w bp opts in
      if negb (existsb (String.eqb class) npClasses)
      then Ret (Err (Wrap "unknown network policy class" (Sentinel ErrInvalidParameters)))
      else if String.eqb (policy_owner w) "" then Ret (Err (Plain "cannot determine canonical id for workspace"))
      else
        let? manifest := wrapping "failed to render workspace chart" (Template (with_blueprint (with_network bp class opts) w)) in
        match policies (documents manifest) with
        | Err e => Ret (Err e)
        | Ok ([], _) => Ret (Err (Plain "chart rendered no NetworkPolicy"))
        | Ok (nps, cps) =>
            let cps := with_system_policy w class cps in
            let? _ := replace_policies (policy_owner w) (owned w <$> nps) (owned w <$> cps) in
            let patch := network_patch opts class classChanged in
            let! _ := (if classChanged || up_ReplaceEgress opts
                       then let! _ := call (PodPatch target_ns (wo_Name w) patch) in Ret tt else Ret tt) in
            Ret (Ok (class, classChanged))
        end
  end.

(** ** The update *)

(** [fail] of a step: a claim that was taken is given back. *)
Definition or_abort {A} (u : option webProxyUpdate) (m : prog api (answer A)) : prog api (answer A) :=
  let! r := m in
  match r with
  | Ok a => Ret (Ok a)
  | Err e => let! _ := match u with Some u => abort u | None => Ret tt end in Ret (Err e)
  end.

(** src/internal/workspace/update.go:132-189 UpdateResourcesAndNetwork *)
Definition UpdateResourcesAndNetwork (w : Ws) (opts : UpdateOptions) : prog api (answer UpdateResult) :=
  let? u := prepareWebProxyUpdate (wo_Name w) (canonicalIdForCleanup w) opts in
  let? limits := (if up_ChangeResources opts
                  then or_abort u (resizeMainContainer w (up_CPU opts) (up_Memory opts)) else Ret (Ok ("", ""))) in
  let? network := (if up_ChangeNetwork opts then or_abort u (reapplyNetworkPolicies w opts) else Ret (Ok ("", false))) in
  let result port alias :=
    mkUpdateResult (up_ChangeResources opts) limits.1 limits.2
      (up_ChangeNetwork opts) (if network.2 : bool then network.1 else "")
      (up_ReplaceWebProxy opts) (if up_ReplaceWebProxy opts then port else 0%Z)
      (up_ChangeWebProxyAlias opts) (if up_ChangeWebProxyAlias opts then alias else "") in
  match u with
  | None => Ret (Ok (result 0%Z ""))
  | Some u => let? pa := commit u in Ret (Ok (result pa.1 pa.2))
  end.
End update.
