(* ===== verification/UpdateSpec.v ===== *)
(** * What an update guarantees

    Theorems on Update.v: the policies of a workspace are replaced by the rendered
    ones on an API server, and an update asks for the alias claims it does not use to
    be given back, whatever is answered. *)

From S2P Require Import Prelude GoStrings Yaml PodState Workspaces Alias Values Effects Calls Manifest HelmOps Instance Provision Injection Update.

(** ** The policies on a server *)

(** Whether the selector of a deletion matches the object. *)
Definition selected (sel : string) (o : object) : bool :=
  match obj_Labels o !! LabelCanonicalId with Some id => String.eqb (canonical_selector id) sel | None => false end.

Definition deleted_by (k : kind) (ns sel : string) (e : kind * string * string * object) : Prop :=
  e.1.1.1 = k /\ e.1.1.2 = ns /\ selected sel e.2 = true.

#[export] Instance deleted_by_dec k ns sel e : Decision (deleted_by k ns sel e).
Proof. apply _. Defined.

Definition purge (k : kind) (ns sel : string) (s : served) : served :=
  mkServed (filter (fun e => ~ deleted_by k ns sel e) (sv_objs s)) (sv_rev s).

(** HelmOps.v's server with one pod, a chart that renders, and deletions. *)
Definition serve_cluster (pod : WorkspacePod) (manifest : string) X (s : served) (e : api X) : served * X :=
  match e in api X return served * X with
  | PodGet _ _ => (s, Ok pod)
  | ChartTemplate _ _ => (s, Ok manifest)
  | ObjDelete k ns name => (mkServed (delete (k, ns, name) (sv_objs s)) (sv_rev s), Ok tt)
  | ObjDeleteCollection k ns sel => (purge k ns sel s, Ok tt)
  | e => serve _ s e
  end.

Lemma with_version_twice rv rv' o : with_version rv (with_version rv' o) = with_version rv o.
Proof. by destruct o. Qed.

(** The last of the objects of that name. *)
Definition last_named (name : string) (l : list object) : option object :=
  foldl (fun found o => if String.eqb (obj_Name o) name then Some o else found) None l.

Lemma last_named_from name l d :
  foldl (fun found o => if String.eqb (obj_Name o) name then Some o else found) d l =
  match last_named name l with Some o => Some o | None => d end.
Proof.
  unfold last_named. revert d. induction l as [|o l IH]; intros d; cbn; [done|].
  rewrite (IH (if String.eqb _ _ then _ else d)), (IH (if String.eqb _ _ then _ else None)).
  destruct (foldl _ None l); [done|]. by case_goal.
Qed.

Lemma last_named_cons name o l :
  last_named name (o :: l) = match last_named name l with Some o => Some o | None => if String.eqb (obj_Name o) name then Some o else None end.
Proof. unfold last_named at 1. cbn. apply last_named_from. Qed.

(** Objects of a kind written one after another. *)
Definition put_all (k : kind) (ns : string) (l : list object) (s : served) : served :=
  foldl (fun s o => put_object (k, ns, obj_Name o) o s) s l.

Lemma put_all_lookup k ns l s key :
  match (if bool_decide (key.1 = (k, ns)) then last_named key.2 l else None) with
  | Some o => exists rv, sv_objs (put_all k ns l s) !! key = Some (with_version rv o)
  | None => sv_objs (put_all k ns l s) !! key = sv_objs s !! key
  end.
Proof.
  destruct key as [[k' ns'] name]. cbn [fst snd]. revert s. unfold put_all.
  induction l as [|o l IH]; intros s; [by destruct (bool_decide _)|]. cbn [foldl].
  specialize (IH (put_object (k, ns, obj_Name o) o s)). rewrite last_named_cons.
  case_bool_decide as Hk; [|rewrite IH; cbn; apply lookup_insert_ne; congruence].
  injection Hk as -> ->. destruct (last_named name l) as [o'|]; [done|]. rewrite IH. cbn.
  destruct (String.eqb_spec (obj_Name o) name) as [<-|Hn].
  - exists (pretty (sv_rev s)). apply lookup_insert_eq.
  - apply lookup_insert_ne. congruence.
Qed.

Lemma purge_lookup k ns sel s key :
  sv_objs (purge k ns sel s) !! key =
  match sv_objs s !! key with
  | Some o => if bool_decide (key.1 = (k, ns)) && selected sel o then None else Some o
  | None => None
  end.
Proof.
  unfold purge. cbn [sv_objs]. rewrite map_lookup_filter. destruct (sv_objs s !! key) as [o|]; [|done]. cbn.
  case_guard as H; unfold deleted_by in H; cbn [fst snd] in H; cbn; destruct key as [[k' ns'] name]; cbn [fst snd] in *.
  - destruct (bool_decide_reflect ((k', ns') = (k, ns))) as [[= -> ->]|Hne]; cbn [andb]; [|done].
    destruct (selected sel o); [|done]. by destruct H.
  - destruct H as (-> & -> & ->). by rewrite bool_decide_eq_true_2.
Qed.

Section replaced.
Context {F X : Type} `{!Deployment F X}.
Variable decode_kind : string -> option string.
Variable decode_object : kind -> string -> option object.
Variable egress_json : list string -> list (gmap string string) -> string.
Variable set_egress : list string -> list (gmap string string) -> X -> X.
Variables (pod : WorkspacePod) (manifest : string).
#[local] Notation run_here := (run (serve_cluster pod manifest)).
#[local] Notation reapply := (reapplyNetworkPolicies egress_json decode_kind decode_object set_egress).
Implicit Types w : WorkspaceObj F X.

Lemma put_policies_run nps s : run_here (put_policies nps) s = (put_all NetworkPolicies target_ns nps s, Ok tt).
Proof.
  revert s. induction nps as [|np nps IH]; intros s; [done|]. cbn [put_policies].
  rewrite run_bind, run_call. cbn [serve_cluster serve].
  destruct (sv_objs s !! (NetworkPolicies, target_ns, obj_Name np)) as [cur|] eqn:E0; [|by rewrite IH].
  change (IsAlreadyExists (Api AlreadyExists)) with true. cbn [negb].
  rewrite run_try_bind, run_wrapping, run_call. cbn [serve_cluster serve]. rewrite E0. cbn [res_wrap].
  rewrite run_try_bind, run_wrapping, run_call. cbn [serve_cluster serve obj_Name with_version obj_ResourceVersion].
  rewrite E0, String.eqb_refl, orb_true_r. cbn [res_wrap]. rewrite IH. cbn. unfold put_object. by rewrite with_version_twice.
Qed.

(** Objects that only differ in the counter of versions from those of the server. *)
Lemma put_cilium_run cps s : exists s', run_here (put_cilium cps) s = (s', Ok tt) /\
  sv_objs s' = sv_objs (put_all CiliumNetworkPolicies target_ns cps s) /\ sv_rev s' = sv_rev (put_all CiliumNetworkPolicies target_ns cps s).
Proof.
  revert s. induction cps as [|cp cps IH]; intros s; [by exists s|]. cbn [put_cilium].
  rewrite run_bind, run_call. cbn [serve_cluster serve].
  destruct (sv_objs s !! (CiliumNetworkPolicies, target_ns, obj_Name cp)) as [cur|] eqn:E0; [|apply IH].
  change (is_reason NoMatch (Api AlreadyExists)) with false. change (IsAlreadyExists (Api AlreadyExists)) with true. cbn iota.
  rewrite run_try_bind. unfold unless_gone. rewrite run_bind, run_call. cbn [serve_cluster serve run].
  rewrite run_try_bind, run_wrapping, run_call. cbn [serve_cluster serve sv_objs]. rewrite lookup_delete_eq. cbn [res_wrap].
  unfold put_object. cbn [sv_objs sv_rev]. rewrite insert_delete_eq. apply IH.
Qed.

Lemma same_collection (k k' : kind) (ns : string) :
  bool_decide ((k, ns) = (k', target_ns)) = bool_decide (k = k') && String.eqb ns target_ns.
Proof. destruct (String.eqb_spec ns target_ns); repeat case_bool_decide; cbn; congruence. Qed.

(** The policies of the workspace afterwards. *)
Definition rendered (k : kind) (nps cps : list object) : list object :=
  match k with NetworkPolicies => nps | CiliumNetworkPolicies => cps | _ => [] end.

Definition is_policy (k : kind) : bool :=
  match k with NetworkPolicies | CiliumNetworkPolicies => true | _ => false end.

(** Exactly the given policies stand for the owner, and no other object changed. *)
Definition replaced (owner : string) (nps cps : list object) (s s' : served) : Prop :=
  forall k ns name,
    match (if String.eqb ns target_ns then last_named name (rendered k nps cps) else None) with
    | Some o => exists rv, sv_objs s' !! (k, ns, name) = Some (with_version rv o)
    | None => sv_objs s' !! (k, ns, name) =
        match sv_objs s !! (k, ns, name) with
        | Some o => if is_policy k && String.eqb ns target_ns && selected (canonical_selector owner) o then None else Some o
        | None => None
        end
    end.

Lemma replace_policies_run owner nps cps s : exists s',
  run_here (replace_policies owner nps cps) s = (s', Ok tt) /\ replaced owner nps cps s s'.
Proof.
  unfold replace_policies. cbv zeta. rewrite run_try_bind. unfold unless_gone. rewrite run_bind, run_call.
  cbn [serve_cluster run]. rewrite run_bind, run_call. cbn [serve_cluster]. rewrite run_try_bind, put_policies_run.
  set (s2 := purge _ _ _ (purge _ _ _ s)). destruct (put_cilium_run cps (put_all NetworkPolicies target_ns nps s2)) as (s' & Hr & Ho & _).
  exists s'. split; [exact Hr|]. intros k ns name. rewrite Ho.
  pose proof (put_all_lookup CiliumNetworkPolicies target_ns cps (put_all NetworkPolicies target_ns nps s2) (k, ns, name)) as Hc.
  pose proof (put_all_lookup NetworkPolicies target_ns nps s2 (k, ns, name)) as Hn. cbn [fst snd] in Hc, Hn.
  rewrite !same_collection in Hc, Hn.
  assert (Hp : sv_objs s2 !! (k, ns, name) = match sv_objs s !! (k, ns, name) with
    | Some o => if is_policy k && String.eqb ns target_ns && selected (canonical_selector owner) o then None else Some o
    | None => None end).
  { unfold s2. rewrite !purge_lookup. cbn [fst]. rewrite !same_collection. destruct (sv_objs s !! (k, ns, name)) as [o|]; [|done].
    destruct k, (String.eqb ns target_ns), (selected (canonical_selector owner) o) eqn:Hsel; cbn; rewrite ?Hsel; try done;
      change (bool_decide (CiliumNetworkPolicies = NetworkPolicies)) with false; cbn; rewrite Hsel; done. }
  clearbody s2. rewrite <- Hp. clear Hp. destruct (String.eqb ns target_ns).
  - rewrite andb_true_r in Hc, Hn. destruct (decide (k = CiliumNetworkPolicies)) as [->|Hk].
    + change (bool_decide (CiliumNetworkPolicies = NetworkPolicies)) with false in Hn. cbn iota in Hn.
      rewrite bool_decide_eq_true_2 in Hc by done. change (rendered CiliumNetworkPolicies nps cps) with cps.
      destruct (last_named name cps); [done|]. by rewrite Hc.
    + rewrite bool_decide_eq_false_2 in Hc by done. rewrite Hc.
      destruct k; try exact Hn. done.
  - rewrite !andb_false_r in Hc, Hn. by rewrite Hc.
Qed.
End replaced.

(** The class an update renders the policies with. *)
Definition effective_class {F X} (pod : WorkspacePod) (bp : WsBlueprint F X) (opts : UpdateOptions) : string :=
  if String.eqb (up_NetworkPolicyClass opts) "" then class_in_effect pod bp else up_NetworkPolicyClass opts.

Lemma policy_class_run {F X} `{!Deployment F X} {St} (h : forall A, St -> api A -> St * A) pod (w : WorkspaceObj F X) bp opts s :
  (forall s ns name, h _ s (PodGet ns name) = (s, Ok pod)) ->
  run h (policy_class w bp opts) s = (s, Ok (effective_class pod bp opts, negb (String.eqb (up_NetworkPolicyClass opts) ""))).
Proof.
  intros Hh. unfold policy_class, effective_class. destruct (String.eqb (up_NetworkPolicyClass opts) ""); cbn [negb]; [|done].
  unfold get_pod. rewrite run_try_bind, run_bind, run_call. by rewrite Hh.
Qed.

(** Re-applying the network of a workspace replaces its policies exactly: on an
    API server, for a known class and a chart that renders, the call succeeds with
    the class asked for or in effect; afterwards every rendered policy stands
    under its name with the release's ownership metadata, every other policy
    that carries the workspace's canonical id is gone, and no other object of
    any kind or namespace has changed. *)
Theorem reapply_replaces {F X} `{!Deployment F X} decode_kind decode_object egress_json set_egress
    pod manifest (w : WorkspaceObj F X) bp opts values nps cps s :
  wo_blueprint w = Some bp ->
  existsb (String.eqb (effective_class pod bp opts)) npClasses = true -> policy_owner w <> "" ->
  dp_values (with_blueprint (with_network set_egress bp (effective_class pod bp opts) opts) w) = Ok values ->
  policies decode_kind decode_object (documents manifest) = Ok (nps, cps) -> nps <> [] ->
  exists s',
    run (serve_cluster pod manifest) (reapplyNetworkPolicies egress_json decode_kind decode_object set_egress w opts) s =
      (s', Ok (effective_class pod bp opts, negb (String.eqb (up_NetworkPolicyClass opts) ""))) /\
    replaced (policy_owner w) (owned w <$> nps) (owned w <$> with_system_policy w (effective_class pod bp opts) cps) s s'.
Proof.
  intros Hbp Hclass Howner%String.eqb_neq Hvalues Hpol Hnps. unfold reapplyNetworkPolicies. rewrite Hbp, run_try_bind.
  rewrite (policy_class_run (serve_cluster pod manifest) pod) by done.
  rewrite Hclass, Howner. cbn [negb]. rewrite run_try_bind, run_wrapping. unfold Template. rewrite Hvalues, run_call.
  cbn [serve_cluster res_wrap]. rewrite Hpol. destruct nps as [|np nps]; [done|]. rewrite run_try_bind.
  destruct (replace_policies_run pod manifest (policy_owner w) (owned w <$> np :: nps)
    (owned w <$> with_system_policy w (effective_class pod bp opts) cps) s) as (s' & -> & Hs').
  exists s'. split; [|exact Hs']. rewrite run_bind. by destruct (negb _ || up_ReplaceEgress opts).
Qed.

(** An update of the class alone, with one rendered policy in place of an old one. *)
Definition demo_update : UpdateOptions := mkUpdateOptions false "" "" true "isolated" false [] [] false 0 [] false "".

Definition demo_policy (name : string) : object := mkObject name {[LabelCanonicalId := "c1"]} ∅ "" YNil.

Definition demo_cluster : served :=
  mkServed {[(NetworkPolicies, "ws", "np-old") := demo_policy "np-old"]} 1.

Definition stored (s : served) (k : kind) (ns name : string) : option object := sv_objs s !! (k, ns, name).

Lemma reapply_replaces_witness : exists s',
  stored s' NetworkPolicies "ws" "np-old" = None /\
  exists rv, stored s' NetworkPolicies "ws" "np-new" = Some (with_version rv (owned demo_ws (demo_policy "np-new"))).
Proof.
  assert (exists values, demo_values_of (with_blueprint (with_network (fun _ _ x => x) demo_bp "isolated" demo_update) demo_ws) = Ok values)
    as [values Hv] by (eexists; vm_compute; reflexivity).
  destruct (reapply_replaces (fun _ => Some "NetworkPolicy") (fun _ _ => Some (demo_policy "np-new")) (fun _ _ => "") (fun _ _ x => x)
    (mkWorkspacePod PodState.PodSample.pod ∅ [] [] "") "np" demo_ws demo_bp demo_update values [demo_policy "np-new"] [] demo_cluster)
    as (s' & _ & Hs').
  - reflexivity.
  - reflexivity.
  - discriminate.
  - exact Hv.
  - reflexivity.
  - discriminate.
  - exists s'. split.
    + exact (Hs' NetworkPolicies "ws" "np-old").
    + exact (Hs' NetworkPolicies "ws" "np-new").
Defined.

(** The same server when it rejects new policies. *)
Definition serve_rejecting (pod : WorkspacePod) (manifest : string) X (s : served) (e : api X) : served * X :=
  match e in api X return served * X with
  | ObjCreate NetworkPolicies _ false _ => (s, Err (Api Invalid))
  | e => serve_cluster pod manifest _ s e
  end.

(** The replacement of policies is not atomic: when the server rejects the
    first rendered policy, the update fails, and every network policy that carried
    the workspace's canonical id has been deleted, with none in its place. *)
Theorem rejected_policies_leave_none {F X} `{!Deployment F X} decode_kind decode_object egress_json set_egress
    pod manifest (w : WorkspaceObj F X) bp opts values nps cps s :
  wo_blueprint w = Some bp ->
  existsb (String.eqb (effective_class pod bp opts)) npClasses = true -> policy_owner w <> "" ->
  dp_values (with_blueprint (with_network set_egress bp (effective_class pod bp opts) opts) w) = Ok values ->
  policies decode_kind decode_object (documents manifest) = Ok (nps, cps) -> nps <> [] ->
  exists s' e,
    run (serve_rejecting pod manifest) (reapplyNetworkPolicies egress_json decode_kind decode_object set_egress w opts) s = (s', Err e) /\
    forall name o, stored s NetworkPolicies target_ns name = Some o -> obj_Labels o !! LabelCanonicalId = Some (policy_owner w) ->
      stored s' NetworkPolicies target_ns name = None.
Proof.
  intros Hbp Hclass Howner%String.eqb_neq Hvalues Hpol Hnps. unfold reapplyNetworkPolicies. rewrite Hbp, run_try_bind.
  rewrite (policy_class_run (serve_rejecting pod manifest) pod) by done.
  rewrite Hclass, Howner. cbn [negb]. rewrite run_try_bind, run_wrapping. unfold Template. rewrite Hvalues, run_call.
  cbn [serve_rejecting serve_cluster res_wrap]. rewrite Hpol. destruct nps as [|np nps]; [done|].
  unfold replace_policies. cbv zeta. rewrite !run_try_bind. unfold unless_gone. rewrite run_bind, run_call.
  cbn [serve_rejecting serve_cluster run]. rewrite run_bind, run_call. cbn [serve_rejecting serve_cluster]. rewrite run_try_bind.
  cbn [fmap list_fmap put_policies]. rewrite run_bind, run_call. cbn [serve_rejecting].
  change (negb (IsAlreadyExists (Api Invalid))) with true. cbn iota. eexists _, _. split; [reflexivity|].
  intros name o Ho Hl. unfold stored. rewrite !purge_lookup. unfold stored in Ho. rewrite Ho. cbn [fst].
  rewrite bool_decide_eq_true_2 by done. unfold selected. rewrite Hl, String.eqb_refl. done.
Qed.

Lemma rejected_policies_leave_none_witness : exists s' : served, stored s' NetworkPolicies "ws" "np-old" = None.
Proof.
  assert (exists values, demo_values_of (with_blueprint (with_network (fun _ _ x => x) demo_bp "isolated" demo_update) demo_ws) = Ok values)
    as [values Hv] by (eexists; vm_compute; reflexivity).
  destruct (rejected_policies_leave_none (fun _ => Some "NetworkPolicy") (fun _ _ => Some (demo_policy "np-new")) (fun _ _ => "") (fun _ _ x => x)
    (mkWorkspacePod PodState.PodSample.pod ∅ [] [] "") "np" demo_ws demo_bp demo_update values [demo_policy "np-new"] [] demo_cluster)
    as (s' & e & _ & Hs').
  - reflexivity.
  - reflexivity.
  - discriminate.
  - exact Hv.
  - reflexivity.
  - discriminate.
  - exists s'. apply (Hs' "np-old" (demo_policy "np-old")); reflexivity.
Defined.

(** ** The alias claims of an update *)

(** What an update knows: the pod it read first, the claim of the alias the pod
    carries now, the claim it was granted, and whether it has asked, since the pod
    carries that claim, that all claims but it be given back. *)
Record ledger : Type := mkLedger {
  lg_pod : option WorkspacePod;
  lg_carried : string;
  lg_granted : option string;
  lg_asked : bool;
}.

(** The alias a patch sets, [Some None] when it removes it. *)
Definition alias_value (p : meta_patch) : option (option string) :=
  snd <$> List.find (fun kv => String.eqb kv.1 LabelWebProxyAlias) (mp_labels p).

(** Whether the update is to give the workspace an alias. *)
Definition sets_alias (opts : UpdateOptions) : bool :=
  up_ChangeWebProxyAlias opts && negb (String.eqb (up_WebProxyAlias opts) "").

Definition pod_org (pod : WorkspacePod) : string := label (wp_Labels pod) LabelOrganization.

(** The rules. An alias is only claimed for this workspace and the one alias asked
    for, and a claim has the name Alias.v gives it. Before that claim an update
    that sets an alias changes nothing. An alias is only put on the pod when its
    claim was granted. The claims that are released are all but that of the alias
    the pod carries. Only the pod, its limits and the workspace's policies change. *)
Definition settles {F X} `{!Deployment F X} (opts : UpdateOptions) (name id owner : string) (st : ledger) A (e : api A)
    : A -> judgement ledger :=
  let allowed := negb (sets_alias opts) || bool_decide (is_Some (lg_granted st)) in
  let here ns := String.eqb ns target_ns in
  let change ok := if allowed && ok then Next st else Forbidden in
  match e in api A return A -> judgement ledger with
  | PodGet ns n => fun r =>
      if here ns && String.eqb n name then
        match r with
        | Ok pod => if negb (String.eqb (p_Name (wp_Pod pod)) n) then Excluded
                    else match lg_pod st with
                         | None => Next (mkLedger (Some pod) (carried_claim pod) None false)
                         | Some _ => Next st
                         end
        | Err _ => Next st
        end
      else Forbidden
  | AliasClaimFor org alias ws id' => fun r =>
      match lg_pod st, lg_granted st with
      | Some pod, None =>
          if String.eqb org (pod_org pod) && String.eqb alias (up_WebProxyAlias opts) && String.eqb ws name && String.eqb id' id
          then match r with
               | Ok c => if String.eqb c (aliasClaimName org alias)
                         then Next (mkLedger (Some pod) (lg_carried st) (Some c) (lg_asked st)) else Excluded
               | Err _ => Next st
               end
          else Forbidden
      | _, _ => Forbidden
      end
  | AliasRelease id' keep => fun _ =>
      if bool_decide (is_Some (lg_pod st)) && String.eqb id' id && String.eqb keep (lg_carried st)
      then Next (mkLedger (lg_pod st) (lg_carried st) (lg_granted st) true) else Forbidden
  | PodPatch ns n p => fun r =>
      if allowed && here ns && String.eqb n name then
        match r, alias_value p with
        | Err _, _ | _, None => Next st
        | Ok _, Some None => Next (mkLedger (lg_pod st) "" (lg_granted st) false)
        | Ok _, Some (Some alias) =>
            match lg_pod st with
            | Some pod => if bool_decide (lg_granted st = Some (aliasClaimName (pod_org pod) alias))
                          then Next (mkLedger (Some pod) (aliasClaimName (pod_org pod) alias) (lg_granted st) false)
                          else Forbidden
            | None => Forbidden
            end
        end
      else Forbidden
  | PodResize ns n _ _ => fun _ => change (here ns && String.eqb n name)
  | ObjCreate (NetworkPolicies | CiliumNetworkPolicies) ns _ _ => fun _ => change (here ns)
  | ObjUpdate NetworkPolicies ns _ => fun _ => change (here ns)
  | ObjDelete CiliumNetworkPolicies ns _ => fun _ => change (here ns)
  | ObjDeleteCollection (NetworkPolicies | CiliumNetworkPolicies) ns sel => fun _ =>
      change (here ns && String.eqb sel (canonical_selector owner))
  | ObjGet NetworkPolicies ns _ => fun _ => if here ns then Next st else Forbidden
  | ChartTemplate _ _ => fun _ => Next st
  | _ => fun _ => Forbidden
  end.

(** A claim that was granted is the one the pod carries, or has been asked to be
    given back. *)
Definition asked_back (st : ledger) : Prop :=
  match lg_granted st with Some c => lg_asked st = true \/ lg_carried st = c | None => True end.

(** The calls of the steps between the claim and the commit. *)
Definition update_calls {F X} `{!Deployment F X} (name owner : string) {A} (e : api A) : bool :=
  match e with
  | PodGet ns n | PodResize ns n _ _ => String.eqb ns target_ns && String.eqb n name
  | PodPatch ns n p => String.eqb ns target_ns && String.eqb n name && bool_decide (alias_value p = None)
  | ObjCreate (NetworkPolicies | CiliumNetworkPolicies) ns _ _ | ObjUpdate NetworkPolicies ns _ | ObjGet NetworkPolicies ns _
  | ObjDelete CiliumNetworkPolicies ns _ => String.eqb ns target_ns
  | ObjDeleteCollection (NetworkPolicies | CiliumNetworkPolicies) ns sel =>
      String.eqb ns target_ns && String.eqb sel (canonical_selector owner)
  | ChartTemplate _ _ => true
  | _ => false
  end.

Section settled.
Context {F X : Type} `{!Deployment F X}.
Variable IsWebProxyAlias : string -> bool.
Variable parse_quantity : string -> option string.
Variable roles_json : list string -> string.
Variable egress_json : list string -> list (gmap string string) -> string.
Variable decode_kind : string -> option string.
Variable decode_object : kind -> string -> option object.
Variable set_egress : list string -> list (gmap string string) -> X -> X.
Implicit Types w : WorkspaceObj F X.

(** *** The steps in between *)

Lemma get_pod_calls name owner : only (@update_calls _ _ _ name owner) (get_pod name).
Proof. unfold get_pod, only. repeat conform_step. intros r. cbn [update_calls]. by rewrite !String.eqb_refl. Qed.

Lemma resize_calls w owner cpu memory : only (@update_calls _ _ _ (wo_Name w) owner) (resizeMainContainer parse_quantity w cpu memory).
Proof.
  unfold resizeMainContainer, try_bind. apply only_bind; [apply get_pod_calls|]. intros [pod|e]; [|done].
  repeat (case_goal; try done). unfold only. repeat conform_step. intros r. cbn [update_calls]. by rewrite !String.eqb_refl.
Qed.

(** One call of the class, in a program or at its end. *)
Ltac called := intros ?; cbn [update_calls]; rewrite ?String.eqb_refl; cbn [andb conform].

Lemma put_policies_calls name owner nps : only (@update_calls _ _ _ name owner) (put_policies nps).
Proof.
  induction nps as [|np nps IH]; cbn [put_policies]; [done|]. unfold only in *. repeat conform_step. called.
  destruct x as [[]|e]; [exact IH|]. case_goal; [done|]. unfold wrapping. repeat conform_step. called.
  destruct x as [o|e']; cbn [res_wrap]; [|done]. repeat conform_step. called. destruct x as [[]|e']; cbn [res_wrap]; [exact IH|done].
Qed.

Lemma put_cilium_calls name owner cps : only (@update_calls _ _ _ name owner) (put_cilium cps).
Proof.
  induction cps as [|cp cps IH]; cbn [put_cilium]; [done|]. unfold only in *. repeat conform_step. called.
  destruct x as [[]|e]; [exact IH|]. case_goal; [exact IH|]. case_goal; [|done]. unfold unless_gone, wrapping.
  repeat conform_step. called. case_goal; [|done]. repeat conform_step. called. destruct x0 as [[]|e']; cbn [res_wrap]; [exact IH|done].
Qed.

Lemma replace_policies_calls name owner nps cps : only (@update_calls _ _ _ name owner) (replace_policies owner nps cps).
Proof.
  unfold replace_policies, only, unless_gone. cbv zeta. repeat conform_step. called. case_goal; [|done].
  repeat conform_step. called. apply conform_try. eapply conform_mono; [apply put_policies_calls|]. intros [] [[]|e] _; [|done].
  apply put_cilium_calls.
Qed.

Lemma reapply_calls w opts : only (@update_calls _ _ _ (wo_Name w) (policy_owner w))
  (reapplyNetworkPolicies egress_json decode_kind decode_object set_egress w opts).
Proof.
  unfold reapplyNetworkPolicies. destruct (wo_blueprint w) as [bp|]; [|done]. unfold try_bind. apply only_bind.
  { unfold policy_class. case_goal; [done|]. unfold try_bind. apply only_bind; [apply get_pod_calls|]. by intros [pod|e]. }
  intros [[class changed]|e]; [|done]. repeat (case_goal; [done|]). apply only_bind.
  { unfold wrapping. apply only_bind; [|done]. unfold Template. case_goal; [|done]. unfold only. repeat conform_step. called. done. }
  intros [manifest|e]; [|done]. destruct (policies _ _ _) as [[[|np nps] cps]|e]; [done| |done]. cbv zeta.
  apply only_bind; [apply replace_policies_calls|]. intros [[]|e]; [|done]. apply only_bind; [|done].
  case_goal; [|done]. unfold only. repeat conform_step. called.
  rewrite bool_decide_eq_true_2; [done|]. by destruct changed.
Qed.

(** *** The claim and the commit *)

(** What has been prepared: either no claim was needed, or the one for the alias
    asked for is to be kept. *)
Definition ready opts name id (st : ledger) (u : webProxyUpdate) : Prop :=
  lg_pod st = Some (wp_update_pod u) /\ p_Name (wp_Pod (wp_update_pod u)) = name /\ wp_update_id u = id /\
  wp_update_opts u = opts /\ lg_carried st = wp_prev u /\ lg_asked st = false /\
  if sets_alias opts
  then lg_granted st = Some (wp_keep u) /\ wp_keep u = aliasClaimName (pod_org (wp_update_pod u)) (up_WebProxyAlias opts)
  else lg_granted st = None /\ wp_keep u = (if up_ChangeWebProxyAlias opts || clearsRoute opts then "" else wp_prev u).

Definition prepared opts name id (st : ledger) (r : answer (option webProxyUpdate)) : Prop :=
  match r with
  | Err _ => lg_granted st = None
  | Ok None => lg_granted st = None /\ up_ChangeWebProxyAlias opts = false
  | Ok (Some u) => ready opts name id st u
  end.

Lemma prepare_settles opts name id owner :
  conform (settles opts name id owner) (prepareWebProxyUpdate IsWebProxyAlias name id opts)
    (mkLedger None "" None false) (prepared opts name id).
Proof.
  unfold prepareWebProxyUpdate. case_goal; [apply andb_prop in Heqb as [_ H%negb_true_iff]; done|].
  unfold get_pod. apply conform_try, conform_bind, conform_call. intros r. cbn [settles]. rewrite !String.eqb_refl. cbn [andb].
  destruct r as [pod|e]; [|done]. destruct (String.eqb_spec (p_Name (wp_Pod pod)) name) as [Hn|]; [|done]. cbn [negb lg_pod conform].
  destruct (up_ChangeWebProxyAlias opts) eqn:Hc.
  - unfold claimForUpdate. destruct (String.eqb_spec (up_WebProxyAlias opts) "") as [Ha|Ha].
    { cbn. unfold ready, sets_alias. cbn. by rewrite Hc, Ha. }
    destruct (negb (IsWebProxyAlias _)); [done|].
    destruct (if up_ReplaceWebProxy opts then _ else _); [|done]. apply conform_try, conform_call. intros r. cbn [settles lg_pod lg_granted c_org c_alias c_workspace c_canonicalID].
    unfold pod_org. rewrite Hn, !String.eqb_refl. cbn [andb]. destruct r as [c|e]; [|done].
    destruct (String.eqb_spec c (aliasClaimName (label (wp_Labels pod) LabelOrganization) (up_WebProxyAlias opts))) as [->|]; [|done].
    cbn. unfold ready, sets_alias. cbn. apply String.eqb_neq in Ha. by rewrite Hc, Ha.
  - cbn. unfold ready, sets_alias. cbn. rewrite Hc. cbn. split_and!; try done.
Qed.

Lemma abort_settles opts name id owner st u :
  ready opts name id st u -> conform (settles opts name id owner) (abort u) st (fun st _ => asked_back st).
Proof.
  intros (Hp & Hn & Hi & Ho & Hc & Hs & Hg). unfold abort. destruct (String.eqb_spec (wp_keep u) (wp_prev u)) as [He|He].
  - cbn. unfold asked_back. destruct (sets_alias opts); destruct Hg as [-> _]; [right; congruence|done].
  - apply conform_bind, conform_call. intros r. cbn [settles]. rewrite Hp, Hi, Hc, !String.eqb_refl. cbn.
    unfold asked_back. cbn. destruct (lg_granted st); auto.
Qed.

(** Where an update ends. *)
Definition done_with {A} opts (st : ledger) (r : answer A) : Prop :=
  asked_back st /\
  match r with
  | Ok _ => up_ChangeWebProxyAlias opts = true ->
      exists pod, lg_pod st = Some pod /\
        lg_carried st = if String.eqb (up_WebProxyAlias opts) "" then "" else aliasClaimName (pod_org pod) (up_WebProxyAlias opts)
  | Err _ => True
  end.

(** The alias in the patch of a commit. *)
Lemma commit_alias opts pod :
  alias_value (join_patches (route_patch roles_json opts pod).2 (alias_patch opts pod).2) =
  if up_ChangeWebProxyAlias opts || clearsRoute opts
  then Some (if sets_alias opts then Some (up_WebProxyAlias opts) else None) else None.
Proof.
  assert (Hr : forall q, alias_value (join_patches (route_patch roles_json opts pod).2 q) = alias_value q).
  { intros q. unfold route_patch. case_goal; [|done]. cbv zeta. by case_goal. }
  rewrite Hr. unfold alias_patch, sets_alias. destruct (up_ChangeWebProxyAlias opts); cbn [orb andb].
  - by destruct (String.eqb (up_WebProxyAlias opts) "").
  - by destruct (clearsRoute opts).
Qed.

Lemma commit_settles opts name id owner st u :
  ready opts name id st u -> conform (settles opts name id owner) (commit roles_json u) st (done_with opts).
Proof.
  intros Hready. pose proof Hready as (Hp & Hn & Hi & Ho & Hc & Hs & Hg). unfold commit.
  pose proof (commit_alias opts (wp_update_pod u)) as Halias. rewrite Ho.
  destruct (route_patch roles_json opts (wp_update_pod u)) as [port route]. destruct (alias_patch opts (wp_update_pod u)) as [alias aliasing].
  cbn [snd] in Halias. apply conform_bind, conform_call. intros r. cbn [settles]. rewrite Hn, !String.eqb_refl, Halias.
  assert (negb (sets_alias opts) || bool_decide (is_Some (lg_granted st)) = true) as ->.
  { destruct (sets_alias opts); [|done]. by destruct Hg as [-> _]. }
  cbn [andb]. destruct r as [[]|e].
  2: { apply conform_bind. eapply conform_mono; [by apply (abort_settles opts name)|]. intros st' [] H. split; [exact H|done]. }
  unfold sets_alias in *. destruct (up_ChangeWebProxyAlias opts) eqn:Hch; cbn [orb andb] in *.
  - destruct (String.eqb (up_WebProxyAlias opts) "") eqn:Ha; cbn [negb] in *.
    + destruct Hg as [Hg Hk]. rewrite Hk. destruct (String.eqb_spec "" (wp_prev u)) as [He|He].
      * cbn. split; [unfold asked_back; cbn; by rewrite Hg|]. intros _. exists (wp_update_pod u). by rewrite Ha.
      * apply conform_bind, conform_call. intros r. cbn [settles lg_pod lg_carried]. rewrite Hp, Hi, !String.eqb_refl. cbn.
        split; [unfold asked_back; cbn; by rewrite Hg|]. intros _. exists (wp_update_pod u). by rewrite Ha.
    + destruct Hg as [Hg Hk]. rewrite Hp. rewrite bool_decide_eq_true_2 by by rewrite Hg, Hk.
      destruct (String.eqb_spec (wp_keep u) (wp_prev u)) as [He|He].
      * cbn. split; [unfold asked_back; cbn; rewrite Hg; right; congruence|]. intros _. exists (wp_update_pod u). by rewrite Ha.
      * apply conform_bind, conform_call. intros r. cbn [settles lg_pod lg_carried]. rewrite Hi, Hk, !String.eqb_refl. cbn.
        split; [unfold asked_back; cbn; rewrite Hg; auto|]. intros _. exists (wp_update_pod u). by rewrite Ha.
  - destruct Hg as [Hg Hk]. destruct (clearsRoute opts).
    + rewrite Hk. destruct (String.eqb_spec "" (wp_prev u)) as [He|He].
      * cbn. split; [unfold asked_back; cbn; by rewrite Hg|congruence].
      * apply conform_bind, conform_call. intros r. cbn [settles lg_pod lg_carried]. rewrite Hp, Hi, !String.eqb_refl. cbn.
        split; [unfold asked_back; cbn; by rewrite Hg|congruence].
    + rewrite Hk, String.eqb_refl. cbn. split; [unfold asked_back; by rewrite Hg|congruence].
Qed.

(** *** The whole update *)

Lemma ready_allowed opts name id st u :
  ready opts name id st u -> negb (sets_alias opts) || bool_decide (is_Some (lg_granted st)) = true.
Proof. intros (_ & _ & _ & _ & _ & _ & Hg). destruct (sets_alias opts); [|done]. by destruct Hg as [-> _]. Qed.

(** A call of a step in between moves nothing once the pod is known. *)
Lemma between_steady opts name id owner st A (e : api A) x :
  negb (sets_alias opts) || bool_decide (is_Some (lg_granted st)) = true -> update_calls name owner e = true ->
  settles opts name id owner st A e x =
    match e in api A return A -> judgement ledger with
    | PodGet _ n => fun r =>
        match r with
        | Ok pod => if negb (String.eqb (p_Name (wp_Pod pod)) n) then Excluded
                    else match lg_pod st with None => Next (mkLedger (Some pod) (carried_claim pod) None false) | Some _ => Next st end
        | Err _ => Next st
        end
    | _ => fun _ => Next st
    end x.
Proof.
  intros Ha He. destruct e; try discriminate He; cbn [update_calls] in He; cbn [settles]; try rewrite Ha; try done.
  - by rewrite He.
  - apply andb_prop in He as [He Hv%bool_decide_eq_true_1]. apply andb_prop in He as [-> ->]. rewrite Hv. cbn. by destruct x.
  - by rewrite He.
  - destruct k; try discriminate He. by rewrite He.
  - destruct k; try discriminate He; by rewrite He.
  - destruct k; try discriminate He. by rewrite He.
  - destruct k; try discriminate He. by rewrite He.
  - destruct k; try discriminate He; by rewrite He.
Qed.

Lemma step_settles {A} opts name id owner st u (m : prog api (answer A)) :
  only (@update_calls _ _ _ name owner) m -> ready opts name id st u ->
  conform (settles opts name id owner) (or_abort (Some u) m) st
    (fun st' r => match r with Ok _ => st' = st | Err _ => asked_back st' end).
Proof.
  intros Hm Hu. unfold or_abort. apply conform_bind. eapply steady; [exact Hm| |].
  - intros B e x He. rewrite between_steady by eauto using ready_allowed. destruct e; auto. destruct x as [pod|e]; [|auto].
    destruct (negb _); [auto|]. destruct Hu as (-> & _). auto.
  - intros [a|e]; [done|]. apply conform_bind. eapply conform_mono; [by eapply abort_settles|]. by intros st' [] H.
Qed.

(** Without a change of the route or the alias. *)
Lemma plain_settles {A} opts name id owner st (m : prog api (answer A)) :
  only (@update_calls _ _ _ name owner) m -> lg_granted st = None -> up_ChangeWebProxyAlias opts = false ->
  conform (settles opts name id owner) (or_abort None m) st (fun st' _ => lg_granted st' = None).
Proof.
  intros Hm Hg Hc. unfold or_abort. apply conform_bind. eapply conform_mono with (Q := fun st _ => lg_granted st = None).
  - apply (invariant_kept _ _ (fun st => lg_granted st = None) _ _ Hm Hg). intros st' B e x Hg' He.
    rewrite between_steady; [|unfold sets_alias; by rewrite Hc|done]. destruct e; try done. destruct x as [pod|e]; [|done].
    destruct (negb _); [done|]. by destruct (lg_pod st').
  - by intros st' [a|e] H.
Qed.

(** C12. An update accounts for the alias claims it takes, whatever is answered. Before it
    holds the claim of the alias it sets, it changes nothing; it puts only that
    alias on the pod; it changes only the workspace's pod and policies; whenever it
    asks for claims to be given back it keeps the one of the alias the pod carries.
    At the end, failed or not, a claim it was granted is the one the pod carries, or
    it has asked for it to be given back (a failure of which is only logged and
    leaves the claim with the workspace), and after a success the pod carries the
    alias that was asked for. *)
Theorem update_settles_claims w opts :
  conform (settles opts (wo_Name w) (canonicalIdForCleanup w) (policy_owner w))
    (UpdateResourcesAndNetwork IsWebProxyAlias parse_quantity roles_json egress_json decode_kind decode_object set_egress w opts)
    (mkLedger None "" None false) (done_with opts).
Proof.
  unfold UpdateResourcesAndNetwork. apply conform_try. eapply conform_mono; [apply prepare_settles|]. intros st [[u|]|e] H; cbn in H.
  - assert (Hfail : forall A st e, asked_back st -> done_with (A := A) opts st (Err e)) by done.
    apply conform_try. eapply conform_mono with (Q := fun st' r => match r with Ok _ => st' = st | Err _ => asked_back st' end).
    { case_goal; [apply step_settles; [apply resize_calls|exact H]|done]. }
    intros st' [limits|e] H'; [subst st'|by apply Hfail].
    apply conform_try. eapply conform_mono with (Q := fun st' r => match r with Ok _ => st' = st | Err _ => asked_back st' end).
    { case_goal; [apply step_settles; [apply reapply_calls|exact H]|done]. }
    intros st' [network|e] H'; [subst st'|by apply Hfail]. apply conform_try.
    eapply conform_mono; [by apply commit_settles|]. by intros st' [pa|e].
  - destruct H as [Hg Hc].
    assert (Hplain : forall A st (r : answer A), lg_granted st = None -> done_with opts st r).
    { intros A st' r Hg'. split; [unfold asked_back; by rewrite Hg'|]. destruct r; [congruence|done]. }
    apply conform_try. eapply conform_mono with (Q := fun st' _ => lg_granted st' = None).
    { case_goal; [apply plain_settles; [apply resize_calls|done..]|done]. }
    intros st' [limits|e] H'; [|by apply Hplain]. apply conform_try. eapply conform_mono with (Q := fun st' _ => lg_granted st' = None).
    { case_goal; [apply plain_settles; [apply reapply_calls|done..]|done]. }
    intros st2 [network|e] H2; by apply Hplain.
  - split; [unfold asked_back; by rewrite H|done].
Qed.
End settled.
