(* ===== verification/Lifecycle.v ===== *)
(** * Deleting, stopping, updating and ejecting workspaces

    internal/workspace/delete.go and the handlers of internal/server/lifecycle.go,
    update.go and helpers.go: what is found first, the lock taken for the
    operation, what is left to a background program, and the reply. *)

From S2P Require Import Prelude GoStrings Yaml PodState Workspaces Alias Values Effects Calls Manifest HelmOps Instance Provision Injection Update.

(** ** Replies *)

(** src/internal/server/helpers.go:17-38 convertToGRPCError *)
Definition convertToGRPCError (e : goerr) : grpc_code :=
  if errors_is ErrWorkspaceNotFound e then CodeNotFound
  else if errors_is ErrInvalidParameters e then InvalidArgument
  else if errors_is ErrWebProxyAliasHeld e then CodeAlreadyExists
  else if errors_is ErrNodeUnreachable e then FailedPrecondition
  else if errors_is ErrResizeUnsupported e then FailedPrecondition
  else if errors_is ErrNoWebProxyRoute e then FailedPrecondition
  else Internal.

(** The handlers below answer by [Respond]: what follows it in their program is
    their goroutine. *)
Definition respond (r : reply reply_message) : prog api unit := call (Respond r).

(** [x, err := m; if err != nil { return convert(err) }]. *)
Definition or_respond {A} (m : prog api (answer A)) (convert : goerr -> grpc_code) (f : A -> prog api unit) : prog api unit :=
  m ≫= fun r => match r with Ok a => f a | Err e => respond (Err (convert e)) end.

Definition or_reply {A B} (m : prog api (answer A)) (convert : goerr -> grpc_code) (f : A -> prog api (reply B)) : prog api (reply B) :=
  m ≫= fun r => match r with Ok a => f a | Err e => Ret (Err (convert e)) end.

(** ** The lock of a request *)

Inductive attempt : Type := Acquired | Busy | LockFailed (e : goerr).

(** One attempt within five seconds.

    src/internal/workspace/delete.go:47-60 DeleteWorkspacePod *)
Definition try_lock (name : string) : prog api attempt :=
  let! r := call (LockTryAcquire name) in
  Ret (match r with
       | Ok true => Acquired
       | Ok false => Busy
       | Err e => if errors_is ErrLockAlreadyHeld e then Busy else LockFailed e
       end).

(** [defer lock.Release()], whose failure is only logged. *)
Definition releasing {A} (name : string) (m : prog api A) : prog api A :=
  let! r := m in let! _ := call (LockRelease name) in Ret r.



Section lifecycle.
Context {F X : Type} `{!Deployment F X}.
#[local] Notation Ws := (WorkspaceObj F X).
(** yaml.v3, the user strings, the identity service's users, the chart's name, and
    the JSON of an injection's state. *)
Variable decode_bp : gmap string yvalue -> option (WsBlueprint F X).
Variable parse_userstr : string -> option CanonicalUserStr.
Variable to_user : string * string -> WsUser.
Variable chart : string.
Variable unmarshal_state : string -> option InjectionState.

Definition load (name : string) : prog api (answer Ws) :=
  NewWorkspaceFromHelmRelease decode_bp parse_userstr to_user chart name.

Definition is_injected (pod : WorkspacePod) : bool := String.eqb (label (wp_Labels pod) LabelInjected) "true".

(** ** One pod *)

(** src/internal/workspace/delete.go:77-108 ejectWorkspacePod *)
Definition ejectWorkspacePod (pod : WorkspacePod) : prog api (answer unit) :=
  match FindOwnerWorkload (wp_Labels pod) with
  | Err e => Ret (Err (Wrap "failed to find owning workload for injected workspace" e))
  | Ok (kind, name) =>
      let id := label (wp_Labels pod) LabelCanonicalId in
      match NewWorkspaceForEject (F := F) (X := X) id with
      | Err _ => Ret (Err (Plain "injected workspace pod is missing canonical-id label"))
      | Ok w =>
          let! _ := DeleteWorkspacePATFromLabels (wp_Labels pod) in
          wrapping "failed to eject workspace" (Eject unmarshal_state w (p_Namespace (wp_Pod pod)) kind name)
      end
  end.

(** src/internal/workspace/delete.go:33-75 DeleteWorkspacePod *)
Definition DeleteWorkspacePod (pod : WorkspacePod) : prog api (answer unit) :=
  if is_injected pod then ejectWorkspacePod pod
  else
    let name := p_Name (wp_Pod pod) in
    match NewWorkspaceForUninstall (F := F) (X := X) name with
    | Err e => Ret (Err e)
    | Ok w =>
        let w := set_canonical (label (wp_Labels pod) LabelCanonicalId) w in
        let! a := try_lock name in
        match a with
        | Busy => Ret (Err (Sentinel ErrLockAlreadyHeld))
        | LockFailed e => Ret (Err (Wrap "failed to acquire lock for workspace deletion" e))
        | Acquired =>
            releasing name
              (let! _ := DeleteWorkspacePATFromLabels (wp_Labels pod) in
               wrapping "failed to delete workspace" (Uninstall w 10 false))
        end
    end.

(** ** Deleting a workspace *)

(** The work of a request, after a delay or at once, within [finish]; only the
    reply to a request without a delay depends on it. [key] is its entry in the
    threat detection, removed after a success. *)
Definition now_or_later {A} (delay : Z) (key : string) (finish : prog api (answer A) -> prog api (answer A))
    (work : prog api (answer A)) : prog api unit :=
  let cleared :=
    let! r := work in
    let! _ := match r with Ok _ => call (ThreatClear key) | Err _ => Ret tt end in
    Ret r in
  if (0 <? delay)%Z then
    let! _ := respond (Ok Submitted) in
    let! _ := finish (let! _ := call (SleepSeconds delay) in cleared) in
    Ret tt
  else
    let! r := finish cleared in
    respond (match r with Err _ => Err Internal | Ok _ => Ok Done end).

(** An injected workspace is ejected, without a lock.

    src/internal/server/lifecycle.go:43-96 DeleteWorkspace *)
Definition delete_injected (pod : WorkspacePod) (delay : Z) : prog api unit :=
  match FindOwnerWorkload (wp_Labels pod) with
  | Err _ => respond (Err Internal)
  | Ok (kind, name) =>
      let id := label (wp_Labels pod) LabelCanonicalId in
      match NewWorkspaceForEject (F := F) (X := X) id with
      | Err _ => respond (Err Internal)
      | Ok w =>
          now_or_later delay id (fun m => m)
            (let! _ := DeleteWorkspacePATFromLabels (wp_Labels pod) in
             Eject unmarshal_state w (p_Namespace (wp_Pod pod)) kind name)
      end
  end.

(** The workspace of the release, also of one that an interrupted operation left.

    src/internal/server/lifecycle.go:99-108 DeleteWorkspace *)
Definition find_for_deletion (name : string) : prog api (answer Ws) :=
  let! r := load name in
  match r with
  | Err e =>
      if errors_is ErrWorkspaceNotFound e then
        let! stuck := call (ReleaseStuck name) in
        Ret (match stuck with Ok true => NewWorkspaceForUninstall name | _ => Err e end)
      else Ret (Err e)
  | Ok w => Ret (Ok w)
  end.

(** src/internal/server/lifecycle.go:99-179 DeleteWorkspace *)
Definition delete_standalone (name : string) (delay : Z) : prog api unit :=
  or_respond (find_for_deletion name) convertToGRPCError (fun w : Ws =>
    let! a := try_lock (wo_Name w) in
    match a with
    | Busy => respond (Ok InProgress)
    | LockFailed _ => respond (Err Internal)
    | Acquired => now_or_later delay (wo_Name w) (releasing (wo_Name w)) (Uninstall w 10 false)
    end).

(** The pod of a workspace that is injected, if it is. *)
Definition injected_pod (name : string) : prog api (option WorkspacePod) :=
  let! found := call (WorkspacesFind name) in
  Ret (match found with Ok pod => if is_injected pod then Some pod else None | Err _ => None end).

(** src/internal/server/lifecycle.go:29-180 DeleteWorkspace *)
Definition DeleteWorkspace (name : string) (delay : Z) : prog api unit :=
  if String.eqb name "" then respond (Err InvalidArgument)
  else if (60 <? delay)%Z then respond (Err InvalidArgument)
  else
    let! injected := injected_pod name in
    match injected with
    | Some pod => delete_injected pod delay
    | None => delete_standalone name delay
    end.

(** ** Stopping a workspace *)

(** The pod is deleted, its token before; the release stays.

    src/internal/server/lifecycle.go:353-408 StopWorkspace *)
Definition stop_pod (w : Ws) (delay : Z) : prog api unit :=
  if (0 <? delay)%Z then
    let! _ := respond (Ok Submitted) in
    releasing (wo_Name w)
      (let! _ := call (SleepSeconds delay) in
       let! r := EnsureNodeReachable w in
       match r with
       | Err _ => Ret tt
       | Ok _ => let! _ := DeletePAT w in let! _ := StopPod w in Ret tt
       end)
  else
    let! r := releasing (wo_Name w) (let! _ := DeletePAT w in StopPod w) in
    respond (match r with
             | Err e => Err (if errors_is ErrNodeUnreachable e then convertToGRPCError e else Internal)
             | Ok _ => Ok Done
             end).

(** src/internal/server/lifecycle.go:306-409 StopWorkspace *)
Definition StopWorkspace (name : string) (delay : Z) : prog api unit :=
  if String.eqb name "" then respond (Err InvalidArgument)
  else if (60 <? delay)%Z then respond (Err InvalidArgument)
  else
    let! injected := injected_pod name in
    match injected with
    | Some _ => respond (Err FailedPrecondition)
    | None =>
        or_respond (load name) convertToGRPCError (fun w =>
          or_respond (EnsureNodeReachable w) convertToGRPCError (fun _ =>
            let! a := try_lock (wo_Name w) in
            match a with
            | Busy => respond (Ok InProgress)
            | LockFailed _ => respond (Err Internal)
            | Acquired => stop_pod w delay
            end))
    end.

(** ** Ejecting *)

(** The canonical id of the workspace that was ejected.

    src/internal/server/lifecycle.go:503-556 EjectWorkspace *)
Definition EjectWorkspace (ns kind name : string) : prog api (reply string) :=
  if String.eqb ns "" then Ret (Err InvalidArgument)
  else if String.eqb name "" then Ret (Err InvalidArgument)
  else
    let kind := if String.eqb kind "" then "Deployment" else kind in
    or_reply (GetWorkloadAdapter ns kind name) (fun _ => CodeNotFound) (fun wl =>
      let id := InjectedCanonicalId unmarshal_state (wl_Annotations wl) in
      match NewWorkspaceForEject (F := F) (X := X) id with
      | Err _ => Ret (Err FailedPrecondition)
      | Ok w =>
          let! _ := DeleteWorkspacePAT (label (pt_Labels (wl_Template wl)) LabelUsername) id in
          or_reply (Eject unmarshal_state w ns kind name) (fun _ => Internal) (fun _ =>
            let! _ := call (ThreatClear id) in Ret (Ok id))
      end).

(** ** All workspaces of a user *)

Definition user_lock (username : string) : string := "user-delete-" +:+ username.

(** Each pod in turn, as long as the lock is renewed; the failure for one pod is
    only logged.

    src/internal/server/lifecycle.go:274-299 deleteUserWorkspaces *)
Fixpoint delete_pods (lock : string) (pods : list WorkspacePod) : prog api unit :=
  match pods with
  | [] => Ret tt
  | pod :: pods =>
      let! lost := call (LockLost lock) in
      if lost : bool then Ret tt
      else
        let! r := DeleteWorkspacePod pod in
        match r with
        | Err _ => delete_pods lock pods
        | Ok _ =>
            let id := label (wp_Labels pod) LabelCanonicalId in
            let! _ := call (ThreatClear (if String.eqb id "" then p_Name (wp_Pod pod) else id)) in
            delete_pods lock pods
        end
  end.

(** src/internal/server/lifecycle.go:261-302 deleteUserWorkspaces *)
Definition deleteUserWorkspaces (username : string) (pods : list WorkspacePod) : prog api unit :=
  releasing (user_lock username) (delete_pods (user_lock username) pods).

(** The workspaces' names are those of the pods that were found.

    src/internal/server/lifecycle.go:189-249 DeleteUserWorkspaces *)
Definition DeleteUserWorkspaces (username : string) : prog api unit :=
  if String.eqb username "" then respond (Err InvalidArgument)
  else
    let! a := try_lock (user_lock username) in
    match a with
    | Busy => respond (Ok InProgress)
    | LockFailed _ => respond (Err Internal)
    | Acquired =>
        let! pods := call (WorkspacesOf username) in
        match pods with
        | Err _ => let! _ := call (LockRelease (user_lock username)) in respond (Err Internal)
        | Ok [] => let! _ := call (LockRelease (user_lock username)) in respond (Ok Done)
        | Ok pods => let! _ := respond (Ok Submitted) in deleteUserWorkspaces username pods
        end
    end.
End lifecycle.

(** ** Updating *)

(** [provisionerv1.UpdateWorkspaceResourcesRequest] and its parts; messages that are
    absent are [None]. *)
Record NetworkRequest : Type := mkNetworkRequest {
  nr_NetworkPolicyClass : string;
  nr_ReplaceEgress : bool;
  nr_AllowEgressToCidrs : list string;
  nr_AllowEgressToPods : list (gmap string string);
  nr_ReplaceWebProxy : bool;
  nr_WebProxyPort : Z;
  nr_WebProxyRoles : list string;
  nr_WebProxyAlias : option string;
}.

Record UpdateRequest : Type := mkUpdateRequest {
  uq_Workspace : string;
  uq_Resources : option (string * string);
  uq_Network : option NetworkRequest;
}.

Section update.
Context {F X : Type} `{!Deployment F X}.
Variable decode_bp : gmap string yvalue -> option (WsBlueprint F X).
Variable parse_userstr : string -> option CanonicalUserStr.
Variable to_user : string * string -> WsUser.
Variable chart : string.
Variable IsWebProxyAlias : string -> bool.
Variable parse_quantity : string -> option string.
Variable roles_json : list string -> string.
Variable egress_json : list string -> list (gmap string string) -> string.
Variable decode_kind : string -> option string.
Variable decode_object : kind -> string -> option object.
Variable set_egress : list string -> list (gmap string string) -> X -> X.
(** The port of the workspace's own API. *)
Variable WORKSPACE_PORT : Z.

(** An amount that is given parses. *)
Definition quantity_ok (q : string) : bool := String.eqb q "" || bool_decide (is_Some (parse_quantity q)).

(** src/internal/server/update.go:41-55 UpdateWorkspaceResources *)
Definition resource_options (r : option (string * string)) : reply (bool * string * string) :=
  match r with
  | Some (cpu, memory) =>
      if String.eqb cpu "" && String.eqb memory "" then Ok (false, "", "")
      else if quantity_ok cpu && quantity_ok memory then Ok (true, cpu, memory) else Err InvalidArgument
  | None => Ok (false, "", "")
  end.

(** src/internal/server/update.go:70-78 UpdateWorkspaceResources *)
Definition port_ok (n : NetworkRequest) : bool :=
  let p := nr_WebProxyPort n in
  Z.eqb p 0 || ((1 <=? p) && (p <=? 65535) && negb (Z.eqb p WORKSPACE_PORT))%Z.

(** The options of a request, refused when something in it is not valid or when it
    asks for nothing.

    src/internal/server/update.go:39-98 UpdateWorkspaceResources *)
Definition update_options (req : UpdateRequest) : reply UpdateOptions :=
  match resource_options (uq_Resources req) with
  | Err e => Err e
  | Ok (resources, cpu, memory) =>
      let n := default (mkNetworkRequest "" false [] [] false 0 [] None) (uq_Network req) in
      let network := negb (String.eqb (nr_NetworkPolicyClass n) "") || nr_ReplaceEgress n in
      let alias := default "" (nr_WebProxyAlias n) in
      let change_alias := bool_decide (is_Some (nr_WebProxyAlias n)) in
      if nr_ReplaceWebProxy n && negb (port_ok n) then Err InvalidArgument
      else if change_alias && negb (String.eqb alias "") && negb (IsWebProxyAlias alias) then Err InvalidArgument
      else if negb (resources || network || nr_ReplaceWebProxy n || change_alias) then Err InvalidArgument
      else Ok (mkUpdateOptions resources cpu memory
                 network (if network then nr_NetworkPolicyClass n else "") (network && nr_ReplaceEgress n)
                 (if network then nr_AllowEgressToCidrs n else [])
                 (if network then filter (fun m => m <> ∅) (nr_AllowEgressToPods n) else [])
                 (nr_ReplaceWebProxy n) (if nr_ReplaceWebProxy n then nr_WebProxyPort n else 0%Z)
                 (if nr_ReplaceWebProxy n then nr_WebProxyRoles n else []) change_alias alias)
  end.

(** src/internal/server/update.go:31-175 UpdateWorkspaceResources *)
Definition UpdateWorkspaceResources (req : UpdateRequest) : prog api (reply UpdateResult) :=
  if String.eqb (uq_Workspace req) "" then Ret (Err InvalidArgument)
  else
    match update_options req with
    | Err code => Ret (Err code)
    | Ok opts =>
        let! injected := injected_pod (uq_Workspace req) in
        match injected with
        | Some _ => Ret (Err FailedPrecondition)
        | None =>
            or_reply (load decode_bp parse_userstr to_user chart (uq_Workspace req)) convertToGRPCError (fun w =>
              let! a := try_lock (wo_Name w) in
              match a with
              | Busy => Ret (Err Aborted)
              | LockFailed _ => Ret (Err Internal)
              | Acquired =>
                  let! r := releasing (wo_Name w)
                    (UpdateResourcesAndNetwork IsWebProxyAlias parse_quantity roles_json egress_json decode_kind
                       decode_object set_egress w opts) in
                  Ret (match r with Err e => Err (convertToGRPCError e) | Ok res => Ok res end)
              end)
        end
    end.
End update.
