(* ===== verification/LifecycleSpec.v ===== *)
(** * What the lifecycle operations guarantee

    Theorems on Lifecycle.v, for every answer of the cluster and the services: what
    is removed is removed under the workspace's own lock, a request is answered
    once, and the clean-up of a user stops when its lock is lost. *)

From S2P Require Import Prelude GoStrings Yaml PodState Workspaces Lock Alias Values Effects Calls Manifest HelmOps Instance Provision ProvisionSpec Injection Update Lifecycle.

(** ** Removal under the lock *)

(** Where an operation on the workspace [name] stands: it looks for it, ejects the
    injected pod it found, or holds the workspace's lock; and whether the request
    has been answered. *)
Inductive standing : Type := Looking | Ejecting (pod : WorkspacePod) | Locked.

Definition locked (s : standing) : bool := match s with Locked => true | _ => false end.

(** The rules. The release is only removed, its pod only labelled or deleted and
    the resources of the target namespace only deleted under the workspace's own
    lock. Of an injected workspace only the workload and the resources in the
    pod's namespace change, those with its canonical id. Tokens and detections are
    only dropped for what was found. Nothing sleeps before the request has been
    answered, and it is answered once. *)
Definition guarded {F X} `{!Deployment F X} (name : string) (st : standing * bool) (A : Type) (e : api A)
    : A -> judgement (standing * bool) :=
  let check (ok : bool) : judgement (standing * bool) := if ok then Next st else Forbidden in
  let found := match st.1 with Looking => false | _ => true end in
  match e in api A return A -> judgement (standing * bool) with
  | WorkspacesFind n => fun r =>
      match st.1 with
      | Looking => if negb (String.eqb n name) then Forbidden
                   else match r with
                        | Ok pod => if is_injected pod then Next (Ejecting pod, st.2) else Next st
                        | Err _ => Next st
                        end
      | _ => Forbidden
      end
  | LockTryAcquire l => fun r =>
      match st.1 with
      | Looking => if String.eqb l name then Next (match r with Ok true => (Locked, st.2) | _ => st end) else Forbidden
      | _ => Forbidden
      end
  | LockRelease l => fun _ => if locked st.1 && String.eqb l name then Next (Looking, st.2) else Forbidden
  | ReleaseUninstall n => fun _ => check (locked st.1 && String.eqb n name)
  | PodPatch ns n _ | PodDelete ns n => fun _ => check (locked st.1 && String.eqb ns target_ns && String.eqb n name)
  | ObjDelete PersistentVolumeClaims ns _ => fun _ =>
      match st.1 with
      | Looking => Forbidden
      | Ejecting pod => check (String.eqb ns (p_Namespace (wp_Pod pod)))
      | Locked => check (String.eqb ns target_ns)
      end
  | ObjDeleteCollection _ ns sel => fun _ =>
      match st.1 with
      | Looking => Forbidden
      | Ejecting pod => check (String.eqb ns (p_Namespace (wp_Pod pod)) &&
                               String.eqb sel (canonical_selector (label (wp_Labels pod) LabelCanonicalId)))
      | Locked => check (String.eqb ns target_ns)
      end
  | WorkloadGet ns _ n => fun r =>
      match st.1 with
      | Ejecting pod =>
          if String.eqb ns (p_Namespace (wp_Pod pod)) && String.eqb n (lower (label (wp_Labels pod) LabelWorkloadName))
          then match r with
               | Ok wl => if String.eqb (wl_Namespace wl) ns && String.eqb (wl_Name wl) n then Next st else Excluded
               | Err _ => Next st
               end
          else Forbidden
      | _ => Forbidden
      end
  | WorkloadUpdate wl => fun _ =>
      match st.1 with
      | Ejecting pod => check (String.eqb (wl_Namespace wl) (p_Namespace (wp_Pod pod)) &&
                               String.eqb (wl_Name wl) (lower (label (wp_Labels pod) LabelWorkloadName)))
      | _ => Forbidden
      end
  | TokenList _ | TokenDelete _ | ThreatClear _ => fun _ => check found
  | SleepSeconds _ => fun _ => check st.2
  | Respond _ => fun _ => if st.2 then Forbidden else Next (st.1, true)
  | ObjList _ _ _ | PodGet _ _ | Clock | ReleaseList _ | ReleaseStuck _ | UserFind _ => fun _ => Next st
  | _ => fun _ => Forbidden
  end.

(** ** The calls of the parts *)

(** What is called for a token, and to remove what a workspace leaves. *)
Definition token_calls {A} (e : api A) : bool := match e with TokenList _ | TokenDelete _ => true | _ => false end.

Definition sweeps (ns sel : string) {A} (e : api A) : bool :=
  match e with
  | ObjDelete PersistentVolumeClaims ns' _ => String.eqb ns' ns
  | ObjDeleteCollection _ ns' sel' | ObjList PersistentVolumeClaims ns' sel' => String.eqb ns' ns && String.eqb sel' sel
  | _ => false
  end.

Ltac called := intros ?; cbn [token_calls sweeps looks]; rewrite ?String.eqb_refl; cbn [andb conform].

Lemma sweep_calls ns id : only (@sweeps ns (canonical_selector id)) (DeleteNamespacedWorkspaceResources ns id).
Proof.
  assert (Hc : forall l, only (@sweeps ns (canonical_selector id)) (delete_claims ns l)).
  { induction l as [|pvc l IH]; cbn [delete_claims]; [done|]. case_goal; [exact IH|]. unfold only, try_bind, unless_gone in *.
    repeat conform_step. called. repeat (case_goal; try done). }
  assert (Hd : forall k text, only (@sweeps ns (canonical_selector id)) (unless_gone text (call (ObjDeleteCollection k ns (canonical_selector id))))).
  { intros k text. unfold only, unless_gone. repeat conform_step. called. done. }
  unfold DeleteNamespacedWorkspaceResources, try_bind. cbv zeta.
  repeat (apply only_bind; [apply Hd|]; intros [[]|e]; [|done]). unfold only. repeat conform_step. called.
  apply conform_bind. assert (exists r : answer (list object), (match x with Err e => if IsNotFound e then Ok [] else Err (Wrap "failed to list PVCs" e) | Ok pvcs => Ok pvcs end) = r) as [r ->] by eauto.
  cbn [conform]. destruct r as [l|e]; [|done]. change (only (@sweeps ns (canonical_selector id))
    (delete_claims ns l ≫= fun r => match r with Ok _ => let? _ := unless_gone "failed to delete network policies" (call (ObjDeleteCollection NetworkPolicies ns (canonical_selector id))) in
      let? _ := ignoring (call (ObjDeleteCollection CiliumNetworkPolicies ns (canonical_selector id))) in
      ignoring (call (ObjDeleteCollection Certificates ns (canonical_selector id))) | Err e => Ret (Err e) end)).
  apply only_bind; [apply Hc|]. intros [[]|e]; [|done]. unfold try_bind. apply only_bind; [apply Hd|]. intros [[]|e]; [|done].
  unfold only, ignoring. repeat conform_step. called. repeat conform_step. called. done.
Qed.

Section parts.
Context {F X : Type} `{!Deployment F X}.
Implicit Types w : WorkspaceObj F X.

Lemma DeleteWorkspacePAT_calls username id : only (@token_calls) (DeleteWorkspacePAT username id).
Proof.
  unfold DeleteWorkspacePAT. case_goal; [done|]. unfold try_bind, wrapping, only. repeat conform_step. called.
  destruct x as [l|e]; cbn [res_wrap]; [|done]. case_goal; [|done]. repeat conform_step. called. done.
Qed.

Lemma DeletePAT_calls w : only (@token_calls) (DeletePAT w).
Proof. unfold DeletePAT. case_goal; [apply DeleteWorkspacePAT_calls|done]. Qed.

Lemma tokens_steady {R} name st (m : prog api R) Q :
  only (@token_calls) m -> (match st.1 with Looking => false | _ => true end) = true -> (forall r, Q st r) ->
  conform (guarded name) m st Q.
Proof.
  intros Hm Hf HQ. eapply steady; [exact Hm| |exact HQ]. intros A e x He. destruct e; try discriminate He; cbn [guarded]; rewrite Hf; by left.
Qed.

Lemma sweep_locked name ns id b Q : ns = target_ns -> (forall r, Q (Locked, b) r) ->
  conform (guarded name) (DeleteNamespacedWorkspaceResources ns id) (Locked, b) Q.
Proof.
  intros -> HQ. eapply steady; [apply sweep_calls| |exact HQ]. intros A e x He. destruct e; try discriminate He; cbn [guarded fst snd];
    try (destruct k; try discriminate He); cbn [sweeps] in He; try (apply andb_prop in He as [He _]); rewrite ?He; by left.
Qed.

Lemma sweep_ejecting name pod ns id b Q :
  ns = p_Namespace (wp_Pod pod) -> id = label (wp_Labels pod) LabelCanonicalId -> (forall r, Q (Ejecting pod, b) r) ->
  conform (guarded name) (DeleteNamespacedWorkspaceResources ns id) (Ejecting pod, b) Q.
Proof.
  intros -> -> HQ. eapply steady; [apply sweep_calls| |exact HQ]. intros A e x He. destruct e; try discriminate He; cbn [guarded fst snd];
    try (destruct k; try discriminate He); cbn [sweeps] in He; rewrite ?He; by left.
Qed.
End parts.

Section handlers.
Context {F X : Type} `{!Deployment F X}.
Context (decode_bp : gmap string yvalue -> option (WsBlueprint F X)) (parse_userstr : string -> option CanonicalUserStr).
Context (to_user : string * string -> WsUser) (chart : string) (unmarshal_state : string -> option InjectionState).
Implicit Types w : WorkspaceObj F X.
#[local] Notation load := (load decode_bp parse_userstr to_user chart).

(** One call that the rules let pass. *)
Ltac passes := repeat conform_step; intros ?; cbn [guarded fst snd locked]; rewrite ?String.eqb_refl; cbn [andb conform].

Lemma Uninstall_guarded w b (Q : standing * bool -> answer unit -> Prop) : (forall r, Q (Locked, b) r) ->
  conform (guarded (wo_Name w)) (Uninstall w 10 false) (Locked, b) Q.
Proof.
  intros HQ. unfold Uninstall, uninstall_release. apply conform_bind, tokens_steady; [apply DeletePAT_calls|done|]. intros _.
  unfold try_bind, wrapping. passes. destruct x as [[]|e]; cbn [res_wrap]; [|apply HQ]. case_goal; [apply HQ|].
  unfold ignoring. apply conform_bind, sweep_locked; [done|]. intros r. apply HQ.
Qed.

Lemma Eject_guarded name pod w b (Q : standing * bool -> answer unit -> Prop) kind wname :
  FindOwnerWorkload (wp_Labels pod) = Ok (kind, wname) -> wo_Name w = label (wp_Labels pod) LabelCanonicalId ->
  (forall r, Q (Ejecting pod, b) r) ->
  conform (guarded name) (Eject unmarshal_state w (p_Namespace (wp_Pod pod)) kind wname) (Ejecting pod, b) Q.
Proof.
  intros Ho Hw HQ. unfold FindOwnerWorkload in Ho. cbv zeta in Ho. case_in Ho; [|done]. apply Ok_inj in Ho. injection Ho as <- <-.
  unfold Eject. case_goal; [apply HQ|]. case_goal; [apply HQ|]. cbv zeta. apply conform_wrap. unfold GetWorkloadAdapter.
  case_goal; [|apply HQ]. unfold wrapping. passes. destruct x as [wl|e]; cbn [res_wrap].
  2: { apply HQ. }
  destruct (String.eqb (wl_Namespace wl) (p_Namespace (wp_Pod pod))) eqn:Hns; [|done].
  destruct (String.eqb (wl_Name wl) (lower (label (wp_Labels pod) LabelWorkloadName))) eqn:Hn; [|done]. cbn [andb conform].
  apply conform_wrap. unfold EjectFromWorkload. destruct (eject_workload unmarshal_state (wo_Name w) wl) as [wl'|e] eqn:Hej; [|apply HQ].
  assert (wl_Namespace wl' = wl_Namespace wl /\ wl_Name wl' = wl_Name wl) as [Hns' Hn'].
  { unfold eject_workload in Hej. destruct (ParseInjectionState _ _); [|done]. case_in Hej; [|done]. by apply Ok_inj in Hej as <-. }
  unfold try_bind, wrapping. passes. rewrite Hns', Hn', Hns, Hn. cbn [andb conform].
  destruct x as [[]|e]; cbn [res_wrap]; [|apply HQ]. cbn [conform]. apply conform_bind, sweep_ejecting; [done|done|].
  intros r. cbn. apply HQ.
Qed.

Lemma load_guarded name st (Q : standing * bool -> answer (WorkspaceObj F X) -> Prop) :
  (forall w, wo_Name w = name -> Q st (Ok w)) -> (forall e, Q st (Err e)) -> conform (guarded name) (load name) st Q.
Proof.
  intros H1 H2. unfold Lifecycle.load, NewWorkspaceFromHelmRelease, FindWorkspaceHelmRelease, try_bind, wrapping. passes.
  destruct x as [l|e]; cbn [res_wrap]; [|apply H2]. cbn [conform]. assert (exists r : answer Release, match l with
    | [] => Err (Wrap name (Sentinel ErrWorkspaceNotFound)) | [rel] => Ok rel | _ => Err (Plain "multiple releases found for workspace") end = r) as [r ->] by eauto.
  destruct r as [rel|e]; [|apply H2]. passes. destruct x as [u|e]; cbn [res_wrap]; [|apply H2]. cbn [conform].
  destruct (workspace_of_release _ _ _ _ _) as [w|e] eqn:Hw; [|apply H2]. apply H1. unfold workspace_of_release in Hw.
  destruct (decode_bp (rel_Config rel)) as [[]|]; [|done]. by apply Ok_inj in Hw as <-.
Qed.

Lemma find_for_deletion_guarded name st (Q : standing * bool -> answer (WorkspaceObj F X) -> Prop) :
  (forall w, wo_Name w = name -> Q st (Ok w)) -> (forall e, Q st (Err e)) ->
  conform (guarded name) (find_for_deletion decode_bp parse_userstr to_user chart name) st Q.
Proof.
  intros H1 H2. unfold find_for_deletion. apply conform_bind, load_guarded; [done|]. intros e. case_goal; [|apply H2]. passes.
  destruct x as [[]|e']; try apply H2. unfold NewWorkspaceForUninstall. case_goal; [apply H2|by apply H1].
Qed.

Lemma try_lock_guarded name (Q : standing * bool -> attempt -> Prop) b :
  Q (Locked, b) Acquired -> Q (Looking, b) Busy -> (forall e, Q (Looking, b) (LockFailed e)) ->
  conform (guarded name) (try_lock name) (Looking, b) Q.
Proof.
  intros H1 H2 H3. unfold try_lock. passes. destruct x as [[]|e]; [done..|]. destruct (errors_is ErrLockAlreadyHeld e); auto.
Qed.

Lemma injected_pod_guarded name b (Q : standing * bool -> option WorkspacePod -> Prop) :
  Q (Looking, b) None -> (forall pod, is_injected pod = true -> Q (Ejecting pod, b) (Some pod)) ->
  conform (guarded name) (injected_pod name) (Looking, b) Q.
Proof.
  intros H1 H2. unfold injected_pod. passes. cbn [negb]. destruct x as [pod|e]; [|done]. destruct (is_injected pod) eqn:Hi; [by apply H2|done].
Qed.

(** Answered, and nothing held. *)
Definition answered {A} (st : standing * bool) (_ : A) : Prop := st.2 = true /\ locked st.1 = false.

Lemma respond_guarded name s (Q : standing * bool -> unit -> Prop) r :
  Q (s, true) tt -> conform (guarded name) (respond r) (s, false) Q.
Proof. intros HQ. unfold respond. apply conform_call. intros []. exact HQ. Qed.

Lemma releasing_guarded {A} name (m : prog api A) b (Q : standing * bool -> A -> Prop) :
  conform (guarded name) m (Locked, b) (fun st a => exists b', st = (Locked, b') /\ Q (Looking, b') a) ->
  conform (guarded name) (releasing name m) (Locked, b) Q.
Proof.
  intros H. unfold releasing. apply conform_bind. eapply conform_mono; [exact H|]. intros st a (b' & -> & HQ). passes. exact HQ.
Qed.

(** A request's work, before or after the reply, in a standing where it may remove. *)
Lemma now_or_later_guarded {A} name delay key (finish : prog api (answer A) -> prog api (answer A)) (work : prog api (answer A)) s :
  (match s with Looking => false | _ => true end) = true ->
  (forall b (Q : standing * bool -> answer A -> Prop), (forall r, Q (s, b) r) -> conform (guarded name) work (s, b) Q) ->
  (forall b (m : prog api (answer A)), conform (guarded name) m (s, b) (fun st _ => st = (s, b)) ->
     conform (guarded name) (finish m) (s, b) (fun st _ => st.2 = b /\ locked st.1 = false)) ->
  conform (guarded name) (now_or_later delay key finish work) (s, false) answered.
Proof.
  intros Hs Hw Hfin. unfold now_or_later. cbv zeta.
  assert (Hc : forall b, conform (guarded name) (let! r := work in
    let! _ := match r with Ok _ => call (ThreatClear key) | Err _ => Ret tt end in Ret r) (s, b) (fun st _ => st = (s, b))).
  { intros b. apply conform_bind, Hw. intros [a|e]; [|done]. passes. rewrite Hs. done. }
  case_goal.
  - apply conform_bind, respond_guarded, conform_bind. eapply conform_mono; [apply (Hfin true)|].
    + passes. apply Hc.
    + intros st r [H1 H2]. done.
  - apply conform_bind. eapply conform_mono; [apply (Hfin false), Hc|]. intros [s' b] r [H1 H2]. cbn in H1, H2. subst b.
    apply respond_guarded. by unfold answered.
Qed.

Lemma EnsureNodeReachable_guarded name w st (Q : standing * bool -> answer unit -> Prop) : (forall r, Q st r) ->
  conform (guarded name) (EnsureNodeReachable w) st Q.
Proof. intros HQ. unfold EnsureNodeReachable. passes. destruct x as [pod|e]; [passes; apply HQ|apply HQ]. Qed.

Lemma StopPod_guarded w b (Q : standing * bool -> answer unit -> Prop) : (forall r, Q (Locked, b) r) ->
  conform (guarded (wo_Name w)) (StopPod w) (Locked, b) Q.
Proof.
  intros HQ. unfold StopPod. apply conform_try, EnsureNodeReachable_guarded. intros [[]|e]; [|apply HQ].
  apply conform_try. unfold unless_gone. passes. case_goal; [|apply HQ]. passes. apply HQ.
Qed.

(** The reply that ends a request. *)
Ltac answers := apply respond_guarded; by unfold answered.

(** *** What is swept *)

(** The canonical id of the workspace that was found, and the names of the claims
    that were listed as its own. *)
Record swept : Type := mkSwept { sw_id : string; sw_claims : list string }.

(** The canonical id a release gives: the stored one, or that of the stored user
    string, or the name. *)
Definition released_id (name : string) (rel : Release) : string :=
  let id := string_or_empty (rel_Config rel !! "__canonicalid__") in
  let b64 := string_or_empty (rel_Config rel !! "__userstr__") in
  if negb (String.eqb id "") then id
  else match (if String.eqb b64 "" then None else parse_userstr b64) with
       | Some us => if String.eqb (us_CanonicalId us) "" then name else us_CanonicalId us
       | None => name
       end.

(** The claims that are not shared. *)
Definition own_claims (r : answer (list object)) : list string :=
  match r with Ok l => obj_Name <$> filter (fun o => is_shared o = false) l | Err _ => [] end.

(** Objects are only listed and deleted by the selector of the canonical id of the
    workspace that was found, by the label of its pod or by its release, and claims
    only when such a listing had them and they are not shared. *)
Definition sweeping (name : string) (st : swept) (A : Type) (e : api A) : A -> judgement swept :=
  match e in api A return A -> judgement swept with
  | WorkspacesFind _ => fun r =>
      Next match r with
           | Ok pod => if is_injected pod then mkSwept (label (wp_Labels pod) LabelCanonicalId) [] else st
           | Err _ => st
           end
  | ReleaseList _ => fun r => Next (mkSwept (match r with Ok [rel] => released_id name rel | _ => name end) [])
  | UserFind _ => fun r => Next match r with Ok _ => st | Err _ => mkSwept name [] end
  | ObjList _ _ sel => fun r => if String.eqb sel (canonical_selector (sw_id st)) then Next (mkSwept (sw_id st) (own_claims r)) else Forbidden
  | ObjDelete k _ n => fun _ => if bool_decide (k = PersistentVolumeClaims /\ n ∈ sw_claims st) then Next st else Forbidden
  | ObjDeleteCollection _ _ sel => fun _ => if String.eqb sel (canonical_selector (sw_id st)) then Next st else Forbidden
  | _ => fun _ => Next st
  end.

(** The calls that delete or list nothing, and among them those that find nothing. *)
Definition sweeps_nothing {A} (e : api A) : bool :=
  match e with ObjList _ _ _ | ObjDelete _ _ _ | ObjDeleteCollection _ _ _ => false | _ => true end.
Definition finds_nothing {A} (e : api A) : bool :=
  match e with WorkspacesFind _ | ReleaseList _ | UserFind _ => false | e => sweeps_nothing e end.

Definition anything {A} (_ : swept) (_ : A) : Prop := True.
#[local] Notation swept_well name m st := (conform (sweeping name) m st anything).

Lemma sweeps_nothing_well {R} name (m : prog api R) st : only (@sweeps_nothing) m -> swept_well name m st.
Proof.
  intros Hm. eapply conform_mono; [eapply (invariant_kept _ _ (fun _ => True)); [exact Hm|done|]|done].
  intros s A e x _ He. by destruct e.
Qed.

Lemma finds_nothing_keeps {R} name (m : prog api R) st Q :
  only (@finds_nothing) m -> (forall r, Q st r) -> conform (sweeping name) m st Q.
Proof. intros Hm HQ. eapply steady; [exact Hm| |exact HQ]. intros A e x He. by destruct e; try discriminate He; left. Qed.

Lemma own_claims_swept name ns l st : Forall (fun n => n ∈ sw_claims st) (own_claims (Ok l)) ->
  conform (sweeping name) (delete_claims ns l) st (fun st' _ => st' = st).
Proof.
  unfold own_claims. induction l as [|pvc l IH]; intros Hl; cbn [delete_claims]; [done|].
  rewrite filter_cons in Hl. case_decide as Hs; [|rewrite (not_false_is_true _ Hs); by apply IH].
  rewrite Hs. apply Forall_cons in Hl as [Hn Hl]. unfold try_bind, unless_gone. repeat conform_step. intros r. cbn [sweeping].
  rewrite bool_decide_eq_true_2 by done. cbn [conform]. repeat (case_goal; try done); by apply IH.
Qed.

Lemma DeleteNamespacedWorkspaceResources_swept name ns st : swept_well name (DeleteNamespacedWorkspaceResources ns (sw_id st)) st.
Proof.
  assert (Hd : forall k text st' (Q : swept -> answer unit -> Prop), sw_id st' = sw_id st -> (forall r, Q st' r) ->
    conform (sweeping name) (unless_gone text (call (ObjDeleteCollection k ns (canonical_selector (sw_id st))))) st' Q).
  { intros k text st' Q Hst HQ. unfold unless_gone. repeat conform_step. intros r. cbn [sweeping]. rewrite Hst, String.eqb_refl. apply HQ. }
  unfold DeleteNamespacedWorkspaceResources. cbv zeta. do 2 (apply conform_try, Hd; [done|]; intros [[]|e]; [|done]).
  apply conform_bind, conform_call. intros r. cbn [sweeping]. rewrite String.eqb_refl. apply conform_try. cbn [conform].
  set (st' := mkSwept _ _).
  assert (Hrest : forall l, Forall (fun n => n ∈ sw_claims st') (own_claims (Ok l)) -> swept_well name
    (let? _ := delete_claims ns l in
     let? _ := unless_gone "failed to delete network policies" (call (ObjDeleteCollection NetworkPolicies ns (canonical_selector (sw_id st)))) in
     let? _ := ignoring (call (ObjDeleteCollection CiliumNetworkPolicies ns (canonical_selector (sw_id st)))) in
     ignoring (call (ObjDeleteCollection Certificates ns (canonical_selector (sw_id st))))) st').
  { intros l Hl. apply conform_try. eapply conform_mono; [by apply own_claims_swept|]. intros ? [[]|e] ->; [|done].
    apply conform_try, Hd; [done|]. intros [[]|e]; [|done]. unfold ignoring. apply conform_try, conform_bind, conform_call.
    intros r1. cbn [sweeping conform]. rewrite String.eqb_refl. apply conform_bind, conform_call. intros r2. cbn [sweeping].
    by rewrite String.eqb_refl. }
  destruct r as [l|e]; [apply Hrest; apply Forall_forall; intros n Hn; exact Hn|]. destruct (IsNotFound e); [apply Hrest; constructor|done].
Qed.

Lemma respond_finds_nothing r : only (@finds_nothing) (respond r).
Proof. unfold respond. only_auto. Qed.
Lemma token_finds_nothing {R} (m : prog api R) : only (@token_calls) m -> only (@finds_nothing) m.
Proof. apply only_mono. by intros A []. Qed.

Lemma Uninstall_swept name w st : sw_id st = canonicalIdForCleanup w -> swept_well name (Uninstall w 10 false) st.
Proof.
  intros Hid. unfold Uninstall, uninstall_release. apply conform_bind.
  apply finds_nothing_keeps; [apply token_finds_nothing, DeletePAT_calls|]. intros _.
  apply conform_wrap, conform_call. intros [[]|e]; [|done]. cbn [sweeping]. case_goal; [done|].
  unfold ignoring. apply conform_bind. rewrite <- Hid. eapply conform_mono; [apply DeleteNamespacedWorkspaceResources_swept|done].
Qed.

Lemma Eject_swept name w ns kind wname st : sw_id st = wo_Name w -> swept_well name (Eject unmarshal_state w ns kind wname) st.
Proof.
  intros Hid. unfold Eject. case_goal; [done|]. case_goal; [done|]. cbv zeta. apply conform_wrap.
  apply finds_nothing_keeps; [unfold GetWorkloadAdapter; case_goal; [|done]; unfold wrapping; by only_auto|]. intros [wl|e]; [|done].
  apply conform_wrap. unfold EjectFromWorkload. destruct (eject_workload _ _ _) as [wl'|e]; [|done].
  apply conform_wrap, conform_call. intros [[]|e]; [|done]. cbn [sweeping conform]. unfold wrapping. apply conform_bind.
  rewrite <- Hid. eapply conform_mono; [apply DeleteNamespacedWorkspaceResources_swept|done].
Qed.

(** What a request finishes with, around its work, sweeps nothing more. *)
Lemma now_or_later_swept {A} name delay key (finish : prog api (answer A) -> prog api (answer A)) (work : prog api (answer A)) st :
  swept_well name work st ->
  (forall m, swept_well name m st -> swept_well name (finish m) st) -> swept_well name (now_or_later delay key finish work) st.
Proof.
  intros Hw Hf. unfold now_or_later. cbv zeta.
  assert (Hc : swept_well name (let! r := work in let! _ := match r with Ok _ => call (ThreatClear key) | Err _ => Ret tt end in Ret r) st).
  { eapply conform_seq; [exact Hw|]. intros st' r _. apply sweeps_nothing_well. destruct r; by only_auto. }
  case_goal.
  - apply conform_bind, finds_nothing_keeps; [apply respond_finds_nothing|]. intros [].
    eapply conform_seq; [apply Hf|done]. apply conform_bind, finds_nothing_keeps; [by only_auto|]. intros []. exact Hc.
  - eapply conform_seq; [by apply Hf|]. intros st' r _. apply sweeps_nothing_well. unfold respond. by only_auto.
Qed.

Lemma releasing_swept {A} name l (m : prog api A) st : swept_well name m st -> swept_well name (releasing l m) st.
Proof. intros Hm. unfold releasing. eapply conform_seq; [exact Hm|]. intros st' r _. apply sweeps_nothing_well. by only_auto. Qed.

Lemma injected_pod_swept name n st :
  conform (sweeping name) (injected_pod n) st
    (fun st' r => match r with Some pod => sw_id st' = label (wp_Labels pod) LabelCanonicalId | None => True end).
Proof.
  unfold injected_pod. repeat conform_step. intros [pod|e]; cbn [sweeping conform]; [|done]. by destruct (is_injected pod).
Qed.

Lemma released_canonical name rel u w : workspace_of_release decode_bp parse_userstr name rel u = Ok w ->
  canonicalIdForCleanup w = released_id name rel.
Proof.
  unfold workspace_of_release. destruct (decode_bp (rel_Config rel)) as [[]|]; [|done]. intros Hw. apply Ok_inj in Hw as <-. done.
Qed.

Lemma find_for_deletion_swept name st :
  conform (sweeping name) (find_for_deletion decode_bp parse_userstr to_user chart name) st
    (fun st' r => match r with Ok w => sw_id st' = canonicalIdForCleanup w | Err _ => True end).
Proof.
  assert (Hstuck : forall e st', sw_id st' = name -> conform (sweeping name)
    (if errors_is ErrWorkspaceNotFound e then
       let! stuck := call (ReleaseStuck name) in
       Ret (match stuck with Ok true => NewWorkspaceForUninstall name | _ => Err e end)
     else Ret (Err e)) st'
    (fun st' (r : answer (WorkspaceObj F X)) => match r with Ok w => sw_id st' = canonicalIdForCleanup w | Err _ => True end)).
  { intros e st' Hst. case_goal; [|done]. repeat conform_step. intros r. cbn [sweeping conform]. destruct r as [[]|e']; [|done..].
    unfold NewWorkspaceForUninstall. destruct (String.eqb name ""); [done|exact Hst]. }
  unfold find_for_deletion, Lifecycle.load, NewWorkspaceFromHelmRelease, FindWorkspaceHelmRelease. apply conform_bind.
  apply conform_try, conform_wrap, conform_call. intros [[|rel [|rel' l]]|e]; cbn [sweeping conform].
  1, 3, 4: by apply Hstuck.
  apply conform_wrap, conform_call. intros [u|e]; cbn [sweeping conform]; [|by apply Hstuck].
  destruct (workspace_of_release _ _ _ _ _) as [w|e] eqn:Hw; cbn [conform sw_id]; [by rewrite (released_canonical _ _ _ _ Hw)|].
  unfold workspace_of_release in Hw. destruct (decode_bp (rel_Config rel)) as [[]|]; [done|]. by injection Hw as <-.
Qed.

Lemma DeleteWorkspace_swept name delay st :
  swept_well name (DeleteWorkspace decode_bp parse_userstr to_user chart unmarshal_state name delay) st.
Proof.
  unfold DeleteWorkspace. repeat (case_goal; [by apply finds_nothing_keeps; [apply respond_finds_nothing|]|]).
  eapply conform_seq; [apply injected_pod_swept|]. intros st' [pod|] Hid.
  - unfold delete_injected. destruct (FindOwnerWorkload _) as [[kind wname]|e]; [|by apply finds_nothing_keeps; [apply respond_finds_nothing|]].
    cbv zeta. destruct (NewWorkspaceForEject _) as [w|e] eqn:Hw; [|by apply finds_nothing_keeps; [apply respond_finds_nothing|]].
    apply now_or_later_swept; [|done]. apply conform_bind.
    apply finds_nothing_keeps; [apply token_finds_nothing, DeleteWorkspacePAT_calls|]. intros _. apply Eject_swept.
    unfold NewWorkspaceForEject in Hw. case_in Hw; [done|]. by apply Ok_inj in Hw as <-.
  - unfold delete_standalone, or_respond. eapply conform_seq; [apply find_for_deletion_swept|].
    intros st'' [w|e] Hw; [|by apply finds_nothing_keeps; [apply respond_finds_nothing|]].
    apply conform_bind, finds_nothing_keeps; [unfold try_lock; by only_auto|].
    intros [| |e]; [|by apply finds_nothing_keeps; [apply respond_finds_nothing|]..].
    apply now_or_later_swept; [by apply Uninstall_swept|]. intros m. apply releasing_swept.
Qed.

(** Stopping sweeps nothing. *)
Lemma StopWorkspace_swept name delay st :
  swept_well name (StopWorkspace decode_bp parse_userstr to_user chart name delay) st.
Proof.
  assert (Hr : forall r, only (@sweeps_nothing) (respond r)) by (intros r; unfold respond; by only_auto).
  assert (Ht : forall w, only (@sweeps_nothing) (DeletePAT w)).
  { intros w. eapply only_mono; [|apply DeletePAT_calls]. by intros A []. }
  assert (He : forall w, only (@sweeps_nothing) (EnsureNodeReachable w)).
  { intros w. eapply only_mono; [|apply EnsureNodeReachable_looks]. by intros A []. }
  assert (Hstop : forall w, only (@sweeps_nothing) (StopPod w)).
  { intros w. unfold StopPod, unless_gone, try_bind. apply only_bind; [apply He|]. intros [[]|e]; [by only_auto|done]. }
  assert (Hrel : forall A l (m : prog api A), only (@sweeps_nothing) m -> only (@sweeps_nothing) (releasing l m)).
  { intros A l m Hm. unfold releasing. apply only_bind; [exact Hm|]. intros a. by only_auto. }
  apply sweeps_nothing_well. unfold StopWorkspace. repeat (case_goal; [apply Hr|]).
  apply only_bind; [unfold injected_pod; by only_auto|]. intros [pod|]; [apply Hr|]. unfold or_respond.
  apply only_bind.
  { unfold Lifecycle.load, NewWorkspaceFromHelmRelease, FindWorkspaceHelmRelease, try_bind. apply only_bind.
    - apply only_bind; [by only_auto|]. by intros [l|e].
    - intros [rel|e]; [|done]. apply only_bind; [by only_auto|]. by intros [u|e]. }
  intros [w|e]; [|apply Hr]. apply only_bind; [apply He|]. intros [[]|e]; [|apply Hr].
  apply only_bind; [unfold try_lock; by only_auto|]. intros [| |e]; [|apply Hr..]. unfold stop_pod. case_goal.
  - apply only_bind; [apply Hr|]. intros []. apply Hrel. apply only_bind; [by only_auto|]. intros ?.
    apply only_bind; [apply He|]. intros [[]|e]; [|done]. apply only_bind; [apply Ht|]. intros ?. by apply only_bind; [apply Hstop|].
  - apply only_bind; [|intros r; apply Hr]. apply Hrel, only_bind; [apply Ht|]. intros ?. apply Hstop.
Qed.

End handlers.

(** ** The clean-up of a user *)

(** What the deletion of one pod calls: no renewal is looked at, nothing is told to
    the caller, no detection dropped, and no lock but the workspace's released. *)
Definition pod_calls (name : string) {A} (e : api A) : bool :=
  match e with
  | LockLost _ | ThreatClear _ | Respond _ | LockAcquire _ _ => false
  | LockRelease l | LockTryAcquire l => String.eqb l name
  | _ => true
  end.

Section cleanup.
Context {F X : Type} `{!Deployment F X}.
Context (unmarshal_state : string -> option InjectionState).
Implicit Types w : WorkspaceObj F X.

Ltac pod_call := intros ?; cbn [pod_calls]; rewrite ?String.eqb_refl; cbn [conform].

Lemma token_pod_calls {R} name (m : prog api R) : only (@token_calls) m -> only (@pod_calls name) m.
Proof. apply only_mono. by intros A []. Qed.

Lemma sweep_pod_calls name ns id : only (@pod_calls name) (DeleteNamespacedWorkspaceResources ns id).
Proof. eapply only_mono; [|apply sweep_calls]. by intros A []. Qed.

Lemma DeleteWorkspacePod_calls pod :
  only (@pod_calls (p_Name (wp_Pod pod))) (DeleteWorkspacePod (F := F) (X := X) unmarshal_state pod).
Proof.
  unfold DeleteWorkspacePod. case_goal.
  - unfold ejectWorkspacePod. destruct (FindOwnerWorkload _) as [[k n]|e]; [|done]. cbv zeta.
    destruct (NewWorkspaceForEject _) as [w|e]; [|done]. apply only_bind; [apply token_pod_calls, DeleteWorkspacePAT_calls|]. intros _.
    unfold wrapping. apply only_bind; [|done]. unfold Eject. case_goal; [done|]. case_goal; [done|]. cbv zeta. unfold try_bind.
    apply only_bind; [unfold wrapping; apply only_bind; [|done]|].
    { unfold GetWorkloadAdapter. case_goal; [|done]. unfold wrapping, only. repeat conform_step. pod_call. done. }
    intros [wl|e]; [|done]. apply only_bind; [unfold wrapping; apply only_bind; [|done]|].
    { unfold EjectFromWorkload. case_goal; [|done]. unfold try_bind, wrapping, only. repeat conform_step. pod_call. by destruct x as [[]|e]. }
    intros [id|e]; [|done]. unfold wrapping. apply only_bind; [apply sweep_pod_calls|done].
  - cbv zeta. destruct (NewWorkspaceForUninstall _) as [w|e] eqn:Hw; [|done]. apply only_bind.
    { unfold try_lock, only. repeat conform_step. pod_call. done. }
    intros [| |e]; [|done..]. unfold releasing. apply only_bind.
    + apply only_bind; [apply token_pod_calls, DeleteWorkspacePAT_calls|]. intros _. unfold wrapping. apply only_bind; [|done].
      unfold Uninstall, uninstall_release. apply only_bind; [apply token_pod_calls, DeletePAT_calls|]. intros _. unfold try_bind.
      apply only_bind; [unfold wrapping, only; repeat conform_step; pod_call; done|]. intros [[]|e]; [|done]. case_goal; [done|].
      unfold ignoring. apply only_bind; [apply sweep_pod_calls|done].
    + intros r. unfold only. repeat conform_step. pod_call. done.
Qed.

(** The clean-up goes on until its lock is lost, and then only releases it. *)
Inductive cleaning : Type := Running | Lost | Finished.

Definition cleanup_step (lock : string) (st : cleaning) A (e : api A) : A -> judgement cleaning :=
  match e in api A return A -> judgement cleaning with
  | LockLost l => fun lost =>
      match st with Running => if String.eqb l lock then Next (if lost : bool then Lost else Running) else Forbidden | _ => Forbidden end
  | LockRelease l => fun _ =>
      if String.eqb l lock then match st with Finished => Forbidden | _ => Next Finished end
      else match st with Running => Next st | _ => Forbidden end
  | _ => fun _ => match st with Running => Next st | _ => Forbidden end
  end.

(** The clean-up of a user's workspaces stops when its lock is lost: before each
    workspace it looks whether the lock could be renewed, and once it could not,
    it calls nothing more, but to release the lock; whatever happens to one of the
    workspaces, the lock is released in the end. *)
Theorem cleanup_stops username pods :
  Forall (fun pod => p_Name (wp_Pod pod) <> user_lock username) pods ->
  conform (cleanup_step (user_lock username)) (deleteUserWorkspaces (F := F) (X := X) unmarshal_state username pods) Running
    (fun st _ => st = Finished).
Proof.
  intros Hpods. unfold deleteUserWorkspaces, releasing. apply conform_bind.
  eapply conform_mono with (Q := fun st _ => st = Running \/ st = Lost).
  2: { intros st [] [-> | ->]; apply conform_bind, conform_call; intros r; cbn [cleanup_step]; by rewrite String.eqb_refl. }
  induction pods as [|pod pods IH]; cbn [delete_pods]; [by left|]. apply Forall_cons in Hpods as [Hp Hpods]. specialize (IH Hpods).
  apply conform_bind, conform_call. intros lost. cbn [cleanup_step]. rewrite String.eqb_refl. destruct lost; [by right|].
  apply conform_bind. eapply steady; [apply DeleteWorkspacePod_calls| |].
  - intros A e x He. destruct e; try discriminate He; cbn [cleanup_step]; try (by left).
    cbn [pod_calls] in He. apply String.eqb_eq in He as ->. apply String.eqb_neq in Hp. rewrite Hp. by left.
  - intros [[]|e]; [|exact IH]. cbv zeta. apply conform_bind, conform_call. intros []. cbn [cleanup_step]. exact IH.
Qed.

(** The clean-up drops the detection of a standalone workspace under its canonical
    id; it is stored, and dropped by DeleteWorkspace, under its name. *)
Theorem cleanup_keeps_detection lock pod :
  label (wp_Labels pod) LabelCanonicalId <> "" -> label (wp_Labels pod) LabelCanonicalId <> p_Name (wp_Pod pod) ->
  only (fun _ (e : api _) => match e with ThreatClear key => negb (String.eqb key (p_Name (wp_Pod pod))) | _ => true end)
    (delete_pods (F := F) (X := X) unmarshal_state lock [pod]).
Proof.
  intros Hid%String.eqb_neq Hne%String.eqb_neq. cbn [delete_pods]. apply only_bind; [done|]. intros [|]; [done|].
  apply only_bind.
  - eapply only_mono; [|apply DeleteWorkspacePod_calls]. intros A e He. by destruct e.
  - intros [[]|e]; [|done]. cbv zeta. rewrite Hid. unfold only. repeat conform_step. intros r. by rewrite Hne.
Qed.
End cleanup.

(** ** The delay and the lease *)

(** A cluster where a release is left over, with the time, the lease of the lock and
    whether it could be taken by others at each removal of a release. *)
Record clocked : Type := mkClocked { ck_now : Z; ck_lease : option Lease; ck_free : list bool }.

Definition clock_step A (s : clocked) (e : api A) : clocked * A :=
  match e in api A return clocked * A with
  | LockTryAcquire _ => (mkClocked (ck_now s) (Some (new_lease "replica" (ck_now s))) (ck_free s), Ok true)
  | SleepSeconds n => (mkClocked (ck_now s + n * sec) (ck_lease s) (ck_free s), tt)
  | ReleaseList _ => (s, Ok [])
  | ReleaseStuck _ => (s, Ok true)
  | ReleaseUninstall _ =>
      (mkClocked (ck_now s) (ck_lease s)
         (ck_free s ++ [match ck_lease s with Some lease => isLeaseAvailable lease (ck_now s) | None => true end]), Ok tt)
  | e => (s, refuse e)
  end.

(** C40. A delayed deletion can outlive its lock: a delay of more than 30 seconds is
    accepted, nothing renews the lease while the goroutine sleeps, and when the
    release is removed any other process may take the lock. *)
Theorem delayed_removal_outlives_lease {F X} `{!Deployment F X} decode_bp parse_userstr to_user chart unmarshal_state name delay now :
  name <> "" -> (30 < delay <= 60)%Z ->
  ck_free (run clock_step (DeleteWorkspace decode_bp parse_userstr to_user chart unmarshal_state name delay) (mkClocked now None [])).1 = [true].
Proof.
  intros Hn%String.eqb_neq [Hd1 Hd2]. unfold DeleteWorkspace. rewrite Hn.
  assert ((60 <? delay)%Z = false) as -> by (apply Z.ltb_ge; lia).
  rewrite run_bind. change (run clock_step (injected_pod name) ?s) with (s, @None WorkspacePod).
  unfold delete_standalone, or_respond. rewrite run_bind.
  assert (Hf : forall s, run clock_step (find_for_deletion decode_bp parse_userstr to_user chart name) s = (s, Ok (empty_workspace name))).
  { intros s. unfold find_for_deletion, NewWorkspaceForUninstall. rewrite Hn. reflexivity. }
  rewrite Hf, run_bind. cbn [wo_Name empty_workspace].
  change (run clock_step (try_lock name) (mkClocked now None [])) with (mkClocked now (Some (new_lease "replica" now)) [], Acquired).
  unfold now_or_later. assert ((0 <? delay)%Z = true) as -> by (apply Z.ltb_lt; lia).
  assert (Hl : isLeaseAvailable (new_lease "replica" now) (now + delay * sec) = true).
  { unfold isLeaseAvailable. cbn. apply Z.ltb_lt. unfold sec. lia. }
  transitivity [isLeaseAvailable (new_lease "replica" now) (now + delay * sec)]; [|by rewrite Hl].
  unfold Uninstall, uninstall_release, DeletePAT. cbn [wo_user empty_workspace].
  change (canonicalIdForCleanup (empty_workspace name)) with name. rewrite Hn. reflexivity.
Qed.

Lemma delayed_removal_outlives_lease_witness :
  ck_free (run clock_step (DeleteWorkspace (F := Z) (X := unit) (fun _ => None) (fun _ => None) (fun _ => demo_user) "workspace"
    (fun _ => None) "alice-go" 45) (mkClocked 0 None [])).1 = [true].
Proof. apply delayed_removal_outlives_lease; [discriminate|lia]. Defined.

Lemma cleanup_stops_witness :
  conform (cleanup_step (user_lock "alice"))
    (deleteUserWorkspaces (F := Z) (X := unit) (fun _ => None) "alice" [mkWorkspacePod PodState.PodSample.pod ∅ [] [] ""]) Running
    (fun st _ => st = Finished).
Proof. apply cleanup_stops. constructor; [discriminate|constructor]. Defined.

(** ** Requests for an update *)

Lemma accepted_resources parse_quantity r res cpu mem :
  resource_options parse_quantity r = Ok (res, cpu, mem) ->
  (forall q, q ∈ [cpu; mem] -> q <> "" -> is_Some (parse_quantity q)) /\ (res = true -> cpu <> "" \/ mem <> "").
Proof.
  unfold resource_options. destruct r as [[c m]|].
  2: { intros [= <- <- <-]. split; [|done]. intros q Hq Hne. set_solver. }
  destruct (String.eqb_spec c "") as [->|Hc], (String.eqb_spec m "") as [->|Hm]; cbn [andb].
  1: { intros [= <- <- <-]. split; [|done]. intros q Hq Hne. set_solver. }
  all: destruct (quantity_ok _ _ && quantity_ok _ _) eqn:Hok; [|done]; intros [= <- <- <-]; (split; [|auto]); intros q Hq Hne; unfold quantity_ok in *;
    apply andb_prop in Hok as [H1 H2]; apply orb_prop in H1, H2; rewrite !String.eqb_eq, !bool_decide_eq_true in H1, H2;
    apply elem_of_cons in Hq as [->|Hq%list_elem_of_singleton]; subst; naive_solver.
Qed.

(** Options that can be carried out as far as the request tells: they change
    something; given amounts parse; a port is absent or a TCP port other than the
    workspace's own; an alias is empty or valid; and a selector of pods is never
    empty, which would match every pod. *)
Definition acceptable (IsWebProxyAlias : string -> bool) (parse_quantity : string -> option string) (WORKSPACE_PORT : Z)
    (opts : UpdateOptions) : Prop :=
  (up_ChangeResources opts || up_ChangeNetwork opts || up_ReplaceWebProxy opts || up_ChangeWebProxyAlias opts = true) /\
  (forall q, q ∈ [up_CPU opts; up_Memory opts] -> q <> "" -> is_Some (parse_quantity q)) /\
  (up_ChangeResources opts = true -> up_CPU opts <> "" \/ up_Memory opts <> "") /\
  (up_WebProxyPort opts = 0 \/ 1 <= up_WebProxyPort opts <= 65535 /\ up_WebProxyPort opts <> WORKSPACE_PORT)%Z /\
  (up_WebProxyAlias opts <> "" -> up_ChangeWebProxyAlias opts = true /\ IsWebProxyAlias (up_WebProxyAlias opts) = true) /\
  (forall m, m ∈ up_AllowEgressToPods opts -> m <> ∅).


