(* ===== verification/Admission.v ===== *)
(** * Admitting a workspace

    internal/server/provision.go, threat.go and the start of internal/server/
    lifecycle.go: how a request becomes a workspace that may be provisioned or
    injected. A blueprint is chosen and evaluated, the policy engine is asked, the
    nodes of the organization are looked up, and only then is the operation
    started. User strings, the users of the identity service, k8shell files and the
    JSON of requests are parameters. *)

From S2P Require Import Prelude GoStrings NodePool Jobs Yaml Merge Inherit Manager Compose PodState PodWatch Workspaces Values Effects Calls Manifest HelmOps Instance Provision Injection Update Lifecycle.

(** A user of the identity service, with what its blueprints are decided by. *)
Record Account : Type := mkAccount {
  ac_user : WsUser;
  ac_Blueprints : list string;
  ac_GitAddress : string;
}.

Definition manager_user (a : Account) : Manager.User :=
  mkUser (u_Username (ac_user a)) (u_Organization (ac_user a)) (ac_Blueprints a).

Inductive BlueprintKind : Type := BlueprintKindCustom | BlueprintKindImplicit | BlueprintKindExplicit.

#[export] Instance BlueprintKind_eq_dec : EqDecision BlueprintKind.
Proof. solve_decision. Defined.

(** What is read of a user string, as parsed ([Namespace] with its default) and in
    its canonical form. *)
Record ParsedUserStr : Type := mkParsed {
  pu_Pod : string;
  pu_Namespace : string -> string;
  pu_WorkloadName : string;
  pu_WorkloadKind : string;
}.

Record CanonicalRequest : Type := mkCanonical {
  cu_str : CanonicalUserStr;
  cu_WorkspaceName : string;
  cu_Username : string;
  cu_Kind : BlueprintKind;
  cu_Blueprint : string;
  cu_RepoName : string;
  cu_RepoOwner : string;
  cu_RepoRef : string;
}.

(** What admission asks of the blueprint manager. The flag says whether a blueprint
    is a template. *)
Class BlueprintSource (F X : Type) : Type := {
  src_GetBlueprint : string -> BlueprintScope -> option (WsBlueprint F X * bool);
  src_GetDefaultUserBlueprint : Account -> option string;
  src_ComposeWithScope : CustomBlueprint -> BlueprintScope -> option (WsBlueprint F X * string);
  src_GetBlueprintChain : string -> string -> list string;
  src_GetBlueprintRevision : string -> string -> string;
}.

Definition ok_of {E A} (r : result E A) : option A := match r with Ok x => Some x | Err _ => None end.

(** The manager as a source, at the cache it holds; [order] enumerates it. *)
Definition manager_source {F X Tmpl} `{Y : YamlLib} `{!BlueprintDoc (WsBlueprint F X * bool) Tmpl}
    (find_strategy : string -> string -> option Merge.strategy) (orgStore : option OrgBlueprintStore) (s : store) (order : list string)
    (has : Account -> string -> bool) : BlueprintSource F X := {|
  src_GetBlueprint := fun name scope =>
    ok_of (GetBlueprint find_strategy orgStore
             (fun raw name => res_wrap (fun _ => name) (evaluateRawBlueprint scope raw name)) s (scope_org scope) name);
  src_GetDefaultUserBlueprint := fun a => ok_of (GetDefaultUserBlueprint s order (Some (manager_user a)) (has a));
  src_ComposeWithScope := fun cb scope =>
    match ComposeWithScope find_strategy orgStore s cb scope with Ok (bp, rev) => Some (bp.1, rev) | Err _ => None end;
  src_GetBlueprintChain := GetBlueprintChain find_strategy orgStore s;
  src_GetBlueprintRevision := GetBlueprintRevision find_strategy orgStore s;
|}.

(** authz.WorkspaceProvisionMode. *)
Inductive Mode : Type := ModeStandalone | ModeInject.

#[export] Instance Mode_eq_dec : EqDecision Mode.
Proof. solve_decision. Defined.

(** What the gate is configured with: the policy engine and the bucket of jobs if
    there are any, the blueprint of repositories without one, the selector keys, the
    namespaces for injection; and the libraries it calls. *)
Class Gate (F X : Type) : Type := {
  gt_authz : bool;
  gt_jobs : bool;
  gt_DefaultCustomBlueprint : string;
  gt_NodeSelectorKeys : list string;
  (** The order in which Go iterates the values of a key. *)
  gt_values : gmap string Value -> list (string * Value);
  gt_InjectNamespaces : list string;
  (** The identity service's user, and [User.HasBlueprint]. *)
  gt_account : string * string -> Account;
  gt_HasBlueprint : Account -> string -> bool;
  (** userstr.ParseUserStr and Canonicalize. *)
  gt_parse : string -> option ParsedUserStr;
  gt_canonicalize : ParsedUserStr -> option CanonicalRequest;
  (** A k8shell file decoded and validated; [None] is any problem with it. *)
  gt_k8shell_file : string -> option CustomBlueprint;
  (** authz: the names of a mode and a source, whether a request can be built, and the patches applied to a blueprint. *)
  gt_mode : Mode -> string;
  gt_source : BlueprintKind -> string;
  gt_builds : list (string * string) -> bool;
  gt_patch : WsBlueprint F X -> list (string * string) -> option (WsBlueprint F X);
  gt_blueprint_json : WsBlueprint F X -> string;
  (** encoding/json of a job. *)
  gt_job : string -> option ProvisionJob;
  (** Kubernetes' validation of label keys and values. *)
  gt_qualified_name : string -> bool;
  gt_label_value : string -> bool;
}.

(** src/internal/server/provision.go:30-40 PAT_SCOPES *)
Definition PAT_SCOPES : list string :=
  ["session:list:self"; "user:read:profile:self"; "user:read:credentials:registry:self";
   "user:read:credentials:kubernetes:self"; "user:read:credentials:git:self"; "git:fetch"; "git:push";
   "user:write:password:self"; "workspace:delete:self"].

(** ** What the gate sets on a workspace *)

Section setters.
Context {F X : Type}.
#[local] Notation Ws := (WorkspaceObj F X).

(** src/internal/workspace/workspace.go:766-768 SetJobId *)
Definition SetJobId (j : string) (w : Ws) : Ws :=
  let '(mkWorkspaceObj n _ b ch r o u us l pm wn wns wk p c e ns) := w in mkWorkspaceObj n j b ch r o u us l pm wn wns wk p c e ns.

(** src/internal/workspace/workspace.go:795-797 SetBlueprintRevision *)
Definition SetBlueprintRevision (r : string) (w : Ws) : Ws :=
  let '(mkWorkspaceObj n j b ch _ o u us l pm wn wns wk p c e ns) := w in mkWorkspaceObj n j b ch r o u us l pm wn wns wk p c e ns.

(** src/internal/workspace/workspace.go:800-802 SetBlueprintChain *)
Definition SetBlueprintChain (ch : list string) (w : Ws) : Ws :=
  let '(mkWorkspaceObj n j b _ r o u us l pm wn wns wk p c e ns) := w in mkWorkspaceObj n j b ch r o u us l pm wn wns wk p c e ns.

(** src/internal/workspace/workspace.go:807-809 SetAppliedObligations *)
Definition SetAppliedObligations (o : gmap string string) (w : Ws) : Ws :=
  let '(mkWorkspaceObj n j b ch r _ u us l pm wn wns wk p c e ns) := w in mkWorkspaceObj n j b ch r o u us l pm wn wns wk p c e ns.

(** src/internal/workspace/workspace.go:815-820 SetProvisionContext *)
Definition SetProvisionContext (mode name ns kind : string) (w : Ws) : Ws :=
  let '(mkWorkspaceObj n j b ch r o u us l _ _ _ _ p c e sel) := w in mkWorkspaceObj n j b ch r o u us l mode name ns kind p c e sel.

Definition set_env (e : gmap string string) (w : Ws) : Ws :=
  let '(mkWorkspaceObj n j b ch r o u us l pm wn wns wk p c _ ns) := w in mkWorkspaceObj n j b ch r o u us l pm wn wns wk p c e ns.

(** src/internal/workspace/workspace.go:772-777 Username *)
Definition Username (w : Ws) : string := from_option u_Username "" (wo_user w).

(** src/internal/workspace/workspace.go:787-792 UserSource *)
Definition UserSource (w : Ws) : string := from_option u_Source "" (wo_user w).
End setters.

Section gate.
Context {F X : Type} `{!Deployment F X} `{!BlueprintSource F X} `{!Gate F X}.
#[local] Notation Bp := (WsBlueprint F X).
#[local] Notation Ws := (WorkspaceObj F X).
Implicit Types (cu : CanonicalRequest) (a : Account).

(** ** The blueprint *)

(** A chosen blueprint: itself, the name its chain is looked up by, its revision if
    that is not the looked up one's. *)
Record choice : Type := mkChoice { ch_bp : Bp; ch_name : string; ch_revision : string }.

(** The names the user string gives to a blueprint from a repository. *)
Definition repo_metadata cu (address : string) : BlueprintMetadata :=
  mkMetadata (cu_Blueprint cu) (cu_RepoName cu) (cu_RepoOwner cu) (cu_RepoRef cu) address.

(** For a repository without a usable file.

    src/internal/server/provision.go:479-510 prepareWorkspaceWithUserStr *)
Definition choose_default cu a (workspace : string) : reply choice :=
  let name := gt_DefaultCustomBlueprint in
  if String.eqb name "" then Err CodeNotFound
  else
    match GetBlueprintScope name (manager_user a) (Some (repo_metadata cu (ac_GitAddress a))) workspace with
    | None => Err Internal
    | Some scope =>
        if negb (gt_HasBlueprint a name) then Err PermissionDenied
        else match src_GetBlueprint name scope with
             | None => Err CodeNotFound
             | Some (bp, _) => Ok (mkChoice bp name "")
             end
    end.

(** src/internal/server/provision.go:513-536 prepareWorkspaceWithUserStr *)
Definition choose_custom cu a (workspace address : string) (cb : CustomBlueprint) : reply choice :=
  let md := repo_metadata cu address in
  let cb := mkCustom (cu_Blueprint cu) (cb_Template cb) md (cb_rest cb) in
  if negb (gt_HasBlueprint a (cb_Template cb)) then Err PermissionDenied
  else
    match GetBlueprintScope (md_Name md) (manager_user a) (Some md) workspace with
    | None => Err Internal
    | Some scope =>
        match src_ComposeWithScope cb scope with
        | None => Err InvalidArgument
        | Some (bp, rev) => Ok (mkChoice bp (cb_Template cb) rev)
        end
    end.

(** src/internal/server/provision.go:539-572 prepareWorkspaceWithUserStr *)
Definition choose_named cu a (workspace : string) : reply choice :=
  match (if decide (cu_Kind cu = BlueprintKindImplicit) then src_GetDefaultUserBlueprint a else Some (cu_Blueprint cu)) with
  | None => Err InvalidArgument
  | Some name =>
      if String.eqb name "" then Err InvalidArgument
      else
        match GetBlueprintScope name (manager_user a) None workspace with
        | None => Err Internal
        | Some scope =>
            if negb (gt_HasBlueprint a name) then Err PermissionDenied
            else match src_GetBlueprint name scope with
                 | None => Err CodeNotFound
                 | Some (_, true) => Err InvalidArgument
                 | Some (bp, false) => Ok (mkChoice bp name "")
                 end
        end
  end.

(** A repository's file that is empty or has a problem counts as none.

    src/internal/server/provision.go:429-573 prepareWorkspaceWithUserStr *)
Definition choose_blueprint cu a (workspace : string) : prog api (reply choice) :=
  match cu_Kind cu with
  | BlueprintKindCustom =>
      let! r := call (BlueprintByUserStr (us_Text (cu_str cu))) in
      Ret (match r with
           | Err e => Err (if decide (e = CodeNotFound) then CodeNotFound else InvalidArgument)
           | Ok (file, address) =>
               match (if String.eqb file "" then None else gt_k8shell_file file) with
               | None => choose_default cu a workspace
               | Some cb => choose_custom cu a workspace address cb
               end
           end)
  | _ => Ret (choose_named cu a workspace)
  end.

(** ** The policy *)

(** What a policy for provisioning is evaluated on.

    src/internal/server/provision.go:662-668 enforceWorkspaceProvision *)
Definition policy_attributes (owner : string) (bp : Bp) (mode : Mode) (kind : BlueprintKind) (wl : string * string * string)
    : list (string * string) :=
  let '(name, ns, wkind) := wl in
  [("owner", owner); ("blueprintName", b_Name bp); ("blueprint", gt_blueprint_json bp); ("mode", gt_mode mode);
   ("source", gt_source kind); ("workloadName", name); ("workloadNamespace", ns); ("workloadKind", wkind)].

(** The blueprint, patched as the policy obliges to, and the patches by path; nothing
    is asked without a policy engine.

    src/internal/server/provision.go:641-697 enforceWorkspaceProvision *)
Definition enforceWorkspaceProvision (user : WsUser) (workspace : string) (bp : Bp) (mode : Mode) (kind : BlueprintKind)
    (wl : string * string * string) : prog api (reply (Bp * gmap string string)) :=
  if negb gt_authz then Ret (Ok (bp, ∅))
  else
    or_reply (call (TokenIssue (u_Username user) (u_Source user))) (fun _ => Internal) (fun token =>
      let attributes := policy_attributes (u_Username user) bp mode kind wl in
      if negb (gt_builds attributes) then Ret (Err Internal)
      else
        or_reply (call (PolicyEvaluate token workspace attributes)) (fun _ => Internal) (fun result =>
          let '(allowed, patches) := result in
          if negb allowed then Ret (Err PermissionDenied)
          else match gt_patch bp patches with
               | None => Ret (Err Internal)
               | Some patched => Ret (Ok (patched, foldl (fun m kv => <[kv.1 := kv.2]> m) ∅ patches))
               end)).

(** ** The nodes *)

(** A user in an organization is only placed on the nodes it selects; the selectors
    must be met by nodes there are.

    src/internal/server/provision.go:601-627 prepareWorkspaceWithUserStr *)
Definition place (user : WsUser) (w : Ws) : prog api (reply Ws) :=
  if String.eqb (u_Organization user) "" then Ret (Ok w)
  else
    let! org := call (OrganizationGet (u_Organization user)) in
    match org with
    | Err code => Ret (Err code)
    | Ok [] => Ret (Err InvalidArgument)
    | Ok selectors =>
        match ParseNodeSelectors gt_qualified_name gt_label_value selectors with
        | Err _ => Ret (Err InvalidArgument)
        | Ok parsed =>
            let! nodes := call NodesCached in
            match validateNodeSelectors (map_to_list parsed) (Options gt_values gt_NodeSelectorKeys nodes) with
            | Some _ => Ret (Err InvalidArgument)
            | None =>
                Ret (match SetNodeSelectors gt_qualified_name gt_label_value selectors w with
                     | Err _ => Err InvalidArgument
                     | Ok w => Ok w
                     end)
            end
        end
    end.

(** ** The workspace *)

(** src/internal/server/provision.go:583-594 prepareWorkspaceWithUserStr *)
Definition prepared cu (user : WsUser) (workspace : string) (c : choice) (bp : Bp) (obligations : gmap string string) (mode : Mode)
    (wl : string * string * string) : Ws :=
  let '(name, ns, wkind) := wl in
  let org := u_Organization user in
  let w := NewWorkspace workspace bp user (cu_str cu) in
  let w := SetBlueprintChain (src_GetBlueprintChain org (ch_name c)) w in
  let rev := if String.eqb (ch_revision c) "" then src_GetBlueprintRevision org (ch_name c) else ch_revision c in
  SetProvisionContext (gt_mode mode) name ns wkind (SetAppliedObligations obligations (SetBlueprintRevision rev w)).

(** [wl] is the workload's name, namespace and kind.

    src/internal/server/provision.go:405-634 prepareWorkspaceWithUserStr *)
Definition prepareWorkspaceWithUserStr cu (mode : Mode) (wl : string * string * string) : prog api (reply Ws) :=
  let workspace := if decide (mode = ModeInject) then us_CanonicalId (cu_str cu) else cu_WorkspaceName cu in
  or_reply (call (UserFind (cu_Username cu))) (fun _ => CodeNotFound) (fun found =>
    let a := gt_account found in
    let user := ac_user a in
    let! chosen := choose_blueprint cu a workspace in
    match chosen with
    | Err code => Ret (Err code)
    | Ok c =>
        let! enforced := enforceWorkspaceProvision user workspace (ch_bp c) mode (cu_Kind cu) wl in
        match enforced with
        | Err code => Ret (Err code)
        | Ok (bp, obligations) =>
            let! placed := place user (prepared cu user workspace c bp obligations mode wl) in
            match placed with
            | Err code => Ret (Err code)
            | Ok w => or_reply (FetchUserEnvVars w) (fun _ => Internal) (fun env => Ret (Ok (set_env env w)))
            end
        end
    end).

(** ** Threat detection *)

(** src/internal/server/threat.go:24-37 threatDetectParams *)
Definition threat_attributes (w : Ws) (mode : Mode) (wl : string * string * string) (standaloneNamespace : string)
    : list (string * string) :=
  let '(name, ns, wkind) := if decide (mode = ModeInject) then wl else ("", standaloneNamespace, "") in
  [("owner", Username w); ("mode", gt_mode mode); ("namespace", ns); ("workloadName", name); ("workloadKind", wkind);
   ("blueprintName", from_option b_Name "" (wo_blueprint w))].

(** Nothing of it is reported, and without an answer the stored entry stays as it is.

    src/internal/server/threat.go:76-134 storeThreatDetection *)
Definition storeThreatDetection (w : Ws) (mode : Mode) (wl : string * string * string) (standaloneNamespace : string)
    (resources : prog api (answer (gmap string (list (string * yvalue))))) : prog api unit :=
  if negb gt_authz then Ret tt
  else
    let! bucket := call ThreatBucket in
    if negb bucket then Ret tt
    else
      let! rendered := resources in
      let! token := call (TokenIssue (Username w) (UserSource w)) in
      match token with
      | Err _ => Ret tt
      | Ok token =>
          let! detect := call (ThreatEvaluate token (wo_Name w) (threat_attributes w mode wl standaloneNamespace)
                                 (match rendered with Ok r => Some r | Err _ => None end)) in
          match detect with
          | Err _ => Ret tt
          | Ok detect =>
              let! _ := call (ThreatStore (wo_Name w) ((fun d => (d, Username w)) <$> detect)) in Ret tt
          end
      end.

(** ** The gates *)

Record StreamRequest : Type := mkStreamRequest { sr_Userstr : string; sr_Timeout : Z }.

Inductive operation : Type :=
| ProvisionOperation (w : Ws) (timeout : Z)
| InjectOperation (w : Ws) (o : InjectOptions).

(** How a request ends before its operation, or the operation with its job. A
    reading of the job's id when there is no job ends the process. *)
Inductive gate_result : Type :=
| Refused (code : grpc_code)
| HandshakeLost
| Crashed
| Running (job : option ProvisionJobServer) (op : operation).

(** src/internal/server/provision.go:90-99 sendHandshakeErr *)
Definition sendHandshakeErr (name : string) (code : grpc_code) : prog api gate_result :=
  let! _ := call (Handshake name "" (Some code)) in Ret (Refused code).

Definition or_refuse {A} (name : string) (m : prog api (reply A)) (f : A -> prog api gate_result) : prog api gate_result :=
  m ≫= fun r => match r with Ok x => f x | Err code => sendHandshakeErr name code end.

(** [x, err := m; if err != nil { code }]. *)
Definition coded {A} (code : grpc_code) (m : prog api (answer A)) : prog api (reply A) :=
  or_reply m (fun _ => code) (fun x => Ret (Ok x)).

(** src/internal/server/helpers.go:42-48 verifyWorkloadExists *)
Definition verifyWorkloadExists (ns kind name : string) : prog api (reply unit) :=
  or_reply (GetWorkloadAdapter ns kind name) (fun _ => CodeNotFound) (fun _ => Ret (Ok tt)).

(** A workload is looked up and the token minted before the operation.

    src/internal/server/provision.go:160-172 ProvisionWorkspaceStream *)
Definition check_inject (w : Ws) (wl : string * string * string) : prog api (reply Ws) :=
  let '(name, ns, wkind) := wl in
  if negb (AllowsInjectionNamespace gt_InjectNamespaces ns) then Ret (Err PermissionDenied)
  else
    let! r := verifyWorkloadExists ns wkind name in
    match r with
    | Err code => Ret (Err code)
    | Ok _ => coded Internal (MintPAT w PAT_SCOPES)
    end.

(** A pod that is being removed is waited for.

    src/internal/server/provision.go:174-199 ProvisionWorkspaceStream *)
Definition check_standalone (w : Ws) (timeout : Z) : prog api (reply Ws) :=
  or_reply (ExistsAndRunning w) (fun _ => Internal) (fun r =>
    let '(exists_, st) := r in
    if exists_ : bool then Ret (Err CodeAlreadyExists)
    else
      match status_of <$> st with
      | Some WorkspaceStatusNodeLost => Ret (Err (convertToGRPCError (Wrap "node" (Sentinel ErrNodeUnreachable))))
      | Some (WorkspaceStatusStopping | WorkspaceStatusTerminating) =>
          or_reply (WaitForPodGone w timeout) (fun _ => DeadlineExceeded) (fun _ => Ret (Ok w))
      | _ => Ret (Ok w)
      end).

(** src/internal/server/provision.go:159-211 ProvisionWorkspaceStream *)
Definition check_target (w : Ws) (mode : Mode) (wl : string * string * string) (timeout : Z) : prog api (reply Ws) :=
  if decide (mode = ModeInject) then check_inject w wl else check_standalone w timeout.

(** src/internal/server/provision.go:138-145 ProvisionWorkspaceStream *)
Definition stream_timeout (mode : Mode) (timeout : Z) : Z :=
  if (timeout <=? 0)%Z then (if decide (mode = ModeInject) then 120 else 20)%Z else timeout.

(** A job is recorded when there is a bucket for jobs.

    src/internal/server/provision.go:224-228 ProvisionWorkspaceStream *)
Definition new_job (w : Ws) (username : string) : prog api (Ws * option ProvisionJobServer) :=
  if negb gt_jobs then Ret (w, None)
  else
    let! id := call NewId in
    let job := SetStatus ProvisionJobRunning (NewProvisionJob id (wo_Name w) username) in
    let! _ := call (JobPut (ProvisionJob_ job)) in
    Ret (SetJobId id w, Some job).

Section streams.
Variable decode_bp : gmap string yvalue -> option Bp.
Variable parse_userstr : string -> option CanonicalUserStr.
Variable to_user : string * string -> WsUser.
Variable chart : string.
Variable decode_map : string -> option (list (string * yvalue)).
Variable decode_meta : string -> option (string * string).
Variable decode_object : kind -> string -> option object.
Variable decode_template : string * PodTemplate -> string -> option (string * PodTemplate).
Variable marshal_state : InjectionState -> string.
Variable unmarshal_state : string -> option InjectionState.
Variable copy_blueprint : Bp -> option Bp.
Variable clear_network : X -> X.

(** What the goroutine of the stream runs; it is only decided there that the id of
    a job is read.

    src/internal/server/provision.go:240-257 ProvisionWorkspaceStream *)
Definition stream_operation cu (w : Ws) (mode : Mode) (wl : string * string * string) (timeout : Z)
    (job : option ProvisionJobServer) : gate_result :=
  let '(name, ns, wkind) := wl in
  if decide (mode = ModeInject) then
    match job with
    | None => Crashed
    | Some j => Running job (InjectOperation w (mkInjectOptions ns name wkind (us_CanonicalId (cu_str cu)) (pj_ID (ProvisionJob_ j)) timeout))
    end
  else Running job (ProvisionOperation w timeout).

(** src/internal/server/provision.go:230-237 ProvisionWorkspaceStream *)
Definition shake {A} (w : Ws) (accepted : A) (lost : A) : prog api A :=
  let! sent := call (Handshake (wo_Name w) (wo_JobId w) None) in Ret (if sent : bool then accepted else lost).

(** src/internal/server/provision.go:213-258 ProvisionWorkspaceStream *)
Definition start_stream cu (p : ParsedUserStr) (w : Ws) (mode : Mode) (wl : string * string * string) (timeout : Z) : prog api gate_result :=
  let! _ := storeThreatDetection w mode wl (pu_Namespace p target_ns)
              (RenderedResources decode_map copy_blueprint clear_network w (if decide (mode = ModeInject) then wl.1.2 else "")) in
  let! (w, job) := new_job w (cu_Username cu) in
  shake w (stream_operation cu w mode wl timeout job) HandshakeLost.

(** src/internal/server/provision.go:102-258 ProvisionWorkspaceStream *)
Definition ProvisionWorkspaceStream (req : StreamRequest) : prog api gate_result :=
  match gt_parse (sr_Userstr req) with
  | None => sendHandshakeErr "n/a" InvalidArgument
  | Some p =>
      match gt_canonicalize p with
      | None => sendHandshakeErr "n/a" InvalidArgument
      | Some cu =>
          if negb (String.eqb (pu_Pod p) "") then sendHandshakeErr (cu_WorkspaceName cu) InvalidArgument
          else
            let wl := (pu_WorkloadName p, pu_Namespace p "", pu_WorkloadKind p) in
            let mode := if negb (String.eqb (pu_Namespace p "") "") && negb (String.eqb (pu_WorkloadName p) "")
                        then ModeInject else ModeStandalone in
            let expected := if decide (mode = ModeInject) then us_CanonicalId (cu_str cu) else cu_WorkspaceName cu in
            let timeout := stream_timeout mode (sr_Timeout req) in
            or_refuse expected (prepareWorkspaceWithUserStr cu mode wl) (fun w =>
              or_refuse (wo_Name w) (check_target w mode wl timeout) (fun w => start_stream cu p w mode wl timeout))
      end
  end.

(** The job whose id the release carries, continued, or a new one.

    src/internal/server/lifecycle.go:464-480 StartWorkspaceStream *)
Definition start_job (w : Ws) : prog api (Ws * option ProvisionJobServer) :=
  if negb gt_jobs then Ret (w, None)
  else
    let! existing := (if String.eqb (wo_JobId w) "" then Ret None
                      else let! raw := call (JobGet (wo_JobId w)) in
                           Ret (LoadProvisionJob (fun _ => raw) gt_job (wo_JobId w))) in
    match existing with
    | Some job =>
        let job := SetStatus ProvisionJobRunning job in
        let! _ := call (JobPut (ProvisionJob_ job)) in Ret (w, Some job)
    | None => new_job w (Username w)
    end.

(** A stopped workspace is started from its release.

    src/internal/server/lifecycle.go:416-498 StartWorkspaceStream *)
Definition StartWorkspaceStream (name : string) (timeout : Z) : prog api gate_result :=
  if String.eqb name "" then sendHandshakeErr "n/a" InvalidArgument
  else
    let! injected := injected_pod name in
    match injected with
    | Some _ => sendHandshakeErr name FailedPrecondition
    | None =>
        or_refuse name (or_reply (load decode_bp parse_userstr to_user chart name) convertToGRPCError (fun w => Ret (Ok w))) (fun w =>
          or_refuse name (coded Internal (ExistsAndRunning w)) (fun r =>
            if r.1 : bool then sendHandshakeErr name CodeAlreadyExists
            else
              let timeout := if (timeout <=? 0)%Z then 20%Z else timeout in
              let! _ := storeThreatDetection w ModeStandalone ("", "", "") target_ns (ReleasedResources decode_map w) in
              let! (w, job) := start_job w in
              shake w (Running job (ProvisionOperation w timeout)) HandshakeLost))
    end.

(** What a stream runs.

    src/internal/server/provision.go:240-257 ProvisionWorkspaceStream *)
Definition run_operation (op : operation) : prog api (answer WorkspaceStatus) :=
  match op with
  | ProvisionOperation w timeout => Provision w (Some (mkProvisionOptions timeout true 0 PAT_SCOPES))
  | InjectOperation w o =>
      Inject decode_map decode_meta decode_object decode_template marshal_state unmarshal_state copy_blueprint clear_network
        gt_InjectNamespaces w (Some o)
  end.
End streams.
End gate.
