(* ===== verification/AdmissionSpec.v ===== *)
(** * What the gate guarantees

    Theorems on Admission.v, for every answer of the services and the cluster: an
    operation is only started for a user who may use the blueprint, with the policy
    that was evaluated for it and on the nodes of its organization, and until then
    nothing is created but a user's token, a job's record and a detection's entry. *)

From S2P Require Import Prelude GoStrings NodePool Jobs Yaml Merge Inherit Manager Compose PodState PodWatch Workspaces Values Effects Calls Manifest HelmOps Instance Provision ProvisionSpec Injection Update Lifecycle LifecycleSpec Admission.

(** ** What has been asked *)

(** The answers the decision depends on: the user that was looked up, the file of the
    repository with the address of its server, the policy that allowed (workspace,
    attributes, patches), the selectors of an organization, the nodes there are;
    whether the client has been told that it starts. *)
Record seen : Type := mkSeen {
  sn_user : option (string * (string * string));
  sn_file : option (string * string);
  sn_policy : option (string * list (string * string) * list (string * string));
  sn_org : option (string * list (string * string));
  sn_nodes : option (option (list NodePool.Node));
  sn_told : bool;
}.

Definition unseen : seen := mkSeen None None None None None false.

Definition see_user x (st : seen) : seen :=
  mkSeen (Some x) (sn_file st) (sn_policy st) (sn_org st) (sn_nodes st) (sn_told st).
Definition see_file x (st : seen) : seen :=
  mkSeen (sn_user st) (Some x) (sn_policy st) (sn_org st) (sn_nodes st) (sn_told st).
Definition see_policy x (st : seen) : seen :=
  mkSeen (sn_user st) (sn_file st) (Some x) (sn_org st) (sn_nodes st) (sn_told st).
Definition see_org x (st : seen) : seen :=
  mkSeen (sn_user st) (sn_file st) (sn_policy st) (Some x) (sn_nodes st) (sn_told st).
Definition see_nodes x (st : seen) : seen :=
  mkSeen (sn_user st) (sn_file st) (sn_policy st) (sn_org st) (Some x) (sn_told st).
Definition see_told x (st : seen) : seen :=
  mkSeen (sn_user st) (sn_file st) (sn_policy st) (sn_org st) (sn_nodes st) x.

(** Nothing in the cluster or in Helm is changed. Of what is changed elsewhere, a
    token may be minted, a detection recorded and a job recorded. *)
Definition watching (st : seen) (A : Type) (e : api A) : A -> judgement seen :=
  match e in api A return A -> judgement seen with
  | UserFind u => fun r => Next match r with Ok f => see_user (u, f) st | _ => st end
  | BlueprintByUserStr _ => fun r => Next match r with Ok f => see_file f st | _ => st end
  | PolicyEvaluate _ ws attrs => fun r =>
      Next match r with Ok (true, patches) => see_policy (ws, attrs, patches) st | _ => st end
  | OrganizationGet n => fun r => Next match r with Ok l => see_org (n, l) st | _ => st end
  | NodesCached => fun nodes => Next (see_nodes nodes st)
  | Handshake _ _ None => fun sent => Next (see_told sent st)
  | TokenCreate _ _ _ | ThreatStore _ _ | JobPut _ => fun _ => Next st
  | LockAcquire _ _ | LockTryAcquire _ | LockRelease _ | ThreatClear _ => fun _ => Forbidden
  | e => fun _ => if mutates e then Forbidden else Next st
  end.

(** Calls the automaton takes no note of. *)
Definition quiet {A} (e : api A) : bool :=
  match e with
  | UserFind _ | BlueprintByUserStr _ | PolicyEvaluate _ _ _ | OrganizationGet _ | NodesCached | Handshake _ _ None => false
  | LockAcquire _ _ | LockTryAcquire _ | LockRelease _ | ThreatClear _ => false
  | TokenCreate _ _ _ => true
  | e => negb (mutates e)
  end.

Lemma quiet_steady {R} (m : prog api R) st Q : only (@quiet) m -> (forall r, Q st r) -> conform watching m st Q.
Proof.
  intros Hm HQ. eapply steady; [exact Hm| |exact HQ]. intros A e x He. left.
  destruct e; try discriminate He; try done; cbn in He |- *; try by (apply negb_true_iff in He as ->).
  by destruct error.
Qed.

(** ** The parts that only look *)

Section quiet.
Context {F X : Type} `{!Deployment F X} `{!BlueprintSource F X} `{!Gate F X}.
Implicit Types w : WorkspaceObj F X.

Lemma FetchUserEnvVars_quiet w : only (@quiet) (FetchUserEnvVars w).
Proof.
  assert (Hv : forall u vars out, only (@quiet) (env_values u vars out)).
  { induction vars as [|[[k v] red] vars IH]; intros out; cbn [env_values]; [done|]. unfold try_bind. apply only_bind.
    - destruct red; [|done]. only_auto.
    - intros [a|e]; [apply IH|done]. }
  unfold FetchUserEnvVars. destruct dp_identity, (wo_user w); try done. unfold try_bind. apply only_bind; [only_auto|].
  intros [l|e]; [apply Hv|done].
Qed.

Lemma observe_quiet w m b : only (@quiet) (observe w m b).
Proof. unfold observe. only_auto. Qed.

Lemma ExistsAndRunning_quiet w : only (@quiet) (ExistsAndRunning w).
Proof.
  unfold ExistsAndRunning, try_bind. apply only_bind.
  - unfold IsInstalled, releaseExists. only_auto.
  - intros [[]|e]; [|done..]. apply only_bind; [|intros ?; case_goal; [done|case_goal; done]].
    unfold GetPodStatus. apply only_bind; [apply observe_quiet|]. intros ?. case_goal; [done|case_goal; done].
Qed.

Lemma WaitForPodGone_quiet w t : only (@quiet) (WaitForPodGone w t).
Proof.
  unfold WaitForPodGone. generalize (Z.to_nat (2 * (if (t <=? 0)%Z then 20 else t))). intros n.
  induction n as [|n IH]; cbn [wait_gone]; unfold only in *; repeat conform_step; intros ?; cbn [quiet mutates negb]; repeat conform_step; try done.
  intros ?; cbn [quiet mutates negb]. by repeat conform_step.
Qed.

Lemma MintPAT_quiet w scopes : only (@quiet) (MintPAT w scopes).
Proof. unfold MintPAT. case_goal; [|done]. only_auto. Qed.

Lemma verifyWorkloadExists_quiet ns kind name : only (@quiet) (verifyWorkloadExists ns kind name).
Proof. unfold verifyWorkloadExists, or_reply, GetWorkloadAdapter. only_auto. Qed.

Lemma rendered_quiet dm cb cn w ns : only (@quiet) (RenderedResources dm cb cn w ns).
Proof. unfold RenderedResources, Template. only_auto. Qed.

Lemma storeThreatDetection_quiet w mode wl ns resources :
  only (@quiet) resources -> only (@quiet) (storeThreatDetection w mode wl ns resources).
Proof.
  intros Hr. unfold storeThreatDetection. case_goal; [done|]. apply only_bind; [only_auto|]. intros b. case_goal; [done|].
  apply only_bind; [exact Hr|]. intros r. apply only_bind; [only_auto|]. intros [token|e]; [|done].
  apply only_bind; [only_auto|]. intros [detect|e]; [only_auto|done].
Qed.

Lemma new_job_quiet w u : only (@quiet) (new_job w u).
Proof. unfold new_job. only_auto. Qed.

(** ** The stages *)

(** [c] is the blueprint of that name as the manager serves it in the scope of the
    user, the workspace and what is known of the repository; [template] says
    whether it is a template. *)
Definition served a ws md c (name : string) (template : bool) : Prop :=
  name <> "" /\ ch_name c = name /\ ch_revision c = "" /\
  exists scope, GetBlueprintScope name (manager_user a) md ws = Some scope /\ src_GetBlueprint name scope = Some (ch_bp c, template).

(** The blueprint a request asks for: the one it names, the user's default one, or
    what the file of the repository makes of its template, and without a usable
    file the configured one. *)
Definition chosen_as cu a ws (file : option (string * string)) c : Prop :=
  match cu_Kind cu with
  | BlueprintKindExplicit => served a ws None c (cu_Blueprint cu) false
  | BlueprintKindImplicit => exists name, src_GetDefaultUserBlueprint a = Some name /\ served a ws None c name false
  | BlueprintKindCustom =>
      exists text address, file = Some (text, address) /\
      match (if String.eqb text "" then None else gt_k8shell_file text) with
      | None => exists template, served a ws (Some (repo_metadata cu (ac_GitAddress a))) c gt_DefaultCustomBlueprint template
      | Some cb =>
          let md := repo_metadata cu address in
          ch_name c = cb_Template cb /\
          exists scope, GetBlueprintScope (cu_Blueprint cu) (manager_user a) (Some md) ws = Some scope /\
            src_ComposeWithScope (mkCustom (cu_Blueprint cu) (cb_Template cb) md (cb_rest cb)) scope = Some (ch_bp c, ch_revision c)
      end
  end.

(** A blueprint the user may use, and asked for. *)
Definition rightly_chosen cu a ws file c : Prop := gt_HasBlueprint a (ch_name c) = true /\ chosen_as cu a ws file c.

Lemma choose_default_served cu a ws c : choose_default cu a ws = Ok c ->
  gt_HasBlueprint a (ch_name c) = true /\
  exists template, served a ws (Some (repo_metadata cu (ac_GitAddress a))) c gt_DefaultCustomBlueprint template.
Proof.
  unfold choose_default, served. intros H. repeat case_in H; try done. injection H as <-. cbn.
  match goal with H : negb _ = false |- _ => apply negb_false_iff in H end. split; [done|].
  match goal with H : String.eqb _ _ = false |- _ => apply String.eqb_neq in H end. eauto 10.
Qed.

Lemma choose_custom_composed cu a ws address cb c : choose_custom cu a ws address cb = Ok c ->
  let md := repo_metadata cu address in
  gt_HasBlueprint a (ch_name c) = true /\ ch_name c = cb_Template cb /\
  exists scope, GetBlueprintScope (cu_Blueprint cu) (manager_user a) (Some md) ws = Some scope /\
    src_ComposeWithScope (mkCustom (cu_Blueprint cu) (cb_Template cb) md (cb_rest cb)) scope = Some (ch_bp c, ch_revision c).
Proof.
  unfold choose_custom. cbn [cb_Template]. intros H. repeat case_in H; try done. injection H as <-. cbn.
  match goal with H : negb _ = false |- _ => apply negb_false_iff in H end. eauto 10.
Qed.

Lemma choose_named_served cu a ws c : choose_named cu a ws = Ok c ->
  gt_HasBlueprint a (ch_name c) = true /\
  exists name, (if decide (cu_Kind cu = BlueprintKindImplicit) then src_GetDefaultUserBlueprint a else Some (cu_Blueprint cu)) = Some name /\
    served a ws None c name false.
Proof.
  unfold choose_named, served. intros H. repeat case_in H; try done. injection H as <-. cbn.
  match goal with H : negb _ = false |- _ => apply negb_false_iff in H end. split; [done|].
  match goal with H : String.eqb _ _ = false |- _ => apply String.eqb_neq in H end. eauto 10.
Qed.

Lemma choose_blueprint_right cu a ws st :
  conform watching (choose_blueprint cu a ws) st
    (fun st' r => sn_user st' = sn_user st /\ sn_told st' = sn_told st /\
       match r with Ok c => rightly_chosen cu a ws (sn_file st') c | Err _ => True end).
Proof.
  unfold choose_blueprint, rightly_chosen, chosen_as. destruct (cu_Kind cu) eqn:Ek.
  - repeat conform_step. intros x. cbn [watching mutates]. repeat conform_step.
    destruct x as [[file address]|e]; (split; [done|]; split; [done|]); [|done].
    destruct (if String.eqb file "" then None else gt_k8shell_file file) as [cb|] eqn:Ef.
    + destruct (choose_custom cu a ws address cb) as [c|] eqn:E0; [|done]. apply choose_custom_composed in E0 as (Hm & Hn & Hs).
      split; [done|]. exists file, address. by rewrite Ef.
    + destruct (choose_default cu a ws) as [c|] eqn:E0; [|done]. apply choose_default_served in E0 as [Hm Hs].
      split; [done|]. exists file, address. by rewrite Ef.
  - cbn. do 2 (split; [done|]). destruct (choose_named cu a ws) as [c|] eqn:E0; [|done].
    apply choose_named_served in E0 as (Hm & name & Hn & Hs). rewrite Ek in Hn. split; [done|]. by exists name.
  - cbn. do 2 (split; [done|]). destruct (choose_named cu a ws) as [c|] eqn:E0; [|done].
    apply choose_named_served in E0 as (Hm & name & Hn & Hs). rewrite Ek in Hn. injection Hn as ->. by split.
Qed.

(** The policy that allowed [bp] in place of the chosen blueprint. *)
Definition allowed_by (st : seen) (user : WsUser) ws (chosen bp : WsBlueprint F X) mode kind wl : Prop :=
  if gt_authz then
    exists patches, sn_policy st = Some (ws, policy_attributes (u_Username user) chosen mode kind wl, patches) /\
                    gt_patch chosen patches = Some bp
  else bp = chosen.

Lemma enforce_allows user ws bp mode kind wl st :
  conform watching (enforceWorkspaceProvision user ws bp mode kind wl) st
    (fun st' r => sn_user st' = sn_user st /\ sn_file st' = sn_file st /\ sn_told st' = sn_told st /\
       match r with Ok (bp', _) => allowed_by st' user ws bp bp' mode kind wl | Err _ => True end).
Proof.
  unfold enforceWorkspaceProvision, or_reply, allowed_by. destruct gt_authz; cbn [negb]; [|by cbn].
  repeat conform_step. intros x. cbn [watching mutates]. repeat conform_step; try done.
  intros y. cbn [watching]. destruct y as [[[] patches]|e]; repeat conform_step; try done; cbn; do 3 (split; [done|]); try done. by exists patches.
Qed.

(** The user is placed on nodes there are, or belongs to no organization. *)
Definition placed_on (st : seen) (user : WsUser) w : Prop :=
  u_Organization user <> "" ->
  exists selectors nodes, sn_org st = Some (u_Organization user, selectors) /\ selectors <> [] /\ sn_nodes st = Some nodes /\
    ParseNodeSelectors gt_qualified_name gt_label_value selectors = Ok (wo_nodeSelectors w) /\
    validateNodeSelectors (map_to_list (wo_nodeSelectors w)) (Options gt_values gt_NodeSelectorKeys nodes) = None.

(** All of a workspace but its selectors, its variables and its token. *)
Definition same_order w w' : Prop :=
  wo_Name w' = wo_Name w /\ wo_blueprint w' = wo_blueprint w /\ wo_user w' = wo_user w /\ wo_provisionMode w' = wo_provisionMode w.

Lemma place_places user w st :
  conform watching (place user w) st
    (fun st' r => sn_user st' = sn_user st /\ sn_file st' = sn_file st /\ sn_policy st' = sn_policy st /\ sn_told st' = sn_told st /\
       match r with Ok w' => same_order w w' /\ placed_on st' user w' | Err _ => True end).
Proof.
  unfold place. destruct (String.eqb_spec (u_Organization user) "") as [E0|E0].
  { cbn [conform]. do 4 (split; [done|]). split; [by split_and!|]. by intros ?. }
  apply conform_bind, conform_call. intros [selectors|code]; cbn [watching]; [|done]. destruct selectors as [|kv selectors]; [done|].
  destruct (ParseNodeSelectors _ _ _) as [parsed|e] eqn:Ep; [|done]. apply conform_bind, conform_call. intros nodes. cbn [watching].
  destruct (validateNodeSelectors _ _) eqn:Ev; [done|]. cbn [conform]. do 4 (split; [done|]).
  unfold SetNodeSelectors. rewrite Ep. cbn [fmap result_fmap]. split; [by destruct w|]. intros _.
  exists (kv :: selectors), nodes. assert (wo_nodeSelectors (set_selectors parsed w) = parsed) as -> by (by destruct w). done.
Qed.

(** What is asked for a user string before its workspace is there. *)
Definition cleared (st : seen) cu mode wl w : Prop :=
  exists found c bp,
    let user := ac_user (gt_account found) in
    let ws := if decide (mode = ModeInject) then us_CanonicalId (cu_str cu) else cu_WorkspaceName cu in
    sn_user st = Some (cu_Username cu, found) /\
    rightly_chosen cu (gt_account found) ws (sn_file st) c /\
    allowed_by st user ws (ch_bp c) bp mode (cu_Kind cu) wl /\
    wo_Name w = ws /\
    wo_blueprint w = Some bp /\ wo_user w = Some user /\ placed_on st user w.

(** All of a workspace but its token, its job and its variables. *)
Definition alike w w' : Prop :=
  wo_Name w' = wo_Name w /\ wo_blueprint w' = wo_blueprint w /\ wo_user w' = wo_user w /\ wo_nodeSelectors w' = wo_nodeSelectors w.

Lemma cleared_alike st cu mode wl w w' : alike w w' -> cleared st cu mode wl w -> cleared st cu mode wl w'.
Proof.
  intros (Hn & Hb & Hu & Hs) (found & c & bp & ? & ? & ? & ? & ? & ? & Hp). exists found, c, bp. cbn. rewrite Hn, Hb, Hu.
  do 6 (split; [done|]). unfold placed_on. by rewrite Hs.
Qed.

Lemma prepare_clears cu mode wl st :
  conform watching (prepareWorkspaceWithUserStr cu mode wl) st
    (fun st' r => sn_told st' = sn_told st /\ match r with Ok w => cleared st' cu mode wl w | Err _ => True end).
Proof.
  unfold prepareWorkspaceWithUserStr, or_reply. cbv zeta. set (ws := if decide _ then _ else _).
  apply conform_bind, conform_call. intros [found|e]; cbn [watching]; [|done].
  set (st1 := see_user _ _). set (a := gt_account found).
  eapply conform_seq; [apply (choose_blueprint_right cu a ws st1)|]. intros st2 [c|code] (Hu2 & Ht2 & Hc); [|cbn [conform]; by rewrite Ht2].
  eapply conform_seq; [apply enforce_allows|]. intros st3 [[bp obligations]|code] (Hu & Hf & Ht & Ha); [|cbn [conform]; by rewrite Ht, Ht2].
  eapply conform_seq; [apply place_places|]. intros st4 [w|code] (Hu' & Hf' & Hp' & Ht' & Hw); [|cbn [conform]; by rewrite Ht', Ht, Ht2].
  assert (Htold : sn_told st4 = sn_told st) by (by rewrite Ht', Ht, Ht2).
  destruct Hw as [(Hn & Hb & Hus & _) Hpl]. apply conform_bind. apply quiet_steady; [apply FetchUserEnvVars_quiet|].
  intros [env|e]; cbn [conform]; [|done]. split; [done|]. apply (cleared_alike st4 cu mode wl w); [by destruct w|].
  exists found, c, bp. fold a ws. cbn zeta. rewrite Hb, Hus, Hn, Hu', Hu, Hu2, Hf', Hf. split; [done|]. split; [done|]. split.
  { unfold allowed_by in *. by rewrite Hp'. }
  destruct wl as [[name ns] wkind]. done.
Qed.

(** ** The checks of the target *)

Lemma check_target_alike w mode wl timeout st :
  conform watching (check_target w mode wl timeout) st
    (fun st' r => st' = st /\
       match r with
       | Ok w' => alike w w' /\ (mode = ModeInject -> AllowsInjectionNamespace gt_InjectNamespaces wl.1.2 = true)
       | Err _ => True
       end).
Proof.
  unfold check_target. destruct (decide (mode = ModeInject)) as [Hm|Hm].
  - unfold check_inject. destruct wl as [[name ns] wkind]. destruct (AllowsInjectionNamespace _ _) eqn:Ea; cbn [negb]; [|by cbn].
    apply conform_bind. apply quiet_steady; [apply verifyWorkloadExists_quiet|]. intros [[]|code]; [|done].
    unfold coded, or_reply. apply conform_bind. unfold MintPAT. destruct (wo_user w) as [user|] eqn:Eu; [|done].
    unfold try_bind, wrapping. repeat conform_step. intros r. cbn [watching]. destruct r as [token|e]; cbn; [|done].
    split; [done|]. split; [by destruct w|done].
  - unfold check_standalone, or_reply. apply conform_bind. apply quiet_steady; [apply ExistsAndRunning_quiet|].
    intros [[[] s]|e]; [done| |done].
    assert (Hok : st = st /\ alike w w /\ (mode = ModeInject -> AllowsInjectionNamespace gt_InjectNamespaces wl.1.2 = true)) by (by split_and!).
    assert (Hgone : forall st', st' = st -> conform watching (WaitForPodGone w timeout ≫= fun r => match r with Ok _ => Ret (Ok w) | Err _ => Ret (Err DeadlineExceeded) end) st'
      (fun st' r => st' = st /\ match r with Ok w' => alike w w' /\ (mode = ModeInject -> AllowsInjectionNamespace gt_InjectNamespaces wl.1.2 = true) | Err _ => True end)).
    { intros st' ->. apply conform_bind. apply quiet_steady; [apply WaitForPodGone_quiet|]. by intros [[]|e]. }
    destruct (status_of <$> s) as [[]|]; try exact Hok; try (by apply Hgone); done.
Qed.

(** ** The gates *)

Definition request_workload (p : ParsedUserStr) : string * string * string :=
  (pu_WorkloadName p, pu_Namespace p "", pu_WorkloadKind p).

(** An operation that has been admitted, for what the request names. *)
Definition admitted (req : StreamRequest) (st : seen) (op : operation) : Prop :=
  exists p cu, gt_parse (sr_Userstr req) = Some p /\ gt_canonicalize p = Some cu /\ pu_Pod p = "" /\
  match op with
  | ProvisionOperation w _ =>
      cleared st cu ModeStandalone (request_workload p) w /\ (pu_Namespace p "" = "" \/ pu_WorkloadName p = "")
  | InjectOperation w o =>
      cleared st cu ModeInject (request_workload p) w /\ io_WorkspaceCanonicalId o = us_CanonicalId (cu_str cu) /\
      (io_WorkloadName o, io_Namespace o, io_WorkloadKind o) = request_workload p /\
      AllowsInjectionNamespace gt_InjectNamespaces (io_Namespace o) = true /\ gt_jobs = true
  end.

Lemma refused_untold name code st (Q : seen -> gate_result (F := F) (X := X) -> Prop) :
  (forall c, Q st (Refused c)) -> conform watching (sendHandshakeErr name code) st Q.
Proof. intros HQ. unfold sendHandshakeErr. apply conform_bind, conform_call. intros b. cbn. apply HQ. Qed.

Lemma new_job_alike w u st :
  conform watching (new_job w u) st (fun st' r => st' = st /\ alike w r.1 /\ (is_Some r.2 <-> gt_jobs = true)).
Proof.
  unfold new_job. destruct gt_jobs; cbn [negb].
  - repeat conform_step. intros id. cbn [watching mutates]. repeat conform_step. intros []. cbn.
    split; [done|]. split; [by destruct w|]. split; [done|by eexists].
  - cbn. split; [done|]. split; [done|]. split; [by intros []|done].
Qed.

Lemma start_stream_starts dm cb cn cu p w mode timeout st req :
  gt_parse (sr_Userstr req) = Some p -> gt_canonicalize p = Some cu -> pu_Pod p = "" ->
  (mode = ModeStandalone -> pu_Namespace p "" = "" \/ pu_WorkloadName p = "") ->
  (mode = ModeInject -> AllowsInjectionNamespace gt_InjectNamespaces (pu_Namespace p "") = true) ->
  sn_told st = false -> cleared st cu mode (request_workload p) w ->
  conform watching (start_stream dm cb cn cu p w mode (request_workload p) timeout) st
    (fun st g => match g with
                 | Running _ op => sn_told st = true /\ admitted req st op
                 | Crashed => sn_told st = true /\ gt_jobs = false
                 | Refused _ | HandshakeLost => sn_told st = false
                 end).
Proof.
  intros Hp Hc Hpod Hs Hi Ht Hcl. unfold start_stream. apply conform_bind.
  apply quiet_steady; [apply storeThreatDetection_quiet, rendered_quiet|]. intros [].
  eapply conform_seq; [apply new_job_alike|]. intros st' [w' job] (-> & Ha & Hj). cbn [fst snd] in *.
  apply (cleared_alike _ _ _ _ _ _ Ha) in Hcl. unfold shake. apply conform_bind, conform_call. intros sent. cbn [watching].
  destruct sent; [|done]. unfold stream_operation, request_workload in *. destruct (decide (mode = ModeInject)) as [->|Hm].
  - destruct job as [j|].
    + split; [done|]. exists p, cu. do 3 (split; [done|]). cbn. do 3 (split; [done|]). split; [by apply Hi|]. apply Hj. by eexists.
    + split; [done|]. destruct gt_jobs; [|done]. destruct (proj2 Hj eq_refl) as [? [=]].
  - destruct mode; [|done]. split; [done|]. exists p, cu. do 3 (split; [done|]). cbn. split; [done|]. by apply Hs.
Qed.
Lemma stream_admits dm cb cn req :
  conform watching (ProvisionWorkspaceStream dm cb cn req) unseen
    (fun st g => match g with
                 | Running _ op => sn_told st = true /\ admitted req st op
                 | Crashed => sn_told st = true /\ gt_jobs = false
                 | Refused _ | HandshakeLost => sn_told st = false
                 end).
Proof.
  unfold ProvisionWorkspaceStream. destruct (gt_parse (sr_Userstr req)) as [p|] eqn:Ep; [|by apply refused_untold].
  destruct (gt_canonicalize p) as [cu|] eqn:Ec; [|by apply refused_untold].
  destruct (String.eqb_spec (pu_Pod p) "") as [Epod|]; cbn [negb]; [|by apply refused_untold]. cbv zeta.
  set (mode := if _ && _ then ModeInject else ModeStandalone). set (timeout := stream_timeout mode _). fold (request_workload p).
  assert (Hs : mode = ModeStandalone -> pu_Namespace p "" = "" \/ pu_WorkloadName p = "").
  { unfold mode. destruct (String.eqb_spec (pu_Namespace p "") ""), (String.eqb_spec (pu_WorkloadName p) ""); cbn; auto; done. }
  eapply conform_seq; [apply prepare_clears|]. intros st [w|code] [Ht Hcl]; [|by apply refused_untold].
  eapply conform_seq; [apply check_target_alike|]. intros st' [w'|code] [-> Hw]; [|by apply refused_untold].
  destruct Hw as [Ha Hi]. apply start_stream_starts; [done..| | |].
  - exact Hi.
  - by rewrite Ht.
  - exact (cleared_alike _ _ _ _ _ _ Ha Hcl).
Qed.

(** A start of a stopped workspace. *)
Definition started (name : string) (st : seen) (g : gate_result (F := F) (X := X)) : Prop :=
  match g with
  | Running job (ProvisionOperation w timeout) =>
      sn_told st = true /\ wo_Name w = name /\ is_Some (wo_blueprint w) /\ (0 < timeout)%Z /\
      (is_Some job <-> gt_jobs = true) /\ (forall j, job = Some j -> pj_Status (ProvisionJob_ j) = ProvisionJobRunning)
  | Refused _ | HandshakeLost => sn_told st = false
  | _ => False
  end.

Lemma start_job_running w st :
  conform watching (start_job w) st (fun st' r => st' = st /\ alike w r.1 /\
    (is_Some r.2 <-> gt_jobs = true) /\ (forall j, r.2 = Some j -> pj_Status (ProvisionJob_ j) = ProvisionJobRunning)).
Proof.
  unfold start_job. destruct gt_jobs eqn:Ej; cbn [negb]; [|cbn; split_and!; try done; by intros []].
  apply conform_bind. set (m := if String.eqb _ _ then _ else _).
  assert (Hm : only (@quiet) m) by (unfold m; case_goal; [done|only_auto]).
  apply quiet_steady; [exact Hm|]. intros [job|].
  - repeat conform_step. intros []. cbn. split_and!; try done. intros j Hj%(inj Some). subst j. by destruct job as [[] ? ?].
  - unfold new_job. rewrite Ej. cbn [negb]. repeat conform_step. intros id. cbn [watching mutates]. repeat conform_step. intros []. cbn.
    split_and!; try done; try (by destruct w). intros j Hj%(inj Some). rewrite <- Hj. reflexivity.
Qed.

Lemma load_loads dbp pus tu chart name st :
  conform watching (load (F := F) (X := X) dbp pus tu chart name) st
    (fun st' r => sn_told st' = sn_told st /\ sn_policy st' = sn_policy st /\
       match r with Ok w => wo_Name w = name /\ is_Some (wo_blueprint w) | Err _ => True end).
Proof.
  unfold load, NewWorkspaceFromHelmRelease, FindWorkspaceHelmRelease, try_bind, wrapping. repeat conform_step. intros r. cbn [watching mutates].
  repeat conform_step; try done. intros f. cbn [watching]. destruct f as [f|e]; cbn; [|done]. do 2 (split; [done|]).
  unfold workspace_of_release. destruct (dbp _) as [[]|]; [|done]. by split.
Qed.

Lemma released_quiet dm w : only (@quiet) (ReleasedResources dm w).
Proof. unfold ReleasedResources, try_bind. only_auto. Qed.
End quiet.

(** ** The theorems *)

(** C3. Whatever the services answer, a stream only starts an operation for a user who
    has been looked up, with the blueprint the request asks for: the one it names
    or the user's default one as the manager serves it in the user's scope, or for
    a repository what its file makes of the template it names (without a usable
    file the configured default). The name the user's right was checked on is the
    one that was fetched, or the template that was composed. The workspace carries
    that blueprint as the policy that was evaluated on it for this workspace left
    it, and, for a user of an organization, node selectors of the organization that
    nodes carry. An injection also needs a workload namespace the configuration
    allows. Until then nothing in the cluster or in Helm is changed and no lock is
    taken; outside of it only a token may be minted, the detection stored and the
    job recorded. The client is told of a start exactly when there is one or the
    process ends for lack of a job. *)
Theorem ProvisionWorkspaceStream_admits {F X} `{!Deployment F X} `{!BlueprintSource F X} `{!Gate F X} dm cb cn req :
  conform watching (ProvisionWorkspaceStream dm cb cn req) unseen
    (fun st g => match g with
                 | Running _ op => sn_told st = true /\ admitted req st op
                 | Crashed => sn_told st = true /\ gt_jobs = false
                 | Refused _ | HandshakeLost => sn_told st = false
                 end).
Proof. apply stream_admits. Qed.

(** Starting a stopped workspace runs exactly one thing: provisioning of the
    workspace the release of that name describes, which was not running, with a
    timeout and, when there is a bucket for jobs, a job that is marked as running.
    The policy is not asked again. *)
Theorem StartWorkspaceStream_starts {F X} `{!Deployment F X} `{!BlueprintSource F X} `{!Gate F X} dbp pus tu chart dm name timeout :
  conform watching (StartWorkspaceStream dbp pus tu chart dm name timeout) unseen
    (fun st g => started name st g /\ sn_policy st = None).
Proof.
  unfold StartWorkspaceStream. destruct (String.eqb_spec name ""); [by apply refused_untold|].
  apply conform_bind. apply quiet_steady; [unfold injected_pod; only_auto|]. intros [pod|]; [by apply refused_untold|].
  unfold or_refuse, or_reply, coded. apply conform_bind, conform_bind. eapply conform_mono; [apply load_loads|].
  intros st [w|e] (Ht & Hp & Hw); cbn [conform]; [|by apply refused_untold; split].
  apply conform_bind, conform_bind. apply quiet_steady; [apply ExistsAndRunning_quiet|].
  intros [[ex s]|e]; cbn [conform]; [|by apply refused_untold; split]. cbn [fst].
  destruct ex; [by apply refused_untold; split|]. cbv zeta. apply conform_bind.
  apply quiet_steady; [apply storeThreatDetection_quiet, released_quiet|]. intros [].
  eapply conform_seq; [apply start_job_running|]. intros st' [w' job] (-> & Ha & Hj & Hr). cbn [fst snd] in *.
  unfold shake. apply conform_bind, conform_call. intros sent. cbn [watching]. destruct sent; cbn; (split; [|exact Hp]); [|done].
  destruct Ha as (Hn & Hb & _), Hw as [Hwn Hwb]. rewrite Hb, Hn. split_and!; try done. by destruct (Z.leb_spec timeout 0).
Qed.

(** Without a bucket for jobs an injection never runs: each that is accepted ends
    the process when the client has been told of its start. *)
Theorem inject_without_jobs_crashes {F X} `{!Deployment F X} `{!BlueprintSource F X} `{!Gate F X} dm cb cn req p :
  gt_jobs = false -> gt_parse (sr_Userstr req) = Some p -> pu_Namespace p "" <> "" -> pu_WorkloadName p <> "" ->
  conform watching (ProvisionWorkspaceStream dm cb cn req) unseen
    (fun st g => match g with
                 | Running _ _ => False
                 | Crashed => sn_told st = true
                 | Refused _ | HandshakeLost => sn_told st = false
                 end).
Proof.
  intros Hj Hp Hns Hn. eapply conform_mono; [apply stream_admits|]. intros st [code| | |job op]; [done..|by intros []|].
  intros (_ & p' & cu & Hp' & _ & _ & Hop). rewrite Hp in Hp'. injection Hp' as <-. destruct op as [w t|w o].
  - destruct Hop as (_ & [He|He]); by rewrite He in *.
  - destruct Hop as (_ & _ & _ & _ & Hj'). by rewrite Hj in Hj'.
Qed.

(** ** Examples *)

Module AdmissionSample.
Definition source : BlueprintSource Z unit := {|
  src_GetBlueprint := fun name _ => if String.eqb name "go" then Some (demo_bp, false) else None;
  src_GetDefaultUserBlueprint := fun _ => Some "go";
  src_ComposeWithScope := fun _ _ => None;
  src_GetBlueprintChain := fun _ n => ["base"; n];
  src_GetBlueprintRevision := fun _ _ => "r1";
|}.

(** User strings for alice's blueprint go, and for a deployment when they say so. *)
Definition parsed (s : string) : ParsedUserStr :=
  let inject := String.eqb s "alice/go@apps/web" in
  mkParsed "" (fun d => if inject then "apps" else d) (if inject then "web" else "") (if inject then "Deployment" else "").

Definition gate (jobs : bool) : Gate Z unit := {|
  gt_authz := true;
  gt_jobs := jobs;
  gt_DefaultCustomBlueprint := "";
  gt_NodeSelectorKeys := ["pool"];
  gt_values := map_to_list;
  gt_InjectNamespaces := ["apps"];
  gt_account := fun found => mkAccount (mkWsUser found.1 "acme" found.2 1000 1000) ["*"] "git";
  gt_HasBlueprint := fun a name => String.eqb name "go";
  gt_parse := fun s => Some (parsed s);
  gt_canonicalize := fun _ => Some (mkCanonical (mkUserStr "alice/go" "c1") "alice-go" "alice" BlueprintKindExplicit "go" "" "" "");
  gt_k8shell_file := fun _ => None;
  gt_mode := fun m => match m with ModeStandalone => "standalone" | ModeInject => "inject" end;
  gt_source := fun _ => "explicit";
  gt_builds := fun _ => true;
  gt_patch := fun bp _ => Some bp;
  gt_blueprint_json := fun _ => "{}";
  gt_job := fun _ => None;
  gt_qualified_name := fun _ => true;
  gt_label_value := fun _ => true;
|}.

(** Services that agree to everything, and a cluster with one deployment. *)
Definition friendly A (s : unit) (e : api A) : unit * A :=
  (tt, match e in api A return A with
       | UserFind u => Ok (u, "ldap")
       | TokenIssue _ _ => Ok "jwt"
       | TokenCreate _ _ _ => Ok "pat"
       | PolicyEvaluate _ _ _ => Ok (true, [])
       | OrganizationGet _ => Ok [("pool", "a,b")]
       | NodesCached => Some demo_nodes
       | EnvVarList _ => Ok []
       | ReleaseGet _ => Err (Sentinel ErrReleaseNotFound)
       | WorkloadGet ns k n => Ok (mkWorkload k ns n ∅ empty_template)
       | NewId => "j1"
       | Handshake _ _ _ => true
       | e => refuse e
       end).

#[local] Existing Instance source.

Definition request (jobs : bool) (userstr : string) : gate_result :=
  (run friendly (ProvisionWorkspaceStream (Gate0 := gate jobs) (fun _ => None) Some id (mkStreamRequest userstr 0)) tt).2.
End AdmissionSample.

(** The same request is provisioned, or injected when it names a workload. *)
Example admitted_ex :
  match AdmissionSample.request true "alice/go", AdmissionSample.request true "alice/go@apps/web" with
  | Running (Some _) (ProvisionOperation w t), Running (Some _) (InjectOperation w' o) =>
      (wo_Name w, t) = ("alice-go", 20%Z) /\ (wo_Name w', io_JobId o, wo_pat w') = ("c1", "j1", "pat") /\
      wo_nodeSelectors w = {["pool" := ["a"; "b"]]}
  | _, _ => False
  end.
Proof. vm_compute. split_and!; reflexivity. Qed.

Lemma inject_without_jobs_crashes_witness :
  AdmissionSample.request false "alice/go@apps/web" = Crashed /\
  conform watching (ProvisionWorkspaceStream (BlueprintSource0 := AdmissionSample.source) (Gate0 := AdmissionSample.gate false)
                      (fun _ => None) Some id (mkStreamRequest "alice/go@apps/web" 0)) unseen
    (fun st g => match g with
                 | Running _ _ => False
                 | Crashed => sn_told st = true
                 | Refused _ | HandshakeLost => sn_told st = false
                 end).
Proof.
  split; [vm_compute; reflexivity|].
  apply (inject_without_jobs_crashes (Gate0 := AdmissionSample.gate false) (fun _ => None) Some id
           (mkStreamRequest "alice/go@apps/web" 0) (AdmissionSample.parsed "alice/go@apps/web")); [reflexivity..|discriminate|discriminate].
Defined.
