(* ===== verification/Find.v ===== *)
(** * Finding and listing over gRPC

    internal/server/find.go and FindWorkspaceByAlias (internal/workspace/alias.go):
    the handlers that only read. What they read is given as it is when they are
    called: the cluster through the look-ups of Workspaces.v and Query.v, the
    record of jobs, the manager's blueprints. A handler's answer is the list of
    models; gapi's translation to protobuf keeps their fields. *)

From S2P Require Import Prelude GoStrings Yaml Merge Strategies Inherit Cel Manager RawValidate Kube Alias PodState Workspaces Query BlueprintQuery Effects Calls Injection.

(** The code of an answer; listing also refuses with Unimplemented. *)
Inductive find_code : Type := Code (c : grpc_code) | Unimplemented.

Abbreviation found_reply := (result find_code).

(** A parsed user string: its identity's name, the canonical id and workspace name,
    the workload it names, and the namespace, if it has one. *)
Record UserStrParts : Type := mkUserStr {
  us_Username : string;
  us_CanonicalId : string;
  us_WorkspaceName : string;
  us_WorkloadKind : string;
  us_WorkloadName : string;
  us_Namespace : option string;
}.

(** [userStr.Namespace(def)]. *)
Definition namespace_or (def : string) (u : UserStrParts) : string := default def (us_Namespace u).

Definition with_job (id : string) (d : WorkspaceDetails) : WorkspaceDetails :=
  mkDetails (w_Name d) (w_Username d) (w_RepoOwner d) (w_RepoName d) (w_RepoRef d) (w_Blueprint d) (w_Origin d) (w_Organization d) id
    (w_ServerName d) (w_PodIP d) (w_Port d) (w_TLSEnabled d) (w_AppVersion d) (w_CPU d) (w_Memory d) (w_Hostname d) (w_Namespace d)
    (w_NetworkPolicyClass d) (w_BlueprintRevision d) (w_WebProxyPort d) (w_WebProxyAlias d) (w_WebProxyAliasMessage d)
    (w_WorkspaceType d) (w_Runtime d) (w_NodeSelectors d) (w_NodeName d) (w_WorkloadKind d) (w_WorkloadName d).

Definition map_details (f : WorkspaceDetails -> WorkspaceDetails) (w : Workspace) : Workspace :=
  mkWorkspace (f (ws_Details w)) (ws_Created w) (ws_Status w) (ws_Message w) (ws_Outdated w).

Section find.
(** The keys of the bucket of jobs, when there is one. *)
Variable provisionJobsKV : option (string -> option string).
(** [GetWorkspaces] in a namespace; [FindWorkspace] among the injection namespaces. *)
Variable lookup : string -> GetWorkspacesOptions -> result lookup_error (list found).
Variable find : string -> list string -> result lookup_error found.
Variable currentRevision : string -> string -> string.
(** The configuration: where injection is allowed, and the workspaces' namespace. *)
Variable InjectNamespaces : list string.
Variable TargetNamespace : string.

(** src/internal/server/find.go:64-70 clearExpiredJobId *)
Definition clearExpiredJobId (w : Workspace) : Workspace :=
  match provisionJobsKV with
  | Some kv =>
      if String.eqb (w_JobId (ws_Details w)) "" then w
      else match kv (w_JobId (ws_Details w)) with Some _ => w | None => map_details (with_job "") w end
  | None => w
  end.

Definition marked (l : list Workspace) : list Workspace := MarkBlueprintOutdated (Some currentRevision) l.

(** The one workspace a handler found. *)
Definition one (r : result lookup_error found) : found_reply Workspace :=
  match r with
  | Err (WorkspaceNotFound _) => Err (Code CodeNotFound)
  | Err _ => Err (Code Internal)
  | Ok f => match marked [clearExpiredJobId f.1] with [w] => Ok w | _ => Err (Code Internal) end
  end.

(** src/internal/server/find.go:26-39 FindWorkspace *)
Definition FindWorkspace (workspace : string) : found_reply Workspace := one (find workspace InjectNamespaces).

(** The holder of the claim, if its details still say so.

    src/internal/workspace/alias.go:238-256 FindWorkspaceByAlias *)
Definition ws_FindWorkspaceByAlias {T} `{KubeStore T AliasClaim} (claims : result lookup_error T) (org alias : string) : result lookup_error found :=
  match claims with
  | Err e => Err e
  | Ok s =>
      match holder org alias s with
      | None => Err (WorkspaceNotFound alias)
      | Some name =>
          match find name [] with
          | Err e => Err e
          | Ok f =>
              if String.eqb (w_WebProxyAlias (ws_Details f.1)) alias && String.eqb (w_Organization (ws_Details f.1)) org
              then Ok f else Err (WorkspaceNotFound alias)
          end
      end
  end.

(** src/internal/server/find.go:43-60 FindWorkspaceByAlias *)
Definition FindWorkspaceByAlias {T} `{KubeStore T AliasClaim} (claims : result lookup_error T) (org alias : string) : found_reply Workspace :=
  if String.eqb org "" || String.eqb alias "" then Err (Code InvalidArgument)
  else one (ws_FindWorkspaceByAlias claims org alias).

(** A listing: expired jobs cleared if [clear], then marked. *)
Definition listed (clear : bool) (r : result lookup_error (list found)) : found_reply (list Workspace) :=
  match r with
  | Err _ => Err (Code Internal)
  | Ok fs => Ok (marked ((if clear then clearExpiredJobId else id) <$> fs.*1))
  end.

(** src/internal/server/find.go:73-116 GetWorkspaces *)
Definition GetWorkspaces (usernames : list string) (blueprint organization workspace : string) (repo : list string) : found_reply (list Workspace) :=
  if existsb (fun r => negb (String.eqb r "")) repo then Err Unimplemented
  else listed true (lookup TargetNamespace (mkOptions usernames organization blueprint workspace "" InjectNamespaces "" "")).

(** The namespace and the options a user string asks for; the jobs of what is found
    are not looked up.

    src/internal/server/find.go:137-160 GetWorkspacesByUserStr *)
Definition userstr_options (u : UserStrParts) : found_reply (string * GetWorkspacesOptions) :=
  if String.eqb (us_WorkloadName u) ""
  then Ok (namespace_or TargetNamespace u, mkOptions [us_Username u] "" "" (us_WorkspaceName u) "" [] "" "")
  else
    let ns := namespace_or "" u in
    if negb (String.eqb ns "") && negb (AllowsInjectionNamespace InjectNamespaces ns) then Err (Code PermissionDenied)
    else Ok (TargetNamespace, mkOptions [us_Username u] "" "" "" (us_CanonicalId u) (if String.eqb ns "" then [] else [ns])
                                (us_WorkloadName u) (us_WorkloadKind u)).

(** [parse]: the user string parsed and canonicalised.

    src/internal/server/find.go:119-177 GetWorkspacesByUserStr *)
Definition GetWorkspacesByUserStr (parse : string -> option UserStrParts) (userstr : string) : found_reply (list Workspace) :=
  if String.eqb userstr "" then Err (Code InvalidArgument)
  else
    match parse userstr with
    | None => Err (Code InvalidArgument)
    | Some u => o ← userstr_options u; listed false (lookup o.1 o.2)
    end.

(** The errors that wrap ErrInvalidParameters: those of the payload and its filters. *)
Definition invalid_query (e : query_error) : bool :=
  match e with LookupFailed _ | NoIdentityClient | UsersFailed => false | _ => true end.

(** [query]: QueryWorkspaces of Query.v on the payload.

    src/internal/server/find.go:190-220 QueryWorkspaces *)
Definition QueryWorkspaces_handler (query : result query_error (list Workspace)) : found_reply (list Workspace) :=
  match query with
  | Err e => Err (Code (if invalid_query e then InvalidArgument else Internal))
  | Ok ws => Ok (clearExpiredJobId <$> ws)
  end.

(** src/internal/config/config.go:263-273 IsClusterWideInjectionEnabled *)
Definition IsClusterWideInjectionEnabled : bool := existsb (String.eqb "*") InjectNamespaces.

(** The namespaces and whether they are all of the cluster's.

    src/internal/server/find.go:225-247 ListInjectNamespaces *)
Definition ListInjectNamespaces (cluster : option (list string)) : found_reply (list string * bool) :=
  if IsClusterWideInjectionEnabled
  then match cluster with None => Err (Code Internal) | Some l => Ok (l, true) end
  else Ok (InjectNamespaces, false).

(** [listing]: ListInjectWorkloads of Injection.v.

    src/internal/server/find.go:251-293 ListInjectWorkloads *)
Definition ListInjectWorkloads (listing : list string -> list string -> answer (list InjectWorkloadInfo)) (namespace : string) (kinds : list string)
    : found_reply (list InjectWorkloadInfo) :=
  if negb (String.eqb namespace "") && negb (AllowsInjectionNamespace InjectNamespaces namespace) then Err (Code PermissionDenied)
  else
    let namespaces := if String.eqb namespace "" then InjectNamespaces else [namespace] in
    match namespaces with
    | [] => Ok []
    | _ =>
        match listing namespaces kinds with
        | Ok l => Ok l
        | Err e => Err (Code (if errors_is ErrInvalidParameters e then InvalidArgument else Internal))
        end
    end.
End find.

(** ** Blueprints *)

(** src/internal/server/find.go:298-315 ListBlueprints *)
Definition ListBlueprints (summaries : result get_error (list BlueprintSummary)) : found_reply (list BlueprintSummary) :=
  match summaries with Ok l => Ok l | Err _ => Err (Code Internal) end.

(** [query]: QueryBlueprints of BlueprintQuery.v on the payload.

    src/internal/server/find.go:328-347 QueryBlueprints *)
Definition QueryBlueprints_handler (query : result blueprint_query_error (list BlueprintSummary)) : found_reply (list BlueprintSummary) :=
  match query with
  | Ok l => Ok l
  | Err (BlueprintQuery _) => Err (Code InvalidArgument)
  | Err _ => Err (Code Internal)
  end.

Section blueprints.
Context `{Y : YamlLib} {Bp Tmpl : Type} `{D : !Compose.BlueprintDoc Bp Tmpl} `{K : !Checks Bp} `{R : !RawDecoders Bp Tmpl}.
Variable find_strategy : string -> string -> option strategy.
Variable orgStore : option OrgBlueprintStore.
(** [yaml.Marshal] of a decoded document. *)
Variable yaml_marshal : yvalue -> option string.
(** [utils.SafeIntToInt32] of the common module. *)
Variable SafeIntToInt32 : Z -> Z.

(** The blueprint, merged and as it is defined, its template and its revision.

    src/internal/server/find.go:354-382 GetBlueprint *)
Definition GetBlueprint_handler (s : store) (org name : string) : found_reply (string * string * string * string) :=
  match GetRawBlueprintScoped find_strategy orgStore s org name with
  | Err (GetNotFound _) => Err (Code CodeNotFound)
  | Err _ => Err (Code Internal)
  | Ok (raw, own, template, revision) =>
      match yaml_marshal raw, yaml_marshal own with
      | Some b, Some ownB => Ok (b, ownB, template, revision)
      | _, _ => Err (Code Internal)
      end
  end.

(** The issues, whether there are none, and the document it resolves to.

    src/internal/server/find.go:389-422 ValidateBlueprint *)
Definition ValidateBlueprint (s : store) (org yaml : string) : found_reply (bool * list ValidationIssue * option string) :=
  match ValidateRawBlueprintForOrg find_strategy s org yaml with
  | Err _ => Err (Code Internal)
  | Ok (issues, resolved) =>
      let errors := (fun i => mkIssue (SafeIntToInt32 (vi_Line i)) (SafeIntToInt32 (vi_Column i)) (vi_Field i) (vi_Message i)) <$> issues in
      match resolved with
      | None => Ok (bool_decide (errors = []), errors, None)
      | Some v => match yaml_marshal v with Some t => Ok (bool_decide (errors = []), errors, Some t) | None => Err (Code Internal) end
      end
  end.
End blueprints.

(** ** What is found *)

Section facts.
Variable parse_userstr : string -> option identity.
Variable WORKSPACE_PORT : Z.
Variable chart : string.
Variable clusters : string -> cluster.
#[local] Notation get ns := (Workspaces.GetWorkspaces parse_userstr WORKSPACE_PORT chart (clusters ns)).

Lemma injected_owned ns opts l f :
  injected_workspaces parse_userstr WORKSPACE_PORT (clusters ns) opts = Ok l -> f ∈ l ->
  owned opts f /\ exists items, injected_pods (clusters ns) opts = Ok items /\ f.2 ∈ items /\ read_off (ws_Details f.1) f.2 /\
    selects (injected_selector opts) (wp_Labels f.2) = true.
Proof.
  intros Hl Hf. destruct (injected_elem _ _ _ _ _ _ Hl Hf) as (items & Hi & Hin & Hd & _).
  destruct (live_details_read _ _ _ _ _ Hd) as [_ Hr]. pose proof Hr as (_ & Hu & Ho & Hb).
  destruct (proj1 (injected_pods_elem parse_userstr chart (clusters ns) opts items f.2 Hi) Hin) as (n & _ & _ & _ & Hsel).
  split; [|by exists items]. rewrite injected_selects in Hsel. apply andb_true_iff in Hsel as [_ [Hsel _]%andb_true_iff].
  apply owner_labels_spec in Hsel as (H1 & H2 & H3). unfold owned. rewrite Hu, Ho, Hb. unfold label.
  split_and!.
  - destruct H1 as [|(v & Hv & Hin')]; [by left|right]. by rewrite Hv.
  - destruct H2 as [|Hv]; [by left|right]. by rewrite Hv.
  - destruct H3 as [|Hv]; [by left|right]. by rewrite Hv.
Qed.

Lemma standalone_owned ns opts l f :
  standalone_workspaces parse_userstr WORKSPACE_PORT chart (clusters ns) opts = Ok l -> f ∈ l -> owned opts f.
Proof.
  unfold standalone_workspaces. destruct (liveStandaloneWorkspaces _ _ _ opts) as [live|] eqn:El; [|done].
  destruct (stoppedWorkspaces _ _ _ _ opts) as [stopped|] eqn:Es; [|done]. intros [= <-] [Hf|Hf]%elem_of_app.
  - destruct (elem_of_live _ _ _ _ _ _ El Hf) as (Hd & _ & Hm & _). destruct (live_details_read _ _ _ _ _ Hd) as [_ Hr].
    by eapply owned_matches.
  - apply list_elem_of_In, filter_In in Hf as [Hf _]. apply list_elem_of_In in Hf. unfold stoppedWorkspaces in Es.
    destruct (fails (clusters ns) "releases"); [done|]. injection Es as <-. apply list_elem_of_omap in Hf as (rp & _ & Hf).
    destruct (stopped_details_read _ _ _ _ _ Hf) as (p & _ & _ & Hr & Hm). by eapply owned_matches.
Qed.

(** The owner's options hold of everything a look-up returns, and one for a workload
    returns only what is injected. *)
Lemma found_owned ns opts l f :
  get ns opts = Ok l -> f ∈ l ->
  owned opts f /\
  (o_InjectWorkload opts <> "" -> exists items, injected_pods (clusters ns) opts = Ok items /\ f.2 ∈ items /\
     read_off (ws_Details f.1) f.2 /\ selects (injected_selector opts) (wp_Labels f.2) = true).
Proof.
  unfold Workspaces.GetWorkspaces. do 2 (case_goal; [done|]).
  destruct (String.eqb_spec (o_InjectWorkload opts) "") as [Hw|Hw].
  - destruct (standalone_workspaces _ _ _ _ opts) as [st|] eqn:Es; [|done].
    destruct (injected_workspaces _ _ _ opts) as [inj|] eqn:Ei; [|done]. intros [= <-] [Hf|Hf]%elem_of_app.
    + split; [by eapply standalone_owned|done].
    + destruct (injected_owned _ _ _ _ Ei Hf) as [Ho _]. by split.
  - destruct (injected_workspaces _ _ _ opts) as [inj|] eqn:Ei; [|done]. intros [= <-] Hf. cbn in Hf.
    destruct (injected_owned _ _ _ _ Ei Hf) as (Ho & items & H). split; [done|]. intros _. by exists items.
Qed.

Lemma marked_details rev l w : w ∈ marked rev l -> exists w', w' ∈ l /\ ws_Details w = ws_Details w'.
Proof.
  unfold marked. rewrite MarkBlueprintOutdated_spec. intros (w' & -> & Hw)%list_elem_of_fmap. exists w'. split; [done|].
  unfold outdated_spec, mark_outdated. by repeat case_goal.
Qed.

Lemma clear_details kv w :
  ws_Details (clearExpiredJobId kv w) = ws_Details w \/ ws_Details (clearExpiredJobId kv w) = with_job "" (ws_Details w).
Proof. unfold clearExpiredJobId. repeat case_goal; by (left + right). Qed.

(** ** The theorems *)

(** A user string finds only its identity's workspaces. If it names a workload, what
    it finds runs inside that workload, under the user string's canonical id, in the
    namespace it names, where the configuration allows injection. *)
Theorem GetWorkspacesByUserStr_own kv rev nss target parse s ws w :
  GetWorkspacesByUserStr kv (fun ns opts => get ns opts) rev nss target parse s = Ok ws -> w ∈ ws ->
  exists u, parse s = Some u /\ w_Username (ws_Details w) = us_Username u /\
    (us_WorkloadName u <> "" -> exists ns p, us_Namespace u = Some ns /\ AllowsInjectionNamespace nss ns = true /\
       p ∈ cl_AllPods (clusters target) /\ (ns <> "*" -> p_Namespace (wp_Pod p) = ns) /\
       w_Name (ws_Details w) = p_Name (wp_Pod p) /\ wp_Labels p !! LabelWorkloadName = Some (us_WorkloadName u) /\
       (us_CanonicalId u <> "" -> wp_Labels p !! LabelCanonicalId = Some (us_CanonicalId u))).
Proof.
  unfold GetWorkspacesByUserStr. destruct (String.eqb s ""); [done|]. destruct (parse s) as [u|] eqn:Eu; [|done].
  destruct (userstr_options nss target u) as [[tns opts]|] eqn:Eo; [|done]. cbn [mbind result_bind fst snd listed].
  destruct (get tns opts) as [fs|] eqn:Ef; [|done]. intros [= <-] (w' & Hw' & Hd)%marked_details.
  rewrite list_fmap_id in Hw'. apply list_elem_of_fmap in Hw' as (f & -> & Hf).
  destruct (found_owned _ _ _ _ Ef Hf) as [(Hu & _) Hinj]. exists u. split; [done|]. rewrite Hd. unfold userstr_options in Eo.
  destruct (String.eqb_spec (us_WorkloadName u) "") as [Hn|Hn].
  { injection Eo as <- <-. cbn in Hu. destruct Hu as [|Hu]; [done|]. apply list_elem_of_singleton in Hu. by split; [|intros ?]. }
  destruct (negb (String.eqb (namespace_or "" u) "") && _) eqn:Ea; [done|]. injection Eo as <- <-. cbn in Hu.
  destruct Hu as [|Hu]; [done|]. apply list_elem_of_singleton in Hu. split; [done|]. intros _.
  destruct (Hinj Hn) as (items & Hi & Hin & (Hname & _) & Hsel). rewrite injected_selects in Hsel.
  apply andb_true_iff in Hsel as [_ [_ Hsel]%andb_true_iff].
  destruct (proj1 (injected_pods_elem parse_userstr chart (clusters target) _ items f.2 Hi) Hin) as (n & Hns & Hp & Hpn & _).
  cbn [o_InjectNamespaces] in Hns. destruct (String.eqb_spec (namespace_or "" u) "") as [He|He].
  { destruct Hns as [[Hns _]|[_ [=]]]. by apply elem_of_nil in Hns. }
  assert (Hlabels : forall k v, v <> "" -> (k, v) ∈ [(LabelCanonicalId, us_CanonicalId u); (LabelWorkloadName, us_WorkloadName u)] ->
    wp_Labels f.2 !! k = Some v).
  { unfold inject_part in Hsel. cbn [o_InjectWorkload o_InjectKind o_CanonicalId] in Hsel.
    rewrite !sel_app, !andb_true_iff, !selects_when_set in Hsel. set_solver. }
  exists (namespace_or "" u), f.2. unfold namespace_or in *. destruct (us_Namespace u) as [ns|] eqn:En; [|done]. cbn [default] in *.
  split; [done|]. cbn [negb andb] in Ea. apply negb_false_iff in Ea. split_and!; [done|done| |done| |].
  - intros Hstar. destruct Hns as [[->%list_elem_of_singleton _]|[-> Hh]]; [|by injection Hh].
    unfold id in *. destruct Hpn as [Hpn|Hpn]; [by rewrite Hpn in He|exact Hpn].
  - apply Hlabels; [done|]. right. left.
  - intros Hc. apply Hlabels; [done|left].
Qed.

(** The workspace that holds an alias, as found, still shows the alias and the
    organization. *)
Theorem FindWorkspaceByAlias_holds {T} `{KubeStore T AliasClaim} kv find rev (claims : result lookup_error T) org alias w :
  FindWorkspaceByAlias kv find rev claims org alias = Ok w ->
  w_WebProxyAlias (ws_Details w) = alias /\ w_Organization (ws_Details w) = org /\ org <> "" /\ alias <> "" /\
  exists s name f, claims = Ok s /\ holder org alias s = Some name /\ find name [] = Ok f /\ w_Name (ws_Details w) = w_Name (ws_Details f.1).
Proof.
  unfold FindWorkspaceByAlias, ws_FindWorkspaceByAlias, one. destruct (String.eqb_spec org ""); [done|]. destruct (String.eqb_spec alias ""); [done|]. cbn [orb].
  destruct claims as [s|[]] eqn:Ec; [|done..]. destruct (holder org alias s) as [name|] eqn:Eh; [|done].
  destruct (find name []) as [f|[]] eqn:Ef; [|done..].
  destruct (String.eqb_spec (w_WebProxyAlias (ws_Details f.1)) alias) as [Ha|]; [|done].
  destruct (String.eqb_spec (w_Organization (ws_Details f.1)) org) as [Ho|]; [|done]. cbn [andb].
  destruct (marked rev [clearExpiredJobId kv f.1]) as [|w' [|]] eqn:Em; [done| |done]. intros [= ->].
  assert (Hin : w ∈ marked rev [clearExpiredJobId kv f.1]) by (rewrite Em; left).
  apply marked_details in Hin as (w' & ->%list_elem_of_singleton & ->).
  assert (Hd : forall g : WorkspaceDetails -> string, (forall d, g (with_job "" d) = g d) -> g (ws_Details (clearExpiredJobId kv f.1)) = g (ws_Details f.1)).
  { intros g Hg. destruct (clear_details kv f.1) as [->| ->]; [done|apply Hg]. }
  rewrite !Hd by done. split_and!; try done. by exists s, name, f.
Qed.

(** A workspace whose job is no longer recorded is listed without it, except to a
    user string, whose listing still refers to the job. *)
Theorem userstr_keeps_expired_job kv lookup rev nss target parse s u f :
  w_JobId (ws_Details f.1) <> "" -> kv (w_JobId (ws_Details f.1)) = None ->
  s <> "" -> parse s = Some u -> us_WorkloadName u = "" ->
  (forall ns opts, lookup ns opts = Ok [f]) ->
  (exists w, GetWorkspaces (Some kv) lookup rev nss target [] "" "" "" [] = Ok [w] /\ w_JobId (ws_Details w) = "") /\
  exists w, GetWorkspacesByUserStr (Some kv) lookup rev nss target parse s = Ok [w] /\ w_JobId (ws_Details w) = w_JobId (ws_Details f.1).
Proof.
  intros Hj Hkv Hs Hp Hw Hl. split.
  - unfold GetWorkspaces, listed, marked. rewrite Hl. cbn [existsb]. rewrite MarkBlueprintOutdated_spec. eexists. split; [reflexivity|].
    unfold clearExpiredJobId. cbn. apply String.eqb_neq in Hj as ->. rewrite Hkv. unfold outdated_spec, mark_outdated. by repeat case_goal.
  - unfold GetWorkspacesByUserStr, userstr_options. apply String.eqb_neq in Hs as ->. rewrite Hp, Hw. cbn [mbind result_bind String.eqb].
    unfold listed, marked. rewrite Hl, list_fmap_id, MarkBlueprintOutdated_spec. eexists. split; [reflexivity|].
    unfold outdated_spec, mark_outdated. by repeat case_goal.
Qed.
End facts.

(** ** Examples *)

Module FindSample.
(** Alice's workspace injected into the deployment "web" of namespace "dev". *)
Definition injected : WorkspacePod :=
  mkWorkspacePod
    (mkPod "web-1" "dev"
       (list_to_map [(LabelUsername, "alice"); (LabelCanonicalId, "alice-web"); (LabelInjected, "true"); (LabelWorkloadKind, "deployment");
                     (LabelWorkloadName, "web"); (LabelJobId, "j1")])
       0 None "" "" "" "" [] [] [] [] [] ∅ [] None "" "") {["k8shell.io/userstr" := "x"]} [] [] "".
Definition clusters (ns : string) : cluster := mkCluster [] [] [injected] [] 10.
Definition parse (s : string) : option UserStrParts := Some (mkUserStr "alice" "alice-web" "" "deployment" "web" (Some "dev")).
Definition lookup (ns : string) : GetWorkspacesOptions -> result lookup_error (list found) :=
  Workspaces.GetWorkspaces (fun _ => Some ("", "", "")) 22 "k8shell-workspace" (clusters ns).
Definition details : WorkspaceDetails :=
  mkDetails "alice" "alice" "" "" "" "" "" "org" "j1" "" "" 22 false "" "" "" "" "" "" "" 0 "app" "" WorkspaceTypeStandalone "" ∅ "" "" "".
Definition alice : found := (mkWorkspace details 0 WorkspaceStatusStopped "" None, injected).
Definition claims : kube_objects AliasClaim := put (c_name AliasSample.first) (c_claim AliasSample.first 0) no_objects.
End FindSample.

Lemma GetWorkspacesByUserStr_own_witness :
  exists w, GetWorkspacesByUserStr None FindSample.lookup (fun _ _ => "") ["dev"] "ws" FindSample.parse "alice+web" = Ok [w] /\
    w_Username (ws_Details w) = "alice".
Proof.
  destruct (GetWorkspacesByUserStr None FindSample.lookup (fun _ _ => "") ["dev"] "ws" FindSample.parse "alice+web")
    as [[|w [|]]|] eqn:E; try (vm_compute in E; discriminate E).
  exists w. split; [done|].
  destruct (GetWorkspacesByUserStr_own (fun _ => Some ("", "", "")) 22 "k8shell-workspace" FindSample.clusters None (fun _ _ => "") ["dev"] "ws"
              FindSample.parse "alice+web" [w] w E) as (u & [= <-] & Hu & _); [left|exact Hu].
Defined.

Lemma FindWorkspaceByAlias_holds_witness :
  exists w, FindWorkspaceByAlias None (fun _ _ => Ok FindSample.alice) (fun _ _ => "") (Ok FindSample.claims) "org" "app" = Ok w /\
    w_WebProxyAlias (ws_Details w) = "app".
Proof.
  destruct (FindWorkspaceByAlias None (fun _ _ => Ok FindSample.alice) (fun _ _ => "") (Ok FindSample.claims) "org" "app") as [w|] eqn:E;
    [|vm_compute in E; discriminate E].
  exists w. split; [done|].
  exact (proj1 (FindWorkspaceByAlias_holds None (fun _ _ => Ok FindSample.alice) (fun _ _ => "") (Ok FindSample.claims) "org" "app" w E)).
Defined.

Lemma userstr_keeps_expired_job_witness :
  exists w, GetWorkspacesByUserStr (Some (fun _ => None)) (fun _ _ => Ok [FindSample.alice]) (fun _ _ => "") [] "ws"
              (fun _ => Some (mkUserStr "alice" "alice" "alice" "" "" None)) "alice" = Ok [w] /\ w_JobId (ws_Details w) = "j1".
Proof.
  destruct (userstr_keeps_expired_job (fun _ => None) (fun _ _ => Ok [FindSample.alice]) (fun _ _ => "") [] "ws"
              (fun _ => Some (mkUserStr "alice" "alice" "alice" "" "" None)) "alice" (mkUserStr "alice" "alice" "alice" "" "" None) FindSample.alice)
    as [_ (w & Hw & Hj)]; [discriminate|reflexivity|discriminate|reflexivity|reflexivity|reflexivity|].
  by exists w.
Defined.
