(* ===== verification/InjectionWatch.v ===== *)
(** * The watcher of injected workloads

    internal/server/watcher.go: informers tell when a workload loses the annotation
    of its injection, and what the workspace left in its namespace is deleted. The
    informers of client-go are the environment: they deliver the changes of each
    workload in their order, some time after they happened. *)

From S2P Require Import Prelude GoStrings PodState Workspaces Yaml Effects Calls HelmOps Injection.

(** What the handlers read of an object ([metav1.Object]). *)
Record object_meta : Type := mkMeta { om_Namespace : string; om_Name : string; om_Annotations : gmap string string }.

(** A notification; [None] is an object of an unexpected type, and a tombstone is what
    is left of an object whose deletion was missed. *)
Inductive notification : Type :=
| Updated (old new : option object_meta)
| Deleted (obj : option object_meta)
| Tombstone (obj : option object_meta).

Section watcher.
Variable unmarshal_state : string -> option InjectionState.

#[local] Abbreviation injected_id m := (InjectedCanonicalId unmarshal_state (om_Annotations m)).

(** The namespaces that are watched, all of the cluster as the empty one.

    src/internal/server/watcher.go:40-73 Run *)
Definition Run (namespaces : list string) : list string :=
  if existsb (String.eqb "*") namespaces then [""] else namespaces.

(** The namespace and the canonical id that are cleaned up.

    src/internal/server/watcher.go:77-129 startWorkloadInformers *)
Definition startWorkloadInformers (n : notification) : option (string * string) :=
  match n with
  | Updated (Some old) (Some new) =>
      if negb (String.eqb (injected_id old) "") && negb (String.eqb (injected_id new) (injected_id old))
      then Some (om_Namespace old, injected_id old) else None
  | Deleted (Some m) | Tombstone (Some m) =>
      if negb (String.eqb (injected_id m) "") then Some (om_Namespace m, injected_id m) else None
  | _ => None
  end.

(** A failure is only logged.

    src/internal/server/watcher.go:133-156 cleanup *)
Definition cleanup (ns canonicalId : string) : prog api unit :=
  if String.eqb canonicalId "" then Ret tt
  else let! _ := DeleteNamespacedWorkspaceResources ns canonicalId in Ret tt.

(** What a notification makes the watcher do. *)
Definition handle (n : notification) : prog api unit :=
  match startWorkloadInformers n with Some (ns, id) => cleanup ns id | None => Ret tt end.

(** ** Nothing is missed *)

(** The notifications of a workload's states, one after the other; [None] is a
    workload that does not exist. Nothing is done when one appears. *)
Fixpoint notifications (states : list (option object_meta)) : list notification :=
  match states with
  | Some a :: ((Some b :: _) as rest) => Updated (Some a) (Some b) :: notifications rest
  | Some a :: ((None :: _) as rest) => Deleted (Some a) :: notifications rest
  | None :: rest => notifications rest
  | _ => []
  end.

Definition state_id (st : option object_meta) : string := from_option (fun m => injected_id m) "" st.

(** Every workspace a workload ever hosted and does not host in the end is cleaned up
    in the workload's namespace. *)
Theorem lost_workspaces_cleaned ns states last_state id st :
  (forall m, Some m ∈ states -> om_Namespace m = ns) ->
  last states = Some last_state -> st ∈ states -> state_id st = id -> id <> "" -> state_id last_state <> id ->
  (ns, id) ∈ omap startWorkloadInformers (notifications states).
Proof.
  intros Hns Hlast Hin Hid Hne Hl. revert st Hns Hlast Hin Hid. induction states as [|a states IH]; [done|]. intros st Hns Hlast Hin Hid.
  destruct states as [|b rest]; [injection Hlast as ->; by apply list_elem_of_singleton in Hin as ->|].
  assert (Hns' : forall m, Some m ∈ b :: rest -> om_Namespace m = ns) by (intros m Hm; apply Hns; by right).
  assert (Hrest : (exists st, st ∈ b :: rest /\ state_id st = id) \/ (state_id a = id /\ state_id b <> id)).
  { destruct (decide (state_id b = id)) as [Hb|Hb]; [left; exists b; by split; [left|]|].
    apply elem_of_cons in Hin as [->|Hin]; [by right|left; by exists st]. }
  destruct Hrest as [(st' & Hin' & Hid')|[Ha Hb]].
  - pose proof (IH st' Hns' Hlast Hin' Hid') as H. destruct a as [a|]; [|exact H].
    destruct b as [b|]; cbn [notifications omap list_omap]; case_match; by try right.
  - destruct a as [a|]; [|by subst id]. cbn in Ha. specialize (Hns a (list_elem_of_here _ _)).
    destruct b as [b|]; cbn [notifications omap list_omap startWorkloadInformers]; rewrite Ha, Hns.
    + cbn in Hb. apply String.eqb_neq in Hne as ->. apply String.eqb_neq in Hb as ->. left.
    + apply String.eqb_neq in Hne as ->. left.
Qed.
End watcher.

(** ** An API server that deletes by label *)

Abbreviation objects := (gmap (kind * string * string) object).

(** The label selectors that are used: those of a canonical id. *)
Definition matches (sel : string) (o : object) : bool :=
  match obj_Labels o !! LabelCanonicalId with Some id => String.eqb sel (canonical_selector id) | None => false end.

Definition selected (k : kind) (ns sel : string) (ko : kind * string * string * object) : bool :=
  bool_decide (ko.1.1 = (k, ns)) && matches sel ko.2.

Definition serve_labels (X : Type) (s : objects) (e : api X) : objects * X :=
  match e in api X return objects * X with
  | ObjDeleteCollection k ns sel => (filter (fun ko => selected k ns sel ko = false) s, Ok tt)
  | ObjList k ns sel => (s, Ok (snd <$> List.filter (selected k ns sel) (map_to_list s)))
  | ObjDelete k ns name => match s !! (k, ns, name) with Some _ => (delete (k, ns, name) s, Ok tt) | None => (s, Err (Api NotFound)) end
  | e => (s, refuse e)
  end.

(** An object is stored under its name. *)
Definition well_named (s : objects) : Prop := forall k ns name o, s !! (k, ns, name) = Some o -> obj_Name o = name.

(** The kinds of which everything that carries the label is deleted. *)
Definition swept_kinds : list kind := [ConfigMaps; Secrets; NetworkPolicies; CiliumNetworkPolicies; Certificates].

(** What belongs to the workspace: its objects of these kinds, and its claims but for
    the shared ones. *)
Definition belongs (ns id : string) (key : kind * string * string) (o : object) : Prop :=
  key.1.2 = ns /\ obj_Labels o !! LabelCanonicalId = Some id /\
  (key.1.1 ∈ swept_kinds \/ key.1.1 = PersistentVolumeClaims /\ is_shared o = false).

Lemma canonical_selector_inj a b : canonical_selector a = canonical_selector b -> a = b.
Proof. unfold canonical_selector. intros H. cbn in H. by repeat injection H as H. Qed.

Lemma matches_spec id o : matches (canonical_selector id) o = true <-> obj_Labels o !! LabelCanonicalId = Some id.
Proof.
  unfold matches. destruct (obj_Labels o !! LabelCanonicalId) as [id'|]; [|done]. rewrite String.eqb_eq.
  split; [by intros ->%canonical_selector_inj|by intros [= ->]].
Qed.

(** [s'] is [s] without the objects that satisfy [P]. *)
Definition without (P : kind * string * string -> object -> Prop) (s s' : objects) : Prop :=
  forall key o, s' !! key = Some o <-> s !! key = Some o /\ ~ P key o.

Lemma without_trans P Q s1 s2 s3 : without P s1 s2 -> without Q s2 s3 -> without (fun key o => P key o \/ Q key o) s1 s3.
Proof. intros H1 H2 key o. rewrite (H2 key o), (H1 key o). tauto. Qed.

Lemma without_iff P Q s1 s2 : (forall key o, s1 !! key = Some o -> P key o <-> Q key o) -> without P s1 s2 -> without Q s1 s2.
Proof. intros H H1 key o. rewrite (H1 key o). split; intros [Ho Hn]; (split; [done|]); by rewrite (H key o Ho) in *. Qed.

Lemma collection_swept k ns id s :
  exists s', run serve_labels (call (ObjDeleteCollection k ns (canonical_selector id))) s = (s', Ok tt) /\
    without (fun key o => key.1 = (k, ns) /\ obj_Labels o !! LabelCanonicalId = Some id) s s'.
Proof.
  eexists. split; [reflexivity|]. intros key o. rewrite map_lookup_filter_Some. unfold selected. cbn [fst snd].
  rewrite <- not_true_iff_false, andb_true_iff, bool_decide_eq_true, matches_spec. done.
Qed.

Lemma delete_claims_swept ns l s :
  well_named s -> (forall o, o ∈ l -> s !! (PersistentVolumeClaims, ns, obj_Name o) = Some o) -> NoDup (obj_Name <$> l) ->
  exists s', run serve_labels (delete_claims ns l) s = (s', Ok tt) /\
    without (fun key o => key.1 = (PersistentVolumeClaims, ns) /\ o ∈ l /\ is_shared o = false) s s'.
Proof.
  revert s. induction l as [|pvc l IH]; intros s Hw Hl Hnd; cbn [delete_claims].
  { exists s. split; [done|]. intros key o. rewrite elem_of_nil. tauto. }
  apply NoDup_cons in Hnd as [Hni Hnd]. destruct (is_shared pvc) eqn:Es.
  { destruct (IH s Hw) as (s' & Hr & Hs'); [intros o Ho; apply Hl; by right|done|]. exists s'. split; [done|].
    eapply without_iff; [|exact Hs']. intros key o _. rewrite elem_of_cons. naive_solver congruence. }
  pose proof (Hl pvc (list_elem_of_here _ _)) as Hp.
  set (s1 := delete (PersistentVolumeClaims, ns, obj_Name pvc) s).
  assert (H1 : run serve_labels (unless_gone "failed to delete PVC" (call (ObjDelete PersistentVolumeClaims ns (obj_Name pvc)))) s = (s1, Ok tt)).
  { unfold unless_gone. rewrite run_bind, run_call. cbn [serve_labels]. by rewrite Hp. }
  destruct (IH s1) as (s' & Hr & Hs').
  - intros k n name o Ho. apply lookup_delete_Some in Ho as [_ Ho]. by eapply Hw.
  - intros o Ho. unfold s1. rewrite lookup_delete_ne; [apply Hl; by right|]. intros [= Hn]. apply Hni. rewrite Hn. by apply list_elem_of_fmap_2.
  - done.
  - exists s'. split; [by rewrite run_try_bind, H1|]. intros key o. rewrite (Hs' key o). unfold s1. rewrite lookup_delete_Some, elem_of_cons.
    split.
    + intros [[Hne Ho] Hnot]. split; [done|]. intros (Hk & [->|Hin] & Hsh); [|by apply Hnot].
      apply Hne. destruct key as [[k n] name]. cbn in Hk. injection Hk as -> ->. by rewrite (Hw _ _ _ _ Ho).
    + intros [Ho Hnot]. split_and!; [|done|naive_solver]. intros <-. rewrite Hp in Ho. injection Ho as <-. apply Hnot. naive_solver.
Qed.

Lemma sweep_run k ns id text s :
  exists s', run serve_labels (unless_gone text (call (ObjDeleteCollection k ns (canonical_selector id)))) s = (s', Ok tt) /\
    without (fun key o => key.1 = (k, ns) /\ obj_Labels o !! LabelCanonicalId = Some id) s s'.
Proof.
  destruct (collection_swept k ns id s) as (s' & Hr & Hw). exists s'. split; [|done]. unfold unless_gone. by rewrite run_bind, Hr.
Qed.

Lemma ignored_run k ns id s :
  exists s', run serve_labels (ignoring (call (ObjDeleteCollection k ns (canonical_selector id)))) s = (s', Ok tt) /\
    without (fun key o => key.1 = (k, ns) /\ obj_Labels o !! LabelCanonicalId = Some id) s s'.
Proof.
  destruct (collection_swept k ns id s) as (s' & Hr & Hw). exists s'. split; [|done]. unfold ignoring. by rewrite run_bind, Hr.
Qed.

(** The claims that are listed. *)
Lemma listed_claims ns id s o :
  well_named s ->
  o ∈ snd <$> List.filter (selected PersistentVolumeClaims ns (canonical_selector id)) (map_to_list s) <->
  s !! (PersistentVolumeClaims, ns, obj_Name o) = Some o /\ obj_Labels o !! LabelCanonicalId = Some id.
Proof.
  intros Hw. rewrite list_elem_of_fmap. split.
  - intros ([[[k n] name] o'] & -> & Hin%list_elem_of_In%filter_In). destruct Hin as [Hin Hs]. apply list_elem_of_In in Hin.
    apply elem_of_map_to_list in Hin. unfold selected in Hs. apply andb_true_iff in Hs as [Hk%bool_decide_eq_true Hm%matches_spec].
    cbn in Hk, Hm |- *. injection Hk as -> ->. by rewrite (Hw _ _ _ _ Hin).
  - intros [Ho Hl]. exists ((PersistentVolumeClaims, ns, obj_Name o), o). split; [done|]. apply list_elem_of_In, filter_In.
    split; [apply list_elem_of_In; by apply elem_of_map_to_list|]. unfold selected. apply andb_true_iff.
    split; [by apply bool_decide_eq_true|by apply matches_spec].
Qed.

Lemma listed_names ns sel s :
  well_named s -> NoDup (obj_Name <$> (snd <$> List.filter (selected PersistentVolumeClaims ns sel) (map_to_list s))).
Proof.
  intros Hw. rewrite <- list_fmap_compose. apply NoDup_fmap_2_strong.
  - assert (H : forall ko, ko ∈ List.filter (selected PersistentVolumeClaims ns sel) (map_to_list s) ->
      s !! (PersistentVolumeClaims, ns, obj_Name ko.2) = Some ko.2 /\ ko.1 = (PersistentVolumeClaims, ns, obj_Name ko.2)).
    { intros [[[k n] name] o] [Hin%list_elem_of_In%elem_of_map_to_list Hs]%list_elem_of_In%filter_In.
      unfold selected in Hs. apply andb_true_iff in Hs as [Hk%bool_decide_eq_true _]. cbn in *. injection Hk as -> ->.
      by rewrite (Hw _ _ _ _ Hin). }
    intros [k1 o1] [k2 o2] [H1 E1]%H [H2 E2]%H. cbn in *. intros Hn. rewrite Hn in *. congruence.
  - apply NoDup_ListNoDup, List.NoDup_filter, NoDup_ListNoDup, NoDup_map_to_list.
Qed.

Lemma well_named_without P s s' : well_named s -> without P s s' -> well_named s'.
Proof. intros Hw H k ns name o [Ho _]%H. by eapply Hw. Qed.

(** On an API server that fails nothing, cleaning up deletes exactly what belongs to
    the workspace in the namespace: its config maps, secrets, policies, certificates
    and the claims that are not shared. *)
Theorem cleanup_sweeps ns id s :
  id <> "" -> well_named s ->
  exists s', run serve_labels (cleanup ns id) s = (s', tt) /\ without (belongs ns id) s s'.
Proof.
  intros Hid%String.eqb_neq Hw. unfold cleanup. rewrite Hid, run_bind.
  unfold DeleteNamespacedWorkspaceResources. cbv zeta.
  destruct (sweep_run ConfigMaps ns id "failed to delete configmaps" s) as (s1 & R1 & W1).
  destruct (sweep_run Secrets ns id "failed to delete secrets" s1) as (s2 & R2 & W2).
  pose proof (well_named_without _ _ _ (well_named_without _ _ _ Hw W1) W2) as Hw2.
  set (l := snd <$> List.filter (selected PersistentVolumeClaims ns (canonical_selector id)) (map_to_list s2)).
  assert (Hin : forall o, o ∈ l <-> s2 !! (PersistentVolumeClaims, ns, obj_Name o) = Some o /\ obj_Labels o !! LabelCanonicalId = Some id)
    by (intros o; by apply listed_claims).
  destruct (delete_claims_swept ns l s2 Hw2) as (s3 & R3 & W3); [intros o; by intros [? _]%Hin|by apply listed_names|].
  destruct (sweep_run NetworkPolicies ns id "failed to delete network policies" s3) as (s4 & R4 & W4).
  destruct (ignored_run CiliumNetworkPolicies ns id s4) as (s5 & R5 & W5).
  destruct (ignored_run Certificates ns id s5) as (s6 & R6 & W6).
  exists s6. split.
  - rewrite run_try_bind, R1, run_try_bind, R2, run_bind, run_call. cbn [serve_labels]. fold l.
    rewrite run_try_bind. cbn [run]. by rewrite run_try_bind, R3, run_try_bind, R4, run_try_bind, R5, R6.
  - pose proof (without_trans _ _ _ _ _ (without_trans _ _ _ _ _ (without_trans _ _ _ _ _ (without_trans _ _ _ _ _ (without_trans _ _ _ _ _ W1 W2) W3) W4) W5) W6) as W.
    eapply without_iff; [|exact W]. intros [[k n] name] o Ho. cbn [fst snd]. unfold belongs, swept_kinds. cbn [fst snd].
    assert (Hl : k = PersistentVolumeClaims -> n = ns -> o ∈ l <-> obj_Labels o !! LabelCanonicalId = Some id).
    { intros -> ->. rewrite Hin. split; [by intros [_ ?]|]. intros Hlab. split; [|done]. rewrite (Hw _ _ _ _ Ho).
      apply W2. split; [apply W1; split; [done|]|]; by intros [[=] _]. }
    rewrite !elem_of_cons, elem_of_nil. split.
    + intros [[[[[[[= -> ->] ?]|[[= -> ->] ?]]|([= -> ->] & ? & ?)]|[[= -> ->] ?]]|[[= -> ->] ?]]|[[= -> ->] ?]]; naive_solver.
    + intros (-> & Hlab & [Hk|[-> Hsh]]); naive_solver.
Qed.

(** A notification is handled some time after the change it tells of: when the
    workload has been injected again by then, under the same canonical id, what the
    new injection applied is deleted. *)
Theorem late_cleanup_removes_reinjection unmarshal_state old new s key o :
  let id := InjectedCanonicalId unmarshal_state (om_Annotations old) in
  id <> "" -> InjectedCanonicalId unmarshal_state (om_Annotations new) = "" ->
  well_named s -> s !! key = Some o -> belongs (om_Namespace old) id key o ->
  (run serve_labels (handle unmarshal_state (Updated (Some old) (Some new))) s).1 !! key = None.
Proof.
  intros id Hid Hnew Hw Ho Hb. unfold handle, startWorkloadInformers. fold id. rewrite Hnew.
  pose proof Hid as Hid'. apply String.eqb_neq in Hid'. rewrite Hid'. rewrite String.eqb_sym in Hid'. rewrite Hid'. cbn [negb andb].
  destruct (cleanup_sweeps (om_Namespace old) id s Hid Hw) as (s' & -> & W). cbn [fst].
  destruct (s' !! key) as [o'|] eqn:E; [|done]. apply W in E as [E Hn]. rewrite Ho in E. injection E as <-. by destruct Hn.
Qed.

(** ** Examples *)

Module SweepSample.
Definition labelled (name id : string) : object := mkObject name {[ LabelCanonicalId := id ]} ∅ "1" YNil.
Definition held : gmap (kind * string * string) object :=
  {[ (Secrets, "dev", "alice-web-tls") := labelled "alice-web-tls" "alice-web" ]}.
Definition state (s : string) : option InjectionState := Some (mkInjectionState s [] [] [] false).
Definition meta (annotations : gmap string string) : object_meta := mkMeta "dev" "web" annotations.
Definition injected : object_meta := meta {[ AnnotationInjectionState := "alice-web" ]}.
Definition plain : object_meta := meta ∅.
Lemma named_objects : well_named held.
Proof. unfold held. intros k ns name o [[= <- <- <-] <-]%lookup_singleton_Some. reflexivity. Qed.
End SweepSample.

Lemma lost_workspaces_cleaned_witness :
  ("dev", "alice-web") ∈ omap (startWorkloadInformers SweepSample.state) (notifications [Some SweepSample.injected; Some SweepSample.plain; None]).
Proof.
  apply (lost_workspaces_cleaned SweepSample.state "dev" [Some SweepSample.injected; Some SweepSample.plain; None] None "alice-web" (Some SweepSample.injected)).
  - intros m Hm. repeat (apply elem_of_cons in Hm as [Hm|Hm]; [by simplify_eq|]). by apply elem_of_nil in Hm.
  - reflexivity.
  - left.
  - reflexivity.
  - discriminate.
  - discriminate.
Defined.

Lemma cleanup_sweeps_witness :
  exists s', run serve_labels (cleanup "dev" "alice-web") SweepSample.held = (s', tt) /\ s' !! (Secrets, "dev", "alice-web-tls") = None.
Proof.
  destruct (cleanup_sweeps "dev" "alice-web" SweepSample.held) as (s' & Hr & W); [discriminate|exact SweepSample.named_objects|].
  exists s'. split; [exact Hr|]. destruct (s' !! (Secrets, "dev", "alice-web-tls")) as [o|] eqn:E; [|reflexivity].
  apply W in E as [Ho Hn]. destruct Hn. injection Ho as <-. split; [reflexivity|]. split; [reflexivity|]. left. right. left.
Defined.

Lemma late_cleanup_removes_reinjection_witness :
  (run serve_labels (handle SweepSample.state (Updated (Some SweepSample.injected) (Some SweepSample.plain))) SweepSample.held).1
    !! (Secrets, "dev", "alice-web-tls") = None.
Proof.
  apply (late_cleanup_removes_reinjection SweepSample.state SweepSample.injected SweepSample.plain SweepSample.held _
           (SweepSample.labelled "alice-web-tls" "alice-web")).
  - discriminate.
  - reflexivity.
  - exact SweepSample.named_objects.
  - reflexivity.
  - split; [reflexivity|]. split; [reflexivity|]. left. right. left.
Defined.
