(* ===== verification/WorkspaceDiff.v ===== *)
(** * The diff of a workspace against its blueprint

    internal/server/diff.go, with what it reads of a release in internal/workspace/
    diff.go: the blueprint a workspace was provisioned from is recovered from the
    values of its release and compared (Diff.v) with what its blueprint resolves to
    now, patched again as the policy obliged to. The YAML library, go-difflib and the
    blueprint's fields are parameters. *)

From Stdlib Require Import Ascii.
From S2P Require Import Prelude GoStrings Trim NodePool Jobs Yaml Merge Inherit Manager Compose PodState PodWatch Workspaces Values Diff Effects Calls Instance Lifecycle Admission.

(** A row and a diff as they are sent. *)
Inductive BlueprintDiffOp : Type := OP_UNSPECIFIED | OP_EQUAL | OP_REMOVED | OP_ADDED | OP_CHANGED.

(** src/internal/server/diff.go:139-152 diffOpToProto *)
Definition diffOpToProto (op : DiffOp) : BlueprintDiffOp :=
  match op with
  | DiffEqual => OP_EQUAL
  | DiffRemoved => OP_REMOVED
  | DiffAdded => OP_ADDED
  | DiffChanged => OP_CHANGED
  end.

Record BlueprintDiffRow : Type := mkDiffRow {
  bdr_Op : BlueprintDiffOp;
  bdr_LeftLine : Z;
  bdr_LeftText : string;
  bdr_RightLine : Z;
  bdr_RightText : string;
}.

Record DiffResponse : Type := mkDiffResponse {
  drs_Identical : bool;
  drs_WorkspaceRevision : string;
  drs_BlueprintRevision : string;
  drs_WorkspaceYaml : string;
  drs_BlueprintYaml : string;
  drs_Rows : list BlueprintDiffRow;
  drs_Added : Z;
  drs_Removed : Z;
  drs_Changed : Z;
}.

Section handler.
Context {F X R : Type} `{!Gate F X}.
#[local] Notation Bp := (WsBlueprint F X).

(** yaml.v3: the encoder, and the decoders of a blueprint and of the obligations in a
    blueprint file. *)
Variable yaml_marshal : gmap string yvalue -> option string.
Variable decode_doc : string -> option (DiffDoc R).
Variable decode_obligations : string -> option (gmap string string).
(** The order in which Go iterates the obligations. *)
Variable iterate : gmap string string -> list (string * string).

(** src/internal/workspace/diff.go:69-79 BlueprintFromValues *)
Definition BlueprintFromValues (values : gmap string yvalue) : option (DiffDoc R) :=
  data ← yaml_marshal values; decode_doc data.

(** src/internal/workspace/diff.go:292-309 AppliedPatchesFromValues *)
Definition AppliedPatchesFromValues (values : gmap string yvalue) : option (list (string * string)) :=
  let doc := string_or_empty (values !! "__blueprintyaml__") in
  if String.eqb doc "" then Some []
  else sort_by fst ∘ iterate <$> decode_obligations doc.

(** A blueprint as the diff reads it. *)
Variable doc : Bp -> DiffDoc R.
(** The manager. *)
Variable manager_GetBlueprint : string -> BlueprintScope -> result get_error (Bp * bool).
Variable manager_revision : string -> string -> string.
(** Effective of Validate.v. *)
Variable ParseQuantity : string -> option Z.
Variable yaml_copy : Podman.Blueprint -> option Podman.Blueprint.
(** The libraries of Diff.v, and [utils.SafeIntToInt32] of the common module. *)
Variable GetOpCodes : list string -> list string -> list OpCode.
Variable reflect_of : DiffDoc R -> rval.
Variable marshalYAML2 : fval -> option string.
Variable SafeIntToInt32 : nat -> Z.
Variable chart : string.

(** What the blueprint resolves to now, patched and with its podman part expanded.

    src/internal/server/diff.go:66-95 DiffWorkspaceBlueprint *)
Definition current_blueprint (a : Account) (bpName name : string) (values : gmap string yvalue) : reply Bp :=
  match GetBlueprintScope bpName (manager_user a) None name with
  | None => Err Internal
  | Some scope =>
      match manager_GetBlueprint bpName scope with
      | Err (GetNotFound _) => Err CodeNotFound
      | Err _ => Err Internal
      | Ok (current, _) =>
          match (patches ← AppliedPatchesFromValues values; gt_patch current patches) with
          | None => Err Internal
          | Some current =>
              match effective_blueprint ParseQuantity yaml_copy current (ac_user a) with
              | Err _ => Err Internal
              | Ok current => Ok current
              end
          end
      end
  end.

(** src/internal/server/diff.go:114-123 DiffWorkspaceBlueprint *)
Definition diff_row (r : DiffRow) : BlueprintDiffRow :=
  mkDiffRow (diffOpToProto (dr_Op r)) (SafeIntToInt32 (LeftLine r)) (LeftText r) (SafeIntToInt32 (RightLine r)) (RightText r).

(** [salt] is what the random generator gives the redactor, if it works.

    src/internal/server/diff.go:28-137 DiffWorkspaceBlueprint *)
Definition DiffWorkspaceBlueprint (salt : option (list N)) (name : string) : prog api (reply DiffResponse) :=
  if String.eqb name "" then Ret (Err InvalidArgument)
  else
    or_reply (FindWorkspaceHelmRelease chart name)
      (fun e => if errors_is ErrWorkspaceNotFound e then CodeNotFound else convertToGRPCError e) (fun rel =>
    match BlueprintFromValues (rel_Config rel) with
    | None => Ret (Err Internal)
    | Some deployed =>
        if negb (String.eqb (md_RepoName (dd_Metadata deployed)) "") then Ret (Err FailedPrecondition)
        else
          let username := label (rel_Labels rel) LabelUsername in
          let bpName := label (rel_Labels rel) LabelBlueprint in
          if String.eqb bpName "" then Ret (Err FailedPrecondition)
          else
            or_reply (call (UserFind username)) (fun _ => Internal) (fun found =>
            let a := gt_account found in
            match current_blueprint a bpName name (rel_Config rel) with
            | Err code => Ret (Err code)
            | Ok current =>
                or_reply (call (EnvVarList username)) (fun _ => Internal) (fun vars =>
                let opts := mkDiffOptions name (u_Organization (ac_user a)) ((fun v => v.1.1) <$> vars) in
                Ret (match (salt ← salt; DiffBlueprints GetOpCodes reflect_of marshalYAML2 deployed (doc current) opts salt) with
                     | None => Err Internal
                     | Some d =>
                         Ok (mkDiffResponse (Identical d) (label (rel_Labels rel) LabelBlueprintRevision)
                               (manager_revision (u_Organization (ac_user a)) bpName) (WorkspaceYAML d) (BlueprintYAML d)
                               (diff_row <$> Rows d) (SafeIntToInt32 (Added d)) (SafeIntToInt32 (Removed d)) (SafeIntToInt32 (Changed d)))
                     end))
            end)
    end).
End handler.

(** ** The handler only looks *)

(** It changes nothing, and asks for no secret. *)
Definition looks {A} (e : api A) : bool := match e with EnvVarGet _ _ | TokenIssue _ _ => false | e => negb (mutates e) end.

Lemma DiffWorkspaceBlueprint_looks {F X R} `{!Gate F X} marshal dd dobl it (doc : WsBlueprint F X -> DiffDoc R) get rev pq yc ops refl my si chart salt name :
  only (@looks) (DiffWorkspaceBlueprint marshal dd dobl it doc get rev pq yc ops refl my si chart salt name).
Proof.
  unfold DiffWorkspaceBlueprint, or_reply, FindWorkspaceHelmRelease, wrapping, try_bind, only.
  repeat first [done | progress conform_step | intros ?; cbn [looks mutates negb conform res_wrap] | case_goal].
Qed.

(** ** What provisioning recorded is read back *)

Definition internal_keys : list string :=
  ["__canonicalid__"; "__user__"; "__username__"; "__blueprint__"; "__blueprintrevision__"; "__organization__"; "__networkpolicy__";
   "__registry__"; "__namespace__"; "__targetnamespace__"; "__certmanager__"; "__appversion__"; "__identity__"; "__userstr__"; "__jobid__";
   "__configyaml__"; "__profileyaml__"; "__blueprintyaml__"; "__pat__"].

(** The keys whose values are not the blueprint's. *)
Definition added_keys : list string := internal_keys ++ ["env"; "hostname"; "subdomain"; "resourceRequests"; "orgNodeSelector"].

Lemma internal_values_keys {F X} b64 cf (w : WorkspaceObj F X) bp user uv config profile file k :
  k ∉ internal_keys -> internal_values b64 cf w bp user uv config profile file !! k = None.
Proof. intros Hk. unfold internal_values. by apply not_elem_of_list_to_map_1. Qed.

Lemma attach_insert_other f k key x m :
  key <> "initScripts" -> k <> key -> attachInitScriptFiles f (<[key := x]> m) !! k = attachInitScriptFiles f m !! k.
Proof.
  intros Hk Hne. unfold attachInitScriptFiles. rewrite lookup_insert_ne by done. destruct (m !! "initScripts") as [[| | | | | |]|];
    try (by rewrite lookup_insert_ne by done).
  destruct (decide (k = "initScripts")) as [->|]; [by rewrite !lookup_insert_eq|]. by rewrite !lookup_insert_ne by done.
Qed.

Lemma attach_other f m k : k <> "initScripts" -> attachInitScriptFiles f m !! k = m !! k.
Proof. intros Hk. unfold attachInitScriptFiles. repeat case_goal; by rewrite ?lookup_insert_ne by done. Qed.

(** The order in which the map of obligations is iterated does not matter. *)
Lemma replay_order (l l' : list (string * string)) m : enumerates l m -> enumerates l' m -> sort_by fst l = sort_by fst l'.
Proof.
  intros Hl Hl'. apply sort_by_unique; [by rewrite Hl, Hl'|]. unfold enumerates in Hl. rewrite Hl. apply NoDup_fst_map_to_list.
Qed.


Lemma equal_ops_rows a b ops : Forall (fun op => oc_equal op = true) ops -> Forall (fun r => dr_Op r = DiffEqual) (flat_map (op_rows a b) ops).
Proof.
  induction 1 as [|op ops Ho _ IH]; cbn; [done|]. apply Forall_app. split; [|exact IH]. unfold op_rows. rewrite Ho.
  apply Forall_fmap, Forall_true. done.
Qed.

Lemma count_none op rows : Forall (fun r => dr_Op r = DiffEqual) rows -> op <> DiffEqual -> count_rows op rows = 0%nat.
Proof.
  intros Hr Ho. unfold count_rows. induction Hr as [|r rows Hr _ IH]; cbn; [done|]. rewrite bool_decide_false by congruence. exact IH.
Qed.

Section unchanged.
Context {F X R : Type} `{!Gate F X}.
#[local] Notation Bp := (WsBlueprint F X).
(** The libraries of Values.v, of Diff.v, and of this file. *)
Context (InitScriptFileName : nat -> string -> string) (ParseMilli ParseBytes : string -> option Z).
Context (show_milli show_bytes : Z -> string) (quotient : Z -> F -> Z).
Context (blueprint_map : Bp -> option (gmap string yvalue)) (user_map : WsUser -> option yvalue).
Context (profile_map : WsUser -> option (gmap string yvalue)) (config_yaml : K8shelldConfig -> option string).
Context (map_yaml : gmap string yvalue -> option string).
Context (blueprint_yaml : Bp -> gmap string string -> option string) (identity_b64 : string -> string).
Context (ParseQuantity : string -> option Z) (yaml_copy : Podman.Blueprint -> option Podman.Blueprint) (inject : string).
Context (GetOpCodes : list string -> list string -> list OpCode) (reflect_of : DiffDoc R -> rval) (marshalYAML2 : fval -> option string).
Context (yaml_marshal : gmap string yvalue -> option string) (decode_doc : string -> option (DiffDoc R)).
Context (decode_obligations : string -> option (gmap string string)) (iterate : gmap string string -> list (string * string)).
Context (doc : Bp -> DiffDoc R) (SafeIntToInt32 : nat -> Z) (chart : string).
#[local] Notation Values_ := (Values InitScriptFileName ParseMilli ParseBytes show_milli show_bytes quotient
  blueprint_map user_map profile_map config_yaml map_yaml blueprint_yaml identity_b64 ParseQuantity yaml_copy inject).
#[local] Notation recover := (BlueprintFromValues yaml_marshal decode_doc).

(** The chain is written in a comment of one line. *)
Definition one_line (s : string) : Prop := (cut_byte "010"%char s).2 = false.

(** What yaml.v3 does with a blueprint: its fields are written under their keys, and
    decoding reads these keys only; a decoded init script drops the file added to it.
    The obligations are read back from the file that records them, also when a comment
    is before it. *)
Class BlueprintCodec (fs : list string) : Prop := {
  codec_fields : Forall (fun k => k ∉ added_keys) fs;
  codec_names bp m : blueprint_map bp = Some m ->
    env_of m = YStr <$> dd_Env (doc bp) /\ string_or_empty (m !! "hostname") = dd_Hostname (doc bp) /\
    string_or_empty (m !! "subdomain") = dd_Subdomain (doc bp);
  codec_repo bp : md_RepoName (dd_Metadata (doc bp)) = b_RepoName bp;
  codec_read bp m v : blueprint_map bp = Some m ->
    (forall k, k ∈ fs -> v !! k = attachInitScriptFiles InitScriptFileName m !! k) ->
    recover v = Some (mkDoc (dd_Metadata (doc bp)) (omap as_string (env_of v)) (string_or_empty (v !! "hostname"))
                        (string_or_empty (v !! "subdomain")) (dd_K8shelldImage (doc bp)) (dd_rest (doc bp)));
  codec_obligations bp chain o text : one_line (join " -> " chain) -> blueprint_file blueprint_yaml bp chain o = Ok text ->
    text <> "" /\ decode_obligations text = Some o;
  codec_iterate m : enumerates (iterate m) m;
}.

Lemma effective_repo (bp : Bp) user (ebp : Bp) : effective_blueprint ParseQuantity yaml_copy bp user = Ok ebp -> b_RepoName ebp = b_RepoName bp.
Proof. unfold effective_blueprint. case_goal; [|done]. destruct bp. by intros <-%Ok_inj. Qed.

(** The blueprint recovered from the values of a workspace is normalised to the
    document of the blueprint they were made of. *)
Lemma recovered {fs} `{!BlueprintCodec fs} cf w v bp user ebp keys : Values_ cf w = Ok v -> wo_blueprint w = Some bp -> wo_user w = Some user ->
  effective_blueprint ParseQuantity yaml_copy bp user = Ok ebp -> (forall k, k ∈ keys <-> is_Some (wo_userEnvVars w !! k)) ->
  exists d, recover v = Some d /\ md_RepoName (dd_Metadata d) = b_RepoName bp /\
    let opts := mkDiffOptions (wo_Name w) (u_Organization user) keys in normalizeForDiff d opts = normalizeForDiff (doc ebp) opts.
Proof.
  intros (bp' & user' & ebp' & m & requested & uv & config & profile & file & Hb & Hu & He & Hm & Hq & _ & Hv & Henv)%Values_parts Eb Eu Ee Hk.
  rewrite Eb in Hb. rewrite Eu in Hu. injection Hb as <-. injection Hu as <-. rewrite Ee in He. apply Ok_inj in He as <-. cbv zeta in Hv, Henv.
  set (X0 := attachInitScriptFiles InitScriptFileName requested) in *.
  assert (HX : forall k, k <> "resourceRequests" -> X0 !! k = attachInitScriptFiles InitScriptFileName m !! k).
  { intros k Hne. unfold X0. unfold add_requests in Hq. repeat case_in Hq; try discriminate; apply Ok_inj in Hq as <-; try done;
      by apply attach_insert_other. }
  assert (Hinner : forall k, k ∉ internal_keys -> k <> "env" -> k <> "orgNodeSelector" ->
            v !! k = applyDNSIdentityDefaults X0 (wo_Name w) (u_Organization user) !! k).
  { intros k Hi H1 H2. rewrite Hv by done. by rewrite lookup_union_r by (by apply internal_values_keys). }
  destruct (codec_names ebp m Hm) as (Hd1 & Hd2 & Hd3).
  eexists. split; [|split].
  - apply (codec_read ebp m v Hm). intros k Hf. pose proof (proj1 (Forall_forall _ _) codec_fields k Hf) as Hn.
    unfold added_keys in Hn. rewrite not_elem_of_app, !not_elem_of_cons in Hn. destruct Hn as (Hi & N1 & N2 & N3 & N4 & N5 & _).
    rewrite Hinner by done. unfold applyDNSIdentityDefaults. rewrite !default_label_other by done. by apply HX.
  - cbn [dd_Metadata]. rewrite codec_repo. by eapply effective_repo.
  - cbv zeta. rewrite (Hinner "hostname"), (Hinner "subdomain") by (done || by apply (bool_decide_unpack _)).
    assert (Hev : env_of v = values_env inject cf w bp (YStr <$> dd_Env (doc ebp))).
    { unfold env_of at 1. rewrite Henv, list_to_map_to_list. f_equal. rewrite <- Hd1. unfold env_of.
      rewrite lookup_union_r by (apply internal_values_keys; by apply (bool_decide_unpack _)).
      unfold applyDNSIdentityDefaults. rewrite !default_label_other, HX, attach_other by done. done. }
    rewrite Hev, (normalize_added inject cf w bp (dd_Metadata (doc ebp)) (dd_Metadata (doc ebp)) X0 (dd_Env (doc ebp)) _ _
                    (mkDiffOptions (wo_Name w) (u_Organization user) keys) Hk).
    rewrite !HX, !attach_other, Hd2, Hd3 by done. by destruct (doc ebp).
Qed.

Section served.
Context {S : Type} (h : forall A, S -> api A -> S * A).
Context (manager_GetBlueprint : string -> BlueprintScope -> result get_error (Bp * bool)) (manager_revision : string -> string -> string).
#[local] Notation diff_workspace := (DiffWorkspaceBlueprint yaml_marshal decode_doc decode_obligations iterate doc manager_GetBlueprint
  manager_revision ParseQuantity yaml_copy GetOpCodes reflect_of marshalYAML2 SafeIntToInt32 chart).

(** The services hold what provisioning [w] with the values [v] left there: the
    release, the user, and its variables. *)
Record provisioned (w : WorkspaceObj F X) (v : gmap string yvalue) (rel : Release) (a : Account) (vars : list (string * string * bool)) : Prop := {
  pv_release s : (h _ s (ReleaseList [("app.kubernetes.io/name", [chart]); ("app.kubernetes.io/instance", [wo_Name w])])).2 = Ok [rel];
  pv_config : rel_Config rel = v;
  pv_user s : exists found, (h _ s (UserFind (label (rel_Labels rel) LabelUsername))).2 = Ok found /\ gt_account found = a;
  pv_vars s : (h _ s (EnvVarList (label (rel_Labels rel) LabelUsername))).2 = Ok vars;
  pv_keys k : k ∈ (fun x => x.1.1) <$> vars <-> is_Some (wo_userEnvVars w !! k);
}.

Lemma run_reply {A B} (m : prog api (answer A)) c (f : A -> prog api (reply B)) s :
  run h (or_reply m c f) s = match (run h m s).2 with Ok x => run h (f x) (run h m s).1 | Err e => ((run h m s).1, Err (c e)) end.
Proof. unfold or_reply. rewrite run_bind. by destruct (run h m s) as [s' [x|e]]. Qed.

Lemma DiffBlueprints_same d1 d2 opts salt : normalizeForDiff d1 opts = normalizeForDiff d2 opts ->
  (forall t, is_Some (marshalYAML2 t)) -> (forall l, Forall (fun op => oc_equal op = true) (GetOpCodes l l)) ->
  exists d, DiffBlueprints GetOpCodes reflect_of marshalYAML2 d1 d2 opts salt = Some d /\ Identical d = true /\
    WorkspaceYAML d = BlueprintYAML d /\ Forall (fun r => dr_Op r = DiffEqual) (Rows d) /\
    Added d = 0%nat /\ Removed d = 0%nat /\ Changed d = 0%nat.
Proof.
  intros Hn Hm Ho. unfold DiffBlueprints, renderBlueprintYAML. rewrite Hn.
  match goal with |- context [marshalYAML2 ?t] => destruct (Hm t) as [s ->] end. cbn [mbind option_bind]. eexists. split; [reflexivity|]. cbn. rewrite String.eqb_refl.
  assert (Hr : Forall (fun r => dr_Op r = DiffEqual) (DiffLines GetOpCodes s s)) by (apply equal_ops_rows, Ho).
  split_and!; try done; by apply count_none.
Qed.

Lemma find_release name rel s :
  (h _ s (ReleaseList [("app.kubernetes.io/name", [chart]); ("app.kubernetes.io/instance", [name])])).2 = Ok [rel] ->
  (run h (FindWorkspaceHelmRelease chart name) s).2 = Ok rel.
Proof. intros H. unfold FindWorkspaceHelmRelease, wrapping, try_bind. rewrite !run_bind, run_call. destruct (h _ _ _) as [s' r]. cbn in *. by subst r. Qed.

(** C35. A workspace that nothing was changed about since it was provisioned shows no
    difference: the handler answers that the two documents are identical, with
    equal texts, only rows of equal lines and no row added, removed or changed.
    Nothing changed means: the release holds the values that were installed; the
    user record is the same, and the user has variables of the same names as
    then, whatever their values (a deleted variable does show, see
    deleted_variable_shows); the blueprint that its label names, which is not of a
    repository, evaluates for the user to the one that the policy's patches turned
    into the installed one, and they do so too in the order of their paths, which
    is how the release records them. The inheritance chain that the recorded file
    names in its comment is of one line, rendering succeeds, and the differ finds
    only equal blocks between a text and itself. *)
Theorem unchanged_is_identical {fs} `{!BlueprintCodec fs} cf w v rel a vars b0 bp template scope patches salt s :
  Values_ cf w = Ok v -> provisioned w v rel a vars -> wo_blueprint w = Some bp -> wo_user w = Some (ac_user a) ->
  one_line (join " -> " (wo_blueprintChain w)) ->
  wo_Name w <> "" -> label (rel_Labels rel) LabelBlueprint <> "" -> b_RepoName bp = "" ->
  GetBlueprintScope (label (rel_Labels rel) LabelBlueprint) (manager_user a) None (wo_Name w) = Some scope ->
  manager_GetBlueprint (label (rel_Labels rel) LabelBlueprint) scope = Ok (b0, template) ->
  wo_appliedObligations w = foldl (fun m kv => <[kv.1 := kv.2]> m) ∅ patches -> gt_patch b0 patches = Some bp ->
  gt_patch b0 (sort_by fst (map_to_list (wo_appliedObligations w))) = gt_patch b0 patches ->
  (forall t, is_Some (marshalYAML2 t)) -> (forall l, Forall (fun op => oc_equal op = true) (GetOpCodes l l)) ->
  exists d, (run h (diff_workspace (Some salt) (wo_Name w)) s).2 = Ok d /\ drs_Identical d = true /\
    drs_WorkspaceYaml d = drs_BlueprintYaml d /\ Forall (fun r => bdr_Op r = OP_EQUAL) (drs_Rows d) /\
    drs_Added d = SafeIntToInt32 0 /\ drs_Removed d = SafeIntToInt32 0 /\ drs_Changed d = SafeIntToInt32 0.
Proof.
  intros Hv [Hrel Hcfg Huser Hvars Hkeys] Hb Hu Hline Hname Hlabel Hrepo Hscope Hget Hobl Hpatch Hreplay Hm Ho.
  destruct (Values_parts _ _ _ _ _ _ _ _ _ _ _ _ _ _ _ _ _ _ _ Hv) as (bp' & user' & ebp & m & requested & uv & config & profile & file & Hb' & Hu' & He & _ & _ & Hf & Hkey & _).
  rewrite Hb in Hb'. rewrite Hu in Hu'. injection Hb' as <-. injection Hu' as <-.
  destruct (recovered cf w v bp (ac_user a) ebp _ Hv Hb Hu He Hkeys) as (d & Hd & Hdr & Hn). cbv zeta in Hn, Hkey.
  destruct (codec_obligations _ _ _ _ Hline Hf) as [Hne Hdec].
  assert (Hap : AppliedPatchesFromValues decode_obligations iterate v = Some (sort_by fst (map_to_list (wo_appliedObligations w)))).
  { unfold AppliedPatchesFromValues. rewrite Hkey by done. rewrite (lookup_union_Some_l _ _ _ (YStr file)) by reflexivity.
    cbn [string_or_empty mbind option_bind as_string default from_option id]. rewrite (proj2 (String.eqb_neq _ _) Hne), Hdec. cbn.
    f_equal. eapply replay_order; [apply codec_iterate|unfold enumerates; reflexivity]. }
  unfold DiffWorkspaceBlueprint. rewrite (proj2 (String.eqb_neq _ _) Hname), run_reply.
  rewrite (find_release _ rel) by done. unfold BlueprintFromValues in Hd |- *. rewrite Hcfg, Hd, Hdr, Hrepo. cbn [String.eqb negb].
  rewrite (proj2 (String.eqb_neq _ _) Hlabel), run_reply, run_call. destruct (Huser (run h (FindWorkspaceHelmRelease chart (wo_Name w)) s).1) as (found & -> & <-).
  unfold current_blueprint. rewrite Hscope, Hget, Hap. cbn [mbind option_bind]. rewrite Hreplay, Hpatch, He, run_reply, run_call, Hvars.
  destruct (DiffBlueprints_same d (doc ebp) _ salt Hn Hm Ho) as (r & -> & Hi & Hy & Hr & H1 & H2 & H3). cbn [mbind option_bind run snd].
  eexists. split; [reflexivity|]. cbn. split_and!; [done|done| |congruence..]. apply Forall_fmap. eapply Forall_impl; [exact Hr|].
  intros x Hx. cbn. by rewrite Hx.
Qed.
End served.
End unchanged.

(** ** A variable the user has deleted *)

(** A variable of the user that was deleted after the workspace was provisioned is
    not among the names the handler leaves out: the normalised document still has
    it, as if the blueprint had declared it. *)
Theorem deleted_variable_shows {F X R} mode cf (w : WorkspaceObj F X) bp md (env : gmap string string) hostname subdomain image (rest : R) opts k x :
  wo_userEnvVars w !! k = Some x -> k ∉ do_UserEnvKeys opts -> k ∉ injectedEnvKeys ->
  dd_Env (normalizeForDiff (mkDoc md (omap as_string (values_env mode cf w bp (YStr <$> env))) hostname subdomain image rest) opts) !! k = Some x.
Proof.
  intros Hx Hk Hi. unfold normalizeForDiff. cbn [dd_Env]. rewrite !without_keys_lookup, !bool_decide_false by done.
  rewrite lookup_omap, values_env_other by (intros Hin; apply Hi; unfold reserved_env, injectedEnvKeys in *; set_solver).
  rewrite lookup_union, !lookup_fmap, Hx. cbn. by destruct (env !! k).
Qed.

(** ** An instance *)

Module DiffSample.
Definition with_class (c : string) : WsBlueprint Z unit :=
  mkWsBlueprint "go" "registry/k8shelld:v2.1" false false [] (mkResources "2" "4096" (Some (Some 4%Z, Some 2%Z)))
    (Podman.mkBlueprint "img" "" demo_podman) c None "" "" "" "" ∅ ().

(** A blueprint is its class, its repository and an environment. *)
Definition doc (b : WsBlueprint Z unit) : DiffDoc string :=
  mkDoc (mkMetadata "" (b_RepoName b) "" "" "") {["LANG" := "C"]} "" "" "" (b_NetworkPolicyClass b).
Definition blueprint_map (b : WsBlueprint Z unit) : option (gmap string yvalue) :=
  Some {["env" := YMap [("LANG", YStr "C")]; "class" := YStr (b_NetworkPolicyClass b); "repo" := YStr (b_RepoName b)]}.
Definition marshal (v : gmap string yvalue) : option string :=
  Some (bits (encode (omap as_string (env_of v), (string_or_empty (v !! "hostname"), string_or_empty (v !! "subdomain")),
                      (string_or_empty (v !! "class"), string_or_empty (v !! "repo"))))).
Definition decode_doc (s : string) : option (DiffDoc string) :=
  p ← unbits s; '(e, (h, d), (c, r)) ← decode (A := gmap string string * (string * string) * (string * string)) p;
  Some (mkDoc (mkMetadata "" r "" "" "") e h d "" c).

(** The file is the obligations, after the comment if there is one. *)
Definition file (_ : WsBlueprint Z unit) (o : gmap string string) : option string := Some (String "o" (bits (encode o))).
Definition obligations (s : string) : option (gmap string string) :=
  let t := if has_prefix s "#" then (cut_byte "010"%char s).1.2 else s in
  p ← unbits (drop_str 1 t); decode p.

Definition values : WorkspaceObj Z unit -> answer (gmap string yvalue) :=
  Values (fun _ _ => "script") (fun _ => Some 2000%Z) (fun _ => Some 4294967296%Z) pretty pretty Z.quot
    blueprint_map (fun _ => Some YNil) (fun _ => Some ∅) (fun _ => Some "") (fun _ => Some "") file
    (fun s => s) (fun _ => None) (fun b => Some b) "inject" demo_config.

(** The policy tightens the class. *)
Definition patches : list (string * string) := [("/class", "strict")].
Definition user : WsUser := mkWsUser "alice" "acme" "ldap" 1000 1000.
Definition ws : WorkspaceObj Z unit :=
  mkWorkspaceObj "alice-go" "j1" (Some (with_class "strict")) ["base"; "go"] "r1" {["/class" := "strict"]} (Some user)
    (Some (mkUserStr "alice/go" "c1")) false "standalone" "" "" "" "tok" "c1" {["EDITOR" := "vi"]} ∅.

#[export] Instance gate : Gate Z unit := {|
  gt_authz := true; gt_jobs := true; gt_DefaultCustomBlueprint := ""; gt_NodeSelectorKeys := []; gt_values := map_to_list;
  gt_InjectNamespaces := [];
  gt_account := fun found => mkAccount (mkWsUser found.1 "acme" found.2 1000 1000) ["*"] "git";
  gt_HasBlueprint := fun a name => true; gt_parse := fun s => None; gt_canonicalize := fun _ => None; gt_k8shell_file := fun _ => None;
  gt_mode := fun m => match m with ModeStandalone => "standalone" | ModeInject => "inject" end; gt_source := fun _ => "explicit";
  gt_builds := fun _ => true;
  gt_patch := fun bp l => Some (foldl (fun bp kv => if String.eqb kv.1 "/class" then with_class kv.2 else bp) bp l);
  gt_blueprint_json := fun _ => "{}"; gt_job := fun _ => None; gt_qualified_name := fun _ => true; gt_label_value := fun _ => true;
|}.

Definition release (v : gmap string yvalue) : Release := mkRelease "alice-go" {[ LabelUsername := "alice"; LabelBlueprint := "go" ]} v "".

(** The services of a cluster with this release. *)
Definition serve (v : gmap string yvalue) A (s : unit) (e : api A) : unit * A :=
  (tt, match e in api A return A with
       | ReleaseList _ => Ok [release v]
       | UserFind u => Ok (u, "ldap")
       | EnvVarList _ => Ok [("EDITOR", "vi", false)]
       | e => refuse e
       end).

#[export] Instance codec :
  BlueprintCodec (fun _ _ => "script") blueprint_map file marshal decode_doc obligations map_to_list doc ["class"; "repo"].
Proof.
  split.
  - by apply (bool_decide_unpack _).
  - intros bp m [= <-]. split_and!; [vm_compute; reflexivity|done|done].
  - done.
  - intros bp m v [= <-] H. unfold BlueprintFromValues, marshal, decode_doc. cbn [mbind option_bind]. rewrite unbits_bits.
    cbn [mbind option_bind]. rewrite decode_encode. cbn [mbind option_bind].
    rewrite (H "class"), (H "repo") by set_solver. rewrite !attach_other by done. reflexivity.
  - intros bp chain o text Hl. unfold blueprint_file, file. intros [= <-]. split; [by destruct chain|].
    unfold obligations. destruct chain as [|n chain]; [cbn; by rewrite unbits_bits; cbn; rewrite decode_encode|].
    change (has_prefix _ "#") with true. cbn match. rewrite (cut_app "010" "# inheritance: ") by done. cbn [fst snd].
    rewrite (cut_app "010" (join " -> " (n :: chain))) by done. cbn [fst snd].
    change (drop_str 1 _) with (bits (encode o)).
    rewrite unbits_bits. cbn. by rewrite decode_encode.
  - intros m. unfold enumerates. reflexivity.
Qed.
End DiffSample.

#[local] Existing Instance DiffSample.gate.
#[local] Existing Instance DiffSample.codec.

Lemma one_line_ex : one_line (join " -> " (wo_blueprintChain DiffSample.ws)).
Proof. reflexivity. Qed.

Lemma unchanged_is_identical_witness :
  exists v d, DiffSample.values DiffSample.ws = Ok v /\
    (run (DiffSample.serve v)
       (DiffWorkspaceBlueprint DiffSample.marshal DiffSample.decode_doc DiffSample.obligations map_to_list DiffSample.doc
          (fun _ _ => Ok (DiffSample.with_class "user", false)) (fun _ _ => "r2") (fun _ => None) (fun b => Some b) one_block
          (fun d => RText (dd_rest d)) (fun _ => Some "document") Z.of_nat "k8shell-workspace" (Some [1%N]) "alice-go") tt).2 = Ok d /\
    drs_Identical d = true.
Proof.
  assert (Hok : match DiffSample.values DiffSample.ws with Ok _ => true | Err _ => false end = true) by reflexivity.
  destruct (DiffSample.values DiffSample.ws) as [v|] eqn:E; [|discriminate Hok]. exists v.
  destruct (GetBlueprintScope "go" (manager_user (mkAccount DiffSample.user ["*"] "git")) None "alice-go") as [scope|] eqn:Es;
    [|discriminate Es].
  destruct (unchanged_is_identical (fun _ _ => "script") (fun _ => Some 2000%Z) (fun _ => Some 4294967296%Z) pretty pretty Z.quot
    DiffSample.blueprint_map (fun _ => Some YNil) (fun _ => Some ∅) (fun _ => Some "") (fun _ => Some "") DiffSample.file
    (fun s => s) (fun _ => None) (fun b => Some b) "inject" one_block (fun d => RText (dd_rest d)) (fun _ => Some "document")
    DiffSample.marshal DiffSample.decode_doc DiffSample.obligations map_to_list DiffSample.doc Z.of_nat "k8shell-workspace"
    (DiffSample.serve v) (fun _ _ => Ok (DiffSample.with_class "user", false)) (fun _ _ => "r2")
    demo_config DiffSample.ws v (DiffSample.release v) (mkAccount DiffSample.user ["*"] "git") [("EDITOR", "vi", false)]
    (DiffSample.with_class "user") (DiffSample.with_class "strict") false scope DiffSample.patches [1%N] tt)
    as (d & Hd & Hi & _); [exact E| |reflexivity|reflexivity|reflexivity|discriminate|discriminate|reflexivity|exact Es|reflexivity|reflexivity|reflexivity|reflexivity|by eexists| |exists d; split; [reflexivity|split; [exact Hd|exact Hi]]].
  - split; try reflexivity.
    + exists ("alice", "ldap"). by split.
    + intros k. cbn. rewrite list_elem_of_singleton, lookup_singleton_is_Some. naive_solver.
  - intros l. apply Forall_singleton. cbn. by apply bool_decide_true.
Defined.

Lemma deleted_variable_shows_witness :
  dd_Env (normalizeForDiff (mkDoc (mkMetadata "" "" "" "" "") (omap as_string (values_env "inject" demo_config DiffSample.ws
            (DiffSample.with_class "strict") (YStr <$> ({["LANG" := "C"]} : gmap string string)))) "" "" "" tt) (mkDiffOptions "alice-go" "acme" []))
    !! "EDITOR" = Some "vi".
Proof.
  apply (deleted_variable_shows "inject" demo_config DiffSample.ws (DiffSample.with_class "strict") (mkMetadata "" "" "" "" "") {["LANG" := "C"]} "" "" ""
           tt (mkDiffOptions "alice-go" "acme" []) "EDITOR" "vi"); [reflexivity|apply (bool_decide_unpack _); vm_compute; exact I..].
Defined.
