(* ===== verification/Config.v ===== *)
(** * The configuration of the server

    internal/config/config.go after the file has been decoded: the checks across
    fields, the defaults, the namespaces for injection and the keys of node
    selectors, and the values of the registries. Decoding, the validator of struct
    tags, durations and Kubernetes' names are parameters. *)

From S2P Require Import Prelude GoStrings Trim Yaml Include Values HelmOps Injection.

(** ** The file *)

(** The fields that loading reads or sets; [sc_rest] are the others. *)
Record ServerConfig (D Fl R : Type) : Type := mkServerConfig {
  sc_InjectNamespaces : list string;
  sc_NodeSelectorKeys : list string;
  sc_ClusterDomain : string;
  sc_CertEnabled : bool;
  sc_CertDuration : string;
  sc_CertRenewBefore : string;
  sc_ProvisionBucketTTL : D;
  sc_ProvisionBucketTTLRaw : string;
  sc_SigningMethod : string;
  sc_PublicKeyFile : string;
  sc_PrivateKeyFile : string;
  sc_BaseDir : string;
  sc_QPS : Fl;
  sc_Burst : Z;
  sc_rest : R;
}.
Arguments mkServerConfig {D Fl R}.
Arguments sc_InjectNamespaces {D Fl R}.
Arguments sc_NodeSelectorKeys {D Fl R}.
Arguments sc_ClusterDomain {D Fl R}.
Arguments sc_CertEnabled {D Fl R}.
Arguments sc_CertDuration {D Fl R}.
Arguments sc_CertRenewBefore {D Fl R}.
Arguments sc_ProvisionBucketTTL {D Fl R}.
Arguments sc_ProvisionBucketTTLRaw {D Fl R}.
Arguments sc_SigningMethod {D Fl R}.
Arguments sc_PublicKeyFile {D Fl R}.
Arguments sc_PrivateKeyFile {D Fl R}.
Arguments sc_BaseDir {D Fl R}.
Arguments sc_QPS {D Fl R}.
Arguments sc_Burst {D Fl R}.
Arguments sc_rest {D Fl R}.

Inductive config_error : Type :=
| LoadFailed
| InvalidStructure
| InvalidTTL (raw : string)
| UnsupportedMethod (method : string)
| NoKeyFile
| EmptyNamespace (i : nat)
| InvalidKey (i : nat) (key : string).

(** src/internal/config/config.go:277-292 normalizeNodeSelectorKeys *)
Fixpoint normalize_keys (qualified_name : string -> bool) (i : nat) (seen : gset string) (keys : list string) : result config_error (list string) :=
  match keys with
  | [] => Ok []
  | k :: keys =>
      let k := trim_space k in
      if negb (qualified_name k) then Err (InvalidKey i k)
      else if decide (k ∈ seen) then normalize_keys qualified_name (S i) seen keys
      else (k ::.) <$> normalize_keys qualified_name (S i) ({[ k ]} ∪ seen) keys
  end.

Definition normalizeNodeSelectorKeys (qualified_name : string -> bool) (keys : list string) : result config_error (list string) :=
  normalize_keys qualified_name 0 ∅ keys.

(** Every namespace trimmed; none may be empty.

    src/internal/config/config.go:205-211 NewConfig *)
Fixpoint trim_namespaces (i : nat) (l : list string) : result config_error (list string) :=
  match l with
  | [] => Ok []
  | n :: l =>
      let n := trim_space n in
      if String.eqb n "" then Err (EmptyNamespace i) else (n ::.) <$> trim_namespaces (S i) l
  end.

(** Duplicates dropped; a star stands for all, whatever came before it.

    src/internal/config/config.go:221-239 NewConfig *)
Fixpoint collect_namespaces (seen : gset string) (out l : list string) : list string :=
  match l with
  | [] => out
  | n :: l =>
      let n := trim_space n in
      if String.eqb n "" then collect_namespaces seen out l
      else if String.eqb n "*" then ["*"]
      else if decide (n ∈ seen) then collect_namespaces seen out l
      else collect_namespaces ({[ n ]} ∪ seen) (out ++ [n]) l
  end.

(** src/internal/config/config.go:180-187 NewConfig *)
Definition cert_default (enabled : bool) (value default : string) : string :=
  if enabled && String.eqb value "" then default else value.

Section config.
Context {D Fl R : Type}.
#[local] Notation Cfg := (ServerConfig D Fl R).
Variable load : string -> option Cfg.
Variable structure_valid : Cfg -> bool.
Variable ParseDuration : string -> option D.
Variable qualified_name : string -> bool.
(** The rate as a float32: whether it is zero, and a whole number. *)
Variable is_zero : Fl -> bool.
Variable float32 : Z -> Fl.

(** src/internal/config/config.go:146-149 DefaultKubeClientQPS *)
Definition DefaultKubeClientQPS : Fl := float32 150.
Definition DefaultKubeClientBurst : Z := 300.

(** src/internal/config/config.go:172-178 NewConfig *)
Definition bucket_ttl (c : Cfg) : result config_error D :=
  if String.eqb (sc_ProvisionBucketTTLRaw c) "" then Ok (sc_ProvisionBucketTTL c)
  else match ParseDuration (sc_ProvisionBucketTTLRaw c) with
       | None => Err (InvalidTTL (sc_ProvisionBucketTTLRaw c))
       | Some d => Ok d
       end.

(** src/internal/config/config.go:189-195 NewConfig *)
Definition check_jwt (c : Cfg) : result config_error unit :=
  if negb (String.eqb (sc_SigningMethod c) "es256") && negb (String.eqb (sc_SigningMethod c) "rs256")
  then Err (UnsupportedMethod (sc_SigningMethod c))
  else if String.eqb (sc_PublicKeyFile c) "" && String.eqb (sc_PrivateKeyFile c) "" then Err NoKeyFile else Ok tt.

(** The configuration a decoded file stands for. [domain] is the package's
    ClusterDomain, which is set to the one of the configuration.

    src/internal/config/config.go:171-242 NewConfig *)
Definition post_load (configFile domain : string) (c : Cfg) : result config_error Cfg :=
  ttl ← bucket_ttl c;
  _ ← check_jwt c;
  namespaces ← trim_namespaces 0 (sc_InjectNamespaces c);
  keys ← normalizeNodeSelectorKeys qualified_name (sc_NodeSelectorKeys c);
  Ok (mkServerConfig (collect_namespaces ∅ [] namespaces) keys
        (if String.eqb (sc_ClusterDomain c) "" then domain else sc_ClusterDomain c)
        (sc_CertEnabled c) (cert_default (sc_CertEnabled c) (sc_CertDuration c) "24h")
        (cert_default (sc_CertEnabled c) (sc_CertRenewBefore c) "12h") ttl (sc_ProvisionBucketTTLRaw c) (sc_SigningMethod c)
        (sc_PublicKeyFile c) (sc_PrivateKeyFile c) (filepath_dir configFile)
        (if is_zero (sc_QPS c) then DefaultKubeClientQPS else sc_QPS c)
        (if Z.eqb (sc_Burst c) 0 then DefaultKubeClientBurst else sc_Burst c) (sc_rest c)).

(** src/internal/config/config.go:158-245 NewConfig *)
Definition NewConfig (configFile domain : string) : result config_error Cfg :=
  match load configFile with
  | None => Err LoadFailed
  | Some c => if negb (structure_valid c) then Err InvalidStructure else post_load configFile domain c
  end.
End config.

(** ** The registries *)

(** src/internal/config/config.go:94-99 PrivateRegistry *)
Record PrivateRegistry : Type := mkPrivateRegistry { pr_Host : string; pr_CertCA : string; pr_Username : string; pr_Password : string }.

(** src/internal/config/config.go:106-110 ToValues *)
Definition DefaultRegistry_ToValues (host : string) : gmap string yvalue := {["host" := YStr host]}.

Definition dq : string := String (Ascii.ascii_of_nat 34) "".

(** The three texts go into the document as they are.

    src/internal/config/config.go:119-120 ToValues *)
Definition docker_config (host username password : string) : string :=
  "{" +:+ dq +:+ "auths" +:+ dq +:+ ": {" +:+ dq +:+ host +:+ dq +:+ ": {" +:+ dq +:+ "username" +:+ dq +:+ ": " +:+ dq +:+ username
  +:+ dq +:+ "," +:+ dq +:+ "password" +:+ dq +:+ ": " +:+ dq +:+ password +:+ dq +:+ "}}}".

(** src/internal/config/config.go:114-125 ToValues *)
Definition PrivateRegistry_ToValues (r : PrivateRegistry) : gmap string yvalue :=
  let values := {["certCA" := YStr (pr_CertCA r)]} in
  if negb (String.eqb (pr_Username r) "") && negb (String.eqb (pr_Password r) "")
  then <["regcred" := YStr "regcred"]> (<["dockerConfigJson" := YStr (docker_config (pr_Host r) (pr_Username r) (pr_Password r))]> values)
  else values.

(** ** Namespaces *)

(** The names a list stands for. *)
Definition listed_or_star (l : list string) (ns : string) : Prop := "*" ∈ l \/ ns ∈ l.

Lemma AllowsInjectionNamespace_spec l ns : AllowsInjectionNamespace l ns = true <-> ns <> "" /\ listed_or_star l ns.
Proof.
  unfold AllowsInjectionNamespace, listed_or_star. rewrite andb_true_iff, negb_true_iff, String.eqb_neq, existsb_exists.
  setoid_rewrite orb_true_iff. setoid_rewrite String.eqb_eq. setoid_rewrite list_elem_of_In. naive_solver.
Qed.

Lemma trim_namespaces_ok i l out : trim_namespaces i l = Ok out -> out = trim_space <$> l /\ "" ∉ out.
Proof.
  revert i out. induction l as [|n l IH]; intros i out; cbn [trim_namespaces]; [intros [= <-]; split; [done|set_solver]|].
  destruct (String.eqb_spec (trim_space n) "") as [|Hn]; [done|]. destruct (trim_namespaces (S i) l) as [r|] eqn:E; [|done].
  intros [= <-]. destruct (IH _ _ E) as [-> Hr]. split; [done|]. set_solver.
Qed.

(** What the second pass makes of trimmed names. *)
Lemma collect_spec l : Forall (fun n => trim_space n = n /\ n <> "") l -> forall seen out,
  (forall n, n ∈ seen <-> n ∈ out) -> NoDup out -> "*" ∉ out ->
  let r := collect_namespaces seen out l in
  ("*" ∈ l -> r = ["*"]) /\ ("*" ∉ l -> NoDup r /\ "*" ∉ r /\ forall n, n ∈ r <-> n ∈ out \/ n ∈ l).
Proof.
  induction 1 as [|n l [Ht Hn] _ IH]; intros seen out Hs Hd Hst; cbn zeta; cbn [collect_namespaces].
  { split; [by intros ?%not_elem_of_nil|]. intros _. split_and!; [done|done|]. set_solver. }
  rewrite Ht. rewrite (proj2 (String.eqb_neq n "") Hn). destruct (String.eqb_spec n "*") as [->|Hstar].
  { split; [done|]. set_solver. }
  case_decide as Hin.
  - destruct (IH seen out Hs Hd Hst) as [H1 H2]. split; [set_solver|]. intros Hl. destruct H2 as (A & B & C); [set_solver|].
    split_and!; [done|done|]. intros k. rewrite C, elem_of_cons. apply Hs in Hin. naive_solver.
  - destruct (IH ({[ n ]} ∪ seen) (out ++ [n])) as [H1 H2].
    + intros k. rewrite elem_of_union, elem_of_singleton, Hs, elem_of_app, list_elem_of_singleton. tauto.
    + apply NoDup_app. split_and!; [done| |apply NoDup_singleton]. intros k Hk ->%list_elem_of_singleton. by apply Hin, Hs.
    + set_solver.
    + split; [set_solver|]. intros Hl. destruct H2 as (A & B & C); [set_solver|]. split_and!; [done|done|].
      intros k. rewrite C, elem_of_app, list_elem_of_singleton, elem_of_cons. tauto.
Qed.

Lemma collected l out : trim_namespaces 0 l = Ok out ->
  let r := collect_namespaces ∅ [] out in
  (forall n, n ∈ r -> n <> "") /\ ("*" ∈ r -> r = ["*"]) /\ NoDup r /\ (forall ns, listed_or_star r ns <-> listed_or_star (trim_space <$> l) ns).
Proof.
  intros [-> Hne]%trim_namespaces_ok r.
  assert (Hf : Forall (fun n => trim_space n = n /\ n <> "") (trim_space <$> l)).
  { apply Forall_forall. intros n Hn. split; [|by intros ->]. apply list_elem_of_fmap in Hn as (m & -> & _). apply trim_space_idem. }
  destruct (collect_spec _ Hf ∅ []) as [H1 H2]; [set_solver|constructor|set_solver|]. fold r in H1, H2.
  destruct (decide ("*" ∈ trim_space <$> l)) as [Hs|Hs].
  - rewrite (H1 Hs). split_and!; [set_solver|done|apply NoDup_singleton|]. intros ns. unfold listed_or_star. set_solver.
  - destruct (H2 Hs) as (A & B & C). split_and!; [|done|done|].
    + intros n Hn%C. destruct Hn as [?%not_elem_of_nil|Hn]; [done|]. by intros ->.
    + intros ns. unfold listed_or_star. rewrite !C. set_solver.
Qed.

(** A list without its later duplicates. *)
Fixpoint firsts (l : list string) : list string :=
  match l with [] => [] | n :: l => n :: List.filter (fun k => negb (String.eqb k n)) (firsts l) end.

Lemma filter_ne_elem n l k : k ∈ List.filter (fun k => negb (String.eqb k n)) l <-> k ∈ l /\ k <> n.
Proof. rewrite list_elem_of_In, filter_In, <- list_elem_of_In, negb_true_iff, String.eqb_neq. done. Qed.

Lemma firsts_elem l k : k ∈ firsts l <-> k ∈ l.
Proof.
  induction l as [|n l IH]; [done|]. cbn [firsts]. rewrite !elem_of_cons, filter_ne_elem, IH.
  destruct (decide (k = n)); tauto.
Qed.

Lemma firsts_distinct l : NoDup (firsts l).
Proof.
  induction l as [|n l IH]; cbn [firsts]; [constructor|]. apply NoDup_cons. split; [rewrite filter_ne_elem; tauto|].
  by apply NoDup_ListNoDup, List.NoDup_filter, NoDup_ListNoDup.
Qed.

(** The names that were not seen before. *)
Definition unseen (seen : gset string) (l : list string) : list string := List.filter (fun k => negb (bool_decide (k ∈ seen))) l.

Lemma unseen_cons seen n l :
  unseen seen (firsts (n :: l)) =
    if decide (n ∈ seen) then unseen seen (firsts l) else n :: unseen ({[ n ]} ∪ seen) (firsts l).
Proof.
  cbn [firsts]. unfold unseen. cbn [List.filter]. case_decide as Hn.
  - rewrite bool_decide_true by done. cbn [negb]. induction (firsts l) as [|k r IH]; [done|]. cbn [List.filter].
    destruct (String.eqb_spec k n) as [->|Hk]; cbn [negb List.filter]; [by rewrite bool_decide_true|].
    case_goal; [by f_equal|done].
  - rewrite bool_decide_false by done. cbn [negb]. f_equal. induction (firsts l) as [|k r IH]; [done|]. cbn [List.filter].
    destruct (String.eqb_spec k n) as [->|Hk]; cbn [negb List.filter].
    + by rewrite bool_decide_true by set_solver.
    + rewrite (bool_decide_ext (k ∈ {[ n ]} ∪ seen) (k ∈ seen)) by set_solver. case_goal; [by f_equal|done].
Qed.

Lemma unseen_none l : unseen ∅ l = l.
Proof. unfold unseen. induction l as [|k l IH]; [done|]. cbn [List.filter]. rewrite bool_decide_false by set_solver. cbn. by f_equal. Qed.

(** What the second pass makes of trimmed names, without its set. *)
Lemma collect_firsts l : Forall (fun n => trim_space n = n /\ n <> "") l -> forall seen out,
  collect_namespaces seen out l = if decide ("*" ∈ l) then ["*"] else out ++ unseen seen (firsts l).
Proof.
  induction 1 as [|n l [Ht Hn] _ IH]; intros seen out; cbn [collect_namespaces].
  { rewrite decide_False by apply not_elem_of_nil. cbn. by rewrite app_nil_r. }
  rewrite Ht, (proj2 (String.eqb_neq n "") Hn). destruct (String.eqb_spec n "*") as [->|Hs].
  { rewrite decide_True by left. done. }
  rewrite unseen_cons, !IH. destruct (decide ("*" ∈ l)) as [Hl|Hl].
  - rewrite (decide_True (P := "*" ∈ n :: l)) by (by right). by case_decide.
  - rewrite (decide_False (P := "*" ∈ n :: l)) by set_solver. case_decide; [done|]. by rewrite <- app_assoc.
Qed.

Lemma normalize_firsts q keys : forall i seen out, normalize_keys q i seen keys = Ok out ->
  out = unseen seen (firsts (trim_space <$> keys)).
Proof.
  induction keys as [|k keys IH]; intros i seen out; cbn [normalize_keys]; [by intros [= <-]|].
  destruct (q (trim_space k)); [|done]. cbn [negb]. rewrite fmap_cons, unseen_cons. case_decide as Hs; [by apply IH|].
  destruct (normalize_keys q (S i) _ keys) as [r|] eqn:E; [|done]. intros [= <-]. f_equal. by eapply IH.
Qed.

(** The errors name an entry that is wrong. *)
Lemma trim_namespaces_err i l e : trim_namespaces i l = Err e ->
  exists j, e = EmptyNamespace (i + j) /\ (trim_space <$> l) !! j = Some "".
Proof.
  revert i. induction l as [|n l IH]; intros i; cbn [trim_namespaces]; [done|].
  destruct (String.eqb_spec (trim_space n) "") as [Hn|Hn].
  - intros [= <-]. exists 0. rewrite Nat.add_0_r. split; [done|]. cbn. by rewrite Hn.
  - destruct (trim_namespaces (S i) l) eqn:E; [done|]. intros [= <-]. destruct (IH _ E) as (j & -> & Hj).
    exists (S j). split; [f_equal; lia|done].
Qed.

Lemma normalize_keys_err q keys : forall i seen e, normalize_keys q i seen keys = Err e ->
  exists j k, e = InvalidKey (i + j) k /\ (trim_space <$> keys) !! j = Some k /\ q k = false.
Proof.
  induction keys as [|k keys IH]; intros i seen e; cbn [normalize_keys]; [done|].
  destruct (q (trim_space k)) eqn:Eq; cbn [negb].
  - intros H. assert (He : exists seen, normalize_keys q (S i) seen keys = Err e).
    { revert H. case_decide; [by eauto|]. destruct (normalize_keys q (S i) _ keys) eqn:E; [done|]. intros [= <-]. eauto. }
    destruct He as [seen' He]. destruct (IH _ _ _ He) as (j & k' & -> & Hj & Hk).
    exists (S j), k'. split; [f_equal; lia|done].
  - intros [= <-]. exists 0, (trim_space k). rewrite Nat.add_0_r. done.
Qed.

Lemma trim_namespaces_fixed l : Forall (fun n => trim_space n = n /\ n <> "") l -> forall i, trim_namespaces i l = Ok l.
Proof.
  induction 1 as [|n l [Ht Hn] _ IH]; intros i; cbn [trim_namespaces]; [done|]. by rewrite Ht, (proj2 (String.eqb_neq n "") Hn), IH.
Qed.

Lemma collect_fixed l : Forall (fun n => trim_space n = n /\ n <> "") l -> NoDup l -> "*" ∉ l -> forall (seen : gset string) out,
  (forall n, n ∈ l -> n ∉ seen) -> collect_namespaces seen out l = out ++ l.
Proof.
  induction 1 as [|n l [Ht Hn] _ IH]; intros Hd Hst seen out Hs; cbn [collect_namespaces]; [by rewrite app_nil_r|].
  apply NoDup_cons in Hd as [Hnl Hd]. rewrite Ht, (proj2 (String.eqb_neq n "") Hn), (proj2 (String.eqb_neq n "*")) by set_solver.
  rewrite decide_False by (apply Hs; left). rewrite IH; [by rewrite <- app_assoc|done|set_solver|]. intros k Hk. specialize (Hs k). set_solver.
Qed.

Lemma collect_trimmed l : Forall (fun n => trim_space n = n) l -> forall seen out, Forall (fun n => trim_space n = n) out ->
  Forall (fun n => trim_space n = n) (collect_namespaces seen out l).
Proof.
  induction 1 as [|n l Ht _ IH]; intros seen out Ho; cbn [collect_namespaces]; [done|]. repeat case_goal; try by apply IH.
  - by repeat constructor.
  - apply IH. apply Forall_app. split; [done|]. apply Forall_singleton. apply trim_space_idem.
Qed.

(** ** Keys of node selectors *)

Lemma normalize_keys_ok q keys : forall i seen out, normalize_keys q i seen keys = Ok out ->
  NoDup out /\ (forall k, k ∈ out -> q k = true /\ trim_space k = k /\ k ∉ seen) /\
  (forall k, k ∈ trim_space <$> keys -> q k = true /\ (k ∈ out \/ k ∈ seen)).
Proof.
  induction keys as [|k keys IH]; intros i seen out; cbn [normalize_keys].
  { intros [= <-]. split_and!; [constructor|by intros ? ?%not_elem_of_nil..]. }
  destruct (q (trim_space k)) eqn:Eq; [|done]. cbn [negb]. case_decide as Hs.
  - intros H. destruct (IH _ _ _ H) as (A & B & C). split_and!; [done|done|]. intros x [->|Hx]%elem_of_cons; [by auto|by apply C].
  - destruct (normalize_keys q (S i) _ keys) as [r|] eqn:E; [|done]. intros [= <-]. destruct (IH _ _ _ E) as (A & B & C). split_and!.
    + apply NoDup_cons. split; [|done]. intros Hin%B. set_solver.
    + intros x [->|Hx]%elem_of_cons; [by split_and!; [done|apply trim_space_idem|]|]. destruct (B x Hx) as (? & ? & ?). set_solver.
    + intros x [->|Hx]%elem_of_cons; [split; [done|left; left]|]. destruct (C x Hx) as [? ?]. set_solver.
Qed.

Lemma normalize_keys_fixed q keys : NoDup keys -> (forall k, k ∈ keys -> q k = true /\ trim_space k = k) -> forall i seen,
  (forall k, k ∈ keys -> k ∉ seen) -> normalize_keys q i seen keys = Ok keys.
Proof.
  induction keys as [|k keys IH]; intros Hd Hq i seen Hs; cbn [normalize_keys]; [done|]. apply NoDup_cons in Hd as [Hk Hd].
  destruct (Hq k) as [Eq Et]; [left|]. rewrite Et, Eq, decide_False by (apply Hs; left). cbn [negb].
  rewrite IH; [done|done|intros; apply Hq; by right|]. intros x Hx. specialize (Hs x). set_solver.
Qed.

Section laws.
Context {D Fl R : Type} (load : string -> option (ServerConfig D Fl R)) (structure_valid : ServerConfig D Fl R -> bool).
Context (ParseDuration : string -> option D) (qualified_name : string -> bool) (is_zero : Fl -> bool) (float32 : Z -> Fl).
#[local] Notation NewConfig_ := (NewConfig load structure_valid ParseDuration qualified_name is_zero float32).
#[local] Notation post_load_ := (post_load ParseDuration qualified_name is_zero float32).

(** What a loaded configuration is made of. *)
Lemma post_load_ok f domain (c0 c : ServerConfig D Fl R) : post_load_ f domain c0 = Ok c ->
  exists ttl namespaces keys, bucket_ttl ParseDuration c0 = Ok ttl /\ check_jwt c0 = Ok tt /\
    trim_namespaces 0 (sc_InjectNamespaces c0) = Ok namespaces /\ normalizeNodeSelectorKeys qualified_name (sc_NodeSelectorKeys c0) = Ok keys /\
    c = mkServerConfig (collect_namespaces ∅ [] namespaces) keys (if String.eqb (sc_ClusterDomain c0) "" then domain else sc_ClusterDomain c0)
          (sc_CertEnabled c0) (cert_default (sc_CertEnabled c0) (sc_CertDuration c0) "24h")
          (cert_default (sc_CertEnabled c0) (sc_CertRenewBefore c0) "12h") ttl (sc_ProvisionBucketTTLRaw c0) (sc_SigningMethod c0)
          (sc_PublicKeyFile c0) (sc_PrivateKeyFile c0) (filepath_dir f) (if is_zero (sc_QPS c0) then DefaultKubeClientQPS float32 else sc_QPS c0)
          (if Z.eqb (sc_Burst c0) 0 then DefaultKubeClientBurst else sc_Burst c0) (sc_rest c0).
Proof.
  unfold post_load. destruct (bucket_ttl _ c0) as [ttl|] eqn:E1; [|done]. destruct (check_jwt c0) as [[]|] eqn:E2; [|done].
  destruct (trim_namespaces 0 _) as [ns|] eqn:E3; [|done]. destruct (normalizeNodeSelectorKeys _ _) as [keys|] eqn:E4; [|done].
  cbn. intros [= <-]. by exists ttl, ns, keys.
Qed.

Lemma cert_default_idem e v d : d <> "" -> cert_default e (cert_default e v d) d = cert_default e v d.
Proof. intros Hd. unfold cert_default. destruct e; [|done]. cbn [andb]. destruct (String.eqb v "") eqn:E; [by destruct (String.eqb d "")|by rewrite E]. Qed.

(** A loaded configuration is well formed: injection is allowed everywhere or in
    distinct, non-empty, trimmed namespaces; the selector keys are distinct label
    keys; the limits of the client are set, certificates have their durations, and
    tokens can be verified. *)
Theorem NewConfig_normal f domain c : NewConfig_ f domain = Ok c -> is_zero (float32 150) = false -> domain <> "" ->
  (sc_InjectNamespaces c = ["*"] \/ "*" ∉ sc_InjectNamespaces c) /\ NoDup (sc_InjectNamespaces c) /\
  (forall n, n ∈ sc_InjectNamespaces c -> n <> "" /\ trim_space n = n) /\
  NoDup (sc_NodeSelectorKeys c) /\ (forall k, k ∈ sc_NodeSelectorKeys c -> qualified_name k = true) /\
  is_zero (sc_QPS c) = false /\ sc_Burst c <> 0%Z /\ sc_ClusterDomain c <> "" /\
  (sc_CertEnabled c = true -> sc_CertDuration c <> "" /\ sc_CertRenewBefore c <> "") /\
  sc_SigningMethod c ∈ ["es256"; "rs256"] /\ (sc_PublicKeyFile c <> "" \/ sc_PrivateKeyFile c <> "").
Proof.
  unfold NewConfig. destruct (load f) as [c0|]; [|done]. destruct (structure_valid c0); [|done]. cbn [negb].
  intros (ttl & ns & keys & _ & Hj & Hn & Hk & ->)%post_load_ok Hz Hd. cbn.
  destruct (collected _ _ Hn) as (N1 & N2 & N3 & _). destruct (normalize_keys_ok _ _ _ _ _ Hk) as (K1 & K2 & _).
  assert (Ht : Forall (fun n => trim_space n = n) (collect_namespaces ∅ [] ns)).
  { apply collect_trimmed; [|constructor]. apply trim_namespaces_ok in Hn as [-> _]. apply Forall_fmap, Forall_true. intros. apply trim_space_idem. }
  unfold check_jwt in Hj. split_and!; [destruct (decide ("*" ∈ collect_namespaces ∅ [] ns)); auto|done| |done|by intros k (? & _)%K2| | | | | |].
  - intros n H. split; [by apply N1|]. by apply (proj1 (Forall_forall _ _) Ht).
  - by destruct (is_zero (sc_QPS c0)) eqn:E.
  - by destruct (Z.eqb_spec (sc_Burst c0) 0).
  - by destruct (String.eqb_spec (sc_ClusterDomain c0) "").
  - intros ->. unfold cert_default. cbn [andb].
    by destruct (String.eqb_spec (sc_CertDuration c0) ""), (String.eqb_spec (sc_CertRenewBefore c0) "").
  - destruct (String.eqb_spec (sc_SigningMethod c0) "es256") as [->|]; [left|].
    destruct (String.eqb_spec (sc_SigningMethod c0) "rs256") as [->|]; [right; left|done].
  - case_in Hj; [done|]. destruct (String.eqb_spec (sc_PublicKeyFile c0) "") as [->|]; [|by left].
    destruct (String.eqb_spec (sc_PrivateKeyFile c0) "") as [->|]; [done|by right].
Qed.

(** Where injection is allowed is what the file lists: dropping duplicates, and the
    names beside a star, changes no answer of the check. *)
Theorem NewConfig_allows f domain c0 c ns : load f = Some c0 -> NewConfig_ f domain = Ok c ->
  AllowsInjectionNamespace (sc_InjectNamespaces c) ns = AllowsInjectionNamespace (trim_space <$> sc_InjectNamespaces c0) ns.
Proof.
  unfold NewConfig. intros ->. destruct (structure_valid c0); [|done]. cbn [negb].
  intros (ttl & l & keys & _ & _ & Hn & _ & ->)%post_load_ok. cbn. destruct (collected _ _ Hn) as (_ & _ & _ & H).
  apply eq_true_iff_eq. rewrite !AllowsInjectionNamespace_spec. split; intros [H1 H2%H]; by split.
Qed.

(** ** What a file stands for *)

(** The reason of each error. *)
Definition refused (c0 : ServerConfig D Fl R) (e : config_error) : Prop :=
  match e with
  | LoadFailed => False
  | InvalidStructure => structure_valid c0 = false
  | InvalidTTL raw => raw = sc_ProvisionBucketTTLRaw c0 /\ raw <> "" /\ ParseDuration raw = None
  | UnsupportedMethod m => m = sc_SigningMethod c0 /\ m <> "es256" /\ m <> "rs256"
  | NoKeyFile => sc_PublicKeyFile c0 = "" /\ sc_PrivateKeyFile c0 = ""
  | EmptyNamespace i => (trim_space <$> sc_InjectNamespaces c0) !! i = Some ""
  | InvalidKey i k => (trim_space <$> sc_NodeSelectorKeys c0) !! i = Some k /\ qualified_name k = false
  end.

Definition or_default {A} (unset : bool) (given default x : A) : Prop := x = if unset then default else given.

(** The configuration that a decoded file stands for, field by field. *)
Record effective (f domain : string) (c0 c : ServerConfig D Fl R) : Prop := {
  ef_namespaces : let l := trim_space <$> sc_InjectNamespaces c0 in
    sc_InjectNamespaces c = if decide ("*" ∈ l) then ["*"] else firsts l;
  ef_allows ns : AllowsInjectionNamespace (sc_InjectNamespaces c) ns = true <->
    ns <> "" /\ listed_or_star (trim_space <$> sc_InjectNamespaces c0) ns;
  ef_keys : sc_NodeSelectorKeys c = firsts (trim_space <$> sc_NodeSelectorKeys c0);
  ef_domain : or_default (String.eqb (sc_ClusterDomain c0) "") (sc_ClusterDomain c0) domain (sc_ClusterDomain c);
  ef_duration : or_default (sc_CertEnabled c0 && String.eqb (sc_CertDuration c0) "") (sc_CertDuration c0) "24h" (sc_CertDuration c);
  ef_renew : or_default (sc_CertEnabled c0 && String.eqb (sc_CertRenewBefore c0) "") (sc_CertRenewBefore c0) "12h" (sc_CertRenewBefore c);
  ef_qps : or_default (is_zero (sc_QPS c0)) (sc_QPS c0) (float32 150) (sc_QPS c);
  ef_burst : or_default (sc_Burst c0 =? 0)%Z (sc_Burst c0) 300%Z (sc_Burst c);
  ef_ttl : if String.eqb (sc_ProvisionBucketTTLRaw c0) "" then sc_ProvisionBucketTTL c = sc_ProvisionBucketTTL c0
           else ParseDuration (sc_ProvisionBucketTTLRaw c0) = Some (sc_ProvisionBucketTTL c);
  ef_base : sc_BaseDir c = filepath_dir f;
  ef_kept : (sc_CertEnabled c, sc_ProvisionBucketTTLRaw c, sc_SigningMethod c, sc_PublicKeyFile c, sc_PrivateKeyFile c, sc_rest c)
    = (sc_CertEnabled c0, sc_ProvisionBucketTTLRaw c0, sc_SigningMethod c0, sc_PublicKeyFile c0, sc_PrivateKeyFile c0, sc_rest c0);
}.

Lemma post_load_effective f domain (c0 c : ServerConfig D Fl R) : post_load_ f domain c0 = Ok c -> effective f domain c0 c.
Proof.
  intros (ttl & l & keys & Ht & _ & Hn & Hk & ->)%post_load_ok. destruct (collected _ _ Hn) as (_ & _ & _ & Hc).
  split; cbn; try reflexivity.
  - pose proof Hn as [-> Hne]%trim_namespaces_ok. rewrite collect_firsts, unseen_none; [done|].
    apply Forall_forall. intros n Hin. split; [|by intros ->]. apply list_elem_of_fmap in Hin as (m & -> & _). apply trim_space_idem.
  - intros ns. rewrite AllowsInjectionNamespace_spec. by rewrite Hc.
  - by rewrite (normalize_firsts _ _ _ _ _ Hk), unseen_none.
  - unfold bucket_ttl in Ht. destruct (String.eqb _ ""); [by injection Ht|]. destruct (ParseDuration _); [by injection Ht as ->|done].
Qed.

Lemma post_load_refused f domain (c0 : ServerConfig D Fl R) e : post_load_ f domain c0 = Err e -> refused c0 e.
Proof.
  unfold post_load, bucket_ttl, check_jwt. destruct (String.eqb_spec (sc_ProvisionBucketTTLRaw c0) "") as [_|Hr].
  2: destruct (ParseDuration _) eqn:Ep; [|by intros [= <-]].
  all: cbn [mbind result_bind];
    (destruct (String.eqb_spec (sc_SigningMethod c0) "es256"), (String.eqb_spec (sc_SigningMethod c0) "rs256");
      cbn [negb andb mbind result_bind]; [..|by intros [= <-]]);
    (destruct (String.eqb_spec (sc_PublicKeyFile c0) ""), (String.eqb_spec (sc_PrivateKeyFile c0) "");
      cbn [andb mbind result_bind]; [by intros [= <-]|..]);
    (destruct (trim_namespaces 0 _) as [ns|e'] eqn:En; cbn [mbind result_bind];
      [|intros [= <-]; by destruct (trim_namespaces_err _ _ _ En) as (j & -> & Hj)]);
    (destruct (normalizeNodeSelectorKeys _ _) as [keys|e'] eqn:Ek; cbn [mbind result_bind];
      [done|intros [= <-]; by destruct (normalize_keys_err _ _ _ _ _ Ek) as (j & k & -> & Hj)]).
Qed.

Lemma post_load_acceptable f domain (c0 c : ServerConfig D Fl R) e : post_load_ f domain c0 = Ok c ->
  structure_valid c0 = true -> ~ refused c0 e.
Proof.
  intros (ttl & l & keys & Ht & Hj & Hn & Hk & _)%post_load_ok Hv. destruct e as [| |raw|m| |i|i k]; cbn; [by intros []|congruence|..].
  - intros (-> & Hr & Hp). unfold bucket_ttl in Ht. by rewrite (proj2 (String.eqb_neq _ _) Hr), Hp in Ht.
  - intros (-> & H1 & H2). unfold check_jwt in Hj. by rewrite (proj2 (String.eqb_neq _ _) H1), (proj2 (String.eqb_neq _ _) H2) in Hj.
  - intros [H1 H2]. unfold check_jwt in Hj. rewrite H1, H2 in Hj. cbn in Hj. by destruct (_ && _).
  - apply trim_namespaces_ok in Hn as [-> Hne]. by intros Hi%list_elem_of_lookup_2.
  - intros [Hi%list_elem_of_lookup_2 Hq]. destruct (normalize_keys_ok _ _ _ _ _ Hk) as (_ & _ & H). destruct (H k Hi). congruence.
Qed.


(** The steps after decoding, done again on what they gave, change nothing,
    whatever the cluster domain of the process by then. *)
Theorem post_load_idempotent f domain domain' (c0 c : ServerConfig D Fl R) : is_zero (float32 150) = false -> domain <> "" ->
  post_load_ f domain c0 = Ok c -> post_load_ f domain' c = Ok c.
Proof.
  intros Hz Hd (ttl & l & keys & Hb & Hj & Hn & Hk & ->)%post_load_ok.
  destruct (collected _ _ Hn) as (N1 & N2 & N3 & _). destruct (normalize_keys_ok _ _ _ _ _ Hk) as (K1 & K2 & _).
  assert (Ht : Forall (fun n => trim_space n = n /\ n <> "") (collect_namespaces ∅ [] l)).
  { apply Forall_forall. intros n Hin. split; [|by apply N1]. revert n Hin. apply Forall_forall. apply collect_trimmed; [|constructor].
    apply trim_namespaces_ok in Hn as [-> _]. apply Forall_fmap, Forall_true. intros. apply trim_space_idem. }
  assert (Hc : collect_namespaces ∅ [] (collect_namespaces ∅ [] l) = collect_namespaces ∅ [] l).
  { destruct (decide ("*" ∈ collect_namespaces ∅ [] l)) as [Hs|Hs]; [by rewrite (N2 Hs)|]. rewrite collect_fixed; set_solver. }
  unfold post_load. cbn [sc_InjectNamespaces sc_NodeSelectorKeys sc_ClusterDomain sc_CertEnabled sc_CertDuration sc_CertRenewBefore sc_ProvisionBucketTTL
    sc_ProvisionBucketTTLRaw sc_SigningMethod sc_PublicKeyFile sc_PrivateKeyFile sc_BaseDir sc_QPS sc_Burst sc_rest].
  unfold bucket_ttl, check_jwt in *. cbn [sc_ProvisionBucketTTL sc_ProvisionBucketTTLRaw sc_SigningMethod sc_PublicKeyFile sc_PrivateKeyFile].
  rewrite trim_namespaces_fixed by done. unfold normalizeNodeSelectorKeys in *. rewrite normalize_keys_fixed by (done || (intros k ?%K2; naive_solver)).
  rewrite Hj. replace (if String.eqb (sc_ProvisionBucketTTLRaw c0) "" then Ok ttl else _) with (@Ok config_error D ttl) by (by destruct (String.eqb (sc_ProvisionBucketTTLRaw c0) "")).
  cbn [mbind result_bind]. rewrite Hc, !cert_default_idem by done. f_equal. f_equal.
  - destruct (String.eqb (sc_ClusterDomain c0) "") eqn:E; [by rewrite (proj2 (String.eqb_neq _ _) Hd)|by rewrite E].
  - destruct (is_zero (sc_QPS c0)) eqn:E; [unfold DefaultKubeClientQPS; by rewrite Hz|by rewrite E].
  - destruct (Z.eqb (sc_Burst c0) 0) eqn:E; [done|by rewrite E].
Qed.
End laws.

(** ** The registry's credentials *)

Definition no_quote (s : string) : Prop := (cut_byte (Ascii.ascii_of_nat 34) s).2 = false.

Lemma quoted_inj p1 p2 r1 r2 : no_quote p1 -> no_quote p2 -> p1 +:+ dq +:+ r1 = p2 +:+ dq +:+ r2 -> p1 = p2 /\ r1 = r2.
Proof.
  intros H1 H2 E. apply (f_equal (cut_byte (Ascii.ascii_of_nat 34))) in E. rewrite (cut_app _ p1), (cut_app _ p2) in E by done.
  change (dq +:+ r1) with (String (Ascii.ascii_of_nat 34) r1) in E. change (dq +:+ r2) with (String (Ascii.ascii_of_nat 34) r2) in E.
  cbn [cut_byte] in E. rewrite Ascii.eqb_refl in E. cbn [fst snd] in E. rewrite !string_app_nil_r in E. by injection E as -> ->.
Qed.

(** Texts without a quotation mark are told apart in the document. *)
Theorem docker_config_injective h u p h' u' p' : Forall no_quote [h; u; p; h'; u'; p'] ->
  docker_config h u p = docker_config h' u' p' -> (h, u, p) = (h', u', p').
Proof.
  rewrite !Forall_cons. intros (H1 & H2 & H3 & H4 & H5 & H6 & _) E. unfold docker_config in E.
  repeat (apply quoted_inj in E as [? E]; [|done..]). by subst.
Qed.

(** Others are not: the texts are not escaped, so two different credentials can make
    the same document. *)
Theorem docker_config_ambiguous host :
  exists u p u' p', (u, p) <> (u', p') /\ docker_config host u p = docker_config host u' p'.
Proof.
  pose (mid := dq +:+ "," +:+ dq +:+ "password" +:+ dq +:+ ": " +:+ dq).
  exists "a", ("b" +:+ mid +:+ "c"), ("a" +:+ mid +:+ "b"), "c". split; [discriminate|]. reflexivity.
Qed.

(** ** An instance *)

Module ConfigSample.
Definition raw : ServerConfig Z Z unit :=
  mkServerConfig [" apps "; "dev"; "apps"] ["k8shell.io/pool "; "k8shell.io/pool"] "" true "" "6h" 0%Z "30m" "es256" "/keys/pub.pem" "" "" 0%Z 50%Z tt.
Definition load (f : string) : option (ServerConfig Z Z unit) := Some raw.
Definition New : string -> string -> result config_error (ServerConfig Z Z unit) :=
  NewConfig load (fun _ => true) (fun _ => Some 1800%Z) (fun k => negb (String.eqb k "")) (Z.eqb 0) id.
Definition loaded : ServerConfig Z Z unit :=
  mkServerConfig ["apps"; "dev"] ["k8shell.io/pool"] "cluster.local" true "24h" "6h" 1800%Z "30m" "es256" "/keys/pub.pem" "" "/etc/k8shell" 150%Z 50%Z tt.
End ConfigSample.

Example New_ex : ConfigSample.New "/etc/k8shell/config.yaml" "cluster.local" = Ok ConfigSample.loaded.
Proof. vm_compute. reflexivity. Qed.

Lemma NewConfig_normal_witness : ConfigSample.New "/etc/k8shell/config.yaml" "cluster.local" = Ok ConfigSample.loaded /\ NoDup (sc_InjectNamespaces ConfigSample.loaded).
Proof.
  assert (H : ConfigSample.New "/etc/k8shell/config.yaml" "cluster.local" = Ok ConfigSample.loaded) by (vm_compute; reflexivity).
  split; [exact H|].
  exact (proj1 (proj2 (NewConfig_normal ConfigSample.load (fun _ => true) (fun _ => Some 1800%Z) (fun k => negb (String.eqb k "")) (Z.eqb 0) id
    _ _ _ H eq_refl ltac:(discriminate)))).
Defined.

Lemma NewConfig_allows_witness : AllowsInjectionNamespace (sc_InjectNamespaces ConfigSample.loaded) "apps" = true.
Proof.
  rewrite (NewConfig_allows ConfigSample.load (fun _ => true) (fun _ => Some 1800%Z) (fun k => negb (String.eqb k "")) (Z.eqb 0) id
    "/etc/k8shell/config.yaml" "cluster.local" ConfigSample.raw ConfigSample.loaded "apps"); vm_compute; reflexivity.
Defined.

Lemma post_load_idempotent_witness :
  post_load (fun _ => Some 1800%Z) (fun k => negb (String.eqb k "")) (Z.eqb 0) id "/etc/k8shell/config.yaml" "other.local" ConfigSample.loaded = Ok ConfigSample.loaded.
Proof.
  apply (post_load_idempotent ConfigSample.load (fun _ => true) (fun _ => Some 1800%Z) (fun k => negb (String.eqb k "")) (Z.eqb 0) id
    "/etc/k8shell/config.yaml" "cluster.local" "other.local" ConfigSample.raw); [reflexivity|discriminate|vm_compute; reflexivity].
Defined.

Lemma docker_config_injective_witness : docker_config "registry.io" "alice" "p1" <> docker_config "registry.io" "alice" "p2".
Proof. intros H. assert (E := docker_config_injective _ _ _ _ _ _ ltac:(by repeat constructor) H). discriminate E. Defined.
