(* ===== verification/ChartOps.v ===== *)
(** * Helm actions

    internal/helm/client.go: installing, rendering, upgrading and removing releases of
    the chart the client holds. The chart is shared by every request; each works on a
    clone whose metadata is its own. Helm's actions are calls: an action with its
    settings, the metadata and the values it is run with. *)

From S2P Require Import Prelude GoStrings Yaml Effects.

(** ** Charts *)

Record Maintainer : Type := mkMaintainer { mt_Name : string; mt_Email : string; mt_URL : string }.

(** Helm's chart.Metadata; [D] are its dependencies. *)
Record ChartMetadata (D : Type) : Type := mkChartMetadata {
  cm_Name : string;
  cm_Home : string;
  cm_Sources : list string;
  cm_Version : string;
  cm_Description : string;
  cm_Keywords : list string;
  cm_Maintainers : list Maintainer;
  cm_Icon : string;
  cm_APIVersion : string;
  cm_Condition : string;
  cm_Tags : string;
  cm_AppVersion : string;
  cm_Deprecated : bool;
  cm_Annotations : option (gmap string string);
  cm_KubeVersion : string;
  cm_Type : string;
  cm_Dependencies : list D;
}.
Arguments mkChartMetadata {D}.
Arguments cm_Version {D}.
Arguments cm_AppVersion {D}.
Arguments cm_Dependencies {D}.

(** The copy; the dependencies are not copied.

    src/internal/helm/client.go:905-944 cloneMetadata *)
Definition cloneMetadata {D} (m : ChartMetadata D) : ChartMetadata D :=
  let '(mkChartMetadata name home sources version description keywords maintainers icon api condition tags app deprecated annotations kube type _) := m in
  mkChartMetadata name home sources version description keywords ((fun t => mkMaintainer (mt_Name t) (mt_Email t) (mt_URL t)) <$> maintainers)
    icon api condition tags app deprecated annotations kube type [].

(** A chart: a pointer to its metadata, and the rest, which clones share. *)
Record Chart (R : Type) : Type := mkChart { ch_Metadata : option nat; ch_rest : R }.
Arguments mkChart {R}.
Arguments ch_Metadata {R}.
Arguments ch_rest {R}.

Definition with_Version {D} (v : string) (m : ChartMetadata D) : ChartMetadata D :=
  let '(mkChartMetadata name home sources _ description keywords maintainers icon api condition tags app deprecated annotations kube type deps) := m in
  mkChartMetadata name home sources v description keywords maintainers icon api condition tags app deprecated annotations kube type deps.

Definition with_AppVersion {D} (a : string) (m : ChartMetadata D) : ChartMetadata D :=
  let '(mkChartMetadata name home sources version description keywords maintainers icon api condition tags _ deprecated annotations kube type deps) := m in
  mkChartMetadata name home sources version description keywords maintainers icon api condition tags a deprecated annotations kube type deps.

(** ** Actions *)

(** src/internal/helm/client.go:76-85 InstallOptions *)
Record InstallOptions : Type := mkInstallOptions {
  in_ReleaseName : string;
  in_CreateNamespace : bool;
  in_ChartName : string;
  in_Values : gmap string yvalue;
  in_Wait : bool;
  in_Labels : gmap string string;
  in_Timeout : Z;
  in_AppVersion : string;
}.

(** What the code sets of action.Install and action.Upgrade; a timeout is in seconds,
    0 when it is not set. *)
Record InstallAction : Type := mkInstallAction {
  ia_ReleaseName : string;
  ia_DryRun : bool;
  ia_CreateNamespace : bool;
  ia_Wait : bool;
  ia_Labels : gmap string string;
  ia_Timeout : Z;
}.

Record UpgradeAction : Type := mkUpgradeAction {
  ua_DryRun : bool;
  ua_DryRunOption : string;
  ua_Wait : bool;
  ua_Atomic : bool;
  ua_CleanupOnFail : bool;
  ua_DisableHooks : bool;
  ua_ReuseValues : bool;
  ua_Labels : gmap string string;
  ua_Timeout : Z;
}.

Inductive release_status : Type := StatusDeployed | StatusPendingInstall | StatusPendingUpgrade | StatusPendingRollback | StatusOther.

(** release.Release, with the metadata of its chart. *)
Record HelmRelease (D : Type) : Type := mkHelmRelease {
  hr_Status : option release_status;
  hr_Labels : gmap string string;
  hr_Chart : option (ChartMetadata D);
  hr_Config : gmap string yvalue;
  hr_Manifest : string;
}.
Arguments hr_Status {D}.
Arguments hr_Chart {D}.
Arguments hr_Config {D}.
Arguments hr_Manifest {D}.

Inductive helm (D : Type) : Type -> Type :=
| ActionInit (ns : string) : helm D (answer unit)
| InstallRun (a : InstallAction) (m : option (ChartMetadata D)) (values : gmap string yvalue) : helm D (answer (HelmRelease D))
| GetRun (name : string) : helm D (answer (HelmRelease D))
| UpgradeRun (a : UpgradeAction) (name : string) (m : option (ChartMetadata D)) (values : gmap string yvalue) : helm D (answer (HelmRelease D))
| UninstallRun (name : string) (wait : bool) (timeout : Z) : helm D (answer unit)
| ListRun (all_namespaces : bool) (selector : string) (deployed : bool) : helm D (answer (list (HelmRelease D))).
Arguments ActionInit {D}.
Arguments InstallRun {D}.
Arguments GetRun {D}.
Arguments UpgradeRun {D}.
Arguments UninstallRun {D}.
Arguments ListRun {D}.

(** An operation on the client's memory ends with an answer, or by writing through a
    nil pointer. *)
Inductive ended (D A : Type) : Type :=
| Finished (heap : gmap nat (ChartMetadata D)) (r : answer A)
| Panicked.
Arguments Finished {D A}.
Arguments Panicked {D A}.

(** ** The client *)

Section client.
Context {D R : Type}.
#[local] Notation heap := (gmap nat (ChartMetadata D)).
#[local] Notation run_ A := (prog (helm D) (ended D A)).
(** The fields of the client: its charts, the version it stamps on them, its namespace. *)
Variable charts : gmap string (Chart R).
Variable AppVersion Commit : string.
Variable targetNamespace : string.

(** src/internal/helm/client.go:885-900 cloneChart *)
Definition cloneChart (h : heap) (original : Chart R) : heap * Chart R :=
  match ch_Metadata original ≫= (h !!.) with
  | None => (h, mkChart None (ch_rest original))
  | Some m => let l := fresh (dom h) in (<[l := cloneMetadata m]> h, mkChart (Some l) (ch_rest original))
  end.

(** A write of a field of the chart's metadata. *)
Definition write (f : ChartMetadata D -> ChartMetadata D) (ch : Chart R) (h : heap) : option heap :=
  l ← ch_Metadata ch; m ← h !! l; Some (<[l := f m]> h).

Definition metadata (ch : Chart R) (h : heap) : option (ChartMetadata D) := ch_Metadata ch ≫= (h !!.).

(** A clone of the chart with the version of the client, and the version of the
    application if there is one.

    src/internal/helm/client.go:353-360 Install *)
Definition stamped (opts : InstallOptions) (original : Chart R) (h : heap) : option (heap * Chart R) :=
  let '(h, ch) := cloneChart h original in
  h ← (if String.eqb (in_AppVersion opts) "" then Some h else write (with_AppVersion (in_AppVersion opts)) ch h);
  h ← write (with_Version (AppVersion +:+ "-" +:+ Commit)) ch h;
  Some (h, ch).

Definition finish {A} (h : heap) (r : answer A) : run_ A := Ret (Finished h r).

(** A step that may fail leaves the memory as it is. *)
Definition or_fail {A B} (h : heap) (m : prog (helm D) (answer A)) (f : A -> run_ B) : run_ B :=
  let! r := m in match r with Ok a => f a | Err e => finish h (Err e) end.

(** The chart of that name, stamped, for the action that follows. *)
Definition with_chart {A} (h : heap) (name : string) (opts : InstallOptions) (f : heap -> Chart R -> run_ A) : run_ A :=
  match charts !! name with
  | None => finish h (Err (Plain "chart not found"))
  | Some original => match stamped opts original h with None => Ret Panicked | Some (h, ch) => f h ch end
  end.

Definition timeout_of (t : Z) : Z := if (0 <? t)%Z then t else 0%Z.

(** src/internal/helm/client.go:868-882 createActionConfig *)
Definition createActionConfig (ns : string) : prog (helm D) (answer unit) :=
  wrapping "failed to initialize Helm action config" (call (ActionInit ns)).

(** src/internal/helm/client.go:294-328 Template *)
Definition Template (chartName : string) (opts : InstallOptions) (h : heap) : run_ string :=
  or_fail h (createActionConfig targetNamespace) (fun _ =>
    with_chart h chartName opts (fun h ch =>
      let a := mkInstallAction (in_ReleaseName opts) true false false ∅ (timeout_of (in_Timeout opts)) in
      or_fail h (wrapping "failed to render chart" (call (InstallRun a (metadata ch h) (in_Values opts)))) (fun rel =>
        finish h (Ok (hr_Manifest rel))))).

(** src/internal/helm/client.go:331-368 Install *)
Definition Install (chartName : string) (opts : InstallOptions) (h : heap) : run_ unit :=
  or_fail h (createActionConfig targetNamespace) (fun _ =>
    with_chart h chartName opts (fun h ch =>
      let a := mkInstallAction (in_ReleaseName opts) false (in_CreateNamespace opts) (in_Wait opts) (in_Labels opts) (timeout_of (in_Timeout opts)) in
      or_fail h (wrapping "failed to install chart" (call (InstallRun a (metadata ch h) (in_Values opts)))) (fun _ => finish h (Ok tt)))).

(** src/internal/helm/client.go:371-383 List *)
Definition List_ (ns : string) : prog (helm D) (answer (list (HelmRelease D))) :=
  let? _ := createActionConfig ns in wrapping "failed to list releases" (call (ListRun false "" false)).

(** src/internal/helm/client.go:493-514 ListWithSelector *)
Definition ListWithSelector (ns selector : string) : prog (helm D) (answer (list (HelmRelease D))) :=
  let? _ := createActionConfig ns in wrapping "failed to list releases" (call (ListRun false selector true)).

(** src/internal/helm/client.go:581-594 ListAllNamespaces *)
Definition ListAllNamespaces : prog (helm D) (answer (list (HelmRelease D))) :=
  let? _ := createActionConfig "" in wrapping "failed to list releases across all namespaces" (call (ListRun true "" false)).

(** src/internal/helm/client.go:655-667 GetRelease *)
Definition GetRelease (name : string) : prog (helm D) (answer (HelmRelease D)) :=
  let? _ := createActionConfig targetNamespace in wrapping "failed to get release" (call (GetRun name)).

(** src/internal/helm/client.go:670-684 Uninstall *)
Definition Uninstall (name : string) (timeout : Z) (wait : bool) : prog (helm D) (answer unit) :=
  let? _ := createActionConfig targetNamespace in wrapping "failed to uninstall release" (call (UninstallRun name wait timeout)).

Definition pending (rel : HelmRelease D) : bool :=
  match hr_Status rel with
  | Some (StatusPendingInstall | StatusPendingUpgrade | StatusPendingRollback) => true
  | _ => false
  end.

(** The release must exist, and no operation be under way.

    src/internal/helm/client.go:774-788 Upgrade *)
Definition upgradable (name : string) : prog (helm D) (answer unit) :=
  let! r := call (GetRun name) in
  Ret (match r with
       | Err e => if errors_is ErrReleaseNotFound e then Err (Plain "release not found") else Err (Wrap "failed to get release" e)
       | Ok rel => if pending rel then Err (Plain "release is in a pending state") else Ok tt
       end).

(** src/internal/helm/client.go:689-739 CanUpgrade *)
Definition CanUpgrade (opts : InstallOptions) (h : heap) : run_ unit :=
  or_fail h (createActionConfig targetNamespace) (fun _ =>
  or_fail h (upgradable (in_ReleaseName opts)) (fun _ =>
    with_chart h (in_ChartName opts) opts (fun h ch =>
      let a := mkUpgradeAction true "" false false false true false (in_Labels opts) (timeout_of (in_Timeout opts)) in
      or_fail h (wrapping "the release cannot be upgraded" (call (UpgradeRun a (in_ReleaseName opts) (metadata ch h) (in_Values opts))))
        (fun _ => finish h (Ok tt))))).

(** The chart is a clone as it is.

    src/internal/helm/client.go:744-765 CanUpgradeDryRunServer *)
Definition CanUpgradeDryRunServer (opts : InstallOptions) (h : heap) : run_ unit :=
  or_fail h (createActionConfig targetNamespace) (fun _ =>
    match charts !! in_ChartName opts with
    | None => finish h (Err (Plain "chart not found"))
    | Some original =>
        let '(h, ch) := cloneChart h original in
        let a := mkUpgradeAction true "server" false false false true false ∅ 0 in
        or_fail h (call (UpgradeRun a (in_ReleaseName opts) (metadata ch h) (in_Values opts))) (fun _ => finish h (Ok tt))
    end).

(** src/internal/helm/client.go:768-831 Upgrade *)
Definition Upgrade (opts : InstallOptions) (h : heap) : run_ unit :=
  or_fail h (createActionConfig targetNamespace) (fun _ =>
  or_fail h (upgradable (in_ReleaseName opts)) (fun _ =>
    with_chart h (in_ChartName opts) opts (fun h ch =>
      let a := mkUpgradeAction false "" true true true true false ∅ (timeout_of (in_Timeout opts)) in
      or_fail h (wrapping "the release cannot be upgraded" (call (UpgradeRun a (in_ReleaseName opts) (metadata ch h) (in_Values opts))))
        (fun _ => finish h (Ok tt))))).

(** The labels are written into the answer of the first call, and the second call is
    made without them.

    src/internal/helm/client.go:834-865 UpdateReleaseLabels *)
Definition UpdateReleaseLabels (name ns : string) (labels : gmap string string) : prog (helm D) (answer unit) :=
  let? _ := createActionConfig ns in
  let? rel := wrapping "failed to get release" (call (GetRun name)) in
  let rel := {| hr_Status := hr_Status rel; hr_Labels := labels ∪ hr_Labels D rel; hr_Chart := hr_Chart rel; hr_Config := hr_Config rel;
                hr_Manifest := hr_Manifest rel |} in
  let a := mkUpgradeAction false "" false false false true true ∅ 0 in
  let? _ := wrapping "failed to update release labels" (call (UpgradeRun a name (hr_Chart rel) (hr_Config rel))) in
  Ret (Ok tt).
End client.

(** ** What the actions are run with *)

Section laws.
Context {D R : Type} (charts : gmap string (Chart R)) (AppVersion Commit targetNamespace : string).
#[local] Notation heap := (gmap nat (ChartMetadata D)).
#[local] Notation stamped_ := (stamped AppVersion Commit).

(** The metadata of a chart for these options. *)
Definition stamp (opts : InstallOptions) (m : ChartMetadata D) : ChartMetadata D :=
  let m := cloneMetadata m in
  with_Version (AppVersion +:+ "-" +:+ Commit) (if String.eqb (in_AppVersion opts) "" then m else with_AppVersion (in_AppVersion opts) m).

(** Only a new piece of memory is written. *)
Lemma stamped_spec opts (original : Chart R) (h : heap) :
  stamped_ opts original h =
    match metadata original h with
    | None => None
    | Some m => Some (<[fresh (dom h) := stamp opts m]> h, mkChart (Some (fresh (dom h))) (ch_rest original))
    end.
Proof.
  unfold stamped, cloneChart, metadata. destruct (ch_Metadata original ≫= (h !!.)) as [m|] eqn:E; cbn.
  - unfold stamp, write. cbn. destruct (String.eqb (in_AppVersion opts) ""); cbn; rewrite ?lookup_insert_eq; cbn;
      rewrite ?lookup_insert_eq; cbn; by rewrite ?insert_insert_eq.
  - destruct (String.eqb (in_AppVersion opts) ""); done.
Qed.

(** The action of an operation runs with the clone: the shared metadata, stamped. *)
Definition clone_of (name : string) (opts : InstallOptions) (h : heap) (m : option (ChartMetadata D)) : Prop :=
  exists original md, charts !! name = Some original /\ metadata original h = Some md /\ m = Some (stamp opts md).

(** What was in the memory stays, also when the action fails; the operation only
    panics for a chart without metadata. *)
Definition keeps_shared {A} (name : string) (h : heap) (r : ended D A) : Prop :=
  match r with
  | Finished h' _ => h ⊆ h'
  | Panicked => exists original, charts !! name = Some original /\ metadata original h = None
  end.

Lemma fresh_subseteq (h : heap) m : h ⊆ <[fresh (dom h) := m]> h.
Proof. apply insert_subseteq. apply not_elem_of_dom. apply is_fresh. Qed.

(** Every call is one that [ok] allows at the state the answers so far lead to. *)
Section guarded.
Context {S : Type} (ok : S -> forall X, helm D X -> Prop) (next : S -> forall X, helm D X -> X -> S).

Fixpoint guarded {A} (m : prog (helm D) A) (s : S) (Q : S -> A -> Prop) : Prop :=
  match m with
  | Ret r => Q s r
  | Vis e k => ok s _ e /\ forall x, guarded (k x) (next s _ e x) Q
  end.

Lemma guarded_mono {A} (m : prog (helm D) A) s (Q Q' : S -> A -> Prop) :
  guarded m s Q -> (forall s r, Q s r -> Q' s r) -> guarded m s Q'.
Proof.
  revert s. induction m as [r|X e k IH]; intros s; cbn; [by auto|]. intros [H1 H2] HQ. split; [done|]. intros x. by apply IH.
Qed.

Lemma guarded_bind {A B} (m : prog (helm D) A) (f : A -> prog (helm D) B) s (Q : S -> B -> Prop) :
  guarded m s (fun s a => guarded (f a) s Q) -> guarded (m ≫= f) s Q.
Proof. revert s. induction m as [r|X e k IH]; intros s; cbn; [done|]. intros [H1 H2]. split; [done|]. intros x. by apply IH. Qed.

Lemma guarded_chart {A} h name opts (f : heap -> Chart R -> prog (helm D) (ended D A)) s :
  (forall h' ch, h ⊆ h' -> clone_of name opts h (metadata ch h') -> guarded (f h' ch) s (fun _ r => keeps_shared name h r)) ->
  guarded (with_chart charts AppVersion Commit h name opts f) s (fun _ r => keeps_shared name h r).
Proof.
  intros Hf. unfold with_chart. destruct (charts !! name) as [original|] eqn:Ec; [|cbn; reflexivity]. rewrite stamped_spec.
  destruct (metadata original h) as [m|] eqn:Em; [|cbn; by exists original].
  apply Hf; [apply fresh_subseteq|]. exists original, m. split_and!; [done..|]. unfold metadata. cbn. by rewrite lookup_insert_eq.
Qed.

Lemma guarded_fail {A B} h0 name h (m : prog (helm D) (answer A)) (f : A -> prog (helm D) (ended D B)) s :
  h0 ⊆ h -> guarded m s (fun s r => match r with Ok a => guarded (f a) s (fun _ r => keeps_shared name h0 r) | Err _ => True end) ->
  guarded (or_fail h m f) s (fun _ r => keeps_shared name h0 r).
Proof.
  intros Hh H. unfold or_fail. apply guarded_bind. eapply guarded_mono; [exact H|]. intros s' [a|e] Ha; [exact Ha|exact Hh].
Qed.

Lemma guarded_init {A} h0 name h ns (f : unit -> prog (helm D) (ended D A)) s :
  h0 ⊆ h -> ok s _ (ActionInit ns) -> (forall x, guarded (f tt) (next s _ (ActionInit ns) x) (fun _ r => keeps_shared name h0 r)) ->
  guarded (or_fail h (createActionConfig ns) f) s (fun _ r => keeps_shared name h0 r).
Proof. intros Hh Ho Hf. apply guarded_fail; [done|]. cbn. split; [done|]. intros [[]|e]; cbn; [apply Hf|done]. Qed.
End guarded.

(** The calls of an installation or a rendering of [opts]: one run of the action, of
    the stamped chart with the values of [opts]. *)
Definition installing (dry : bool) (name : string) (opts : InstallOptions) (h : heap) (s : bool) X (e : helm D X) : Prop :=
  match e with
  | ActionInit ns => ns = targetNamespace
  | InstallRun a m values => s = false /\ ia_DryRun a = dry /\ ia_ReleaseName a = in_ReleaseName opts /\ values = in_Values opts /\ clone_of name opts h m
  | _ => False
  end.

Definition installed (s : bool) X (e : helm D X) (x : X) : bool := match e with InstallRun _ _ _ => true | _ => s end.

(** Installing runs Helm's action once, on the chart with the version of this
    provisioner and the application version that was asked for, and on the values it
    was given; the chart the client shares with other requests is not changed. *)
Theorem Install_stamped name opts h :
  guarded (installing false name opts h) installed (Install charts AppVersion Commit targetNamespace name opts h) false (fun _ r => keeps_shared name h r).
Proof.
  unfold Install. apply guarded_init; [done..|]. intros ?. apply guarded_chart. intros h' ch Hh Hc. apply guarded_fail; [done|].
  cbn. split; [by split_and!|]. intros [rel|e]; done.
Qed.

(** Rendering only ever runs the action dry. *)
Theorem Template_stamped name opts h :
  guarded (installing true name opts h) installed (Template charts AppVersion Commit targetNamespace name opts h) false (fun _ r => keeps_shared name h r).
Proof.
  unfold Template. apply guarded_init; [done..|]. intros ?. apply guarded_chart. intros h' ch Hh Hc. apply guarded_fail; [done|].
  cbn. split; [by split_and!|]. intros [rel|e]; done.
Qed.

(** The calls of an upgrade: a release is only replaced, or tried to be, after it was
    found with no other operation under way ([s]). *)
Definition upgrading (dry : bool) (opts : InstallOptions) (h : heap) (s : bool) X (e : helm D X) : Prop :=
  match e with
  | ActionInit ns => ns = targetNamespace
  | GetRun n => n = in_ReleaseName opts
  | UpgradeRun a n m values =>
      s = true /\ ua_DryRun a = dry /\ (dry = false -> ua_Atomic a = true /\ ua_CleanupOnFail a = true) /\
      n = in_ReleaseName opts /\ values = in_Values opts /\ clone_of (in_ChartName opts) opts h m
  | _ => False
  end.

Definition found (s : bool) X (e : helm D X) : X -> bool :=
  match e in helm _ X return X -> bool with
  | GetRun _ => fun r => match r with Ok rel => negb (pending rel) | Err _ => false end
  | UpgradeRun _ _ _ _ => fun _ => false
  | _ => fun _ => s
  end.

Lemma upgradable_found {A} dry opts (h : heap) s (f : unit -> prog (helm D) (ended D A)) :
  guarded (upgrading dry opts h) found (f tt) true (fun _ r => keeps_shared (in_ChartName opts) h r) ->
  guarded (upgrading dry opts h) found (or_fail h (upgradable (in_ReleaseName opts)) f) s (fun _ r => keeps_shared (in_ChartName opts) h r).
Proof.
  intros Hf. apply guarded_fail; [done|]. cbn. split; [done|]. intros [rel|e]; cbn; [by destruct (pending rel)|].
  by destruct (errors_is ErrReleaseNotFound e).
Qed.

(** An upgrade, which is atomic, and its trial at the client replace a release only
    when it exists and no operation is pending on it, once, and with the same chart
    and values. *)
Theorem Upgrade_checked opts h :
  guarded (upgrading false opts h) found (Upgrade charts AppVersion Commit targetNamespace opts h) false (fun _ r => keeps_shared (in_ChartName opts) h r) /\
  guarded (upgrading true opts h) found (CanUpgrade charts AppVersion Commit targetNamespace opts h) false (fun _ r => keeps_shared (in_ChartName opts) h r).
Proof.
  split; [unfold Upgrade|unfold CanUpgrade]; (apply guarded_init; [done..|]; intros ?; apply upgradable_found, guarded_chart;
    intros h' ch Hh Hc; apply guarded_fail; [done|]; cbn; split; [by split_and!|]; by intros [rel|e]).
Qed.

(** ** Where they go wrong *)

(** The labels that are to be set change no call: they are never set. *)
Theorem UpdateReleaseLabels_sets_none name ns labels :
  @UpdateReleaseLabels D name ns labels = UpdateReleaseLabels name ns ∅.
Proof. reflexivity. Qed.

(** The trial at the server runs without the versions an upgrade sets, and without
    looking for operations under way. *)
Theorem server_trial_unstamped opts h original md :
  charts !! in_ChartName opts = Some original -> metadata original h = Some md ->
  guarded (S := unit) (fun _ X e => match e with
                        | ActionInit _ => True
                        | UpgradeRun a _ m _ => ua_DryRunOption a = "server" /\ m = Some (cloneMetadata md)
                        | _ => False
                        end) (fun _ _ _ _ => tt)
    (CanUpgradeDryRunServer charts targetNamespace opts h) tt (fun _ r => keeps_shared (in_ChartName opts) h r).
Proof.
  intros Hc Hm. unfold CanUpgradeDryRunServer. apply guarded_init; [reflexivity|done|]. intros _. rewrite Hc. unfold cloneChart, metadata in *. rewrite Hm.
  apply guarded_fail; [apply fresh_subseteq|]. cbn. rewrite lookup_insert_eq. split; [done|]. intros [rel|e]; cbn; [apply fresh_subseteq|done].
Qed.

(** A clone has none of the dependencies its chart declares. *)
Theorem clone_drops_dependencies (m : ChartMetadata D) : cm_Dependencies (cloneMetadata m) = [].
Proof. by destruct m. Qed.
End laws.
