(* ===== verification/QuerySchema.v ===== *)
(** * The schemas of the queries

    The descriptors of internal/workspace/query.go and internal/blueprint/query.go:
    which fields may be queried, with which operators. They are served to clients
    by two handlers of internal/server and used to validate payloads; the matchers
    then interpret the conditions with tables of their own. The theorems relate
    the two: a payload that the descriptor admits is interpreted. The matcher
    that blueprint/query.go repeats is here too, equal to the engine of Query.v. *)

From S2P Require Import Prelude GoStrings PodState Workspaces Query Manager BlueprintQuery.

(** ** Descriptors *)

Record FieldDescriptor : Type := mkField { fd_Name : string; fd_Type : FieldType; fd_Operators : list Operator }.

Record Descriptor : Type := mkDescriptor {
  ds_Entity : string;
  ds_Fields : list FieldDescriptor;
  ds_DefaultSort : list Sort;
}.

Definition equality : list Operator := [OPERATOR_EQ; OPERATOR_NE; OPERATOR_IN].
Definition optional_text : list Operator := equality ++ [OPERATOR_EXISTS].
Definition ordering : list Operator :=
  [OPERATOR_EQ; OPERATOR_NE; OPERATOR_GT; OPERATOR_GTE; OPERATOR_LT; OPERATOR_LTE].

(** src/internal/workspace/query.go:30-108 WorkspacesQueryDescriptor *)
Definition WorkspacesQueryDescriptor : Descriptor :=
  {| ds_Entity := "workspaces";
     ds_Fields :=
       [mkField "name" FIELD_TYPE_STRING equality;
        mkField "username" FIELD_TYPE_STRING equality;
        mkField "organization" FIELD_TYPE_STRING equality;
        mkField "blueprint" FIELD_TYPE_STRING equality;
        mkField "origin" FIELD_TYPE_STRING equality;
        mkField "namespace" FIELD_TYPE_STRING equality;
        mkField "status" FIELD_TYPE_STRING equality;
        mkField "repo_owner" FIELD_TYPE_STRING optional_text;
        mkField "repo_name" FIELD_TYPE_STRING optional_text;
        mkField "repo_ref" FIELD_TYPE_STRING optional_text;
        mkField "workspace_type" FIELD_TYPE_STRING equality;
        mkField "runtime" FIELD_TYPE_STRING optional_text;
        mkField "workload_kind" FIELD_TYPE_STRING optional_text;
        mkField "workload_name" FIELD_TYPE_STRING optional_text;
        mkField "network_policy_class" FIELD_TYPE_STRING optional_text;
        mkField "web_proxy_port" FIELD_TYPE_STRING optional_text;
        mkField "cpu" FIELD_TYPE_STRING ordering;
        mkField "memory" FIELD_TYPE_STRING ordering;
        mkField "created" FIELD_TYPE_DATETIME ordering;
        mkField "blueprint_revision" FIELD_TYPE_STRING optional_text;
        mkField "blueprint_outdated" FIELD_TYPE_BOOLEAN [OPERATOR_EQ; OPERATOR_NE; OPERATOR_EXISTS]];
     ds_DefaultSort := [mkSort "name" false] |}.

(** src/internal/blueprint/query.go:30-54 BlueprintsQueryDescriptor *)
Definition BlueprintsQueryDescriptor : Descriptor :=
  {| ds_Entity := "blueprints";
     ds_Fields :=
       [mkField "name" FIELD_TYPE_STRING equality;
        mkField "org" FIELD_TYPE_STRING equality;
        mkField "global" FIELD_TYPE_BOOLEAN [OPERATOR_EQ; OPERATOR_NE];
        mkField "created" FIELD_TYPE_DATETIME ordering;
        mkField "updated" FIELD_TYPE_DATETIME ordering;
        mkField "revision" FIELD_TYPE_STRING optional_text];
     ds_DefaultSort := [mkSort "name" false] |}.

(** src/internal/server/find.go:181-184 GetWorkspacesQuerySchema *)
Definition GetWorkspacesQuerySchema : Descriptor := WorkspacesQueryDescriptor.

Definition described (d : Descriptor) (name : string) : option FieldDescriptor :=
  List.find (fun f => String.eqb (fd_Name f) name) (ds_Fields d).

(** The types the matchers look up: those of the descriptor. *)
Lemma workspaceFieldType_described name f :
  described WorkspacesQueryDescriptor name = Some f -> workspaceFieldType name = fd_Type f.
Proof.
  intros [Hin He]%List.find_some. apply String.eqb_eq in He as <-.
  cbn in Hin. repeat (destruct Hin as [<-|Hin]; [reflexivity|]). done.
Qed.

Lemma blueprintFieldType_described name f :
  described BlueprintsQueryDescriptor name = Some f -> blueprintFieldType name = fd_Type f.
Proof.
  intros [Hin He]%List.find_some. apply String.eqb_eq in He as <-.
  cbn in Hin. repeat (destruct Hin as [<-|Hin]; [reflexivity|]). done.
Qed.

(** ** What the validation admits *)

Section admitted.
(** [query.ParseValue] of a date. *)
Variable parse_datetime : string -> option Z.

(** A value of a field's type, as query.v1 parses it; any string is a STRING. *)
Definition value_ok (t : FieldType) (v : string) : bool :=
  match t with
  | FIELD_TYPE_STRING => true
  | FIELD_TYPE_BOOLEAN => match parse_bool v with Some _ => true | None => false end
  | FIELD_TYPE_DATETIME => match parse_datetime v with Some _ => true | None => false end
  end.

(** A condition on a described field, with one of its operators and values of its
    type, exactly one but for IN and EXISTS. *)
Definition condition_ok (d : Descriptor) (c : Condition) : bool :=
  match described d (q_Field c) with
  | None => false
  | Some f =>
      bool_decide (q_Op c ∈ fd_Operators f) &&
      match q_Op c with
      | OPERATOR_EXISTS => true
      | OPERATOR_IN => forallb (value_ok (fd_Type f)) (q_Values c)
      | _ => match q_Values c with [v] => value_ok (fd_Type f) v | _ => false end
      end
  end.

Definition admits (d : Descriptor) (payload : Payload) : bool :=
  forallb (condition_ok d) (q_Conditions (q_Filters payload)) &&
  forallb (fun s => match described d (s_Field s) with Some _ => true | None => false end) (q_Sort payload).
End admitted.

(** ** The matchers interpret what is admitted *)

Section interpreted.
Context (ToLower : string -> string) (EqualFold : string -> string -> bool).
Context (parse_rfc3339 parse_datetime : string -> option Z) (quantityToFloat : string -> option Z).
Context {R : Type}.
Variable fieldValues : string -> option (R -> string * bool).
Variable fieldType : string -> FieldType.
Variable quantityFields : string -> bool.
Variable d : Descriptor.
(** The rows that are matched. *)
Variable among : R -> Prop.

(** What a table of fields owes to a descriptor: an entry for each described
    field, whose values have the type that is described; the ordering operators
    only where there is an order. *)
Record implements : Prop := {
  imp_extract : forall name f, described d name = Some f -> is_Some (fieldValues name);
  imp_type : forall name f, described d name = Some f -> fieldType name = fd_Type f;
  imp_datetime : forall name f extract r, described d name = Some f -> fd_Type f = FIELD_TYPE_DATETIME ->
    fieldValues name = Some extract -> among r -> (extract r).2 = true -> is_Some (parse_rfc3339 (extract r).1);
  imp_boolean : forall name f extract r, described d name = Some f -> fd_Type f = FIELD_TYPE_BOOLEAN ->
    fieldValues name = Some extract -> among r -> (extract r).2 = true -> is_Some (parse_bool (extract r).1);
  imp_ordered : forall name f op, described d name = Some f -> op ∈ fd_Operators f ->
    op ∈ [OPERATOR_GT; OPERATOR_GTE; OPERATOR_LT; OPERATOR_LTE] ->
    quantityFields name = true \/ fd_Type f = FIELD_TYPE_DATETIME;
  imp_specified : forall name f, described d name = Some f -> OPERATOR_UNSPECIFIED ∉ fd_Operators f;
  imp_quantity : forall name f, described d name = Some f -> quantityFields name = true -> fd_Type f = FIELD_TYPE_STRING;
}.

Hypothesis Himp : implements.

(** What a condition can still report of a row: a value that it compares as a
    quantity and that is not one, its own or the field's. *)
Definition quantity_error (r : R) (c : Condition) (e : query_error) : Prop :=
  exists v, e = InvalidQuantity v /\ quantityFields (q_Field c) = true /\ quantityToFloat v = None /\
    (q_Values c = [v] \/ exists extract, fieldValues (q_Field c) = Some extract /\ extract r = (v, true)).

Definition compared : list Operator := [OPERATOR_EQ; OPERATOR_GT; OPERATOR_GTE; OPERATOR_LT; OPERATOR_LTE].

Lemma compare_op_ordered op a b e : compare_op op a b = Err e -> op ∉ compared.
Proof. destruct op; cbn; try done; intros _; set_solver. Qed.

Lemma matchesQuantity_behaved c extract r op raw e :
  quantityFields (q_Field c) = true -> fieldValues (q_Field c) = Some extract -> (extract r).2 = true ->
  q_Values c = [raw] -> op ∈ compared ->
  matchesQuantity quantityToFloat (extract r).1 op raw = Err e -> quantity_error r c e.
Proof.
  intros Hq He Hp Hv Hop. unfold matchesQuantity.
  destruct (quantityToFloat (extract r).1) eqn:E1.
  - destruct (quantityToFloat raw) eqn:E2; [by intros Hc%compare_op_ordered|]. intros [= <-]. exists raw. eauto.
  - intros [= <-]. exists (extract r).1. repeat split; try done. right. exists extract.
    split; [done|]. rewrite <- Hp. by destruct (extract r).
Qed.

Lemma matchesDatetime_behaved name f extract r op raw e :
  described d name = Some f -> fd_Type f = FIELD_TYPE_DATETIME -> fieldValues name = Some extract ->
  among r -> (extract r).2 = true -> value_ok parse_datetime FIELD_TYPE_DATETIME raw = true -> op ∈ compared ->
  matchesDatetime parse_rfc3339 parse_datetime (extract r).1 op raw <> Err e.
Proof.
  intros Hd Ht He Hr Hp Hv Hop. destruct (imp_datetime Himp name f extract r Hd Ht He Hr Hp) as [t E].
  unfold matchesDatetime. rewrite E. cbn in Hv. destruct (parse_datetime raw); [|done].
  by intros Hc%compare_op_ordered.
Qed.

Lemma matchesBoolean_behaved name f extract r raw e :
  described d name = Some f -> fd_Type f = FIELD_TYPE_BOOLEAN -> fieldValues name = Some extract ->
  among r -> (extract r).2 = true -> value_ok parse_datetime FIELD_TYPE_BOOLEAN raw = true ->
  matchesBoolean (extract r).1 raw <> Err e.
Proof.
  intros Hd Ht He Hr Hp Hv. destruct (imp_boolean Himp name f extract r Hd Ht He Hr Hp) as [t E].
  unfold matchesBoolean. rewrite E. cbn in Hv. by destruct (parse_bool raw).
Qed.

Lemma matches_eq_behaved c f extract r v e :
  described d (q_Field c) = Some f -> q_Values c = [v] -> value_ok parse_datetime (fd_Type f) v = true ->
  fieldValues (q_Field c) = Some extract -> among r -> (extract r).2 = true ->
  matches_eq ToLower parse_rfc3339 parse_datetime quantityToFloat fieldType quantityFields c (extract r).1 = Err e ->
  quantity_error r c e.
Proof.
  intros Hd Hv Hok He Hr Hp. unfold matches_eq, first_value. rewrite Hv, (imp_type Himp _ f Hd).
  destruct (fd_Type f) eqn:Et.
  - destruct (quantityFields (q_Field c)) eqn:Eq; [|done]. eapply matchesQuantity_behaved; try done. set_solver.
  - intros Hm. by destruct (matchesBoolean_behaved _ f extract r v e Hd Et He Hr Hp Hok).
  - intros Hm. by destruct (matchesDatetime_behaved _ f extract r OPERATOR_EQ v e Hd Et He Hr Hp Hok); [set_solver|].
Qed.

(** An admitted condition is interpreted: the matcher knows its field, supports
    its operator there and has its value. *)
Lemma matchesCondition_behaved r c e :
  condition_ok parse_datetime d c = true -> among r ->
  matchesCondition ToLower EqualFold parse_rfc3339 parse_datetime quantityToFloat fieldValues fieldType quantityFields r c
    = Err e -> quantity_error r c e.
Proof.
  unfold condition_ok. destruct (described d (q_Field c)) as [f|] eqn:Hd; [|done].
  intros [Hop%bool_decide_eq_true Hv]%andb_true_iff Hr. unfold matchesCondition.
  destruct (imp_extract Himp _ f Hd) as [extract He]. rewrite He.
  destruct (extract r) as [value present] eqn:Er.
  assert (Hval : present = true -> (extract r).1 = value /\ (extract r).2 = true) by (intros ->; by rewrite Er).
  destruct (q_Op c) eqn:Eop; try done; destruct present; try done;
    try (destruct (q_Values c) as [|v [|]] eqn:Ev; try done; destruct (Hval eq_refl) as [<- Hp]).
  1: by eapply matches_eq_behaved.
  1: { destruct (matches_eq _ _ _ _ _ _ _ _) as [|e'] eqn:Em; [done|]. intros [= <-]. by eapply matches_eq_behaved. }
  1-4: unfold first_value; rewrite Ev;
    destruct (quantityFields (q_Field c)) eqn:Eq; [eapply matchesQuantity_behaved; try done; set_solver|];
    destruct (imp_ordered Himp _ f _ Hd Hop ltac:(set_solver)) as [Hq|Ht]; [congruence|];
    rewrite Ht in Hv; intros Hm;
    match type of Hm with matchesDatetime _ _ _ ?op _ = _ =>
      by destruct (matchesDatetime_behaved _ f extract r op v e Hd Ht He Hr Hp Hv); [set_solver|] end.
  1-2: by destruct (imp_specified Himp _ f Hd).
Qed.

Lemma match_all_behaved or r conditions e :
  forallb (condition_ok parse_datetime d) conditions = true -> among r ->
  match_all ToLower EqualFold parse_rfc3339 parse_datetime quantityToFloat fieldValues fieldType quantityFields or r conditions
    = Err e -> exists c, c ∈ conditions /\ quantity_error r c e.
Proof.
  induction conditions as [|c conditions IH]; [done|]. cbn. intros [Hc Hcs]%andb_true_iff Hr.
  destruct (matchesCondition _ _ _ _ _ _ _ _ r c) as [m|e'] eqn:Em.
  - repeat (case_goal; [done|]). intros Hm. destruct (IH Hcs Hr Hm) as (c' & ? & ?). exists c'. set_solver.
  - intros [= <-]. exists c. split; [set_solver|]. by eapply matchesCondition_behaved.
Qed.

Lemma matchesFilters_behaved r payload e :
  admits parse_datetime d payload = true -> among r ->
  matchesFilters ToLower EqualFold parse_rfc3339 parse_datetime quantityToFloat fieldValues fieldType quantityFields r
    (q_Filters payload) = Err e -> exists c, c ∈ q_Conditions (q_Filters payload) /\ quantity_error r c e.
Proof.
  intros [Hc _]%andb_true_iff Hr. unfold matchesFilters. destruct (q_Conditions (q_Filters payload)) eqn:E; [done|].
  by apply match_all_behaved.
Qed.

Lemma filter_matching_behaved keep payload l e :
  admits parse_datetime d payload = true -> (forall r, r ∈ l -> among r) ->
  filter_matching ToLower EqualFold parse_rfc3339 parse_datetime quantityToFloat fieldValues fieldType quantityFields
    keep (q_Filters payload) l = Err e ->
  exists r c, r ∈ l /\ c ∈ q_Conditions (q_Filters payload) /\ quantity_error r c e.
Proof.
  intros Ha. induction l as [|r l IH]; cbn; [done|]. intros Hl.
  assert (Hrest : forall x, x ∈ l -> among x) by (intros x Hx; apply Hl; set_solver).
  assert (Hr : among r) by (apply Hl; set_solver).
  destruct (keep r); [|intros Hm; destruct (IH Hrest Hm) as (r' & c & ? & ?); exists r', c; set_solver].
  destruct (matchesFilters _ _ _ _ _ _ _ _ r _) as [m|e'] eqn:Em.
  - destruct (filter_matching _ _ _ _ _ _ _ _ _ _ l) as [|e'] eqn:El; [by destruct m|]. intros [= <-].
    destruct (IH Hrest eq_refl) as (r' & c & ? & ?). exists r', c. set_solver.
  - intros [= <-]. apply matchesFilters_behaved in Em as (c & ? & ?); [|done..]. exists r, c. set_solver.
Qed.
End interpreted.

(** ** Workspaces and blueprints *)

(** Goals about the concrete tables: one case per described field. *)
Ltac each_field :=
  let Hd := fresh "Hd" in intros name f; intros *; intros Hd;
  let Hin := fresh "Hin" in let He := fresh "He" in
  destruct (List.find_some _ _ Hd) as [Hin He]; apply String.eqb_eq in He; subst name; cbn in Hin; clear Hd;
  repeat (destruct Hin as [<-|Hin]; [cbn; intros; simplify_eq; try done|]); [..|done].

Lemma parse_bool_format (b : bool) : is_Some (parse_bool (if b then "true" else "false")).
Proof. by destruct b. Qed.

Section workspaces.
Context (parse_rfc3339 parse_datetime : string -> option Z) (format_rfc3339 : Z -> string).
Context (status_text : WorkspaceStatusMessage -> string) (type_text : WorkspaceType -> string).

(** A time that is written in a form that is read back; 0 is the time that is not set. *)
Definition readable (t : Z) : Prop := t <> 0%Z -> is_Some (parse_rfc3339 (format_rfc3339 t)).

Lemma workspaces_implement :
  implements parse_rfc3339 (workspaceFieldValues format_rfc3339 status_text type_text)
    workspaceFieldType quantityFields WorkspacesQueryDescriptor (fun w => readable (ws_Created w)).
Proof.
  split.
  - each_field.
  - each_field.
  - each_field. destruct (ws_Created r =? 0)%Z eqn:E; [done|]. apply Z.eqb_neq in E. auto.
  - each_field. destruct (ws_Outdated r); [apply parse_bool_format|done].
  - each_field; try (by left); try (by right); exfalso; unfold optional_text, equality in *; set_solver.
  - each_field; set_solver.
  - each_field.
Qed.

Lemma blueprints_implement :
  implements parse_rfc3339 (blueprintFieldValues format_rfc3339) blueprintFieldType no_quantity
    BlueprintsQueryDescriptor (fun b => readable (bs_CreatedAt b) /\ readable (bs_UpdatedAt b)).
Proof.
  split.
  - each_field.
  - each_field.
  - each_field; case_match eqn:E; try done; apply Z.eqb_neq in E; naive_solver.
  - each_field. apply parse_bool_format.
  - each_field; try (by right); exfalso; unfold optional_text, equality in *; set_solver.
  - each_field; set_solver.
  - each_field.
Qed.

(** Marking changes neither the details of a workspace nor its time. *)
Lemma MarkBlueprintOutdated_found current l w :
  w ∈ MarkBlueprintOutdated current l ->
  exists w', w' ∈ l /\ ws_Details w = ws_Details w' /\ ws_Created w = ws_Created w'.
Proof.
  unfold MarkBlueprintOutdated. destruct current as [current|]; [|eauto].
  rewrite mark_all_spec by (intros k rev; by rewrite lookup_empty).
  intros (w' & -> & Hw')%list_elem_of_fmap. exists w'. unfold outdated_spec, mark_outdated. destruct (_ || _); [done|]. cbn. by repeat case_match.
Qed.
End workspaces.

(** The text of a workspace that a condition on cpu or on memory is compared with. *)
Definition quantity_of (name : string) (w : Workspace) : option string :=
  if String.eqb name "cpu" then Some (w_CPU (ws_Details w))
  else if String.eqb name "memory" then Some (w_Memory (ws_Details w))
  else None.

(** The errors of a query of a valid payload: what the identity service answers to
    the roles of the obligations, what the lookup answers, and a text that is not
    a quantity, of a condition on cpu or on memory: its value, or the cpu or the
    memory of a workspace that the lookup found. *)
Definition query_reports (quantityToFloat : string -> option Z)
    (roleUsernames : option (list string -> result query_error (list string)))
    (lookup : GetWorkspacesOptions -> result lookup_error (list found))
    (payload : Payload) (ob : Obligations) (e : query_error) : Prop :=
  (exists roles, obl_Roles ob = Some roles /\ roles <> [] /\
     match roleUsernames with None => e = NoIdentityClient | Some f => f roles = Err e end) \/
  (exists opts g, lookup opts = Err g /\ e = LookupFailed g) \/
  (exists c v, c ∈ q_Conditions (q_Filters payload) /\ e = InvalidQuantity v /\ quantityToFloat v = None /\
     ((q_Field c = "cpu" \/ q_Field c = "memory") /\ q_Values c = [v] \/
      exists opts fs f, lookup opts = Ok fs /\ f ∈ fs /\ quantity_of (q_Field c) f.1 = Some v)).

Lemma quantity_error_of format_rfc3339 quantityToFloat status_text type_text r c e :
  quantity_error quantityToFloat (workspaceFieldValues format_rfc3339 status_text type_text) quantityFields r c e ->
  exists v, e = InvalidQuantity v /\ quantityToFloat v = None /\
    ((q_Field c = "cpu" \/ q_Field c = "memory") /\ q_Values c = [v] \/ quantity_of (q_Field c) r = Some v).
Proof.
  intros (v & -> & [Hf%String.eqb_eq|Hf%String.eqb_eq]%orb_true_iff & Hn & Hv);
    exists v; (split; [done|]); (split; [done|]); rewrite Hf in *;
    (destruct Hv as [Hv|(extract & [= <-] & [= Hv _])]; [left; auto|right; cbn; by rewrite Hv]).
Qed.

(** C27. A query of workspaces whose payload is valid under the descriptor that
    clients are served (GetWorkspacesQuerySchema) is interpreted: it is answered,
    or it fails with one of three errors, no other. The identity service is
    missing or fails on the roles of the obligations; the lookup of the
    workspaces fails; or a text that is no Kubernetes quantity is compared by a
    condition on cpu or on memory, either the one value of that condition or the
    cpu or memory text of a workspace that the lookup found. In particular an
    unknown field, an operator that is not supported, a date or a boolean that
    does not parse and a missing value are never reported. It is assumed that
    the validation admits only described fields with their operators and values
    that parse, and that the creation times of the workspaces that the lookup
    finds, where set, parse as they are formatted. *)
Theorem QueryWorkspaces_interprets ToLower EqualFold parse_rfc3339 parse_datetime format_rfc3339 quantityToFloat
    status_text type_text valid roleUsernames lookup currentRevision payload ob nss e :
  (forall opts fs f, lookup opts = Ok fs -> f ∈ fs -> readable parse_rfc3339 format_rfc3339 (ws_Created f.1)) ->
  (forall p, valid p = true -> admits parse_datetime GetWorkspacesQuerySchema p = true) ->
  QueryWorkspaces ToLower EqualFold parse_rfc3339 parse_datetime format_rfc3339 quantityToFloat status_text type_text
    valid roleUsernames lookup currentRevision payload ob nss = Err e ->
  valid payload = true -> query_reports quantityToFloat roleUsernames lookup payload ob e.
Proof.
  intros Hf Hvalid Hq Hv. unfold QueryWorkspaces in Hq. rewrite Hv in Hq. cbn [negb] in Hq.
  destruct (resolveObligationScope EqualFold roleUsernames ob) as [scope|e'] eqn:Er.
  - assert (Hm : forall keep opts fs, lookup opts = Ok fs ->
        filter_matching ToLower EqualFold parse_rfc3339 parse_datetime quantityToFloat
          (workspaceFieldValues format_rfc3339 status_text type_text) workspaceFieldType quantityFields
          keep (q_Filters payload) (MarkBlueprintOutdated currentRevision (fst <$> fs)) = Err e ->
        query_reports quantityToFloat roleUsernames lookup payload ob e).
    { intros keep opts fs Hl Hm. eapply filter_matching_behaved in Hm as (r & c & Hr & Hc & Hq');
        [|by apply workspaces_implement|by apply Hvalid|].
      - apply MarkBlueprintOutdated_found in Hr as (w & Hw & Hd & _). apply list_elem_of_fmap in Hw as (f & -> & Hfs).
        apply quantity_error_of in Hq' as (v & -> & Hn & Hv'). right; right. exists c, v. do 3 (split; [done|]).
        destruct Hv' as [|Hv']; [by left|right]. exists opts, fs, f. split; [done|]. split; [done|].
        unfold quantity_of in *. by rewrite <- Hd.
      - intros w (w' & Hw & _ & Ht)%MarkBlueprintOutdated_found. apply list_elem_of_fmap in Hw as (f & -> & Hfs).
        cbn. rewrite Ht. by eapply Hf. }
    destruct (sc_usernames scope) as [[|]|]; [done|..];
      (destruct (lookup _) as [fs|g] eqn:El; [|injection Hq as <-; right; left; eauto]);
      (destruct (filter_matching _ _ _ _ _ _ _ _ _ _ _) eqn:Em; [done|]; injection Hq as ->; by eapply Hm).
  - injection Hq as ->. left. revert Er. unfold resolveObligationScope.
    destruct (obl_Roles ob) as [[|role roles]|]; try done. intros Er. exists (role :: roles). do 2 (split; [done|]).
    destruct roleUsernames as [f|]; [|by injection Er]. by destruct (f _); [|injection Er as ->].
Qed.

(** A query of blueprints whose payload is valid under their descriptor has no
    error of its own at all, where the times of the listed blueprints are read
    back as they are written. *)
Theorem QueryBlueprints_interprets ToLower EqualFold parse_rfc3339 parse_datetime format_rfc3339
    valid summaries payload org e :
  (forall l b, summaries = Ok l -> b ∈ l ->
     readable parse_rfc3339 format_rfc3339 (bs_CreatedAt b) /\ readable parse_rfc3339 format_rfc3339 (bs_UpdatedAt b)) ->
  (forall p, valid p = true -> admits parse_datetime BlueprintsQueryDescriptor p = true) ->
  valid payload = true ->
  QueryBlueprints ToLower EqualFold parse_rfc3339 parse_datetime format_rfc3339 valid summaries payload org = Err e ->
  exists g, summaries = Err g /\ e = SummaryFailed g.
Proof.
  intros Hf Hvalid Hv Hq. unfold QueryBlueprints in Hq. rewrite Hv in Hq. cbn [negb] in Hq.
  destruct summaries as [listed|g]; [|injection Hq as <-; by exists g].
  destruct (filter_matching _ _ _ _ _ _ _ _ _ _ listed) as [|e'] eqn:El; [done|].
  eapply filter_matching_behaved in El as (r & c & _ & _ & v & _ & Hc & _);
    [done|by apply blueprints_implement|by apply Hvalid|]. intros b Hb. by apply (Hf listed).
Qed.

(** ** The matcher of the blueprints' own file *)

(** src/internal/blueprint/query.go:304-330 blueprintGlobMatchLower *)
Fixpoint blueprintGlobMatchLower (pattern value : string) : bool :=
  match pattern with
  | EmptyString => String.eqb value ""
  | String c pattern' =>
      if Ascii.eqb c (Ascii.ascii_of_nat 42) then
        if String.eqb pattern' "" then true
        else (fix suffixes (value : string) : bool :=
                blueprintGlobMatchLower pattern' value ||
                match value with EmptyString => false | String _ value => suffixes value end) value
      else if Ascii.eqb c (Ascii.ascii_of_nat 63) then
        match value with EmptyString => false | String _ value' => blueprintGlobMatchLower pattern' value' end
      else
        match value with
        | EmptyString => false
        | String d value' => Ascii.eqb d c && blueprintGlobMatchLower pattern' value'
        end
  end.

Section own_matcher.
Context (ToLower : string -> string) (EqualFold : string -> string -> bool).
Context (parse_rfc3339 parse_datetime : string -> option Z) (format_rfc3339 : Z -> string).

(** src/internal/blueprint/query.go:300-302 blueprintGlobMatch *)
Definition blueprintGlobMatch (pattern value : string) : bool := blueprintGlobMatchLower (ToLower pattern) (ToLower value).

(** src/internal/blueprint/query.go:258-283 matchesBlueprintDatetime *)
Definition matchesBlueprintDatetime (fieldValue : string) (op : Operator) (raw : string) : result query_error bool :=
  match parse_rfc3339 fieldValue with
  | None => Err (InvalidDatetime fieldValue)
  | Some fieldTime =>
      match parse_datetime raw with
      | None => Err (InvalidDatetime raw)
      | Some condTime =>
          match op with
          | OPERATOR_EQ => Ok (fieldTime =? condTime)%Z
          | OPERATOR_GT => Ok (condTime <? fieldTime)%Z
          | OPERATOR_GTE => Ok ((condTime <? fieldTime) || (fieldTime =? condTime))%Z
          | OPERATOR_LT => Ok (fieldTime <? condTime)%Z
          | OPERATOR_LTE => Ok ((fieldTime <? condTime) || (fieldTime =? condTime))%Z
          | _ => Err (UnsupportedOperator op)
          end
      end
  end.

(** src/internal/blueprint/query.go:285-295 matchesBlueprintBoolean *)
Definition matchesBlueprintBoolean (fieldValue raw : string) : result query_error bool :=
  match parse_bool fieldValue with
  | None => Err (InvalidBoolean fieldValue)
  | Some fv => match parse_bool raw with None => Err (InvalidBoolean raw) | Some cv => Ok (Bool.eqb fv cv) end
  end.

(** What the code writes for one condition.

    src/internal/blueprint/query.go:198-256 matchesBlueprintCondition *)
Definition own_matchesBlueprintCondition (b : BlueprintSummary) (c : Condition) : result query_error bool :=
  match blueprintFieldValues format_rfc3339 (q_Field c) with
  | None => Err (UnknownField (q_Field c))
  | Some extract =>
      let '(value, present) := extract b in
      let eq :=
        if present then
          match first_value c with
          | Err e => Err e
          | Ok v =>
              match blueprintFieldType (q_Field c) with
              | FIELD_TYPE_DATETIME => matchesBlueprintDatetime value OPERATOR_EQ v
              | FIELD_TYPE_BOOLEAN => matchesBlueprintBoolean value v
              | FIELD_TYPE_STRING => Ok (blueprintGlobMatch v value)
              end
          end
        else Ok false in
      match q_Op c with
      | OPERATOR_EXISTS =>
          let want := match q_Values c with [v] => String.eqb v "true" | _ => true end in
          Ok (Bool.eqb present want)
      | OPERATOR_EQ => eq
      | OPERATOR_NE => negb <$> eq
      | OPERATOR_IN => if present then Ok (existsb (fun v => EqualFold v value) (q_Values c)) else Ok false
      | OPERATOR_GT | OPERATOR_GTE | OPERATOR_LT | OPERATOR_LTE =>
          if present then
            match first_value c with Err e => Err e | Ok v => matchesBlueprintDatetime value (q_Op c) v end
          else Ok false
      | OPERATOR_UNSPECIFIED => Err (UnsupportedOperator (q_Op c))
      end
  end.

(** src/internal/blueprint/query.go:356-372 pageBlueprints *)
Definition pageBlueprints (l : list BlueprintSummary) (page : option Page) : list BlueprintSummary :=
  match page with
  | None => l
  | Some page =>
      let offset := if (pg_Offset page <? 0)%Z then 0%Z else pg_Offset page in
      let len := Z.of_nat (length l) in
      if (len <? offset)%Z then []
      else
        let limit := pg_Limit page in
        let end_ := if (0 <? limit)%Z && (offset + limit <? len)%Z then (offset + limit)%Z else len in
        take (Z.to_nat (end_ - offset)) (drop (Z.to_nat offset) l)
  end.

(** The same recursion. *)
Lemma blueprintGlobMatchLower_eq pattern value : blueprintGlobMatchLower pattern value = globMatchLower pattern value.
Proof. reflexivity. Qed.

Lemma matchesBlueprintDatetime_eq v op raw :
  matchesBlueprintDatetime v op raw = matchesDatetime parse_rfc3339 parse_datetime v op raw.
Proof.
  unfold matchesBlueprintDatetime, matchesDatetime. destruct (parse_rfc3339 v); [|done]. destruct (parse_datetime raw); [|done].
  destruct op; cbn; try done;
    f_equal; apply Bool.eq_iff_eq_true; rewrite ?orb_true_iff, ?Z.ltb_lt, ?Z.leb_le, ?Z.eqb_eq; lia.
Qed.
End own_matcher.

(** The matcher and the paging that blueprint/query.go repeats are those of the
    workspace queries, on every blueprint, condition and page. *)
Theorem own_matcher_agrees ToLower EqualFold parse_rfc3339 parse_datetime format_rfc3339 b c l page :
  own_matchesBlueprintCondition ToLower EqualFold parse_rfc3339 parse_datetime format_rfc3339 b c =
    matchesBlueprintCondition ToLower EqualFold parse_rfc3339 parse_datetime format_rfc3339 b c /\
  pageBlueprints l page = page_list l page.
Proof.
  split.
  - unfold own_matchesBlueprintCondition, matchesBlueprintCondition, matchesCondition, matches_eq, no_quantity,
      blueprintGlobMatch, globMatch, matchesBlueprintBoolean, matchesBoolean.
    destruct (blueprintFieldValues _ _) as [extract|]; [|done]. destruct (extract b) as [value present].
    destruct (q_Op c); try done; destruct present; try done; destruct (first_value c); try done;
      rewrite ?matchesBlueprintDatetime_eq, ?blueprintGlobMatchLower_eq; done.
  - unfold pageBlueprints, page_list. destruct page as [page|]; [|done].
    replace (if (pg_Offset page <? 0)%Z then 0%Z else pg_Offset page) with (Z.max 0 (pg_Offset page))
      by (destruct (Z.ltb_spec (pg_Offset page) 0); lia).
    done.
Qed.

Module SchemaSample.
Definition instant (_ : string) : option Z := Some 0%Z.
Definition no_quantities (_ : string) : option Z := None.
Definition no_status (_ : WorkspaceStatusMessage) : string := "".
Definition no_type (_ : WorkspaceType) : string := "".
Definition with_cpu (cpu : string) (w : Workspace) : Workspace :=
  let d := ws_Details w in
  mkWorkspace
    (mkDetails (w_Name d) (w_Username d) "" "" "" "" "" (w_Organization d) "" "" "" 0 false "" cpu "" "" "" "" "" 0 "" ""
       (w_WorkspaceType d) "" ∅ "" "" "") (ws_Created w) (ws_Status w) (ws_Message w) (ws_Outdated w).
Definition lookup (_ : GetWorkspacesOptions) : result lookup_error (list found) :=
  Ok ((fun f => (with_cpu "2" f.1, f.2)) <$> demo_all).
Definition payload : Payload := mkPayload (mkFilters false [mkCondition "cpu" OPERATOR_GTE ["two"]]) [mkSort "name" true] None.
Definition blueprints_payload : Payload :=
  mkPayload (mkFilters false [mkCondition "created" OPERATOR_GT ["2024-01-01"]]) [mkSort "name" true] None.
Definition query : result query_error (list Workspace) :=
  QueryWorkspaces fold_case fold_eq instant instant no_text no_quantities no_status no_type
    (admits instant WorkspacesQueryDescriptor) None lookup None payload (mkObligations None None None) [].
End SchemaSample.

Lemma QueryWorkspaces_interprets_witness :
  SchemaSample.query = Err (InvalidQuantity "2") /\
  query_reports SchemaSample.no_quantities None SchemaSample.lookup SchemaSample.payload (mkObligations None None None)
    (InvalidQuantity "2").
Proof.
  assert (Hq : SchemaSample.query = Err (InvalidQuantity "2")) by (vm_compute; reflexivity).
  assert (Hv : admits SchemaSample.instant WorkspacesQueryDescriptor SchemaSample.payload = true) by (vm_compute; reflexivity).
  split; [exact Hq|].
  refine (QueryWorkspaces_interprets fold_case fold_eq SchemaSample.instant SchemaSample.instant no_text
    SchemaSample.no_quantities SchemaSample.no_status SchemaSample.no_type
    (admits SchemaSample.instant WorkspacesQueryDescriptor) None SchemaSample.lookup None SchemaSample.payload
    (mkObligations None None None) [] (InvalidQuantity "2") _ _ Hq Hv).
  - intros opts fs f _ _ _. exists 0%Z. reflexivity.
  - intros p Hp. exact Hp.
Defined.

Lemma QueryBlueprints_interprets_witness :
  admits SchemaSample.instant BlueprintsQueryDescriptor SchemaSample.blueprints_payload = true /\
  forall e, QueryBlueprints fold_case fold_eq SchemaSample.instant SchemaSample.instant no_text
    (admits SchemaSample.instant BlueprintsQueryDescriptor) (Ok demo_blueprints) SchemaSample.blueprints_payload None <> Err e.
Proof.
  assert (Hv : admits SchemaSample.instant BlueprintsQueryDescriptor SchemaSample.blueprints_payload = true)
    by (vm_compute; reflexivity).
  split; [exact Hv|]. intros e He.
  destruct (QueryBlueprints_interprets fold_case fold_eq SchemaSample.instant SchemaSample.instant no_text
    (admits SchemaSample.instant BlueprintsQueryDescriptor) (Ok demo_blueprints) SchemaSample.blueprints_payload None e)
    as (g & Hg & _).
  - intros l b _ _. split; intros _; exists 0%Z; reflexivity.
  - intros p Hp. exact Hp.
  - exact Hv.
  - exact He.
  - discriminate Hg.
Defined.
