(* ===== verification/Threat.v ===== *)
(** * Threat detection

    internal/server/threat.go below the calls of Calls.v: the bucket that is opened
    on first use (ThreatBucket), the request to the policy engine
    (ThreatEvaluate), the entry that is written (ThreatStore) and dropped
    (ThreatClear). The bucket belongs to another controller, which may write the
    override of an entry at any time; NATS and the common module's
    UpdateThreatDetection are an interface with the laws the code relies on. *)

From S2P Require Import Prelude Effects.

(** ** The bucket *)

(** The answers of OpenKV that are no handle: the bucket is missing, or another
    error; the code only logs them differently. *)
Inductive open_error : Type := ErrBucketNotFound | OpenFailed.

Section bucket.
Context {handle : Type}.

(** One call under its mutex: what it returns, the handle that is kept, and
    whether it asked NATS, whose answer would be [answer].

    src/internal/server/threat.go:43-64 threatDetection *)
Definition threatDetection (nats : bool) (threatDetectionKV : option handle) (answer : result open_error handle)
    : option handle * option handle * bool :=
  if negb nats then (None, threatDetectionKV, false)
  else
    match threatDetectionKV with
    | Some kv => (Some kv, threatDetectionKV, false)
    | None =>
        match answer with
        | Ok kv => (Some kv, Some kv, true)
        | Err _ => (None, None, true)
        end
    end.

(** The calls of all goroutines, in the order of the mutex; [answers] is what NATS
    would answer at the time of each. *)
Fixpoint bucket_calls (nats : bool) (kv : option handle) (answers : list (result open_error handle))
    : list (option handle * bool) :=
  match answers with
  | [] => []
  | answer :: answers =>
      let '(r, kv, asked) := threatDetection nats kv answer in (r, asked) :: bucket_calls nats kv answers
  end.

Definition failed {A} (r : result open_error A) : bool := match r with Err _ => true | Ok _ => false end.

Lemma bucket_kept kv answers : bucket_calls true (Some kv) answers = replicate (length answers) (Some kv, false).
Proof. induction answers as [|a answers IH]; [done|]. cbn. by rewrite IH. Qed.

Lemma bucket_missing answers rest :
  forallb failed answers = true ->
  bucket_calls true None (answers ++ rest) = replicate (length answers) (None, true) ++ bucket_calls true None rest.
Proof.
  induction answers as [|[h|e] answers IH]; cbn; [done..|]. intros H. by rewrite IH.
Qed.
End bucket.

(** However many goroutines ask for the bucket, it is opened at most once: until
    it can be opened every caller tries and gets none, the first caller that can
    keeps the handle, and every later one is given that handle without asking. *)
Theorem bucket_opened_once {handle} (missing : list (result open_error handle)) kv later :
  forallb failed missing = true ->
  bucket_calls true None (missing ++ Ok kv :: later) =
    replicate (length missing) (None, true) ++ (Some kv, true) :: replicate (length later) (Some kv, false) /\
  bucket_calls true None missing = replicate (length missing) (None, true).
Proof.
  intros Hm. rewrite bucket_missing by done. cbn. rewrite bucket_kept. split; [done|].
  rewrite <- (app_nil_r missing) at 1. rewrite bucket_missing by done. cbn. by rewrite app_nil_r.
Qed.

(** ** The request *)

(** src/internal/server/threat.go:24-37 threatDetectParams *)
Record threatDetectParams (document : Type) : Type := mkParams {
  tp_workspace : string;
  tp_owner : string;
  tp_blueprint : string;
  tp_resources : option (gmap string document);
  tp_mode : string;
  tp_namespace : string;
  tp_workloadName : string;
  tp_workloadKind : string;
}.
Arguments mkParams {_}.
Arguments tp_workspace {_}. Arguments tp_owner {_}. Arguments tp_blueprint {_}. Arguments tp_resources {_}.
Arguments tp_mode {_}. Arguments tp_namespace {_}. Arguments tp_workloadName {_}. Arguments tp_workloadKind {_}.

Section evaluate.
Context {document Request ProtoRequest ProtoResult : Type}.

(** The builder of common/pkg/authz, with its results: an error of Build is [None]. *)
Record request_builder : Type := mkBuilder {
  NewThreatDetectEvalRequest : string -> Request;
  WithOwner : string -> Request -> Request;
  WithMode : string -> string -> Request -> Request;
  WithWorkload : string -> string -> Request -> Request;
  WithBlueprintName : string -> Request -> Request;
  WithResources : option (gmap string document) -> Request -> Request;
  Build : Request -> option Request;
  ToProto : Request -> string -> ProtoRequest;
  set_Package : string -> ProtoRequest -> ProtoRequest;
}.

(** The one call of the policy engine. *)
Inductive engine : Type -> Type := Evaluate (req : ProtoRequest) : engine (answer ProtoResult).

Definition built (b : request_builder) (params : threatDetectParams document) : option Request :=
  Build b (WithResources b (tp_resources params) (WithBlueprintName b (tp_blueprint params)
    (WithWorkload b (tp_workloadName params) (tp_workloadKind params) (WithMode b (tp_mode params) (tp_namespace params)
      (WithOwner b (tp_owner params) (NewThreatDetectEvalRequest b (tp_workspace params))))))).

(** src/internal/server/threat.go:138-159 evaluateThreatDetect *)
Definition evaluateThreatDetect (b : request_builder) (token : string) (params : threatDetectParams document)
    : prog engine (answer ProtoResult) :=
  match built b params with
  | None => Ret (Err (Plain "build threat:detect request"))
  | Some req => wrapping "evaluate threat:detect" (call (Evaluate (set_Package b "threat" (ToProto b req token))))
  end.
End evaluate.

(** ** The entries *)

(** [natsc.ThreatDetectionPolicy]. *)
Record ThreatDetectionPolicy : Type := mkPolicy { Detect : string; EvaluatedFor : string; EvaluatedAt : Z }.

(** [natsc.ThreatDetection]: what the policy selects, and an operator's override. *)
Record ThreatDetection : Type := mkDetection { Policy : option ThreatDetectionPolicy; Override : option string }.

(** The mutation of an entry; [ob] is the text of the obligation, if one was found.

    src/internal/server/threat.go:164-175 applyDetectPolicy *)
Definition applyDetectPolicy (ob : option string) (subject : string) (now : Z) (d : ThreatDetection) : ThreatDetection :=
  match ob with
  | Some detect => mkDetection (Some (mkPolicy detect subject now)) (Override d)
  | None => mkDetection None (Override d)
  end.

(** The bucket as the code uses it: an entry is updated by a function, from the
    empty entry when there is none, or deleted; [None] is an error, with nothing
    changed. *)
Class DetectionBucket (S : Type) : Type := {
  entry : string -> S -> option ThreatDetection;
  UpdateThreatDetection : string -> (ThreatDetection -> ThreatDetection) -> S -> option S;
  Delete : string -> S -> option S;
}.

Definition no_detection : ThreatDetection := mkDetection None None.

Class DetectionLaws (S : Type) `{DetectionBucket S} : Type := {
  law_update : forall k f s s', UpdateThreatDetection k f s = Some s' ->
    entry k s' = Some (f (default no_detection (entry k s))) /\ forall k', k' <> k -> entry k' s' = entry k' s;
  law_delete : forall k s s', Delete k s = Some s' -> entry k s' = None /\ forall k', k' <> k -> entry k' s' = entry k' s;
}.

Section entries.
Context {S : Type} `{DetectionBucket S}.

(** The end of storeThreatDetection; a failure is only logged.

    src/internal/server/threat.go:128-132 storeThreatDetection *)
Definition store_policy (workspace : string) (ob : option string) (owner : string) (now : Z) (s : S) : S :=
  default s (UpdateThreatDetection workspace (applyDetectPolicy ob owner now) s).

(** With the bucket, or without when it could not be opened; a failure is only
    logged, and so is a missing entry.

    src/internal/server/threat.go:181-192 clearThreatDetection *)
Definition clearThreatDetection (bucket : bool) (workspaceName : string) (s : S) : S :=
  if String.eqb workspaceName "" then s
  else if negb bucket then s
  else default s (Delete workspaceName s).

(** What is tried with the bucket: the provisioner stores or clears, with the
    bucket or without it, and the operator sets or removes an override. *)
Inductive detection_event : Type :=
| Stored (bucket : bool) (workspace : string) (ob : option string) (owner : string) (now : Z)
| Cleared (bucket : bool) (workspace : string)
| Overridden (workspace : string) (o : option string).

Definition set_override (o : option string) (d : ThreatDetection) : ThreatDetection := mkDetection (Policy d) o.

Definition detection_step (s : S) (ev : detection_event) : S :=
  match ev with
  | Stored bucket w ob owner now => if bucket then store_policy w ob owner now s else s
  | Cleared bucket w => clearThreatDetection bucket w s
  | Overridden w o => default s (UpdateThreatDetection w (set_override o) s)
  end.

Definition answered_well (r : option S) : bool := match r with Some _ => true | None => false end.

(** What is tried reaches the bucket: it is open, the name is not empty and the
    call does not fail. *)
Definition reaches (s : S) (ev : detection_event) : bool :=
  match ev with
  | Stored bucket w ob owner now => bucket && answered_well (UpdateThreatDetection w (applyDetectPolicy ob owner now) s)
  | Cleared bucket w => negb (String.eqb w "") && bucket && answered_well (Delete w s)
  | Overridden w o => answered_well (UpdateThreatDetection w (set_override o) s)
  end.

(** Of what is tried, what reached the bucket. *)
Fixpoint reached (s : S) (evs : list detection_event) : list detection_event :=
  match evs with
  | [] => []
  | ev :: evs => (if reaches s ev then [ev] else []) ++ reached (detection_step s ev) evs
  end.
End entries.

(** The last thing said of the override of [w] since it was last cleared. *)
Fixpoint last_override (w : string) (evs : list detection_event) : option (option string) :=
  match evs with
  | [] => None
  | ev :: evs =>
      match last_override w evs with
      | Some o => Some o
      | None =>
          match ev with
          | Overridden w' o => if String.eqb w' w then Some o else None
          | Cleared _ w' => if String.eqb w' w then Some None else None
          | Stored _ _ _ _ _ => None
          end
      end
  end.

(** The last policy that was stored for [w] since it was cleared: [None] when
    nothing was. *)
Fixpoint last_policy (w : string) (evs : list detection_event) : option (option ThreatDetectionPolicy) :=
  match evs with
  | [] => None
  | ev :: evs =>
      match last_policy w evs with
      | Some p => Some p
      | None =>
          match ev with
          | Stored _ w' ob owner now => if String.eqb w' w then Some ((fun d => mkPolicy d owner now) <$> ob) else None
          | Cleared _ w' => if String.eqb w' w then Some None else None
          | Overridden _ _ => None
          end
      end
  end.

Section histories.
Context {S : Type} `{L : DetectionLaws S}.

(** The entry's two parts; a missing entry has neither. *)
Definition policy_of (w : string) (s : S) : option ThreatDetectionPolicy := entry w s ≫= Policy.
Definition override_of (w : string) (s : S) : option string := entry w s ≫= Override.

(** What does not reach the bucket changes nothing. *)
Lemma unreached_step s ev : reaches s ev = false -> detection_step s ev = s.
Proof.
  destruct ev as [b w ob owner now|b w|w o]; cbn; unfold store_policy, clearThreatDetection.
  - destruct b; [|done]. by destruct (UpdateThreatDetection _ _ _).
  - destruct (String.eqb w ""); [done|]. destruct b; [|done]. by destruct (Delete _ _).
  - by destruct (UpdateThreatDetection _ _ _).
Qed.

Lemma reached_step s ev w :
  reaches s ev = true ->
  override_of w (detection_step s ev) = default (override_of w s) (last_override w [ev]) /\
  policy_of w (detection_step s ev) = default (policy_of w s) (last_policy w [ev]).
Proof.
  unfold override_of, policy_of.
  destruct ev as [b w' ob owner now|b w'|w' o]; cbn [reaches detection_step last_override last_policy].
  - destruct b; [|done]. unfold store_policy. destruct (UpdateThreatDetection _ _ _) as [s'|] eqn:E; [|done]. intros _. cbn.
    destruct (law_update _ _ _ _ E) as [He Ho].
    destruct (String.eqb_spec w' w) as [->|Hne]; [|by rewrite Ho].
    rewrite He. destruct (entry w s) as [d|]; destruct ob; done.
  - unfold clearThreatDetection. destruct (String.eqb w' ""); [done|]. destruct b; [|done].
    destruct (Delete w' s) as [s'|] eqn:E; [|done]. intros _. cbn.
    destruct (law_delete _ _ _ E) as [He Ho]. destruct (String.eqb_spec w' w) as [->|Hw]; [by rewrite He|by rewrite Ho].
  - destruct (UpdateThreatDetection _ _ _) as [s'|] eqn:E; [|done]. intros _. cbn.
    destruct (law_update _ _ _ _ E) as [He Ho].
    destruct (String.eqb_spec w' w) as [->|Hne]; [|by rewrite Ho]. rewrite He. by destruct (entry w s).
Qed.

Lemma history_parts w evs : forall s,
  override_of w (foldl detection_step s evs) = default (override_of w s) (last_override w (reached s evs)) /\
  policy_of w (foldl detection_step s evs) = default (policy_of w s) (last_policy w (reached s evs)).
Proof.
  induction evs as [|ev evs IH]; intros s; [done|]. cbn [foldl reached].
  destruct (IH (detection_step s ev)) as [-> ->]. destruct (reaches s ev) eqn:E.
  - destruct (reached_step s ev w E) as [-> ->].
    cbn [app last_override last_policy]. by destruct (last_override w _), (last_policy w _).
  - by rewrite (unreached_step s ev E).
Qed.

Lemma last_override_since w evs :
  (forall o, Overridden w o ∉ evs) -> default None (last_override w evs) = None.
Proof.
  induction evs as [|ev evs IH]; [done|]. intros Hn. cbn [last_override].
  assert (Hr : default None (last_override w evs) = None) by (apply IH; intros o Ho; apply (Hn o); set_solver).
  destruct (last_override w evs) as [o|]; [done|]. destruct ev as [| |w' o]; [done|by case_match|].
  destruct (String.eqb_spec w' w) as [->|]; [|done]. destruct (Hn o). set_solver.
Qed.
End histories.

(** C29. The entry of a name in the threat detection bucket, over any history of
    stored evaluations, clearings and overrides by an operator, of any
    workspaces, each of which may fail or find no bucket (the code only logs
    that): the entry holds the policy that was last stored for the name and the
    override that was last set for it, counting what reached the bucket, since
    the last clearing of the name that reached it; what did not reach it changed
    nothing. A clearing under the name that reaches the bucket takes the entry
    away, and a later workspace of that name has no override until one is set
    again. This is of the calls of clearThreatDetection that succeed and of the
    name they are given: a clearing that fails, or is made under another name,
    leaves the entry, as cleanup_keeps_detection shows of a clean-up. *)
Theorem detection_not_inherited {S} `{DetectionLaws S} w evs (s : S) :
  override_of w (foldl detection_step s evs) = default (override_of w s) (last_override w (reached s evs)) /\
  policy_of w (foldl detection_step s evs) = default (policy_of w s) (last_policy w (reached s evs)) /\
  forall b, reaches (foldl detection_step s evs) (Cleared b w) = true ->
    let cleared := detection_step (foldl detection_step s evs) (Cleared b w) in
    entry w cleared = None /\
    forall later, (forall o, Overridden w o ∉ reached cleared later) ->
      override_of w (foldl detection_step cleared later) = None.
Proof.
  destruct (history_parts w evs s) as [Ho Hp]. split; [exact Ho|]. split; [exact Hp|]. intros b Hr cleared.
  assert (He : entry w cleared = None).
  { subst cleared. cbn in *. unfold clearThreatDetection. destruct (String.eqb w ""); [done|]. destruct b; [|done].
    destruct (Delete w _) as [s'|] eqn:E; [|done]. by destruct (law_delete _ _ _ E). }
  split; [exact He|]. intros later Hl. destruct (history_parts w later cleared) as [-> _].
  unfold override_of. rewrite He. by apply last_override_since.
Qed.

(** ** An instance *)

#[export] Instance map_bucket : DetectionBucket (gmap string ThreatDetection) := {|
  entry k s := s !! k;
  UpdateThreatDetection k f s := Some (<[k := f (default no_detection (s !! k))]> s);
  Delete k s := Some (delete k s);
|}.

#[export] Instance map_bucket_laws : DetectionLaws (gmap string ThreatDetection).
Proof.
  split; cbn.
  - intros k f s s' [= <-]. rewrite lookup_insert_eq. split; [done|]. intros k' Hk. by rewrite lookup_insert_ne.
  - intros k s s' [= <-]. rewrite lookup_delete_eq. split; [done|]. intros k' Hk. by rewrite lookup_delete_ne.
Qed.

Lemma bucket_opened_once_witness :
  bucket_calls true None ([Err ErrBucketNotFound; Err OpenFailed] ++ [Ok 7%nat; Ok 8%nat; Err OpenFailed]) =
    [(None, true); (None, true); (Some 7%nat, true); (Some 7%nat, false); (Some 7%nat, false)].
Proof.
  exact (proj1 (bucket_opened_once [Err ErrBucketNotFound; Err OpenFailed] 7%nat [Ok 8%nat; Err OpenFailed] eq_refl)).
Defined.

Module ThreatSample.
(** Provisioned, overridden, restarted without the bucket, restarted with another policy. *)
Definition history : list detection_event :=
  [Stored true "ws" (Some "shell") "ann" 1; Overridden "ws" (Some "all"); Stored false "ws" None "ann" 3;
   Stored true "ws" (Some "miner") "ann" 5; Cleared true "other"].
Definition before : gmap string ThreatDetection := foldl detection_step ∅ history.
Definition cleared : gmap string ThreatDetection := detection_step before (Cleared true "ws").
(** The name is used again. *)
Definition later : list detection_event := [Stored true "ws" None "bob" 9; Overridden "other" (Some "none")].
End ThreatSample.

Lemma detection_not_inherited_witness :
  override_of "ws" ThreatSample.before = Some "all" /\
  policy_of "ws" ThreatSample.before = Some (mkPolicy "miner" "ann" 5) /\
  entry "ws" ThreatSample.cleared = None /\
  override_of "ws" (foldl detection_step ThreatSample.cleared ThreatSample.later) = None.
Proof.
  destruct (detection_not_inherited "ws" ThreatSample.history (∅ : gmap string ThreatDetection)) as (H1 & H2 & H3).
  destruct (H3 true eq_refl) as [H4 H5].
  split; [exact H1|]. split; [exact H2|]. split; [exact H4|].
  apply H5. intros o. cbn. intros [[=]|[[=]|[]%elem_of_nil]%elem_of_cons]%elem_of_cons.
Defined.
