(* ===== verification/Informers.v ===== *)
(** * Listing releases and pods

    internal/helm/informer.go and the listings of internal/helm/client.go that use
    it, with filteredCachedReleasePods and stoppedReleasePods of
    internal/workspace/workspace.go: what the informers are started on, what
    their stores hold, and that a listing from the cache shows the same stopped
    workspaces as one from the API server. The cache with a lifetime and the
    informers' own listing of pods are in Cache.v. *)

From S2P Require Import Prelude GoStrings PodState Workspaces Effects Manifest Cache Query.

(** ** Objects *)

(** The metadata the code looks at. *)
Record ObjectMeta : Type := mkMeta {
  om_Name : string;
  om_Labels : gmap string string;
  om_ManagedFields : list string;
}.

(** [release.Release] as decoded: when it was first and last deployed, its manifest. *)
Record StoredRelease : Type := mkStored {
  st_Name : string;
  st_Info : option (Z * Z);
  st_Manifest : string;
}.

(** src/internal/helm/informer.go:33-40 ReleasePod *)
Record ReleasePodObject : Type := mkReleasePodObject {
  ro_Meta : ObjectMeta;
  ro_Pod : option WorkspacePod;
  ro_FirstDeployed : Z;
  ro_LastDeployed : Z;
}.

(** What the lookups of Workspaces.v see of it. *)
Definition release_pod (r : ReleasePodObject) : ReleasePod :=
  mkReleasePod (ro_Pod r) (om_Labels (ro_Meta r)) (ro_FirstDeployed r) (ro_LastDeployed r).

Definition without_managed_fields (m : ObjectMeta) : ObjectMeta := mkMeta (om_Name m) (om_Labels m) [].

Section releases.
(** The data of a release secret and how it decodes; sigs.k8s.io/yaml on a pod. *)
Context {D : Type}.
Variable decodeRelease : D -> option StoredRelease.
Variable decode_pod : string -> option (string * WorkspacePod).

(** A Secret of the namespace. *)
Record Secret : Type := mkSecret { sc_Meta : ObjectMeta; sc_Data : D }.

Definition manifest_pod (manifest : string) : option WorkspacePod :=
  match PodManifestFromRelease decode_pod manifest with Ok pod => Some pod | Err _ => None end.

(** src/internal/helm/informer.go:60-79 releasePodFromSecret *)
Definition releasePodFromSecret (s : Secret) : ReleasePodObject :=
  let meta := without_managed_fields (sc_Meta s) in
  match decodeRelease (sc_Data s) with
  | None => mkReleasePodObject meta None 0 0
  | Some rel =>
      let '(first, last) := default (0, 0)%Z (st_Info rel) in
      mkReleasePodObject meta (manifest_pod (st_Manifest rel)) first last
  end.

(** The secrets of current releases that also meet [sel], as the API server lists
    them for [releaseSecretSelector].

    src/internal/helm/client.go:430-436 releaseSecretSelector *)
Definition deployed_secrets (sel : selector) (secrets : list Secret) : list Secret :=
  List.filter (fun s => selects (deployed_selector ++ sel) (om_Labels (sc_Meta s))) secrets.

(** The releases that decode; their labels are those of the secret.

    src/internal/helm/client.go:401-409 ListReleasesBySelector *)
Definition ListReleasesBySelector (secrets : answer (list Secret)) (sel : selector) : answer (list (gmap string string * StoredRelease)) :=
  match secrets with
  | Err e => Err (Wrap "failed to list release secrets" e)
  | Ok secrets =>
      Ok (omap (fun s => (fun rel => (om_Labels (sc_Meta s), rel)) <$> decodeRelease (sc_Data s)) (deployed_secrets sel secrets))
  end.

(** ** The stores of the informers *)

(** What an informer may be handed: the objects of its kind, or what its
    transform already made of one. *)
Inductive stored : Type :=
| SPod (meta : ObjectMeta) (pod : WorkspacePod)
| SSecret (s : Secret)
| SReleasePod (r : ReleasePodObject).

(** src/internal/helm/informer.go:144-149 newPodInformer *)
Definition pod_transform (o : stored) : stored :=
  match o with SPod meta pod => SPod (without_managed_fields meta) pod | o => o end.

(** src/internal/helm/informer.go:158-163 newReleasePodInformer *)
Definition release_transform (o : stored) : stored :=
  match o with SSecret s => SReleasePod (releasePodFromSecret s) | o => o end.

(** An informer's store, by key: it keeps what its transform makes of an object. *)
Inductive store_event : Type := Put (key : string) (o : stored) | Remove (key : string).

Definition store_step (transform : stored -> stored) (s : gmap string stored) (ev : store_event) : gmap string stored :=
  match ev with Put key o => <[key := transform o]> s | Remove key => delete key s end.

(** The type assertion [o.( *ReleasePod)], [None] for the panic of a wrong one. *)
Definition assert_release_pod (o : stored) : option ReleasePodObject :=
  match o with SReleasePod r => Some r | _ => None end.

(** [None] when it is not covered or not synced; inside, [None] for the panic.

    src/internal/helm/informer.go:211-221 listReleasePods *)
Definition listReleasePods (targetNamespace : string) (synced : bool) (store : gmap string stored) (namespace : string)
    : option (option (list ReleasePodObject)) :=
  if negb (String.eqb namespace targetNamespace) || negb synced then None
  else Some (mapM assert_release_pod (snd <$> map_to_list store)).

(** [informers]: None before they are started; [getOrFetch]: what the cache of
    Cache.v answers for the key when [fetch] is what a fetch would.

    src/internal/helm/client.go:529-548 ListDeployedReleasePodsCached *)
Definition ListDeployedReleasePodsCached
    (informers : option (string * bool * gmap string stored))
    (getOrFetch : string -> answer (list ReleasePodObject) -> answer (list ReleasePodObject))
    (secrets : answer (list Secret)) (namespace : string) : option (answer (list ReleasePodObject)) :=
  let fallback :=
    getOrFetch namespace
      match secrets with
      | Err e => Err (Wrap "failed to list release secrets" e)
      | Ok secrets => Ok (releasePodFromSecret <$> deployed_secrets [] secrets)
      end in
  match informers with
  | None => Some fallback
  | Some (target, synced, store) =>
      match listReleasePods target synced store namespace with
      | None => Some fallback
      | Some None => None
      | Some (Some rps) => Some (Ok rps)
      end
  end.

(** ** The stopped workspaces *)

(** [listing] is what ListDeployedReleasePodsCached answered.

    src/internal/workspace/workspace.go:489-508 filteredCachedReleasePods *)
Definition filteredCachedReleasePods (listing : answer (list ReleasePodObject)) (sel : selector) : answer (list ReleasePod) :=
  match listing with
  | Err e => Err e
  | Ok all =>
      match sel with
      | [] => Ok (release_pod <$> all)
      | _ => Ok (release_pod <$> List.filter (fun rp => selects sel (om_Labels (ro_Meta rp))) all)
      end
  end.

(** Without the cache a release whose manifest has no pod is left out, and the
    labels are not copied.

    src/internal/workspace/workspace.go:521-539 stoppedReleasePods *)
Definition releasePods_of (releases : list (gmap string string * StoredRelease)) : list ReleasePod :=
  omap (fun lr => let '(first, last) := default (0, 0)%Z (st_Info lr.2) in
                  (fun pod => mkReleasePod (Some pod) ∅ first last) <$> manifest_pod (st_Manifest lr.2)) releases.

(** src/internal/workspace/workspace.go:515-540 stoppedReleasePods *)
Definition stoppedReleasePods (useCache : bool) (listing : answer (list ReleasePodObject)) (secrets : answer (list Secret))
    (sel : selector) : answer (list ReleasePod) :=
  if useCache then filteredCachedReleasePods listing sel
  else
    match ListReleasesBySelector secrets sel with
    | Err e => Err e
    | Ok releases => Ok (releasePods_of releases)
    end.

(** What the loop over the result reads: the pods, with their deployment times. *)
Definition readable (rps : list ReleasePod) : list (WorkspacePod * Z * Z) :=
  omap (fun rp => (fun pod => (pod, rp_FirstDeployed rp, rp_LastDeployed rp)) <$> rp_Pod rp) rps.

(** *** Lemmas *)

Lemma release_transform_idempotent o : release_transform (release_transform o) = release_transform o.
Proof. by destruct o. Qed.

(** A store of a release informer: only secrets are put, so only release pods
    are in it. *)
Definition only_releases (s : gmap string stored) : Prop := forall key o, s !! key = Some o -> exists r, o = SReleasePod r.

Definition secret_event (ev : store_event) : Prop :=
  match ev with Put _ o => exists s, o = SSecret s \/ exists r, o = SReleasePod r | Remove _ => True end.

Lemma store_step_releases s ev : secret_event ev -> only_releases s -> only_releases (store_step release_transform s ev).
Proof.
  intros He Hs key o. destruct ev as [k o'|k]; cbn.
  - intros [[<- <-]|[_ H]]%lookup_insert_Some; [|by eapply Hs]. destruct He as [sc [->|[r ->]]]; eauto.
  - intros [_ H]%lookup_delete_Some. by eapply Hs.
Qed.

Lemma assert_release_pods (l : list (string * stored)) :
  (forall p, p ∈ l -> exists r, p.2 = SReleasePod r) -> is_Some (mapM assert_release_pod (snd <$> l)).
Proof.
  intros H. apply mapM_is_Some_2, Forall_forall. intros o (p & -> & Hp)%list_elem_of_fmap.
  destruct (H p Hp) as [r ->]. by eexists.
Qed.

Lemma readable_secret (s : Secret) :
  readable [release_pod (releasePodFromSecret s)] =
  readable (releasePods_of (from_option (fun rel => [(om_Labels (sc_Meta s), rel)]) [] (decodeRelease (sc_Data s)))).
Proof.
  unfold releasePodFromSecret, readable, releasePods_of, release_pod. destruct (decodeRelease (sc_Data s)) as [rel|]; [|done]. cbn.
  destruct (default (0, 0)%Z (st_Info rel)) as [first last]. cbn. by destruct (manifest_pod (st_Manifest rel)).
Qed.

Lemma readable_app l1 l2 : readable (l1 ++ l2) = readable l1 ++ readable l2.
Proof. apply omap_app. Qed.

Lemma releasePods_app l1 l2 : releasePods_of (l1 ++ l2) = releasePods_of l1 ++ releasePods_of l2.
Proof. apply omap_app. Qed.

Lemma secret_labels s : om_Labels (ro_Meta (releasePodFromSecret s)) = om_Labels (sc_Meta s).
Proof.
  unfold releasePodFromSecret. destruct (decodeRelease (sc_Data s)) as [rel|]; [|done].
  by destruct (default (0, 0)%Z (st_Info rel)).
Qed.

Lemma deployed_app sel s secrets :
  deployed_secrets sel (s :: secrets) = (if selects (deployed_selector ++ sel) (om_Labels (sc_Meta s)) then [s] else []) ++ deployed_secrets sel secrets.
Proof. unfold deployed_secrets. cbn. by case_goal. Qed.

Lemma cached_readable sel secrets :
  readable (release_pod <$> List.filter (fun rp => selects sel (om_Labels (ro_Meta rp))) (releasePodFromSecret <$> deployed_secrets [] secrets)) =
  readable (releasePods_of (omap (fun s => (fun rel => (om_Labels (sc_Meta s), rel)) <$> decodeRelease (sc_Data s)) (deployed_secrets sel secrets))).
Proof.
  induction secrets as [|s secrets IH]; [done|]. rewrite !deployed_app, app_nil_r.
  rewrite fmap_app, List.filter_app, fmap_app, readable_app, IH, omap_app, releasePods_app, readable_app. f_equal.
  rewrite selects_app. destruct (selects deployed_selector (om_Labels (sc_Meta s))); [|done]. cbn [andb].
  cbn [fmap list_fmap List.filter]. rewrite secret_labels. destruct (selects sel (om_Labels (sc_Meta s))); [|done].
  etrans; [apply (readable_secret s)|]. cbn. by destruct (decodeRelease (sc_Data s)).
Qed.
End releases.
Arguments Secret D : clear implicits.
Arguments stored D : clear implicits.

(** ** Pods *)

Definition pod_listing : Type := list (string * gmap string string).

(** The key under which a listing of pods is cached.

    src/internal/helm/client.go:571-571 ListPodsCached *)
Definition pod_key (namespace selector : string) : string := namespace +:+ "|" +:+ selector.

(** [parse]: k8slabels.Parse on the selector's text; [list]: what the API server
    answers a fetch.

    src/internal/helm/client.go:561-578 ListPodsCached *)
Definition ListPodsCached (informers : option workspaceInformers) (parse : string -> option (list requirement))
    (getOrFetch : string -> answer pod_listing -> answer pod_listing) (list : answer pod_listing)
    (namespace selector : string) : answer pod_listing :=
  let fallback := getOrFetch (pod_key namespace selector) list in
  match informers with
  | None => fallback
  | Some inf =>
      match parse selector with
      | None => Err (Plain "unable to parse selector")
      | Some sel => match listPods inf namespace sel with Some pods => Ok pods | None => fallback end
      end
  end.

Lemma string_app_inv_l (s t u : string) : s +:+ t = s +:+ u -> t = u.
Proof. induction s as [|a s IH]; [done|]. rewrite !string_app_cons. intros [= H]. by apply IH. Qed.

Lemma contains_bar s : contains ("|" +:+ s) "|" = true.
Proof. by destruct s. Qed.

(** Two listings share a cache entry only if they are of the same namespace and
    selector, as a namespace has no vertical bar. *)
Lemma pod_key_inj ns1 sel1 ns2 sel2 :
  contains ns1 "|" = false -> contains ns2 "|" = false -> pod_key ns1 sel1 = pod_key ns2 sel2 -> ns1 = ns2 /\ sel1 = sel2.
Proof.
  unfold pod_key. revert ns2. induction ns1 as [|a ns1 IH]; intros [|b ns2]; rewrite ?string_app_cons, ?string_app_nil_l.
  - intros _ _ H. split; [done|]. by apply (string_app_inv_l "|").
  - intros _ Hb [= <- _]. change (contains ("|" +:+ ns2) "|" = false) in Hb. by rewrite contains_bar in Hb.
  - intros Ha _ [= -> _]. change (contains ("|" +:+ ns1) "|" = false) in Ha. by rewrite contains_bar in Ha.
  - cbn [contains]. intros [_ Ha]%orb_false_iff [_ Hb]%orb_false_iff [= -> H].
    destruct (IH ns2 Ha Hb H) as [-> ->]. done.
Qed.

(** ** Starting the informers *)

(** What an informer lists: its namespace, "" for all, and its selector. *)
Record informer_options : Type := mkInformerOptions { io_Namespace : string; io_Selector : list (string * string) }.

Definition injectedSelector : list (string * string) := [(LabelInjected, "true")].

(** The loop over the namespaces, which ends at the first "*".

    src/internal/helm/informer.go:110-119 StartWorkspaceInformers *)
Fixpoint injected_informers (acc : gmap string informer_options) (injectNamespaces : list string) : gmap string informer_options :=
  match injectNamespaces with
  | [] => acc
  | ns :: nss =>
      if String.eqb ns "*" then {["" := mkInformerOptions "" injectedSelector]}
      else injected_informers (<[ns := mkInformerOptions ns injectedSelector]> acc) nss
  end.

(** What is started: the target namespace's pods and releases, and the injected pods.

    src/internal/helm/informer.go:102-119 StartWorkspaceInformers *)
Definition StartWorkspaceInformers (targetNamespace : string) (injectNamespaces : list string)
    : informer_options * informer_options * gmap string informer_options :=
  (mkInformerOptions targetNamespace [], mkInformerOptions targetNamespace [("owner", "helm"); ("status", "deployed")],
   injected_informers ∅ injectNamespaces).

Lemma injected_informers_keys nss : forall acc key o,
  injected_informers acc nss !! key = Some o ->
  acc !! key = Some o \/ (o = mkInformerOptions key injectedSelector /\ (key ∈ nss \/ (key = "" /\ "*" ∈ nss))).
Proof.
  induction nss as [|ns nss IH]; intros acc key o; cbn; [by left|].
  destruct (String.eqb_spec ns "*") as [->|_].
  - intros [<- <-]%lookup_singleton_Some. right. split; [done|]. right. split; [done|]. by left.
  - intros [Ha|[-> Hk]]%IH.
    + apply lookup_insert_Some in Ha as [[<- <-]|[_ Ha]]; [|by left]. right. split; [done|]. left. by left.
    + right. split; [done|]. destruct Hk as [Hk|[-> Hk]]; [left|right; split; [done|]]; by right.
Qed.

Lemma injected_informers_star acc nss : "*" ∈ nss -> injected_informers acc nss = {["" := mkInformerOptions "" injectedSelector]}.
Proof.
  revert acc. induction nss as [|ns nss IH]; intros acc; [by intros ?%elem_of_nil|]. cbn.
  destruct (String.eqb_spec ns "*") as [->|Hne]; [done|]. intros [<-|Hin]%elem_of_cons; [done|]. by apply IH.
Qed.

Lemma injected_informers_has acc nss ns :
  "*" ∉ nss -> ns ∈ nss \/ is_Some (acc !! ns) -> is_Some (injected_informers acc nss !! ns).
Proof.
  revert acc. induction nss as [|n nss IH]; intros acc Hstar H; cbn.
  { by destruct H as [?%elem_of_nil|]. }
  apply not_elem_of_cons in Hstar as [Hn Hstar]. destruct (String.eqb_spec n "*") as [->|_]; [done|].
  apply IH; [done|]. destruct (decide (ns = n)) as [->|Hne]; [right; by rewrite lookup_insert_eq|].
  destruct H as [H|H]; [left; by apply elem_of_cons in H as [->|]|right; by rewrite lookup_insert_ne].
Qed.

(** ** The theorems *)

(** C28. The stopped workspaces that a lookup reads from the cached listing are those
    it would read from the API server: when the listing is of the same secrets,
    the same pods with the same times come out, whatever the selector, although
    the one filters decoded releases in memory and the other has the server
    filter secrets. *)
Theorem stoppedReleasePods_agree {D} (decodeRelease : D -> option StoredRelease) decode_pod (secrets : list (Secret D)) listing sel rps :
  listing = releasePodFromSecret decodeRelease decode_pod <$> deployed_secrets [] secrets ->
  stoppedReleasePods decodeRelease decode_pod true (Ok listing) (Ok secrets) sel = Ok rps ->
  exists rps', stoppedReleasePods decodeRelease decode_pod false (Ok listing) (Ok secrets) sel = Ok rps' /\
    readable rps = readable rps'.
Proof.
  intros -> H. eexists. split; [reflexivity|]. rewrite <- cached_readable.
  cbn [stoppedReleasePods filteredCachedReleasePods] in H. destruct sel as [|kv sel]; apply Ok_inj in H as <-; [|done].
  f_equal. f_equal. symmetry. apply List.forallb_filter_id, List.forallb_forall. done.
Qed.

(** Whatever secrets come and go, and although the informer may hand its
    transform an object that is transformed already, the store holds release pods
    only, so serving a listing from it never panics; what is served is what the
    transform makes of the objects that are there. *)
Theorem listReleasePods_safe {D} (decodeRelease : D -> option StoredRelease) decode_pod evs target synced namespace :
  Forall (@secret_event D) evs ->
  let store := foldl (store_step (release_transform decodeRelease decode_pod)) ∅ evs in
  listReleasePods target synced store namespace <> Some None /\
  forall rps r, listReleasePods target synced store namespace = Some (Some rps) -> r ∈ rps ->
    namespace = target /\ exists key o, Put key o ∈ evs /\ release_transform decodeRelease decode_pod o = SReleasePod r.
Proof.
  intros Hevs store.
  assert (Hs : only_releases store /\ forall key o, store !! key = Some o ->
            exists key o', Put key o' ∈ evs /\ release_transform decodeRelease decode_pod o' = o).
  { unfold store. clear store. assert (H0 : only_releases (∅ : gmap string (stored D)) /\ forall key o, (∅ : gmap string (stored D)) !! key = Some o ->
      exists key o', Put key o' ∈ ([] : list (@store_event D)) /\ release_transform decodeRelease decode_pod o' = o) by (split; intros ? ?; by rewrite lookup_empty).
    revert H0. change evs with ([] ++ evs) at 3. generalize (∅ : gmap string (stored D)). generalize ([] : list (@store_event D)).
    induction Hevs as [|ev evs He Hevs IH]; intros past s [H1 H2]; [by rewrite app_nil_r|].
    cbn [foldl]. change (ev :: evs) with ([ev] ++ evs). rewrite (assoc_L (++)). apply IH. split; [by apply store_step_releases|].
    intros key o Ho. destruct ev as [k o'|k]; cbn in Ho.
    - apply lookup_insert_Some in Ho as [[_ <-]|[_ Ho]]; [exists k, o'; split; [set_solver|done]|].
      destruct (H2 _ _ Ho) as (k' & o'' & ? & ?). exists k', o''. split; [set_solver|done].
    - apply lookup_delete_Some in Ho as [_ Ho]. destruct (H2 _ _ Ho) as (k' & o'' & ? & ?). exists k', o''. split; [set_solver|done]. }
  destruct Hs as [Honly Hfrom]. unfold listReleasePods.
  destruct (String.eqb_spec namespace target) as [->|]; [|done]. destruct synced; [|done]. cbn [negb orb].
  split.
  - destruct (assert_release_pods (map_to_list store)) as [l ->]; [|done].
    intros [k o] Hp%elem_of_map_to_list. by apply (Honly k).
  - intros rps r [= Hm] Hr. split; [done|]. apply mapM_Some in Hm.
    apply list_elem_of_lookup in Hr as [i Hi]. destruct (Forall2_lookup_r _ _ _ _ _ Hm Hi) as (o & Ho & Ha).
    destruct o; [done..|]. injection Ha as ->. apply list_elem_of_lookup_2, list_elem_of_fmap in Ho as ([k o] & Hko & Hin).
    cbn in Hko. subst o. apply elem_of_map_to_list in Hin. destruct (Hfrom _ _ Hin) as (k' & o' & ? & ?). eauto.
Qed.

(** The informers that are started cover every listing of injected pods that a
    lookup makes: in each namespace that is configured, or in all of them for
    "*", a listing that asks for injected pods finds an informer, which lists
    exactly its key's namespace and the injected pods. *)
Theorem informers_cover target targetPods injectNamespaces (informers : gmap string informer) ns sel :
  (forall key, is_Some (informers !! key) <-> is_Some ((StartWorkspaceInformers target injectNamespaces).2 !! key)) ->
  requiresInjected sel = true -> ns ∈ injectNamespaces \/ "*" ∈ injectNamespaces ->
  is_Some (covering (mkInformers target targetPods informers) ns sel) /\
  forall key o, (StartWorkspaceInformers target injectNamespaces).2 !! key = Some o ->
    o = mkInformerOptions key injectedSelector.
Proof.
  cbn [StartWorkspaceInformers snd]. intros Hinf Hsel Hns. split.
  - unfold covering. cbn. case_goal; [by eexists|]. rewrite Hsel.
    destruct (informers !! ns) as [i|] eqn:Ei; [by eexists|]. apply Hinf.
    destruct (decide ("*" ∈ injectNamespaces)) as [Hin|Hin]; [by rewrite injected_informers_star, lookup_singleton_eq|].
    exfalso. destruct Hns as [Hns|]; [|done].
    destruct (proj2 (Hinf ns)) as [i Hi]; [|congruence]. apply injected_informers_has; [done|by left].
  - intros key o H. apply injected_informers_keys in H as [H|[-> _]]; [by rewrite lookup_empty in H|done].
Qed.

(** ** Samples *)

Module InformerSample.
Definition release (name : string) (first last : Z) (manifest : string) : Secret StoredRelease :=
  mkSecret (mkMeta name {["owner" := "helm"; "status" := "deployed"; LabelUsername := "ann"]} ["helm"])
    (mkStored name (Some (first, last)) manifest).
(** The first document of the manifest is a pod. *)
Definition decode (doc : string) : option (string * WorkspacePod) := Some ("Pod", Query.demo_pod "ws1" "ann").
Definition secrets : list (Secret StoredRelease) :=
  [release "ws1" 1 5 "kind: Pod"; release "db" 2 2 "kind: ConfigMap";
   mkSecret (mkMeta "old" {["owner" := "helm"; "status" := "superseded"]} []) (mkStored "old" None "kind: Pod")].
Definition sel : selector := [(LabelUsername, ["ann"])].
Definition listing : list ReleasePodObject := releasePodFromSecret Some decode <$> deployed_secrets [] secrets.
Definition events : list (@store_event StoredRelease) :=
  [Put "ns/a" (SSecret (release "ws1" 1 5 "kind: Pod")); Remove "ns/a";
   Put "ns/b" (SReleasePod (releasePodFromSecret Some decode (release "db" 2 2 "kind: ConfigMap")))].
End InformerSample.

Lemma stoppedReleasePods_agree_witness : exists rps rps',
  stoppedReleasePods Some InformerSample.decode true (Ok InformerSample.listing) (Ok InformerSample.secrets) InformerSample.sel = Ok rps /\
  length rps = 2%nat /\
  stoppedReleasePods Some InformerSample.decode false (Ok InformerSample.listing) (Ok InformerSample.secrets) InformerSample.sel = Ok rps' /\
  length rps' = 1%nat /\ readable rps = readable rps'.
Proof.
  eexists. destruct (stoppedReleasePods_agree Some InformerSample.decode InformerSample.secrets InformerSample.listing
    InformerSample.sel _ eq_refl eq_refl) as (rps' & H1 & H2).
  exists rps'. split; [reflexivity|]. split; [vm_compute; reflexivity|]. split; [exact H1|]. split; [|exact H2].
  apply Ok_inj in H1 as <-. vm_compute. reflexivity.
Defined.

Lemma listReleasePods_safe_witness :
  listReleasePods "ns" true (foldl (store_step (release_transform Some InformerSample.decode)) ∅ InformerSample.events) "ns" <> Some None /\
  listReleasePods "ns" true (foldl (store_step (release_transform Some InformerSample.decode)) ∅ InformerSample.events) "ns" =
    Some (Some [releasePodFromSecret Some InformerSample.decode (InformerSample.release "db" 2 2 "kind: ConfigMap")]).
Proof.
  split; [|vm_compute; reflexivity].
  refine (proj1 (listReleasePods_safe Some InformerSample.decode InformerSample.events "ns" true "ns" _)).
  repeat constructor; eexists; eauto.
  Unshelve. all: exact (InformerSample.release "" 0 0 "").
Defined.

Lemma informers_cover_witness :
  is_Some (covering (mkInformers "ws" (mkInformer true []) {["" := mkInformer true []]}) "team" [mkReq LabelInjected "=" ["true"]]).
Proof.
  refine (proj1 (informers_cover "ws" (mkInformer true []) ["a"; "*"; "b"] {["" := mkInformer true []]} "team"
    [mkReq LabelInjected "=" ["true"]] _ eq_refl _)).
  - intros key. change ((StartWorkspaceInformers "ws" ["a"; "*"; "b"]).2) with
      ({["" := mkInformerOptions "" injectedSelector]} : gmap string informer_options).
    rewrite !lookup_singleton_is_Some. reflexivity.
  - right. set_solver.
Defined.
