(* ===== verification/ChartFiles.v ===== *)
(** * The embedded chart

    internal/helm/embed.go: the chart that is compiled into the program is written to
    a temporary directory, loaded from there with Helm's loader, and the directory is
    removed. The file system is calls that may fail; the embedded files are a tree. *)

From S2P Require Import Prelude GoStrings Include Effects.

(** The embedded files below [charts], by name and in the order in which they are
    listed. *)

Inductive tree : Type :=
| TFile (name data : string)
| TDir (name : string) (children : list tree).

Definition tree_name (d : tree) : string := match d with TFile name _ | TDir name _ => name end.

Lemma tree_ind' (P : tree -> Prop) :
  (forall name data, P (TFile name data)) -> (forall name l, Forall P l -> P (TDir name l)) -> forall d, P d.
Proof.
  intros Hf Hd. fix IH 1. intros [name data|name l]; [apply Hf|]. apply Hd.
  induction l as [|c l IHl]; constructor; [apply IH|exact IHl].
Qed.

Section chart.
(** A chart as Helm's loader returns it. *)
Context {C : Type}.

(** What the code asks of the operating system, and of the loader. *)
Inductive os : Type -> Type :=
| MkdirTemp : os (answer string)
| MkdirAll (path : string) : os (answer unit)
| WriteFile (path data : string) : os (answer unit)
| RemoveAll (path : string) : os (answer unit)
| LoaderLoad (path : string) : os (answer C).

(** [fs.WalkDir] with the callback that writes what it is shown.

    src/internal/helm/embed.go:42-65 LoadChartFromMemory *)
Fixpoint extract (tempDir path : string) (d : tree) : prog os (answer unit) :=
  let destPath := filepath_join tempDir path in
  match d with
  | TDir _ children =>
      let? _ := call (MkdirAll destPath) in
      (fix go (l : list tree) : prog os (answer unit) :=
         match l with
         | [] => Ret (Ok tt)
         | c :: l => let? _ := extract tempDir (filepath_join path (tree_name c)) c in go l
         end) children
  | TFile _ data =>
      let? _ := call (MkdirAll (filepath_dir destPath)) in
      call (WriteFile destPath data)
  end.

(** [WalkDir] of a root that is not there hands its error to the callback, which
    returns it. *)
Definition walk_root (charts : list tree) (tempDir chartName : string) : prog os (answer unit) :=
  match List.find (fun d => String.eqb (tree_name d) chartName) charts with
  | Some d => extract tempDir chartName d
  | None => Ret (Err (Plain "file does not exist"))
  end.

(** [charts] is what GetChartFS returns: the embedded file system below [charts].

    src/internal/helm/embed.go:32-75 LoadChartFromMemory *)
Definition LoadChartFromMemory (charts : list tree) (chartName : string) : prog os (answer C) :=
  let? tempDir := wrapping "failed to create temp dir" (call MkdirTemp) in
  let! r := (let? _ := wrapping "failed to extract chart" (walk_root charts tempDir chartName) in
             wrapping "failed to load chart" (call (LoaderLoad (filepath_join tempDir chartName)))) in
  let! _ := call (RemoveAll tempDir) in
  Ret r.

(** ** What a chart consists of *)

(** The files of a tree, by path. *)
Fixpoint contents (path : string) (d : tree) : list (string * string) :=
  match d with
  | TFile _ data => [(path, data)]
  | TDir _ children => flat_map (fun c => contents (filepath_join path (tree_name c)) c) children
  end.

Definition at_temp (tempDir : string) (files : list (string * string)) : list (string * string) :=
  (fun f => (filepath_join tempDir f.1, f.2)) <$> files.

(** ** Following the calls *)

(** The files written so far to the directory that was made, if it is still there,
    and how often the loader has been asked. *)
Record progress : Type := mkProgress { temp : option string; written : list (string * string); loads : nat }.

(** Nothing is written without a temporary directory, and only that one is removed.
    The loader is only asked for [chartPath], when [files] is what has been written. *)
Definition os_step (chartName : string) (files : list (string * string)) (p : progress) X (e : os X) : X -> judgement progress :=
  match e in os X return X -> judgement progress with
  | MkdirTemp => fun x =>
      match temp p, x with
      | None, Ok dir => Next (mkProgress (Some dir) [] (loads p))
      | None, Err _ => Next p
      | Some _, _ => Forbidden
      end
  | MkdirAll path => fun _ => match temp p with Some _ => Next p | None => Forbidden end
  | WriteFile path data => fun x =>
      match temp p with
      | Some dir => Next (match x with Ok _ => mkProgress (temp p) (written p ++ [(path, data)]) (loads p) | Err _ => p end)
      | None => Forbidden
      end
  | LoaderLoad path => fun _ =>
      match temp p with
      | Some dir =>
          if bool_decide (path = filepath_join dir chartName) && bool_decide (written p = at_temp dir files)
          then Next (mkProgress (temp p) (written p) (S (loads p))) else Forbidden
      | None => Forbidden
      end
  | RemoveAll path => fun _ =>
      if bool_decide (temp p = Some path) then Next (mkProgress None [] (loads p)) else Forbidden
  end.

#[local] Notation step chartName files := (os_step chartName files).

Lemma conform_extract chartName files dir n d : forall path done (Q : progress -> answer unit -> Prop),
  (forall w e, Q (mkProgress (Some dir) w n) (Err e)) ->
  Q (mkProgress (Some dir) (done ++ at_temp dir (contents path d)) n) (Ok tt) ->
  conform (step chartName files) (extract dir path d) (mkProgress (Some dir) done n) Q.
Proof.
  induction d as [name data|name children IH] using tree_ind'; intros path done Q Herr Hok; cbn [extract].
  - apply conform_try, conform_call. intros [[]|e]; cbn; [|apply Herr]. intros [[]|e]; cbn; [exact Hok|apply Herr].
  - apply conform_try, conform_call. intros [[]|e]; cbn [os_step temp]; [|apply Herr].
    revert done Hok. cbn [contents]. induction IH as [|c children Hc _ IHl]; intros done Hok.
    + cbn in *. by rewrite app_nil_r in Hok.
    + apply conform_try, Hc; [exact Herr|]. apply IHl. unfold at_temp in *. by rewrite <- (assoc_L (++)), <- fmap_app.
Qed.
End chart.
Arguments os C : clear implicits.

(** ** The theorems *)

(** Helm's loader only ever sees the whole chart: it is asked once the files of the
    embedded chart have all been written, each with its content, and at most once;
    whatever call fails, the temporary directory is removed before the function
    returns; and a chart that is returned is one the loader made. *)
Theorem LoadChartFromMemory_loads_embedded {C} charts chartName d :
  List.find (fun d => String.eqb (tree_name d) chartName) charts = Some d ->
  conform (os_step chartName (contents chartName d)) (LoadChartFromMemory (C := C) charts chartName) (mkProgress None [] 0)
    (fun p r => temp p = None /\ match r with Ok _ => loads p = 1%nat | Err _ => (loads p <= 1)%nat end).
Proof.
  intros Hd. unfold LoadChartFromMemory. apply conform_wrap, conform_call. intros [dir|e]; cbn; [|split; [done|lia]].
  apply conform_bind, conform_wrap. unfold walk_root. rewrite Hd. apply conform_extract.
  - intros w e. cbn. intros x. rewrite bool_decide_true by done. cbn. split; [done|lia].
  - intros r. cbn. rewrite !bool_decide_true by done. cbn.
    destruct r as [c|e]; cbn; intros x; rewrite bool_decide_true by done; cbn; (split; [done|lia]).
Qed.

(** A chart that is not embedded is an error, and its directory is removed too. *)
Theorem LoadChartFromMemory_unknown {C} charts chartName :
  List.find (fun d => String.eqb (tree_name d) chartName) charts = None ->
  conform (os_step chartName []) (LoadChartFromMemory (C := C) charts chartName) (mkProgress None [] 0)
    (fun p r => temp p = None /\ loads p = 0%nat /\ exists e, r = Err e).
Proof.
  intros Hd. unfold LoadChartFromMemory. apply conform_wrap, conform_call. intros [dir|e]; cbn; [|by eauto].
  apply conform_bind, conform_wrap. unfold walk_root. rewrite Hd. cbn. intros x. rewrite bool_decide_true by done. cbn. by eauto.
Qed.

Module ChartSample.
Definition chart : tree := TDir "ws" [TFile "Chart.yaml" "name: ws"; TDir "templates" [TFile "pod.yaml" "kind: Pod"]].

(** An operating system that makes "/tmp/c" and does what it is told; the loader
    returns the files below the path. *)
Definition serve X (s : list (string * string)) (e : os (list (string * string)) X) : list (string * string) * X :=
  match e in os _ X return list (string * string) * X with
  | MkdirTemp => (s, Ok "/tmp/c")
  | MkdirAll _ => (s, Ok tt)
  | WriteFile path data => (s ++ [(path, data)], Ok tt)
  | RemoveAll dir => (List.filter (fun f => negb (has_prefix f.1 dir)) s, Ok tt)
  | LoaderLoad path => (s, Ok (List.filter (fun f => has_prefix f.1 path) s))
  end.

Example loaded : run serve (LoadChartFromMemory [chart] "ws") [("/etc/x", "x")] =
  ([("/etc/x", "x")], Ok [("/tmp/c/ws/Chart.yaml", "name: ws"); ("/tmp/c/ws/templates/pod.yaml", "kind: Pod")]).
Proof. vm_compute. reflexivity. Qed.
End ChartSample.

Lemma LoadChartFromMemory_loads_embedded_witness :
  conform (os_step "ws" (contents "ws" ChartSample.chart)) (LoadChartFromMemory (C := unit) [ChartSample.chart] "ws") (mkProgress None [] 0)
    (fun p r => temp p = None /\ match r with Ok _ => loads p = 1%nat | Err _ => (loads p <= 1)%nat end) /\
  length (contents "ws" ChartSample.chart) = 2%nat.
Proof.
  split; [|vm_compute; reflexivity].
  apply (LoadChartFromMemory_loads_embedded [ChartSample.chart] "ws" ChartSample.chart). reflexivity.
Defined.

Lemma LoadChartFromMemory_unknown_witness :
  conform (os_step "db" []) (LoadChartFromMemory (C := unit) [ChartSample.chart] "db") (mkProgress None [] 0)
    (fun p r => temp p = None /\ loads p = 0%nat /\ exists e, r = Err e).
Proof. apply (LoadChartFromMemory_unknown [ChartSample.chart] "db"). reflexivity. Defined.
