(* ===== verification/Startup.v ===== *)
(** * Start-up and shutdown

    main.go, NewServer and Serve of internal/server/server.go, NewBlueprintManager,
    helm's NewClient and the node pools' Start: the command line, the order in which
    the process connects and loads, what is running when it serves, and how it ends.
    Other services, the Kubernetes client and the gRPC server are calls; what a
    configuration, a load of blueprints and the base resources are is in the files of
    those components. *)

From S2P Require Import Prelude GoStrings Yaml Merge Strategies Include Inherit Manager Values Effects Calls HelmOps Config Query Informers ChartFiles.
From S2P Require NodePool.

(** ** The command line *)

(** src/main.go:25-29 Options *)
Record Options : Type := mkOptions { ConfigPath : string; LogText : bool; ShowVersion : bool }.

(** A process that goes on, or its exit status. *)
Inductive parsed : Type := Proceed (o : Options) | Exit (status : Z).

(** [flag.Parse] over the three flags: it stops at the first argument that is not a
    flag, ends the process with status 0 for -h and -help and with 2 on an error. *)
Definition is_flag (arg : string) : bool := has_prefix arg "-" && (2 <=? String.length arg)%nat.

(** The name and the value after an equals sign, which is not looked for at the
    start of the name. *)
Definition flag_name_value (arg : string) : string * option string :=
  let name := if has_prefix arg "--" then drop_str 2 arg else drop_str 1 arg in
  match name with
  | String c rest =>
      let '(before, after, found) := cut_byte (Ascii.ascii_of_nat 61) rest in
      (String c before, if found then Some after else None)
  | "" => ("", None)
  end.

Definition bad_syntax (name : string) : bool := String.eqb name "" || has_prefix name "-" || has_prefix name "=".

Definition set_bool (value : option string) : option bool := match value with None => Some true | Some v => parse_bool v end.

Fixpoint parse_flags (o : Options) (args : list string) : parsed :=
  match args with
  | [] => Proceed o
  | arg :: args =>
      if negb (is_flag arg) then Proceed o
      else if String.eqb arg "--" then Proceed o
      else
        let '(name, value) := flag_name_value arg in
        if bad_syntax name then Exit 2
        else if String.eqb name "config" then
          match value, args with
          | Some v, _ => parse_flags (mkOptions v (LogText o) (ShowVersion o)) args
          | None, v :: args => parse_flags (mkOptions v (LogText o) (ShowVersion o)) args
          | None, [] => Exit 2
          end
        else if String.eqb name "logtext" then
          match set_bool value with Some b => parse_flags (mkOptions (ConfigPath o) b (ShowVersion o)) args | None => Exit 2 end
        else if String.eqb name "v" then
          match set_bool value with Some b => parse_flags (mkOptions (ConfigPath o) (LogText o) b) args | None => Exit 2 end
        else if String.eqb name "help" || String.eqb name "h" then Exit 0
        else Exit 2
  end.

(** It never returns an error.

    src/main.go:32-63 getOptions *)
Definition getOptions (args : list string) : parsed :=
  match parse_flags (mkOptions "config/config.yaml" false false) args with
  | Proceed o => if ShowVersion o then Exit 0 else Proceed o
  | Exit status => Exit status
  end.

(** ** What is called *)

Section boot.
(** Durations and floats of the configuration; the configurations of third-party
    clients; loaded charts. *)
Context {D Fl K C : Type}.

(** A client, a connection or a bucket. *)
Abbreviation handle := nat (only parsing).

(** The settings NewServer hands on. *)
Record Settings : Type := mkSettings {
  st_TargetNamespace : string;
  st_DBEnabled : bool;
  st_DB : K;
  st_BlueprintsDirectory : string;
  st_NatsEnabled : bool;
  st_Nats : K;
  st_Identity : K;
  st_Authz : K;
  st_JWTVerifier : K;
  st_GrpcConfig : K;
  st_DefaultRegistry : string;
  st_PrivateRegistry : PrivateRegistry;
}.

Abbreviation Cfg := (ServerConfig D Fl Settings).

(** client-go's rest.Config; a limit that is not set is client-go's own. *)
Record RestConfig : Type := mkRestConfig { rc_QPS : option Fl; rc_Burst : option Z }.

(** How the select of Serve ends. *)
Inductive stop : Type := Signalled | ServerFailed.

Inductive boot : Type -> Type :=
| OnApi {X} (e : api X) : boot X
| OnOs {X} (e : os C X) : boot X
(** Configuration, database and blueprints. *)
| ReadConfig (file : string) : boot (option Cfg)
| DBConnect (c : K) : boot (answer handle)
| ReadOrgBlueprints (db : handle) : boot OrgBlueprintStore
| ReadBlueprints (dir : string) : boot (result file_error store)
| WatcherSetup (dir : string) (delay : Z) : boot (answer unit)
(** Other services. *)
| NatsConnect (c : K) : boot (answer (option handle))
| NatsBucket (nats : handle) (ttl : D) : boot (answer handle)
| IdentityConnect (c : K) : boot (answer handle)
| AuthzConnect (c : K) : boot (answer handle)
| VerifierNew (c : K) : boot (answer handle)
(** Kubernetes. *)
| InClusterConfig : boot (answer RestConfig)
| KubeClientFor (c : RestConfig) : boot (answer handle)
| DynamicClientFor (c : RestConfig) : boot (answer handle)
| NodesProbe (kube : handle) : boot (answer unit)
| WaitForNodes : boot bool
(** gRPC. *)
| GrpcNew (c : K) : boot (answer handle)
| GrpcRegister (grpc : handle) : boot (answer unit)
| GrpcStop (grpc : handle) : boot unit
(** Signals, contexts and the goroutines that are started. *)
| SignalNotify : boot unit
| GoInformers (i : informer_options * informer_options * gmap string informer_options) : boot unit
| GoNodeInformer : boot unit
| GoInjectionWatcher (namespaces : list string) : boot unit
| GoServe (grpc : handle) : boot unit
| Select : boot stop
| CancelContext : boot unit
| LogError (text : string) : boot unit.

(** Programs over the API and over the operating system are programs here. *)
Fixpoint translate {E F : Type -> Type} (f : forall X, E X -> F X) {R} (m : prog E R) : prog F R :=
  match m with Ret r => Ret r | Vis e k => Vis (f _ e) (fun x => translate f (k x)) end.

Definition on_api {R} (m : prog api R) : prog boot R := translate (@OnApi) m.
Definition on_os {R} (m : prog (os C) R) : prog boot R := translate (@OnOs) m.

(** ** The parts *)

(** The embedded charts; what the configuration's libraries are (Config.v); a limit
    above zero; the orders and the validators of the manager (Manager.v). *)
Context `{Y : YamlLib}.
Variable charts : list tree.
Variable structure_valid : Cfg -> bool.
Variable ParseDuration : string -> option D.
Variable qualified_name : string -> bool.
Variable is_zero : Fl -> bool.
Variable float32 : Z -> Fl.
Variable positive : Fl -> bool.
Variable IsEnabled : K -> bool.
Variable order : gmap string strategy -> list (string * strategy).
Variable blueprint_errors : RawBlueprint -> list string.
Variable enumerate : store -> list string.

(** src/internal/helm/client.go:44-46 WORKSPACE_CHART_NAME *)
Definition WORKSPACE_CHART_NAME : string := "k8shell-workspace".

(** src/internal/helm/client.go:51-72 Client *)
Record HelmClient : Type := mkHelmClient {
  hc_kubeClient : handle;
  hc_dynamicClient : handle;
  hc_charts : gmap string C;
  hc_targetNamespace : string;
  hc_Registry : string;
  hc_PrivateRegistry : PrivateRegistry;
  hc_AppVersion : string;
  hc_Commit : string;
}.

(** The limits of the configuration, where they are above zero.

    src/internal/helm/client.go:104-109 NewClient *)
Definition with_limits (qps : Fl) (burst : Z) (c : RestConfig) : RestConfig :=
  mkRestConfig (if positive qps then Some qps else rc_QPS c) (if (0 <? burst)%Z then Some burst else rc_Burst c).

(** src/internal/helm/client.go:93-143 NewClient *)
Definition NewClient (targetNamespace registry : string) (privateRegistry : PrivateRegistry) (qps : Fl) (burst : Z)
    : prog boot (answer HelmClient) :=
  let? config := wrapping "failed to get Kubernetes config" (call InClusterConfig) in
  let config := with_limits qps burst config in
  let? kubeClient := wrapping "failed to create Kubernetes client" (call (KubeClientFor config)) in
  let? dynamicClient := wrapping "failed to create dynamic Kubernetes client" (call (DynamicClientFor config)) in
  let? chart := wrapping "failed to load workspace chart" (on_os (LoadChartFromMemory charts WORKSPACE_CHART_NAME)) in
  Ret (Ok (mkHelmClient kubeClient dynamicClient {[WORKSPACE_CHART_NAME := chart]} targetNamespace registry privateRegistry "" "")).

(** src/internal/blueprint/blueprint.go:108-117 LoadOptions *)
Record LoadOptions : Type := mkLoadOptions {
  lo_Dir : string;
  lo_Strategies : option (gmap string strategy);
  lo_EnableWatch : bool;
  lo_OrgStore : option handle;
}.

(** The first load starts from no blueprints. Without the watch nothing is loaded.

    src/internal/blueprint/blueprint.go:159-195 NewBlueprintManager *)
Definition NewBlueprintManager (opts : LoadOptions) : prog boot (answer store) :=
  let strategies := default ∅ (lo_Strategies opts) in
  if negb (lo_EnableWatch opts) then Ret (Ok ∅) else
  let! files := call (ReadBlueprints (lo_Dir opts)) in
  let! orgStore := match files, lo_OrgStore opts with
                   | Ok _, Some db => let! orgs := call (ReadOrgBlueprints db) in Ret (Some orgs)
                   | _, _ => Ret None
                   end in
  match loadAndValidateBlueprints (findStrategy strategies (order strategies) (order strategies)) orgStore files
          blueprint_errors enumerate ∅ with
  | (_, Some _) => Ret (Err (Wrap "initial load failed" (Plain "load")))
  | (published, None) =>
      let? _ := wrapping "failed to setup file watcher" (call (WatcherSetup (lo_Dir opts) (500 * 1000000))) in
      Ret (Ok (default ∅ (last published)))
  end.

(** src/internal/server/server.go:38-57 Server *)
Record Server : Type := mkServer {
  sv_config : Cfg;
  sv_appVersion : string;
  sv_commit : string;
  sv_nats : option handle;
  sv_Identity : handle;
  sv_Authz : option handle;
  sv_tokenVerifier : handle;
  sv_grpc : handle;
  sv_bpManager : store;
  sv_helm : HelmClient;
  sv_nodePools : list string;
  sv_provisionJobsKV : option handle;
  sv_DB : option handle;
}.

(** src/internal/server/server.go:102-107 NewServer *)
Definition blueprint_dir (c : Cfg) : string :=
  let dir := st_BlueprintsDirectory (sc_rest c) in
  if is_abs dir then dir else filepath_join (sc_BaseDir c) dir.

(** The connection, and the bucket of jobs.

    src/internal/server/server.go:171-187 NewServer *)
Definition connect_nats (c : Cfg) : prog boot (answer (option handle * option handle)) :=
  if negb (st_NatsEnabled (sc_rest c)) then Ret (Ok (None, None)) else
  let? nats := wrapping "create nats client" (call (NatsConnect (st_Nats (sc_rest c)))) in
  match nats with
  | None => Ret (Err (Plain "nats is required for api-server to store sessions"))
  | Some nats =>
      let? kv := wrapping "create provision jobs kv" (call (NatsBucket nats (sc_ProvisionBucketTTL c))) in
      Ret (Ok (Some nats, Some kv))
  end.

Definition optional {A} (enabled : bool) (m : prog boot (answer A)) : prog boot (answer (option A)) :=
  if enabled then let? a := m in Ret (Ok (Some a)) else Ret (Ok None).

(** src/internal/server/server.go:78-240 NewServer *)
Definition NewServer (configFile appVersion commit : string) : prog boot (answer Server) :=
  let! file := call (ReadConfig configFile) in
  match NewConfig (fun _ => file) structure_valid ParseDuration qualified_name is_zero float32 configFile "cluster.local" with
  | Err _ => Ret (Err (Wrap "failed to load configuration" (Plain "config")))
  | Ok c =>
      let st := sc_rest c in
      let? db := optional (st_DBEnabled st) (wrapping "failed to create database connection" (call (DBConnect (st_DB st)))) in
      let? manager := wrapping "failed to create blueprint manager"
                        (NewBlueprintManager (mkLoadOptions (blueprint_dir c) (Some server_strategies) true db)) in
      let? nats := connect_nats c in
      let? identity := wrapping "failed to create identity client" (call (IdentityConnect (st_Identity st))) in
      let? authz := optional (IsEnabled (st_Authz st)) (wrapping "failed to create authz client" (call (AuthzConnect (st_Authz st)))) in
      let? verifier := wrapping "failed to create identity token verifier" (call (VerifierNew (st_JWTVerifier st))) in
      let? helm := wrapping "failed to create Helm client"
                     (NewClient (st_TargetNamespace st) (st_DefaultRegistry st) (st_PrivateRegistry st) (sc_QPS c) (sc_Burst c)) in
      let helm := mkHelmClient (hc_kubeClient helm) (hc_dynamicClient helm) (hc_charts helm) (hc_targetNamespace helm)
                    (hc_Registry helm) (hc_PrivateRegistry helm) appVersion commit in
      let? grpc := wrapping "failed to create gRPC service" (call (GrpcNew (st_GrpcConfig st))) in
      let? _ := wrapping "failed to register gRPC service" (call (GrpcRegister grpc)) in
      let? _ := wrapping "failed to ensure base namespace"
                  (on_api (EnsureBase (hc_targetNamespace helm) appVersion commit (PrivateRegistry_ToValues (hc_PrivateRegistry helm)))) in
      Ret (Ok (mkServer c appVersion commit nats.1 identity authz verifier grpc manager helm (sc_NodeSelectorKeys c) nats.2 db))
  end.

(** ** Serving *)

(** src/internal/nodepool/nodepool.go:56-77 Start *)
Definition Discovery_Start (kube : handle) (keys : list string) : prog boot (answer unit) :=
  match keys with
  | [] => Ret (Ok tt)
  | _ =>
      let? _ := wrapping "list nodes" (call (NodesProbe kube)) in
      let! _ := call GoNodeInformer in
      let! synced := call WaitForNodes in
      Ret (if synced : bool then Ok tt else Err (Plain "node cache did not sync"))
  end.

(** Once everything else runs: the watcher of injections, if there is something to
    watch, and the gRPC server, until a signal comes or it fails.

    src/internal/server/server.go:307-331 Serve *)
Definition serve_until_stopped (s : Server) : prog boot (answer unit) :=
  let! _ := match sc_InjectNamespaces (sv_config s) with
            | [] => Ret tt
            | namespaces => call (GoInjectionWatcher namespaces)
            end in
  let! _ := call (GoServe (sv_grpc s)) in
  let! why := call Select in
  match why with
  | Signalled =>
      let! _ := call CancelContext in
      let! _ := call (GrpcStop (sv_grpc s)) in
      Ret (Ok tt)
  | ServerFailed => Ret (Err (Plain "gRPC server error"))
  end.

(** The context is cancelled by the deferred call, whatever happens; on a signal it
    is cancelled before the gRPC server is stopped, too.

    src/internal/server/server.go:290-332 Serve *)
Definition Serve (s : Server) : prog boot (answer unit) :=
  let! _ := call SignalNotify in
  let! _ := call (GoInformers (StartWorkspaceInformers (hc_targetNamespace (sv_helm s)) (sc_InjectNamespaces (sv_config s)))) in
  let! r := wrapping "start node selector discovery" (Discovery_Start (hc_kubeClient (sv_helm s)) (sv_nodePools s)) in
  let! r := match r with Err e => Ret (Err e) | Ok _ => serve_until_stopped s end in
  let! _ := call CancelContext in
  Ret r.

(** The exit status of the process.

    src/main.go:65-85 main *)
Definition main (version commit : string) (args : list string) : prog boot Z :=
  match getOptions args with
  | Exit status => Ret status
  | Proceed opts =>
      let! r := NewServer (ConfigPath opts) version commit in
      match r with
      | Err _ => let! _ := call (LogError "Error starting server") in Ret 0%Z
      | Ok server =>
          let! r := Serve server in
          match r with
          | Err _ => let! _ := call (LogError "Error running server") in Ret 0%Z
          | Ok _ => Ret 0%Z
          end
      end
  end.

(** src/internal/server/version.go:12-14 serviceDescription *)
Definition serviceDescription : string := "Creates and tears down workspace pods per blueprint.".

(** src/internal/server/version.go:21-28 GetVersionInfo *)
Definition GetVersionInfo (s : Server) : string * string * string := (sv_appVersion s, sv_commit s, serviceDescription).

(** ** Following the calls *)

(** What Serve starts: the informers of workspaces, that of nodes, the watcher of
    injections in these namespaces, and the gRPC server. *)
Inductive thread : Type := Informers | NodeInformer | InjectionWatcher_ (namespaces : list string) | GrpcServer.

#[local] Instance thread_eq_dec : EqDecision thread.
Proof. solve_decision. Defined.

(** An object that the API server has accepted: kind, namespace, name, labels and
    what it declares. *)
Abbreviation written := (kind * string * string * gmap string string * yvalue)%type (only parsing).

(** How far the process is: its configuration, whether blueprints are watched, the
    server the service is registered on, the objects written, what Serve has
    started, whether the nodes are known, and how it ended. *)
Record life : Type := mkLife {
  lf_config : option Cfg;
  lf_watching : bool;
  lf_registered : option handle;
  lf_written : list written;
  lf_started : list thread;
  lf_synced : bool;
  lf_signalled : bool;
  lf_cancelled : bool;
  lf_stopped : bool;
}.

Definition unborn : life := mkLife None false None [] [] false false false false.

(** Nothing that Serve starts is running. *)
Definition quiet (l : life) : Prop :=
  lf_started l = [] /\ lf_synced l = false /\ lf_signalled l = false /\ lf_cancelled l = false /\ lf_stopped l = false.

(** Serving needs everything else: a configuration, blueprints that are watched,
    the service on this very server, the informers, the nodes and their informer
    when they are asked for, and the watcher of the namespaces for injection when
    there are any. *)
Definition may_serve (grpc : handle) (l : life) : bool :=
  match lf_config l with
  | None => false
  | Some c =>
      lf_watching l && bool_decide (lf_registered l = Some grpc) && bool_decide (Informers ∈ lf_started l) &&
      (bool_decide (sc_NodeSelectorKeys c = []) || bool_decide (NodeInformer ∈ lf_started l) && lf_synced l) &&
      (bool_decide (sc_InjectNamespaces c = []) || bool_decide (InjectionWatcher_ (sc_InjectNamespaces c) ∈ lf_started l)) &&
      negb (bool_decide (GrpcServer ∈ lf_started l)) && negb (lf_cancelled l)
  end.

(** What is written with a call that succeeds. *)
Definition writes (b : list written) {A} (e : api A) : A -> list written :=
  match e in api A return A -> list written with
  | ObjCreate k ns false o | ObjUpdate k ns o => fun r =>
      if is_ok r then (k, ns, obj_Name o, obj_Labels o, obj_body o) :: b else b
  | _ => fun _ => b
  end.

(** Nothing is started twice, after the end, or, the gRPC server, before the rest;
    the gRPC server is stopped when it is running and the context is done. *)
Definition boot_step (l : life) X (e : boot X) : X -> judgement life :=
  let '(mkLife cfg w r b t s g c st) := l in
  let start th := if bool_decide (th ∈ t) || c then Forbidden else Next (mkLife cfg w r b (th :: t) s g c st) in
  match e in boot X return X -> judgement life with
  | ReadConfig file => fun x =>
      Next (mkLife (match NewConfig (fun _ => x) structure_valid ParseDuration qualified_name is_zero float32 file "cluster.local" with
                    | Ok conf => Some conf
                    | Err _ => None
                    end) w r b t s g c st)
  | WatcherSetup _ _ => fun x => Next (mkLife cfg (is_ok x) r b t s g c st)
  | GrpcRegister grpc => fun x => Next (mkLife cfg w (if is_ok x then Some grpc else None) b t s g c st)
  | OnApi e => fun x => Next (mkLife cfg w r (writes b e x) t s g c st)
  | GoInformers _ => fun _ => start Informers
  | GoNodeInformer => fun _ => start NodeInformer
  | GoInjectionWatcher namespaces => fun _ => start (InjectionWatcher_ namespaces)
  | WaitForNodes => fun x => Next (mkLife cfg w r b t x g c st)
  | GoServe grpc => fun _ => if may_serve grpc l then start GrpcServer else Forbidden
  | Select => fun x =>
      if bool_decide (GrpcServer ∈ t)
      then Next (mkLife cfg w r b t s (match x with Signalled => true | ServerFailed => false end) c st) else Forbidden
  | CancelContext => fun _ => Next (mkLife cfg w r b t s g true st)
  | GrpcStop grpc => fun _ =>
      if bool_decide (GrpcServer ∈ t) && c && bool_decide (r = Some grpc) then Next (mkLife cfg w r b t s g c true) else Forbidden
  | _ => fun _ => Next l
  end.

(** The calls of another signature do not move it. *)
Lemma conform_translate {E : Type -> Type} (f : forall X, E X -> boot X) {R} (m : prog E R) l (Q : life -> R -> Prop) :
  (forall X (e : E X) x, boot_step l _ (f X e) x = Next l) -> (forall r, Q l r) -> conform boot_step (translate f m) l Q.
Proof.
  intros Hf HQ. induction m as [r|X e k IH]; cbn [translate conform]; [apply HQ|]. intros x. rewrite Hf. apply IH.
Qed.

Lemma os_idle l X (e : os C X) x : boot_step l _ (OnOs e) x = Next l.
Proof. by destruct l. Qed.

(** A call whose answer does not matter to it, with an error to return. *)
Lemma conform_idle {A B} text (e : boot (answer A)) (f : A -> prog boot (answer B)) l (Q : life -> answer B -> Prop) :
  (forall x, boot_step l _ e x = Next l) -> (forall err, Q l (Err err)) -> (forall a, conform boot_step (f a) l Q) ->
  conform boot_step (try_bind (wrapping text (call e)) f) l Q.
Proof.
  intros He HQ Hf. apply conform_wrap, conform_call. intros x. rewrite He. destruct x as [a|err]; [apply Hf|apply HQ].
Qed.

(** ** Loading *)

(** A load that succeeds publishes blueprints that validate. *)
Lemma loaded_valid find orgStore files original published :
  loadAndValidateBlueprints find orgStore files blueprint_errors enumerate original = (published, None) ->
  validateAllBlueprints blueprint_errors enumerate (default ∅ (last published)) = [].
Proof.
  unfold loadAndValidateBlueprints. destruct files as [s1|]; [|done]. destruct (loadOrgBlueprints _ _) as [s2|]; [|done].
  destruct (resolveInheritance _ _ _) as [[s3|]|]; [|done..].
  destruct (validateAllBlueprints _ _ s3) eqn:E; [|done]. intros [= <-]. exact E.
Qed.

Lemma manager_conform dir strategies db l (Q : life -> answer store -> Prop) :
  (forall e b, Q (mkLife (lf_config l) b (lf_registered l) (lf_written l) (lf_started l) (lf_synced l) (lf_signalled l)
                (lf_cancelled l) (lf_stopped l)) (Err e)) ->
  Q l (Err (Wrap "initial load failed" (Plain "load"))) ->
  (forall s, validateAllBlueprints blueprint_errors enumerate s = [] ->
     Q (mkLife (lf_config l) true (lf_registered l) (lf_written l) (lf_started l) (lf_synced l) (lf_signalled l)
          (lf_cancelled l) (lf_stopped l)) (Ok s)) ->
  conform boot_step (NewBlueprintManager (mkLoadOptions dir strategies true db)) l Q.
Proof.
  destruct l as [cfg w r b t n g c st]. cbn [lf_config lf_registered lf_written lf_started lf_synced lf_signalled lf_cancelled lf_stopped].
  intros Herr Hload Hok. unfold NewBlueprintManager. cbn [lo_EnableWatch negb lo_Dir lo_OrgStore lo_Strategies].
  apply conform_bind, conform_call. intros files. cbn [boot_step]. apply conform_bind.
  assert (Hrest : forall orgs, conform boot_step
    (match loadAndValidateBlueprints (findStrategy (default ∅ strategies) (order (default ∅ strategies)) (order (default ∅ strategies)))
             orgs files blueprint_errors enumerate ∅ with
     | (published, None) =>
         let? _ := wrapping "failed to setup file watcher" (call (WatcherSetup dir (500 * 1000000))) in
         Ret (Ok (default ∅ (last published)))
     | (_, Some _) => Ret (Err (Wrap "initial load failed" (Plain "load")))
     end) (mkLife cfg w r b t n g c st) Q).
  { intros orgs. destruct (loadAndValidateBlueprints _ _ _ _ _ _) as [published [e|]] eqn:E; [exact Hload|].
    apply conform_wrap, conform_call. intros [[]|e]; cbn; [|apply Herr]. by eapply Hok, loaded_valid. }
  destruct files as [s1|e]; [destruct db as [db|]|]; [|exact (Hrest None)..].
  apply conform_bind, conform_call. intros orgs. exact (Hrest (Some orgs)).
Qed.

(** ** A server that is returned *)

(** What NewServer promises of [s], when the process is at [l]. *)
Definition ready (l : life) (appVersion commit : string) (s : Server) : Prop :=
  let c := sv_config s in
  let st := sc_rest c in
  let labels := base_labels appVersion commit in
  let registry := PrivateRegistry_ToValues (st_PrivateRegistry st) in
  let docker := string_or_empty (registry !! "dockerConfigJson") in
  let ca := string_or_empty (registry !! "certCA") in
  lf_config l = Some c /\ lf_watching l = true /\ lf_registered l = Some (sv_grpc s) /\ quiet l /\
  validateAllBlueprints blueprint_errors enumerate (sv_bpManager s) = [] /\
  (is_Some (sv_DB s) <-> st_DBEnabled st = true) /\
  (is_Some (sv_nats s) <-> st_NatsEnabled st = true) /\ (is_Some (sv_provisionJobsKV s) <-> is_Some (sv_nats s)) /\
  (is_Some (sv_Authz s) <-> IsEnabled (st_Authz st) = true) /\
  sv_nodePools s = sc_NodeSelectorKeys c /\
  hc_targetNamespace (sv_helm s) = st_TargetNamespace st /\ st_TargetNamespace st <> "" /\
  (docker <> "" -> (Secrets, st_TargetNamespace st, regcred_name registry, labels,
     YMap [("type", YStr "kubernetes.io/dockerconfigjson"); ("data", texts [(".dockerconfigjson", docker)])]) ∈ lf_written l) /\
  (ca <> "" -> (ConfigMaps, st_TargetNamespace st, "registryca", labels,
     YMap [("data", texts [("registry-ca.pem", ca)])]) ∈ lf_written l) /\
  is_Some (hc_charts (sv_helm s) !! WORKSPACE_CHART_NAME) /\
  GetVersionInfo s = (appVersion, commit, serviceDescription) /\ hc_AppVersion (sv_helm s) = appVersion.

Lemma conform_optional {A B} enabled text (e : boot (answer A)) (f : option A -> prog boot (answer B)) l (Q : life -> answer B -> Prop) :
  (forall x, boot_step l _ e x = Next l) -> (forall err, Q l (Err err)) ->
  (forall o, (is_Some o <-> enabled = true) -> conform boot_step (f o) l Q) ->
  conform boot_step (try_bind (optional enabled (wrapping text (call e))) f) l Q.
Proof.
  intros He HQ Hf. unfold optional. destruct enabled.
  - apply conform_try, conform_idle; [exact He|exact HQ|]. intros a. apply Hf. split; [done|by eexists].
  - apply Hf. split; [by intros [? ?]|done].
Qed.

Lemma conform_nats {B} c (f : option handle * option handle -> prog boot (answer B)) l (Q : life -> answer B -> Prop) :
  (forall err, Q l (Err err)) ->
  (forall o kv, (is_Some o <-> st_NatsEnabled (sc_rest c) = true) -> (is_Some kv <-> is_Some o) -> conform boot_step (f (o, kv)) l Q) ->
  conform boot_step (try_bind (connect_nats c) f) l Q.
Proof.
  intros HQ Hf. destruct l as [cfg w r b t n g cc st]. apply conform_try. unfold connect_nats.
  destruct (st_NatsEnabled (sc_rest c)); cbn [negb]; [|apply Hf; split; [by intros [? ?]|done|done|done]].
  apply conform_idle; [done|exact HQ|]. intros [nats|]; [|apply HQ].
  apply conform_idle; [done|exact HQ|]. intros kv. apply Hf; split; done || by eexists.
Qed.

Lemma conform_NewClient {B} ns registry private qps burst (f : HelmClient -> prog boot (answer B)) text l (Q : life -> answer B -> Prop) :
  (forall err, Q l (Err err)) ->
  (forall kube dyn chart, conform boot_step (f (mkHelmClient kube dyn {[WORKSPACE_CHART_NAME := chart]} ns registry private "" "")) l Q) ->
  conform boot_step (try_bind (wrapping text (NewClient ns registry private qps burst)) f) l Q.
Proof.
  intros HQ Hf. apply conform_wrap. unfold NewClient.
  apply conform_idle; [by destruct l|intros; apply HQ|]. intros config.
  apply conform_idle; [by destruct l|intros; apply HQ|]. intros kube.
  apply conform_idle; [by destruct l|intros; apply HQ|]. intros dyn.
  apply conform_wrap, conform_translate; [by destruct l|]. intros [chart|e]; [apply Hf|apply HQ].
Qed.

(** Programs over the API only move what has been written. *)
Definition wrote (b : list written) A (e : api A) (x : A) : judgement (list written) := Next (writes b e x).

Definition with_written (b : list written) (l : life) : life :=
  mkLife (lf_config l) (lf_watching l) (lf_registered l) b (lf_started l) (lf_synced l) (lf_signalled l) (lf_cancelled l) (lf_stopped l).

Lemma conform_on_api {R} (m : prog api R) l b (Q : life -> R -> Prop) :
  conform wrote m b (fun b r => Q (with_written b l) r) -> conform boot_step (on_api m) (with_written b l) Q.
Proof.
  revert b. induction m as [r|X e k IH]; intros b H; [exact H|]. cbn [on_api translate conform]. intros x. specialize (H x).
  destruct l as [cfg w r lb t n g c st]. cbn [boot_step with_written lf_config lf_watching lf_registered lf_started lf_synced
    lf_signalled lf_cancelled lf_stopped wrote] in *. apply (IH x (writes b e x)), H.
Qed.

Lemma apply_object_wrote k ns what o b :
  conform wrote (apply_object k ns what o) b
    (fun b' r => r = Ok tt -> b' = (k, ns, obj_Name o, obj_Labels o, obj_body o) :: b).
Proof.
  unfold apply_object. apply conform_bind, conform_call. intros [existing|e]; cbn [wrote writes].
  - unfold wrapping. apply conform_bind, conform_call. intros [[]|e]; cbn; [by destruct o|done].
  - case_goal; [done|]. unfold wrapping. apply conform_bind, conform_call. by intros [[]|e'].
Qed.

Lemma EnsureBase_wrote ns version commit values b :
  conform wrote (EnsureBase ns version commit values) b
    (fun b' r => r = Ok tt -> ns <> "" /\
       (string_or_empty (values !! "dockerConfigJson") <> "" ->
          (Secrets, ns, regcred_name values, base_labels version commit,
           YMap [("type", YStr "kubernetes.io/dockerconfigjson");
                 ("data", texts [(".dockerconfigjson", string_or_empty (values !! "dockerConfigJson"))])]) ∈ b') /\
       (string_or_empty (values !! "certCA") <> "" ->
          (ConfigMaps, ns, "registryca", base_labels version commit,
           YMap [("data", texts [("registry-ca.pem", string_or_empty (values !! "certCA"))])]) ∈ b')).
Proof.
  unfold EnsureBase. destruct (String.eqb_spec ns "") as [|Hns]; [done|]. cbv zeta. apply conform_try.
  set (docker := string_or_empty (values !! "dockerConfigJson")). set (ca := string_or_empty (values !! "certCA")).
  set (secret := (Secrets, ns, regcred_name values, base_labels version commit, YMap _)).
  set (cm := (ConfigMaps, ns, "registryca", base_labels version commit, YMap _)).
  assert (Hca : forall b, (docker <> "" -> secret ∈ b) -> conform wrote
    (if String.eqb ca "" then Ret (Ok tt)
     else wrapping "failed to apply registryca configmap" (applyConfigMap ns "registryca" (base_labels version commit) [("registry-ca.pem", ca)])) b
    (fun b' r => r = Ok tt -> ns <> "" /\ (docker <> "" -> secret ∈ b') /\ (ca <> "" -> cm ∈ b'))).
  { intros b0 Hd. destruct (String.eqb_spec ca "") as [|Hne]; [done|]. unfold wrapping, applyConfigMap. apply conform_bind.
    eapply conform_mono; [apply apply_object_wrote|]. intros b' [[]|e] Hb; [|done]. cbn. intros _. rewrite (Hb eq_refl).
    split; [done|]. split; intros; set_solver. }
  destruct (String.eqb_spec docker "") as [|Hne]; [by apply Hca|]. unfold wrapping at 1. apply conform_bind. unfold applySecret.
  eapply conform_mono; [apply apply_object_wrote|]. intros b' [[]|e] Hb; [|done]. cbn [res_wrap conform]. rewrite (Hb eq_refl).
  apply Hca. intros _. set_solver.
Qed.

(** Whatever is answered on the way, NewServer starts nothing of what Serve starts,
    and a server it returns is complete: it has the configuration of the file, its
    blueprints validate and are watched, it has exactly the connections that are
    enabled, the chart, the base resources in a namespace that is set, and the
    service on its own gRPC server. *)
Lemma NewServer_conform configFile appVersion commit :
  conform boot_step (NewServer configFile appVersion commit) unborn
    (fun l r => match r with Ok s => ready l appVersion commit s | Err _ => quiet l end).
Proof.
  unfold NewServer. apply conform_bind, conform_call. intros file. cbn [boot_step unborn].
  destruct (NewConfig _ _ _ _ _ _ _ _) as [c|e]; [|by unfold quiet].
  apply conform_optional; [done|done|]. intros db Hdb.
  apply conform_wrap, manager_conform; [done|done|]. intros s Hs. cbn [lf_config lf_registered lf_written lf_started lf_synced lf_signalled lf_cancelled lf_stopped].
  apply conform_nats; [done|]. intros nats kv Hn Hkv.
  apply conform_idle; [done|done|]. intros identity.
  apply conform_optional; [done|done|]. intros authz Ha.
  apply conform_idle; [done|done|]. intros verifier.
  apply conform_NewClient; [done|]. intros kube dyn chart. cbv zeta. cbn [hc_kubeClient hc_dynamicClient hc_charts hc_targetNamespace hc_Registry hc_PrivateRegistry].
  apply conform_idle; [done|done|]. intros grpc.
  apply conform_wrap, conform_call. intros [[]|e]; cbn [boot_step is_ok]; [|done].
  apply conform_wrap. eapply (conform_on_api _ (mkLife (Some c) true (Some grpc) [] [] false false false false) []).
  eapply conform_mono; [apply EnsureBase_wrote|]. intros b [[]|e] Hb; [|by unfold quiet].
  destruct (Hb eq_refl) as (Hns & Hd & Hca). unfold ready, quiet. cbn. by split_and!.
Qed.

(** ** Serving *)

(** What Serve has started has been told to end: the context it runs under is
    cancelled; and after a signal the gRPC server has been stopped. *)
Definition ended (l : life) : Prop :=
  (lf_started l <> [] -> lf_cancelled l = true) /\
  (lf_signalled l = true -> GrpcServer ∈ lf_started l /\ lf_stopped l = true).

Lemma quiet_ended l : quiet l -> ended l.
Proof. intros (H1 & _ & H2 & _). unfold ended. by rewrite H1, H2. Qed.

(** The states of Serve before the gRPC server runs. *)
Definition preparing (b : list written) (t : list thread) (synced : bool) (s : Server) : life :=
  mkLife (Some (sv_config s)) true (Some (sv_grpc s)) b t synced false false false.

(** What runs besides the gRPC server. *)
Definition unless_empty {A} (l : list A) (t : thread) : list thread := match l with [] => [] | _ => [t] end.

Definition informers (s : Server) : list thread := unless_empty (sc_NodeSelectorKeys (sv_config s)) NodeInformer ++ [Informers].

Definition threads (s : Server) : list thread :=
  unless_empty (sc_InjectNamespaces (sv_config s)) (InjectionWatcher_ (sc_InjectNamespaces (sv_config s))) ++ informers s.

Lemma elem_of_unless_empty {A} (l : list A) t t' : t ∈ unless_empty l t' <-> l <> [] /\ t = t'.
Proof. destruct l; cbn; set_solver. Qed.

Lemma start_grpc b synced s (Q : life -> answer unit -> Prop) :
  bool_decide (sc_NodeSelectorKeys (sv_config s) = []) || synced = true ->
  Q (mkLife (Some (sv_config s)) true (Some (sv_grpc s)) b (GrpcServer :: threads s) synced true true true) (Ok tt) ->
  (forall e, Q (mkLife (Some (sv_config s)) true (Some (sv_grpc s)) b (GrpcServer :: threads s) synced false false false) (Err e)) ->
  conform boot_step (let! _ := call (GoServe (sv_grpc s)) in
    let! why := call Select in
    match why with
    | Signalled => let! _ := call CancelContext in let! _ := call (GrpcStop (sv_grpc s)) in Ret (Ok tt)
    | ServerFailed => Ret (Err (Plain "gRPC server error"))
    end) (preparing b (threads s) synced s) Q.
Proof.
  intros Hsync Hok Herr.
  assert (Hin : Informers ∈ threads s) by (unfold threads, informers; set_solver).
  assert (Hnot : GrpcServer ∉ threads s).
  { unfold threads, informers. rewrite !elem_of_app, !elem_of_unless_empty. set_solver. }
  assert (Hserve : may_serve (sv_grpc s) (preparing b (threads s) synced s) = true).
  { unfold may_serve, preparing. cbn. rewrite bool_decide_true by done. rewrite bool_decide_true by exact Hin.
    rewrite (bool_decide_false (GrpcServer ∈ _)) by exact Hnot. cbn. rewrite !andb_true_r. apply andb_true_intro. split.
    - destruct (bool_decide (sc_NodeSelectorKeys _ = [])) eqn:Hk; [done|]. cbn in Hsync |- *. rewrite Hsync, andb_true_r.
      apply bool_decide_eq_false in Hk. apply bool_decide_eq_true. unfold threads, informers.
      rewrite !elem_of_app, !elem_of_unless_empty. auto.
    - destruct (bool_decide (sc_InjectNamespaces _ = [])) eqn:Hk; [done|]. apply bool_decide_eq_false in Hk.
      apply bool_decide_eq_true. unfold threads. rewrite elem_of_app, elem_of_unless_empty. auto. }
  apply conform_bind, conform_call. intros []. unfold boot_step at 1, preparing at 1. fold (preparing b (threads s) synced s).
  rewrite Hserve, (bool_decide_false (GrpcServer ∈ _)) by exact Hnot. cbn [orb].
  apply conform_bind, conform_call. intros why. cbn [boot_step]. rewrite bool_decide_true by set_solver.
  destruct why; [|apply Herr]. apply conform_bind, conform_call. intros []. cbn [boot_step].
  apply conform_bind, conform_call. intros []. cbn [boot_step]. rewrite !bool_decide_true by (done || set_solver). exact Hok.
Qed.

Lemma serve_until_stopped_conform b synced s (Q : life -> answer unit -> Prop) :
  bool_decide (sc_NodeSelectorKeys (sv_config s) = []) || synced = true ->
  Q (mkLife (Some (sv_config s)) true (Some (sv_grpc s)) b (GrpcServer :: threads s) synced true true true) (Ok tt) ->
  (forall e, Q (mkLife (Some (sv_config s)) true (Some (sv_grpc s)) b (GrpcServer :: threads s) synced false false false) (Err e)) ->
  conform boot_step (serve_until_stopped s)
    (preparing b (informers s) synced s) Q.
Proof.
  intros Hsync Hok Herr. unfold serve_until_stopped. apply conform_bind.
  apply (conform_mono _ _ _ (fun l _ => l = preparing b (threads s) synced s)).
  - unfold threads. destruct (sc_InjectNamespaces _) as [|ns l] eqn:E; [done|].
    apply conform_call. intros []. cbn [boot_step preparing]. rewrite bool_decide_false; [done|].
    unfold informers. rewrite elem_of_app, elem_of_unless_empty. set_solver.
  - intros l [] ->. by apply start_grpc.
Qed.

Lemma Discovery_Start_conform b kube s (Q : life -> answer unit -> Prop) :
  (forall synced, bool_decide (sc_NodeSelectorKeys (sv_config s) = []) || synced = true ->
     Q (preparing b (informers s) synced s) (Ok tt)) ->
  (forall e t, Q (preparing b t false s) (Err e)) ->
  conform boot_step (wrapping "start node selector discovery" (Discovery_Start kube (sc_NodeSelectorKeys (sv_config s))))
    (preparing b [Informers] false s) Q.
Proof.
  unfold informers. intros Hok Herr. unfold wrapping at 1. apply conform_bind. unfold Discovery_Start.
  destruct (sc_NodeSelectorKeys (sv_config s)) as [|k keys]; [by apply (Hok false)|].
  apply conform_wrap, conform_call. intros [[]|e]; cbn [boot_step preparing conform]; [|apply Herr].
  intros []. cbn. intros [|]; [by apply (Hok true)|apply Herr].
Qed.

Lemma Serve_conform l version commit s :
  ready l version commit s -> conform boot_step (Serve s) l (fun l' _ => ended l').
Proof.
  destruct l as [cfg w r b t n g c st]. unfold ready, quiet.
  cbn [lf_config lf_watching lf_registered lf_written lf_started lf_synced lf_signalled lf_cancelled lf_stopped].
  intros (-> & -> & -> & (-> & -> & -> & -> & ->) & _ & _ & _ & _ & _ & Hk & _).
  unfold Serve. rewrite Hk. apply conform_bind, conform_call. intros []. cbn [boot_step].
  apply conform_bind, conform_call. intros []. cbn [boot_step orb]. rewrite bool_decide_false by set_solver. cbn [orb].
  apply conform_bind, Discovery_Start_conform.
  - intros synced Hs. apply conform_bind, serve_until_stopped_conform; [done| |]; unfold ended; cbn.
    + intros []. split; [done|]. intros _. split; [set_solver|done].
    + intros e []. done.
  - intros e t. cbn. intros []. unfold ended. by cbn.
Qed.


(** Whatever fails, a process whose command line is accepted ends with status 0. *)
Theorem failure_exits_zero version commit args o t status :
  getOptions args = Proceed o -> traces (main version commit args) t status -> status = 0%Z.
Proof.
  intros Ho H. apply (conform_sound (fun _ _ _ _ => Next tt) _ tt (fun _ status => status = 0%Z)) in H.
  - assert (Ha : accept (fun _ (X : Type) (_ : boot X) (_ : X) => Next tt) tt t = Next tt)
      by (clear; induction t as [|[X e x] t IH]; [done|exact IH]).
    by rewrite Ha in H.
  - unfold main. rewrite Ho.
    assert (Hany : forall R (m : prog boot R), conform (fun _ _ _ _ => Next tt) m tt (fun _ _ => True)) by (induction m; cbn; auto).
    apply conform_bind. eapply conform_mono; [apply Hany|]. intros [] [s|e] _; [|by cbn].
    apply conform_bind. eapply conform_mono; [apply Hany|]. by intros [] [[]|e] _.
Qed.

(** C17. A server that NewServer returns is complete, whatever was answered on the way:
    it has the configuration of the file, its blueprints validate and their file
    watcher is set up, it has exactly the connections that are enabled, the chart,
    the keys of the node pools and the service registered on its own gRPC server;
    the target namespace is set, and the API server has accepted the registry's
    secret and the config map of its certificate authority, with the configured data
    and labels, where they are configured. Of what Serve starts nothing is running. *)
Theorem NewServer_ready configFile version commit t s :
  traces (NewServer configFile version commit) t (Ok s) ->
  exists l, accept boot_step unborn t = Next l /\ ready l version commit s.
Proof.
  intros H. eapply conform_sound in H; [|apply NewServer_conform].
  assert (Hne : forall l, accept boot_step l t <> Excluded).
  { clear H. induction t as [|[X e x] t IH]; intros l; [done|]. cbn [accept].
    destruct l, e; cbn [boot_step]; try apply IH;
      repeat match goal with |- context [if ?b then _ else _] => destruct b end; (apply IH || done). }
  specialize (Hne unborn). destruct (accept boot_step unborn t) as [| |l]; [done..|]. by exists l.
Qed.
End boot.

(** ** A start *)

Module StartSample.
Definition settings : Settings (K := string) :=
  mkSettings "ws" false "" "blueprints" false "" "identity:1" "" "jwt" "grpc" "registry" (mkPrivateRegistry "" "pem" "" "").
Definition config : ServerConfig Z Z (Settings (K := string)) :=
  mkServerConfig ["team"; "team"] ["zone"] "" false "" "" 0%Z "1h" "es256" "key.pem" "" "" 0%Z 0%Z settings.

(** Everything answers, the nodes are synced, and then a signal comes; or the identity
    service is down. *)
Definition answers (down : bool) X (e : boot (D := Z) (Fl := Z) (K := string) (C := list (string * string)) X) : X :=
  match e in boot X return X with
  | OnApi e => (HelmOps.serve _ (mkServed ∅ 1) e).2
  | OnOs e => (ChartSample.serve _ [] e).2
  | ReadConfig _ => Some config
  | DBConnect _ => Ok 1%nat
  | ReadOrgBlueprints _ => mkOrgStore None (fun _ _ => None)
  | ReadBlueprints _ => Ok ∅
  | WatcherSetup _ _ => Ok tt
  | NatsConnect _ => Ok (Some 2%nat)
  | NatsBucket _ _ => Ok 3%nat
  | IdentityConnect _ => if down then Err (Plain "refused") else Ok 4%nat
  | AuthzConnect _ => Ok 5%nat
  | VerifierNew _ => Ok 6%nat
  | InClusterConfig => Ok (mkRestConfig None None)
  | KubeClientFor _ => Ok 7%nat
  | DynamicClientFor _ => Ok 8%nat
  | NodesProbe _ => Ok tt
  | WaitForNodes => true
  | GrpcNew _ => Ok 9%nat
  | GrpcRegister _ => Ok tt
  | Select => Signalled
  | GrpcStop _ | SignalNotify | GoInformers _ | GoNodeInformer | GoInjectionWatcher _ | GoServe _ | CancelContext
  | LogError _ => tt
  end.

(** The calls of a program under such answers, with its result. *)
Fixpoint play (down : bool) {R} (m : prog (boot (D := Z) (Fl := Z) (K := string)) R) : list (event boot) * R :=
  match m with
  | Ret r => ([], r)
  | Vis e k => let '(t, r) := play down (k (answers down _ e)) in (Did e (answers down _ e) :: t, r)
  end.

Lemma play_traces down {R} (m : prog boot R) : traces m (play down m).1 (play down m).2.
Proof.
  induction m as [r|X e k IH]; cbn; [constructor|]. specialize (IH (answers down X e)).
  destruct (play down (k (answers down X e))) as [t r]. by constructor.
Qed.

#[local] Existing Instance SampleYaml.lib.
Definition chart : tree := TDir "k8shell-workspace" [TFile "Chart.yaml" "name: k8shell-workspace"].
#[local] Abbreviation boot_ := (boot (D := Z) (Fl := Z) (K := string) (C := list (string * string))).
#[local] Abbreviation Server_ := (Server (D := Z) (Fl := Z) (K := string) (C := list (string * string))).
Definition start (file : string) : prog boot_ (answer Server_) :=
  NewServer [chart] (fun _ => true) (fun _ => Some 3600%Z) (fun _ => true) (Z.eqb 0) (fun z => z) (Z.ltb 0) (fun _ => false)
    map_to_list (fun _ => []) (fun s => (map_to_list s).*1) file "1.0" "abc".
Definition process (args : list string) : prog boot_ Z :=
  main [chart] (fun _ => true) (fun _ => Some 3600%Z) (fun _ => true) (Z.eqb 0) (fun z => z) (Z.ltb 0) (fun _ => false)
    map_to_list (fun _ => []) (fun s => (map_to_list s).*1) "1.0" "abc" args.

(** A run serves, and both calls of cancel are made. *)
Example serves : (length (play false (process ["--config=/etc/c.yaml"])).1, (play false (process ["--config=/etc/c.yaml"])).2,
  List.filter (fun ev => match ev with Did e _ => match e with GoServe _ | CancelContext | GrpcStop _ => true | _ => false end end)
    (play false (process ["--config=/etc/c.yaml"])).1) =
  (29%nat, 0%Z, [Did (GoServe 9) tt; Did CancelContext tt; Did (GrpcStop 9) tt; Did CancelContext tt]).
Proof. vm_compute. reflexivity. Qed.
Example flags : (getOptions ["-logtext"; "--config"; "c.yaml"; "x"; "-v"], getOptions ["-v"], getOptions ["-config"], getOptions ["--logtext=no"]) =
  (Proceed (mkOptions "c.yaml" true false), Exit 0, Exit 2, Exit 2).
Proof. vm_compute. reflexivity. Qed.
End StartSample.

Lemma NewServer_ready_witness :
  exists l (s : Server (D := Z) (Fl := Z) (K := string) (C := list (string * string))), accept (boot_step (fun _ => true) (fun _ => Some 3600%Z) (fun _ => true) (Z.eqb 0) (fun z => z)) unborn
      (StartSample.play false (StartSample.start "/etc/c.yaml")).1 = Next l /\
    lf_registered l = Some (sv_grpc s) /\ sv_nodePools s = ["zone"] /\ sc_InjectNamespaces (sv_config s) = ["team"] /\
    (ConfigMaps, "ws", "registryca", base_labels "1.0" "abc", YMap [("data", texts [("registry-ca.pem", "pem")])]) ∈ lf_written l.
Proof.
  pose proof (StartSample.play_traces false (StartSample.start "/etc/c.yaml")) as Ht.
  destruct (StartSample.play false (StartSample.start "/etc/c.yaml")).2 as [s|e] eqn:E; [|vm_compute in E; discriminate E].
  destruct (NewServer_ready _ _ _ _ _ _ _ _ _ _ _ _ _ _ _ _ Ht) as (l & Hl & Hr).
  exists l, s. split; [exact Hl|]. destruct Hr as (_ & _ & Hg & _ & _ & _ & _ & _ & _ & _ & _ & _ & _ & Hca & _). split; [exact Hg|].
  vm_compute in E. injection E as <-. split; [reflexivity|]. split; [reflexivity|]. apply Hca. vm_compute. discriminate.
Defined.

Lemma failure_exits_zero_witness :
  getOptions ["--config"; ""] = Proceed (mkOptions "" false false) /\
  List.In (Did (LogError "Error starting server") tt) (StartSample.play true (StartSample.process ["--config"; ""])).1 /\
  (StartSample.play true (StartSample.process ["--config"; ""])).2 = 0%Z.
Proof.
  assert (H : getOptions ["--config"; ""] = Proceed (mkOptions "" false false)) by (vm_compute; reflexivity).
  split; [exact H|]. split; [vm_compute; tauto|].
  exact (failure_exits_zero _ _ _ _ _ _ _ _ _ _ _ _ _ _ _ _ _ H (StartSample.play_traces true (StartSample.process ["--config"; ""]))).
Defined.
