(* ===== verification/UserStr.v ===== *)
(** * User strings in annotations

    parseCanonicalUserStrFromBase64 of internal/workspace/workspace.go, which reads back
    what canonicalUserStrToBase64 (Values.v) wrote into the values of a release and the
    annotations of a pod, with base64.RawURLEncoding of Go's standard library. The
    grammar of user strings is third-party: its two functions are parameters. *)

From Stdlib Require Import Ascii ZifyNat.
From S2P Require Import Prelude GoStrings Values.

#[local] Ltac Zify.zify_post_hook ::= Z.to_euclidean_division_equations.

(** ** base64.RawURLEncoding *)

(** Bytes and sextets are numbers. *)
Fixpoint sextets (l : list nat) : list nat :=
  match l with
  | a :: b :: c :: l => a / 4 :: a mod 4 * 16 + b / 16 :: b mod 16 * 4 + c / 64 :: c mod 64 :: sextets l
  | [a; b] => [a / 4; a mod 4 * 16 + b / 16; b mod 16 * 4]
  | [a] => [a / 4; a mod 4 * 16]
  | [] => []
  end%nat.

(** A single sextet at the end is an error; bits that are left over are not looked at. *)
Fixpoint octets (l : list nat) : option (list nat) :=
  match l with
  | x :: y :: z :: w :: l => (fun r => x * 4 + y / 16 :: y mod 16 * 16 + z / 4 :: z mod 4 * 64 + w :: r) <$> octets l
  | [x; y; z] => Some [x * 4 + y / 16; y mod 16 * 16 + z / 4]
  | [x; y] => Some [x * 4 + y / 16]
  | [_] => None
  | [] => Some []
  end%nat.

Definition alphabet : list ascii := to_bytes "ABCDEFGHIJKLMNOPQRSTUVWXYZabcdefghijklmnopqrstuvwxyz0123456789-_".

Definition digit (i : nat) : ascii := nth i alphabet "000"%char.

Definition undigit (c : ascii) : option nat := fst <$> list_find (fun d => d = c) alphabet.

(** [EncodeToString]. *)
Definition EncodeToString (s : string) : string := of_bytes (digit <$> sextets (nat_of_ascii <$> to_bytes s)).

Definition is_newline (c : ascii) : bool := let n := nat_of_ascii c in ((n =? 10) || (n =? 13))%nat.

(** [DecodeString], which skips line ends. *)
Definition DecodeString (s : string) : option string :=
  ds ← mapM undigit (List.filter (fun c => negb (is_newline c)) (to_bytes s));
  l ← octets ds;
  Some (of_bytes (ascii_of_nat <$> l)).

(** ** The user string *)

Section userstr.
(** Parsed user strings and their canonical form, with the functions of the library. *)
Context {U : Type}.
Variable ParseUserStr : string -> option U.
Variable Canonicalize : U -> option CanonicalUserStr.

(** src/internal/workspace/workspace.go:143-168 parseCanonicalUserStrFromBase64 *)
Definition parseCanonicalUserStrFromBase64 (s : string) : option CanonicalUserStr :=
  if String.eqb s "" then None else
  let lower := of_bytes (to_lower (to_bytes s)) in
  raw ← (if has_prefix lower "b64-" || has_prefix lower "base64-" then ParseUserStr s
         else decoded ← DecodeString s; ParseUserStr decoded);
  Canonicalize raw.
End userstr.

(** ** Round trips *)

Lemma octets_sextets l : Forall (fun a => a < 256)%nat l -> octets (sextets l) = Some l.
Proof.
  assert (H : forall n l, (length l <= n)%nat -> Forall (fun a => a < 256)%nat l -> octets (sextets l) = Some l).
  { clear l. induction n as [|n IH]; intros l Hn Hl; [by destruct l; cbn in Hn; [|lia]|].
    destruct l as [|a [|b [|c l]]]; [done|..]; repeat apply Forall_cons in Hl as [? Hl]; cbn [sextets octets].
    - do 2 f_equal. lia.
    - do 2 f_equal; [lia|]. f_equal. lia.
    - rewrite (IH l) by (cbn in Hn; lia || done). unfold fmap, option_fmap, option_map. do 2 f_equal; [lia|]. f_equal; [lia|]. f_equal. lia. }
  intros Hl. by apply (H (length l)).
Qed.

Lemma sextets_small l : Forall (fun a => a < 256)%nat l -> Forall (fun i => i < 64)%nat (sextets l).
Proof.
  assert (H : forall n l, (length l <= n)%nat -> Forall (fun a => a < 256)%nat l -> Forall (fun i => i < 64)%nat (sextets l)).
  { clear l. induction n as [|n IH]; intros l Hn Hl; [by destruct l; cbn in Hn; [constructor|lia]|].
    destruct l as [|a [|b [|c l]]]; [constructor|..]; repeat apply Forall_cons in Hl as [? Hl]; cbn [sextets];
      repeat (constructor; [lia|]); [constructor..|]. apply IH; [cbn in Hn; lia|done]. }
  intros Hl. by apply (H (length l)).
Qed.

(** The digits are distinct, none ends a line, and only "6" has itself as lower case. *)
Lemma digit_facts i : (i < 64)%nat ->
  undigit (digit i) = Some i /\ is_newline (digit i) = false /\ (lower_ascii (digit i) = "6"%char -> i = 58%nat) /\
  (nat_of_ascii (digit i) < 128)%nat.
Proof.
  intros Hi. assert (H : forallb (fun i => bool_decide (undigit (digit i) = Some i) && negb (is_newline (digit i)) &&
    (negb (Ascii.eqb (lower_ascii (digit i)) "6") || Nat.eqb i 58) && Nat.ltb (nat_of_ascii (digit i)) 128) (seq 0 64) = true)
    by (vm_compute; reflexivity).
  rewrite forallb_forall in H. specialize (H i). rewrite !andb_true_iff, orb_true_iff, !negb_true_iff in H.
  destruct H as [[[H1 H2] H3] H4]; [apply in_seq; lia|]. apply bool_decide_eq_true in H1. apply Nat.ltb_lt in H4.
  split_and!; [done|done| |done]. intros E. destruct H3 as [H3|H3]; [by rewrite E in H3|by apply Nat.eqb_eq].
Qed.

Lemma bytes_small s : Forall (fun a => a < 256)%nat (nat_of_ascii <$> to_bytes s).
Proof. apply Forall_fmap, Forall_true. intros c. apply nat_ascii_bounded. Qed.

Lemma decode_digits ds : Forall (fun i => i < 64)%nat ds ->
  mapM undigit (List.filter (fun c => negb (is_newline c)) (digit <$> ds)) = Some ds.
Proof.
  induction 1 as [|i ds Hi _ IH]; [done|]. destruct (digit_facts i Hi) as (Hu & Hn & _).
  rewrite fmap_cons. cbn [List.filter]. rewrite Hn. cbn [negb mapM mbind option_bind]. by rewrite Hu, IH.
Qed.

(** A text decodes from its encoding, whatever its bytes. *)
Theorem DecodeString_EncodeToString s : DecodeString (EncodeToString s) = Some s.
Proof.
  unfold DecodeString, EncodeToString. rewrite to_bytes_of_bytes.
  rewrite decode_digits by apply sextets_small, bytes_small. cbn [mbind option_bind].
  rewrite octets_sextets by apply bytes_small. cbn [mbind option_bind]. f_equal.
  rewrite <- list_fmap_compose. rewrite (list_fmap_ext _ id) by (intros; apply ascii_nat_embedding).
  by rewrite list_fmap_id, of_bytes_to_bytes.
Qed.

(** Every byte of the text is ASCII. *)
Definition plain_text (s : string) : Prop := Forall (fun c => nat_of_ascii c < 128)%nat (to_bytes s).

Lemma to_lower_ascii l : Forall (fun c => nat_of_ascii c < 128)%nat l -> to_lower l = lower_ascii <$> l.
Proof.
  induction 1 as [|c l Hc _ IH]; [done|]. rewrite fmap_cons, <- IH.
  assert (H1 : (nat_of_ascii c =? 196)%nat = false) by (apply Nat.eqb_neq; lia).
  assert (H2 : (nat_of_ascii c =? 226)%nat = false) by (apply Nat.eqb_neq; lia).
  destruct l as [|c2 [|c3 l]]; cbn [to_lower]; by rewrite ?H1, ?H2.
Qed.

Lemma to_bytes_app s t : to_bytes (s +:+ t) = to_bytes s ++ to_bytes t.
Proof. induction s as [|c s IH]; [done|]. rewrite string_app_cons. cbn. by rewrite IH. Qed.

(** A digit is not the "6" of a prefix when the sextet is not 58. *)
Lemma prefix_digit n ds p : (n < length (to_bytes p))%nat -> nth n (to_bytes p) "000"%char = "6"%char ->
  Forall (fun i => i < 64)%nat ds -> (forall i, ds !! n = Some i -> i <> 58%nat) ->
  has_prefix (of_bytes (lower_ascii <$> (digit <$> ds))) p = false.
Proof.
  intros Hn Hp Hds Hi. destruct (has_prefix _ p) eqn:E; [|done]. exfalso.
  apply has_prefix_inv in E as [r E]. apply (f_equal to_bytes) in E. rewrite to_bytes_of_bytes, to_bytes_app in E.
  assert (El : (lower_ascii <$> (digit <$> ds)) !! n = Some "6"%char).
  { rewrite E, lookup_app_l by done. rewrite <- Hp. by destruct (nth_lookup_or_length (to_bytes p) n "000"%char); [|lia]. }
  rewrite !list_lookup_fmap in El. destruct (ds !! n) as [i|] eqn:Ei; [|done]. injection El as El.
  apply (Hi i eq_refl). apply digit_facts; [|done]. by apply (proj1 (Forall_lookup _ _) Hds n).
Qed.

Lemma second_sextet x b : (b < 128)%nat -> (x * 16 + b / 16 <> 58)%nat.
Proof. lia. Qed.

Lemma fifth_sextet d : (d < 128)%nat -> (d / 4 <> 58)%nat.
Proof. lia. Qed.

(** The second sextet of an ASCII text, and the fifth, are not 58, the "6" of the
    prefixes that mark a user string in base64. *)
Lemma sextets_ascii l : Forall (fun a => a < 128)%nat l ->
  (forall i, sextets l !! 1%nat = Some i -> i <> 58%nat) /\ (forall i, sextets l !! 4%nat = Some i -> i <> 58%nat).
Proof.
  intros Hl. split.
  - destruct l as [|a [|b [|c l]]]; repeat apply Forall_cons in Hl as [? Hl]; try done; intros i E;
      [|by apply Some_inj in E as <-; apply second_sextet..].
    apply Some_inj in E as <-. pose proof (second_sextet (a mod 4) 0). lia.
  - destruct l as [|a [|b [|c [|d [|e [|f l]]]]]]; repeat apply Forall_cons in Hl as [? Hl]; try done;
      intros i E; apply Some_inj in E as <-; by apply fifth_sextet.
Qed.

(** C38. What the provisioner writes it reads back: of the text of a canonical user
    string, when it is ASCII, the stored form parses to what the text itself parses
    to. The stored form is never taken for one of the forms that start with "b64-" or
    "base64-", although digits and "-" are digits of the encoding. *)
Theorem stored_userstr_parses {U} (ParseUserStr : string -> option U) Canonicalize us :
  us_Text us <> "" -> plain_text (us_Text us) ->
  parseCanonicalUserStrFromBase64 ParseUserStr Canonicalize (canonicalUserStrToBase64 EncodeToString (Some us)) =
    ParseUserStr (us_Text us) ≫= Canonicalize.
Proof.
  unfold plain_text. intros Hne Hp. cbn [canonicalUserStrToBase64]. apply String.eqb_neq in Hne as Hb. rewrite Hb.
  unfold parseCanonicalUserStrFromBase64. destruct (String.eqb_spec (EncodeToString (us_Text us)) "") as [E|_].
  { exfalso. apply Hne. pose proof (DecodeString_EncodeToString (us_Text us)) as H. rewrite E in H. by injection H. }
  rewrite DecodeString_EncodeToString.
  assert (Hs : Forall (fun i => i < 64)%nat (sextets (nat_of_ascii <$> to_bytes (us_Text us)))) by apply sextets_small, bytes_small.
  destruct (sextets_ascii (nat_of_ascii <$> to_bytes (us_Text us))) as [H1 H4]; [by apply Forall_fmap|].
  cbv zeta. unfold EncodeToString at 1 2. rewrite to_bytes_of_bytes, to_lower_ascii.
  - rewrite (prefix_digit 1), (prefix_digit 4); [done|cbn; lia|done|done|done|cbn; lia|done|done|done].
  - apply Forall_fmap. eapply Forall_impl; [exact Hs|]. intros i Hi. by apply digit_facts.
Qed.

Module UserStrSample.
Definition text : string := "alice@acme/dev".
Definition parse (s : string) : option string := if contains s "@" then Some s else None.
Definition canonical (s : string) : option CanonicalUserStr := Some (mkUserStr s "alice-dev").
(** Bytes beyond ASCII could collide. *)
Example collision : EncodeToString (of_bytes ["111"; "174"; "062"; "065"]%char) = "b64-QQ".
Proof. vm_compute. reflexivity. Qed.
End UserStrSample.

Lemma stored_userstr_parses_witness :
  EncodeToString UserStrSample.text = "YWxpY2VAYWNtZS9kZXY" /\
  parseCanonicalUserStrFromBase64 UserStrSample.parse UserStrSample.canonical "YWxpY2VAYWNtZS9kZXY" =
    Some (mkUserStr UserStrSample.text "alice-dev").
Proof.
  assert (He : EncodeToString UserStrSample.text = "YWxpY2VAYWNtZS9kZXY") by (vm_compute; reflexivity).
  split; [exact He|]. rewrite <- He.
  refine (stored_userstr_parses UserStrSample.parse UserStrSample.canonical (mkUserStr UserStrSample.text "") _ _).
  - discriminate.
  - repeat constructor.
Defined.
